(* ===== verification/_CoqProject ===== *)
-Q . S2P
Prelude.v
AppErrors.v
Effects.v
GoStd.v
GoText.v
EthClient.v
AuthMessages.v
NonceStore.v
UserStore.v
Whitelist.v
Login.v
RelayerStore.v
Decimal.v
RelayerChains.v
EthTransactor.v
RelayerProcessor.v
RelayerEngine.v
RelayerEngineProofs.v
RelayerConcurrency.v
RelayerScenarios.v
RelayerDelivery.v
DamlValues.v
Streaming.v
LedgerApi.v
Keys.v
TokenCodec.v
LedgerClient.v
StreamingClient.v
Identity.v
BridgeClient.v
BridgeProofs.v
TokenRegistry.v
TokenClient.v
TokenClientProofs.v
CantonClient.v
PreparedCache.v
IndexerStore.v
IndexerProcessor.v
IndexerLedger.v
IndexerHistory.v
IndexerApi.v
IndexerApiProofs.v
IndexerDecoder.v
IndexerScenarios.v
EvmStore.v
EvmMiner.v
Migrations.v
SchemaCatalog.v
SchemaMigrations.v
Instrumented.v
EthMetrics.v
MetricsRegistry.v
CacheMetrics.v
RelayerMetrics.v
IndexerMetrics.v
EvmLifecycle.v
EvmSubmitter.v
EvmMetrics.v
EvmService.v
EvmServiceProofs.v
Erc20Service.v
EvmScenarios.v
UserService.v
UserServiceProofs.v
TransferService.v
TransferServiceProofs.v
Logging.v
TransferHttp.v
HttpRouter.v
EvmJsonRpc.v
ApiServer.v
ServiceHttp.v
Startup.v
ConfigLoad.v
IndexerPipeline.v
ReconcilerStore.v
Reconciler.v
ReconcilerProofs.v
AcceptWorker.v
ServerLifecycle.v
