(* ===== verification/Prelude.v ===== *)
(** * Canton middleware: a verification development

    The middleware connects an Ethereum bridge contract and a Canton ledger,
    and lets Ethereum wallets hold and move Canton tokens.  This library models
    the Go code that carries its logic and proves what makes that code correct.
    File and function names below are those of the repository.

    ** The program and its parts

    - The relayer (pkg/relayer) moves transfers between the chains.  A source
      delivers deposit or withdrawal events, the processor records each event
      as a transfer row, submits it to the other chain, updates the row and
      persists the source offset; the engine loads the offsets at start, restarts
      the Canton processor, retries stuck transfers and reports readiness.
      Deposits come from the poller of pkg/ethereum/client.go, withdrawals from
      the stream of pkg/cantonsdk/bridge; the same two clients submit.
    - The indexer (pkg/indexer) follows the Canton update stream
      (pkg/cantonsdk/streaming, with the accessors of pkg/cantonsdk/values),
      decodes token events, offers and holdings, and keeps balances, supplies,
      holder counts, events and transfer histories in PostgreSQL, each batch in
      one transaction with its offset.  Its query API (pkg/indexer/service) has
      an HTTP client (pkg/indexer/client) that the API server uses.
    - The EVM facade (pkg/ethrpc) lets Ethereum wallets use Canton tokens.
      eth_sendRawTransaction validates a signed ERC-20 transfer and records it
      in a mempool table; the submitter executes pending entries on Canton with
      a pool of goroutines, through the ERC-20 view of pkg/token; the miner seals
      terminal entries into synthetic blocks; the read handlers answer from the
      mined tables.
    - The API server (pkg/app/api) registers users (pkg/user, pkg/userstore,
      with the whitelist), signs them in (pkg/auth), holds the keys of custodial
      users (pkg/keys), transfers for custodial users and prepares transfers for
      external wallets (pkg/transfer), accepts offers to custodial users
      (pkg/custodial) and caches balances (pkg/reconciler).
    - The ledger clients (pkg/cantonsdk: ledger, identity, token, bridge) build
      the commands of the Ledger API and read its answers.
    - Three servers (pkg/app/api, relayer, indexer) load their configuration,
      open the database and the clients, run these parts as goroutines and
      shut them down on a signal.

    ** How the code is modelled

    - Go code that fails or mutates state is a function in the monad [M W A] of
      Effects: state passing with an error value ([result]).  [attempt] keeps an
      error as a value, [wrapping] is fmt.Errorf with %w, [zoom] runs code on a
      part of the state.  [wp] is its weakest precondition; theorems are stated
      with it, so they cover success and every error.
    - A database ([DB]) is its tables with a schedule of faults: every statement
      consumes an entry and fails when the entry is an error.  Theorems quantify
      over the schedule, so they hold whichever statements fail.  [RunInTx]
      keeps or discards the effects of a transaction.
    - The ledger, the registries, the clock and the uuid generator are an
      environment ([Env] of LedgerApi) that answers typed calls as any function
      of the history of exchanges; what a client did is read from the history
      (the effects it holds).  Theorems quantify over the environment.
    - Goroutines that share state are step relations ([drain_step] of
      EvmSubmitter, [sys_step] of RelayerConcurrency, whose steps name the
      goroutine that takes them, [evm_step] of EvmLifecycle, [process_step] of
      ServerLifecycle for the processes themselves, with their signal, error
      group, select loops, deferred calls and time limits); code behind a mutex
      is one step.
    - Error values (AppErrors) follow pkg/app/errors: sentinels, wrapping,
      service errors with categories, errors.Is and errors.As.
    - Integers are [Z] with their wrap-around written out ([uint64], [int64]);
      bytes, addresses and hashes are lists of [Z]; time is in nanoseconds or, in
      the EVM tables, seconds.  Clock readings are arguments or calls.
    - Code outside the repository is a class: go-ethereum ([GoEthereum],
      [EthTypes], [Secp256k1], [Curve]), the Ethereum node ([EthNode]), AES-GCM
      and HKDF ([AesGcm]), the JWT and Sign-In libraries ([JWTLib], [SIWE]),
      shopspring/decimal ([DecimalLib]), PostgreSQL ([PgNumeric], [PgServer]),
      the chi router ([ChiRouter]), encoding/json ([Wire], [TimeJSON]) and
      sort.Slice ([SortSlice]).  The JSON-RPC server of go-ethereum is any
      strategy that invokes registered methods and responds ([Serving]).  What the code relies on of them is a separate
      class of laws ([DecimalLaws], [CurveLaws], [ChiLaws] and the like); the
      instances of Decimal, of the Scenarios files and of the witnesses show
      that the laws can be met.
    - Interfaces of the program itself are classes too, with laws where a client
      relies on them ([BridgeStore], [CantonBridge], [EthereumBridge],
      [TokenService], [IndexerReader], [PendingOffers], [OfferAcceptor]); the
      modelled implementations are their instances.

    ** Files

    - Shared: Prelude (machine integers, list and map lemmas, tactics, hint
      databases), AppErrors (pkg/app/errors), Effects (the monad, databases,
      [wp]), GoStd and GoText (strconv, strings, hex, base64, fmt), Decimal.
    - Authentication and users: AuthMessages (pkg/auth: signed messages, Canton
      signatures, fingerprints), NonceStore and Login (pkg/auth/service),
      UserStore (pkg/userstore), Whitelist (pkg/user/whitelist), UserService
      and UserServiceProofs (pkg/user/service).
    - Relayer: EthClient (chunkRange, scanDepositRange and the polling loop of
      pkg/ethereum/client.go), EthTransactor (its sending half), RelayerStore
      (pkg/relayer/store), RelayerChains (source.go, destination.go),
      RelayerProcessor (processor.go), RelayerEngine and RelayerEngineProofs
      (engine.go), RelayerMetrics (metrics.go, and the processor and the
      reconciliation with their counters), RelayerConcurrency (the
      goroutines of Start), RelayerScenarios (a concrete world), RelayerDelivery
      (deposits from the chain to the table over many lives of the process).
    - Ledger clients: DamlValues (pkg/cantonsdk/values), Streaming, LedgerApi
      (messages and calls), LedgerClient, Identity, BridgeClient and
      BridgeProofs, TokenCodec, TokenRegistry, TokenClient and
      TokenClientProofs (the packages of the same names under pkg/cantonsdk),
      Keys (pkg/keys: the key pairs and the cipher that stores them), CantonClient (the dial options, tokens and construction of the
      clients: pkg/cantonsdk/client, ledger), StreamingClient (the subscription
      with its reconnects and the builders of its request).
    - Indexer: IndexerStore, IndexerProcessor, IndexerDecoder (pkg/indexer/store,
      engine/processor.go, engine/decoder.go); IndexerLedger and
      IndexerHistory (balances; append-only tables and listings); IndexerApi and
      IndexerApiProofs (service and HTTP client); IndexerPipeline (fetcher.go and
      the whole process over many lives); IndexerScenarios.
    - EVM facade: EvmStore, EvmMiner, EvmSubmitter, EvmService (pkg/ethrpc/store,
      miner, submitter, service/service.go), EvmLifecycle (all writers as one
      step relation), EvmServiceProofs, EvmJsonRpc (the endpoint),
      Erc20Service (pkg/token), EvmScenarios.
    - API server: PreparedCache (pkg/transfer/cache.go and topology_cache.go),
      TransferService and TransferServiceProofs (pkg/transfer/service.go),
      TransferHttp (pkg/transfer/http.go), HttpRouter (pkg/app/http), ApiServer
      (all routes of pkg/app/api but /eth), ServiceHttp (the routes of the
      relayer and of the login service), ReconcilerStore, Reconciler and
      ReconcilerProofs (pkg/reconciler), AcceptWorker (pkg/custodial).
    - Around them: Migrations (the migrations that move data), SchemaCatalog and
      SchemaMigrations (all migrations as operations on a catalog of tables and
      indexes, and the runner of pkg/migrations), Instrumented
      (the stores and the client with metrics), EthMetrics, CacheMetrics,
      IndexerMetrics and EvmMetrics (the deposit poller, the cache, the
      processor, and the miner with the submitter, as they are wired),
      MetricsRegistry (the registration of every metric, its labels, and the
      request middleware), Logging (the log.go decorators), Startup and
      ConfigLoad (configuration rules and wiring decisions; environment
      expansion, the loading of the files and the connection to the database),
      ServerLifecycle (Run of the three servers, ServeAndWait and their
      shutdown).

    ** What the theorems show

    - Relayer: however the store and the chains fail, the processor never
      submits an event twice ([Start_submits_once]) and a reconciliation pass
      submits exactly the due transfers ([runReconciliation_correct]); the
      goroutines of the engine, with the calls they submit, are runs of one
      actor of an interleaving ([goroutines_are_runs]) in which no two submissions of one transfer
      overlap as long as each is over within the retry delay
      ([no_overlapping_submissions]).  Deposits survive restarts that fall
      between blocks ([deposits_survive_restarts]); a process that stops between
      two deposits of one block loses the second, whatever lives follow
      ([split_block_loses_deposit]), and a pass that works on rows read before a
      processor completed them submits such a transfer again
      ([stale_row_is_resubmitted]).  What the destinations submit is the event
      ([CantonDestination_submits], [EthereumDestination_sends]); the stream of
      withdrawals is exactly-once ([StreamWithdrawalEvents_exactly_once]).
      The counters account for the rows ([processor_metrics_account]).
    - Deposit poller: chunkRange partitions its range within the cap, also at
      the end of uint64 ([chunkRange_partition]).
    - Indexer: through crashes, reconnects and failing statements the tables are
      the index of the ledger up to the stored offset ([indexer_exactly_once]),
      and a life whose offset read succeeds and whose stream does not end with
      EOF catches up ([indexer_catches_up]); balances, holder counts
      and supplies agree ([Run_ledger_inv]); history is append-only
      ([Run_history]); decoders emit well-formed items ([stream_batch_ok]); the
      HTTP client gets what the service answers ([client_agrees_with_service]);
      migration 7 preserves the history ([migration7_preserves_history]).
    - EVM facade: the transfer that reaches Canton is the one that was signed
      ([signed_transfer_reaches_canton], [TransferFrom_submits]); a drain calls
      Canton once per entry under every interleaving ([drain_correct]) and
      terminates, canceled or not ([drain_terminates]); mining is atomic and exact
      ([mine_correct]); entries are mined at most once and only move forward
      ([evm_reachable_inv], [evm_lifecycle]); the receipt tells the outcome
      ([receipt_of_mined_entry]); the endpoint only adds pending rows of signed
      transfers, whatever the RPC server makes of a request
      ([endpoint_effects]); the counters of a drain are those of the answers of
      Canton ([drain_counts]).
    - API server: nothing changes without authority
      ([served_requests_are_authorized], [requests_act_for_signer],
      [Login_correct]); registration stores what it checked
      ([RegisterWeb3User_correct]) and custodial keys come back from the store
      ([custodial_key_resolves]); a custodial transfer submits at most one
      transaction, the right one ([TransferByPartyID_submits],
      [selectHoldings_correct]); signatures verify ([SignHashDER_verifies]); the
      whitelist is a set ([whitelist_refines_set]); the worker attempts each
      offer once ([accept_cycle_complete]); what the services and their logging
      decorators log keeps the secrets of the requests ([log_keeps_secrets]); a full reconciliation rebuilds the balances
      ([FullBalanceReconciliation_balances]), except on the migrated schema,
      whose indexes make every upsert fail ([migrated_schema_stores_nothing]).
    - Processes: whatever fails or is signalled at any moment, no goroutine that
      a server waits for uses what its deferred calls have closed, handlers that
      outlive the time limit apart, and a source of events finds its connection
      closed only when its context is done ([no_use_after_close],
      [timed_out_handler_outlives_database]); a constructor that fails can leave
      its connection open ([failed_client_leaks]); a shutdown ends, through the
      select loops of the goroutines, in a number of steps bounded by the work
      left and the events that still arrive ([shutdown_completes]), with an error only when something failed, the canceled context of the
      indexer apart ([exit_status]).  A stream that ends
      with EOF stops the indexing of a live process
      ([closed_stream_stops_indexing]).
    - Clients: the construction of the ledger clients closes what it opened when
      it fails late ([client_New_opens]), except when the user cannot be resolved
      ([client_New_leaks]); a subscription delivers every update once and drops a
      rejected token ([stream_exactly_once], [rejected_token_dropped]); stored
      keys survive a restart with the same master key ([keys_survive_restart]).
    - Schema: the migrations that create tables, columns and indexes resume
      wherever they were interrupted ([interrupted_migrations_resume]); migration
      6 of the API database does not ([migration6_never_resumes]); the migrations
      keep the catalog well-formed ([migrations_keep_wf]).
    - Metrics and configuration: no process registers a metric twice
      ([registration_never_panics]), every use has the labels of its metric
      ([label_values_fit]), instrumentation changes no behaviour
      ([m_tick_erases]); a variable in braces is replaced by its value, once,
      wherever it stands ([ExpandEnv_spec]); a configuration that loads has passed
      its validation ([load_validated_ok]).

    ** Bounds and fuel

    The loop of chunkRange runs with the capacity the code preallocates as fuel
    ([chunk_loop_fuel] shows it is enough).  Digits and bytes are produced with
    a fuel of the binary logarithm, discharged by their round-trip lemmas.
    The retry loop of the indexer takes as many attempts as the schedule of
    faults is long, which is what [processBatchWithRetry_persists] bounds.
    A drain takes at most four steps per entry and three more
    ([drain_terminates]).  The worker's loop over pages has a bound on the
    pages as fuel; its theorem shows that one page more than the offers fill is enough.  The listing of parties
    ends when the ledger returns no token, after as many pages as it has.  Loops
    over channels are folds over the list of delivered values, and a process
    that is killed and restarted is a list of lives, each with the outcomes of
    its calls.

    ** Not modelled

    Prometheus itself (histogram buckets, the observed durations, the text
    format); the times at which tickers fire, which only decide when a modelled
    step runs; the YAML decoder and the zap logger; the log lines of the HTTP
    handlers and of the ledger clients; the network below gRPC, TLS and HTTP; the
    generated protobuf and contract bindings, which are parameters of the clients
    that call them; mocks, scripts and test stacks, which are tools around the
    servers and not part of them. *)

From stdpp Require Export base gmap sets list strings numbers sorting.
From Stdlib Require Export ZArith Lia.

#[global] Set Default Goal Selector "!".
#[global] Open Scope Z_scope.

(** ** Hint databases and tactics of the development *)

Create HintDb canton.
Create Rewrite HintDb canton.

(** Split every conjunction in the context, remove existentials. *)
Ltac crush_hyps :=
  repeat match goal with
  | H : _ /\ _ |- _ => destruct H
  | H : exists _, _ |- _ => destruct H
  | H : (_, _) = (_, _) |- _ => injection H as ?; subst
  | H : Some _ = Some _ |- _ => injection H as ?; subst
  end; simplify_eq.

(** Case on the scrutinee of the match (or [if]) in a hypothesis or the goal. *)
Ltac split_match_in H :=
  match type of H with
  | context [match ?x with _ => _ end] => destruct x eqn:?
  end.

Ltac split_match :=
  match goal with
  | |- context [match ?x with _ => _ end] => destruct x eqn:?
  end.

(** ** Machine integers *)

(** Go's fixed-width integers are kept as [Z]; arithmetic wraps. *)
Definition two64 : Z := 2 ^ 64.
Definition max_uint64 : Z := two64 - 1.
Definition min_int64 : Z := - 2 ^ 63.
Definition max_int64 : Z := 2 ^ 63 - 1.

(** Conversion to [uint64]: reduction modulo 2^64. *)
Definition uint64 (x : Z) : Z := x mod two64.

(** Conversion to [int64]: two's complement. *)
Definition int64 (x : Z) : Z := (x + 2 ^ 63) mod two64 - 2 ^ 63.

Definition is_uint64 (x : Z) : Prop := 0 <= x < two64.
Definition is_int64 (x : Z) : Prop := min_int64 <= x <= max_int64.

Lemma two64_eq : two64 = 18446744073709551616.
Proof. reflexivity. Qed.

Lemma uint64_range x : is_uint64 (uint64 x).
Proof. unfold is_uint64, uint64. apply Z.mod_pos_bound. reflexivity. Qed.

Lemma uint64_id x : is_uint64 x -> uint64 x = x.
Proof. unfold is_uint64, uint64. intros. by apply Z.mod_small. Qed.

Lemma int64_range x : is_int64 (int64 x).
Proof.
  unfold is_int64, int64, min_int64, max_int64.
  pose proof (Z.mod_pos_bound (x + 2 ^ 63) two64 ltac:(reflexivity)) as Hb.
  rewrite two64_eq in *. lia.
Qed.

Lemma int64_id x : is_int64 x -> int64 x = x.
Proof.
  unfold is_int64, int64, min_int64, max_int64. intros H.
  rewrite Z.mod_small; [lia|]. rewrite two64_eq. lia.
Qed.

#[export] Hint Resolve uint64_range int64_range : canton.

(** Unfold the range predicates and decide. *)
Ltac int_lia :=
  unfold is_uint64, is_int64, max_uint64, min_int64, max_int64 in *;
  rewrite ?two64_eq in *; lia.

(** ** Lists *)

Section list_lemmas.
Context {A B : Type}.

Lemma forall_omap (P : B -> Prop) (f : A -> option B) (l : list A) :
  (forall x y, x ∈ l -> f x = Some y -> P y) -> Forall P (omap f l).
Proof.
  intros H. apply Forall_forall. intros y Hy.
  apply list_elem_of_omap in Hy as (x & Hx & Hf). eauto.
Qed.

Lemma filter_none (P : A -> Prop) `{!forall x, Decision (P x)} (l : list A) :
  (forall x, x ∈ l -> ~ P x) -> filter P l = [].
Proof.
  intros Hl. induction l as [|x l IH]; [done|].
  rewrite filter_cons_False by (apply Hl; constructor).
  apply IH. intros y Hy. apply Hl. by constructor.
Qed.

Lemma filter_all (P : A -> Prop) `{!forall x, Decision (P x)} (l : list A) :
  (forall x, x ∈ l -> P x) -> filter P l = l.
Proof.
  intros Hl. induction l as [|x l IH]; [done|].
  rewrite filter_cons_True by (apply Hl; constructor).
  f_equal. apply IH. intros y Hy. apply Hl. by constructor.
Qed.
End list_lemmas.

(** Filters that agree on the elements of a list agree on the list. *)
Lemma filter_ext_in {A} (P Q : A -> Prop) `{!forall x, Decision (P x)} `{!forall x, Decision (Q x)} (l : list A) :
  (forall x, x ∈ l -> P x <-> Q x) -> filter P l = filter Q l.
Proof.
  induction l as [|x l IH]; intros HPQ; [done|]. rewrite !filter_cons, IH by (intros; apply HPQ; by constructor).
  apply decide_ext, HPQ. constructor.
Qed.

(** The reflexive-transitive closure of a step relation is stdpp's [rtc];
    an invariant of every step is an invariant of every reachable state. *)
Lemma rtc_invariant {A} (R : A -> A -> Prop) (P : A -> Prop) :
  (forall x y, P x -> R x y -> P y) -> forall x y, P x -> rtc R x y -> P y.
Proof. intros Hstep x y Hx Hr. induction Hr; eauto. Qed.

(** ** Finite maps *)

Lemma alter_insert_same {K V} `{Countable K} (f : V -> V) (k : K) (v : V) (m : gmap K V) :
  alter f k (<[k := v]> m) = <[k := f v]> m.
Proof.
  apply map_eq. intros j. destruct (decide (k = j)) as [<-|Hne].
  - by rewrite lookup_alter_eq, !lookup_insert_eq.
  - by rewrite lookup_alter_ne, !lookup_insert_ne.
Qed.

Lemma alter_lookup_Some {K V} `{Countable K} (f : V -> V) (k : K) (v : V) (m : gmap K V) :
  m !! k = Some v -> alter f k m = <[k := f v]> m.
Proof.
  intros Hk. rewrite <- (insert_id m k v Hk) at 1. apply alter_insert_same.
Qed.

Lemma alter_lookup_None {K V} `{Countable K} (f : V -> V) (k : K) (m : gmap K V) :
  m !! k = None -> alter f k m = m.
Proof.
  intros Hk. apply map_eq. intros j. destruct (decide (k = j)) as [<-|Hne].
  - by rewrite lookup_alter_eq, Hk.
  - by rewrite lookup_alter_ne.
Qed.
