(* ===== verification/AppErrors.v ===== *)
(** * Errors: Go error values and pkg/app/errors

    Go's [error] interface as the code builds it: package-level sentinels,
    [errors.New], [fmt.Errorf] with [%w], and the [*ServiceError] of
    pkg/app/errors with its category.  [errors.Is] and [errors.As] walk the
    wrapping chain. *)

From S2P Require Import Prelude.

(** Category defines the error category; the order is the [iota] order. *)
Inductive Category :=
| CategoryNoError
| CategoryDataError
| CategoryUnauthorized
| CategoryForbidden
| CategoryResourceNotFound
| CategoryNotSupported
| CategoryDataConflict
| CategoryLocked
| CategoryGone
| CategoryDependencyFailure
| CategoryGeneralError
| CategoryRecovering
| CategoryConnectionTimeout.

#[global] Instance Category_eq_dec : EqDecision Category.
Proof. solve_decision. Defined.

(** The [iota] value of a category. *)
Definition Category_iota (c : Category) : Z :=
  match c with
  | CategoryNoError => 0
  | CategoryDataError => 1
  | CategoryUnauthorized => 2
  | CategoryForbidden => 3
  | CategoryResourceNotFound => 4
  | CategoryNotSupported => 5
  | CategoryDataConflict => 6
  | CategoryLocked => 7
  | CategoryGone => 8
  | CategoryDependencyFailure => 9
  | CategoryGeneralError => 10
  | CategoryRecovering => 11
  | CategoryConnectionTimeout => 12
  end.

Definition Category_String (c : Category) : string :=
  match c with
  | CategoryDataError => "CategoryDataError"
  | CategoryUnauthorized => "CategoryUnauthorized"
  | CategoryForbidden => "CategoryForbidden"
  | CategoryResourceNotFound => "CategoryResourceNotFound"
  | CategoryNotSupported => "CategoryNotSupported"
  | CategoryDataConflict => "CategoryDataConflict"
  | CategoryLocked => "CategoryLocked"
  | CategoryGone => "CategoryGone"
  | CategoryDependencyFailure => "CategoryDependencyFailure"
  | CategoryRecovering => "CategoryRecovering"
  | CategoryConnectionTimeout => "CategoryConnectionTimeout"
  | _ => "CategoryGeneralError"
  end.

(** The gRPC status codes of google.golang.org/grpc/codes. *)
Inductive Code :=
| codes_Canceled
| codes_Unknown
| codes_InvalidArgument
| codes_DeadlineExceeded
| codes_NotFound
| codes_AlreadyExists
| codes_PermissionDenied
| codes_ResourceExhausted
| codes_FailedPrecondition
| codes_Aborted
| codes_OutOfRange
| codes_Unimplemented
| codes_Internal
| codes_Unavailable
| codes_DataLoss
| codes_Unauthenticated.

#[global] Instance Code_eq_dec : EqDecision Code.
Proof. solve_decision. Defined.

(** Go error values.  [ErrVar] is a package-level sentinel, compared by
    identity (its name); [ErrNew] an anonymous [errors.New] (or an opaque
    error of a library); [ErrStatus] the error of a gRPC call, which carries a
    status code; [ErrWrap pre e post] is [fmt.Errorf] with one [%w]
    between the texts [pre] and [post]; [ServiceError] is [*ServiceError],
    whose constructors never leave [Err] nil. *)
Inductive error :=
| ErrVar (name msg : string)
| ErrNew (msg : string)
| ErrStatus (code : Code) (msg : string)
| ErrWrap (pre : string) (inner : error) (post : string)
| ServiceError (cat : Category) (msg : string) (inner : error).

(** [err.Error()]; for a ServiceError the text of the wrapped error. *)
Fixpoint Error (e : error) : string :=
  match e with
  | ErrVar _ m => m
  | ErrNew m => m
  | ErrStatus _ m => m
  | ErrWrap pre i post => pre +:+ Error i +:+ post
  | ServiceError _ _ i => Error i
  end.

(** [errors.Is(err, target)] for a sentinel [target]: identity at each link
    of the chain, and at a ServiceError its own [Is] method, which compares
    its message with [target.Error()]. *)
Fixpoint errors_Is (e : error) (name msg : string) : bool :=
  match e with
  | ErrVar n _ => bool_decide (n = name)
  | ErrNew _ | ErrStatus _ _ => false
  | ErrWrap _ i _ => errors_Is i name msg
  | ServiceError _ m i => bool_decide (m = msg) || errors_Is i name msg
  end.

(** [errors.As(err, &svcErr)]: the outermost ServiceError of the chain, as
    its category and message. *)
Fixpoint errors_As (e : error) : option (Category * string) :=
  match e with
  | ErrVar _ _ | ErrNew _ | ErrStatus _ _ => None
  | ErrWrap _ i _ => errors_As i
  | ServiceError c m _ => Some (c, m)
  end.

(** [status.FromError(err)]: the code of the first gRPC status error of the
    chain, and no code when there is none. *)
Fixpoint status_FromError (e : error) : option Code :=
  match e with
  | ErrVar _ _ | ErrNew _ => None
  | ErrStatus c _ => Some c
  | ErrWrap _ i _ => status_FromError i
  | ServiceError _ _ i => status_FromError i
  end.

(** [Is] of the package: is the error a ServiceError of category [cat]? *)
Definition Is (e : error) (cat : Category) : bool :=
  match errors_As e with
  | Some (c, _) => bool_decide (c = cat)
  | None => false
  end.

(** [IsInternalError]: not a ServiceError, or one whose category is at least
    [CategoryDependencyFailure]. *)
Definition IsInternalError (e : error) : bool :=
  match errors_As e with
  | Some (c, _) => negb (Category_iota c <? Category_iota CategoryDependencyFailure)
  | None => true
  end.

Definition default_err (e : option error) (txt : string) : error :=
  match e with Some e => e | None => ErrNew txt end.

Definition GeneralError (e : option error) : error :=
  ServiceError CategoryGeneralError "Internal Server Error" (default_err e "internal server error").
Definition ResourceNotFoundError (e : option error) (m : string) : error :=
  ServiceError CategoryResourceNotFound m (default_err e ("resource not found:" +:+ m)).
Definition BadRequestError (e : option error) (m : string) : error :=
  ServiceError CategoryDataError m (default_err e ("bad request:" +:+ m)).
Definition NotSupportedError (e : option error) (m : string) : error :=
  ServiceError CategoryNotSupported m (default_err e ("not supported:" +:+ m)).
Definition ForbiddenError (e : option error) (m : string) : error :=
  ServiceError CategoryForbidden m (default_err e "request forbidden").
Definition UnAuthorizedError (e : option error) (m : string) : error :=
  ServiceError CategoryUnauthorized m (default_err e "unauthorized").
Definition DependencyError (e : option error) (m : string) : error :=
  ServiceError CategoryDependencyFailure m (default_err e ("dependency failure: " +:+ m)).
Definition GoneError (e : option error) (m : string) : error :=
  ServiceError CategoryGone m (default_err e ("gone: " +:+ m)).
Definition ConflictError (e : option error) (m : string) : error :=
  ServiceError CategoryDataConflict m (default_err e "conflict").

(** The JSON-RPC error code of a category. *)
Definition ErrorCode (c : Category) : Z :=
  match c with
  | CategoryDataError => -32602
  | CategoryNotSupported => -32601
  | _ => -32000
  end.

(** The HTTP status code of a category. *)
Definition StatusCode (c : Category) : Z :=
  match c with
  | CategoryDataError => 400
  | CategoryUnauthorized => 401
  | CategoryForbidden => 403
  | CategoryResourceNotFound => 404
  | CategoryNotSupported => 405
  | CategoryDataConflict => 409
  | CategoryLocked => 423
  | CategoryGone => 410
  | CategoryDependencyFailure => 502
  | CategoryGeneralError => 500
  | CategoryRecovering => 503
  | CategoryConnectionTimeout => 504
  | CategoryNoError => 500
  end.

(** [DefaultErrorHandler] of pkg/app/http: the status written to the response
    and the body's [error] and [code] fields. *)
Definition DefaultErrorHandler (e : error) : Z * (string * Z) :=
  match errors_As e with
  | Some (c, m) => (StatusCode c, (m, StatusCode c))
  | None => (500, ("Unexpected Service Error"%string, 500))
  end.

(** Wrapping with [fmt.Errorf("...: %w", err)] hides no category. *)
Lemma errors_As_wrap pre e post : errors_As (ErrWrap pre e post) = errors_As e.
Proof. done. Qed.

(** The server-error half of the HTTP mapping is the internal half of the
    categories: an error answered with a 4xx is one whose message is meant
    for the client, and the error the handler sees under any number of
    [%w] wrappings is the same. *)
(** DefaultErrorHandler answers with a 5xx status exactly when the error
    is internal in the sense of IsInternalError, except for a ServiceError of
    category NoError (which no constructor builds); the message of an
    unclassified error never reaches the client. *)
Theorem DefaultErrorHandler_internal e :
  Is e CategoryNoError = false ->
  let '(status, (msg, code)) := DefaultErrorHandler e in
  code = status /\ 400 <= status < 600 /\
  (500 <= status <-> IsInternalError e = true) /\
  (errors_As e = None -> msg = "Unexpected Service Error"%string).
Proof.
  unfold DefaultErrorHandler, IsInternalError, Is.
  destruct (errors_As e) as [[c m]|]; [|intros _; split_and!; done || lia].
  intros Hc. destruct c; cbn; try done; split_and!; done || lia.
Qed.

Lemma DefaultErrorHandler_internal_witness :
  let e := ErrWrap "get token: " (BadRequestError None "bad id") "" in
  Is e CategoryNoError = false /\
  (let '(status, (msg, code)) := DefaultErrorHandler e in
   code = status /\ 400 <= status < 600 /\
   (500 <= status <-> IsInternalError e = true) /\
   (errors_As e = None -> msg = "Unexpected Service Error"%string)) /\
  DefaultErrorHandler e = (400, ("bad id"%string, 400)).
Proof.
  split; [reflexivity|]. split; [|reflexivity].
  exact (DefaultErrorHandler_internal
           (ErrWrap "get token: " (BadRequestError None "bad id") "") eq_refl).
Defined.
