(* ===== verification/Effects.v ===== *)
(** * Effects: fallible state-passing code and database statements

    Go code that mutates state and returns [(value, error)] is a function
    [W -> result A * W]; stdpp's monad notation threads the state and stops at
    the first error, [attempt] is the Go idiom that keeps the error as a
    value.  A database is its tables with a schedule of faults: each statement
    consumes one entry of the schedule and fails when the entry is an error,
    so that a theorem over all schedules covers every failing statement. *)

From S2P Require Import Prelude AppErrors.

Inductive result (A : Type) :=
| Ok (a : A)
| Err (e : error).
Arguments Ok {A} a.
Arguments Err {A} e.

Definition is_ok {A} (r : result A) : bool := match r with Ok _ => true | Err _ => false end.

(** [fmt.Errorf(pre + ": %w", err)] on the error of a result. *)
Definition wrap {A} (pre : string) (r : result A) : result A :=
  match r with Ok a => Ok a | Err e => Err (ErrWrap pre e "") end.

#[global] Instance result_ret : MRet result := fun A a => Ok a.
#[global] Instance result_bind : MBind result := fun A B k r =>
  match r with Ok a => k a | Err e => Err e end.

Definition M (W A : Type) : Type := W -> result A * W.

#[global] Instance M_ret {W} : MRet (M W) := fun A a w => (Ok a, w).
#[global] Instance M_bind {W} : MBind (M W) := fun A B k c w =>
  match c w with
  | (Ok a, w') => k a w'
  | (Err e, w') => (Err e, w')
  end.

Section operations.
Context {W : Type}.

Definition fail {A} (e : error) : M W A := fun w => (Err e, w).
Definition get : M W W := fun w => (Ok w, w).
Definition modify (f : W -> W) : M W unit := fun w => (Ok tt, f w).
(** A pure computation that can fail. *)
Definition lift {A} (r : result A) : M W A := fun w => (r, w).
(** Keep the error as a value: [v, err := c]. *)
Definition attempt {A} (c : M W A) : M W (result A) :=
  fun w => let '(r, w') := c w in (Ok r, w').
(** [if err != nil { return fmt.Errorf("pre: %w", err) }] *)
Definition wrapping {A} (pre : string) (c : M W A) : M W A :=
  fun w => let '(r, w') := c w in (wrap pre r, w').
(** Run a computation on a part of the state. *)
Definition zoom {S A} (proj : W -> S) (upd : S -> W -> W) (c : M S A) : M W A :=
  fun w => let '(r, s) := c (proj w) in (r, upd s w).
(** A [for _, x := range xs] loop that stops at the first error. *)
Fixpoint for_each {X} (xs : list X) (body : X -> M W unit) : M W unit :=
  match xs with
  | [] => mret tt
  | x :: xs => _ ← body x; for_each xs body
  end.
End operations.

(** The weakest precondition of a computation. *)
Definition wp {W A} (c : M W A) (Q : result A -> W -> Prop) (w : W) : Prop :=
  let '(r, w') := c w in Q r w'.

Section wp_rules.
Context {W : Type}.

Lemma wp_ret {A} (a : A) Q (w : W) : Q (Ok a) w -> wp (mret a) Q w.
Proof. done. Qed.

Lemma wp_fail {A} e (Q : result A -> W -> Prop) w : Q (Err e) w -> wp (fail e) Q w.
Proof. done. Qed.

Lemma wp_lift {A} (r : result A) Q (w : W) : Q r w -> wp (lift r) Q w.
Proof. done. Qed.

Lemma wp_modify f (Q : result unit -> W -> Prop) w : Q (Ok tt) (f w) -> wp (modify f) Q w.
Proof. done. Qed.

Lemma wp_get (Q : result W -> W -> Prop) w : Q (Ok w) w -> wp get Q w.
Proof. done. Qed.

Lemma wp_bind {A B} (c : M W A) (k : A -> M W B) Q w :
  wp c (fun r w' => match r with Ok a => wp (k a) Q w' | Err e => Q (Err e) w' end) w ->
  wp (c ≫= k) Q w.
Proof. unfold wp, mbind, M_bind. destruct (c w) as [[a|e] w']; done. Qed.

Lemma wp_attempt {A} (c : M W A) Q w :
  wp c (fun r w' => Q (Ok r) w') w -> wp (attempt c) Q w.
Proof. unfold wp, attempt. destruct (c w); done. Qed.

Lemma wp_wrapping {A} pre (c : M W A) Q w :
  wp c (fun r w' => Q (wrap pre r) w') w -> wp (wrapping pre c) Q w.
Proof. unfold wp, wrapping. destruct (c w); done. Qed.

Lemma wp_zoom {S A} (proj : W -> S) upd (c : M S A) Q w :
  wp c (fun r s => Q r (upd s w)) (proj w) -> wp (zoom proj upd c) Q w.
Proof. unfold wp, zoom. destruct (c (proj w)); done. Qed.

Lemma wp_mono {A} (c : M W A) (P Q : result A -> W -> Prop) w :
  wp c P w -> (forall r w', P r w' -> Q r w') -> wp c Q w.
Proof. unfold wp. destruct (c w); eauto. Qed.

Lemma wp_run {A} (c : M W A) (Q : result A -> W -> Prop) w r w' :
  wp c Q w -> c w = (r, w') -> Q r w'.
Proof. unfold wp. intros H Hc. by rewrite Hc in H. Qed.

Lemma wp_intro {A} (c : M W A) (Q : result A -> W -> Prop) w :
  (forall r w', c w = (r, w') -> Q r w') -> wp c Q w.
Proof. unfold wp. destruct (c w). eauto. Qed.

(** A loop whose body preserves [I] preserves it. *)
Lemma wp_for_each {X} (xs : list X) (body : X -> M W unit) (I : W -> Prop) w :
  I w ->
  (forall x w', x ∈ xs -> I w' -> wp (body x) (fun _ w'' => I w'') w') ->
  wp (for_each xs body) (fun _ w' => I w') w.
Proof.
  revert w. induction xs as [|x xs IH]; intros w Hw Hbody; cbn; [done|].
  apply wp_bind. eapply wp_mono; [apply Hbody; [constructor|done]|].
  intros [[]|e] w' Hw'; [|done]. apply IH; [done|].
  intros y w'' Hy. apply Hbody. by constructor.
Qed.
End wp_rules.

#[export] Hint Resolve wp_ret wp_fail : canton.
Create HintDb schedule.

(** ** A database *)

(** [tables] with the schedule of faults still to come; an exhausted schedule
    means that no further statement fails.  A fault is the message of an error
    value of the database driver, which is none of the program's own error
    variables. *)
Record DB (T : Type) := mkDB { tables : T; faults : list (option string) }.
Arguments mkDB {T} _ _.
Arguments tables {T} _.
Arguments faults {T} _.

Section database.
Context {T : Type}.

Definition set_tables (t : T) (d : DB T) : DB T := mkDB t (faults d).

(** One SQL statement: its effect on the tables and its result, or the
    scheduled fault and no effect. *)
Definition exec {A} (f : T -> A * T) : M (DB T) A := fun d =>
  match faults d with
  | Some m :: fs => (Err (ErrNew m), mkDB (tables d) fs)
  | fs => let '(a, t) := f (tables d) in (Ok a, mkDB t (tail fs))
  end.

(** A SELECT. *)
Definition query {A} (f : T -> A) : M (DB T) A := exec (fun t => (f t, t)).

(** [result.RowsAffected()], which can fail after the statement took effect. *)
Definition RowsAffected (n : Z) : M (DB T) Z := query (fun _ => n).

Lemma wp_exec {A} (f : T -> A * T) Q (d : DB T) :
  (forall fs, Q (Ok (f (tables d)).1) (mkDB (f (tables d)).2 fs)) ->
  (forall m fs, Q (Err (ErrNew m)) (mkDB (tables d) fs)) ->
  wp (exec f) Q d.
Proof.
  intros Hok Herr. unfold wp, exec.
  destruct (f (tables d)) as [a t] eqn:Hf.
  destruct (faults d) as [|[e|] fs]; cbn; eauto.
Qed.

Lemma wp_query {A} (f : T -> A) Q (d : DB T) :
  (forall fs, Q (Ok (f (tables d))) (mkDB (tables d) fs)) ->
  (forall m fs, Q (Err (ErrNew m)) (mkDB (tables d) fs)) ->
  wp (query f) Q d.
Proof. intros. by apply wp_exec. Qed.

(** With no faults scheduled a statement succeeds. *)
Lemma exec_nofault {A} (f : T -> A * T) (t : T) :
  exec f (mkDB t []) = (Ok (f t).1, mkDB (f t).2 []).
Proof. unfold exec; cbn. by destruct (f t). Qed.

Lemma query_nofault {A} (f : T -> A) (t : T) :
  query f (mkDB t []) = (Ok (f t), mkDB t []).
Proof. unfold query. by rewrite exec_nofault. Qed.

(** [db.RunInTx(ctx, fn)]: the effects of [fn] are kept when it returns nil
    and its commit succeeds, and the tables are the old ones otherwise. *)
Definition RunInTx (fn : M (DB T) unit) : M (DB T) unit := fun d =>
  match fn d with
  | (Ok tt, d') =>
      match query (fun _ => tt) d' with
      | (Ok _, d'') => (Ok tt, d'')
      | (Err e, d'') => (Err e, set_tables (tables d) d'')
      end
  | (Err e, d') => (Err e, set_tables (tables d) d')
  end.

Lemma wp_RunInTx fn Q (d : DB T) :
  wp fn (fun r d' =>
    match r with
    | Ok _ => (forall fs, Q (Ok tt) (mkDB (tables d') fs)) /\
              (forall e fs, Q (Err e) (mkDB (tables d) fs))
    | Err e => forall fs, Q (Err e) (mkDB (tables d) fs)
    end) d ->
  wp (RunInTx fn) Q d.
Proof.
  unfold wp, RunInTx. destruct (fn d) as [[[]|e] d'] eqn:Hfn; [|intros H; apply H].
  intros [Hok Herr]. unfold query, exec. destruct (faults d') as [|[e|] fs]; cbn; eauto.
Qed.
End database.

(** LIMIT n of a SELECT: the query builder writes none when n is not positive. *)
Definition sql_limit {A} (n : Z) (l : list A) : list A := if 0 <? n then take (Z.to_nat n) l else l.

Lemma sql_limit_sublist {A} n (l : list A) : sql_limit n l `sublist_of` l.
Proof. unfold sql_limit. destruct (0 <? n); [apply sublist_take|done]. Qed.

Lemma elem_of_sql_limit {A} n (l : list A) x : x ∈ sql_limit n l -> x ∈ l.
Proof.
  unfold sql_limit. destruct (0 <? n); [|done]. intros (i & Hi & _)%elem_of_take. by eapply list_elem_of_lookup_2.
Qed.

Lemma fmap_sql_limit {A B} (f : A -> B) n (l : list A) : f <$> sql_limit n l = sql_limit n (f <$> l).
Proof. unfold sql_limit. destruct (0 <? n); [apply fmap_take|done]. Qed.

(** ** Statements use up the schedule of faults *)

Section schedule.
Context {T : Type}.

Definition pending_faults (d : DB T) : nat := length (faults d).

(** A computation that never extends the schedule. *)
Definition schedule_mono {A} (c : M (DB T) A) : Prop :=
  forall d, (pending_faults (c d).2 <= pending_faults d)%nat.
(** A computation that executes at least one statement. *)
Definition schedule_strict {A} (c : M (DB T) A) : Prop :=
  forall d, (pending_faults (c d).2 <= Nat.pred (pending_faults d))%nat.

Lemma strict_mono {A} (c : M (DB T) A) : schedule_strict c -> schedule_mono c.
Proof. intros H d. specialize (H d). lia. Qed.

Lemma strict_exec {A} (f : T -> A * T) : schedule_strict (exec f).
Proof.
  intros d. unfold exec, pending_faults. destruct (faults d) as [|[m|] fs]; cbn;
    destruct (f (tables d)); cbn; lia.
Qed.

Lemma strict_query {A} (f : T -> A) : schedule_strict (query f).
Proof. apply strict_exec. Qed.

Lemma mono_ret {A} (a : A) : schedule_mono (mret a).
Proof. intros d. cbn. lia. Qed.

Lemma mono_fail {A} e : schedule_mono (A := A) (fail e).
Proof. intros d. cbn. lia. Qed.

Lemma mono_bind {A B} (c : M (DB T) A) (k : A -> M (DB T) B) :
  schedule_mono c -> (forall a, schedule_mono (k a)) -> schedule_mono (c ≫= k).
Proof.
  intros Hc Hk d. unfold mbind, M_bind. specialize (Hc d).
  destruct (c d) as [[a|e] d'] eqn:Heq; cbn in *; [|lia]. specialize (Hk a d'). lia.
Qed.

Lemma strict_bind {A B} (c : M (DB T) A) (k : A -> M (DB T) B) :
  schedule_strict c -> (forall a, schedule_mono (k a)) -> schedule_strict (c ≫= k).
Proof.
  intros Hc Hk d. unfold mbind, M_bind. specialize (Hc d).
  destruct (c d) as [[a|e] d'] eqn:Heq; cbn in *; [|lia]. specialize (Hk a d'). lia.
Qed.

Lemma strict_bind_r {A B} (c : M (DB T) A) (k : A -> M (DB T) B) :
  schedule_mono c -> (forall d e d', c d = (Err e, d') -> (pending_faults d' <= Nat.pred (pending_faults d))%nat) ->
  (forall a, schedule_strict (k a)) -> schedule_strict (c ≫= k).
Proof.
  intros Hc He Hk d. unfold mbind, M_bind. specialize (Hc d).
  destruct (c d) as [[a|e] d'] eqn:Heq; cbn in *; [|by eapply He]. specialize (Hk a d'). lia.
Qed.

Lemma mono_attempt {A} (c : M (DB T) A) : schedule_mono c -> schedule_mono (attempt c).
Proof. intros H d. unfold attempt. specialize (H d). by destruct (c d). Qed.

Lemma mono_wrapping {A} pre (c : M (DB T) A) : schedule_mono c -> schedule_mono (wrapping pre c).
Proof. intros H d. unfold wrapping. specialize (H d). by destruct (c d). Qed.

Lemma strict_wrapping {A} pre (c : M (DB T) A) : schedule_strict c -> schedule_strict (wrapping pre c).
Proof. intros H d. unfold wrapping. specialize (H d). by destruct (c d). Qed.

Lemma strict_RunInTx (fn : M (DB T) unit) : schedule_strict fn -> schedule_strict (RunInTx fn).
Proof.
  intros H d. specialize (H d). unfold RunInTx. destruct (fn d) as [[[]|e] d'] eqn:Heq; cbn in *; [|done].
  pose proof (strict_query (fun _ => tt) d') as Hq.
  destruct (query _ d') as [[|] d'']; unfold pending_faults in *; cbn in *; lia.
Qed.
End schedule.

(** ** Faults surface *)

(** An error that came from the driver, however often it was wrapped. *)
Fixpoint driver_error (e : error) : bool :=
  match e with
  | ErrNew _ => true
  | ErrWrap _ i _ => driver_error i
  | _ => false
  end.

Lemma driver_error_not_var e name msg : driver_error e = true -> errors_Is e name msg = false.
Proof. induction e; cbn; done || auto. Qed.

Section faultless.
Context {T : Type}.

(** A computation that does what it does without faults, or returns an error
    of the driver. *)
Definition surfaces {A} (c : M (DB T) A) : Prop := forall tb fs r d,
  c (mkDB tb fs) = (r, d) ->
  c (mkDB tb []) = (r, mkDB (tables d) []) \/ exists e, r = Err e /\ driver_error e = true.

Lemma surfaces_ret {A} (a : A) : surfaces (mret a).
Proof. intros tb fs r d [= <- <-]. by left. Qed.

Lemma surfaces_fail {A} e : surfaces (A := A) (fail e).
Proof. intros tb fs r d [= <- <-]. by left. Qed.

Lemma surfaces_exec {A} (f : T -> A * T) : surfaces (exec f).
Proof.
  intros tb fs r d. unfold exec; cbn. destruct (f tb) as [a tb'] eqn:Hf.
  destruct fs as [|[m|] fs]; cbn; rewrite ?Hf; intros [= <- <-]; eauto.
Qed.

Lemma surfaces_query {A} (f : T -> A) : surfaces (query f).
Proof. apply surfaces_exec. Qed.

Lemma surfaces_bind {A B} (c : M (DB T) A) (k : A -> M (DB T) B) :
  surfaces c -> (forall a, surfaces (k a)) -> surfaces (c ≫= k).
Proof.
  intros Hc Hk tb fs r d. unfold mbind, M_bind.
  destruct (c (mkDB tb fs)) as [[a|e] d1] eqn:Hrun.
  - destruct (Hc _ _ _ _ Hrun) as [->|(e & [=] & _)]. destruct d1 as [tb1 fs1]. apply Hk.
  - intros [= <- <-]. destruct (Hc _ _ _ _ Hrun) as [->|(e' & [= <-] & He)]; eauto.
Qed.

Lemma surfaces_wrapping {A} pre (c : M (DB T) A) : surfaces c -> surfaces (wrapping pre c).
Proof.
  intros Hc tb fs r d. unfold wrapping. destruct (c (mkDB tb fs)) as [r1 d1] eqn:Hrun.
  intros [= <- <-]. destruct (Hc _ _ _ _ Hrun) as [->|(e & -> & He)]; cbn; eauto.
Qed.

(** A caught error must be returned again when it is the driver's. *)
Lemma surfaces_attempt {A B} (c : M (DB T) A) (k : result A -> M (DB T) B) :
  surfaces c -> (forall r, surfaces (k r)) ->
  (forall e d, driver_error e = true -> exists e' d', k (Err e) d = (Err e', d') /\ driver_error e' = true) ->
  surfaces (attempt c ≫= k).
Proof.
  intros Hc Hk He tb fs r d. unfold mbind, M_bind, attempt.
  destruct (c (mkDB tb fs)) as [r1 d1] eqn:Hrun. intros Hd.
  destruct (Hc _ _ _ _ Hrun) as [->|(e & -> & Hdr)].
  - destruct d1 as [tb1 fs1]. by apply Hk in Hd.
  - destruct (He e d1 Hdr) as (e' & d' & Hk' & Hdr'). rewrite Hk' in Hd. simplify_eq. eauto.
Qed.

Lemma surfaces_for_each {X} (l : list X) (f : X -> M (DB T) unit) :
  (forall x, surfaces (f x)) -> surfaces (for_each l f).
Proof.
  intros Hf. induction l as [|x l IH]; cbn; [apply surfaces_ret|]. by apply surfaces_bind.
Qed.

Lemma surfaces_RunInTx (fn : M (DB T) unit) : surfaces fn -> surfaces (RunInTx fn).
Proof.
  intros Hf tb fs r d. unfold RunInTx. destruct (fn (mkDB tb fs)) as [[[]|e] [tb1 fs1]] eqn:Hrun.
  - destruct (Hf _ _ _ _ Hrun) as [->|(e & [=] & _)].
    unfold query, exec. cbn. destruct fs1 as [|[m|] fs1]; cbn; intros [= <- <-]; cbn; eauto.
  - intros [= <- <-]. destruct (Hf _ _ _ _ Hrun) as [->|(e' & [= <-] & He)]; cbn; eauto.
Qed.
End faultless.

#[export] Hint Resolve surfaces_ret surfaces_fail surfaces_exec surfaces_query surfaces_bind
  surfaces_wrapping surfaces_for_each surfaces_RunInTx : schedule.
#[export] Hint Resolve strict_exec strict_query mono_ret mono_fail mono_bind strict_bind
  mono_attempt mono_wrapping strict_wrapping : schedule.
#[export] Hint Resolve strict_mono | 10 : schedule.

(** Walk through straight-line monadic code, leaving one goal per outcome. *)
Ltac wp_step :=
  lazymatch goal with
  | |- wp (mret _) _ _ => apply wp_ret
  | |- wp (fail _) _ _ => apply wp_fail
  | |- wp (lift _) _ _ => apply wp_lift
  | |- wp (modify _) _ _ => apply wp_modify
  | |- wp get _ _ => apply wp_get
  | |- wp (_ ≫= _) _ _ => apply wp_bind
  | |- wp (attempt _) _ _ => apply wp_attempt
  | |- wp (wrapping _ _) _ _ => apply wp_wrapping
  | |- wp (zoom _ _ _) _ _ => apply wp_zoom
  | |- wp (exec _) _ _ => apply wp_exec; intros; cbn [fst snd tables faults]
  | |- wp (query _) _ _ => apply wp_query; intros; cbn [fst snd tables faults]
  | |- wp (RowsAffected _) _ _ => apply wp_query; intros; cbn [fst snd tables faults]
  end.
Ltac wp_go := repeat (wp_step; cbn [wrap]).
