(* ===== verification/GoStd.v ===== *)
(** * The Go standard library the sources use

    strconv's decimal formatting and parsing at 64 bits, math/big's decimal
    parsing, strings.SplitN, encoding/hex, and time.Duration constants. *)

From S2P Require Import Prelude AppErrors Effects.
From Stdlib Require Import Ascii String.
Local Abbreviation length := Datatypes.length.

(** ** Decimal text *)

Definition digit_char (d : Z) : ascii := ascii_of_nat (48 + Z.to_nat d).

Definition digit_val (c : ascii) : option Z :=
  let v := Z.of_nat (nat_of_ascii c) - 48 in
  if (0 <=? v) && (v <=? 9) then Some v else None.

(** The digits of [n], most significant first, in front of [acc]. *)
Fixpoint put_digits (fuel : nat) (n : Z) (acc : string) : string :=
  match fuel with
  | O => acc
  | S fuel =>
      let acc := String (digit_char (n mod 10)) acc in
      if n <? 10 then acc else put_digits fuel (n / 10) acc
  end.

(** strconv.FormatUint(n, 10).  The fuel is the number of bits of [n], which
    is at least its number of decimal digits. *)
Definition FormatUint (n : Z) : string := put_digits (S (Z.to_nat (Z.log2 n))) n "".

(** strconv.FormatInt(n, 10), also big.Int.String. *)
Definition FormatInt (n : Z) : string :=
  if n <? 0 then String "-" (FormatUint (- n)) else FormatUint n.

(** The value of a string of digits after [acc]; None at a character that is
    not a digit. *)
Fixpoint get_digits (s : string) (acc : Z) : option Z :=
  match s with
  | EmptyString => Some acc
  | String c s => d ← digit_val c; get_digits s (acc * 10 + d)
  end.

(** A non-empty string of digits. *)
Definition parse_digits (s : string) : option Z :=
  match s with EmptyString => None | _ => get_digits s 0 end.

(** An optional sign and digits. *)
Definition parse_signed (s : string) : option Z :=
  match s with
  | String "-" s => Z.opp <$> parse_digits s
  | String "+" s => parse_digits s
  | _ => parse_digits s
  end.

(** strconv.ParseUint(s, 10, 64) *)
Definition ParseUint (s : string) : result Z :=
  match parse_digits s with
  | Some n => if n <? two64 then Ok n else Err (ErrVar "strconv.ErrRange" "value out of range")
  | None => Err (ErrVar "strconv.ErrSyntax" "invalid syntax")
  end.

(** strconv.ParseInt(s, 10, 64) *)
Definition ParseInt (s : string) : result Z :=
  match parse_signed s with
  | Some n =>
      if (min_int64 <=? n) && (n <=? max_int64) then Ok n
      else Err (ErrVar "strconv.ErrRange" "value out of range")
  | None => Err (ErrVar "strconv.ErrSyntax" "invalid syntax")
  end.

(** new(big.Int).SetString(s, 10) *)
Definition SetString (s : string) : option Z := parse_signed s.

Lemma digit_val_char d : 0 <= d <= 9 -> digit_val (digit_char d) = Some d.
Proof.
  intros Hd. assert (d = 0 \/ d = 1 \/ d = 2 \/ d = 3 \/ d = 4 \/ d = 5 \/ d = 6 \/ d = 7
    \/ d = 8 \/ d = 9) as Hc by lia.
  repeat (destruct Hc as [->|Hc]; [reflexivity|]). by subst.
Qed.

Lemma digit_char_not d c :
  0 <= d <= 9 -> digit_val c = None -> digit_char d <> c.
Proof. intros Hd Hc <-. by rewrite digit_val_char in Hc. Qed.

Lemma div10_log2 n : 10 <= n -> Z.log2 (n / 10) < Z.log2 n.
Proof.
  intros Hn. pose proof (Z.log2_spec n ltac:(lia)) as [_ Hu].
  apply Z.log2_lt_pow2; [apply Z.div_str_pos; lia|].
  rewrite Z.pow_succ_r in Hu by apply Z.log2_nonneg.
  apply Z.div_lt_upper_bound; lia.
Qed.

Lemma get_put_digits fuel n s :
  0 <= n -> Z.log2 n < Z.of_nat fuel ->
  get_digits (put_digits fuel n s) 0 = get_digits s n.
Proof.
  revert n s. induction fuel as [|fuel IH]; intros n s Hn Hf.
  { pose proof (Z.log2_nonneg n). lia. }
  cbn [put_digits]. pose proof (Z.mod_pos_bound n 10 ltac:(lia)) as Hm.
  destruct (Z.ltb_spec n 10) as [Hlt|Hge].
  - cbn. rewrite digit_val_char by lia. cbn. f_equal. rewrite Z.mod_small; lia.
  - rewrite IH; [|apply Z.div_pos; lia|pose proof (div10_log2 n Hge); lia].
    cbn. rewrite digit_val_char by lia. cbn. f_equal.
    pose proof (Z.div_mod n 10). lia.
Qed.

Lemma put_digits_nonempty fuel n s c : put_digits fuel n (String c s) <> EmptyString.
Proof.
  revert n s c. induction fuel as [|fuel IH]; intros n s c; cbn; [done|].
  destruct (n <? 10); done.
Qed.

(** The first character of a formatted number is a digit. *)
Lemma put_digits_head fuel n c s :
  (exists d, 0 <= d <= 9 /\ c = digit_char d) ->
  exists d s', 0 <= d <= 9 /\ put_digits fuel n (String c s) = String (digit_char d) s'.
Proof.
  revert n c s. induction fuel as [|fuel IH]; intros n c s (d & Hd & ->); cbn; [eauto|].
  pose proof (Z.mod_pos_bound n 10 ltac:(lia)).
  destruct (n <? 10); [do 2 eexists; split; [|done]; lia|].
  apply IH. eexists; split; [|done]; lia.
Qed.

Lemma FormatUint_head n :
  exists d s, 0 <= d <= 9 /\ FormatUint n = String (digit_char d) s.
Proof.
  unfold FormatUint. cbn [put_digits].
  pose proof (Z.mod_pos_bound n 10 ltac:(lia)).
  destruct (n <? 10); [do 2 eexists; split; [|done]; lia|].
  apply put_digits_head. eexists; split; [|done]; lia.
Qed.

Lemma parse_digits_FormatUint n : 0 <= n -> parse_digits (FormatUint n) = Some n.
Proof.
  intros Hn. destruct (FormatUint_head n) as (d & s & Hd & Hs).
  unfold parse_digits. rewrite Hs, <- Hs. unfold FormatUint.
  rewrite get_put_digits; [done|done|]. pose proof (Z.log2_nonneg n). lia.
Qed.

Lemma parse_signed_FormatUint n : 0 <= n -> parse_signed (FormatUint n) = Some n.
Proof.
  intros Hn. rewrite <- (parse_digits_FormatUint n Hn).
  destruct (FormatUint_head n) as (d & s & Hd & ->).
  unfold parse_signed.
  assert (digit_char d <> "-"%char) by (by apply digit_char_not).
  assert (digit_char d <> "+"%char) by (by apply digit_char_not).
  destruct (digit_char d) as [[] [] [] [] [] [] [] []]; try done.
Qed.

Lemma parse_signed_FormatInt n : parse_signed (FormatInt n) = Some n.
Proof.
  unfold FormatInt. destruct (Z.ltb_spec n 0).
  - cbn [parse_signed]. rewrite parse_digits_FormatUint by lia. cbn. f_equal. lia.
  - by apply parse_signed_FormatUint.
Qed.

Lemma ParseUint_FormatUint n : is_uint64 n -> ParseUint (FormatUint n) = Ok n.
Proof.
  intros [Hn Hn']. unfold ParseUint. rewrite parse_digits_FormatUint by done.
  destruct (Z.ltb_spec n two64); [done|lia].
Qed.

Lemma ParseInt_FormatInt n : is_int64 n -> ParseInt (FormatInt n) = Ok n.
Proof.
  intros [Hn Hn']. unfold ParseInt. rewrite parse_signed_FormatInt.
  destruct (Z.leb_spec min_int64 n), (Z.leb_spec n max_int64); cbn; done || lia.
Qed.

Lemma get_digits_nonneg s a n : 0 <= a -> get_digits s a = Some n -> 0 <= n.
Proof.
  revert a. induction s as [|c s IH]; intros a Ha; cbn; [naive_solver|].
  destruct (digit_val c) as [d|] eqn:Hd; [|done]. cbn.
  apply IH. unfold digit_val in Hd. split_match_in Hd; [|done].
  apply andb_true_iff in Heqb as [H1 H2]. simplify_eq. lia.
Qed.

Lemma ParseUint_range s n : ParseUint s = Ok n -> is_uint64 n.
Proof.
  unfold ParseUint, parse_digits. intros H.
  destruct s as [|c s]; [done|].
  destruct (get_digits (String c s) 0) as [m|] eqn:Hm; [|done].
  apply get_digits_nonneg in Hm; [|lia].
  destruct (Z.ltb_spec m two64); [|done]. simplify_eq. done.
Qed.

Lemma ParseInt_range s n : ParseInt s = Ok n -> is_int64 n.
Proof.
  unfold ParseInt. destruct (parse_signed s) as [m|]; [|done].
  destruct (Z.leb_spec min_int64 m), (Z.leb_spec m max_int64); cbn; try done.
  intros ?. simplify_eq. done.
Qed.

#[export] Hint Resolve ParseUint_range ParseInt_range : canton.
#[export] Hint Rewrite ParseUint_FormatUint ParseInt_FormatInt using int_lia : canton.

(** The decimal text of a number starts with a digit, so it is neither empty
    nor any word. *)
Lemma FormatUint_not_digit_head n c s :
  digit_val c = None -> FormatUint n <> String c s.
Proof.
  intros Hc. destruct (FormatUint_head n) as (d & s' & Hd & ->).
  intros [=]. by apply (digit_char_not d c).
Qed.

Lemma FormatUint_nonempty n : FormatUint n <> EmptyString.
Proof. by destruct (FormatUint_head n) as (d & s' & Hd & ->). Qed.

Lemma FormatUint_inj n m : 0 <= n -> 0 <= m -> FormatUint n = FormatUint m -> n = m.
Proof.
  intros Hn Hm Heq. apply (f_equal parse_digits) in Heq.
  rewrite !parse_digits_FormatUint in Heq by done. by simplify_eq.
Qed.

(** ** strings.SplitN(s, sep, 2) for a one-character separator *)

Fixpoint split_first (sep : ascii) (s : string) : string * option string :=
  match s with
  | EmptyString => (EmptyString, None)
  | String c s' =>
      if Ascii.eqb c sep then (EmptyString, Some s')
      else let '(a, b) := split_first sep s' in (String c a, b)
  end.

Definition SplitN2 (s : string) (sep : ascii) : list string :=
  match split_first sep s with
  | (a, None) => [a]
  | (a, Some b) => [a; b]
  end.

(** All characters of a string differ from [sep]. *)
Fixpoint no_char (sep : ascii) (s : string) : Prop :=
  match s with EmptyString => True | String c s => c <> sep /\ no_char sep s end.

Lemma split_first_app sep a b :
  no_char sep a -> split_first sep (a +:+ String sep b) = (a, Some b).
Proof.
  induction a as [|c a IH]; intros Ha.
  - change (split_first sep (String sep b) = (EmptyString, Some b)).
    unfold split_first; fold split_first. by rewrite Ascii.eqb_refl.
  - destruct Ha as [Hc Ha]. apply Ascii.eqb_neq in Hc.
    change (split_first sep (String c (a +:+ String sep b)) = (String c a, Some b)).
    unfold split_first; fold split_first. by rewrite Hc, (IH Ha).
Qed.

Lemma put_digits_no_char sep fuel n s :
  digit_val sep = None -> no_char sep s -> no_char sep (put_digits fuel n s).
Proof.
  intros Hsep. revert n s. induction fuel as [|fuel IH]; intros n s Hs; cbn; [done|].
  pose proof (Z.mod_pos_bound n 10 ltac:(lia)).
  assert (no_char sep (String (digit_char (n mod 10)) s)).
  { cbn. split; [apply digit_char_not; [lia|done]|done]. }
  destruct (n <? 10); [done|by apply IH].
Qed.

Lemma FormatUint_no_char sep n : digit_val sep = None -> no_char sep (FormatUint n).
Proof. intros. by apply put_digits_no_char. Qed.

(** ** encoding/hex and fixed-width byte arrays *)

Definition hex_val (c : ascii) : option Z :=
  let v := Z.of_nat (nat_of_ascii c) in
  if (48 <=? v) && (v <=? 57) then Some (v - 48)
  else if (97 <=? v) && (v <=? 102) then Some (v - 87)
  else if (65 <=? v) && (v <=? 70) then Some (v - 55)
  else None.

Definition hex_char (d : Z) : ascii :=
  ascii_of_nat (Z.to_nat (if d <? 10 then 48 + d else 87 + d)).

(** hex.EncodeToString, also the verb %x on bytes. *)
Fixpoint hex_encode (bs : list Z) : string :=
  match bs with
  | [] => EmptyString
  | b :: bs => String (hex_char (b / 16)) (String (hex_char (b mod 16)) (hex_encode bs))
  end.

(** hex.DecodeString *)
Fixpoint hex_decode (s : string) : option (list Z) :=
  match s with
  | EmptyString => Some []
  | String a (String b s) =>
      h ← hex_val a; l ← hex_val b; bs ← hex_decode s; Some (h * 16 + l :: bs)
  | String _ EmptyString => None
  end.

(** [copy(arr[:], bs)] into a zeroed array of [n] bytes. *)
Definition copy_into (n : nat) (bs : list Z) : list Z :=
  take n bs ++ replicate (n - length bs) 0.

Lemma hex_val_char d : 0 <= d < 16 -> hex_val (hex_char d) = Some d.
Proof.
  intros Hd. assert (d = 0 \/ d = 1 \/ d = 2 \/ d = 3 \/ d = 4 \/ d = 5 \/ d = 6 \/ d = 7
    \/ d = 8 \/ d = 9 \/ d = 10 \/ d = 11 \/ d = 12 \/ d = 13 \/ d = 14 \/ d = 15) as Hc by lia.
  repeat (destruct Hc as [->|Hc]; [reflexivity|]). by subst.
Qed.

Lemma hex_decode_encode bs :
  Forall (fun b => 0 <= b < 256) bs -> hex_decode (hex_encode bs) = Some bs.
Proof.
  induction 1 as [|b bs Hb _ IH]; [done|]. cbn [hex_encode hex_decode].
  pose proof (Z.mod_pos_bound b 16 ltac:(lia)).
  assert (0 <= b / 16 < 16) by (split; [apply Z.div_pos|apply Z.div_lt_upper_bound]; lia).
  rewrite !hex_val_char by done.
  cbn. rewrite IH. cbn. do 2 f_equal. pose proof (Z.div_mod b 16). lia.
Qed.

Lemma length_copy_into n bs : length (copy_into n bs) = n.
Proof. unfold copy_into. rewrite length_app, length_take, length_replicate. lia. Qed.

(** ** time: instants and durations are nanoseconds *)
Definition Second : Z := 1000000000.
Definition Minute : Z := 60 * Second.

(** The verb %q on a text without characters that need an escape. *)
Definition quoted (s : string) : string :=
  String (ascii_of_nat 34) (s +:+ String (ascii_of_nat 34) EmptyString).

#[global] Arguments FormatUint : simpl never.
#[global] Arguments FormatInt : simpl never.
#[global] Arguments ParseUint : simpl never.
#[global] Arguments ParseInt : simpl never.
#[global] Arguments parse_digits : simpl never.
#[global] Arguments parse_signed : simpl never.
#[global] Arguments copy_into : simpl never.

(** strings.ToLower, on the ASCII letters. *)
Definition lower_char (c : ascii) : ascii :=
  let n := nat_of_ascii c in if ((65 <=? n) && (n <=? 90))%nat then ascii_of_nat (n + 32) else c.

Fixpoint ToLower (s : string) : string :=
  match s with EmptyString => EmptyString | String c s => String (lower_char c) (ToLower s) end.

(** ** big.Int bytes *)

Fixpoint put_bytes (fuel : nat) (n : Z) (acc : list Z) : list Z :=
  match fuel with
  | O => acc
  | S fuel => if n =? 0 then acc else put_bytes fuel (n / 256) (n mod 256 :: acc)
  end.

(** big.Int.Bytes: the big-endian bytes of the absolute value, none for 0. *)
Definition big_Bytes (n : Z) : list Z := put_bytes (S (Z.to_nat (Z.log2 (Z.abs n)))) (Z.abs n) [].

(** big.Int.SetBytes: an unsigned big-endian number. *)
Definition SetBytes (b : list Z) : Z := foldl (fun n x => n * 256 + x) 0 b.

Lemma foldl_put_bytes fuel n acc :
  0 <= n -> (Z.to_nat (Z.log2 n) < fuel)%nat -> SetBytes (put_bytes fuel n acc) = foldl (fun n x => n * 256 + x) n acc.
Proof.
  unfold SetBytes. revert n acc. induction fuel as [|fuel IH]; intros n acc Hn Hlt; [lia|].
  cbn. destruct (Z.eqb_spec n 0) as [->|Hne]; [done|].
  destruct (Z.le_gt_cases 256 n) as [Hge|Hsm].
  - rewrite IH; [|by apply Z.div_pos| ].
    + cbn. f_equal. rewrite Z.mul_comm. symmetry. by apply Z.div_mod.
    + assert (Z.log2 (n / 256) < Z.log2 n) as Hl.
      { apply Z.log2_lt_pow2; [apply Z.div_str_pos; lia|]. apply Z.div_lt_upper_bound; [lia|].
        pose proof (Z.log2_spec n) as [_ Hs]; [lia|]. rewrite Z.pow_succ_r in Hs by apply Z.log2_nonneg. lia. }
      pose proof (Z.log2_nonneg (n / 256)). lia.
  - rewrite Z.div_small, Z.mod_small by lia. destruct fuel; cbn; done.
Qed.

Lemma SetBytes_big_Bytes n : 0 <= n -> SetBytes (big_Bytes n) = n.
Proof.
  intros Hn. unfold big_Bytes. rewrite Z.abs_eq by done. by rewrite foldl_put_bytes by lia.
Qed.

#[global] Arguments SetBytes : simpl never.
#[global] Arguments big_Bytes : simpl never.

(** ** Texts: strings.HasPrefix, TrimPrefix, Cut, Split, LastIndex, TrimSpace *)

Fixpoint HasPrefix (s pre : string) {struct pre} : bool :=
  match pre, s with
  | EmptyString, _ => true
  | String c pre, String d s => bool_decide (c = d) && HasPrefix s pre
  | String _ _, EmptyString => false
  end.

(** [s[n:]] for n at most the length. *)
Fixpoint skip (n : nat) (s : string) : string :=
  match n, s with
  | S n, String _ s => skip n s
  | _, _ => s
  end.

Definition TrimPrefix (s pre : string) : string :=
  if HasPrefix s pre then skip (String.length pre) s else s.

(** strings.Cut for a non-empty separator: the texts before and after the
    first occurrence. *)
Fixpoint Cut (s sep : string) : option (string * string) :=
  if HasPrefix s sep then Some (EmptyString, skip (String.length sep) s)
  else match s with
       | EmptyString => None
       | String c s => '(a, b) ← Cut s sep; Some (String c a, b)
       end.

Lemma Cut_length s sep a b : sep <> EmptyString -> Cut s sep = Some (a, b) -> (String.length b < String.length s)%nat.
Proof.
  intros Hsep. revert a b. induction s as [|c s IH]; intros a b; cbn [Cut].
  - destruct sep; [done|]. done.
  - destruct (HasPrefix (String c s) sep).
    + intros [= <- <-]. destruct sep as [|d sep]; [done|]. cbn [String.length skip].
      assert (forall n t, (String.length (skip n t) <= String.length t)%nat) as Hs
        by (induction n as [|n IHn]; intros []; cbn; try lia; specialize (IHn s0); lia).
      specialize (Hs (String.length sep) s). lia.
    + destruct (Cut s sep) as [[a' b']|] eqn:Hc; [|done]. intros [= <- <-].
      specialize (IH _ _ eq_refl). cbn. lia.
Qed.

(** strings.Split for a non-empty separator. *)
Fixpoint split_fuel (fuel : nat) (s sep : string) : list string :=
  match fuel with
  | O => [s]
  | S fuel => match Cut s sep with
              | Some (a, b) => a :: split_fuel fuel b sep
              | None => [s]
              end
  end.
Definition Split (s sep : string) : list string := split_fuel (String.length s) s sep.

(** strings.LastIndex of one character, as the texts before and after it. *)
Fixpoint cut_last (s : string) (sep : ascii) : option (string * string) :=
  match s with
  | EmptyString => None
  | String c s =>
      match cut_last s sep with
      | Some (a, b) => Some (String c a, b)
      | None => if bool_decide (c = sep) then Some (EmptyString, s) else None
      end
  end.

(** strings.EqualFold, on ASCII texts. *)
Definition EqualFold (a b : string) : bool := bool_decide (ToLower a = ToLower b).

(** strings.TrimSpace, on the ASCII spaces. *)
Definition is_space (c : ascii) : bool :=
  let n := nat_of_ascii c in ((9 <=? n) && (n <=? 13) || (n =? 32))%nat.
Fixpoint trim_left (s : string) : string :=
  match s with
  | String c s' => if is_space c then trim_left s' else s
  | EmptyString => s
  end.
Fixpoint trim_right (s : string) : string :=
  match s with
  | String c s' =>
      match trim_right s' with
      | EmptyString => if is_space c then EmptyString else String c EmptyString
      | t => String c t
      end
  | EmptyString => s
  end.
Definition TrimSpace (s : string) : string := trim_right (trim_left s).

(** [s[:n]] *)
Fixpoint upto (n : nat) (s : string) : string :=
  match n, s with
  | S n, String c s => String c (upto n s)
  | _, _ => EmptyString
  end.

(** The bytes of a text. *)
Fixpoint bytes_of (s : string) : list Z :=
  match s with
  | EmptyString => []
  | String c s => Z.of_nat (nat_of_ascii c) :: bytes_of s
  end.

Lemma HasPrefix_app pre s : HasPrefix (pre +:+ s) pre = true.
Proof. induction pre as [|c pre IH]; [done|]. cbn [HasPrefix]. change ((String c pre +:+ s)) with (String c (pre +:+ s)). cbv iota beta. by rewrite bool_decide_eq_true_2. Qed.

Lemma skip_app pre s : skip (String.length pre) (pre +:+ s) = s.
Proof. by induction pre. Qed.

Lemma TrimPrefix_app pre s : TrimPrefix (pre +:+ s) pre = s.
Proof. unfold TrimPrefix. by rewrite HasPrefix_app, skip_app. Qed.

Lemma length_append a b : String.length (a +:+ b) = (String.length a + String.length b)%nat.
Proof. induction a as [|c a IH]; [done|]. change (String c a +:+ b) with (String c (a +:+ b)). cbn. by rewrite IH. Qed.

Lemma length_ToLower s : String.length (ToLower s) = String.length s.
Proof. induction s; cbn; congruence. Qed.

Lemma length_hex_encode bs : String.length (hex_encode bs) = (2 * Datatypes.length bs)%nat.
Proof. induction bs as [|b bs IH]; [done|]. cbn [hex_encode String.length]. rewrite IH. cbn. lia. Qed.

Lemma no_char_app c a b : no_char c a -> no_char c b -> no_char c (a +:+ b).
Proof. induction a as [|d a IH]; [done|]. intros [Hd Ha] Hb. split; auto. Qed.

(** A hexadecimal text has no other character. *)
Lemma hex_no_char c s bs : hex_val c = None -> hex_decode s = Some bs -> no_char c s.
Proof.
  intros Hc. revert s bs. fix IH 1. intros [|a [|b s]] bs; [done|done|]. cbn [hex_decode].
  destruct (hex_val a) eqn:Ha; [|done]. destruct (hex_val b) eqn:Hb; [|done]. cbn.
  destruct (hex_decode s) as [bs'|] eqn:Hs; [|done]. intros _. split; [congruence|].
  split; [congruence|]. by eapply IH.
Qed.

(** ** Texts without spaces *)

Lemma lower_char_space c : is_space (lower_char c) = is_space c.
Proof.
  unfold lower_char. destruct ((65 <=? nat_of_ascii c) && (nat_of_ascii c <=? 90))%nat eqn:Hc; [|done].
  apply andb_true_iff in Hc as [H1%Nat.leb_le H2%Nat.leb_le]. unfold is_space. rewrite nat_ascii_embedding by lia.
  rewrite !(proj2 (Nat.leb_gt _ 13)), !(proj2 (Nat.eqb_neq _ 32)) by lia. by rewrite !andb_false_r.
Qed.

Fixpoint no_space (s : string) : Prop :=
  match s with EmptyString => True | String c s => is_space c = false /\ no_space s end.

Lemma no_space_lower s : no_space (ToLower s) <-> no_space s.
Proof. induction s as [|c s IH]; [done|]. cbn. by rewrite lower_char_space, IH. Qed.

Lemma TrimSpace_none s : no_space s -> TrimSpace s = s.
Proof.
  assert (forall s, no_space s -> trim_right s = s) as Hr.
  { clear. induction s as [|c s IH]; [done|]. intros [Hc Hs]. cbn. rewrite IH by done. destruct s; [by rewrite Hc|done]. }
  intros Hs. unfold TrimSpace. assert (trim_left s = s) as -> by (destruct s; [done|]; cbn; by destruct Hs as [-> _]).
  by apply Hr.
Qed.

Lemma no_space_FormatUint n : no_space (FormatUint n).
Proof.
  unfold FormatUint. generalize (S (Z.to_nat (Z.log2 n))). intros fuel.
  assert (forall acc, no_space acc -> no_space (put_digits fuel n acc)) as Hput; [|by apply Hput].
  assert (forall m, is_space (digit_char (m mod 10)) = false) as Hd.
  { intros m. pose proof (Z.mod_pos_bound m 10 ltac:(lia)). unfold is_space, digit_char.
    rewrite nat_ascii_embedding by lia.
    rewrite (proj2 (Nat.leb_gt _ 13)), (proj2 (Nat.eqb_neq _ 32)) by lia. by rewrite andb_false_r. }
  revert n. induction fuel as [|fuel IH]; intros n acc Hacc; [done|]. cbn [put_digits].
  case_match; [by split|]. apply IH. by split.
Qed.
