(* ===== verification/GoText.v ===== *)
(** * Go standard library: durations, instants and base64

    What the sources use of time (the text of a duration, the saturating
    difference of two instants, the instant of a Unix time) and of
    encoding/base64 (the padded standard alphabet and the unpadded URL
    alphabet).  Instants and durations are nanoseconds; a duration is an int64. *)

From S2P Require Import Prelude AppErrors Effects GoStd.
From Stdlib Require Import Ascii String.
Local Open Scope Z_scope.
Local Abbreviation length := Datatypes.length.

(** ** time *)

Definition Hour : Z := 60 * Minute.
Definition min_duration : Z := min_int64.
Definition max_duration : Z := max_int64.

(** [t.Sub(u)]: the difference, or the nearest duration when it is none. *)
Definition time_Sub (t u : Z) : Z := Z.max min_duration (Z.min max_duration (t - u)).

(** Seconds between the zero time and the epoch. *)
Definition unixToInternal : Z := 62135596800.

(** [time.Unix(sec, 0)]: the seconds are kept relative to the zero time in an
    int64, which wraps around. *)
Definition time_Unix (sec : Z) : Z := (int64 (sec + unixToInternal) - unixToInternal) * Second.

(** [d.Truncate(m)] for m > 0. *)
Definition Truncate (d m : Z) : Z := d - Z.rem d m.

(** Exactly [k] digits of [n], without the trailing zeros. *)
Fixpoint frac_digits (k : nat) (n : Z) (acc : string) : string :=
  match k with
  | O => acc
  | S k =>
      let d := n mod 10 in
      frac_digits k (n / 10)
        (if bool_decide (d = 0 /\ acc = EmptyString) then EmptyString else String (digit_char d) acc)
  end.

(** The fraction of [v] below 10^prec with its point, or nothing. *)
Definition fmtFrac (v : Z) (prec : nat) : string :=
  match frac_digits prec (v mod 10 ^ Z.of_nat prec) EmptyString with
  | EmptyString => EmptyString
  | f => "." +:+ f
  end.

(** [d.String()] *)
Definition Duration_String (d : Z) : string :=
  let u := Z.abs d in
  let neg := if d <? 0 then "-"%string else EmptyString in
  let micro := String (ascii_of_nat 194) (String (ascii_of_nat 181) "s") in
  if u =? 0 then "0s"%string
  else if u <? 1000 then neg +:+ FormatUint u +:+ "ns"
  else if u <? 1000000 then neg +:+ FormatUint (u / 1000) +:+ fmtFrac u 3 +:+ micro
  else if u <? Second then neg +:+ FormatUint (u / 1000000) +:+ fmtFrac u 6 +:+ "ms"
  else
    let s := u / Second in
    let secs := FormatUint (s mod 60) +:+ fmtFrac u 9 +:+ "s" in
    let m := s / 60 in
    neg +:+
    (if m =? 0 then secs
     else if m / 60 =? 0 then FormatUint (m mod 60) +:+ "m" +:+ secs
     else FormatUint (m / 60) +:+ "h" +:+ FormatUint (m mod 60) +:+ "m" +:+ secs).

Example Duration_String_ex :
  Duration_String (3725 * Second + 500000000) = "1h2m5.5s"%string /\
  Duration_String 1500000 = "1.5ms"%string /\ Duration_String (5 * Minute) = "5m0s"%string.
Proof. done. Qed.

Lemma time_Sub_exact t u : is_int64 (t - u) -> time_Sub t u = t - u.
Proof. unfold time_Sub, min_duration, max_duration, is_int64. lia. Qed.

Lemma time_Sub_far_future t u : t - u <= min_int64 -> time_Sub t u = min_int64.
Proof. unfold time_Sub, min_duration, max_duration, min_int64, max_int64. lia. Qed.

Lemma time_Unix_exact sec : is_int64 (sec + unixToInternal) -> time_Unix sec = sec * Second.
Proof. intros H. unfold time_Unix. rewrite int64_id by done. f_equal. lia. Qed.

(** ** encoding/base64 *)

Section base64.
(** The two characters that differ between the alphabets, for 62 and 63. *)
Context (c62 c63 : ascii).

Definition b64_char (v : Z) : ascii :=
  let n := Z.to_nat v in
  if v <? 26 then ascii_of_nat (65 + n)
  else if v <? 52 then ascii_of_nat (97 + (n - 26))
  else if v <? 62 then ascii_of_nat (48 + (n - 52))
  else if v =? 62 then c62 else c63.

Definition b64_val (c : ascii) : option Z :=
  let v := Z.of_nat (nat_of_ascii c) in
  if (65 <=? v) && (v <=? 90) then Some (v - 65)
  else if (97 <=? v) && (v <=? 122) then Some (v - 71)
  else if (48 <=? v) && (v <=? 57) then Some (v + 4)
  else if bool_decide (c = c62) then Some 62
  else if bool_decide (c = c63) then Some 63
  else None.

(** Groups of three bytes as four characters, the last group shorter. *)
Fixpoint b64_put (bs : list Z) : string :=
  match bs with
  | [] => EmptyString
  | [a] => String (b64_char (a / 4)) (String (b64_char (a mod 4 * 16)) EmptyString)
  | [a; b] =>
      String (b64_char (a / 4)) (String (b64_char (a mod 4 * 16 + b / 16))
        (String (b64_char (b mod 16 * 4)) EmptyString))
  | a :: b :: c :: bs =>
      String (b64_char (a / 4)) (String (b64_char (a mod 4 * 16 + b / 16))
        (String (b64_char (b mod 16 * 4 + c / 64)) (String (b64_char (c mod 64)) (b64_put bs))))
  end.

Fixpoint b64_get (s : string) : option (list Z) :=
  match s with
  | EmptyString => Some []
  | String _ EmptyString => None
  | String a (String b EmptyString) =>
      x ← b64_val a; y ← b64_val b; Some [x * 4 + y / 16]
  | String a (String b (String c EmptyString)) =>
      x ← b64_val a; y ← b64_val b; z ← b64_val c; Some [x * 4 + y / 16; y mod 16 * 16 + z / 4]
  | String a (String b (String c (String d s))) =>
      x ← b64_val a; y ← b64_val b; z ← b64_val c; w ← b64_val d;
      r ← b64_get s; Some (x * 4 + y / 16 :: y mod 16 * 16 + z / 4 :: z mod 4 * 64 + w :: r)
  end.

Hypothesis H62 : b64_val c62 = Some 62.
Hypothesis H63 : b64_val c63 = Some 63.

Lemma b64_val_char v : 0 <= v < 64 -> b64_val (b64_char v) = Some v.
Proof.
  intros Hv. destruct (decide (v = 62)) as [->|]; [done|]. destruct (decide (v = 63)) as [->|]; [done|].
  assert (v = Z.of_nat (Z.to_nat v)) as Hn by lia. assert (Z.to_nat v < 62)%nat as Hlt by lia.
  rewrite Hn. clear -Hlt. revert Hlt. generalize (Z.to_nat v). intros k Hk.
  do 62 (destruct k as [|k]; [reflexivity|]). lia.
Qed.

Lemma b64_get_put bs : Forall (fun b => 0 <= b < 256) bs -> b64_get (b64_put bs) = Some bs.
Proof.
  assert (forall a, 0 <= a < 256 -> 0 <= a / 4 < 64 /\ 0 <= a mod 4 < 4 /\ 0 <= a / 16 < 16 /\
    0 <= a mod 16 < 16 /\ 0 <= a / 64 < 4 /\ 0 <= a mod 64 < 64 /\ a = 4 * (a / 4) + a mod 4 /\
    a = 16 * (a / 16) + a mod 16 /\ a = 64 * (a / 64) + a mod 64) as Hd.
  { intros a Ha. repeat split; try (apply Z.mod_pos_bound; lia); try (apply Z.div_pos; lia);
      try (apply Z.div_lt_upper_bound; lia); apply Z.div_mod; lia. }
  assert (forall q r m, 0 <= r < m -> (q * m + r) / m = q /\ (q * m + r) mod m = r) as Hq.
  { intros q r m Hr. split; [rewrite Z.div_add_l by lia; rewrite Z.div_small by lia; lia|].
    rewrite Z.add_comm, Z.mod_add by lia. by apply Z.mod_small. }
  revert bs. fix IH 1. intros [|a [|b [|c bs]]] Hbs; [done| | |].
  - apply Forall_cons in Hbs as [Ha _]. cbn. pose proof (Hd a Ha).
    rewrite !b64_val_char by lia. cbn. f_equal. f_equal.
    replace (a mod 4 * 16) with (a mod 4 * 16 + 0) by lia. destruct (Hq (a mod 4) 0 16) as [-> _]; lia.
  - apply Forall_cons in Hbs as [Ha [Hb _]%Forall_cons]. cbn. pose proof (Hd a Ha). pose proof (Hd b Hb).
    rewrite !b64_val_char by lia. cbn.
    destruct (Hq (a mod 4) (b / 16) 16) as [-> ->]; [lia|].
    replace (b mod 16 * 4) with (b mod 16 * 4 + 0) by lia. destruct (Hq (b mod 16) 0 4) as [-> _]; [lia|].
    f_equal. f_equal; [|f_equal]; lia.
  - apply Forall_cons in Hbs as [Ha [Hb [Hc Hbs]%Forall_cons]%Forall_cons]. cbn.
    pose proof (Hd a Ha). pose proof (Hd b Hb). pose proof (Hd c Hc).
    rewrite !b64_val_char by lia. cbn. rewrite (IH bs Hbs). cbn.
    destruct (Hq (a mod 4) (b / 16) 16) as [-> ->]; [lia|].
    destruct (Hq (b mod 16) (c / 64) 4) as [-> ->]; [lia|].
    f_equal. f_equal; [|f_equal; [|f_equal]]; lia.
Qed.
End base64.

(** base64.RawURLEncoding: '-' and '_', no padding. *)
Definition RawURL_Encode (bs : list Z) : string := b64_put "-" "_" bs.

(** A decoder skips line breaks. *)
Fixpoint drop_newlines (s : string) : string :=
  match s with
  | EmptyString => EmptyString
  | String c s => if bool_decide (c = "010"%char \/ c = "013"%char) then drop_newlines s else String c (drop_newlines s)
  end.

Definition RawURL_Decode (s : string) : option (list Z) := b64_get "-" "_" (drop_newlines s).

(** base64.StdEncoding.DecodeString: '+' and '/', padded to groups of four. *)
Definition strip_padding (s : string) : option string :=
  if negb (bool_decide (String.length s mod 4 = 0)%nat) then None
  else
    let n := String.length s in
    if bool_decide (skip (n - 2) s = "=="%string) then Some (upto (n - 2) s)
    else if bool_decide (skip (n - 1) s = "="%string) then Some (upto (n - 1) s)
    else Some s.
Definition Std_Decode (s : string) : option (list Z) := strip_padding (drop_newlines s) ≫= b64_get "+" "/".

Example Std_Decode_ex :
  Std_Decode "aGk=" = Some [104; 105] /\ Std_Decode "aA==" = Some [104] /\ Std_Decode "aGk" = None /\
  Std_Decode "aGlq" = Some [104; 105; 106] /\ Std_Decode "a===" = None.
Proof. done. Qed.

Lemma drop_newlines_put c62 c63 bs :
  c62 <> "010"%char -> c62 <> "013"%char -> c63 <> "010"%char -> c63 <> "013"%char ->
  drop_newlines (b64_put c62 c63 bs) = b64_put c62 c63 bs.
Proof.
  intros N1 N2 N3 N4.
  assert (forall v, b64_char c62 c63 v <> "010"%char /\ b64_char c62 c63 v <> "013"%char) as Hv.
  { intros v. unfold b64_char. split; repeat case_match; try done;
      intros Hn%(f_equal nat_of_ascii); rewrite nat_ascii_embedding in Hn by lia;
      assert (nat_of_ascii "010" = 10)%nat as E1 by done; assert (nat_of_ascii "013" = 13)%nat as E2 by done;
      rewrite ?E1, ?E2 in Hn; lia. }
  assert (forall v s, drop_newlines (String (b64_char c62 c63 v) s) = String (b64_char c62 c63 v) (drop_newlines s)) as Hc.
  { intros v s. cbn [drop_newlines]. rewrite bool_decide_eq_false_2; [done|]. destruct (Hv v). tauto. }
  revert bs. fix IH 1. intros [|a [|b [|c bs]]]; cbn [b64_put]; rewrite ?Hc; [done..|]. by rewrite IH.
Qed.

Lemma RawURL_roundtrip bs :
  Forall (fun b => 0 <= b < 256) bs -> RawURL_Decode (RawURL_Encode bs) = Some bs.
Proof.
  intros Hbs. unfold RawURL_Decode, RawURL_Encode. rewrite drop_newlines_put by done. by apply b64_get_put.
Qed.

(** base64.StdEncoding.EncodeToString *)
Definition b64_padding (n : nat) : string := match (n mod 3)%nat with 1%nat => "==" | 2%nat => "=" | _ => "" end.
Definition Std_Encode (bs : list Z) : string := b64_put "+" "/" bs +:+ b64_padding (length bs).

Lemma upto_app a b : upto (String.length a) (a +:+ b) = a.
Proof. induction a as [|c a IH]; cbn; [by destruct b|]. by f_equal. Qed.

Lemma skip_le a b n : (n <= String.length a)%nat -> skip n (a +:+ b) = skip n a +:+ b.
Proof.
  revert n. induction a as [|c a IH]; intros [|n] Hn; cbn in *; [done|lia|done|]. apply IH. lia.
Qed.

Lemma no_char_skip c n s : no_char c s -> no_char c (skip n s).
Proof. revert s. induction n as [|n IH]; intros [|d s] Hs; cbn in *; try done. apply IH, Hs. Qed.

Lemma b64_put_no_pad bs : no_char "=" (b64_put "+" "/" bs).
Proof.
  assert (forall v, b64_char "+" "/" v <> "="%char) as Hv.
  { intros v. unfold b64_char. repeat case_match; try done;
      intros Hn%(f_equal nat_of_ascii); rewrite nat_ascii_embedding in Hn by lia;
      assert (nat_of_ascii "=" = 61)%nat as E1 by done; rewrite E1 in Hn; lia. }
  revert bs. fix IH 1. intros [|a [|b [|c bs]]]; cbn [b64_put no_char]; repeat split; try done; apply Hv || apply IH.
Qed.

Lemma length_b64_put c62 c63 bs :
  (String.length (b64_put c62 c63 bs) + String.length (b64_padding (length bs)) = 4 * ((length bs + 2) / 3))%nat.
Proof.
  revert bs. fix IH 1. intros [|a [|b [|c bs]]]; [done..|]. cbn [b64_put String.length length].
  assert (b64_padding (S (S (S (length bs)))) = b64_padding (length bs)) as ->.
  { unfold b64_padding. replace (S (S (S (length bs)))) with (length bs + 1 * 3)%nat by lia. by rewrite Nat.Div0.mod_add. }
  replace (S (S (S (length bs))) + 2)%nat with (length bs + 2 + 1 * 3)%nat by lia.
  rewrite Nat.div_add by done. specialize (IH bs). lia.
Qed.

Lemma app_empty_r s : s +:+ "" = s.
Proof. induction s as [|c s IH]; [done|]. change (String c (s +:+ "") = String c s). by rewrite IH. Qed.

Lemma strip_padding_put bs : strip_padding (Std_Encode bs) = Some (b64_put "+" "/" bs).
Proof.
  unfold strip_padding, Std_Encode. pose proof (length_b64_put "+" "/" bs) as Hl.
  pose proof (b64_put_no_pad bs) as Hp. rewrite length_append, Hl.
  rewrite bool_decide_eq_true_2 by (rewrite Nat.mul_comm; apply Nat.Div0.mod_mul). cbn [negb]. rewrite <- Hl.
  set (p := b64_put "+" "/" bs) in *.
  assert (forall n, skip n p <> "=="%string /\ skip n p <> "="%string) as Hs.
  { intros n. apply (no_char_skip "=" n) in Hp. split; intros E; rewrite E in Hp; by destruct Hp. }
  unfold b64_padding in *. destruct (length bs mod 3)%nat as [|[|[|k]]]; cbn [String.length] in *.
  - rewrite app_empty_r, Nat.add_0_r. by rewrite !bool_decide_eq_false_2 by apply Hs.
  - replace (String.length p + 2 - 2)%nat with (String.length p) by lia.
    rewrite skip_app, upto_app. by rewrite bool_decide_eq_true_2.
  - replace (String.length p + 1 - 1)%nat with (String.length p) by lia.
    assert (String.length p <> 0%nat) as Hne by lia.
    rewrite bool_decide_eq_false_2.
    + rewrite skip_app, upto_app. by rewrite bool_decide_eq_true_2.
    + rewrite skip_le by lia. intros E. destruct (Hs (String.length p + 1 - 2)%nat) as [_ Hn]. apply Hn.
      revert E. generalize (skip (String.length p + 1 - 2) p). intros q E.
      pose proof (f_equal String.length E) as El. rewrite length_append in El. cbn in El.
      destruct q as [|c [|d q]]; cbn in El; [lia| |lia]. injection E as ->. done.
  - rewrite app_empty_r, Nat.add_0_r. by rewrite !bool_decide_eq_false_2 by apply Hs.
Qed.

Lemma drop_newlines_app a b : drop_newlines (a +:+ b) = drop_newlines a +:+ drop_newlines b.
Proof.
  induction a as [|c a IH]; [done|]. change (String c a +:+ b) with (String c (a +:+ b)).
  cbn [drop_newlines]. rewrite IH. by case_bool_decide.
Qed.

Lemma Std_roundtrip bs :
  Forall (fun b => 0 <= b < 256) bs -> Std_Decode (Std_Encode bs) = Some bs.
Proof.
  intros Hbs. unfold Std_Decode.
  assert (drop_newlines (Std_Encode bs) = Std_Encode bs) as ->.
  { unfold Std_Encode. rewrite drop_newlines_app, drop_newlines_put by done. f_equal.
    unfold b64_padding. by repeat case_match. }
  rewrite strip_padding_put. cbn. by apply b64_get_put.
Qed.

(** ** time.RFC3339, in UTC *)

(** The civil date of a day number since the epoch. *)
Definition civil_from_days (days : Z) : Z * Z * Z :=
  let z := days + 719468 in
  let era := z / 146097 in
  let doe := z mod 146097 in
  let yoe := (doe - doe / 1460 + doe / 36524 - doe / 146096) / 365 in
  let doy := doe - (365 * yoe + yoe / 4 - yoe / 100) in
  let mp := (5 * doy + 2) / 153 in
  let m := if mp <? 10 then mp + 3 else mp - 9 in
  let y := yoe + era * 400 + (if m <=? 2 then 1 else 0) in
  (y, m, doy - (153 * mp + 2) / 5 + 1).

Definition pad (width : nat) (n : Z) : string :=
  let s := FormatUint n in
  String.concat "" (replicate (width - String.length s) "0"%string) +:+ s.

(** [t.Format(time.RFC3339)] for t in UTC. *)
Definition RFC3339 (t : Z) : string :=
  let s := t / Second in
  let '(y, m, d) := civil_from_days (s / 86400) in
  let r := s mod 86400 in
  pad 4 y +:+ "-" +:+ pad 2 m +:+ "-" +:+ pad 2 d +:+ "T" +:+
  pad 2 (r / 3600) +:+ ":" +:+ pad 2 (r / 60 mod 60) +:+ ":" +:+ pad 2 (r mod 60) +:+ "Z".

Example RFC3339_ex :
  RFC3339 0 = "1970-01-01T00:00:00Z"%string /\ RFC3339 (1709210096 * Second + 5) = "2024-02-29T12:34:56Z"%string.
Proof. done. Qed.

(** [t.UnixMicro()] *)
Definition UnixMicro (t : Z) : Z := t / 1000.
