(* ===== verification/EthClient.v ===== *)
(** * Ethereum client: pkg/ethereum/client.go

    The deposit poller: splitting a block range into slices under the
    provider's cap, scanning a slice, and one tick of the polling loop with
    its scan-progress checkpoints.  The RPC node is a parameter: the head
    block of a tick and the outcome of the log filter on a slice. *)

From S2P Require Import Prelude AppErrors Effects GoStd.

(** An Ethereum address or a 32-byte hash, as bytes. *)
Abbreviation Address := (list Z).
Abbreviation Hash := (list Z).

(** What the sources call of go-ethereum's common and crypto packages, and of
    crypto/sha256. *)
Class GoEthereum := {
  HexToAddress : string -> Address;
  Address_Hex : Address -> string;
  Hash_Hex : Hash -> string;
  HexToHash : string -> Hash;
  BytesToAddress : list Z -> Address;
  BytesToHash : list Z -> Hash;
  LeftPadBytes : list Z -> Z -> list Z;
  Keccak256 : list Z -> Hash;
  Sum256 : list Z -> list Z;
}.

Record DepositEvent := mkDepositEvent {
  de_Token : Address;
  de_Sender : Address;
  de_CantonRecipient : list Z;
  de_Amount : Z;
  de_Nonce : Z;
  de_BlockNumber : Z;
  de_TxHash : Hash;
  de_LogIndex : Z;
  de_Checkpoint : bool;
}.

(** The checkpoint [&DepositEvent{BlockNumber: n, Checkpoint: true}]. *)
Definition checkpoint_event (n : Z) : DepositEvent :=
  mkDepositEvent [] [] [] 0 0 n [] 0 true.

(** An inclusive span of block numbers. *)
Record blockRange := mkRange { r_start : Z; r_end : Z }.

(** The loop of chunkRange.  The fuel is the capacity the code preallocates,
    [(end-start)/maxRange+1], and [chunk_loop_fuel] shows it is enough. *)
Fixpoint chunk_loop (fuel : nat) (s end_ maxRange : Z) : list blockRange :=
  match fuel with
  | O => []
  | S fuel =>
      if s <=? end_ then
        let e := if maxRange <=? uint64 (end_ - s)
                 then uint64 (uint64 (s + maxRange) - 1) else end_ in
        mkRange s e ::
          (if e =? max_uint64 then [] else chunk_loop fuel (uint64 (e + 1)) end_ maxRange)
      else []
  end.

Definition chunkRange (start end_ maxRange : Z) : list blockRange :=
  if (end_ <? start) || (maxRange =? 0) then []
  else chunk_loop (Z.to_nat ((end_ - start) / maxRange + 1)) start end_ maxRange.

(** The blocks of a range, in order. *)
Definition range_blocks (r : blockRange) : list Z := seqZ (r_start r) (r_end r - r_start r + 1).

(** A slice is non-empty, within the cap, and made of uint64 block numbers. *)
Definition slice_ok (maxRange : Z) (r : blockRange) : Prop :=
  r_start r <= r_end r /\ r_end r - r_start r + 1 <= maxRange /\
  is_uint64 (r_start r) /\ is_uint64 (r_end r).

(** One iteration of the loop, with the wrap-arounds discharged. *)
Lemma chunk_loop_step fuel s end_ maxRange :
  is_uint64 s -> is_uint64 end_ -> is_uint64 maxRange -> 0 < maxRange -> s <= end_ ->
  chunk_loop (S fuel) s end_ maxRange =
    if end_ - s <? maxRange then
      mkRange s end_ :: (if end_ =? max_uint64 then [] else chunk_loop fuel (end_ + 1) end_ maxRange)
    else mkRange s (s + maxRange - 1) :: chunk_loop fuel (s + maxRange) end_ maxRange.
Proof.
  intros Hs He Hm Hm0 Hle. cbn [chunk_loop].
  destruct (Z.leb_spec s end_); [|lia].
  rewrite (uint64_id (end_ - s)) by int_lia.
  destruct (Z.leb_spec maxRange (end_ - s)), (Z.ltb_spec (end_ - s) maxRange); try lia.
  - rewrite (uint64_id (s + maxRange)), (uint64_id (s + maxRange - 1)) by int_lia.
    destruct (Z.eqb_spec (s + maxRange - 1) max_uint64); [int_lia|].
    do 2 f_equal. rewrite uint64_id by int_lia. lia.
  - destruct (Z.eqb_spec end_ max_uint64); [done|]. by rewrite uint64_id by int_lia.
Qed.

Lemma chunk_loop_done fuel s end_ maxRange : end_ < s -> chunk_loop fuel s end_ maxRange = [].
Proof.
  intros. destruct fuel; [done|]. cbn [chunk_loop].
  destruct (Z.leb_spec s end_); [lia|done].
Qed.

Lemma chunk_loop_spec fuel s end_ maxRange :
  is_uint64 s -> is_uint64 end_ -> is_uint64 maxRange -> 0 < maxRange -> s <= end_ + 1 ->
  (end_ - s) / maxRange < Z.of_nat fuel ->
  let cs := chunk_loop fuel s end_ maxRange in
  concat (range_blocks <$> cs) = seqZ s (end_ - s + 1) /\ Forall (slice_ok maxRange) cs.
Proof.
  revert s. induction fuel as [|fuel IH]; intros s Hs He Hm Hm0 Hle Hf.
  { assert (end_ < s).
    { destruct (decide (s <= end_)); [|lia].
      pose proof (Z.div_pos (end_ - s) maxRange). lia. }
    cbn. replace (end_ - s + 1) with 0 by lia. done. }
  destruct (decide (s <= end_)) as [Hle'|Hgt]; cbn zeta;
    [|rewrite chunk_loop_done by lia; replace (end_ - s + 1) with 0 by lia; done].
  rewrite chunk_loop_step by done.
  destruct (Z.ltb_spec (end_ - s) maxRange) as [Hlt|Hge].
  - rewrite (chunk_loop_done fuel (end_ + 1)) by lia.
    destruct (end_ =? max_uint64); cbn; rewrite app_nil_r; unfold range_blocks; cbn;
      (split; [done|]); constructor; try done; unfold slice_ok; cbn; split_and!; done || lia.
  - destruct (IH (s + maxRange)) as [Hc Hok]; try done; try int_lia.
    { replace (end_ - (s + maxRange)) with (end_ - s + (-1) * maxRange) by lia.
      rewrite Z.div_add by lia. lia. }
    rewrite fmap_cons. cbn [concat]. rewrite Hc. unfold range_blocks at 1. cbn [r_start r_end].
    replace (s + maxRange - 1 - s + 1) with maxRange by lia.
    split.
    + replace (end_ - s + 1) with (maxRange + (end_ - (s + maxRange) + 1)) by lia.
      by rewrite (seqZ_app s maxRange (end_ - (s + maxRange) + 1)) by lia.
    + constructor; [|done]. unfold slice_ok; cbn. split_and!; try done; int_lia.
Qed.

(** Any larger fuel gives the same slices: the loop terminates within the
    capacity the code allocates. *)
Lemma chunk_loop_fuel k fuel s end_ maxRange :
  is_uint64 s -> is_uint64 end_ -> is_uint64 maxRange -> 0 < maxRange ->
  (end_ - s) / maxRange < Z.of_nat fuel ->
  chunk_loop (fuel + k) s end_ maxRange = chunk_loop fuel s end_ maxRange.
Proof.
  revert s. induction fuel as [|fuel IH]; intros s Hs He Hm Hm0 Hf.
  { assert (end_ < s).
    { destruct (decide (s <= end_)); [|lia].
      pose proof (Z.div_pos (end_ - s) maxRange). lia. }
    by rewrite !chunk_loop_done by lia. }
  destruct (decide (s <= end_)) as [Hle'|Hgt]; [|by rewrite !chunk_loop_done by lia].
  change (S fuel + k)%nat with (S (fuel + k)). rewrite !chunk_loop_step by done.
  destruct (Z.ltb_spec (end_ - s) maxRange) as [Hlt|Hge].
  - by rewrite !(chunk_loop_done _ (end_ + 1)) by lia.
  - f_equal. apply IH; try done; [int_lia|].
    replace (end_ - (s + maxRange)) with (end_ - s + (-1) * maxRange) by lia.
    rewrite Z.div_add by lia. lia.
Qed.

Lemma chunkRange_loop k start end_ maxRange :
  is_uint64 start -> is_uint64 end_ -> is_uint64 maxRange -> 0 < maxRange -> start <= end_ ->
  chunkRange start end_ maxRange =
    chunk_loop (Z.to_nat ((end_ - start) / maxRange + 1) + k) start end_ maxRange.
Proof.
  intros. unfold chunkRange.
  destruct (Z.ltb_spec end_ start); [lia|]. destruct (Z.eqb_spec maxRange 0); [lia|]. cbn.
  pose proof (Z.div_pos (end_ - start) maxRange).
  rewrite chunk_loop_fuel; try done; lia.
Qed.

(** C36: chunkRange splits the inclusive range exactly: read in order, its
    slices enumerate every block of [start, end] once, each slice is non-empty
    and at most maxRange blocks, no block number overflows uint64, and the
    loop terminates within the capacity it allocates (more iterations add
    nothing). *)
Theorem chunkRange_partition start end_ maxRange (k : nat) :
  is_uint64 start -> is_uint64 end_ -> is_uint64 maxRange -> 0 < maxRange -> start <= end_ ->
  let cs := chunkRange start end_ maxRange in
  concat (range_blocks <$> cs) = seqZ start (end_ - start + 1) /\
  Forall (slice_ok maxRange) cs /\
  cs = chunk_loop (Z.to_nat ((end_ - start) / maxRange + 1) + k) start end_ maxRange.
Proof.
  intros Hs He Hm Hm0 Hle cs. subst cs.
  rewrite (chunkRange_loop 0), Nat.add_0_r by done.
  pose proof (Z.div_pos (end_ - start) maxRange).
  destruct (chunk_loop_spec (Z.to_nat ((end_ - start) / maxRange + 1)) start end_ maxRange)
    as [Hc Hok]; try done; try lia.
  split_and!; [done|done|]. by rewrite chunk_loop_fuel by (done || lia).
Qed.

Lemma chunkRange_partition_witness :
  chunkRange 5 17 5 = [mkRange 5 9; mkRange 10 14; mkRange 15 17] /\
  concat (range_blocks <$> chunkRange (max_uint64 - 1) max_uint64 1)
    = seqZ (max_uint64 - 1) (max_uint64 - (max_uint64 - 1) + 1).
Proof.
  split; [reflexivity|].
  apply (chunkRange_partition (max_uint64 - 1) max_uint64 1 0); int_lia.
Defined.

(** ** Polling *)

(** What the RPC node answers to FilterDepositToCanton on a range: an error,
    or the events of the iterator and the iterator's final error if any. *)
Abbreviation Filter := (blockRange -> result (list DepositEvent * option error)).

(** The poller's state: the local variable [currentBlock], the client's
    [lastScannedBlock], and the state of the consumer behind [handler]. *)
Record Watch (H : Type) := mkWatch {
  currentBlock : Z;
  lastScannedBlock : Z;
  consumer : H;
}.
Arguments mkWatch {H} _ _ _.
Arguments currentBlock {H} _.
Arguments lastScannedBlock {H} _.
Arguments consumer {H} _.

Section Poller.
Context {H : Type}.
Variable handler : DepositEvent -> M H unit.
Variable filter_deposits : Filter.
Variable MaxBlockRange : Z.

Definition setLastScannedBlock (b : Z) : M (Watch H) unit := modify (fun w =>
  mkWatch (currentBlock w) (if lastScannedBlock w <? b then b else lastScannedBlock w) (consumer w)).

Definition advance (b : Z) : M (Watch H) unit := modify (fun w =>
  mkWatch b (lastScannedBlock w) (consumer w)).

Definition handle (ev : DepositEvent) : M (Watch H) unit :=
  zoom consumer (fun h w => mkWatch (currentBlock w) (lastScannedBlock w) h) (handler ev).

(** scanDepositRange: every event of the range to the handler, in order; an
    error of the filter, the handler or the iterator aborts. *)
Definition scanDepositRange (r : blockRange) : M (Watch H) unit :=
  match filter_deposits r with
  | Err e => fail e
  | Ok (evs, iterErr) =>
      _ ← for_each evs (fun ev =>
            wrapping ("handle deposit event 0x" +:+ hex_encode (de_TxHash ev) +:+ ": ") (handle ev));
      match iterErr with
      | Some e => fail e
      | None => mret tt
      end
  end.

(** One slice of the tick: scan, checkpoint, advance. *)
Definition scanSlice (r : blockRange) : M (Watch H) unit :=
  _ ← scanDepositRange r;
  _ ← handle (checkpoint_event (r_end r));
  _ ← advance (r_end r);
  setLastScannedBlock (r_end r).

(** One tick of WatchDepositEvents; [latest] is the answer of
    GetLatestBlockNumber.  An error ends the tick without being reported. *)
Definition tick (latest : result Z) : M (Watch H) unit :=
  match latest with
  | Err _ => mret tt
  | Ok latestBlock =>
      w ← get;
      if latestBlock <=? currentBlock w then setLastScannedBlock latestBlock
      else _ ← attempt (for_each (chunkRange (uint64 (currentBlock w + 1)) latestBlock MaxBlockRange)
                          scanSlice);
           mret tt
  end.

(** The entry of WatchDepositEvents, before the loop. *)
Definition watch_start (fromBlock : Z) (h : H) (scanned : Z) : Watch H :=
  (setLastScannedBlock fromBlock (mkWatch fromBlock scanned h)).2.
End Poller.

(** ** Prefixes of a partition *)

Lemma seqZ_prefix (l k : list Z) s n :
  l ++ k = seqZ s n -> l = seqZ s (Z.of_nat (length l)).
Proof.
  revert s n. induction l as [|x l IH]; intros s n Hl; [done|].
  destruct (decide (0 < n)).
  - rewrite seqZ_cons in Hl by lia. injection Hl as -> Hl.
    rewrite seqZ_cons by (cbn; lia). f_equal.
    rewrite (IH _ _ Hl) at 1. f_equal. cbn. lia.
  - by rewrite seqZ_nil in Hl by lia.
Qed.

Lemma seqZ_last s n : 0 < n -> last (seqZ s n) = Some (s + n - 1).
Proof.
  intros. replace n with ((n - 1) + 1) at 1 by lia.
  rewrite seqZ_app, (seqZ_cons _ 1), (seqZ_nil _ (Z.pred 1)), last_snoc by lia. f_equal. lia.
Qed.

(** A prefix of a partition of [s, ...] covers exactly the blocks up to the
    end of its last slice. *)
Lemma partition_prefix maxRange cs ds s n :
  concat (range_blocks <$> cs) = seqZ s n -> Forall (slice_ok maxRange) cs ->
  ds `prefix_of` cs ->
  let e := default (s - 1) (r_end <$> last ds) in
  concat (range_blocks <$> ds) = seqZ s (e - s + 1) /\ s - 1 <= e <= s - 1 + Z.max 0 n.
Proof.
  intros Hc Hok [k ->] e. rewrite fmap_app, concat_app in Hc.
  pose proof (seqZ_prefix _ _ _ _ Hc) as Hp. apply Forall_app in Hok as [Hok _].
  assert (Z.of_nat (length (concat (range_blocks <$> ds))) = e - s + 1) as Hlen.
  { subst e. destruct ds as [|rg ds _] using rev_ind; [cbn; lia|].
    rewrite last_snoc. cbn [fmap option_fmap option_map default].
    apply Forall_app in Hok as [_ Hrg]. apply Forall_cons in Hrg as [(Hse & _) _].
    rewrite fmap_app, concat_app in *. cbn in *. rewrite app_nil_r in *.
    apply (f_equal last) in Hp. unfold range_blocks at 2 in Hp.
    rewrite last_app, (seqZ_last (r_start rg)) in Hp by lia.
    rewrite seqZ_last in Hp; [simplify_eq; lia|].
    rewrite length_app. unfold range_blocks at 2. rewrite length_seqZ. lia. }
  rewrite Hlen in Hp. split; [done|].
  apply (f_equal length) in Hc. rewrite length_app, length_seqZ in Hc. lia.
Qed.

(** ** What a tick delivers *)

Section Delivery.
Context {H : Type}.
Variable handler : DepositEvent -> M H unit.
Variable filter_deposits : Filter.
Variable MaxBlockRange : Z.
(** The consumer accepts events into a log, in order, or refuses one. *)
Variable log : H -> list DepositEvent.
Hypothesis handler_log : forall ev h,
  wp (handler ev) (fun r h' =>
    log h' = match r with Ok _ => log h ++ [ev] | Err _ => log h end) h.

(** The deposits the node reported for a slice. *)
Definition slice_deposits (r : blockRange) : list DepositEvent :=
  match filter_deposits r with Ok (evs, _) => evs | Err _ => [] end.

(** What a fully scanned slice delivers: its deposits, then the checkpoint. *)
Definition slice_log (r : blockRange) : list DepositEvent :=
  slice_deposits r ++ [checkpoint_event (r_end r)].

Lemma handle_spec ev w :
  wp (handle handler ev) (fun r w' =>
    currentBlock w' = currentBlock w /\ lastScannedBlock w' = lastScannedBlock w /\
    log (consumer w') = match r with Ok _ => log (consumer w) ++ [ev] | Err _ => log (consumer w) end) w.
Proof. unfold handle. wp_go. eapply wp_mono; [apply handler_log|]. cbn. naive_solver. Qed.

Lemma for_each_handle evs f w :
  wp (for_each evs (fun ev => wrapping (f ev) (handle handler ev))) (fun r w' =>
    currentBlock w' = currentBlock w /\ lastScannedBlock w' = lastScannedBlock w /\
    exists k, log (consumer w') = log (consumer w) ++ take k evs /\
      (is_ok r = true -> take k evs = evs)) w.
Proof.
  revert w. induction evs as [|ev evs IH]; intros w; cbn [for_each].
  { wp_go. split_and!; try done. exists 0%nat. by rewrite app_nil_r. }
  wp_go. eapply wp_mono; [apply handle_spec|].
  intros [[]|e] w' (Hc & Hs & Hl); cbn.
  - eapply wp_mono; [apply IH|]. cbn. intros r w'' (-> & -> & k & -> & Hk).
    split_and!; try done. exists (S k). cbn. rewrite Hl, <- app_assoc. split; [done|].
    intros Hr. cbn. by rewrite Hk.
  - split_and!; try done. exists 0%nat. cbn. by rewrite app_nil_r.
Qed.

(** A slice that fails delivered a prefix of its deposits and moved nothing;
    a slice that succeeds delivered its log and advanced to its end. *)
Lemma scanSlice_spec rg w :
  wp (scanSlice handler filter_deposits rg) (fun r w' =>
    match r with
    | Ok _ => currentBlock w' = r_end rg /\
        lastScannedBlock w' = Z.max (lastScannedBlock w) (r_end rg) /\
        log (consumer w') = log (consumer w) ++ slice_log rg
    | Err _ => currentBlock w' = currentBlock w /\ lastScannedBlock w' = lastScannedBlock w /\
        exists k, log (consumer w') = log (consumer w) ++ take k (slice_deposits rg)
    end) w.
Proof.
  unfold scanSlice, scanDepositRange, advance, setLastScannedBlock, slice_log, slice_deposits.
  destruct (filter_deposits rg) as [[evs ierr]|e]; wp_go.
  2:{ split_and!; try done. exists 0%nat. by rewrite app_nil_r. }
  eapply wp_mono; [apply for_each_handle|].
  intros [[]|e] w' (Hc & Hs & k & Hl & Hk); [|naive_solver].
  destruct ierr as [e|]; wp_go; [naive_solver|].
  eapply wp_mono; [apply handle_spec|]. intros [[]|e] w'' (Hc' & Hs' & Hl').
  - wp_go. cbn. rewrite Hl', Hl, Hk, <- app_assoc by done. split_and!; try done.
    rewrite Hs', Hs. destruct (Z.ltb_spec (lastScannedBlock w) (r_end rg)); lia.
  - rewrite Hc', Hs', Hl', Hl. split_and!; try done. eauto.
Qed.

(** The slices [cs] scanned up to the first failure. *)
Lemma for_each_scanSlice cs w :
  wp (for_each cs (scanSlice handler filter_deposits)) (fun r w' =>
    exists done_ partial,
      done_ `prefix_of` cs /\ (is_ok r = true -> done_ = cs) /\
      log (consumer w') = log (consumer w) ++ concat (slice_log <$> done_) ++ partial /\
      (forall ev, ev ∈ partial -> exists rg, rg ∈ cs /\ ev ∈ slice_deposits rg) /\
      currentBlock w' = default (currentBlock w) (r_end <$> last done_) /\
      lastScannedBlock w <= lastScannedBlock w') w.
Proof.
  revert w. induction cs as [|rg cs IH]; intros w; cbn [for_each].
  { wp_go. exists [], []. cbn. rewrite app_nil_r. split_and!; try done; try lia; set_solver. }
  wp_go. eapply wp_mono; [apply scanSlice_spec|]. intros [[]|e] w' Hw.
  - destruct Hw as (Hc & Hs & Hl). eapply wp_mono; [apply IH|].
    intros r w'' (d & p & Hpre & Hok & Hl' & Hp & Hc' & Hs'). exists (rg :: d), p.
    split_and!.
    + by apply prefix_cons.
    + intros Hr. by rewrite (Hok Hr).
    + rewrite Hl', Hl. cbn. by rewrite <- !app_assoc.
    + intros ev Hev. destruct (Hp ev Hev) as (rg' & ? & ?). exists rg'.
      split; [by constructor|done].
    + rewrite Hc', Hc, last_cons. by destruct (last d).
    + lia.
  - destruct Hw as (Hc & Hs & k & Hl). exists [], (take k (slice_deposits rg)).
    split_and!; try done; try lia; [apply prefix_nil|].
    intros ev Hev. exists rg. split; [constructor|]. apply elem_of_take in Hev as (i & Hi & _).
    by eapply list_elem_of_lookup_2.
Qed.

(** One tick of the deposit poller delivers in order and never skips:
    the log grows by the complete slices it finished (each slice's deposits
    followed by its checkpoint) and then possibly by some deposits of the
    slice that failed; currentBlock advances exactly over the blocks of the
    finished slices, never past the head, and lastScannedBlock never
    decreases. *)
Theorem tick_delivery (w : Watch H) latest :
  is_uint64 (currentBlock w) -> is_uint64 latest -> is_uint64 MaxBlockRange -> 0 < MaxBlockRange ->
  let w' := (tick handler filter_deposits MaxBlockRange (Ok latest) w).2 in
  exists done_ partial,
    log (consumer w') = log (consumer w) ++ concat (slice_log <$> done_) ++ partial /\
    concat (range_blocks <$> done_) = seqZ (currentBlock w + 1) (currentBlock w' - currentBlock w) /\
    (forall ev, ev ∈ partial -> exists rg, rg ∈ chunkRange (currentBlock w + 1) latest MaxBlockRange /\
       ev ∈ slice_deposits rg) /\
    currentBlock w <= currentBlock w' <= Z.max (currentBlock w) latest /\
    lastScannedBlock w <= lastScannedBlock w'.
Proof.
  intros Hc Hl Hm Hm0. cbn zeta. unfold tick, mbind, M_bind, get. cbn.
  destruct (Z.leb_spec latest (currentBlock w)).
  { cbn. exists [], []. cbn. rewrite app_nil_r, Z.sub_diag. split_and!; try done; try lia; [set_solver|].
    destruct (Z.ltb_spec (lastScannedBlock w) latest); lia. }
  rewrite (uint64_id (currentBlock w + 1)) by int_lia.
  set (cs := chunkRange (currentBlock w + 1) latest MaxBlockRange).
  pose proof (chunkRange_loop 0 (currentBlock w + 1) latest MaxBlockRange
    ltac:(int_lia) Hl Hm Hm0 ltac:(lia)) as Hcs.
  rewrite Nat.add_0_r in Hcs. fold cs in Hcs.
  destruct (chunk_loop_spec (Z.to_nat ((latest - (currentBlock w + 1)) / MaxBlockRange + 1))
    (currentBlock w + 1) latest MaxBlockRange) as [Hcat Hok]; try done; try int_lia.
  rewrite <- Hcs in Hcat, Hok.
  pose proof (for_each_scanSlice cs w) as Hloop. unfold wp, attempt in *.
  destruct (for_each cs (scanSlice handler filter_deposits) w) as [r w'] eqn:Hrun. cbn.
  destruct Hloop as (d & p & Hpre & _ & Hlog & Hp & Hcur & Hs). exists d, p.
  destruct (partition_prefix _ _ _ _ _ Hcat Hok Hpre) as [Hd He].
  replace (currentBlock w + 1 - 1) with (currentBlock w) in * by lia.
  rewrite <- Hcur in Hd, He. rewrite Hd. split_and!; try done; try lia. f_equal; lia.
Qed.
End Delivery.

(** A recording consumer that refuses the events after its quota. *)
Definition record_handler (ev : DepositEvent) : M (list DepositEvent * nat) unit := fun '(l, quota) =>
  match quota with
  | O => (Err (ErrNew "context canceled"), (l, O))
  | S q => (Ok tt, (l ++ [ev], q))
  end.

Definition example_deposit (n : Z) : DepositEvent :=
  mkDepositEvent [1] [2] [3] 1000 0 n [n] 0 false.

Definition example_filter : Filter := fun r => Ok ([example_deposit (r_start r)], None).

Lemma tick_delivery_witness :
  let w := mkWatch 10 10 ([], 3%nat) in
  let w' := (tick record_handler example_filter 4 (Ok 18) w).2 in
  currentBlock w' = 14 /\ (consumer w').1 = [example_deposit 11; checkpoint_event 14; example_deposit 15] /\
  exists done_ partial,
    (consumer w').1 = (consumer w).1 ++ concat (slice_log example_filter <$> done_) ++ partial /\
    concat (range_blocks <$> done_) = seqZ (currentBlock w + 1) (currentBlock w' - currentBlock w) /\
    (forall ev, ev ∈ partial -> exists rg, rg ∈ chunkRange (currentBlock w + 1) 18 4 /\
       ev ∈ slice_deposits example_filter rg) /\
    currentBlock w <= currentBlock w' <= Z.max (currentBlock w) 18 /\
    lastScannedBlock w <= lastScannedBlock w'.
Proof.
  split; [reflexivity|]. split; [reflexivity|].
  apply (tick_delivery record_handler example_filter 4 fst); try (int_lia || (cbn; int_lia)).
  intros ev [l [|q]]; reflexivity.
Defined.

(** The poller awaits no confirmations: a deposit of the newest block is
    delivered by the tick that first sees the block. *)
Lemma head_deposit_is_delivered :
  (consumer (tick record_handler example_filter 4 (Ok 11) (mkWatch 10 10 ([], 3%nat))).2).1
    = [example_deposit 11; checkpoint_event 11].
Proof. reflexivity. Qed.
