(* ===== verification/AuthMessages.v ===== *)
(** * Signed messages: pkg/auth/evm.go and pkg/auth/canton.go

    Verification of EIP-191 and Canton signatures, the parsing of party ids
    and EVM addresses, and the time window of a signed message.  The elliptic
    curve operations are parameters. *)

From S2P Require Import Prelude AppErrors Effects GoStd GoText EthClient.
From Stdlib Require Import Ascii String.
Local Open Scope Z_scope.
Local Abbreviation length := Datatypes.length.

(** What the sources call of go-ethereum's crypto package. *)
Class Secp256k1 := {
  PubKey : Type;
  SigToPub : list Z -> list Z -> result PubKey;
  PubkeyToAddress : PubKey -> Address;
  CompressPubkey : PubKey -> list Z;
}.

Section auth.
Context `{!GoEthereum} `{!Secp256k1}.

(** ** evm.go *)

(** The error of hex.DecodeString is opaque to the callers. *)
Definition hex_error : error := ErrNew "encoding/hex: invalid input".

(** [if sigBytes[64] >= 27 { sigBytes[64] -= 27 }] *)
Definition normalizeV (sig : list Z) : list Z :=
  alter (fun v => if 27 <=? v then v - 27 else v) 64%nat sig.

Definition prefixedMsg (message : string) : string :=
  String (ascii_of_nat 25) ("Ethereum Signed Message:" +:+ String (ascii_of_nat 10)
    (FormatUint (Z.of_nat (String.length message)) +:+ message)).

Definition VerifyEIP191Signature (message signature : string) : result Address :=
  match hex_decode (TrimPrefix signature "0x") with
  | None => Err (ErrWrap "invalid signature hex: " hex_error "")
  | Some sigBytes =>
      if negb (bool_decide (length sigBytes = 65%nat)) then
        Err (ErrNew ("invalid signature length: expected 65, got " +:+ FormatUint (Z.of_nat (length sigBytes))))
      else
        match SigToPub (Keccak256 (bytes_of (prefixedMsg message))) (normalizeV sigBytes) with
        | Err e => Err (ErrWrap "failed to recover public key: " e "")
        | Ok pubKey => Ok (PubkeyToAddress pubKey)
        end
  end.

Definition ComputeFingerprint (evmAddress : string) : string :=
  Hash_Hex (Keccak256 (HexToAddress evmAddress)).

Definition ValidateEVMAddress (address : string) : bool :=
  HasPrefix address "0x" && bool_decide (String.length address = 42%nat) &&
  match hex_decode (skip 2 address) with Some _ => true | None => false end.

Definition NormalizeAddress (address : string) : string := Address_Hex (HexToAddress address).

Definition timestamp_format_error : error :=
  ErrNew "message must contain a colon-separated Unix timestamp (e.g. transfer:1710000000)".

(** [if age < 0 { age = -age }], on an int64. *)
Definition abs_age (age : Z) : Z := if age <? 0 then int64 (- age) else age.

Definition ValidateTimedMessage (now : Z) (msg : string) (maxAge : Z) : result unit :=
  match cut_last msg ":" with
  | None | Some (_, EmptyString) => Err timestamp_format_error
  | Some (_, tsStr) =>
      match ParseInt tsStr with
      | Err e => Err (ErrWrap "invalid timestamp in message: " e "")
      | Ok ts =>
          let age := abs_age (time_Sub now (time_Unix ts)) in
          if maxAge <? age then
            Err (ErrNew ("message expired: timestamp is " +:+ Duration_String (Truncate age Second) +:+
                         " old (max " +:+ Duration_String maxAge +:+ ")"))
          else Ok tt
      end
  end.

(** ** canton.go *)

Definition party_format_error (partyID : string) : error :=
  ErrNew ("invalid party ID format: expected 'hint::fingerprint', got " +:+ quoted partyID).

Definition ExtractFingerprintFromPartyID (partyID : string) : result string :=
  match Split partyID "::" with
  | [_; fingerprint] =>
      let fingerprint := TrimPrefix fingerprint "0x" in
      let fingerprint :=
        if HasPrefix fingerprint "1220" && (68 <? Z.of_nat (String.length fingerprint))
        then skip 4 fingerprint else fingerprint in
      match hex_decode fingerprint with
      | None => Err (ErrWrap "invalid fingerprint hex: " hex_error "")
      | Some _ => Ok fingerprint
      end
  | _ => Err (party_format_error partyID)
  end.

Definition ExtractHintFromPartyID (partyID : string) : result string :=
  match Split partyID "::" with
  | [hint; _] => Ok hint
  | _ => Err (party_format_error partyID)
  end.

Definition IsCantonPartyID (s : string) : bool :=
  match Cut s "::" with Some _ => true | None => false end.

Definition ComputeFingerprintFromPublicKey (publicKey : list Z) : string := hex_encode (Sum256 publicKey).

Definition ValidateCantonPartyID (partyID : string) : result unit :=
  match ExtractFingerprintFromPartyID partyID with Ok _ => Ok tt | Err e => Err e end.

Definition verifySignatureAgainstFingerprint (hash signature : list Z) (expectedFingerprint : string) : bool :=
  match SigToPub hash signature with
  | Err _ => false
  | Ok pubKey => EqualFold (hex_encode (Sum256 (CompressPubkey pubKey))) expectedFingerprint
  end.

(** base64, or hex as a fallback. *)
Definition decodeCantonSignature (signature : string) : result (list Z) :=
  match Std_Decode signature with
  | Some sig => Ok sig
  | None =>
      match hex_decode (TrimPrefix signature "0x") with
      | Some sig => Ok sig
      | None => Err (ErrWrap "failed to decode signature: " hex_error "")
      end
  end.

Definition VerifyCantonSignature (partyID message signature : string) : result bool :=
  match ExtractFingerprintFromPartyID partyID with
  | Err e => Err (ErrWrap "invalid party ID: " e "")
  | Ok fingerprint =>
      match decodeCantonSignature signature with
      | Err e => Err e
      | Ok sigBytes =>
          let n := length sigBytes in
          if negb (bool_decide (n = 64%nat)) && negb (bool_decide (n = 65%nat)) then
            Err (ErrNew ("invalid signature length: expected 64 or 65, got " +:+ FormatUint (Z.of_nat n)))
          else
            let msgHash := Sum256 (bytes_of message) in
            if bool_decide (n = 64%nat) then
              if verifySignatureAgainstFingerprint msgHash (sigBytes ++ [0]) fingerprint then Ok true
              else if verifySignatureAgainstFingerprint msgHash (sigBytes ++ [1]) fingerprint then Ok true
              else Err (ErrNew "signature verification failed")
            else Ok (verifySignatureAgainstFingerprint msgHash sigBytes fingerprint)
      end
  end.
End auth.

(** ** The time window *)

Lemma cut_last_app a b : cut_last b ":" = None -> cut_last (a +:+ String ":" b) ":" = Some (a, b).
Proof.
  intros Hb. induction a as [|c a IH].
  - change (EmptyString +:+ String ":" b) with (String ":" b). cbn [cut_last]. by rewrite Hb.
  - change (String c a +:+ String ":" b) with (String c (a +:+ String ":" b)). cbn [cut_last]. by rewrite IH.
Qed.

Lemma put_digits_no_colon n : cut_last (FormatUint n) ":" = None.
Proof.
  assert (forall s, no_char ":" s -> cut_last s ":" = None) as H.
  { induction s as [|c s IH]; intros Hs; [done|]. cbn in Hs |- *. destruct Hs as [Hc Hs].
    rewrite (IH Hs). by rewrite bool_decide_eq_false_2. }
  apply H. by apply FormatUint_no_char.
Qed.

(** The message the clients sign. *)
Definition timed_message (prefix : string) (ts : Z) : string := prefix +:+ String ":" (FormatUint ts).

Lemma ValidateTimedMessage_eq now prefix ts maxAge :
  0 <= ts <= max_int64 ->
  ValidateTimedMessage now (timed_message prefix ts) maxAge =
  let age := abs_age (time_Sub now (time_Unix ts)) in
  if maxAge <? age then
    Err (ErrNew ("message expired: timestamp is " +:+ Duration_String (Truncate age Second) +:+
                 " old (max " +:+ Duration_String maxAge +:+ ")"))
  else Ok tt.
Proof.
  intros Hts. unfold ValidateTimedMessage, timed_message.
  rewrite cut_last_app by apply put_digits_no_colon.
  pose proof (FormatUint_nonempty ts). destruct (FormatUint ts) as [|c s] eqn:Hf; [done|]. rewrite <- Hf.
  assert (ParseInt (FormatUint ts) = Ok ts) as ->; [|done].
  assert (is_int64 ts) as Hin by (unfold is_int64, min_int64 in *; lia).
  pose proof (ParseInt_FormatInt ts Hin) as Hp. unfold FormatInt in Hp.
  by destruct (Z.ltb_spec ts 0); [lia|].
Qed.

(** A signed message whose timestamp is at most 2^63-1 nanoseconds (about
    292 years) away from the clock is accepted exactly when the timestamp is
    within maxAge of the clock, in the past or in the future. *)
Theorem ValidateTimedMessage_window now prefix ts maxAge :
  0 <= ts <= max_int64 - unixToInternal -> 0 <= maxAge -> - max_int64 <= now - ts * Second <= max_int64 ->
  is_ok (ValidateTimedMessage now (timed_message prefix ts) maxAge) = true <->
  Z.abs (now - ts * Second) <= maxAge.
Proof.
  intros Hts Hmax Hrange. rewrite ValidateTimedMessage_eq by (unfold unixToInternal in *; lia). cbv zeta.
  rewrite time_Unix_exact by (unfold is_int64, unixToInternal, min_int64 in *; lia).
  rewrite time_Sub_exact by (unfold is_int64, min_int64, max_int64 in *; lia).
  assert (abs_age (now - ts * Second) = Z.abs (now - ts * Second)) as ->.
  { unfold abs_age. destruct (Z.ltb_spec (now - ts * Second) 0); [|lia].
    rewrite int64_id by (unfold is_int64, min_int64, max_int64 in *; lia). lia. }
  destruct (Z.ltb_spec maxAge (Z.abs (now - ts * Second))); cbn; split; done || lia.
Qed.

Lemma ValidateTimedMessage_window_witness :
  let now := 1760000000 * Second in
  0 <= 1760000100 <= max_int64 - unixToInternal /\
  (is_ok (ValidateTimedMessage now (timed_message "transfer" 1760000100) (5 * Minute)) = true <->
   Z.abs (now - 1760000100 * Second) <= 5 * Minute) /\
  is_ok (ValidateTimedMessage now (timed_message "transfer" 1760000100) (5 * Minute)) = true /\
  is_ok (ValidateTimedMessage now (timed_message "transfer" 1750000000) (5 * Minute)) = false.
Proof.
  cbv zeta. split; [vm_compute; split; discriminate|]. split; [|split; vm_compute; reflexivity].
  apply (ValidateTimedMessage_window (1760000000 * Second) "transfer" 1760000100 (5 * Minute));
    vm_compute; [split; discriminate|discriminate|split; discriminate].
Defined.

(** A timestamp more than 2^63 nanoseconds ahead of the clock passes the
    check whatever maxAge is: the difference saturates at the least int64,
    whose negation is itself, so the age stays negative and the signature of
    such a message never expires. *)
Theorem ValidateTimedMessage_far_future now prefix ts maxAge :
  0 <= ts <= max_int64 - unixToInternal -> 0 <= maxAge -> now - ts * Second <= min_int64 ->
  ValidateTimedMessage now (timed_message prefix ts) maxAge = Ok tt.
Proof.
  intros Hts Hmax Hfar. rewrite ValidateTimedMessage_eq by (unfold unixToInternal in *; lia). cbv zeta.
  rewrite time_Unix_exact by (unfold is_int64, unixToInternal, min_int64 in *; lia).
  rewrite time_Sub_far_future by done.
  assert (abs_age min_int64 = min_int64) as -> by done.
  destruct (Z.ltb_spec maxAge min_int64); [|done]. unfold min_int64 in *. lia.
Qed.

Lemma ValidateTimedMessage_far_future_witness :
  let now := 1760000000 * Second in
  now - 99999999999 * Second <= min_int64 /\
  ValidateTimedMessage now (timed_message "transfer" 99999999999) (5 * Minute) = Ok tt.
Proof.
  cbv zeta. split; [vm_compute; discriminate|].
  apply (ValidateTimedMessage_far_future (1760000000 * Second) "transfer" 99999999999 (5 * Minute));
    vm_compute; [split; discriminate|discriminate|discriminate].
Defined.

(** What the check establishes of any message: it ends in a colon and a time
    that is within maxAge of the clock, before or after it, or so far ahead of
    it (2^63 nanoseconds) that the age overflows. *)
Definition timely (now maxAge : Z) (msg : string) : Prop :=
  exists prefix text ts, msg = prefix +:+ String ":" text /\ ParseInt text = Ok ts /\
    (Z.abs (now - time_Unix ts) <= maxAge \/ now - time_Unix ts <= min_int64).

Lemma cut_last_split s sep a b : cut_last s sep = Some (a, b) -> s = a +:+ String sep b.
Proof.
  revert a b. induction s as [|c s IH]; intros a b; cbn [cut_last]; [done|].
  destruct (cut_last s sep) as [[a' b']|] eqn:Hc.
  - intros [= <- <-]. change (String c a' +:+ String sep b') with (String c (a' +:+ String sep b')). f_equal. by apply IH.
  - case_bool_decide as Hs; [|done]. intros [= <- <-]. by subst.
Qed.

Lemma ValidateTimedMessage_timely now msg maxAge :
  maxAge < max_int64 -> ValidateTimedMessage now msg maxAge = Ok tt -> timely now maxAge msg.
Proof.
  intros Hmax. unfold ValidateTimedMessage. destruct (cut_last msg ":") as [[prefix text]|] eqn:Hc; [|done].
  apply cut_last_split in Hc. destruct text as [|c text]; [done|].
  destruct (ParseInt (String c text)) as [ts|] eqn:Hp; [|done]. cbv zeta.
  destruct (Z.ltb_spec maxAge (abs_age (time_Sub now (time_Unix ts)))) as [|Hle]; [done|]. intros _.
  exists prefix, (String c text), ts. split_and!; [done..|].
  destruct (Z.le_gt_cases (now - time_Unix ts) min_int64) as [|Hlow]; [by right|]. left.
  destruct (Z.le_gt_cases (now - time_Unix ts) max_int64) as [Hhigh|Hhigh].
  - rewrite time_Sub_exact in Hle by (unfold is_int64; lia). unfold abs_age in Hle.
    destruct (Z.ltb_spec (now - time_Unix ts) 0); [|lia].
    rewrite int64_id in Hle by (unfold is_int64, min_int64, max_int64 in *; lia). lia.
  - assert (time_Sub now (time_Unix ts) = max_int64) as Heq
      by (unfold time_Sub, min_duration, max_duration, min_int64, max_int64 in *; lia).
    rewrite Heq in Hle. unfold abs_age in Hle. destruct (Z.ltb_spec max_int64 0); unfold max_int64 in *; lia.
Qed.

(** ** Party ids *)

Lemma HasPrefix_none c s pre : no_char c s -> HasPrefix s (String c pre) = false.
Proof.
  destruct s as [|d s]; [done|]. intros [Hd _]. cbn. rewrite bool_decide_eq_false_2; [done|].
  intros <-. done.
Qed.

Lemma Cut_none s : no_char ":" s -> Cut s "::" = None.
Proof.
  induction s as [|c s IH]; intros Hs; [done|]. unfold Cut; fold Cut.
  rewrite HasPrefix_none by done. destruct Hs as [_ Hs]. by rewrite IH.
Qed.

Lemma Cut_party hint fp : no_char ":" hint -> Cut (hint +:+ "::" +:+ fp) "::" = Some (hint, fp).
Proof.
  induction hint as [|c hint IH]; intros Hh; [done|].
  change (String c hint +:+ "::" +:+ fp) with (String c (hint +:+ "::" +:+ fp)). unfold Cut; fold Cut.
  destruct Hh as [Hc Hh]. rewrite IH by done. cbn [HasPrefix]. rewrite bool_decide_eq_false_2; [done|congruence].
Qed.

Lemma Split_party hint fp :
  no_char ":" hint -> no_char ":" fp -> Split (hint +:+ "::" +:+ fp) "::" = [hint; fp].
Proof.
  intros Hh Hf. unfold Split.
  assert (exists n, String.length (hint +:+ "::" +:+ fp) = S (S n)) as [n Hn].
  { exists (String.length hint + String.length fp)%nat. rewrite !length_append. cbn. lia. }
  rewrite Hn. cbn [split_fuel]. rewrite Cut_party by done. by rewrite Cut_none.
Qed.

Lemma ExtractFingerprint_party hint fp bs :
  no_char ":" hint -> hex_decode fp = Some bs -> HasPrefix fp "0x" = false ->
  ExtractFingerprintFromPartyID (hint +:+ "::" +:+ fp) =
  Ok (if HasPrefix fp "1220" && (68 <? Z.of_nat (String.length fp)) then skip 4 fp else fp).
Proof.
  intros Hh Hfp Hx. unfold ExtractFingerprintFromPartyID.
  rewrite Split_party by (done || by eapply hex_no_char).
  unfold TrimPrefix. rewrite Hx. destruct (HasPrefix fp "1220") eqn:Hp; cbn [andb]; [|by rewrite Hfp].
  destruct (68 <? _); [|by rewrite Hfp].
  destruct fp as [|a [|b [|c [|d fp]]]]; try done. cbn [skip].
  cbn [hex_decode] in Hfp. destruct (hex_val a); [|done]. destruct (hex_val b); [|done].
  destruct (hex_val c); [|done]. destruct (hex_val d); [|done]. cbn in Hfp.
  by destruct (hex_decode fp).
Qed.

Lemma hex_not_0x s bs : hex_decode s = Some bs -> HasPrefix s "0x" = false.
Proof.
  intros Hs. apply (hex_no_char "x") in Hs; [|done]. destruct s as [|a [|b s]]; try done.
  - cbn. by destruct (bool_decide _).
  - cbn. destruct Hs as (_ & Hb & _). rewrite (bool_decide_eq_false_2 ("x"%char = b)) by congruence.
    by destruct (bool_decide _).
Qed.

(** ** Hex texts are base64 texts *)

Fixpoint b64_chars (s : string) : Prop :=
  match s with
  | EmptyString => True
  | String c s => b64_val "+" "/" c <> None /\ b64_chars s
  end.

Lemma b64_not_special c :
  b64_val "+" "/" c <> None -> c <> "010"%char /\ c <> "013"%char /\ c <> "="%char.
Proof. intros Hc. split_and!; intros ->; by apply Hc. Qed.

Lemma drop_newlines_chars s : b64_chars s -> drop_newlines s = s.
Proof.
  induction s as [|c s IH]; [done|]. intros [Hc Hs]. cbn [drop_newlines].
  destruct (b64_not_special c Hc) as (? & ? & _). rewrite bool_decide_eq_false_2 by tauto. by rewrite IH.
Qed.

Lemma skip_chars n s : b64_chars s -> b64_chars (skip n s).
Proof. revert s. induction n as [|n IH]; intros [|c s]; cbn; try done. intros [_ Hs]. auto. Qed.

Lemma strip_padding_chars s :
  b64_chars s -> (String.length s mod 4 = 0)%nat -> strip_padding s = Some s.
Proof.
  intros Hs Hl. unfold strip_padding. rewrite (bool_decide_eq_true_2 _ Hl). cbn [negb].
  assert (forall n t, skip n s = String "=" t -> False) as Hno.
  { intros n t Hn. pose proof (skip_chars n s Hs) as Hc. rewrite Hn in Hc. destruct Hc as [Hc _]. by apply Hc. }
  rewrite !bool_decide_eq_false_2; [done|intros Hn; by eapply Hno..].
Qed.

Lemma b64_get_chars k s :
  b64_chars s -> String.length s = (4 * k)%nat ->
  exists bs, b64_get "+" "/" s = Some bs /\ length bs = (3 * k)%nat.
Proof.
  revert s. induction k as [|k IH]; intros s Hs Hl.
  - destruct s; [|done]. by exists [].
  - destruct s as [|a [|b [|c [|d s]]]]; cbn in Hl; try lia.
    destruct Hs as (Ha & Hb & Hc & Hd & Hs). destruct (IH s Hs) as (bs & Hbs & Hk); [lia|].
    cbn [b64_get]. destruct (b64_val "+" "/" a); [|done]. destruct (b64_val "+" "/" b); [|done].
    destruct (b64_val "+" "/" c); [|done]. destruct (b64_val "+" "/" d); [|done]. cbn. rewrite Hbs. cbn.
    eexists. split; [done|]. cbn. lia.
Qed.

Lemma Std_Decode_chars s :
  b64_chars s -> (String.length s mod 4 = 0)%nat ->
  exists bs, Std_Decode s = Some bs /\ (4 * length bs = 3 * String.length s)%nat.
Proof.
  intros Hs Hl. unfold Std_Decode. rewrite drop_newlines_chars, strip_padding_chars by done. cbn.
  apply Nat.Div0.mod_divides in Hl as [k Hk].
  destruct (b64_get_chars k s) as (bs & Hbs & Hlen); [done|done|]. exists bs. split; [done|]. lia.
Qed.

Lemma hex_b64_chars bs : Forall (fun b => 0 <= b < 256) bs -> b64_chars (hex_encode bs).
Proof.
  assert (forall d, 0 <= d < 16 -> b64_val "+" "/" (hex_char d) <> None) as Hc.
  { intros d Hd. assert (d = Z.of_nat (Z.to_nat d)) as -> by lia. assert (Z.to_nat d < 16)%nat as Hlt by lia.
    revert Hlt. generalize (Z.to_nat d). intros k Hk. do 16 (destruct k as [|k]; [done|]). lia. }
  induction 1 as [|b bs Hb _ IH]; [done|]. cbn [hex_encode b64_chars].
  split; [apply Hc; split; [apply Z.div_pos; lia|apply Z.div_lt_upper_bound; lia]|].
  split; [apply Hc, Z.mod_pos_bound; lia|done].
Qed.

Section canton_signatures.
Context `{!GoEthereum} `{!Secp256k1}.

(** sha256.Sum256 returns 32 bytes. *)
Hypothesis Sum256_length : forall b, length (Sum256 b) = 32%nat.

Lemma verify_length hash sig fp :
  verifySignatureAgainstFingerprint hash sig fp = true -> String.length fp = 64%nat.
Proof.
  unfold verifySignatureAgainstFingerprint, EqualFold. destruct (SigToPub hash sig) as [k|]; [|done].
  intros Heq%bool_decide_eq_true_1. apply (f_equal String.length) in Heq.
  rewrite !length_ToLower, length_hex_encode, Sum256_length in Heq. lia.
Qed.

(** VerifyCantonSignature accepts a signature only when the key recovered
    from it (under one of the two recovery ids for a 64-byte signature, under
    its own for a 65-byte one) hashes to the fingerprint extracted from the
    party id, and that fingerprint then has 64 hex digits. *)
Theorem VerifyCantonSignature_sound partyID message signature :
  VerifyCantonSignature partyID message signature = Ok true ->
  exists fp sigBytes v,
    ExtractFingerprintFromPartyID partyID = Ok fp /\ decodeCantonSignature signature = Ok sigBytes /\
    (length sigBytes = 64%nat /\ v ∈ [[0]; [1]] \/ length sigBytes = 65%nat /\ v = []) /\
    verifySignatureAgainstFingerprint (Sum256 (bytes_of message)) (sigBytes ++ v) fp = true /\
    String.length fp = 64%nat.
Proof.
  unfold VerifyCantonSignature. destruct (ExtractFingerprintFromPartyID partyID) as [fp|]; [|done].
  destruct (decodeCantonSignature signature) as [sig|]; [|done]. cbv zeta.
  assert (forall v, (length sig = 64%nat /\ v ∈ [[0]; [1]] \/ length sig = 65%nat /\ v = []) ->
    verifySignatureAgainstFingerprint (Sum256 (bytes_of message)) (sig ++ v) fp = true ->
    exists fp' sig' v', Ok fp = Ok fp' /\ Ok sig = Ok sig' /\
      (length sig' = 64%nat /\ v' ∈ [[0]; [1]] \/ length sig' = 65%nat /\ v' = []) /\
      verifySignatureAgainstFingerprint (Sum256 (bytes_of message)) (sig' ++ v') fp' = true /\
      String.length fp' = 64%nat) as Hex.
  { intros v Hv Hver. exists fp, sig, v. eauto 10 using verify_length. }
  destruct (decide (length sig = 64%nat)) as [H64|H64].
  - rewrite (bool_decide_eq_true_2 _ H64). cbn [negb andb].
    destruct (verifySignatureAgainstFingerprint _ (sig ++ [0]) fp) eqn:Hv0;
      [intros _; eapply Hex; [left; split; [done|constructor]|done]|].
    destruct (verifySignatureAgainstFingerprint _ (sig ++ [1]) fp) eqn:Hv1; [|done].
    intros _. eapply Hex; [left; split; [done|constructor; constructor]|done].
  - rewrite (bool_decide_eq_false_2 _ H64). cbn [negb andb].
    destruct (decide (length sig = 65%nat)) as [H65|H65];
      [rewrite (bool_decide_eq_true_2 _ H65)|rewrite (bool_decide_eq_false_2 _ H65)]; cbn [negb]; [|done].
    intros [= Hv]. eapply (Hex []); [by right|]. by rewrite app_nil_r.
Qed.

(** The fingerprint part of a Canton party id is the 34-byte SHA-256
    multihash, 68 hex digits that start with 1220; the multihash prefix is
    only removed from longer texts, so no signature is ever accepted for such
    a party. *)
Theorem multihash_party_never_verifies hint digest bs message signature :
  no_char ":" hint -> String.length digest = 64%nat -> hex_decode digest = Some bs ->
  ExtractFingerprintFromPartyID (hint +:+ "::" +:+ "1220" +:+ digest) = Ok ("1220" +:+ digest) /\
  VerifyCantonSignature (hint +:+ "::" +:+ "1220" +:+ digest) message signature <> Ok true.
Proof.
  intros Hh Hl Hd.
  assert (hex_decode ("1220" +:+ digest) = Some (18 :: 32 :: bs)) as Hfull
    by (change ("1220" +:+ digest) with (String "1" (String "2" (String "2" (String "0" digest)))); cbn; by rewrite Hd).
  assert (String.length ("1220" +:+ digest) = 68%nat) as H68 by (rewrite length_append, Hl; done).
  assert (ExtractFingerprintFromPartyID (hint +:+ "::" +:+ "1220" +:+ digest) = Ok ("1220" +:+ digest)) as Hx.
  { erewrite ExtractFingerprint_party; [|done|done|by eapply hex_not_0x]. rewrite H68. by rewrite andb_false_r. }
  split; [done|]. intros (fp & sig & v & Hfp & _ & _ & _ & Hlen)%VerifyCantonSignature_sound.
  rewrite Hx in Hfp. injection Hfp as <-. lia.
Qed.
(** The hex form of a signature is only tried when the text is not valid
    base64; the 0x-prefixed hex text of a 65-byte signature, and the plain hex
    text of a 64-byte one, are always valid base64 (of 99 and 96 bytes), so
    these two forms are rejected for their length whatever they sign. *)
Theorem hex_signature_shadowed partyID message sig :
  Forall (fun b => 0 <= b < 256) sig ->
  (length sig = 65%nat -> is_ok (VerifyCantonSignature partyID message ("0x" +:+ hex_encode sig)) = false) /\
  (length sig = 64%nat -> is_ok (VerifyCantonSignature partyID message (hex_encode sig)) = false).
Proof.
  intros Hb. unfold VerifyCantonSignature.
  destruct (ExtractFingerprintFromPartyID partyID) as [fp|]; [|done]. unfold decodeCantonSignature.
  split; intros Hl.
  - destruct (Std_Decode_chars ("0x" +:+ hex_encode sig)) as (bs & -> & Hbs).
    + change ("0x" +:+ hex_encode sig) with (String "0" (String "x" (hex_encode sig))).
      split; [done|]. split; [done|]. by apply hex_b64_chars.
    + rewrite length_append, length_hex_encode, Hl. done.
    + rewrite length_append, length_hex_encode, Hl in Hbs. cbn in Hbs.
      by rewrite !bool_decide_eq_false_2 by lia.
  - destruct (Std_Decode_chars (hex_encode sig)) as (bs & -> & Hbs).
    + by apply hex_b64_chars.
    + by rewrite length_hex_encode, Hl.
    + rewrite length_hex_encode, Hl in Hbs. cbn in Hbs. by rewrite !bool_decide_eq_false_2 by lia.
Qed.
End canton_signatures.

(** ** Witnesses: a curve on which every signature recovers the message hash *)

Definition example_secp : Secp256k1 := {|
  PubKey := list Z;
  SigToPub h s := Ok h;
  PubkeyToAddress k := take 20 k;
  CompressPubkey k := k;
|}.

Definition example_geth : GoEthereum := {|
  HexToAddress s := default [] (hex_decode (TrimPrefix s "0x"));
  Address_Hex a := "0x" +:+ hex_encode a;
  Hash_Hex h := "0x" +:+ hex_encode h;
  HexToHash s := default [] (hex_decode (TrimPrefix s "0x"));
  BytesToAddress := copy_into 20;
  BytesToHash := copy_into 32;
  LeftPadBytes b n := replicate (Z.to_nat n - length b) 0 ++ b;
  Keccak256 := copy_into 32;
  Sum256 := copy_into 32;
|}.

(** A message whose hash is also the digest of the party's key. *)
Definition ex_digest : string := hex_encode (copy_into 32 [104; 105]).
Definition ex_signature : string := hex_encode (replicate 65 7).

Lemma VerifyCantonSignature_sound_witness :
  let verify := @VerifyCantonSignature example_geth example_secp in
  let p := ("alice::" +:+ ex_digest)%string in
  verify p "hi"%string ex_signature = Ok true /\
  exists fp sigBytes v,
    ExtractFingerprintFromPartyID p = Ok fp /\ decodeCantonSignature ex_signature = Ok sigBytes /\
    (length sigBytes = 64%nat /\ v ∈ [[0]; [1]] \/ length sigBytes = 65%nat /\ v = []) /\
    @verifySignatureAgainstFingerprint example_geth example_secp
      (@Sum256 example_geth (bytes_of "hi")) (sigBytes ++ v) fp = true /\
    String.length fp = 64%nat.
Proof.
  cbv zeta. assert (@VerifyCantonSignature example_geth example_secp ("alice::" +:+ ex_digest) "hi" ex_signature = Ok true)
    as Hv by (vm_compute; reflexivity).
  split; [exact Hv|].
  exact (@VerifyCantonSignature_sound example_geth example_secp (length_copy_into 32) _ _ _ Hv).
Defined.

Lemma multihash_party_never_verifies_witness :
  no_char ":" "alice" /\ String.length ex_digest = 64%nat /\
  ExtractFingerprintFromPartyID ("alice" +:+ "::" +:+ "1220" +:+ ex_digest) = Ok ("1220" +:+ ex_digest) /\
  @VerifyCantonSignature example_geth example_secp ("alice" +:+ "::" +:+ "1220" +:+ ex_digest) "hi" ex_signature <> Ok true.
Proof.
  assert (no_char ":" "alice") as Hh by (cbn; repeat split; discriminate).
  split; [exact Hh|]. split; [vm_compute; reflexivity|].
  exact (@multihash_party_never_verifies example_geth example_secp (length_copy_into 32) "alice" ex_digest
           (copy_into 32 [104; 105]) "hi" ex_signature Hh eq_refl eq_refl).
Defined.

Lemma hex_signature_shadowed_witness :
  let sig := replicate 65 7 in
  Forall (fun b => 0 <= b < 256) sig /\ length sig = 65%nat /\
  is_ok (@VerifyCantonSignature example_geth example_secp ("alice::" +:+ ex_digest) "hi" ("0x" +:+ hex_encode sig)) = false /\
  @VerifyCantonSignature example_geth example_secp ("alice::" +:+ ex_digest) "hi" (hex_encode sig) = Ok true.
Proof.
  cbv zeta. assert (Forall (fun b => 0 <= b < 256) (replicate 65 7)) as Hb by (apply Forall_replicate; lia).
  split; [exact Hb|]. split; [reflexivity|]. split; [|vm_compute; reflexivity].
  exact (proj1 (@hex_signature_shadowed example_geth example_secp ("alice::" +:+ ex_digest) "hi" _ Hb) eq_refl).
Defined.

(** The address forms that NormalizeAddress and ValidateEVMAddress agree on:
    the checksummed form of an address is a valid address. *)
Example ValidateEVMAddress_ex :
  ValidateEVMAddress "0x00000000000000000000000000000000000000Aa" = true /\
  ValidateEVMAddress "00000000000000000000000000000000000000aa00" = false /\
  ValidateEVMAddress "0x00000000000000000000000000000000000000Ag" = false.
Proof. done. Qed.
