(* ===== verification/NonceStore.v ===== *)
(** * Login nonces: pkg/auth/service/nonce_provider/in_memory.go

    The in-memory nonce store: two maps that index each other, a sweep of
    expired entries, and a cap on the number of addresses.  The random nonce
    generator (siwe.GenerateNonce) and the clock are arguments of the
    operations.  The mutex makes an operation atomic, so a history of the
    store is a list of operations. *)

From S2P Require Import Prelude AppErrors Effects GoStd GoText.
From stdpp Require Import fin_maps.
Local Open Scope Z_scope.

Definition maxAddresses : Z := 65536.

Definition ErrStoreFull : error := ErrVar "nonceprovider.ErrStoreFull" "nonce store is at capacity".

Record entry := mkEntry { e_nonce : string; e_expiry : Z }.

Record InMemory := mkInMemory {
  byAddr : gmap string entry;
  byNonce : gmap string string;
  n_ttl : Z;
  n_max : Z;
  nextSweep : Z;
}.

(** time.Time{} in nanoseconds since the epoch. *)
Definition zero_instant : Z := - unixToInternal * Second.

Definition NewInMemory (ttl : Z) : InMemory := mkInMemory ∅ ∅ ttl maxAddresses zero_instant.

(** [now.Before(e.expiry)] *)
Definition live (now : Z) (e : entry) : bool := now <? e_expiry e.

Definition purgeExpired (now : Z) (s : InMemory) : InMemory :=
  mkInMemory
    (filter (fun p => live now p.2 = true) (byAddr s))
    (map_fold (fun _ e m => if live now e then m else delete (e_nonce e) m) (byNonce s) (byAddr s))
    (n_ttl s) (n_max s) (nextSweep s).

(** The sweep at the start of Issue. *)
Definition sweep (now : Z) (s : InMemory) : InMemory :=
  if nextSweep s <? now then
    let s := purgeExpired now s in
    mkInMemory (byAddr s) (byNonce s) (n_ttl s) (n_max s) (now + n_ttl s)
  else s.

(** [!exists && len(s.byAddr) >= s.max] *)
Definition at_capacity (address : string) (s : InMemory) : bool :=
  bool_decide (byAddr s !! address = None) && (n_max s <=? Z.of_nat (size (byAddr s))).

(** The entry is stored under both keys, the address's old nonce dropped. *)
Definition put_nonce (now : Z) (address nonce : string) (s : InMemory) : InMemory :=
  let dropped := match byAddr s !! address with
                 | Some old => delete (e_nonce old) (byNonce s)
                 | None => byNonce s
                 end in
  mkInMemory (<[address := mkEntry nonce (now + n_ttl s)]> (byAddr s)) (<[nonce := address]> dropped)
    (n_ttl s) (n_max s) (nextSweep s).

(** Issue; [fresh] is what siwe.GenerateNonce returns. *)
Definition Issue (now : Z) (fresh : string) (address : string) : M InMemory string := fun s =>
  let s := sweep now s in
  let mint (s : InMemory) := (Ok fresh, put_nonce now address fresh s) in
  match byAddr s !! address with
  | Some e => if live now e then (Ok (e_nonce e), s) else mint s
  | None =>
      if at_capacity address s then
        let s := purgeExpired now s in
        if n_max s <=? Z.of_nat (size (byAddr s)) then (Err ErrStoreFull, s) else mint s
      else mint s
  end.

Definition Consume (now : Z) (nonce : string) (s : InMemory) : bool * InMemory :=
  match byNonce s !! nonce with
  | None => (false, s)
  | Some address =>
      let e := default (mkEntry "" zero_instant) (byAddr s !! address) in
      (live now e,
       mkInMemory (delete address (byAddr s)) (delete nonce (byNonce s)) (n_ttl s) (n_max s) (nextSweep s))
  end.

(** ** The two maps index each other *)

Record well_formed (s : InMemory) : Prop := {
  wf_forward a e : byAddr s !! a = Some e -> byNonce s !! e_nonce e = Some a;
  wf_backward n a : byNonce s !! n = Some a -> exists e, byAddr s !! a = Some e /\ e_nonce e = n;
}.

Lemma well_formed_new ttl : well_formed (NewInMemory ttl).
Proof. split; cbn; intros *; by rewrite lookup_empty. Qed.

Lemma purge_lookup_addr now s a e :
  byAddr (purgeExpired now s) !! a = Some e <-> byAddr s !! a = Some e /\ live now e = true.
Proof. cbn. by rewrite map_lookup_filter_Some. Qed.

(** What the loop leaves of the reverse index. *)
Lemma purge_fold now (m : gmap string entry) (r : gmap string string) n a :
  map_fold (fun _ e m => if live now e then m else delete (e_nonce e) m) r m !! n = Some a <->
  r !! n = Some a /\ (forall a' e, m !! a' = Some e -> e_nonce e = n -> live now e = true).
Proof.
  revert r. induction m as [|k e m Hk Hfold IH] using map_first_key_ind; intros r.
  - rewrite map_fold_empty. set_solver.
  - rewrite map_fold_insert_first_key by done. destruct (live now e) eqn:Hl.
    + rewrite IH. split; intros [Hr Hm]; (split; [done|]).
      * intros a' e' Ha' He'. destruct (decide (a' = k)) as [->|]; [|rewrite lookup_insert_ne in Ha' by done; eauto].
        rewrite lookup_insert_eq in Ha'. by simplify_eq.
      * intros a' e' Ha' He'. apply (Hm a'); [|done]. rewrite lookup_insert_ne; [done|]. congruence.
    + destruct (decide (n = e_nonce e)) as [->|Hn].
      * rewrite lookup_delete_eq. split; [done|]. intros [_ Hm].
        rewrite (Hm k e) in Hl; [done|by rewrite lookup_insert_eq|done].
      * rewrite lookup_delete_ne by done. rewrite IH. split; intros [Hr Hm]; (split; [done|]).
        -- intros a' e' Ha' He'. destruct (decide (a' = k)) as [->|]; [|rewrite lookup_insert_ne in Ha' by done; eauto].
           rewrite lookup_insert_eq in Ha'. by simplify_eq.
        -- intros a' e' Ha' He'. apply (Hm a'); [|done]. rewrite lookup_insert_ne; [done|]. congruence.
Qed.

Lemma purge_lookup_nonce now s n a :
  byNonce (purgeExpired now s) !! n = Some a <->
  byNonce s !! n = Some a /\ (forall a' e, byAddr s !! a' = Some e -> e_nonce e = n -> live now e = true).
Proof. apply purge_fold. Qed.

Lemma well_formed_purge now s : well_formed s -> well_formed (purgeExpired now s).
Proof.
  intros [Hf Hb]. split.
  - intros a e [Ha Hl]%purge_lookup_addr. apply purge_lookup_nonce. split; [by apply Hf|].
    intros a' e' Ha' Hn. assert (a' = a) as ->; [|by simplify_eq].
    apply Hf in Ha, Ha'. congruence.
  - intros n a [Hn Hl]%purge_lookup_nonce. destruct (Hb _ _ Hn) as (e & Ha & He). exists e.
    split; [|done]. apply purge_lookup_addr. eauto.
Qed.

Lemma sweep_cases now s :
  sweep now s = s \/
  (byAddr (sweep now s) = byAddr (purgeExpired now s) /\ byNonce (sweep now s) = byNonce (purgeExpired now s) /\
   n_max (sweep now s) = n_max s /\ n_ttl (sweep now s) = n_ttl s).
Proof. unfold sweep. destruct (nextSweep s <? now); cbn; auto. Qed.

Lemma well_formed_sweep now s : well_formed s -> well_formed (sweep now s).
Proof.
  intros Hs. destruct (sweep_cases now s) as [->|(Ha & Hn & _)]; [done|].
  destruct (well_formed_purge now s Hs) as [Hf Hb]. split; rewrite Ha, Hn; auto.
Qed.

Lemma well_formed_put now a n s : well_formed s -> byNonce s !! n = None -> well_formed (put_nonce now a n s).
Proof.
  intros [Hf Hb] Hn. split; cbn.
  - intros b e. destruct (decide (b = a)) as [->|Hne].
    + rewrite lookup_insert_eq. intros [= <-]. cbn. by rewrite lookup_insert_eq.
    + rewrite lookup_insert_ne by done. intros He. pose proof (Hf _ _ He) as Hfe.
      rewrite lookup_insert_ne by congruence. destruct (byAddr s !! a) as [old|] eqn:Ha; [|done].
      rewrite lookup_delete_ne; [done|]. intros Heq. apply Hf in Ha. congruence.
  - intros m b. destruct (decide (m = n)) as [->|Hm].
    + rewrite lookup_insert_eq. intros [= <-]. rewrite lookup_insert_eq. eauto.
    + rewrite lookup_insert_ne by done. intros Hl.
      assert (byNonce s !! m = Some b /\ b <> a) as [Hmb Hba].
      { destruct (byAddr s !! a) as [old|] eqn:Ha.
        - apply lookup_delete_Some in Hl as [Hold Hl]. split; [done|]. intros ->.
          destruct (Hb _ _ Hl) as (e & Hae & He). congruence.
        - split; [done|]. intros ->. destruct (Hb _ _ Hl) as (e & Hae & He). congruence. }
      rewrite lookup_insert_ne by done. by apply Hb.
Qed.

(** Dropping entries never adds a nonce. *)
Lemma purge_nonce_None now s n : byNonce s !! n = None -> byNonce (purgeExpired now s) !! n = None.
Proof.
  intros Hn. destruct (byNonce (purgeExpired now s) !! n) eqn:He; [|done].
  apply purge_lookup_nonce in He as [He _]. congruence.
Qed.

Lemma sweep_nonce_None now s n : byNonce s !! n = None -> byNonce (sweep now s) !! n = None.
Proof. intros Hn. destruct (sweep_cases now s) as [->|(_ & -> & _)]; [done|]. by apply purge_nonce_None. Qed.

(** The outcomes of Issue: the live nonce of the address, a refusal, or a
    fresh nonce stored in a store from which at most expired entries went. *)
Lemma Issue_cases now fresh a s :
  let r := Issue now fresh a s in
  let s1 := sweep now s in
  (exists e, byAddr s1 !! a = Some e /\ live now e = true /\ r = (Ok (e_nonce e), s1)) \/
  (byAddr s1 !! a = None /\ n_max s1 <= Z.of_nat (size (byAddr (purgeExpired now s1))) /\
   r = (Err ErrStoreFull, purgeExpired now s1)) \/
  (exists s2, (s2 = s1 \/ s2 = purgeExpired now s1) /\ r = (Ok fresh, put_nonce now a fresh s2) /\
     (forall e, byAddr s2 !! a = Some e -> live now e = false) /\
     (byAddr s2 !! a = None -> Z.of_nat (size (byAddr s2)) < n_max s2)).
Proof.
  cbv zeta. unfold Issue. set (s1 := sweep now s). destruct (byAddr s1 !! a) as [e|] eqn:Ha.
  - destruct (live now e) eqn:Hl; [left; eauto|]. right; right. exists s1. split_and!; auto; congruence.
  - right. unfold at_capacity. rewrite Ha, bool_decide_eq_true_2 by done. cbn [andb].
    destruct (Z.leb_spec (n_max s1) (Z.of_nat (size (byAddr s1)))) as [Hfull|Hroom].
    + destruct (Z.leb_spec (n_max (purgeExpired now s1)) (Z.of_nat (size (byAddr (purgeExpired now s1))))) as [Hf|Hr].
      * left. auto.
      * right. exists (purgeExpired now s1). split_and!; auto. intros e He.
        apply purge_lookup_addr in He as [He _]. congruence.
    + right. exists s1. split_and!; auto. congruence.
Qed.

Lemma well_formed_Issue now fresh a s :
  well_formed s -> byNonce s !! fresh = None -> well_formed (Issue now fresh a s).2.
Proof.
  intros Hs Hn. pose proof (well_formed_sweep now s Hs) as H1.
  destruct (Issue_cases now fresh a s) as [(e & _ & _ & ->)|[(_ & _ & ->)|(s2 & Hs2 & -> & _)]]; cbn;
    [done|by apply well_formed_purge|].
  apply well_formed_put; destruct Hs2 as [->| ->];
    auto using well_formed_purge, purge_nonce_None, sweep_nonce_None.
Qed.

Lemma well_formed_Consume now n s : well_formed s -> well_formed (Consume now n s).2.
Proof.
  intros [Hf Hb]. unfold Consume. destruct (byNonce s !! n) as [a|] eqn:Hn; [|done]. cbn. split; cbn.
  - intros b e [Hab Hbe]%lookup_delete_Some. rewrite lookup_delete_ne; [by apply Hf|].
    intros ->. apply Hf in Hbe. congruence.
  - intros m b [Hnm Hm]%lookup_delete_Some. destruct (Hb _ _ Hm) as (e & Hbe & He). exists e.
    split; [|done]. rewrite lookup_delete_ne; [done|]. intros ->.
    destruct (Hb _ _ Hn) as (e' & Hbe' & He'). congruence.
Qed.

(** ** Histories *)

Inductive op :=
| OpIssue (now : Z) (fresh address : string)
| OpConsume (now : Z) (nonce : string).

Definition op_time (o : op) : Z := match o with OpIssue t _ _ | OpConsume t _ => t end.
Definition minted (ops : list op) : list string :=
  omap (fun o => match o with OpIssue _ f _ => Some f | OpConsume _ _ => None end) ops.
Definition apply_op (s : InMemory) (o : op) : InMemory :=
  match o with
  | OpIssue t f a => (Issue t f a s).2
  | OpConsume t n => (Consume t n s).2
  end.

(** How many times the nonce is accepted in a history. *)
Fixpoint accepted (n : string) (ops : list op) (s : InMemory) : nat :=
  match ops with
  | [] => 0
  | o :: ops =>
      (match o with
       | OpConsume t m => if bool_decide (m = n) && (Consume t m s).1 then 1 else 0
       | OpIssue _ _ _ => 0
       end + accepted n ops (apply_op s o))%nat
  end.

(** The generator returns nonces that were never used before. *)
Definition fresh_for (ops : list op) (s : InMemory) : Prop :=
  NoDup (minted ops) /\ forall f, f ∈ minted ops -> byNonce s !! f = None.

Lemma put_nonce_None now a f s n : n <> f -> byNonce s !! n = None -> byNonce (put_nonce now a f s) !! n = None.
Proof.
  intros Hf Hn. cbn. rewrite lookup_insert_ne by done. destruct (byAddr s !! a); [|done].
  rewrite lookup_delete_None. auto.
Qed.

Lemma apply_op_None s o n :
  byNonce s !! n = None -> n ∉ minted [o] -> byNonce (apply_op s o) !! n = None.
Proof.
  intros Hn Ho. destruct o as [t f a|t m]; cbn [apply_op].
  - assert (n <> f) as Hf by (intros ->; apply Ho; constructor).
    destruct (Issue_cases t f a s) as [(e & _ & _ & ->)|[(_ & _ & ->)|(s2 & Hs2 & -> & _)]]; cbn [snd];
      auto using sweep_nonce_None, purge_nonce_None.
    apply put_nonce_None; [done|]. destruct Hs2 as [->| ->]; auto using sweep_nonce_None, purge_nonce_None.
  - unfold Consume. destruct (byNonce s !! m); [|done]. cbn. rewrite lookup_delete_None. auto.
Qed.

Lemma minted_cons o ops f : f ∈ minted (o :: ops) <-> f ∈ minted [o] \/ f ∈ minted ops.
Proof. destruct o; cbn; set_solver. Qed.

Lemma fresh_for_step o ops s : fresh_for (o :: ops) s -> fresh_for ops (apply_op s o) /\
  (forall t f a, o = OpIssue t f a -> byNonce s !! f = None).
Proof.
  intros [Hnd Hs]. split; [split|].
  - destruct o; cbn in Hnd; [by apply NoDup_cons in Hnd as [_ Hnd]|done].
  - intros f Hf. apply apply_op_None; [apply Hs, minted_cons; auto|].
    destruct o; cbn in Hnd |- *; [|set_solver]. apply NoDup_cons in Hnd as [Hn _]. set_solver.
  - intros t f a ->. apply Hs. constructor.
Qed.

Lemma accepted_absent n ops s : byNonce s !! n = None -> n ∉ minted ops -> accepted n ops s = 0%nat.
Proof.
  revert s. induction ops as [|o ops IH]; intros s Hn Hm; [done|]. cbn [accepted].
  assert (n ∉ minted [o] /\ n ∉ minted ops) as [Ho Hops] by (rewrite minted_cons in Hm; tauto).
  rewrite IH by auto using apply_op_None. destruct o as [|t m]; [done|].
  destruct (decide (m = n)) as [->|]; [|by rewrite bool_decide_eq_false_2].
  unfold Consume. by rewrite Hn, andb_false_r.
Qed.

Lemma Consume_removes t n s : byNonce (Consume t n s).2 !! n = None.
Proof. unfold Consume. destruct (byNonce s !! n) eqn:Hn; cbn; [apply lookup_delete_eq|done]. Qed.

(** In every history of the store, whatever its state and the clock do, a
    nonce is accepted at most once, provided the generator never repeats a
    nonce. *)
Theorem nonce_single_use ops s n : fresh_for ops s -> (accepted n ops s <= 1)%nat.
Proof.
  revert s. induction ops as [|o ops IH]; intros s Hf; [cbn; lia|].
  pose proof (fresh_for_step _ _ _ Hf) as [Hf' _]. specialize (IH _ Hf'). cbn [accepted].
  destruct o as [t f a|t m]; [done|]. destruct (bool_decide (m = n) && (Consume t m s).1) eqn:Hc; [|lia].
  apply andb_true_iff in Hc as [->%bool_decide_eq_true_1 Hc].
  rewrite accepted_absent; [lia| |].
  - apply Consume_removes.
  - intros Hm. destruct Hf as [_ Hfs]. unfold Consume in Hc. by rewrite (Hfs n Hm) in Hc.
Qed.

(** ** A live nonce is never evicted *)

Lemma purge_keeps now s a e : byAddr s !! a = Some e -> now < e_expiry e -> byAddr (purgeExpired now s) !! a = Some e.
Proof. intros. apply purge_lookup_addr. split; [done|]. unfold live. by apply Z.ltb_lt. Qed.

Lemma sweep_keeps now s a e : byAddr s !! a = Some e -> now < e_expiry e -> byAddr (sweep now s) !! a = Some e.
Proof. intros Ha He. destruct (sweep_cases now s) as [->|(-> & _)]; [done|]. by apply purge_keeps. Qed.

Lemma Issue_keeps now fresh b s a e :
  byAddr s !! a = Some e -> now < e_expiry e -> byAddr (Issue now fresh b s).2 !! a = Some e.
Proof.
  intros Ha He. pose proof (sweep_keeps now s a e Ha He) as H1.
  destruct (Issue_cases now fresh b s) as [(e' & _ & _ & ->)|[(_ & _ & ->)|(s2 & Hs2 & -> & Hl & _)]]; cbn [snd];
    auto using purge_keeps.
  assert (byAddr s2 !! a = Some e) as H2 by (destruct Hs2 as [->| ->]; auto using purge_keeps).
  cbn. rewrite lookup_insert_ne; [done|]. intros ->. apply Hl in H2. unfold live in H2. lia.
Qed.

Lemma apply_op_keeps o s a e :
  well_formed s -> byAddr s !! a = Some e -> op_time o < e_expiry e ->
  (forall t, o <> OpConsume t (e_nonce e)) -> byAddr (apply_op s o) !! a = Some e.
Proof.
  intros [Hf Hb] Ha He Hc. destruct o as [t f b|t m]; cbn in *; [by apply Issue_keeps|].
  unfold Consume. destruct (byNonce s !! m) as [b|] eqn:Hm; [|done]. cbn.
  rewrite lookup_delete_ne; [done|]. intros ->. destruct (Hb _ _ Hm) as (e' & Ha' & He').
  apply (Hc t). congruence.
Qed.

(** Once a nonce was issued to an address, no sequence of other requests
    made before its expiry can take it away: requests for any addresses, the
    sweeps and purges they run and logins with other nonces leave it in
    place, so it is still returned to its address and still accepted, once.
    The maps stay inverse to each other throughout. *)
Theorem live_nonce_kept s t0 f0 a n s1 ops t :
  well_formed s -> byNonce s !! f0 = None -> Issue t0 f0 a s = (Ok n, s1) -> fresh_for ops s1 ->
  exists e, byAddr s1 !! a = Some e /\ e_nonce e = n /\
  ((forall o, o ∈ ops -> op_time o < e_expiry e /\ forall t', o <> OpConsume t' n) -> t < e_expiry e ->
   let s2 := foldl apply_op s1 ops in
   well_formed s2 /\ (Consume t n s2).1 = true /\ forall f, (Issue t f a s2).1 = Ok n).
Proof.
  intros Hwf Hf0 Hissue Hfresh.
  assert (well_formed s1) as Hwf1 by (pose proof (well_formed_Issue t0 f0 a s Hwf Hf0) as H; by rewrite Hissue in H).
  assert (exists e, byAddr s1 !! a = Some e /\ e_nonce e = n) as (e & He & Hen).
  { destruct (Issue_cases t0 f0 a s) as [(e & Ha & _ & Hr)|[(_ & _ & Hr)|(s2 & _ & Hr & _)]];
      rewrite Hissue in Hr; simplify_eq; [eauto|]. cbn. rewrite lookup_insert_eq. eauto. }
  exists e. split_and!; [done..|]. intros Hops Ht. cbv zeta. clear Hissue.
  assert (well_formed (foldl apply_op s1 ops) /\ byAddr (foldl apply_op s1 ops) !! a = Some e) as [Hwf2 He2].
  { clear Ht. revert s1 Hwf1 He Hfresh. induction ops as [|o ops IH]; intros s1 Hwf1 He Hfresh; [done|].
    cbn [foldl]. destruct (fresh_for_step _ _ _ Hfresh) as [Hf' Ho].
    destruct (Hops o) as [Hto Hno]; [constructor|]. rewrite <- Hen in Hno. apply IH; [| |by eapply apply_op_keeps|done].
    - intros o' Ho'. apply Hops. by constructor.
    - destruct o; [eapply well_formed_Issue; eauto|by apply well_formed_Consume]. }
  split; [done|]. split.
  - unfold Consume. destruct Hwf2 as [Hf2 _]. rewrite <- Hen, (Hf2 _ _ He2). cbn. rewrite He2. cbn.
    unfold live. by apply Z.ltb_lt.
  - intros f. unfold Issue. rewrite (sweep_keeps t _ a e He2 Ht).
    unfold live. rewrite (proj2 (Z.ltb_lt _ _) Ht). cbn. by rewrite Hen.
Qed.

(** ** The cap *)

Lemma size_purge now s : (size (byAddr (purgeExpired now s)) <= size (byAddr s))%nat.
Proof. cbn. apply map_size_filter. Qed.

Lemma size_sweep now s : (size (byAddr (sweep now s)) <= size (byAddr s))%nat /\ n_max (sweep now s) = n_max s.
Proof. destruct (sweep_cases now s) as [->|(-> & _ & -> & _)]; [done|]. split; [apply size_purge|done]. Qed.

(** However many requests are made for however many addresses, the store
    never holds more than its maximum of addresses, and a refusal happens only
    when it holds that many live nonces of other addresses. *)
Theorem nonce_store_bounded ops s :
  Z.of_nat (size (byAddr s)) <= n_max s ->
  let s' := foldl apply_op s ops in
  n_max s' = n_max s /\ Z.of_nat (size (byAddr s')) <= n_max s /\
  (forall t f a r, Issue t f a s' = (Err ErrStoreFull, r) ->
     byAddr r !! a = None /\ Z.of_nat (size (byAddr r)) = n_max s /\
     forall b e, byAddr r !! b = Some e -> t < e_expiry e).
Proof.
  intros Hs. cbv zeta.
  assert (n_max (foldl apply_op s ops) = n_max s /\ Z.of_nat (size (byAddr (foldl apply_op s ops))) <= n_max s) as [Hm Hz].
  { revert s Hs. induction ops as [|o ops IH]; intros s Hs; [done|]. cbn [foldl].
    assert (n_max (apply_op s o) = n_max s /\ Z.of_nat (size (byAddr (apply_op s o))) <= n_max s) as [Hm1 Hz1].
    { destruct o as [t f a|t m]; cbn [apply_op].
      - destruct (size_sweep t s) as [Hsz Hmx]. pose proof (size_purge t (sweep t s)).
        destruct (Issue_cases t f a s) as [(e & _ & _ & ->)|[(_ & _ & ->)|(s2 & Hs2 & -> & _ & Hroom)]]; cbn [snd];
          [split; [done|lia]|split; [done|cbn [n_max purgeExpired]; lia]|].
        assert (n_max s2 = n_max s /\ Z.of_nat (size (byAddr s2)) <= n_max s) as [Hm2 Hz2]
          by (destruct Hs2 as [->| ->]; [split; [done|lia]|split; [done|lia]]).
        cbn [put_nonce n_max byAddr]. split; [done|]. destruct (byAddr s2 !! a) as [old|] eqn:Ha.
        + rewrite map_size_insert_Some by eauto. lia.
        + rewrite map_size_insert_None by done. specialize (Hroom eq_refl). lia.
      - unfold Consume. destruct (byNonce s !! m) as [a|]; [|done]. cbn. split; [done|].
        rewrite map_size_delete. destruct (byAddr s !! a); cbn; lia. }
    destruct (IH (apply_op s o)) as [Hm2 Hz2]; [by rewrite Hm1|]. by rewrite Hm1 in *. }
  split_and!; [done..|]. intros t f a r Hr.
  destruct (Issue_cases t f a (foldl apply_op s ops)) as [(e & _ & _ & He)|[(Ha & Hfull & He)|(s2 & _ & He & _)]];
    rewrite Hr in He; simplify_eq.
  destruct (size_sweep t (foldl apply_op s ops)) as [Hsz Hmx]. pose proof (size_purge t (sweep t (foldl apply_op s ops))).
  split_and!.
  - apply eq_None_not_Some. intros [e Hl]. apply purge_lookup_addr in Hl as [Hl _]. congruence.
  - lia.
  - intros b e [_ Hl]%purge_lookup_addr. unfold live in Hl. lia.
Qed.

(** ** Witnesses *)

Definition ex_store : InMemory := NewInMemory (5 * Minute).
Definition ex_ops : list op :=
  [OpIssue 10 "n1" "alice"; OpIssue 20 "n2" "bob"; OpConsume 30 "n1"; OpConsume 40 "n1"; OpIssue 50 "n3" "alice"].

Lemma ex_fresh : fresh_for ex_ops ex_store.
Proof. split; [refine (bool_decide_unpack _ _); vm_compute; done|]. intros f _. apply lookup_empty. Qed.

Lemma nonce_single_use_witness :
  fresh_for ex_ops ex_store /\ (accepted "n1" ex_ops ex_store <= 1)%nat /\ accepted "n1" ex_ops ex_store = 1%nat.
Proof.
  split; [exact ex_fresh|]. split; [|vm_compute; reflexivity].
  exact (nonce_single_use ex_ops ex_store "n1" ex_fresh).
Defined.

Lemma live_nonce_kept_witness :
  let s1 := (Issue 10 "n1" "alice" ex_store).2 in
  let ops := [OpIssue 20 "n2" "bob"; OpConsume 25 "n2"; OpIssue 30 "n4" "alice"] in
  exists e, byAddr s1 !! "alice"%string = Some e /\ e_nonce e = "n1"%string /\
  (Consume 40 "n1" (foldl apply_op s1 ops)).1 = true.
Proof.
  cbv zeta.
  destruct (live_nonce_kept ex_store 10 "n1" "alice" "n1" (Issue 10 "n1" "alice" ex_store).2
              [OpIssue 20 "n2" "bob"; OpConsume 25 "n2"; OpIssue 30 "n4" "alice"] 40)
    as (e & He & Hn & Hk).
  - apply well_formed_new.
  - reflexivity.
  - vm_compute; reflexivity.
  - split; [refine (bool_decide_unpack _ _); vm_compute; done|].
    intros f Hf. repeat (apply elem_of_cons in Hf as [->|Hf]; [vm_compute; reflexivity|]). by apply elem_of_nil in Hf.
  - exists e. split; [exact He|]. split; [exact Hn|].
    assert (e = mkEntry "n1" (10 + 5 * Minute)) as -> by (revert He; vm_compute; congruence).
    destruct Hk as (_ & Hc & _); [|vm_compute; reflexivity|exact Hc].
    intros o Ho. repeat (apply elem_of_cons in Ho as [->|Ho]; [split; [vm_compute; reflexivity|discriminate]|]).
    by apply elem_of_nil in Ho.
Defined.

Lemma nonce_store_bounded_witness :
  let s := mkInMemory ∅ ∅ Minute 1 0 in
  let s' := foldl apply_op s [OpIssue 10 "n1" "alice"; OpIssue 20 "n2" "bob"] in
  Z.of_nat (size (byAddr s)) <= n_max s /\ Z.of_nat (size (byAddr s')) <= n_max s /\
  (Issue 30 "n3" "bob" s').1 = Err ErrStoreFull.
Proof.
  cbv zeta.
  destruct (nonce_store_bounded [OpIssue 10 "n1" "alice"; OpIssue 20 "n2" "bob"] (mkInMemory ∅ ∅ Minute 1 0))
    as (_ & Hz & _); [vm_compute; discriminate|].
  split; [vm_compute; discriminate|]. split; [exact Hz|vm_compute; reflexivity].
Defined.
