(* ===== verification/UserStore.v ===== *)
(** * User store: pkg/user/user.go and pkg/userstore

    Registered users and the registration whitelist: the domain model, the row
    conversions (model.go) and every method of the postgres store (pg.go) as
    the statements it executes.  The users table is a list in storage order,
    of which a SELECT of one row takes the first match; its columns id and
    created_at are filled by the database and never read.  The whitelist is
    keyed by its primary key, evm_address, which is compared byte by byte,
    while the lookups compare lower-cased addresses. *)

From S2P Require Import Prelude AppErrors Effects GoStd.
From stdpp Require Import sorting.
Local Open Scope Z_scope.

(** ** pkg/user/user.go *)

Definition KeyModeCustodial : string := "custodial".
Definition KeyModeExternal : string := "external".

Record User := mkUser {
  u_EVMAddress : string;
  u_CantonParty : string;
  u_Fingerprint : string;
  u_MappingCID : string;
  u_CantonPartyID : string;
  u_CantonKeyCreatedAt : option Z;
  u_CantonPrivateKeyEncrypted : string;
  u_KeyMode : string;
  u_CantonPublicKeyFingerprint : string;
}.

Record WhitelistEntry := mkWhitelistEntry { w_EVMAddress : string; w_Note : string; w_CreatedAt : Z }.

(** New, at the time [now]. *)
Definition New (now : Z) (evmAddress cantonPartyID fingerprint mappingCID encryptedPKey : string) : User :=
  mkUser evmAddress cantonPartyID fingerprint mappingCID cantonPartyID (Some now) encryptedPKey KeyModeCustodial "".

Definition NewExternal (evmAddress cantonPartyID fingerprint mappingCID publicKeyFingerprint : string) : User :=
  mkUser evmAddress cantonPartyID fingerprint mappingCID cantonPartyID None "" KeyModeExternal publicKeyFingerprint.

Definition ErrKeyNotFound : error := ErrVar "user.ErrKeyNotFound" "key not found".
Definition ErrUserNotFound : error := ErrVar "user.ErrUserNotFound" "user not found".
Definition is_ErrUserNotFound (e : error) : bool := errors_Is e "user.ErrUserNotFound" "user not found".

(** ** model.go *)

Record UserDao := mkUserDao {
  d_EVMAddress : string;
  d_CantonParty : string;
  d_Fingerprint : string;
  d_MappingCID : option string;
  d_CantonPartyID : option string;
  d_CantonPrivateKeyEncrypted : option string;
  d_CantonKeyCreatedAt : option Z;
  d_KeyMode : string;
  d_CantonPublicKeyFingerprint : option string;
}.

(** [if s != "" { dao.X = &s }] *)
Definition ptr_of (s : string) : option string := if bool_decide (s = ""%string) then None else Some s.

Definition toUserDao (usr : User) : UserDao :=
  mkUserDao (u_EVMAddress usr) (u_CantonParty usr) (u_Fingerprint usr)
    (ptr_of (u_MappingCID usr)) (ptr_of (u_CantonPartyID usr)) (ptr_of (u_CantonPrivateKeyEncrypted usr))
    (u_CantonKeyCreatedAt usr) (u_KeyMode usr) (ptr_of (u_CantonPublicKeyFingerprint usr)).

Definition toUser (dao : UserDao) : User :=
  mkUser (d_EVMAddress dao) (d_CantonParty dao) (d_Fingerprint dao)
    (default ""%string (d_MappingCID dao)) (default ""%string (d_CantonPartyID dao))
    (d_CantonKeyCreatedAt dao) (default ""%string (d_CantonPrivateKeyEncrypted dao))
    (d_KeyMode dao) (default ""%string (d_CantonPublicKeyFingerprint dao)).

Record WhitelistDao := mkWhitelistDao { wd_Note : option string; wd_CreatedAt : Z }.

Definition toWhitelistEntry (row : string * WhitelistDao) : WhitelistEntry :=
  mkWhitelistEntry row.1 (default ""%string (wd_Note row.2)) (wd_CreatedAt row.2).

Record UserTables := mkUserTables {
  t_users : list UserDao;
  t_whitelist : gmap string WhitelistDao;
}.
Abbreviation UserDB := (DB UserTables).

Definition set_users (l : list UserDao) (t : UserTables) : UserTables := mkUserTables l (t_whitelist t).
Definition set_whitelist (w : gmap string WhitelistDao) (t : UserTables) : UserTables := mkUserTables (t_users t) w.

(** ** pg.go *)

(** An INSERT that violates a unique constraint. *)
Definition duplicate_key : error := ErrNew "duplicate key value violates unique constraint".

Definition has_address (evmAddress : string) (d : UserDao) : bool := bool_decide (d_EVMAddress d = evmAddress).

(** An INSERT or UPDATE whose outcome depends on the rows. *)
Definition exec_result {T A} (f : T -> result A * T) : M (DB T) A :=
  r ← exec f; match r with Ok a => mret a | Err e => fail e end.

Definition insert_user (d : UserDao) (t : UserTables) : result unit * UserTables :=
  if existsb (has_address (d_EVMAddress d)) (t_users t) then (Err duplicate_key, t)
  else (Ok tt, set_users (t_users t ++ [d]) t).

Definition CreateUser (usr : User) : M UserDB unit :=
  wrapping "failed to create user: " (exec_result (insert_user (toUserDao usr))).

(** The columns the store looks users up by. *)
Inductive column := col_evm_address | col_canton_party_id | col_fingerprint.

Definition column_is (c : column) (value : string) (d : UserDao) : bool :=
  match c with
  | col_evm_address => bool_decide (d_EVMAddress d = value)
  | col_canton_party_id => bool_decide (d_CantonPartyID d = Some value)
  | col_fingerprint => bool_decide (d_Fingerprint d = value)
  end.

Definition getUserBy (c : column) (value : string) : M UserDB User :=
  row ← wrapping "failed to get user: " (query (fun t => List.find (column_is c value) (t_users t)));
  match row with
  | Some dao => mret (toUser dao)
  | None => fail ErrUserNotFound
  end.

Definition GetUserByEVMAddress (evmAddress : string) : M UserDB User := getUserBy col_evm_address evmAddress.
Definition GetUserByCantonPartyID (partyID : string) : M UserDB User := getUserBy col_canton_party_id partyID.
Definition GetUserByFingerprint (fingerprint : string) : M UserDB User := getUserBy col_fingerprint fingerprint.

Definition UserExists (evmAddress : string) : M UserDB bool :=
  wrapping "failed to check user exists: " (query (fun t => existsb (has_address evmAddress) (t_users t))).

Definition DeleteUser (evmAddress : string) : M UserDB unit :=
  wrapping "failed to delete user: "
    (exec (fun t => (tt, set_users (filter (fun d => has_address evmAddress d = false) (t_users t)) t))).

Definition ListUsers : M UserDB (list User) :=
  wrapping "failed to list users: " (query (fun t => toUser <$> t_users t)).

Definition ListCustodialUsers : M UserDB (list User) :=
  wrapping "failed to list custodial users: "
    (query (fun t => toUser <$> filter (fun d => d_KeyMode d = KeyModeCustodial) (t_users t))).

(** LOWER(evm_address) = LOWER(?) *)
Definition same_address (a b : string) : bool := bool_decide (ToLower a = ToLower b).

Definition IsWhitelisted (evmAddress : string) : M UserDB bool :=
  wrapping "failed to check whitelist: "
    (query (fun t => existsb (fun k => same_address k evmAddress) (map_to_list (t_whitelist t)).*1)).

(** The upsert; [now] is the default of created_at for a new row. *)
Definition upsert_whitelist (now : Z) (evmAddress : string) (note : option string)
    (w : gmap string WhitelistDao) : gmap string WhitelistDao :=
  <[evmAddress := mkWhitelistDao note (match w !! evmAddress with Some d => wd_CreatedAt d | None => now end)]> w.

Definition AddToWhitelist (now : Z) (evmAddress note : string) : M UserDB unit :=
  let evmAddress := TrimSpace evmAddress in
  if bool_decide (evmAddress = ""%string) then fail (ErrNew "evm address is required")
  else
    let note := if bool_decide (TrimSpace note = ""%string) then None else Some note in
    wrapping "failed to add whitelist entry: "
      (exec (fun t => (tt, set_whitelist (upsert_whitelist now evmAddress note (t_whitelist t)) t))).

Definition RemoveFromWhitelist (evmAddress : string) : M UserDB bool :=
  n ← wrapping "failed to remove whitelist entry: "
        (exec (fun t =>
           let kept := filter (fun r => same_address r.1 evmAddress = false) (t_whitelist t) in
           (Z.of_nat (size (t_whitelist t) - size kept), set_whitelist kept t)));
  n ← wrapping "failed to read rows affected: " (RowsAffected n);
  mret (0 <? n).

(** The rows in the order of their lower-cased address. *)
Definition row_le (a b : string * WhitelistDao) : Prop := Is_true (String.leb (ToLower a.1) (ToLower b.1)).
#[global] Instance row_le_dec a b : Decision (row_le a b).
Proof. unfold row_le. apply _. Defined.

Definition sorted_rows (w : gmap string WhitelistDao) : list (string * WhitelistDao) := merge_sort row_le (map_to_list w).

(** LOWER(evm_address) > LOWER(cursor), no condition without a cursor. *)
Definition after_cursor (cursor : string) (r : string * WhitelistDao) : bool :=
  bool_decide (cursor = ""%string) || String.ltb (ToLower cursor) (ToLower r.1).

Definition ListWhitelist (cursor : string) (limit : Z) : M UserDB (list WhitelistEntry) :=
  wrapping "failed to list whitelist entries: "
    (query (fun t =>
       toWhitelistEntry <$> sql_limit limit (filter (fun r => after_cursor cursor r = true) (sorted_rows (t_whitelist t))))).

Section keys.
Context (decryptor : string -> result (list Z)).

(** A nil key is the empty one. *)
Definition getUserKeyBy (c : column) (value : string) : M UserDB (list Z) :=
  row ← wrapping "failed to get user key: " (query (fun t => List.find (column_is c value) (t_users t)));
  match row with
  | None => fail ErrKeyNotFound
  | Some dao =>
      let encrypted := default ""%string (d_CantonPrivateKeyEncrypted dao) in
      if bool_decide (encrypted = ""%string) then mret []
      else
        match decryptor encrypted with
        | Ok key => mret key
        | Err e => fail (ErrWrap "failed to decrypt key: " e "")
        end
  end.

Definition GetUserKeyByCantonPartyID (partyID : string) : M UserDB (list Z) := getUserKeyBy col_canton_party_id partyID.
Definition GetUserKeyByEVMAddress (evmAddress : string) : M UserDB (list Z) := getUserKeyBy col_evm_address evmAddress.
Definition GetUserKeyByFingerprint (fingerprint : string) : M UserDB (list Z) := getUserKeyBy col_fingerprint fingerprint.
End keys.

(** ** What the rest of the program relies on: the UserStore interface *)

(** The lookups the transfer service, the login service and the registration
    service declare, over the state of a store. *)
Class UserLookup (W : Type) := {
  look_by_address : string -> M W User;
  look_by_party : string -> M W User;
}.

#[global] Instance pg_lookup : UserLookup UserDB := {
  look_by_address := GetUserByEVMAddress;
  look_by_party := GetUserByCantonPartyID;
}.

(** ** Rows and users *)

Lemma default_ptr_of s : default ""%string (ptr_of s) = s.
Proof. unfold ptr_of. by case_bool_decide; subst. Qed.

Lemma toUser_toUserDao u : toUser (toUserDao u) = u.
Proof. destruct u. unfold toUser, toUserDao. cbn. by rewrite !default_ptr_of. Qed.

(** evm_address is unique. *)
Definition users_ok (t : UserTables) : Prop := NoDup (d_EVMAddress <$> t_users t).

Lemma existsb_has_address a l : existsb (has_address a) l = true <-> a ∈ d_EVMAddress <$> l.
Proof.
  rewrite existsb_exists, list_elem_of_fmap. unfold has_address. split.
  - intros (d & Hd%list_elem_of_In & Ha%bool_decide_eq_true_1). eauto.
  - intros (d & -> & Hd%list_elem_of_In). exists d. split; [done|]. by apply bool_decide_eq_true_2.
Qed.

Lemma find_unique a d l :
  NoDup (d_EVMAddress <$> l) -> d ∈ l -> d_EVMAddress d = a -> List.find (column_is col_evm_address a) l = Some d.
Proof.
  intros Hnd Hd Ha. induction l as [|x l IH]; [by apply elem_of_nil in Hd|]. rewrite fmap_cons in Hnd.
  apply NoDup_cons in Hnd as [Hx Hnd]. cbn. case_bool_decide as Hxa.
  - apply elem_of_cons in Hd as [->|Hd]; [done|]. exfalso. apply Hx. rewrite Hxa, <- Ha. by apply list_elem_of_fmap_2.
  - apply elem_of_cons in Hd as [->|Hd]; [done|]. by apply IH.
Qed.

(** A user that CreateUser stored is read back unchanged by its EVM
    address, whatever fields it leaves empty, and the other rows are
    untouched; a user whose EVM address is already stored is refused, and then
    as after a failed statement nothing is written.  EVM addresses stay
    unique. *)
Theorem CreateUser_correct usr d :
  users_ok (tables d) ->
  wp (CreateUser usr) (fun r d' =>
    users_ok (tables d') /\ t_whitelist (tables d') = t_whitelist (tables d) /\
    match r with
    | Ok _ =>
        GetUserByEVMAddress (u_EVMAddress usr) (mkDB (tables d') []) = (Ok usr, mkDB (tables d') []) /\
        t_users (tables d') = t_users (tables d) ++ [toUserDao usr] /\
        UserExists (u_EVMAddress usr) (mkDB (tables d) []) = (Ok false, mkDB (tables d) [])
    | Err e => tables d' = tables d /\ is_ErrUserNotFound e = false
    end) d.
Proof.
  intros Hok. unfold CreateUser, exec_result. wp_go; [|done].
  unfold insert_user. cbn [d_EVMAddress toUserDao].
  destruct (existsb (has_address (u_EVMAddress usr)) (t_users (tables d))) eqn:Hex; cbn [fst snd]; wp_go; [done|].
  assert (u_EVMAddress usr ∉ d_EVMAddress <$> t_users (tables d)) as Hnew
    by (rewrite <- existsb_has_address; by rewrite Hex).
  assert (users_ok (set_users (t_users (tables d) ++ [toUserDao usr]) (tables d))) as Hok'.
  { unfold users_ok in *. cbn. rewrite fmap_app. apply NoDup_app. split_and!; [done| |apply NoDup_singleton].
    intros a Ha Hs. apply list_elem_of_singleton in Hs as ->. done. }
  split_and!; [done|done| |done|].
  - unfold GetUserByEVMAddress, getUserBy. cbn -[List.find]. unfold mbind, M_bind, wrapping.
    rewrite query_nofault. cbn -[List.find t_users].
    rewrite (find_unique _ (toUserDao usr)); [|done|cbn; apply elem_of_app; right; constructor|done].
    by rewrite toUser_toUserDao.
  - unfold UserExists, wrapping. rewrite query_nofault. by rewrite Hex.
Qed.

Definition ex_user : User := NewExternal "0xAb" "alice::12" "0xf1" "" "1220aa".
Definition ex_user_tables : UserTables := mkUserTables [toUserDao (New 7 "0xCd" "bob::34" "0xf2" "cid" "enc")] ∅.

Lemma CreateUser_correct_witness :
  users_ok ex_user_tables /\
  (let '(r, d') := CreateUser ex_user (mkDB ex_user_tables [None]) in
   r = Ok tt /\ GetUserByEVMAddress "0xAb" (mkDB (tables d') []) = (Ok ex_user, mkDB (tables d') [])).
Proof.
  assert (users_ok ex_user_tables) as Hok by (refine (bool_decide_unpack _ _); vm_compute; done).
  split; [exact Hok|].
  pose proof (CreateUser_correct ex_user (mkDB ex_user_tables [None]) Hok) as H.
  destruct (CreateUser ex_user (mkDB ex_user_tables [None])) as [r d'] eqn:Hrun.
  apply (wp_run _ _ _ r d') in H; [|exact Hrun].
  assert (r = Ok tt) as -> by (revert Hrun; vm_compute; congruence).
  split; [reflexivity|]. exact (proj1 (proj2 (proj2 H))).
Defined.

(** ** Lookups *)

Lemma wp_getUserBy c v d Q :
  (forall dao fs, List.find (column_is c v) (t_users (tables d)) = Some dao -> Q (Ok (toUser dao)) (mkDB (tables d) fs)) ->
  (forall fs, List.find (column_is c v) (t_users (tables d)) = None -> Q (Err ErrUserNotFound) (mkDB (tables d) fs)) ->
  (forall m fs, Q (Err (ErrWrap "failed to get user: " (ErrNew m) "")) (mkDB (tables d) fs)) ->
  wp (getUserBy c v) Q d.
Proof.
  intros Hs Hn He. unfold getUserBy. wp_go; [|apply He].
  destruct (List.find _ _) as [dao|] eqn:Hf; wp_go; auto.
Qed.

(** A lookup answers with a stored user whose column has the value. *)
Lemma find_column c v l dao : List.find (column_is c v) l = Some dao -> dao ∈ l /\ column_is c v dao = true.
Proof. intros [Hin Hc]%find_some. by rewrite list_elem_of_In. Qed.

