(* ===== verification/Whitelist.v ===== *)
(** * Registration whitelist: pkg/user/whitelist/whitelist.go

    The gate that the registration service and the JSON-RPC facade ask, and the
    admin operations: add, remove and a cursor-paginated listing. *)

From S2P Require Import Prelude AppErrors Effects GoStd GoText EthClient AuthMessages UserStore.
From stdpp Require Import sorting.
From Stdlib Require Import Ascii String.
Local Open Scope Z_scope.
Local Abbreviation length := Datatypes.length.

Definition DefaultLimit : Z := 50.
Definition MaxLimit : Z := 200.

Definition ErrEntryNotFound : error := ErrVar "whitelist.ErrEntryNotFound" "whitelist entry not found".

Record Page := mkPage { pg_Items : list WhitelistEntry; pg_NextCursor : string; pg_HasMore : bool }.

(** The store, and whether skip_whitelist_check is set. *)
Section Service.
Context `{!GoEthereum} (skip_check : bool).

(** Service.IsWhitelisted *)
Definition gate (evmAddress : string) : M UserDB bool :=
  if skip_check then mret true else IsWhitelisted evmAddress.

Definition normalizeAddress (evmAddress : string) : result string :=
  if ValidateEVMAddress evmAddress then Ok (NormalizeAddress evmAddress)
  else Err (BadRequestError None "valid evm address is required").

(** [if err != nil { return apperrors.GeneralError(fmt.Errorf("op: %w", err)) }] *)
Definition general {W A} (op : string) (c : M W A) : M W A := fun w =>
  let '(r, w') := c w in
  (match r with Ok a => Ok a | Err e => Err (GeneralError (Some (ErrWrap op e ""))) end, w').

Definition Add (now : Z) (evmAddress note : string) : M UserDB unit :=
  match normalizeAddress evmAddress with
  | Err e => fail e
  | Ok addr => general "add to whitelist: " (AddToWhitelist now addr note)
  end.

Definition Remove (evmAddress : string) : M UserDB unit :=
  match normalizeAddress evmAddress with
  | Err e => fail e
  | Ok addr =>
      removed ← general "remove from whitelist: " (RemoveFromWhitelist addr);
      if (removed : bool) then mret tt else fail (ResourceNotFoundError (Some ErrEntryNotFound) "address not whitelisted")
  end.

Definition clampLimit (limit : Z) : Z :=
  let limit := if limit <? 1 then DefaultLimit else limit in
  if MaxLimit <? limit then MaxLimit else limit.

(** The page of the rows the store returned for [limit + 1]. *)
Definition page_of_rows (limit : Z) (rows : list WhitelistEntry) : Page :=
  let hasMore := limit <? Z.of_nat (length rows) in
  let items := if hasMore then take (Z.to_nat limit) rows else rows in
  mkPage items (match last items with
                | Some e => if hasMore then w_EVMAddress e else ""%string
                | None => ""%string
                end) hasMore.

Definition List (cursor : string) (limit : Z) : M UserDB Page :=
  let limit := clampLimit limit in
  rows ← general "list whitelist: " (ListWhitelist cursor (limit + 1));
  mret (page_of_rows limit rows).
End Service.

(** ** The order of texts *)

Lemma ascii_compare_trans a b c :
  Ascii.compare a b = Lt -> Ascii.compare b c = Lt -> Ascii.compare a c = Lt.
Proof. unfold Ascii.compare. rewrite !N.compare_lt_iff. lia. Qed.

Lemma string_compare_trans a b c :
  String.compare a b = Lt -> String.compare b c = Lt -> String.compare a c = Lt.
Proof.
  revert b c. induction a as [|x a IH]; intros [|y b] [|z c]; cbn; try done.
  destruct (Ascii.compare x y) eqn:Hxy; try done; destruct (Ascii.compare y z) eqn:Hyz; try done; intros Hab Hbc.
  - apply Ascii.compare_eq_iff in Hxy as ->. rewrite Hyz. eauto.
  - apply Ascii.compare_eq_iff in Hxy as ->. by rewrite Hyz.
  - apply Ascii.compare_eq_iff in Hyz as <-. by rewrite Hxy.
  - by rewrite (ascii_compare_trans _ _ _ Hxy Hyz).
Qed.

Lemma string_compare_refl a : String.compare a a = Eq.
Proof. induction a as [|c a IH]; [done|]. cbn. unfold Ascii.compare. by rewrite N.compare_refl. Qed.

Lemma string_ltb_lt a b : String.ltb a b = true <-> String.compare a b = Lt.
Proof. unfold String.ltb. by destruct (String.compare a b). Qed.

Lemma string_leb_cases a b : String.leb a b = true <-> a = b \/ String.ltb a b = true.
Proof.
  unfold String.leb, String.ltb. destruct (String.compare a b) eqn:Hc.
  - apply String.compare_eq_iff in Hc as ->. tauto.
  - tauto.
  - split; [done|]. intros [->|]; [|done]. by rewrite string_compare_refl in Hc.
Qed.

Lemma string_ltb_trans a b c : String.ltb a b = true -> String.ltb b c = true -> String.ltb a c = true.
Proof. rewrite !string_ltb_lt. apply string_compare_trans. Qed.

Lemma string_ltb_irrefl a : String.ltb a a = false.
Proof. unfold String.ltb. by rewrite string_compare_refl. Qed.

#[local] Instance row_le_trans : Transitive row_le.
Proof.
  intros x y z. unfold row_le. rewrite !Is_true_true, !string_leb_cases.
  intros [Ha|Ha] [Hb|Hb]; [left; congruence|right; by rewrite Ha|right; by rewrite <- Hb|right; by eapply string_ltb_trans].
Qed.

#[local] Instance row_le_total : Total row_le.
Proof.
  intros x y. unfold row_le. rewrite !Is_true_true. apply orb_true_iff.
  destruct (String.leb_total (ToLower x.1) (ToLower y.1)) as [->| ->]; auto using orb_true_r.
Qed.

(** ** Pages *)

(** The addresses are not empty, and no two differ in case only. *)
Definition whitelist_ok (w : gmap string WhitelistDao) : Prop :=
  forall k, k ∈ dom w -> k <> ""%string /\ forall k', k' ∈ dom w -> ToLower k = ToLower k' -> k = k'.

Definition row_lt (a b : string * WhitelistDao) : Prop := String.ltb (ToLower a.1) (ToLower b.1) = true.

Lemma elem_of_sorted_rows w r : r ∈ sorted_rows w <-> w !! r.1 = Some r.2.
Proof. unfold sorted_rows. rewrite merge_sort_Permutation. destruct r. by rewrite elem_of_map_to_list. Qed.

Lemma sorted_rows_strict w : whitelist_ok w -> StronglySorted row_lt (sorted_rows w).
Proof.
  intros Hok.
  assert (NoDup ((fun r => ToLower r.1) <$> sorted_rows w)) as Hnd.
  { apply NoDup_fmap_2_strong.
    - intros x y Hx%elem_of_sorted_rows Hy%elem_of_sorted_rows Heq.
      destruct (Hok x.1) as [_ Hinj]; [by apply elem_of_dom|]. apply Hinj in Heq; [|by apply elem_of_dom].
      destruct x, y; cbn in *. congruence.
    - unfold sorted_rows. rewrite merge_sort_Permutation. apply NoDup_map_to_list. }
  pose proof (StronglySorted_merge_sort row_le (map_to_list w)) as Hs. fold (sorted_rows w) in Hs.
  induction Hs as [|x l Hl IH Hx]; [constructor|]. rewrite fmap_cons in Hnd. apply NoDup_cons in Hnd as [Hn Hnd].
  constructor; [by apply IH|]. rewrite Forall_forall in Hx |- *. intros y Hy. specialize (Hx y Hy).
  unfold row_le in Hx. rewrite Is_true_true, string_leb_cases in Hx. destruct Hx as [Heq|Hlt]; [|done].
  exfalso. apply Hn. rewrite Heq. by apply (list_elem_of_fmap_2 (fun r => ToLower r.1)).
Qed.

Lemma filter_after_cursor (l1 l2 : list (string * WhitelistDao)) x :
  StronglySorted row_lt (l1 ++ x :: l2) -> x.1 <> ""%string ->
  filter (fun r => after_cursor x.1 r = true) (l1 ++ x :: l2) = l2.
Proof.
  intros Hs Hx.
  assert (forall r, after_cursor x.1 r = String.ltb (ToLower x.1) (ToLower r.1)) as Hac
    by (intros r; unfold after_cursor; by rewrite bool_decide_eq_false_2).
  rewrite filter_app, (filter_none _ l1), app_nil_l.
  - rewrite filter_cons_False by (rewrite Hac, string_ltb_irrefl; discriminate). apply filter_all.
    intros y Hy. rewrite Hac. apply StronglySorted_app_1_r in Hs. apply StronglySorted_inv in Hs as [_ Hs].
    by apply (proj1 (Forall_forall _ _) Hs).
  - intros y Hy. rewrite Hac. intros Hlt.
    pose proof (StronglySorted_app_1_elem_of _ _ _ y x Hs Hy ltac:(constructor)) as Hyx.
    pose proof (string_ltb_trans _ _ _ Hlt Hyx) as H. by rewrite string_ltb_irrefl in H.
Qed.

(** A client that follows the cursors. *)
Fixpoint walk (fuel : nat) (limit : Z) (cursor : string) : M UserDB (list WhitelistEntry) :=
  match fuel with
  | O => mret []
  | S fuel =>
      p ← List cursor limit;
      if pg_HasMore p then rest ← walk fuel limit (pg_NextCursor p); mret (pg_Items p ++ rest)
      else mret (pg_Items p)
  end.

Lemma clampLimit_pos limit : 1 <= clampLimit limit <= MaxLimit.
Proof.
  unfold clampLimit, DefaultLimit, MaxLimit. destruct (Z.ltb_spec limit 1); cbn; [lia|].
  destruct (Z.ltb_spec 200 limit); lia.
Qed.

Lemma List_nofault cursor limit t :
  List cursor limit (mkDB t []) =
  (Ok (page_of_rows (clampLimit limit) (toWhitelistEntry <$>
     take (S (Z.to_nat (clampLimit limit))) (filter (fun r => after_cursor cursor r = true) (sorted_rows (t_whitelist t))))),
   mkDB t []).
Proof.
  pose proof (clampLimit_pos limit). unfold List, ListWhitelist, general, wrapping, mbind, M_bind.
  rewrite query_nofault. cbn [wrap fst snd]. unfold sql_limit. rewrite (proj2 (Z.ltb_lt 0 _)) by lia.
  replace (Z.to_nat (clampLimit limit + 1)) with (S (Z.to_nat (clampLimit limit))) by lia. done.
Qed.

(** The page of a list of rows: the rows, or the first [n] of them and the
    address of the last one. *)
Lemma page_of_take n (l : list (string * WhitelistDao)) :
  (1 <= n)%nat ->
  let p := page_of_rows (Z.of_nat n) (toWhitelistEntry <$> take (S n) l) in
  (length l <= n)%nat /\ p = mkPage (toWhitelistEntry <$> l) "" false \/
  exists l1 x l2, l = l1 ++ x :: l2 /\ length (l1 ++ [x]) = n /\ l2 <> [] /\
    p = mkPage (toWhitelistEntry <$> (l1 ++ [x])) x.1 true.
Proof.
  intros Hn. cbv zeta. unfold page_of_rows. rewrite length_fmap, length_take.
  destruct (decide (length l <= n)%nat) as [Hle|Hgt].
  - left. split; [done|]. rewrite (proj2 (Z.ltb_ge _ _)) by lia. rewrite take_ge by lia.
    f_equal. by destruct (last _).
  - right. rewrite (proj2 (Z.ltb_lt _ _)) by lia. rewrite Nat2Z.id, <- fmap_take, take_take, Nat.min_l by lia.
    assert (exists l1 x, take n l = l1 ++ [x]) as (l1 & x & Htk).
    { destruct (take n l) as [|y k] eqn:Ht using rev_ind; [|eauto].
      apply (f_equal length) in Ht. rewrite length_take in Ht. cbn in Ht. lia. }
    exists l1, x, (drop n l). split_and!.
    + rewrite <- (take_drop n l) at 1. rewrite Htk. by rewrite <- app_assoc.
    + rewrite <- Htk, length_take. lia.
    + intros Hd. apply (f_equal length) in Hd. rewrite length_drop in Hd. cbn in Hd. lia.
    + rewrite Htk. f_equal. rewrite fmap_app. change (toWhitelistEntry <$> [x]) with [toWhitelistEntry x]. by rewrite last_snoc.
Qed.

(** Following the cursors of List from the start visits every whitelisted
    address exactly once, in the order of the lower-cased addresses, and ends:
    whatever page size is asked for (it is clamped to 1..200), at most one
    page more than there are addresses is fetched. *)
Theorem whitelist_pages_complete limit t fuel :
  whitelist_ok (t_whitelist t) -> (size (t_whitelist t) < fuel)%nat ->
  walk fuel limit "" (mkDB t []) = (Ok (toWhitelistEntry <$> sorted_rows (t_whitelist t)), mkDB t []) /\
  sorted_rows (t_whitelist t) ≡ₚ map_to_list (t_whitelist t) /\ StronglySorted row_lt (sorted_rows (t_whitelist t)).
Proof.
  intros Hok Hfuel. pose proof (sorted_rows_strict _ Hok) as Hs.
  split_and!; [|apply merge_sort_Permutation|done].
  assert (forall fuel l1 l2 cursor, sorted_rows (t_whitelist t) = l1 ++ l2 -> (length l2 < fuel)%nat ->
    filter (fun r => after_cursor cursor r = true) (sorted_rows (t_whitelist t)) = l2 ->
    walk fuel limit cursor (mkDB t []) = (Ok (toWhitelistEntry <$> l2), mkDB t [])) as Hwalk.
  { clear fuel Hfuel. pose proof (clampLimit_pos limit) as Hlim.
    induction fuel as [|fuel IH]; intros l1 l2 cursor Hl Hf Hc; [lia|]. cbn [walk]. unfold mbind, M_bind.
    rewrite List_nofault, Hc. set (n := Z.to_nat (clampLimit limit)).
    replace (clampLimit limit) with (Z.of_nat n) by lia.
    destruct (page_of_take n l2) as [[_ ->]|(k1 & x & k2 & -> & Hn & Hk2 & ->)]; [lia|done|]. cbn [pg_HasMore pg_NextCursor pg_Items].
    assert (x ∈ sorted_rows (t_whitelist t)) as Hx by (rewrite Hl; set_solver).
    apply elem_of_sorted_rows in Hx.
    assert (filter (fun r => after_cursor x.1 r = true) (sorted_rows (t_whitelist t)) = k2) as Hfilt.
    { rewrite Hl, app_assoc. apply filter_after_cursor; [by rewrite <- app_assoc, <- Hl|].
      apply (Hok x.1). by apply elem_of_dom. }
    rewrite (IH ((l1 ++ k1) ++ [x]) k2 x.1); [|by rewrite Hl, <- !app_assoc|rewrite !length_app in *; cbn in *; lia|done].
    cbn. unfold mret, M_ret. do 2 f_equal. rewrite <- fmap_app. by rewrite <- app_assoc. }
  apply (Hwalk fuel [] (sorted_rows (t_whitelist t)) ""%string); [done| |by apply filter_all].
  unfold sorted_rows. rewrite (Permutation_length (merge_sort_Permutation _ _)), length_map_to_list. done.
Qed.

Definition ex_whitelist : gmap string WhitelistDao :=
  <["0xB1"%string := mkWhitelistDao None 1]> (<["0xa2"%string := mkWhitelistDao (Some "x"%string) 2]> {["0xA0"%string := mkWhitelistDao None 3]}).

Lemma whitelist_pages_complete_witness :
  let t := mkUserTables [] ex_whitelist in
  whitelist_ok ex_whitelist /\ (size ex_whitelist < 4)%nat /\
  walk 4 1 "" (mkDB t []) = (Ok (toWhitelistEntry <$> sorted_rows ex_whitelist), mkDB t []) /\
  (w_EVMAddress <$> (toWhitelistEntry <$> sorted_rows ex_whitelist)) = ["0xA0"; "0xa2"; "0xB1"]%string.
Proof.
  cbv zeta. assert (whitelist_ok ex_whitelist) as Hok.
  { assert (forall k, k ∈ dom ex_whitelist -> k = "0xB1" \/ k = "0xa2" \/ k = "0xA0")%string as Hdom
      by (intros k; unfold ex_whitelist; rewrite !dom_insert_L, dom_singleton_L; set_solver).
    intros k Hk%Hdom. split; [destruct Hk as [->|[->| ->]]; discriminate|].
    intros k' Hk'%Hdom. destruct Hk as [->|[->| ->]], Hk' as [->|[->| ->]]; vm_compute; congruence. }
  split; [exact Hok|]. split; [vm_compute; lia|]. split; [|vm_compute; reflexivity].
  apply (whitelist_pages_complete 1 (mkUserTables [] ex_whitelist) 4 Hok). vm_compute. lia.
Defined.

(** ** The whitelist is a set of case-insensitive addresses *)

(** What go-ethereum's checksummed form keeps of a valid address. *)
Class AddressLaws `{!GoEthereum} : Prop := {
  NormalizeAddress_lower a : ValidateEVMAddress a = true -> ToLower (NormalizeAddress a) = ToLower a;
  NormalizeAddress_case a b :
    ValidateEVMAddress a = true -> ValidateEVMAddress b = true -> ToLower a = ToLower b ->
    NormalizeAddress a = NormalizeAddress b;
}.

(** The abstract state: the lower-cased addresses. *)
Definition allowed (t : UserTables) : gset string := set_map ToLower (dom (t_whitelist t)).

Lemma elem_of_allowed t a : a ∈ allowed t <-> exists k, k ∈ dom (t_whitelist t) /\ a = ToLower k.
Proof. unfold allowed. rewrite elem_of_map. naive_solver. Qed.

Lemma existsb_allowed t a :
  existsb (fun k => same_address k a) (map_to_list (t_whitelist t)).*1 = bool_decide (ToLower a ∈ allowed t).
Proof.
  apply eq_bool_prop_intro. rewrite !Is_true_true, bool_decide_eq_true, existsb_exists, elem_of_allowed.
  unfold same_address. split.
  - intros (k & Hk & Ha%bool_decide_eq_true_1). exists k. split; [|done].
    apply list_elem_of_In, list_elem_of_fmap in Hk as ([k' d] & -> & Hk). apply elem_of_map_to_list in Hk. by apply elem_of_dom.
  - intros (k & Hk & Ha). exists k. split; [|by apply bool_decide_eq_true_2].
    apply elem_of_dom in Hk as [d Hd]. apply list_elem_of_In, list_elem_of_fmap. exists (k, d).
    split; [done|]. by apply elem_of_map_to_list.
Qed.

Lemma valid_no_space a : ValidateEVMAddress a = true -> no_space a.
Proof.
  unfold ValidateEVMAddress. intros [[Hp _]%andb_true_iff Hh]%andb_true_iff.
  assert (forall c v, hex_val c = Some v -> is_space c = false) as Hc.
  { intros c v. unfold hex_val, is_space. intros Hv.
    assert (48 <= nat_of_ascii c)%nat as Hn by (repeat case_match; simplify_eq; lia).
    rewrite (proj2 (Nat.leb_gt _ 13)), (proj2 (Nat.eqb_neq _ 32)) by lia. by rewrite andb_false_r. }
  assert (forall s, is_Some (hex_decode s) -> no_space s) as Hhex.
  { fix IH 1. intros [|x [|y s]] [bs Hbs]; [done|done|]. cbn in Hbs. destruct (hex_val x) eqn:Hx; [|done].
    destruct (hex_val y) eqn:Hy; [|done]. cbn in Hbs. destruct (hex_decode s) as [bs'|] eqn:Hs; [|done].
    split; [eauto|]. split; [eauto|]. apply IH. by rewrite Hs. }
  destruct a as [|x [|y a]]; try done; [cbn in Hp; by rewrite andb_false_r in Hp|]. cbn in Hp, Hh.
  apply andb_true_iff in Hp as [<-%bool_decide_eq_true_1 Hp]. apply andb_true_iff in Hp as [<-%bool_decide_eq_true_1 _].
  split; [done|]. split; [done|]. apply Hhex. by destruct (hex_decode a).
Qed.

Section refinement.
Context `{!GoEthereum} `{!AddressLaws} (skip_check : bool).

Lemma normalized_stored a :
  ValidateEVMAddress a = true -> TrimSpace (NormalizeAddress a) = NormalizeAddress a /\ NormalizeAddress a <> ""%string.
Proof.
  intros Ha. pose proof (NormalizeAddress_lower a Ha) as Hl. split.
  - apply TrimSpace_none, no_space_lower. rewrite Hl. apply no_space_lower. by apply valid_no_space.
  - intros Hn. rewrite Hn in Hl. destruct a; [done|]. done.
Qed.

(** The whitelist service implements a set of case-insensitive addresses:
    Add of a valid address inserts it, Remove deletes it and reports an
    address that was not in the set, the gate answers membership without
    changing anything (or lets everyone in when the check is skipped), and an
    invalid address or a failed first statement changes nothing. *)
Theorem whitelist_refines_set now a note b d :
  wp (Add now a note) (fun r d' =>
    match r with
    | Ok _ => ValidateEVMAddress a = true /\ allowed (tables d') = {[ToLower a]} ∪ allowed (tables d)
    | Err _ => tables d' = tables d
    end) d /\
  wp (Remove a) (fun r d' =>
    match r with
    | Ok _ => ToLower a ∈ allowed (tables d) /\ allowed (tables d') = allowed (tables d) ∖ {[ToLower a]}
    | Err e => tables d' = tables d \/
               IsInternalError e = true /\ allowed (tables d') = allowed (tables d) ∖ {[ToLower a]}
    end) d /\
  wp (gate skip_check b) (fun r d' =>
    tables d' = tables d /\
    forall v, r = Ok v -> v = skip_check || bool_decide (ToLower b ∈ allowed (tables d))) d.
Proof.
  split_and!.
  - unfold Add, normalizeAddress. destruct (ValidateEVMAddress a) eqn:Ha; [|by wp_go].
    destruct (normalized_stored a Ha) as [Htrim Hne].
    unfold AddToWhitelist. rewrite Htrim, bool_decide_eq_false_2 by done.
    set (nt := if bool_decide (TrimSpace note = ""%string) then None else Some note).
    unfold wp, general, wrapping, exec. destruct (faults d) as [|[m|] fs]; cbn; try done; (split; [done|]);
      unfold allowed, upsert_whitelist; cbn; rewrite dom_insert_L, set_map_union_L, set_map_singleton_L, NormalizeAddress_lower by done; done.
  - unfold Remove, normalizeAddress. destruct (ValidateEVMAddress a) eqn:Ha; [|wp_go; by left].
    set (kept := filter (fun r => same_address r.1 (NormalizeAddress a) = false) (t_whitelist (tables d))).
    assert (allowed (set_whitelist kept (tables d)) = allowed (tables d) ∖ {[ToLower a]}) as Hkept.
    { apply set_eq. intros x. rewrite elem_of_difference, elem_of_singleton, !elem_of_allowed. cbn. split.
      - intros (k & Hk & ->). apply elem_of_dom in Hk as [dd Hk]. apply map_lookup_filter_Some in Hk as [Hk Hs].
        unfold same_address in Hs. cbn in Hs. apply bool_decide_eq_false_1 in Hs. rewrite NormalizeAddress_lower in Hs by done.
        split; [|done]. exists k. split; [by apply elem_of_dom|done].
      - intros [(k & Hk & ->) Hne]. apply elem_of_dom in Hk as [dd Hk]. exists k. split; [|done]. apply elem_of_dom.
        exists dd. apply map_lookup_filter_Some. split; [done|]. cbn. unfold same_address.
        apply bool_decide_eq_false_2. by rewrite NormalizeAddress_lower. }
    assert (size kept = size (t_whitelist (tables d)) -> set_whitelist kept (tables d) = tables d) as Hsame.
    { intros Hsz. assert (kept = t_whitelist (tables d)) as ->; [|by destruct (tables d)].
      apply map_subseteq_size_eq; [apply map_filter_subseteq|lia]. }
    assert (forall x, (0 < size (t_whitelist (tables d)) - size kept)%nat -> x = ToLower a -> x ∈ allowed (tables d)) as Hin.
    { intros x Hlt ->. destruct (decide (ToLower a ∈ allowed (tables d))) as [|Hno]; [done|]. exfalso.
      assert (kept = t_whitelist (tables d)) as Heq; [|rewrite Heq in Hlt; lia].
      apply map_filter_id. intros k dd Hk. cbn. unfold same_address. apply bool_decide_eq_false_2. intros Hlow.
      rewrite NormalizeAddress_lower in Hlow by done. apply Hno, elem_of_allowed. exists k.
      split; [by apply elem_of_dom|done]. }
    pose proof (map_size_filter (fun r => same_address r.1 (NormalizeAddress a) = false) (t_whitelist (tables d))) as Hle. fold kept in Hle.
    unfold RemoveFromWhitelist. unfold wp, general, mbind, M_bind, wrapping, RowsAffected, query, exec.
    cbv zeta. fold kept.
    destruct (faults d) as [|[m|] fs]; cbn -[size]; [|by left|destruct fs as [|[m|] fs]; cbn -[size]];
      try (right; split; [done|]; exact Hkept);
      (destruct (Z.ltb_spec 0 (Z.of_nat (size (t_whitelist (tables d)) - size kept))); cbn -[size];
       [split; [apply (Hin _); [lia|done]|exact Hkept]|left; apply Hsame; lia]).
  - unfold gate. destruct skip_check; [wp_go; split; [done|]; by intros v [= <-]|].
    unfold IsWhitelisted. wp_go; (split; [done|]); [|done]. intros v [= <-]. by rewrite existsb_allowed.
Qed.
End refinement.

(** ** A concrete checksum-free address format that satisfies the laws *)

Lemma hex_val_lower c : hex_val (lower_char c) = hex_val c.
Proof. destruct c as [[] [] [] [] [] [] [] []]; reflexivity. Qed.

Lemma hex_char_val c v : hex_val c = Some v -> hex_char v = lower_char c /\ 0 <= v < 16.
Proof. destruct c as [[] [] [] [] [] [] [] []]; intros Hv; vm_compute in Hv; simplify_eq; (split; [reflexivity|lia]). Qed.

Lemma hex_decode_lower s : hex_decode (ToLower s) = hex_decode s.
Proof.
  revert s. fix IH 1. intros [|a [|b s]]; [done|done|]. cbn [ToLower hex_decode]. by rewrite !hex_val_lower, IH.
Qed.

Lemma hex_encode_decode s bs : hex_decode s = Some bs -> hex_encode bs = ToLower s.
Proof.
  revert s bs. fix IH 1. intros [|a [|b s]] bs; cbn [hex_decode]; [by intros [= <-]|done|].
  destruct (hex_val a) as [h|] eqn:Ha; [|done]. destruct (hex_val b) as [l|] eqn:Hb; [|done]. cbn.
  destruct (hex_decode s) as [r|] eqn:Hs; [|done]. intros [= <-].
  destruct (hex_char_val _ _ Ha) as [Hca ?], (hex_char_val _ _ Hb) as [Hcb ?]. cbn [hex_encode ToLower].
  rewrite Z.div_add_l, Z.div_small, Z.add_0_r by lia. rewrite (Z.add_comm (h * 16)), Z.mod_add, Z.mod_small by lia.
  by rewrite Hca, Hcb, (IH s r Hs).
Qed.

Lemma example_normalize a :
  ValidateEVMAddress a = true -> @NormalizeAddress example_geth a = ToLower a.
Proof.
  unfold ValidateEVMAddress. intros [[Hp _]%andb_true_iff Hh]%andb_true_iff.
  unfold NormalizeAddress. cbn [HexToAddress Address_Hex example_geth]. unfold TrimPrefix. rewrite Hp.
  change (String.length "0x") with 2%nat. destruct (hex_decode (skip 2 a)) as [bs|] eqn:Hd; [|done]. change (default [] (Some bs)) with bs.
  apply hex_encode_decode in Hd. rewrite Hd.
  destruct a as [|x [|y a]]; try done; [cbn in Hp; by rewrite andb_false_r in Hp|]. cbn in Hp |- *.
  apply andb_true_iff in Hp as [<-%bool_decide_eq_true_1 Hp]. by apply andb_true_iff in Hp as [<-%bool_decide_eq_true_1 _].
Qed.

#[local] Instance example_address_laws : @AddressLaws example_geth.
Proof.
  split.
  - intros a Ha. rewrite (example_normalize a Ha).
    clear. induction a as [|c a IH]; [done|]. cbn. rewrite IH. f_equal. destruct c as [[] [] [] [] [] [] [] []]; reflexivity.
  - intros a b Ha Hb Hab. by rewrite !example_normalize.
Qed.

Definition ex_address : string := "0x00000000000000000000000000000000000000Aa".

Lemma whitelist_refines_set_witness :
  let d := mkDB (mkUserTables [] ∅) [] in
  let d1 := (@Add example_geth 5 ex_address "first" d).2 in
  allowed (tables d1) = {[ToLower ex_address]} ∪ allowed (tables d) /\
  (gate false "0x00000000000000000000000000000000000000aA" d1).1 = Ok true.
Proof.
  cbv zeta. split; [|vm_compute; reflexivity].
  destruct (@whitelist_refines_set example_geth example_address_laws false 5 ex_address "first" ex_address
              (mkDB (mkUserTables [] ∅) [])) as (H & _ & _).
  destruct (@Add example_geth 5 ex_address "first" (mkDB (mkUserTables [] ∅) [])) as [r d'] eqn:Hrun.
  apply (wp_run _ _ _ r d') in H; [|exact Hrun].
  assert (r = Ok tt) as -> by (revert Hrun; vm_compute; congruence).
  exact (proj2 H).
Defined.
