(* ===== verification/Login.v ===== *)
(** * Sign-in with Ethereum and JWT sessions: pkg/auth/service/login.go, pkg/auth/jwt

    The login flow (verify the signed message, consume its nonce, look the
    user up, mint a token), the issuer and its published key set, the
    validator with its key cache, and the bearer-token check of the read
    endpoints.  The EIP-4361 library, the JWT library and RSA are parameters. *)

From S2P Require Import Prelude AppErrors Effects GoStd GoText EthClient AuthMessages NonceStore UserStore.
From Stdlib Require Import Ascii String.
Local Open Scope Z_scope.
Local Abbreviation length := Datatypes.length.

(** ** Tokens *)

(** A decoded JSON claim. *)
Inductive claim :=
| ClaimString (s : string)
| ClaimNumber (n : Z)
| ClaimArray (l : list claim)
| ClaimOther.

Abbreviation MapClaims := (gmap string claim).

Definition EVMAddressClaim : string := "evm_address".
Definition CantonPartyClaim : string := "canton_party_id".

(** Claims with its RegisteredClaims; the dates are Unix seconds. *)
Record Claims := mkClaims {
  c_EVMAddress : string;
  c_CantonPartyID : string;
  c_Subject : string;
  c_Issuer : string;
  c_Audience : list string;
  c_IssuedAt : Z;
  c_ExpiresAt : Z;
  c_ID : string;
}.

(** The JSON object of the claims, as the struct tags name them. *)
Definition claims_json (c : Claims) : MapClaims :=
  <[EVMAddressClaim := ClaimString (c_EVMAddress c)]>
  (<[CantonPartyClaim := ClaimString (c_CantonPartyID c)]>
  (<["sub"%string := ClaimString (c_Subject c)]>
  (<["iss"%string := ClaimString (c_Issuer c)]>
  (<["aud"%string := ClaimArray (ClaimString <$> c_Audience c)]>
  (<["iat"%string := ClaimNumber (c_IssuedAt c)]>
  (<["exp"%string := ClaimNumber (c_ExpiresAt c)]>
  {["jti"%string := ClaimString (c_ID c)]})))))).

Record RSAPublicKey := mkRSAPublicKey { rsa_N : Z; rsa_E : Z }.

(** A token as gojwt.Parse hands it to the key function. *)
Record ParsedToken := mkParsedToken {
  p_alg_is_RSA : bool;
  p_alg : string;
  p_kid : option string;
  p_claims : MapClaims;
  p_raw : string;
}.

(** golang-jwt: signing, splitting a text into its parts, and the check of
    the signature and of the time claims at an instant. *)
Class JWTLib := {
  RSAPrivateKey : Type;
  Public : RSAPrivateKey -> RSAPublicKey;
  SignedString : string -> Claims -> RSAPrivateKey -> result string;
  jwt_split : string -> result ParsedToken;
  jwt_verify : ParsedToken -> RSAPublicKey -> Z -> result unit;
}.

(** What golang-jwt documents: a signed token splits into its header and
    claims, and verifies under the public key before it expires. *)
Class JWTLaws `{!JWTLib} : Prop := {
  split_signed kid c key s : SignedString kid c key = Ok s ->
    exists p, jwt_split s = Ok p /\ p_alg_is_RSA p = true /\ p_kid p = Some kid /\ p_claims p = claims_json c;
  verify_signed kid c key s p now : SignedString kid c key = Ok s -> jwt_split s = Ok p ->
    now < c_ExpiresAt c * Second -> jwt_verify p (Public key) now = Ok tt;
  signed_no_space kid c key s : SignedString kid c key = Ok s -> no_space s;
}.

Record JWK := mkJWK { k_Kid : string; k_Kty : string; k_Alg : string; k_Use : string; k_N : string; k_E : string }.
Abbreviation JWKS := (list JWK).

Section jwt.
Context `{!JWTLib}.

(** ** issuer.go *)

Record Issuer := mkIssuer { i_key : RSAPrivateKey; i_kid : string; i_issuer : string; i_audience : string; i_ttl : Z }.

(** time.Time as Unix seconds. *)
Definition unix_seconds (t : Z) : Z := t / Second.

(** Issue; [jti] is what siwe.GenerateNonce returns. *)
Definition Issuer_claims (i : Issuer) (now : Z) (jti evmAddress cantonPartyID : string) : Claims :=
  mkClaims evmAddress cantonPartyID cantonPartyID (i_issuer i) [i_audience i]
    (unix_seconds now) (unix_seconds (now + i_ttl i)) jti.

Definition Issuer_Issue (i : Issuer) (now : Z) (jti evmAddress cantonPartyID : string) : result (string * Z) :=
  match SignedString (i_kid i) (Issuer_claims i now jti evmAddress cantonPartyID) (i_key i) with
  | Ok signed => Ok (signed, now + i_ttl i)
  | Err e => Err (ErrWrap "sign token: " e "")
  end.

(** ** jwks.go *)

Definition marshalJWKS (kid : string) (pub : RSAPublicKey) : JWKS :=
  [mkJWK kid "RSA" "RS256" "sig" (RawURL_Encode (big_Bytes (rsa_N pub))) (RawURL_Encode (big_Bytes (rsa_E pub)))].

Definition b64_error : error := ErrNew "illegal base64 data".

Definition parseRSAPublicKey (nStr eStr : string) : result RSAPublicKey :=
  match RawURL_Decode nStr with
  | None => Err (ErrWrap "decode modulus: " b64_error "")
  | Some nBytes =>
      match RawURL_Decode eStr with
      | None => Err (ErrWrap "decode exponent: " b64_error "")
      | Some eBytes => Ok (mkRSAPublicKey (SetBytes nBytes) (int64 (SetBytes eBytes)))
      end
  end.

Definition JWKS_of (i : Issuer) : JWKS := marshalJWKS (i_kid i) (Public (i_key i)).

(** ** validator.go *)

(** The keys are the mutable part; [fetch] is the GET of the JWKS URL. *)
Record Validator := mkValidator { v_jwksURL : string; v_issuer : string; v_keys : gmap string RSAPublicKey }.

Definition NewValidator (jwksURL issuer : string) : Validator := mkValidator jwksURL issuer ∅.
Definition NewValidatorWithKey (kid : string) (pub : RSAPublicKey) (issuer : string) : Validator :=
  mkValidator "" issuer {[kid := pub]}.

Definition IsConfigured (v : Validator) : bool :=
  negb (bool_decide (v_jwksURL v = ""%string)) || negb (bool_decide (v_keys v = ∅)).

(** The keys of a document: RSA keys that parse, the last of a kid wins. *)
Definition keys_of (set : JWKS) : gmap string RSAPublicKey :=
  foldl (fun m k =>
    if bool_decide (k_Kty k = "RSA"%string) then
      match parseRSAPublicKey (k_N k) (k_E k) with Ok pub => <[k_Kid k := pub]> m | Err _ => m end
    else m) ∅ set.

Section fetching.
Context (fetch : result JWKS).

Definition refreshKeys : M Validator unit := fun v =>
  if bool_decide (v_jwksURL v = ""%string) then (Err (ErrNew "JWKS URL not configured"), v)
  else
    match fetch with
    | Err e => (Err e, v)
    | Ok set => (Ok tt, mkValidator (v_jwksURL v) (v_issuer v) (keys_of set))
    end.

Definition getKey (kid : string) : M Validator RSAPublicKey := fun v =>
  match v_keys v !! kid with
  | Some key => (Ok key, v)
  | None =>
      match refreshKeys v with
      | (Err e, v) => (Err e, v)
      | (Ok _, v) =>
          match v_keys v !! kid with
          | Some key => (Ok key, v)
          | None => (Err (ErrNew ("key not found: " +:+ kid)), v)
          end
      end
  end.

(** The key function of gojwt.Parse. *)
Definition keyfunc (p : ParsedToken) : M Validator RSAPublicKey :=
  if negb (p_alg_is_RSA p) then fail (ErrNew ("unexpected signing method: " +:+ p_alg p))
  else match p_kid p with
       | None => fail (ErrNew "missing kid in token header")
       | Some kid => getKey kid
       end.

Definition lift_result {W A} (r : result A) : M W A := match r with Ok a => mret a | Err e => fail e end.

Definition ValidateToken (now : Z) (tokenString : string) : M Validator MapClaims :=
  p ← wrapping "parse token: "
        (p ← lift_result (jwt_split tokenString);
         key ← keyfunc p;
         _ ← lift_result (jwt_verify p key now);
         mret p);
  v ← Effects.get;
  if bool_decide (v_issuer v = ""%string) then mret (p_claims p)
  else
    match p_claims p !! "iss"%string with
    | Some (ClaimString iss) =>
        if bool_decide (iss = v_issuer v) then mret (p_claims p) else fail (ErrNew "invalid issuer")
    | _ => fail (ErrNew "invalid issuer")
    end.

(** ** middleware.go *)

Record AuthInfo := mkAuthInfo { a_EVMAddress : string; a_CantonParty : string }.

Definition hasAudience (claims : MapClaims) (want : string) : bool :=
  match claims !! "aud"%string with
  | Some (ClaimString aud) => bool_decide (aud = want)
  | Some (ClaimArray l) => existsb (fun a => match a with ClaimString s => bool_decide (s = want) | _ => false end) l
  | _ => false
  end.

(** [claims[key].(string)], the empty text when it is none. *)
Definition claim_text (claims : MapClaims) (key : string) : string :=
  match claims !! key with Some (ClaimString s) => s | _ => "" end.

Definition authenticate (now : Z) (audience header : string) : M Validator AuthInfo :=
  if (Z.of_nat (String.length header) <? 7) || negb (EqualFold (upto 7 header) "Bearer ") then
    fail (UnAuthorizedError None "bearer token required")
  else
    r ← attempt (ValidateToken now (TrimSpace (skip 7 header)));
    match r with
    | Err e => fail (UnAuthorizedError (Some e) "invalid or expired token")
    | Ok claims =>
        if negb (hasAudience claims audience) then fail (UnAuthorizedError None "token audience mismatch")
        else
          let evmAddress := claim_text claims EVMAddressClaim in
          let party := claim_text claims "sub" in
          if bool_decide (evmAddress = ""%string) || bool_decide (party = ""%string) then
            fail (UnAuthorizedError None "token missing identity claims")
          else mret (mkAuthInfo evmAddress party)
    end.
End fetching.
End jwt.

(** ** verifier.go *)

Class SIWE := {
  SiweMessage : Type;
  ParseMessage : string -> result SiweMessage;
  GetChainID : SiweMessage -> Z;
  GetURI : SiweMessage -> string;
  GetAddress : SiweMessage -> Address;
  GetNonce : SiweMessage -> string;
  (** signature, domain and time window *)
  siwe_Verify : SiweMessage -> string -> string -> Z -> result unit;
  hexutil_Decode : string -> result (list Z);
}.

Record SIWEVerifier := mkSIWEVerifier { sv_domain : string; sv_uri : string; sv_chainID : Z }.

Definition eip191SigLen : nat := 65.

Definition Verify `{!SIWE} (v : SIWEVerifier) (now : Z) (rawMessage signature : string) : result (Address * string) :=
  match ParseMessage rawMessage with
  | Err e => Err (ErrWrap "parse SIWE message: " e "")
  | Ok msg =>
      if negb (GetChainID msg =? sv_chainID v) then
        Err (ErrNew ("unexpected chain id: got " +:+ FormatInt (GetChainID msg) +:+ ", want " +:+ FormatInt (sv_chainID v)))
      else if negb (bool_decide (GetURI msg = sv_uri v)) then
        Err (ErrNew ("unexpected uri: got " +:+ quoted (GetURI msg) +:+ ", want " +:+ quoted (sv_uri v)))
      else if negb (match hexutil_Decode signature with Ok b => bool_decide (length b = eip191SigLen) | Err _ => false end) then
        Err (ErrNew "signature must be a 0x-prefixed 65-byte hex string")
      else
        match siwe_Verify msg signature (sv_domain v) now with
        | Err e => Err (ErrWrap "verify SIWE signature: " e "")
        | Ok _ => Ok (GetAddress msg, GetNonce msg)
        end
  end.

(** ** login.go *)

Record LoginResponse := mkLoginResponse { l_Token : string; l_ExpiresAt : Z }.

(** The nonce store and the users. *)
Record LoginState := mkLoginState { ls_nonces : InMemory; ls_users : UserDB }.

Definition on_nonces {A} (c : InMemory -> A * InMemory) : M LoginState A := fun s =>
  let '(a, n) := c (ls_nonces s) in (Ok a, mkLoginState n (ls_users s)).
Definition on_users {A} (c : M UserDB A) : M LoginState A :=
  zoom ls_users (fun u s => mkLoginState (ls_nonces s) u) c.

Section login.
Context `{!GoEthereum} `{!SIWE} `{!JWTLib} (verifier : SIWEVerifier) (issuer : Issuer).

(** Nonce; [fresh] is what the generator returns. *)
Definition Nonce (now : Z) (fresh address : string) : M LoginState string :=
  zoom ls_nonces (fun n s => mkLoginState n (ls_users s)) (Issue now fresh address).

(** Login; the clock is read by the verifier, by the store and by the issuer. *)
Definition Login (t_verify t_consume t_issue : Z) (jti message signature : string) : M LoginState LoginResponse :=
  match Verify verifier t_verify message signature with
  | Err e => fail (UnAuthorizedError (Some e) "invalid sign-in message or signature")
  | Ok (addr, nonce) =>
      live ← on_nonces (Consume t_consume nonce);
      if negb live then fail (UnAuthorizedError None "nonce is unknown, expired, or already used")
      else
        let evmAddress := NormalizeAddress (Address_Hex addr) in
        r ← attempt (on_users (GetUserByEVMAddress evmAddress));
        match r with
        | Err e =>
            if is_ErrUserNotFound e then fail (UnAuthorizedError None "address is not registered") else fail e
        | Ok usr =>
            if bool_decide (u_CantonPartyID usr = ""%string) then fail (UnAuthorizedError None "user has no Canton party id")
            else
              match Issuer_Issue issuer t_issue jti evmAddress (u_CantonPartyID usr) with
              | Err e => fail (GeneralError (Some e))
              | Ok (token, exp) => mret (mkLoginResponse token (unix_seconds exp))
              end
        end
  end.
End login.

(** ** Correctness of the login *)

Section login_proofs.
Context `{!GoEthereum} `{!SIWE} `{!JWTLib} (verifier : SIWEVerifier) (issuer : Issuer).

(** A sign-in that passes: the text is the message, which is for this chain and
    this uri, and its 65-byte signature is good for this domain now. *)
Definition siwe_accepted (now : Z) (text signature : string) (msg : SiweMessage) : Prop :=
  ParseMessage text = Ok msg /\ GetChainID msg = sv_chainID verifier /\ GetURI msg = sv_uri verifier /\
  (exists b, hexutil_Decode signature = Ok b /\ length b = 65%nat) /\
  siwe_Verify msg signature (sv_domain verifier) now = Ok tt.

Lemma Verify_accepts now text signature :
  match Verify verifier now text signature with
  | Ok (addr, nonce) => exists msg, siwe_accepted now text signature msg /\ addr = GetAddress msg /\ nonce = GetNonce msg
  | Err _ => forall msg, ~ siwe_accepted now text signature msg
  end.
Proof.
  unfold Verify, siwe_accepted. destruct (ParseMessage text) as [msg|]; [|by intros msg [? _]].
  destruct (Z.eqb_spec (GetChainID msg) (sv_chainID verifier)); cbn [negb]; [|intros msg' (? & ? & _); congruence].
  case_bool_decide; cbn [negb]; [|intros msg' (? & ? & ? & _); congruence].
  destruct (hexutil_Decode signature) as [b|]; cbn [negb]; [|by intros msg' (_ & _ & _ & [b [? _]] & _)].
  case_bool_decide as Hb; cbn [negb]; [|intros msg' (_ & _ & _ & [b' [[= ->] ?]] & _); by apply Hb].
  destruct (siwe_Verify msg signature (sv_domain verifier) now) as [[]|] eqn:Hv; [|intros msg' ([= ->] & _ & _ & _ & ?); congruence].
  exists msg. split_and!; eauto.
Qed.

(** The store without a nonce and without the entry of its address. *)
Definition forgotten (nonce : string) (s : InMemory) : InMemory :=
  match byNonce s !! nonce with
  | None => s
  | Some owner => mkInMemory (delete owner (byAddr s)) (delete nonce (byNonce s)) (n_ttl s) (n_max s) (nextSweep s)
  end.

Lemma Consume_forgets t nonce s : (Consume t nonce s).2 = forgotten nonce s.
Proof. unfold Consume, forgotten. by destruct (byNonce s !! nonce). Qed.

Lemma Consume_live t nonce s : well_formed s -> (Consume t nonce s).1 = true ->
  exists owner e, byNonce s !! nonce = Some owner /\ byAddr s !! owner = Some e /\ t < e_expiry e.
Proof.
  intros Hwf. unfold Consume. destruct (byNonce s !! nonce) as [owner|] eqn:Hn; [|done]. cbn.
  destruct (wf_backward _ Hwf _ _ Hn) as (e & He & _). rewrite He. cbn. unfold live. intros Hl%Z.ltb_lt. by exists owner, e.
Qed.

(** C17: A token is only ever handed out for a message whose signature, chain,
    uri and domain were verified at the time of the call, whose nonce the store
    held unexpired and forgets in this login, and whose signer is a registered
    user with a Canton party: the token is signed with the issuer's key over
    claims that name exactly that signer's address and that user's party, and
    expires after the configured time.  A message that does not pass the checks
    leaves the nonces as they are; every other outcome, success or not, removes
    the nonce, with the entry of the address it was issued to, and nothing else.
    The users are never changed.  The two maps of the store index each other;
    what the Sign-In library checks itself is the parameter siwe_Verify. *)
Theorem Login_correct t1 t2 t3 jti message signature st :
  well_formed (ls_nonces st) ->
  wp (Login verifier issuer t1 t2 t3 jti message signature) (fun r st' =>
    tables (ls_users st') = tables (ls_users st) /\
    ((forall msg, ~ siwe_accepted t1 message signature msg) /\ is_ok r = false /\ ls_nonces st' = ls_nonces st \/
     exists msg, siwe_accepted t1 message signature msg /\
       ls_nonces st' = forgotten (GetNonce msg) (ls_nonces st) /\
       forall resp, r = Ok resp -> exists owner e dao token,
         byNonce (ls_nonces st) !! GetNonce msg = Some owner /\ byAddr (ls_nonces st) !! owner = Some e /\ t2 < e_expiry e /\
         dao ∈ t_users (tables (ls_users st)) /\ d_EVMAddress dao = NormalizeAddress (Address_Hex (GetAddress msg)) /\
         u_CantonPartyID (toUser dao) <> ""%string /\
         SignedString (i_kid issuer)
           (mkClaims (d_EVMAddress dao) (u_CantonPartyID (toUser dao)) (u_CantonPartyID (toUser dao)) (i_issuer issuer)
              [i_audience issuer] (t3 / Second) ((t3 + i_ttl issuer) / Second) jti) (i_key issuer) = Ok token /\
         resp = mkLoginResponse token ((t3 + i_ttl issuer) / Second))) st.
Proof.
  intros Hwf. unfold Login. pose proof (Verify_accepts t1 message signature) as Hacc.
  destruct (Verify verifier t1 message signature) as [[addr nonce]|e].
  2:{ wp_go. split; [done|]. by left. }
  destruct Hacc as (msg & Hmsg & -> & ->).
  apply wp_bind. unfold wp, on_nonces.
  pose proof (Consume_forgets t2 (GetNonce msg) (ls_nonces st)) as Hforget.
  pose proof (Consume_live t2 (GetNonce msg) (ls_nonces st) Hwf) as Hlive.
  destruct (Consume t2 (GetNonce msg) (ls_nonces st)) as [b n]. cbn [fst snd] in *. subst n.
  destruct b; cbn [negb]; [|wp_go; split; [done|]; right; by exists msg].
  destruct (Hlive eq_refl) as (owner & e & Hn & Ho & He). clear Hlive.
  apply wp_bind, wp_attempt. unfold on_users. apply wp_zoom. cbn [ls_users ls_nonces].
  apply wp_getUserBy; cbn [ls_nonces ls_users tables].
  - intros dao fs [Hin Hcol]%find_column. cbn in Hcol. apply bool_decide_eq_true_1 in Hcol.
    case_bool_decide as Hp; [wp_go; split; [done|]; right; by exists msg|].
    unfold Issuer_Issue. destruct (SignedString _ _ _) as [token|err] eqn:Hi; wp_go; (split; [done|]); right; exists msg; [|done].
    split; [done|]. split; [done|]. intros resp [= <-]. exists owner, e, dao, token. rewrite Hcol. done.
  - intros fs _. unfold is_ErrUserNotFound. cbn. wp_go; (split; [done|]); right; by exists msg.
  - intros m fs. unfold is_ErrUserNotFound. cbn. wp_go; (split; [done|]); right; by exists msg.
Qed.

(** The nonce of a message is not tied to its signer: whoever signs a
    valid message that carries a nonce the store issued to another address
    (which GET /auth/nonce returns to everyone) uses that nonce up, registered
    or not, and the address it was issued to can no longer log in with it. *)
Theorem foreign_login_burns_nonce t1 t2 t3 jti message signature st addr nonce owner t :
  Verify verifier t1 message signature = Ok (addr, nonce) ->
  byNonce (ls_nonces st) !! nonce = Some owner ->
  let st' := (Login verifier issuer t1 t2 t3 jti message signature st).2 in
  (Consume t nonce (ls_nonces st')).1 = false /\ byAddr (ls_nonces st') !! owner = None.
Proof.
  intros Hv Ho. cbv zeta.
  assert (ls_nonces (Login verifier issuer t1 t2 t3 jti message signature st).2 = (Consume t2 nonce (ls_nonces st)).2) as ->.
  { unfold Login. rewrite Hv. unfold mbind, M_bind, on_nonces. destruct (Consume t2 nonce (ls_nonces st)) as [[] n]; [|done].
    cbn [negb]. unfold attempt, on_users, zoom. destruct (GetUserByEVMAddress _ _) as [[u|e] d]; cbn -[String.append].
    - case_bool_decide; [done|]. by destruct (Issuer_Issue _ _ _ _ _) as [[]|].
    - by destruct (is_ErrUserNotFound e). }
  split.
  - unfold Consume at 1. by rewrite Consume_removes.
  - unfold Consume. rewrite Ho. cbn. apply lookup_delete_eq.
Qed.
End login_proofs.

(** ** Sessions *)

Section session_proofs.
Context `{!JWTLib} `{!JWTLaws} (issuer : Issuer).

Lemma big_Bytes_bytes n : Forall (fun b => 0 <= b < 256) (big_Bytes n).
Proof.
  unfold big_Bytes. generalize (S (Z.to_nat (Z.log2 (Z.abs n)))). intros fuel. generalize (Z.abs n). intros k.
  assert (forall acc k, Forall (fun b => 0 <= b < 256) acc -> Forall (fun b => 0 <= b < 256) (put_bytes fuel k acc)) as Hput;
    [|by apply Hput].
  clear. induction fuel as [|fuel IH]; intros acc k Hacc; cbn; [done|]. case_match; [done|].
  apply IH. constructor; [apply Z.mod_pos_bound; lia|done].
Qed.

Lemma keys_of_published :
  0 <= rsa_N (Public (i_key issuer)) -> 0 <= rsa_E (Public (i_key issuer)) <= max_int64 ->
  keys_of (JWKS_of issuer) = {[i_kid issuer := Public (i_key issuer)]}.
Proof.
  intros HN HE. unfold JWKS_of, marshalJWKS, keys_of. cbn [foldl k_Kty k_N k_E k_Kid].
  rewrite bool_decide_eq_true_2 by done. unfold parseRSAPublicKey.
  rewrite !RawURL_roundtrip by apply big_Bytes_bytes. rewrite !SetBytes_big_Bytes by lia.
  rewrite int64_id by (unfold is_int64, min_int64; lia). by destruct (Public (i_key issuer)).
Qed.

(** A validator that knows the issuer's key, or can fetch the issuer's
    published key set (whose modulus and exponent are positive, the exponent
    an int). *)
Definition trusts (v : Validator) (fetch : result JWKS) : Prop :=
  (v_issuer v = ""%string \/ v_issuer v = i_issuer issuer) /\
  (v_keys v !! i_kid issuer = Some (Public (i_key issuer)) \/
   v_keys v !! i_kid issuer = None /\ v_jwksURL v <> ""%string /\ fetch = Ok (JWKS_of issuer) /\
   0 <= rsa_N (Public (i_key issuer)) /\ 0 <= rsa_E (Public (i_key issuer)) <= max_int64).

Lemma getKey_trusted v fetch : trusts v fetch ->
  exists v', getKey fetch (i_kid issuer) v = (Ok (Public (i_key issuer)), v') /\ v_issuer v' = v_issuer v.
Proof.
  intros [_ [Hk|(Hk & Hu & -> & HN & HE)]]; unfold getKey; rewrite Hk; [eauto|].
  unfold refreshKeys. rewrite bool_decide_eq_false_2 by done. cbn [v_keys].
  rewrite keys_of_published, lookup_singleton_eq by done. eauto.
Qed.

Lemma ValidateToken_issued v fetch now t jti addr party token exp :
  trusts v fetch -> Issuer_Issue issuer t jti addr party = Ok (token, exp) ->
  now < unix_seconds exp * Second ->
  exists v', ValidateToken fetch now token v = (Ok (claims_json (Issuer_claims issuer t jti addr party)), v').
Proof.
  intros Htr Hi Hnow. destruct (getKey_trusted v fetch Htr) as (v' & Hk & Hiss).
  unfold Issuer_Issue in Hi. destruct (SignedString _ _ _) as [s|] eqn:Hs; [|done]. simplify_eq.
  destruct (split_signed _ _ _ _ Hs) as (p & Hp & Halg & Hkid & Hcl).
  unfold ValidateToken, wrapping, mbind, M_bind. rewrite Hp. cbn [lift_result]. unfold mret, M_ret, keyfunc.
  rewrite Halg, Hkid. cbn [negb]. rewrite Hk, (verify_signed _ _ _ _ _ now Hs Hp Hnow). cbn [lift_result wrap].
  unfold mret, M_ret, Effects.get. cbn [wrap]. rewrite Hiss, Hcl. destruct Htr as [[Hv|Hv] _]; rewrite Hv.
  - rewrite bool_decide_eq_true_2 by done. eauto.
  - case_bool_decide; [eauto|].
    assert (claims_json (Issuer_claims issuer t jti addr party) !! "iss"%string = Some (ClaimString (i_issuer issuer))) as ->
      by reflexivity.
    rewrite bool_decide_eq_true_2 by done. eauto.
Qed.

(** A token the issuer minted for an address and a party is accepted,
    until it expires, by every service that trusts the issuer's key (because
    it was configured with it or by fetching the published key set), and the
    request is then authenticated as exactly that address and that party. *)
Theorem issued_token_authenticates v fetch now t jti addr party token exp :
  trusts v fetch -> Issuer_Issue issuer t jti addr party = Ok (token, exp) ->
  now < unix_seconds exp * Second -> addr <> ""%string -> party <> ""%string ->
  (authenticate fetch now (i_audience issuer) ("Bearer " +:+ token) v).1 = Ok (mkAuthInfo addr party).
Proof.
  intros Htr Hi Hnow Ha Hp. destruct (ValidateToken_issued _ _ _ _ _ _ _ _ _ Htr Hi Hnow) as [v' Hv].
  assert (no_space token) as Hns.
  { unfold Issuer_Issue in Hi. destruct (SignedString _ _ _) as [s|] eqn:Hs; [|done]. simplify_eq. by eapply signed_no_space. }
  unfold authenticate.
  assert (upto 7 ("Bearer " +:+ token) = "Bearer "%string) as -> by reflexivity.
  assert (skip 7 ("Bearer " +:+ token) = token) as -> by reflexivity.
  rewrite (proj2 (Z.ltb_ge _ _)) by (rewrite length_append; cbn; lia). cbn [orb].
  assert (EqualFold "Bearer " "Bearer " = true) as -> by reflexivity. cbn [negb].
  rewrite TrimSpace_none by done. unfold mbind, M_bind, attempt. rewrite Hv.
  assert (hasAudience (claims_json (Issuer_claims issuer t jti addr party)) (i_audience issuer) = true) as ->.
  { unfold hasAudience.
    assert (claims_json (Issuer_claims issuer t jti addr party) !! "aud"%string = Some (ClaimArray [ClaimString (i_audience issuer)]))
      as -> by reflexivity.
    cbn [existsb]. by rewrite bool_decide_eq_true_2. }
  cbn [negb].
  assert (claim_text (claims_json (Issuer_claims issuer t jti addr party)) EVMAddressClaim = addr) as -> by reflexivity.
  assert (claim_text (claims_json (Issuer_claims issuer t jti addr party)) "sub" = party) as -> by reflexivity.
  by rewrite !bool_decide_eq_false_2.
Qed.
End session_proofs.

(** ** A JWT library whose tokens are the numbers of their contents *)

Definition claims_tuple (c : Claims) :=
  (c_EVMAddress c, c_CantonPartyID c, c_Subject c, c_Issuer c, c_Audience c, c_IssuedAt c, c_ExpiresAt c, c_ID c).
Definition claims_untuple (t : string * string * string * string * list string * Z * Z * string) : Claims :=
  let '(a, p, s, i, au, ia, ex, id) := t in mkClaims a p s i au ia ex id.

Definition ex_token (kid : string) (c : Claims) : string := FormatUint (Z.pos (encode (kid, claims_tuple c))).
Definition ex_untoken (s : string) : option (string * Claims) :=
  n ← parse_digits s;
  match n with
  | Z.pos q => '(kid, t) ← decode (A := string * (string * string * string * string * list string * Z * Z * string)) q;
               Some (kid, claims_untuple t)
  | _ => None
  end.

Definition example_jwt : JWTLib := {|
  RSAPrivateKey := RSAPublicKey;
  Public k := k;
  SignedString kid c _ := Ok (ex_token kid c);
  jwt_split s :=
    match ex_untoken s with
    | Some (kid, c) => Ok (mkParsedToken true "RS256" (Some kid) (claims_json c) s)
    | None => Err (ErrNew "malformed")
    end;
  jwt_verify p _ now :=
    match p_claims p !! "exp"%string with
    | Some (ClaimNumber e) => if now <? e * Second then Ok tt else Err (ErrNew "token is expired")
    | _ => Err (ErrNew "no expiry")
    end;
|}.

Lemma ex_untoken_token kid c : ex_untoken (ex_token kid c) = Some (kid, c).
Proof.
  unfold ex_untoken, ex_token. rewrite parse_digits_FormatUint by lia. cbn -[decode encode].
  rewrite decode_encode. by destruct c.
Qed.

#[local] Instance example_jwt_laws : @JWTLaws example_jwt.
Proof.
  split.
  - intros kid c key s [= <-]. cbn -[ex_token ex_untoken]. rewrite ex_untoken_token. eauto 10.
  - intros kid c key s p now [= <-]. cbn -[ex_token ex_untoken claims_json]. rewrite ex_untoken_token. intros [= <-] Hnow.
    cbn -[claims_json]. assert (claims_json c !! "exp"%string = Some (ClaimNumber (c_ExpiresAt c))) as -> by reflexivity.
    by rewrite (proj2 (Z.ltb_lt _ _)).
  - intros kid c key s [= <-]. apply no_space_FormatUint.
Qed.

Definition ex_issuer : @Issuer example_jwt :=
  @mkIssuer example_jwt (mkRSAPublicKey 3233 65537) "k1" "canton-middleware" "api" (30 * Minute).
Definition ex_validator : Validator := NewValidator "https://auth/jwks.json" "canton-middleware".

Lemma issued_token_authenticates_witness :
  let t := 1760000000 * Second in
  exists token exp,
    @Issuer_Issue example_jwt ex_issuer t "j" "0xAb" "alice::12" = Ok (token, exp) /\
    (@authenticate example_jwt (Ok (@JWKS_of example_jwt ex_issuer)) (t + Minute) "api" ("Bearer " +:+ token) ex_validator).1 =
    Ok (mkAuthInfo "0xAb" "alice::12").
Proof.
  cbv zeta. eexists _, _. split; [reflexivity|].
  refine (@issued_token_authenticates example_jwt example_jwt_laws ex_issuer ex_validator _ _ (1760000000 * Second) "j"
           "0xAb" "alice::12" _ _ _ eq_refl _ _ _); [|vm_compute; reflexivity|discriminate|discriminate].
  split; [right; reflexivity|]. right.
  split; [apply lookup_empty|]. split; [discriminate|]. split; [reflexivity|]. vm_compute. split; [discriminate|split; discriminate].
Defined.

(** A SIWE library in which the message is "address nonce" and every signature is good. *)
Definition example_siwe : SIWE := {|
  SiweMessage := string * string;
  ParseMessage s := match Cut s " " with Some p => Ok p | None => Err (ErrNew "bad message") end;
  GetChainID _ := 1;
  GetURI _ := "https://app"%string;
  GetAddress m := default [] (hex_decode m.1);
  GetNonce m := m.2;
  siwe_Verify _ _ _ _ := Ok tt;
  hexutil_Decode _ := Ok (replicate 65 0);
|}.

Definition ex_verifier : SIWEVerifier := mkSIWEVerifier "app" "https://app" 1.
Definition ex_login_state : LoginState :=
  mkLoginState (NonceStore.Issue 10 "n1" "0xaa" (NewInMemory (5 * Minute))).2
    (mkDB (mkUserTables [toUserDao (UserStore.New 7 "0xaa" "alice::12" "0xf2" "cid" "enc")] ∅) []).

(** A library whose token is the party, to run the login. *)
Definition party_jwt : JWTLib := {|
  RSAPrivateKey := unit;
  Public _ := mkRSAPublicKey 3233 65537;
  SignedString _ c _ := Ok (c_CantonPartyID c);
  jwt_split _ := Err (ErrNew "malformed");
  jwt_verify _ _ _ := Ok tt;
|}.
Definition party_issuer : @Issuer party_jwt := @mkIssuer party_jwt tt "k1" "canton-middleware" "api" (30 * Minute).

Lemma foreign_login_burns_nonce_witness :
  @Verify example_siwe ex_verifier 20 "bb n1" "sig" = Ok ([187], "n1"%string) /\
  byNonce (ls_nonces ex_login_state) !! "n1"%string = Some "0xaa"%string /\
  (Consume 30 "n1" (ls_nonces ex_login_state)).1 = true /\
  let st' := (@Login example_geth example_siwe party_jwt ex_verifier party_issuer 20 20 20 "j" "bb n1" "sig" ex_login_state).2 in
  (Consume 30 "n1" (ls_nonces st')).1 = false /\ byAddr (ls_nonces st') !! "0xaa"%string = None.
Proof.
  split; [reflexivity|]. split; [reflexivity|]. split; [vm_compute; reflexivity|].
  exact (@foreign_login_burns_nonce example_geth example_siwe party_jwt ex_verifier party_issuer 20 20 20 "j" "bb n1" "sig"
           ex_login_state [187] "n1" "0xaa" 30 eq_refl eq_refl).
Defined.

Lemma ex_login_wf : well_formed (ls_nonces ex_login_state).
Proof. apply well_formed_Issue; [apply well_formed_new|apply lookup_empty]. Qed.

(** The registered signer logs in, and the nonce is gone. *)
Lemma Login_correct_witness :
  let run := @Login example_geth example_siwe party_jwt ex_verifier party_issuer 20 20 20 "j" "aa n1" "sig" ex_login_state in
  run.1 = Ok (mkLoginResponse "alice::12" 1800) /\
  exists owner e, byNonce (ls_nonces ex_login_state) !! "n1"%string = Some owner /\
    byAddr (ls_nonces ex_login_state) !! owner = Some e /\ 20 < e_expiry e /\ ls_nonces run.2 = forgotten "n1" (ls_nonces ex_login_state).
Proof.
  cbv zeta.
  pose proof (@Login_correct example_geth example_siwe party_jwt ex_verifier party_issuer 20 20 20 "j" "aa n1" "sig" ex_login_state ex_login_wf) as Hl.
  assert ((@Login example_geth example_siwe party_jwt ex_verifier party_issuer 20 20 20 "j" "aa n1" "sig" ex_login_state).1
    = Ok (mkLoginResponse "alice::12" 1800)) as Hok by (vm_compute; reflexivity).
  split; [exact Hok|]. unfold wp in Hl. destruct (Login _ _ _ _ _ _ _ _ _) as [r st']. cbn [fst snd] in *. subst r.
  destruct Hl as [_ [(_ & Hf & _)|(msg & (Hp & _) & Hn & Hr)]]; [discriminate|]. injection Hp as <-.
  destruct (Hr _ eq_refl) as (owner & e & _ & _ & Ho & Ha & He & _). by exists owner, e.
Defined.

Example Login_ex :
  (@Login example_geth example_siwe party_jwt ex_verifier party_issuer 20 20 20 "j" "aa n1" "sig" ex_login_state).1 =
    Ok (mkLoginResponse "alice::12" 1800) /\
  is_ok (@Login example_geth example_siwe party_jwt ex_verifier party_issuer 20 20 20 "j" "bb n1" "sig" ex_login_state).1 = false.
Proof. split; vm_compute; reflexivity. Qed.
