(* ===== verification/RelayerStore.v ===== *)
(** * Relayer store: pkg/relayer/types.go and pkg/relayer/store

    The transfers and chain_state tables as finite maps keyed by their primary
    keys, each method of PGStore as the statements it executes, and the
    [BridgeStore] interface the engine is written against, with the laws that
    PGStore discharges. *)

From S2P Require Import Prelude AppErrors Effects GoStd.

(** ** Types (pkg/relayer/types.go) *)

Definition ChainCanton : string := "canton".
Definition ChainEthereum : string := "ethereum".
Definition OffsetBegin : string := "BEGIN".

Inductive TransferStatus :=
| TransferStatusPending
| TransferStatusCompleted
| TransferStatusFailed.

Inductive TransferDirection :=
| DirectionCantonToEthereum
| DirectionEthereumToCanton.

#[global] Instance TransferStatus_eq_dec : EqDecision TransferStatus.
Proof. solve_decision. Defined.
#[global] Instance TransferDirection_eq_dec : EqDecision TransferDirection.
Proof. solve_decision. Defined.

Record Transfer := mkTransfer {
  t_ID : string;
  t_Direction : TransferDirection;
  t_Status : TransferStatus;
  t_SourceChain : string;
  t_DestinationChain : string;
  t_SourceTxHash : string;
  t_DestinationTxHash : option string;
  t_TokenAddress : string;
  t_Amount : string;
  t_Sender : string;
  t_Recipient : string;
  t_Nonce : Z;
  t_SourceBlockNumber : Z;
  t_RetryCount : Z;
  t_CreatedAt : Z;
  t_UpdatedAt : Z;
  t_CompletedAt : option Z;
  t_ErrorMessage : option string;
}.

Record ChainState := mkChainState {
  cs_ChainID : string;
  cs_LastBlock : Z;
  cs_Offset : string;
  cs_UpdatedAt : Z;
}.

(** A bridge event flowing from a source to a destination. *)
Record Event := mkEvent {
  ev_ID : string;
  ev_TransactionID : string;
  ev_SourceChain : string;
  ev_DestinationChain : string;
  ev_SourceTxHash : string;
  ev_SourceContractID : string;
  ev_TokenAddress : string;
  ev_Amount : string;
  ev_Sender : string;
  ev_Recipient : string;
  ev_Nonce : Z;
  ev_SourceBlockNumber : Z;
  ev_Checkpoint : bool;
}.

(** The row CreateTransfer writes: [toTransferDao] leaves CreatedAt and
    UpdatedAt unset, so both take the column default [current_timestamp]. *)
Definition toTransferDao (now : Z) (t : Transfer) : Transfer :=
  mkTransfer (t_ID t) (t_Direction t) (t_Status t) (t_SourceChain t) (t_DestinationChain t)
    (t_SourceTxHash t) (t_DestinationTxHash t) (t_TokenAddress t) (t_Amount t) (t_Sender t)
    (t_Recipient t) (t_Nonce t) (t_SourceBlockNumber t) (t_RetryCount t) now now
    (t_CompletedAt t) (t_ErrorMessage t).

(** The columns UpdateTransferStatus sets. *)
Definition set_status (now : Z) (st : TransferStatus) (hash msg : option string) (t : Transfer) : Transfer :=
  mkTransfer (t_ID t) (t_Direction t) st (t_SourceChain t) (t_DestinationChain t)
    (t_SourceTxHash t) hash (t_TokenAddress t) (t_Amount t) (t_Sender t)
    (t_Recipient t) (t_Nonce t) (t_SourceBlockNumber t) (t_RetryCount t) (t_CreatedAt t) now
    (if decide (st = TransferStatusCompleted) then Some now else t_CompletedAt t) msg.

(** The columns IncrementRetryCount sets. *)
Definition incr_retry (now : Z) (t : Transfer) : Transfer :=
  mkTransfer (t_ID t) (t_Direction t) (t_Status t) (t_SourceChain t) (t_DestinationChain t)
    (t_SourceTxHash t) (t_DestinationTxHash t) (t_TokenAddress t) (t_Amount t) (t_Sender t)
    (t_Recipient t) (t_Nonce t) (t_SourceBlockNumber t) (t_RetryCount t + 1) (t_CreatedAt t) now
    (t_CompletedAt t) (t_ErrorMessage t).

(** ** The tables *)

Record RelayerTables := mkRelayerTables {
  transfers : gmap string Transfer;
  chain_state : gmap string ChainState;
}.

Abbreviation RelayerDB := (DB RelayerTables).

Definition put_transfers (m : gmap string Transfer) (t : RelayerTables) : RelayerTables :=
  mkRelayerTables m (chain_state t).
Definition put_chain_state (m : gmap string ChainState) (t : RelayerTables) : RelayerTables :=
  mkRelayerTables (transfers t) m.

(** ORDER BY created_at ASC. *)
Definition created_before (a b : Transfer) : Prop := t_CreatedAt a <= t_CreatedAt b.
#[global] Instance created_before_dec a b : Decision (created_before a b).
Proof. unfold created_before. apply _. Defined.

(** The rows of the table that satisfy a condition, oldest first. *)
Definition select_transfers (P : Transfer -> Prop) `{!forall t, Decision (P t)}
    (m : gmap string Transfer) : list Transfer :=
  merge_sort created_before (filter P (snd <$> map_to_list m)).

(** ** PGStore *)

(** INSERT ... ON CONFLICT (id) DO NOTHING, returning the rows affected. *)
Definition CreateTransfer (now : Z) (t : Transfer) : M RelayerDB bool :=
  n ← wrapping "create transfer: " (exec (fun tb =>
        match transfers tb !! t_ID t with
        | Some _ => (0, tb)
        | None => (1, put_transfers (<[t_ID t := toTransferDao now t]> (transfers tb)) tb)
        end));
  n ← wrapping "create transfer rows affected: " (RowsAffected n);
  mret (0 <? n).

Definition GetTransfer (id : string) : M RelayerDB (option Transfer) :=
  wrapping "get transfer: " (query (fun tb => transfers tb !! id)).

(** UPDATE ... WHERE id = ?, an error when no row matched. *)
Definition update_by_id (pre id : string) (f : Transfer -> Transfer) : M RelayerDB unit :=
  n ← wrapping (pre +:+ ": ") (exec (fun tb =>
        match transfers tb !! id with
        | Some t => (1, put_transfers (<[id := f t]> (transfers tb)) tb)
        | None => (0, tb)
        end));
  n ← wrapping (pre +:+ " rows affected: ") (RowsAffected n);
  if n =? 0 then fail (ErrNew ("transfer " +:+ id +:+ " not found")) else mret tt.

Definition UpdateTransferStatus (now : Z) (id : string) (status : TransferStatus)
    (destTxHash errMsg : option string) : M RelayerDB unit :=
  update_by_id "update transfer status" id (set_status now status destTxHash errMsg).

Definition IncrementRetryCount (now : Z) (id : string) : M RelayerDB unit :=
  update_by_id "increment retry count" id (incr_retry now).

Definition GetPendingTransfers (dir : TransferDirection) : M RelayerDB (list Transfer) :=
  wrapping "get pending transfers: " (query (fun tb =>
    select_transfers (fun t => t_Direction t = dir /\ t_Status t = TransferStatusPending)
      (transfers tb))).

(** ORDER BY created_at DESC LIMIT n *)
Definition ListTransfers (limit : Z) : M RelayerDB (list Transfer) :=
  wrapping "list transfers: " (query (fun tb =>
    sql_limit limit (reverse (select_transfers (fun _ => True) (transfers tb))))).

Definition GetChainState (chainID : string) : M RelayerDB (option ChainState) :=
  wrapping "get chain state: " (query (fun tb => chain_state tb !! chainID)).

(** INSERT ... ON CONFLICT (chain_id) DO UPDATE of every other column. *)
Definition SetChainState (now : Z) (chainID : string) (blockNumber : Z) (offset : string) : M RelayerDB unit :=
  wrapping "set chain state: " (exec (fun tb =>
    (tt, put_chain_state (<[chainID := mkChainState chainID blockNumber offset now]> (chain_state tb)) tb))).

(** ** The interface the engine consumes *)

(** BridgeStore of pkg/relayer/engine: the operations, and the two tables as
    a client may observe them. *)
Class BridgeStore (S : Type) := {
  bs_transfers : S -> gmap string Transfer;
  bs_chains : S -> gmap string ChainState;
  bs_create : Z -> Transfer -> M S bool;
  bs_update : Z -> string -> TransferStatus -> option string -> option string -> M S unit;
  bs_retry : Z -> string -> M S unit;
  bs_pending : TransferDirection -> M S (list Transfer);
  bs_get_chain : string -> M S (option ChainState);
  bs_set_chain : Z -> string -> Z -> string -> M S unit;
}.

(** The primary key of a row is its id column. *)
Definition keys_ok (m : gmap string Transfer) : Prop :=
  forall id t, m !! id = Some t -> t_ID t = id.

(** What a store promises.  Each operation may fail; a failing write may or
    may not have taken effect, but has no other effect. *)
Class BridgeStoreLaws (S : Type) `{BridgeStore S} : Prop := {
  law_create : forall now t s, wp (bs_create now t) (fun r s' =>
    bs_chains s' = bs_chains s /\
    match r with
    | Ok true => bs_transfers s !! t_ID t = None /\
        bs_transfers s' = <[t_ID t := toTransferDao now t]> (bs_transfers s)
    | Ok false => is_Some (bs_transfers s !! t_ID t) /\ bs_transfers s' = bs_transfers s
    | Err _ => bs_transfers s' = bs_transfers s \/
        (bs_transfers s !! t_ID t = None /\
         bs_transfers s' = <[t_ID t := toTransferDao now t]> (bs_transfers s))
    end) s;
  law_update : forall now id st h m s, wp (bs_update now id st h m) (fun r s' =>
    bs_chains s' = bs_chains s /\
    match r with
    | Ok _ => is_Some (bs_transfers s !! id) /\
        bs_transfers s' = alter (set_status now st h m) id (bs_transfers s)
    | Err _ => bs_transfers s' = bs_transfers s \/
        bs_transfers s' = alter (set_status now st h m) id (bs_transfers s)
    end) s;
  law_retry : forall now id s, wp (bs_retry now id) (fun r s' =>
    bs_chains s' = bs_chains s /\
    match r with
    | Ok _ => is_Some (bs_transfers s !! id) /\
        bs_transfers s' = alter (incr_retry now) id (bs_transfers s)
    | Err _ => bs_transfers s' = bs_transfers s \/
        bs_transfers s' = alter (incr_retry now) id (bs_transfers s)
    end) s;
  law_pending : forall dir s, wp (bs_pending dir) (fun r s' =>
    bs_transfers s' = bs_transfers s /\ bs_chains s' = bs_chains s /\
    match r with
    | Ok l => (forall t, t ∈ l <-> exists id, bs_transfers s !! id = Some t /\
                 t_Direction t = dir /\ t_Status t = TransferStatusPending) /\
        Sorted created_before l /\ (keys_ok (bs_transfers s) -> NoDup (t_ID <$> l))
    | Err _ => True
    end) s;
  law_get_chain : forall c s, wp (bs_get_chain c) (fun r s' =>
    bs_transfers s' = bs_transfers s /\ bs_chains s' = bs_chains s /\
    match r with Ok o => o = bs_chains s !! c | Err _ => True end) s;
  law_set_chain : forall now c n o s, wp (bs_set_chain now c n o) (fun r s' =>
    bs_transfers s' = bs_transfers s /\
    match r with
    | Ok _ => bs_chains s' = <[c := mkChainState c n o now]> (bs_chains s)
    | Err _ => bs_chains s' = bs_chains s
    end) s;
}.

#[global] Instance PGStore_BridgeStore : BridgeStore RelayerDB := {|
  bs_transfers d := transfers (tables d);
  bs_chains d := chain_state (tables d);
  bs_create := CreateTransfer;
  bs_update := UpdateTransferStatus;
  bs_retry := IncrementRetryCount;
  bs_pending := GetPendingTransfers;
  bs_get_chain := GetChainState;
  bs_set_chain := SetChainState;
|}.

(** ** PGStore keeps the promises *)

#[global] Instance created_before_total : Total created_before.
Proof. intros a b. unfold created_before. lia. Qed.
#[global] Instance created_before_trans : Transitive created_before.
Proof. intros a b c. unfold created_before. lia. Qed.

Lemma elem_of_select P `{!forall t, Decision (P t)} m t :
  t ∈ select_transfers P m <-> exists id, m !! id = Some t /\ P t.
Proof.
  unfold select_transfers. rewrite (merge_sort_Permutation created_before).
  rewrite list_elem_of_filter, list_elem_of_fmap. split.
  - intros [HP ((id & t') & -> & Hin)]. exists id. by rewrite elem_of_map_to_list in Hin.
  - intros (id & Hm & HP). split; [done|]. exists (id, t).
    split; [done|]. by apply elem_of_map_to_list.
Qed.

Lemma select_sorted P `{!forall t, Decision (P t)} m : Sorted created_before (select_transfers P m).
Proof. apply Sorted_merge_sort. apply _. Qed.

Lemma select_ids P `{!forall t, Decision (P t)} m :
  keys_ok m -> NoDup (t_ID <$> select_transfers P m).
Proof.
  intros Hk. unfold select_transfers. rewrite (merge_sort_Permutation created_before).
  enough (forall l : list (string * Transfer), (forall id t, (id, t) ∈ l -> t_ID t = id) ->
    NoDup l.*1 -> NoDup (t_ID <$> filter P l.*2)) as Hl.
  { apply Hl; [|apply NoDup_fst_map_to_list].
    intros id t Hin. by apply Hk, elem_of_map_to_list. }
  induction l as [|[id t] l IH]; intros Hid Hnd; [apply NoDup_nil_2|].
  rewrite !fmap_cons in *. cbn [fst snd] in *.
  apply NoDup_cons in Hnd as [Hni Hnd].
  assert (NoDup (t_ID <$> filter P l.*2)) by (apply IH; [intros ?? Hin; apply Hid; by constructor|done]).
  rewrite filter_cons. case_decide; [|done]. rewrite fmap_cons. constructor; [|done].
  intros Hin. apply Hni. apply list_elem_of_fmap in Hin as (t' & Heq & Hin).
  apply list_elem_of_filter in Hin as [_ Hin]. apply list_elem_of_fmap in Hin as ([id' t''] & -> & Hin).
  apply list_elem_of_fmap. exists (id', t''). split; [|done]. cbn in *.
  rewrite <- (Hid id t), <- (Hid id' t''); [done|by constructor|constructor].
Qed.

Lemma update_by_id_spec pre id f d :
  wp (update_by_id pre id f) (fun r d' =>
    chain_state (tables d') = chain_state (tables d) /\
    match r with
    | Ok _ => is_Some (transfers (tables d) !! id) /\
        transfers (tables d') = alter f id (transfers (tables d))
    | Err _ => transfers (tables d') = transfers (tables d) \/
        transfers (tables d') = alter f id (transfers (tables d))
    end) d.
Proof.
  unfold update_by_id. apply wp_bind, wp_wrapping, wp_exec; [intros fs|by intros; cbn; auto].
  destruct (transfers (tables d) !! id) as [t|] eqn:Ht; cbn.
  - assert (<[id:=f t]> (transfers (tables d)) = alter f id (transfers (tables d))) as Ha.
    { by rewrite (alter_lookup_Some f id t). }
    wp_go; cbn; wp_go; rewrite ?Ha; eauto.
  - wp_go; cbn; wp_go; auto.
Qed.

#[global] Instance PGStore_laws : BridgeStoreLaws RelayerDB.
Proof.
  split; cbn.
  - intros now t d. unfold CreateTransfer. apply wp_bind, wp_wrapping, wp_exec; [intros fs|by intros; cbn; auto].
    destruct (transfers (tables d) !! t_ID t) eqn:Ht; cbn; wp_go; cbn; eauto.
  - intros. apply update_by_id_spec.
  - intros. apply update_by_id_spec.
  - intros dir d. unfold GetPendingTransfers. wp_go; split_and!; try done.
    + intros t. apply elem_of_select.
    + apply select_sorted.
    + apply select_ids.
  - intros c d. unfold GetChainState. wp_go; done.
  - intros now c n o d. unfold SetChainState. wp_go; done.
Qed.
