(* ===== verification/Decimal.v ===== *)
(** * Decimal arithmetic: the interface of github.com/shopspring/decimal

    The code relies on a third-party decimal package.  [DecimalLib] lists the
    operations the sources call, [DecimalLaws] what its documentation says
    about them in terms of the rational number a decimal denotes, and
    [RefDecimal] is a concrete implementation (coefficient and exponent) that
    satisfies the laws, used by the witnesses. *)

From S2P Require Import Prelude AppErrors Effects GoStd.
From Stdlib Require Import QArith Qpower Qcanon Ascii String.
Local Abbreviation length := Datatypes.length.
Local Open Scope Z_scope.

(** 10^e as a rational. *)
Definition pow10 (e : Z) : Qc := Q2Qc (Qpower (inject_Z 10) e).
Definition Qc_of_Z (n : Z) : Qc := Q2Qc (inject_Z n).

(** A text with no leading sign. *)
Definition unsigned_text (s : string) : Prop :=
  match s with
  | String c _ => c <> "-"%char /\ c <> "+"%char
  | EmptyString => True
  end.

Class DecimalLib := {
  dec : Type;
  (** the number a decimal denotes *)
  dec_val : dec -> Qc;
  NewFromString : string -> option dec;
  NewFromBigInt : Z -> Z -> dec;
  dec_New : Z -> Z -> dec;
  dec_Zero : dec;
  dec_String : dec -> string;
  dec_Add : dec -> dec -> dec;
  dec_Mul : dec -> dec -> dec;
  dec_BigInt : dec -> Z;
  dec_IsNegative : dec -> bool;
  dec_IsZero : dec -> bool;
  dec_Cmp : dec -> dec -> Z;
}.

Class DecimalLaws `{DecimalLib} : Prop := {
  dlaw_zero : dec_val dec_Zero = Qc_of_Z 0;
  dlaw_big : forall c e, dec_val (NewFromBigInt c e) = (Qc_of_Z c * pow10 e)%Qc;
  dlaw_new : forall c e, dec_val (dec_New c e) = (Qc_of_Z c * pow10 e)%Qc;
  dlaw_add : forall a b, dec_val (dec_Add a b) = (dec_val a + dec_val b)%Qc;
  dlaw_mul : forall a b, dec_val (dec_Mul a b) = (dec_val a * dec_val b)%Qc;
  dlaw_bigint : forall a n, dec_val a = Qc_of_Z n -> dec_BigInt a = n;
  dlaw_neg : forall a, dec_IsNegative a = true <-> (dec_val a < 0)%Qc;
  dlaw_iszero : forall a, dec_IsZero a = true <-> dec_val a = Qc_of_Z 0;
  dlaw_parse_string : forall a, exists a',
    NewFromString (dec_String a) = Some a' /\ dec_val a' = dec_val a;
  dlaw_parse_zero : exists a, NewFromString "0" = Some a /\ dec_val a = Qc_of_Z 0;
  dlaw_parse_minus : forall s a, unsigned_text s -> NewFromString s = Some a ->
    exists a', NewFromString (String "-" s) = Some a' /\ dec_val a' = (- dec_val a)%Qc;
  dlaw_parse_unsigned : forall s a, unsigned_text s -> NewFromString s = Some a -> (0 <= dec_val a)%Qc;
  dlaw_cmp : forall a b, 0 <= dec_Cmp a b <-> (dec_val b <= dec_val a)%Qc;
}.

(** ** Powers of ten *)

Lemma ten_nonzero : ~ (inject_Z 10 == 0)%Q.
Proof. done. Qed.

Lemma Q2Qc_mult a b : Q2Qc (a * b) = (Q2Qc a * Q2Qc b)%Qc.
Proof. apply Qc_is_canon. cbn. by rewrite !Qred_correct. Qed.

Lemma Q2Qc_plus a b : Q2Qc (a + b) = (Q2Qc a + Q2Qc b)%Qc.
Proof. apply Qc_is_canon. cbn. by rewrite !Qred_correct. Qed.

Lemma Q2Qc_eq a b : (a == b)%Q -> Q2Qc a = Q2Qc b.
Proof. intros Hab. apply Qc_is_canon. cbn. by rewrite !Qred_correct. Qed.

Lemma pow10_plus a b : pow10 (a + b) = (pow10 a * pow10 b)%Qc.
Proof.
  unfold pow10. rewrite <- Q2Qc_mult. apply Q2Qc_eq. apply Qpower_plus, ten_nonzero.
Qed.

Lemma pow10_0 : pow10 0 = 1%Qc.
Proof. done. Qed.

Lemma pow10_Z e : 0 <= e -> pow10 e = Qc_of_Z (10 ^ e).
Proof. intros He. unfold pow10, Qc_of_Z. apply Q2Qc_eq. by rewrite Zpower_Qpower. Qed.

Lemma pow10_pos e : (0 < pow10 e)%Qc.
Proof.
  unfold Qclt, pow10. cbn [this Q2Qc].
  rewrite (Qred_correct (inject_Z 10 ^ e)). by apply Qpower_0_lt.
Qed.

Lemma Qc_of_Z_add a b : Qc_of_Z (a + b) = (Qc_of_Z a + Qc_of_Z b)%Qc.
Proof. unfold Qc_of_Z. rewrite <- Q2Qc_plus. apply Q2Qc_eq. by rewrite inject_Z_plus. Qed.

Lemma Qc_of_Z_mul a b : Qc_of_Z (a * b) = (Qc_of_Z a * Qc_of_Z b)%Qc.
Proof. unfold Qc_of_Z. rewrite <- Q2Qc_mult. apply Q2Qc_eq. by rewrite inject_Z_mult. Qed.

Lemma Qc_of_Z_opp a : Qc_of_Z (- a) = (- Qc_of_Z a)%Qc.
Proof.
  unfold Qc_of_Z. apply Qc_is_canon. cbn. rewrite !Qred_correct. by rewrite inject_Z_opp.
Qed.

Lemma Qc_of_Z_inj a b : Qc_of_Z a = Qc_of_Z b -> a = b.
Proof.
  unfold Qc_of_Z. intros Hab. apply (f_equal this) in Hab. cbn in Hab.
  assert (inject_Z a == inject_Z b)%Q as Hq by (rewrite <- (Qred_correct (inject_Z a)), Hab; apply Qred_correct).
  by apply inject_Z_injective.
Qed.

Lemma Qc_of_Z_neg a : (Qc_of_Z a < 0)%Qc <-> a < 0.
Proof.
  unfold Qclt, Qc_of_Z. cbn [this Q2Qc]. rewrite (Qred_correct (inject_Z a)).
  change (Qred 0) with (inject_Z 0). by rewrite <- (Zlt_Qlt a 0).
Qed.

(** The sign of c·10^e is the sign of c. *)
Lemma scaled_neg c e : (Qc_of_Z c * pow10 e < 0)%Qc <-> c < 0.
Proof.
  rewrite <- Qc_of_Z_neg. pose proof (pow10_pos e) as Hp. split; intros Hc.
  - destruct (Qclt_le_dec (Qc_of_Z c) 0) as [|Hge]; [done|exfalso].
    assert (0 * pow10 e <= Qc_of_Z c * pow10 e)%Qc as Hle by (apply Qcmult_le_compat_r; [done|by apply Qclt_le_weak]).
    rewrite Qcmult_0_l in Hle. by apply (Qcle_not_lt _ _ Hle).
  - assert (Qc_of_Z c * pow10 e < 0 * pow10 e)%Qc as Hlt by (by apply Qcmult_lt_compat_r).
    by rewrite Qcmult_0_l in Hlt.
Qed.

Lemma scaled_zero c e : (Qc_of_Z c * pow10 e)%Qc = Qc_of_Z 0 <-> c = 0.
Proof.
  split; [|intros ->; apply Qcmult_0_l].
  intros H. apply Qcmult_integral in H as [H|H]; [by apply Qc_of_Z_inj in H|].
  pose proof (pow10_pos e) as Hp. rewrite H in Hp. by apply Qclt_not_eq in Hp.
Qed.

(** ** A reference implementation *)

Module RefDecimal.
Record t := mk { coef : Z; exp : Z }.

(** Exactly [k] digits of [n]. *)
Fixpoint put_fixed (k : nat) (n : Z) (acc : string) : string :=
  match k with
  | O => acc
  | S k => put_fixed k (n / 10) (String (digit_char (n mod 10)) acc)
  end.

Definition parse_unsigned (s : string) : option t :=
  match split_first "." s with
  | (a, None) => n ← parse_digits a; Some (mk n 0)
  | (a, Some b) => i ← parse_digits a; n ← get_digits b i; Some (mk n (- Z.of_nat (String.length b)))
  end.

Definition neg (a : t) : t := mk (- coef a) (exp a).

Definition parse (s : string) : option t :=
  match s with
  | String "-" s => neg <$> parse_unsigned s
  | String "+" s => parse_unsigned s
  | _ => parse_unsigned s
  end.

(** A non-negative coefficient and an exponent. *)
Definition print_unsigned (c e : Z) : string :=
  if 0 <=? e then FormatUint (c * 10 ^ e)
  else FormatUint (c / 10 ^ (- e)) +:+ String "." (put_fixed (Z.to_nat (- e)) (c mod 10 ^ (- e)) "").

Definition print (a : t) : string :=
  if coef a <? 0 then String "-" (print_unsigned (- coef a) (exp a))
  else print_unsigned (coef a) (exp a).

Definition add (a b : t) : t :=
  let e := Z.min (exp a) (exp b) in
  mk (coef a * 10 ^ (exp a - e) + coef b * 10 ^ (exp b - e)) e.

Definition mul (a b : t) : t := mk (coef a * coef b) (exp a + exp b).

Definition bigint (a : t) : Z :=
  if 0 <=? exp a then coef a * 10 ^ exp a else Z.quot (coef a) (10 ^ (- exp a)).

Definition value (a : t) : Qc := (Qc_of_Z (coef a) * pow10 (exp a))%Qc.

Lemma get_put_fixed k n s a :
  0 <= n < 10 ^ Z.of_nat k ->
  get_digits (put_fixed k n s) a = get_digits s (a * 10 ^ Z.of_nat k + n).
Proof.
  revert n s. induction k as [|k IH]; intros n s Hn; cbn [put_fixed].
  { f_equal. change (Z.of_nat 0) with 0 in *. lia. }
  rewrite Nat2Z.inj_succ, Z.pow_succ_r in * by lia.
  pose proof (Z.mod_pos_bound n 10 ltac:(lia)).
  rewrite IH; [|split; [apply Z.div_pos; lia|apply Z.div_lt_upper_bound; lia]].
  cbn. rewrite digit_val_char by lia. cbn. f_equal.
  pose proof (Z.div_mod n 10). nia.
Qed.

Lemma length_put_fixed k n s : String.length (put_fixed k n s) = (k + String.length s)%nat.
Proof. revert n s. induction k as [|k IH]; intros n s; cbn; [done|]. rewrite IH. cbn. lia. Qed.

Lemma split_first_none s : no_char "." s -> split_first "." s = (s, None).
Proof.
  induction s as [|c s IH]; intros Hs; [done|]. destruct Hs as [Hc Hs].
  apply Ascii.eqb_neq in Hc. unfold split_first; fold split_first. by rewrite Hc, IH.
Qed.

Lemma parse_print_unsigned c e :
  0 <= c -> exists a, parse_unsigned (print_unsigned c e) = Some a /\
    value a = (Qc_of_Z c * pow10 e)%Qc.
Proof.
  intros Hc. unfold print_unsigned, parse_unsigned. destruct (Z.leb_spec 0 e) as [He|He].
  - pose proof (Z.pow_nonneg 10 e ltac:(lia)).
    rewrite split_first_none by (by apply FormatUint_no_char).
    rewrite parse_digits_FormatUint by lia. cbn. eexists. split; [done|].
    unfold value; cbn [coef exp]. rewrite pow10_0, Qc_of_Z_mul, (pow10_Z e) by done. ring.
  - assert (0 < 10 ^ (- e)) as Hp by (apply Z.pow_pos_nonneg; lia).
    rewrite split_first_app by (by apply FormatUint_no_char).
    rewrite parse_digits_FormatUint by (apply Z.div_pos; lia). cbn [mbind option_bind].
    pose proof (Z.mod_pos_bound c (10 ^ (- e)) Hp).
    rewrite get_put_fixed by (rewrite Z2Nat.id by lia; lia). cbn [get_digits mbind option_bind].
    eexists. split; [done|]. unfold value. cbn [coef exp].
    rewrite length_put_fixed, Nat.add_comm, Z2Nat.id by lia. cbn [String.length Nat.add].
    rewrite Z2Nat.id, Z.opp_involutive by lia. f_equal. f_equal.
    pose proof (Z.div_mod c (10 ^ (- e))). lia.
Qed.

Lemma print_unsigned_head c e : unsigned_text (print_unsigned c e).
Proof.
  unfold print_unsigned. destruct (0 <=? e).
  - destruct (FormatUint_head (c * 10 ^ e)) as (d & s & Hd & ->). cbn.
    split; by apply digit_char_not.
  - destruct (FormatUint_head (c / 10 ^ (- e))) as (d & s & Hd & ->). cbn.
    split; by apply digit_char_not.
Qed.

Lemma parse_unsigned_text s : unsigned_text s -> parse s = parse_unsigned s.
Proof.
  destruct s as [|c s]; [done|]. intros [H1 H2]. unfold parse.
  destruct c as [[] [] [] [] [] [] [] []]; try done.
Qed.

Lemma parse_digits_nonneg s n : parse_digits s = Some n -> 0 <= n.
Proof. destruct s; [done|]. by apply get_digits_nonneg. Qed.

Lemma parse_unsigned_nonneg s a : parse_unsigned s = Some a -> 0 <= coef a.
Proof.
  unfold parse_unsigned. destruct (split_first "." s) as [l [r|]].
  - destruct (parse_digits l) as [n|] eqn:Hl; [|done]. cbn. apply parse_digits_nonneg in Hl.
    destruct (get_digits r n) as [m|] eqn:Hr; [|done]. cbn. intros [= <-].
    by apply get_digits_nonneg in Hr.
  - destruct (parse_digits l) as [n|] eqn:Hl; [|done]. cbn. intros [= <-]. by apply parse_digits_nonneg in Hl.
Qed.

Lemma value_neg a : value (neg a) = (- value a)%Qc.
Proof. unfold value, neg; cbn [coef exp]. rewrite Qc_of_Z_opp. ring. Qed.

Lemma value_shift c e k : 0 <= k -> (Qc_of_Z (c * 10 ^ k) * pow10 e)%Qc = (Qc_of_Z c * pow10 (e + k))%Qc.
Proof. intros Hk. rewrite Qc_of_Z_mul, pow10_plus, (pow10_Z k) by done. ring. Qed.

Lemma value_add a b : value (add a b) = (value a + value b)%Qc.
Proof.
  destruct a as [c1 e1], b as [c2 e2]. unfold value, add; cbn [coef exp].
  rewrite Qc_of_Z_add, Qcmult_plus_distr_l, !value_shift by lia. do 2 f_equal; f_equal; lia.
Qed.

#[export] Instance lib : DecimalLib := {|
  dec := t;
  dec_val := value;
  NewFromString := parse;
  NewFromBigInt := mk;
  dec_New := mk;
  dec_Zero := mk 0 0;
  dec_String := print;
  dec_Add := add;
  dec_Mul := mul;
  dec_BigInt := bigint;
  dec_IsNegative a := coef a <? 0;
  dec_IsZero a := coef a =? 0;
  dec_Cmp a b := Z.sgn (coef (add a (neg b)));
|}.

#[export] Instance laws : DecimalLaws.
Proof.
  split; cbn.
  - done.
  - done.
  - done.
  - apply value_add.
  - intros [c1 e1] [c2 e2]. unfold value, mul; cbn [coef exp].
    rewrite Qc_of_Z_mul, pow10_plus. ring.
  - intros [c e] n Hv. unfold bigint, value in *; cbn [coef exp] in *.
    destruct (Z.leb_spec 0 e).
    + rewrite (pow10_Z e), <- Qc_of_Z_mul in Hv by done. by apply Qc_of_Z_inj in Hv.
    + assert (c = n * 10 ^ (- e)) as ->.
      { apply Qc_of_Z_inj. rewrite Qc_of_Z_mul, <- Hv, <- pow10_Z by lia.
        rewrite <- Qcmult_assoc, <- pow10_plus. replace (e + - e) with 0 by lia.
        rewrite pow10_0. ring. }
      apply Z.quot_mul. apply Z.pow_nonzero; lia.
  - intros [c e]. unfold value; cbn [coef exp]. by rewrite scaled_neg, Z.ltb_lt.
  - intros [c e]. unfold value; cbn [coef exp]. by rewrite scaled_zero, Z.eqb_eq.
  - intros [c e]. unfold print; cbn [coef exp]. destruct (Z.ltb_spec c 0).
    + destruct (parse_print_unsigned (- c) e) as (a & Ha & Hv); [lia|].
      exists (neg a). cbn [parse]. rewrite Ha. split; [done|].
      rewrite value_neg, Hv, Qc_of_Z_opp. unfold value; cbn. ring.
    + rewrite parse_unsigned_text by apply print_unsigned_head.
      by apply parse_print_unsigned.
  - exists (mk 0 0). split; [reflexivity|]. done.
  - intros s a Hs Ha. rewrite parse_unsigned_text in Ha by done.
    exists (neg a). cbn [parse]. rewrite Ha. split; [done|]. apply value_neg.
  - intros s a Hs Ha. rewrite parse_unsigned_text in Ha by done. apply parse_unsigned_nonneg in Ha.
    apply Qcnot_lt_le. unfold value. rewrite scaled_neg. lia.
  - intros a b. change (0 <= Z.sgn (coef (add a (neg b))) <-> (value b <= value a)%Qc). rewrite Z.sgn_nonneg. pose proof (value_add a (neg b)) as Hv. rewrite value_neg in Hv.
    assert ((value a + - value b < 0)%Qc <-> coef (add a (neg b)) < 0) as Hs.
    { rewrite <- Hv. unfold value at 1. apply scaled_neg. }
    split; intros Hle.
    + apply Qcnot_lt_le. intros Hlt. assert (coef (add a (neg b)) < 0); [|lia]. apply Hs.
      apply Qclt_minus_iff in Hlt. rewrite Qclt_minus_iff. replace (0 + - (value a + - value b))%Qc with (value b + - value a)%Qc by ring.
      done.
    + destruct (Z.le_gt_cases 0 (coef (add a (neg b)))) as [|Hneg]; [done|]. exfalso.
      apply Hs in Hneg. apply (Qcle_not_lt _ _ Hle).
      rewrite Qclt_minus_iff in Hneg |- *. by replace (value b + - value a)%Qc with (0 + - (value a + - value b))%Qc by ring.
Qed.
End RefDecimal.
