(* ===== verification/RelayerChains.v ===== *)
(** * Relayer sources and destinations: engine/source.go, engine/destination.go

    The two chains are parameters: the [canton.Bridge] interface and the
    [EthereumBridgeClient] interface are classes of operations on the state of
    the outside world; the go-ethereum and decimal packages are classes too.
    Here are the two Destinations' SubmitTransfer, the two Sources' event
    conversion and offset extraction, and the amount conversions. *)

From S2P Require Import Prelude AppErrors Effects GoStd EthClient RelayerStore Decimal.
From Stdlib Require Import Ascii.

(** ** Interfaces *)

(** canton.Bridge, as far as the relayer calls it. *)
Class CantonBridge (X : Type) := {
  IsDepositProcessed : string -> M X bool;
  (** fingerprint, amount, EVM tx hash to PendingDeposit and mapping contract ids *)
  CreatePendingDeposit : string -> string -> string -> M X (string * string);
  (** deposit and mapping contract ids to the minted holding's contract id *)
  ProcessDepositAndMint : string -> string -> M X string;
  CompleteWithdrawal : string -> string -> M X unit;
  GetLatestLedgerOffset : M X Z;
}.

(** EthereumBridgeClient. *)
Class EthereumBridge (X : Type) := {
  GetLatestBlockNumber : M X Z;
  WithdrawFromCanton : Address -> Address -> Z -> Z -> list Z -> M X Hash;
  IsWithdrawalProcessed : list Z -> M X bool;
  GetLastScannedBlock : X -> Z;
}.

Section Chains.
Context {X : Type} `{!CantonBridge X} `{!EthereumBridge X} `{!GoEthereum} `{!DecimalLib}.

Definition decimalPlaces : Z := 18.

(** bigIntToDecimal(amount, decimals) *)
Definition bigIntToDecimal (amount decimals : Z) : string :=
  dec_String (NewFromBigInt amount (- decimals)).

(** decimalToBigInt(s, decimals) *)
Definition decimalToBigInt (s : string) (decimals : Z) : result Z :=
  match NewFromString s with
  | None => Err (ErrWrap "invalid decimal format: " (ErrNew ("can't convert " +:+ s +:+ " to decimal")) "")
  | Some d => Ok (dec_BigInt (dec_Mul d (dec_New 1 decimals)))
  end.

(** ** CantonDestination.SubmitTransfer: (destination tx hash, skipped) *)
Definition CantonDestination_SubmitTransfer (ev : Event) : M X (string * bool) :=
  match SetString (ev_Amount ev) with
  | None => fail (ErrNew ("invalid amount " +:+ quoted (ev_Amount ev)))
  | Some amount =>
      let amountStr := bigIntToDecimal amount decimalPlaces in
      alreadyProcessed ← attempt (IsDepositProcessed (ev_SourceTxHash ev));
      match alreadyProcessed with
      | Ok true => mret (""%string, true)
      | _ =>
          '(depositCID, mappingCID) ← wrapping "create pending deposit: "
            (CreatePendingDeposit (ev_Recipient ev) amountStr (ev_SourceTxHash ev));
          holding ← wrapping "process deposit and mint: "
            (ProcessDepositAndMint depositCID mappingCID);
          mret (holding, false)
      end
  end.

(** ** EthereumDestination.SubmitTransfer *)
Definition EthereumDestination_SubmitTransfer (ev : Event) : M X (string * bool) :=
  let tokenAddress := HexToAddress (ev_TokenAddress ev) in
  let recipientAddr := HexToAddress (ev_Recipient ev) in
  match decimalToBigInt (ev_Amount ev) decimalPlaces with
  | Err e => fail (ErrWrap "parse amount: " e "")
  | Ok amount =>
      match hex_decode (ev_SourceTxHash ev) with
      | None => fail (ErrWrap "decode source tx hash: " (ErrNew "encoding/hex: invalid input") "")
      | Some bytes =>
          let cantonTxHash := copy_into 32 bytes in
          alreadyProcessed ← attempt (IsWithdrawalProcessed cantonTxHash);
          match alreadyProcessed with
          | Ok true => mret (""%string, true)
          | _ =>
              txHash ← wrapping "withdraw from canton on EVM: "
                (WithdrawFromCanton tokenAddress recipientAddr amount (ev_Nonce ev) cantonTxHash);
              mret (Hash_Hex txHash, false)
          end
      end
  end.

(** ** Sources *)

(** A withdrawal as the Canton client streams it (bridge.WithdrawalEvent). *)
Record WithdrawalEvent := mkWithdrawalEvent {
  we_ContractID : string;
  we_EventID : string;
  we_TransactionID : string;
  we_Issuer : string;
  we_UserParty : string;
  we_EvmDestination : string;
  we_Amount : string;
  we_Fingerprint : string;
  we_Status : string;
}.

(** The event ID decodeWithdrawalEvent builds: "offset-nodeId". *)
Definition canton_event_id (offset nodeID : Z) : string :=
  FormatInt offset +:+ "-" +:+ FormatInt nodeID.

(** The event cantonSource.StreamEvents emits for a withdrawal. *)
Definition cantonSource_event (tokenContract : string) (w : WithdrawalEvent) : Event :=
  mkEvent (we_EventID w) (we_TransactionID w) ChainCanton ChainEthereum
    (we_ContractID w) (we_ContractID w) tokenContract (we_Amount w)
    (we_UserParty w) (we_EvmDestination w) 0 0 false.

(** cantonOffsetFromEventID; SplitN always returns at least one part. *)
Definition cantonOffsetFromEventID (eventID : string) : string :=
  match SplitN2 eventID "-"%char with
  | p :: _ => match ParseInt p with Ok _ => p | Err _ => ""%string end
  | [] => ""%string
  end.

Definition cantonSource_ExtractOffset (ev : Event) : string := cantonOffsetFromEventID (ev_ID ev).

(** ethereumSource.ExtractOffset *)
Definition ethereumSource_ExtractOffset (ev : Event) : string :=
  if ev_SourceBlockNumber ev <=? 0 then ""%string else FormatUint (ev_SourceBlockNumber ev).

(** The block ethereumSource.StreamEvents starts from. *)
Definition ethereumSource_fromBlock (offset : string) : result Z :=
  if bool_decide (offset <> ""%string) && bool_decide (offset <> OffsetBegin) then
    match ParseUint offset with
    | Ok n => Ok n
    | Err e => Err (ErrWrap ("invalid ethereum offset " +:+ quoted offset +:+ ": ") e "")
    end
  else Ok 0.

(** The event ethereumSource.StreamEvents emits for a deposit or checkpoint. *)
Definition ethereumSource_event (d : DepositEvent) : Event :=
  if de_Checkpoint d then
    mkEvent "" "" ChainEthereum "" "" "" "" "" "" "" 0 (de_BlockNumber d) true
  else
    mkEvent (Hash_Hex (de_TxHash d) +:+ "-" +:+ FormatUint (de_LogIndex d))
      (Hash_Hex (de_TxHash d)) ChainEthereum ChainCanton (Hash_Hex (de_TxHash d)) ""
      (Address_Hex (de_Token d)) (FormatInt (de_Amount d)) (Address_Hex (de_Sender d))
      (hex_encode (de_CantonRecipient d)) (int64 (de_Nonce d)) (de_BlockNumber d) false.
End Chains.

(** ** Amount conversion *)

(** Converting a wei amount to the Daml decimal text and back is the
    identity, for every amount and any number of decimal places the bridge
    uses. *)
Theorem decimalToBigInt_bigIntToDecimal `{DecimalLaws} amount decimals :
  decimalToBigInt (bigIntToDecimal amount decimals) decimals = Ok amount.
Proof.
  unfold decimalToBigInt, bigIntToDecimal.
  destruct (dlaw_parse_string (NewFromBigInt amount (- decimals))) as (d & -> & Hd).
  f_equal. apply dlaw_bigint. rewrite dlaw_mul, Hd, dlaw_big, dlaw_new.
  rewrite <- !Qcanon.Qcmult_assoc, (Qcanon.Qcmult_comm (Qc_of_Z 1)), Qcanon.Qcmult_assoc.
  rewrite Qcanon.Qcmult_assoc, <- (Qcanon.Qcmult_assoc (Qc_of_Z amount)), <- pow10_plus.
  replace (- decimals + decimals) with 0 by lia. rewrite pow10_0, Qcanon.Qcmult_1_r.
  apply Qcanon.Qcmult_1_r.
Qed.

#[local] Existing Instance RefDecimal.lib.

Lemma decimalToBigInt_bigIntToDecimal_witness :
  bigIntToDecimal 1500000000000000000 18 = "1.500000000000000000"%string /\
  decimalToBigInt (bigIntToDecimal 1500000000000000000 18) 18 = Ok 1500000000000000000.
Proof.
  split; [vm_compute; reflexivity|].
  exact (@decimalToBigInt_bigIntToDecimal RefDecimal.lib RefDecimal.laws 1500000000000000000 18).
Defined.

(** ** Offsets *)

(** The offset recovered from a Canton event ID is the ledger offset the ID
    was built from, so restarting from a persisted Canton offset resumes at the
    transaction of the last processed withdrawal. *)
Theorem cantonOffset_roundtrip offset nodeID :
  0 <= offset <= max_int64 ->
  cantonOffsetFromEventID (canton_event_id offset nodeID) = FormatInt offset /\
  ParseInt (FormatInt offset) = Ok offset.
Proof.
  intros [Ho1 Ho2].
  assert (ParseInt (FormatInt offset) = Ok offset) as Hp by (apply ParseInt_FormatInt; int_lia).
  split; [|done]. unfold cantonOffsetFromEventID, canton_event_id, SplitN2.
  assert (FormatInt offset = FormatUint offset) as Hf.
  { unfold FormatInt. destruct (Z.ltb_spec offset 0); [lia|done]. }
  change ("-" +:+ FormatInt nodeID)%string with (String.String "-" (FormatInt nodeID)).
  rewrite split_first_app by (rewrite Hf; by apply FormatUint_no_char).
  by rewrite Hp.
Qed.

Lemma cantonOffset_roundtrip_witness :
  canton_event_id 12345 0 = "12345-0"%string /\
  cantonOffsetFromEventID "12345-0" = "12345"%string /\
  cantonOffsetFromEventID (canton_event_id 12345 0) = FormatInt 12345 /\
  ParseInt (FormatInt 12345) = Ok 12345.
Proof.
  split; [reflexivity|]. split; [reflexivity|].
  apply (cantonOffset_roundtrip 12345 0). int_lia.
Defined.

Lemma FormatUint_not_begin n : FormatUint n <> OffsetBegin.
Proof. by apply FormatUint_not_digit_head. Qed.

(** Starting a stream from the offset extracted from an event starts at that
    event's block; a checkpoint carries the block it covers. *)
Lemma ethereumSource_resume ev :
  0 < ev_SourceBlockNumber ev < two64 ->
  ethereumSource_fromBlock (ethereumSource_ExtractOffset ev) = Ok (ev_SourceBlockNumber ev).
Proof.
  intros Hb. unfold ethereumSource_fromBlock, ethereumSource_ExtractOffset.
  destruct (Z.leb_spec (ev_SourceBlockNumber ev) 0); [lia|].
  rewrite bool_decide_true by apply FormatUint_nonempty.
  rewrite bool_decide_true by apply FormatUint_not_begin. cbn.
  by rewrite ParseUint_FormatUint by int_lia.
Qed.

(** ** Event identity *)

(** The transfer ID of a deposit identifies its log: two deposits with the
    same ID have the same transaction hash and log index, when hashes print
    injectively and without a dash (0x-prefixed hex). *)
Theorem ethereumSource_event_id_inj `{GoEthereum} d1 d2 :
  (forall h h', Hash_Hex h = Hash_Hex h' -> h = h') ->
  (forall h, no_char "-"%char (Hash_Hex h)) ->
  de_Checkpoint d1 = false -> de_Checkpoint d2 = false ->
  0 <= de_LogIndex d1 -> 0 <= de_LogIndex d2 ->
  ev_ID (ethereumSource_event d1) = ev_ID (ethereumSource_event d2) ->
  de_TxHash d1 = de_TxHash d2 /\ de_LogIndex d1 = de_LogIndex d2.
Proof.
  intros Hinj Hdash Hc1 Hc2 Hl1 Hl2. unfold ethereumSource_event. rewrite Hc1, Hc2. cbn [ev_ID].
  change (Hash_Hex (de_TxHash d1) +:+ "-" +:+ FormatUint (de_LogIndex d1))%string
    with (Hash_Hex (de_TxHash d1) +:+ String.String "-" (FormatUint (de_LogIndex d1))).
  change (Hash_Hex (de_TxHash d2) +:+ "-" +:+ FormatUint (de_LogIndex d2))%string
    with (Hash_Hex (de_TxHash d2) +:+ String.String "-" (FormatUint (de_LogIndex d2))).
  intros Heq. apply (f_equal (split_first "-"%char)) in Heq.
  rewrite !split_first_app in Heq by done. injection Heq as Hh Hi.
  split; [by apply Hinj|]. by apply FormatUint_inj.
Qed.

Definition example_geth : GoEthereum := {|
  HexToAddress s := default [] (hex_decode s);
  Address_Hex := hex_encode;
  Hash_Hex h := FormatUint (Z.pos (encode h));
  HexToHash s := default [] (hex_decode s);
  BytesToAddress := copy_into 20;
  BytesToHash := copy_into 32;
  LeftPadBytes b n := replicate (Z.to_nat n - length b) 0 ++ b;
  Keccak256 := copy_into 32;
  Sum256 := copy_into 32;
|}.

Lemma ethereumSource_event_id_inj_witness :
  let d := mkDepositEvent [1] [2] [3] 1000 0 7 [9] 4 false in
  de_TxHash d = de_TxHash d /\ de_LogIndex d = de_LogIndex d.
Proof.
  intros d. apply (@ethereumSource_event_id_inj example_geth d d); try done.
  - intros h h' Hh. apply FormatUint_inj in Hh; [|lia|lia].
    injection Hh as Hh. by apply (inj encode).
  - intros h. by apply FormatUint_no_char.
Defined.
