(* ===== verification/EthTransactor.v ===== *)
(** * EthTransactor: the transactions of the Ethereum client

    The rest of pkg/ethereum/client.go: GetTransactor with its nonce and gas
    price, GetLatestBlockNumber, WithdrawFromCanton, IsWithdrawalProcessed and
    DepositToCanton.  The node and the bridge contract bindings are the class
    [EthNode]; what is relied on of them is [EthNodeLaws], stated on the
    transactions the node was given.  The client implements the interface
    [EthereumBridge] that the relayer is verified against. *)

From S2P Require Import Prelude AppErrors Effects GoStd EthClient RelayerStore Decimal RelayerChains.
From Stdlib Require Import String.
Local Open Scope Z_scope.

(** The settings the client reads. *)
Record EthConfig := mkEthConfig {
  ec_ChainID : Z;
  ec_GasLimit : Z;
  ec_MaxGasPrice : string;
}.

(** bind.TransactOpts *)
Record TransactOpts := mkTransactOpts {
  opt_From : Address;
  opt_ChainID : Z;
  opt_Nonce : Z;
  opt_GasLimit : Z;
  opt_GasPrice : option Z;
}.

(** A call of the bridge contract that was given to the node to send. *)
Inductive BridgeTx :=
| TxWithdraw (opts : TransactOpts) (token recipient : Address) (amount nonce : Z) (cantonTxHash : list Z)
| TxDeposit (opts : TransactOpts) (token : Address) (amount : Z) (cantonRecipient : list Z).

Definition tx_opts (t : BridgeTx) : TransactOpts :=
  match t with TxWithdraw o _ _ _ _ _ => o | TxDeposit o _ _ _ => o end.

Class EthNode (X : Type) := {
  PendingNonceAt : Address -> M X Z;
  SuggestGasPrice : M X Z;
  (** header.Number of the latest header *)
  HeaderNumber : M X Z;
  ProcessedCantonTxs : list Z -> M X bool;
  (** sign and send a call of the bridge contract; its hash *)
  transact : BridgeTx -> M X Hash;
  (** the transactions sent so far *)
  sent : X -> list BridgeTx;
  (** the poller's progress (Client.lastScannedBlock) *)
  scanned : X -> Z;
}.

(** Queries send nothing; a call that fails may or may not have been sent. *)
Class EthNodeLaws (X : Type) `{!EthNode X} : Prop := {
  law_nonce : forall a x, wp (PendingNonceAt a) (fun r x' => sent x' = sent x /\ forall n, r = Ok n -> is_uint64 n) x;
  law_gas_price : forall x, wp SuggestGasPrice (fun _ x' => sent x' = sent x) x;
  law_header : forall x, wp HeaderNumber (fun _ x' => sent x' = sent x) x;
  law_processed : forall h x, wp (ProcessedCantonTxs h) (fun _ x' => sent x' = sent x) x;
  law_transact : forall t x, wp (transact t) (fun r x' =>
    sent x' = sent x ++ [t] \/ (is_ok r = false /\ sent x' = sent x)) x;
}.

Section Client.
Context {X : Type} `{!EthNode X}.
Variable cfg : EthConfig.
(** the address of the relayer's key *)
Variable address : Address.
(** the value that a failed SetString leaves, which is undefined *)
Variable undefined : string -> Z.

Definition maxGasPrice : Z := match SetString (ec_MaxGasPrice cfg) with Some z => z | None => undefined (ec_MaxGasPrice cfg) end.

Definition GetTransactor : M X TransactOpts :=
  nonce ← wrapping "failed to get nonce: " (PendingNonceAt address);
  let auth := mkTransactOpts address (ec_ChainID cfg) (int64 nonce) (ec_GasLimit cfg) in
  if bool_decide (ec_MaxGasPrice cfg = ""%string) then mret (auth None)
  else
    gasPrice ← wrapping "failed to suggest gas price: " SuggestGasPrice;
    mret (auth (Some (if maxGasPrice <? gasPrice then maxGasPrice else gasPrice))).

Definition eth_GetLatestBlockNumber : M X Z :=
  number ← wrapping "failed to get latest block: " HeaderNumber;
  mret (uint64 number).

Definition eth_WithdrawFromCanton (token recipient : Address) (amount nonce : Z) (cantonTxHash : list Z) : M X Hash :=
  auth ← wrapping "failed to create transactor: " GetTransactor;
  wrapping "failed to submit withdrawal transaction: " (transact (TxWithdraw auth token recipient amount nonce cantonTxHash)).

Definition eth_IsWithdrawalProcessed (cantonTxHash : list Z) : M X bool := ProcessedCantonTxs cantonTxHash.

Definition eth_DepositToCanton (token : Address) (amount : Z) (cantonRecipient : list Z) : M X Hash :=
  auth ← wrapping "failed to create transactor: " GetTransactor;
  wrapping "failed to submit deposit transaction: " (transact (TxDeposit auth token amount cantonRecipient)).

(** The client as the relayer uses it. *)
Definition eth_client : EthereumBridge X := {|
  GetLatestBlockNumber := eth_GetLatestBlockNumber;
  WithdrawFromCanton := eth_WithdrawFromCanton;
  IsWithdrawalProcessed := eth_IsWithdrawalProcessed;
  GetLastScannedBlock := scanned;
|}.
End Client.

(** ** What is sent *)

Section proofs.
Context {X : Type} `{!EthNode X} `{!EthNodeLaws X}.
Variable cfg : EthConfig.
Variable address : Address.
Variable undefined : string -> Z.

(** The options of a transaction the client signs. *)
Definition signed_options (o : TransactOpts) : Prop :=
  opt_From o = address /\ opt_ChainID o = ec_ChainID cfg /\ opt_GasLimit o = ec_GasLimit cfg /\ is_int64 (opt_Nonce o) /\
  match opt_GasPrice o with
  | None => ec_MaxGasPrice cfg = ""%string
  | Some p => ec_MaxGasPrice cfg <> ""%string /\ p <= maxGasPrice cfg undefined
  end.

Lemma wp_GetTransactor x :
  wp (GetTransactor cfg address undefined) (fun r x' => sent x' = sent x /\ forall o, r = Ok o -> signed_options o) x.
Proof.
  unfold GetTransactor. apply wp_bind, wp_wrapping. eapply wp_mono; [apply law_nonce|]. intros [n|e] x1 [Hs Hn]; [|done].
  case_bool_decide as Hm; cbn [wrap].
  - apply wp_ret. split; [done|]. intros o [= <-]. split_and!; try done. apply int64_range.
  - apply wp_bind, wp_wrapping. eapply wp_mono; [apply law_gas_price|]. intros [p|e] x2 Hs2; cbn [wrap]; [|by rewrite Hs2].
    apply wp_ret. rewrite Hs2. split; [done|]. intros o [= <-]. split_and!; try done; [apply int64_range|].
    cbn. split; [done|]. case_match; lia.
Qed.

Lemma wp_send (mk : TransactOpts -> BridgeTx) pre x :
  wp (auth ← wrapping "failed to create transactor: " (GetTransactor cfg address undefined); wrapping pre (transact (mk auth)))
    (fun r x' => (is_ok r = false /\ sent x' = sent x) \/ exists o, signed_options o /\ sent x' = sent x ++ [mk o]) x.
Proof.
  apply wp_bind, wp_wrapping. eapply wp_mono; [apply wp_GetTransactor|]. intros [o|e] x1 [Hs Ho]; cbn [wrap]; [|by left].
  apply wp_wrapping. eapply wp_mono; [apply law_transact|]. intros r x2 Hr. rewrite Hs in Hr. destruct Hr as [Hr|[Hr Hs2]].
  - right. exists o. auto.
  - left. by destruct r.
Qed.


(** GetLatestBlockNumber and DepositToCanton *)
Lemma wp_DepositToCanton token amount recipient x :
  wp (eth_DepositToCanton cfg address undefined token amount recipient) (fun r x' =>
    (is_ok r = false /\ sent x' = sent x) \/
    exists o, signed_options o /\ sent x' = sent x ++ [TxDeposit o token amount recipient]) x.
Proof. apply (wp_send (fun o => TxDeposit o _ _ _)). Qed.
End proofs.

(** ** An example node *)

(** A node that answers with fixed numbers and records what it is given. *)
Record ExNode := mkExNode { xn_sent : list BridgeTx; xn_nonce : Z; xn_price : Z; xn_processed : list (list Z) }.

#[local] Instance example_node : EthNode ExNode := {|
  PendingNonceAt _ := fun n => (Ok (uint64 (xn_nonce n)), n);
  SuggestGasPrice := fun n => (Ok (xn_price n), n);
  HeaderNumber := mret 100;
  ProcessedCantonTxs h := fun n => (Ok (bool_decide (h ∈ xn_processed n)), n);
  transact t := fun n => (Ok [xn_nonce n], mkExNode (xn_sent n ++ [t]) (xn_nonce n + 1) (xn_price n) (xn_processed n));
  sent := xn_sent;
  scanned _ := 0;
|}.

#[local] Instance example_node_laws : EthNodeLaws ExNode.
Proof.
  split; intros; unfold wp; cbn; try done; [|by left].
  split; [done|]. intros n [= <-]. apply uint64_range.
Qed.

Definition ex_eth : EthConfig := mkEthConfig 1 21000 "50".
Definition ex_withdrawal : Event :=
  mkEvent "w1" "tx1" "canton" "ethereum" "ab" "c1" "00" "1.5" "alice" "11" 0 7 false.

#[local] Existing Instance RefDecimal.lib.
#[local] Existing Instance example_geth.

