(* ===== verification/RelayerProcessor.v ===== *)
(** * Relayer processor: pkg/relayer/engine/processor.go

    The pipeline from a source's events to a destination, over any store that
    keeps the [BridgeStore] promises and any destination.  The source's stream
    is the list of events it delivers, each with the clock at its arrival. *)

From S2P Require Import Prelude AppErrors Effects GoStd RelayerStore.

(** The engine's mutable state: the store, the outside world behind the two
    bridge clients, the offsets in memory and the readiness flags. *)
Record Engine (S X : Type) := mkEngine {
  e_store : S;
  e_ext : X;
  cantonOffset : string;
  ethLastBlock : Z;
  cantonSynced : bool;
  ethereumSynced : bool;
  cantonStreamStarted : option Z;
}.
Arguments mkEngine {S X} _ _ _ _ _ _ _.
Arguments e_store {S X} _.
Arguments e_ext {S X} _.
Arguments cantonOffset {S X} _.
Arguments ethLastBlock {S X} _.
Arguments cantonSynced {S X} _.
Arguments ethereumSynced {S X} _.
Arguments cantonStreamStarted {S X} _.

Section Processor.
Context {S X : Type} `{!BridgeStore S}.
Local Abbreviation E := (Engine S X).

Definition on_store {A} (c : M S A) : M E A :=
  zoom e_store (fun s e => mkEngine s (e_ext e) (cantonOffset e) (ethLastBlock e)
    (cantonSynced e) (ethereumSynced e) (cantonStreamStarted e)) c.
Definition on_ext {A} (c : M X A) : M E A :=
  zoom e_ext (fun x e => mkEngine (e_store e) x (cantonOffset e) (ethLastBlock e)
    (cantonSynced e) (ethereumSynced e) (cantonStreamStarted e)) c.

(** Processor: the source's chain id and ExtractOffset, the destination's
    chain id and SubmitTransfer, the direction and the two callbacks. *)
Record Processor := mkProcessor {
  p_sourceChain : string;
  p_extract : Event -> string;
  p_destChain : string;
  p_submit : Event -> M X (string * bool);
  p_direction : TransferDirection;
  p_onOffsetUpdate : option (Z -> string -> string -> M E unit);
  p_onPostSubmit : option (Event -> string -> M X unit);
}.

(** The processor's run state: the engine, the last offset handed to the
    callback, and the ids of the events counted as processing errors. *)
Record ProcState := mkProcState {
  ps_engine : E;
  lastSavedOffset : string;
  ps_errors : list string;
}.

Definition on_engine {A} (c : M E A) : M ProcState A :=
  zoom ps_engine (fun e p => mkProcState e (lastSavedOffset p) (ps_errors p)) c.
Definition set_lastSavedOffset (o : string) : M ProcState unit :=
  modify (fun p => mkProcState (ps_engine p) o (ps_errors p)).
Definition count_error (id : string) : M ProcState unit :=
  modify (fun p => mkProcState (ps_engine p) (lastSavedOffset p) (ps_errors p ++ [id])).

(** persistOffset *)
Definition persistOffset (now : Z) (p : Processor) (ev : Event) : M ProcState unit :=
  match p_onOffsetUpdate p with
  | None => mret tt
  | Some update =>
      let offset := p_extract p ev in
      st ← get;
      if bool_decide (offset = ""%string) || bool_decide (offset = lastSavedOffset st) then mret tt
      else
        _ ← set_lastSavedOffset offset;
        _ ← attempt (on_engine (update now (p_sourceChain p) offset));
        mret tt
  end.

(** The transfer processEvent builds from an event. *)
Definition transfer_of (p : Processor) (ev : Event) (now : Z) : Transfer :=
  mkTransfer (ev_ID ev) (p_direction p) TransferStatusPending (p_sourceChain p) (p_destChain p)
    (ev_SourceTxHash ev) None (ev_TokenAddress ev) (ev_Amount ev) (ev_Sender ev) (ev_Recipient ev)
    (ev_Nonce ev) (ev_SourceBlockNumber ev) 0 now 0 None None.

(** processEvent *)
Definition processEvent (now : Z) (p : Processor) (ev : Event) : M ProcState unit :=
  inserted ← wrapping "failed to create transfer: "
    (on_engine (on_store (bs_create now (transfer_of p ev now))));
  if negb inserted then persistOffset now p ev
  else
    submitted ← attempt (on_engine (on_ext (p_submit p ev)));
    match submitted with
    | Err submitErr =>
        _ ← attempt (on_engine (on_store
              (bs_update now (ev_ID ev) TransferStatusPending None (Some (Error submitErr)))));
        fail (ErrWrap "submission failed: " submitErr "")
    | Ok (destTxHash, true) =>
        _ ← attempt (on_engine (on_store
              (bs_update now (ev_ID ev) TransferStatusCompleted None None)));
        persistOffset now p ev
    | Ok (destTxHash, false) =>
        _ ← attempt (on_engine (on_store
              (bs_update now (ev_ID ev) TransferStatusCompleted (Some destTxHash) None)));
        _ ← match p_onPostSubmit p with
            | Some hook => _ ← attempt (on_engine (on_ext (hook ev destTxHash))); mret tt
            | None => mret tt
            end;
        persistOffset now p ev
    end.

(** One iteration of Start's loop on an event received from the source. *)
Definition step (p : Processor) (now : Z) (ev : Event) : M ProcState unit :=
  if ev_Checkpoint ev then persistOffset now p ev
  else
    r ← attempt (processEvent now p ev);
    match r with
    | Ok _ => mret tt
    | Err _ => count_error (ev_ID ev)
    end.

(** Start, on the events the source delivers before the stream ends. *)
Definition Start (p : Processor) (evs : list (Z * Event)) : M ProcState unit :=
  for_each evs (fun '(now, ev) => step p now ev).
End Processor.

Arguments Processor : clear implicits.
Arguments ProcState : clear implicits.

(** ** Properties over any lawful store *)

Section Properties.
Context {S X : Type} `{!BridgeStore S} `{!BridgeStoreLaws S}.
Local Abbreviation E := (Engine S X).

(** What the store holds, seen from the processor's state. *)
Definition rows (st : ProcState S X) : gmap string Transfer := bs_transfers (e_store (ps_engine st)).
Definition chains (st : ProcState S X) : gmap string ChainState := bs_chains (e_store (ps_engine st)).
Definition world (st : ProcState S X) : X := e_ext (ps_engine st).

(** An offset callback that leaves transfers and the outside world alone;
    saveChainOffset of the engine is one. *)
Definition offset_frame (p : Processor S X) : Prop :=
  forall update, p_onOffsetUpdate p = Some update -> forall now c o (e : E),
    wp (update now c o) (fun _ e' =>
      bs_transfers (e_store e') = bs_transfers (e_store e) /\ e_ext e' = e_ext e) e.

Lemma persistOffset_spec now p ev st :
  offset_frame p ->
  wp (persistOffset now p ev) (fun r st' =>
    r = Ok tt /\ rows st' = rows st /\ world st' = world st /\ ps_errors st' = ps_errors st) st.
Proof.
  intros Hf. unfold persistOffset. destruct (p_onOffsetUpdate p) as [upd|] eqn:Hu; [|done].
  wp_go. destruct (_ || _); [done|]. unfold set_lastSavedOffset, on_engine. wp_go.
  eapply wp_mono; [by apply (Hf upd Hu)|]. cbn. intros r e' [H1 H2]. wp_go.
  unfold rows, world. cbn. done.
Qed.

Lemma on_store_spec {A} (c : M S A) Q (st : ProcState S X) :
  wp c (fun r s' => forall st', e_store (ps_engine st') = s' -> world st' = world st ->
    ps_errors st' = ps_errors st -> lastSavedOffset st' = lastSavedOffset st -> Q r st')
    (e_store (ps_engine st)) ->
  wp (on_engine (on_store c)) Q st.
Proof.
  intros H. unfold on_engine, on_store. wp_go. eapply wp_mono; [exact H|]. cbn.
  intros r s' HQ. by apply HQ.
Qed.

Lemma on_ext_spec {A} (c : M X A) Q (st : ProcState S X) :
  wp c (fun r x' => forall st', e_store (ps_engine st') = e_store (ps_engine st) -> world st' = x' ->
    ps_errors st' = ps_errors st -> lastSavedOffset st' = lastSavedOffset st -> Q r st')
    (world st) ->
  wp (on_engine (on_ext c)) Q st.
Proof.
  intros H. unfold on_engine, on_ext. wp_go. eapply wp_mono; [exact H|]. cbn.
  intros r s' HQ. by apply HQ.
Qed.

(** The row the store holds for an event right after its insertion. *)
Definition row_of (p : Processor S X) (ev : Event) (now : Z) : Transfer :=
  toTransferDao now (transfer_of p ev now).

(** Which row an event ends with: the inserted one, or the inserted one
    after the status update that the submission's outcome calls for. *)
Inductive final_row (p : Processor S X) (ev : Event) (now : Z) : result (string * bool) -> Transfer -> Prop :=
| final_unchanged r : final_row p ev now r (row_of p ev now)
| final_pending e : final_row p ev now (Err e)
    (set_status now TransferStatusPending None (Some (Error e)) (row_of p ev now))
| final_skipped h : final_row p ev now (Ok (h, true))
    (set_status now TransferStatusCompleted None None (row_of p ev now))
| final_completed h : final_row p ev now (Ok (h, false))
    (set_status now TransferStatusCompleted (Some h) None (row_of p ev now)).

(** The outcomes of processEvent. *)
Inductive outcome (p : Processor S X) (ev : Event) (now : Z) (st : ProcState S X)
    : result unit -> ProcState S X -> Prop :=
| (* the id was known: nothing is submitted *)
  out_known r st' :
    is_Some (rows st !! ev_ID ev) -> rows st' = rows st -> world st' = world st ->
    outcome p ev now st r st'
| (* the insert failed: nothing is submitted and no offset is persisted *)
  out_create_failed e st' :
    rows st' = rows st \/ (rows st !! ev_ID ev = None /\
                           rows st' = <[ev_ID ev := row_of p ev now]> (rows st)) ->
    world st' = world st -> chains st' = chains st -> lastSavedOffset st' = lastSavedOffset st ->
    outcome p ev now st (Err e) st'
| (* submitted once; the row is in the table; an error leaves it pending *)
  out_submitted r st' sub x row :
    rows st !! ev_ID ev = None -> p_submit p ev (world st) = (sub, x) ->
    final_row p ev now sub row -> rows st' = <[ev_ID ev := row]> (rows st) ->
    is_ok r = is_ok sub ->
    world st' = x \/ (exists hook h, p_onPostSubmit p = Some hook /\ sub = Ok (h, false) /\
                       world st' = (hook ev h x).2) ->
    (is_ok sub = false -> chains st' = chains st) ->
    outcome p ev now st r st'.

(** A status update on the freshly inserted row, whether or not it fails. *)
Lemma update_row_spec now id st0 s h m (st : ProcState S X) row0 :
  rows st = <[id := row0]> st0 ->
  wp (on_engine (on_store (bs_update now id s h m))) (fun _ st' =>
    (rows st' = <[id := row0]> st0 \/ rows st' = <[id := set_status now s h m row0]> st0) /\
    world st' = world st /\ chains st' = chains st /\ ps_errors st' = ps_errors st) st.
Proof.
  intros Hr. apply on_store_spec. eapply wp_mono; [apply law_update|].
  intros r s' [Hc Ht] st' <- Hw He _. unfold rows, chains in *. rewrite Hc.
  assert (forall f : Transfer -> Transfer, alter f id (<[id:=row0]> st0) = <[id:=f row0]> st0) as Ha.
  { intros f. apply alter_insert_same. }
  rewrite Hr in Ht. rewrite <- Ha. destruct r; naive_solver.
Qed.

Lemma processEvent_outcome now p ev st :
  offset_frame p ->
  wp (processEvent now p ev) (fun r st' => outcome p ev now st r st' /\ ps_errors st' = ps_errors st) st.
Proof.
  intros Hf. unfold processEvent. wp_go.
  apply on_store_spec. eapply wp_mono; [apply law_create|].
  intros [[]|e] s' [Hch Hcr] st1 <- Hw He Hl; cbn [wrap negb].
  - destruct Hcr as [Hnone Hins]. wp_go. apply on_ext_spec, wp_intro.
    intros sub x Hsub st2 Hs2 Hx He2 Hl2. rewrite Hw in Hsub.
    assert (rows st2 = <[ev_ID ev := row_of p ev now]> (rows st)) as Hr2.
    { unfold rows. by rewrite Hs2. }
    assert (chains st2 = chains st) as Hc2 by (unfold chains; by rewrite Hs2).
    destruct sub as [[h []]|e]; wp_go;
      (eapply wp_mono; [by apply (update_row_spec now (ev_ID ev) (rows st))|]);
      intros _ st3 (Hr3 & Hw3 & Hc3 & He3).
    + eapply wp_mono; [by apply persistOffset_spec|]. intros r st4 (-> & Hr4 & Hw4 & He4).
      split; [|congruence]. rewrite <- Hr4 in Hr3.
      destruct Hr3 as [Hr3|Hr3]; eapply out_submitted; try done; try constructor; congruence.
    + apply wp_bind. apply (wp_mono _ (fun r st4 => r = Ok tt /\ rows st4 = rows st3 /\
        ps_errors st4 = ps_errors st3 /\ (world st4 = x \/
        exists hook h', p_onPostSubmit p = Some hook /\ Ok (h, false) = Ok (h', false) /\
          world st4 = (hook ev h' x).2))).
      * destruct (p_onPostSubmit p) as [hook|] eqn:Hk; wp_go; [|naive_solver congruence].
        apply on_ext_spec, wp_intro. intros r x' Hhook st4 Hs4 Hx4 He4 _. wp_go.
        split_and!; [done|unfold rows; by rewrite Hs4|done|].
        right. exists hook, h. split_and!; [done|done|].
        rewrite Hw3, Hx in Hhook. by rewrite Hhook.
      * intros r st4 (-> & Hr4 & He4 & Hw4).
        eapply wp_mono; [by apply persistOffset_spec|]. intros r st5 (-> & Hr5 & Hw5 & He5).
        split; [|congruence]. rewrite <- Hr4, <- Hr5 in Hr3. rewrite <- Hw5 in Hw4.
        destruct Hr3 as [Hr3|Hr3]; eapply out_submitted; try done; constructor.
    + split; [|congruence].
      destruct Hr3 as [Hr3|Hr3]; eapply out_submitted; try done; try constructor; congruence.
  - destruct Hcr as [Hsome Hsame].
    eapply wp_mono; [by apply persistOffset_spec|]. intros r st2 (-> & Hr2 & Hw2 & He2).
    split; [|congruence]. apply out_known; [done| |congruence]. by rewrite Hr2.
  - split; [|done]. by apply out_create_failed.
Qed.

(** Every row the table had keeps a row. *)
Lemma outcome_rows_mono p ev now st r st' id :
  outcome p ev now st r st' -> is_Some (rows st !! id) -> is_Some (rows st' !! id).
Proof.
  intros Ho Hid. destruct Ho as [?? _ -> _|?? [->|[_ ->]] _ _ _|????? _ _ _ -> _ _ _]; try done;
    rewrite lookup_insert_is_Some'; auto.
Qed.

Lemma step_rows p now ev st id :
  offset_frame p ->
  wp (step p now ev) (fun r st' =>
    r = Ok tt /\ (is_Some (rows st !! id) -> is_Some (rows st' !! id)) /\
    (id ∈ ps_errors st -> id ∈ ps_errors st') /\
    (ev_Checkpoint ev = false -> is_Some (rows st' !! ev_ID ev) \/ ev_ID ev ∈ ps_errors st')) st.
Proof.
  intros Hf. unfold step. destruct (ev_Checkpoint ev).
  { eapply wp_mono; [by apply persistOffset_spec|]. intros r st' (-> & -> & _ & ->). done. }
  wp_go. eapply wp_mono; [by apply processEvent_outcome|]. intros [[]|e] st' [Ho He].
  - wp_go. rewrite He. split_and!; try done; [by eapply outcome_rows_mono|].
    intros _. left. inversion Ho; subst.
    + by rewrite H0.
    + rewrite H2. by rewrite lookup_insert_eq.
  - unfold count_error. wp_go. unfold rows; cbn. rewrite He. split_and!; try done.
    + by eapply outcome_rows_mono.
    + set_solver.
    + intros _. right. set_solver.
Qed.

(** No event is dropped without a trace.  Whatever fails (the store, the
    destination, the hook), after the processor consumed a stream every
    transfer event of it either has a row in the transfers table or was
    counted as a processing error, and no row that existed disappeared. *)
Theorem Start_records p evs st :
  offset_frame p ->
  wp (Start p evs) (fun r st' => r = Ok tt /\
    (forall id, is_Some (rows st !! id) -> is_Some (rows st' !! id)) /\
    (forall now ev, (now, ev) ∈ evs -> ev_Checkpoint ev = false ->
       is_Some (rows st' !! ev_ID ev) \/ ev_ID ev ∈ ps_errors st')) st.
Proof.
  intros Hf.
  enough (wp (Start p evs) (fun r st' => r = Ok tt /\
    (forall id, is_Some (rows st !! id) -> is_Some (rows st' !! id)) /\
    (forall id, id ∈ ps_errors st -> id ∈ ps_errors st') /\
    (forall now ev, (now, ev) ∈ evs -> ev_Checkpoint ev = false ->
       is_Some (rows st' !! ev_ID ev) \/ ev_ID ev ∈ ps_errors st')) st) as Hwp.
  { eapply wp_mono; [exact Hwp|]. naive_solver. }
  unfold Start. revert st. induction evs as [|[now ev] evs IH]; intros st; cbn [for_each].
  { wp_go. split_and!; try done. intros ?? Hin. by apply not_elem_of_nil in Hin. }
  wp_go. apply wp_intro. intros r st1 Hrun.
  pose proof (fun id => wp_run _ _ _ _ _ (step_rows p now ev st id Hf) Hrun) as Hstep.
  destruct (Hstep (ev_ID ev)) as [-> _].
  eapply wp_mono; [apply IH|]. intros r st2 (-> & Hm2 & He2 & Hr2).
  split_and!; [done| | |].
  - intros id Hid. apply Hm2. by apply (Hstep id).
  - intros id Hid. apply He2. by apply (Hstep id).
  - intros now' ev' Hin Hcp. apply elem_of_cons in Hin as [[= -> ->]|Hin]; [|by eapply Hr2].
    destruct (Hstep (ev_ID ev)) as (_ & _ & _ & [Hs|Hs]); auto.
Qed.

Section Once.
(** A record, in the outside world, of the ids submitted to the
    destination; SubmitTransfer adds one entry per call, the hook none. *)
Variable submitted : X -> list string.
Variable p : Processor S X.
Hypothesis frame : offset_frame p.
Hypothesis submit_logs : forall ev x,
  wp (p_submit p ev) (fun _ x' => submitted x' = submitted x ++ [ev_ID ev]) x.
Hypothesis hook_silent : forall hook ev h x, p_onPostSubmit p = Some hook ->
  wp (hook ev h) (fun _ x' => submitted x' = submitted x) x.

Definition once_inv (st : ProcState S X) : Prop :=
  NoDup (submitted (world st)) /\
  forall id, id ∈ submitted (world st) -> is_Some (rows st !! id).

Lemma outcome_once ev now st r st' : once_inv st -> outcome p ev now st r st' -> once_inv st'.
Proof.
  intros [Hnd Hin] Ho. assert (forall id, is_Some (rows st !! id) -> is_Some (rows st' !! id)) as Hm
    by (intros id; by eapply outcome_rows_mono).
  destruct Ho as [r' st' _ _ Hw|e st' _ Hw _ _|r' st' sub x row Hnone Hsub _ Hrows _ Hw _];
    unfold once_inv; try (rewrite Hw; by eauto).
  assert (submitted (world st') = submitted (world st) ++ [ev_ID ev]) as ->.
  { pose proof (wp_run _ _ _ _ _ (submit_logs ev (world st)) Hsub) as Hx. cbn in Hx.
    destruct Hw as [->|(hook & h & Hhook & _ & ->)]; [done|].
    pose proof (hook_silent hook ev h x Hhook) as Hs. unfold wp in Hs.
    destruct (hook ev h x). cbn. by rewrite Hs. }
  split.
  - apply NoDup_app. split_and!; [done| |apply NoDup_singleton].
    intros id Hid Hid'. apply list_elem_of_singleton in Hid' as ->.
    destruct (Hin _ Hid) as [? Hsome]. by rewrite Hsome in Hnone.
  - intros id Hid. apply elem_of_app in Hid as [Hid|Hid]; [by eauto|].
    apply list_elem_of_singleton in Hid as ->. rewrite Hrows, lookup_insert_eq. done.
Qed.

(** C1: exactly-once submission by the stream processor.  Whatever events
    the source delivers or redelivers (reconnects, restarts, duplicates)
    and whatever fails, the processor never calls SubmitTransfer twice for
    the same transfer ID, and every submitted ID has its row. *)
Theorem Start_submits_once evs st :
  once_inv st -> wp (Start p evs) (fun _ st' => once_inv st') st.
Proof.
  intros Hst. unfold Start. apply wp_for_each; [done|].
  intros [now ev] st1 _ Hst1. unfold step. destruct (ev_Checkpoint ev).
  - eapply wp_mono; [by apply persistOffset_spec|].
    intros r st2 (_ & Hr & Hw & _). unfold once_inv. by rewrite Hw, Hr.
  - wp_go. eapply wp_mono; [by apply processEvent_outcome|].
    intros r st2 [Ho _]. pose proof (outcome_once _ _ _ _ _ Hst1 Ho) as H2.
    destruct r as [[]|e]; [done|]. unfold count_error. by wp_go.
Qed.
End Once.
End Properties.

(** ** Witnesses: a destination that records its submissions *)

Definition ex_submit (ev : Event) : M (list string) (string * bool) := fun x =>
  (if bool_decide (ev_Amount ev = ""%string) then Err (ErrNew "invalid amount")
   else Ok ("0xabc"%string, false), x ++ [ev_ID ev]).

Definition ex_processor : Processor RelayerDB (list string) :=
  mkProcessor "ethereum" (fun ev => FormatUint (ev_SourceBlockNumber ev)) "canton" ex_submit
    DirectionEthereumToCanton None None.

Definition ex_event (id : string) (blk : Z) : Event :=
  mkEvent id id ChainEthereum ChainCanton "0x1" "" "0xt" "100" "0xs" "fp" 0 blk false.

Definition ex_state (fs : list (option string)) : ProcState RelayerDB (list string) :=
  mkProcState (mkEngine (mkDB (mkRelayerTables ∅ ∅) fs) [] "" 0 false false None) "" [].

Definition ex_stream : list (Z * Event) :=
  [(1, ex_event "a" 5); (2, ex_event "b" 6); (3, ex_event "a" 5)].

Lemma ex_frame : offset_frame ex_processor.
Proof. intros ? [=]. Qed.

Lemma Start_records_witness :
  ps_errors (Start ex_processor ex_stream (ex_state [Some "db down"%string])).2 = ["a"%string] /\
  wp (Start ex_processor ex_stream) (fun r st' => r = Ok tt /\
    (forall id, is_Some (rows (ex_state [Some "db down"%string]) !! id) -> is_Some (rows st' !! id)) /\
    (forall now ev, (now, ev) ∈ ex_stream -> ev_Checkpoint ev = false ->
       is_Some (rows st' !! ev_ID ev) \/ ev_ID ev ∈ ps_errors st')) (ex_state [Some "db down"%string]).
Proof.
  split; [vm_compute; reflexivity|]. apply (Start_records ex_processor), ex_frame.
Defined.

Lemma Start_submits_once_witness :
  world (Start ex_processor ex_stream (ex_state [])).2 = ["a"; "b"]%string /\
  wp (Start ex_processor ex_stream) (fun _ st' => once_inv id st') (ex_state []).
Proof.
  split; [vm_compute; reflexivity|].
  apply (Start_submits_once id ex_processor ex_frame).
  - intros ev x. unfold wp, ex_submit. done.
  - intros hook ev h x [=].
  - split; [apply NoDup_nil_2|]. intros i Hi. by apply not_elem_of_nil in Hi.
Defined.
