(* ===== verification/RelayerEngine.v ===== *)
(** * Relayer engine: pkg/relayer/engine/engine.go

    Offsets loaded at start and saved after events, the restart backoff of the
    Canton processor, reconciliation of stuck transfers, and readiness; and
    the two processors the engine wires together. *)

From S2P Require Import Prelude AppErrors Effects GoStd EthClient RelayerStore Decimal RelayerChains RelayerProcessor.

(** The settings of relayer.Config the engine reads. *)
Record Config := mkConfig {
  MaxRetries : Z;
  RetryDelay : Z;
  CantonChainID : string;
  CantonStartBlock : Z;
  CantonLookback : Z;
  EthChainID : string;
  EthStartBlock : Z;
  EthLookbackBlocks : Z;
  EthTokenContract : string;
}.

Definition stuckTransferThreshold : Z := 15 * Minute.
Definition cantonProcessorRestartInitialBackoff : Z := 1 * Second.
Definition cantonProcessorRestartMaxBackoff : Z := 30 * Second.

Definition nextCantonProcessorBackoff (current : Z) : Z :=
  if current <=? 0 then cantonProcessorRestartInitialBackoff
  else
    let next := int64 (current * 2) in
    if cantonProcessorRestartMaxBackoff <? next then cantonProcessorRestartMaxBackoff else next.

Section Engine.
Context {S X : Type} `{!BridgeStore S} `{!CantonBridge X} `{!EthereumBridge X}.
Local Abbreviation E := (Engine S X).

Definition set_cantonOffset (o : string) : M E unit := modify (fun e =>
  mkEngine (e_store e) (e_ext e) o (ethLastBlock e) (cantonSynced e) (ethereumSynced e) (cantonStreamStarted e)).
Definition set_ethLastBlock (n : Z) : M E unit := modify (fun e =>
  mkEngine (e_store e) (e_ext e) (cantonOffset e) n (cantonSynced e) (ethereumSynced e) (cantonStreamStarted e)).
Definition mark_canton : M E unit := modify (fun e =>
  mkEngine (e_store e) (e_ext e) (cantonOffset e) (ethLastBlock e) true (ethereumSynced e) (cantonStreamStarted e)).
Definition mark_ethereum : M E unit := modify (fun e =>
  mkEngine (e_store e) (e_ext e) (cantonOffset e) (ethLastBlock e) (cantonSynced e) true (cantonStreamStarted e)).
Definition set_streamStarted (now : Z) : M E unit := modify (fun e =>
  mkEngine (e_store e) (e_ext e) (cantonOffset e) (ethLastBlock e) (cantonSynced e) (ethereumSynced e) (Some now)).

Definition IsReady (e : E) : bool := cantonSynced e && ethereumSynced e.

Variable cfg : Config.

(** ** Loading offsets *)

Definition safeCantonOffset (ledgerEnd : Z) : string :=
  let lookback := if CantonLookback cfg <=? 0 then 1 else CantonLookback cfg in
  if ledgerEnd <=? lookback then OffsetBegin else FormatInt (int64 (ledgerEnd - lookback)).

Definition validateStoredCantonOffset (now : Z) (storedOffset : string) : M E unit :=
  r ← attempt (on_ext GetLatestLedgerOffset);
  match r with
  | Err _ => set_cantonOffset storedOffset
  | Ok ledgerEnd =>
      match ParseInt storedOffset with
      | Err _ => set_cantonOffset storedOffset
      | Ok storedNum =>
          if storedNum <=? ledgerEnd then set_cantonOffset storedOffset
          else
            let safeOffset := safeCantonOffset ledgerEnd in
            _ ← set_cantonOffset safeOffset;
            wrapping "persist corrected Canton offset: "
              (on_store (bs_set_chain now (CantonChainID cfg) 0 safeOffset))
      end
  end.

Definition cantonOffsetFromLedgerEnd : M E unit :=
  r ← attempt (on_ext GetLatestLedgerOffset);
  match r with
  | Err _ => set_cantonOffset OffsetBegin
  | Ok ledgerEnd =>
      if ledgerEnd =? 0 then set_cantonOffset OffsetBegin
      else if CantonLookback cfg <=? 0 then set_cantonOffset (FormatInt ledgerEnd)
      else set_cantonOffset (safeCantonOffset ledgerEnd)
  end.

Definition loadCantonOffset (now : Z) : M E unit :=
  state ← wrapping "get canton chain state: " (on_store (bs_get_chain (CantonChainID cfg)));
  match state with
  | Some cs => validateStoredCantonOffset now (cs_Offset cs)
  | None =>
      if 0 <? CantonStartBlock cfg then set_cantonOffset (FormatUint (CantonStartBlock cfg))
      else cantonOffsetFromLedgerEnd
  end.

Definition ethBlockFromChainHead : M E unit :=
  let lookback := EthLookbackBlocks cfg in
  if lookback <=? 0 then set_ethLastBlock 0
  else
    r ← attempt (on_ext GetLatestBlockNumber);
    match r with
    | Err _ => set_ethLastBlock (EthStartBlock cfg)
    | Ok headBlock =>
        if headBlock <=? uint64 lookback then set_ethLastBlock 0
        else set_ethLastBlock (uint64 (headBlock - uint64 lookback))
    end.

Definition loadEthereumOffset : M E unit :=
  state ← wrapping "get ethereum chain state: " (on_store (bs_get_chain (EthChainID cfg)));
  match state with
  | Some cs =>
      _ ← set_ethLastBlock (cs_LastBlock cs);
      if cs_LastBlock cs <? EthStartBlock cfg then set_ethLastBlock (EthStartBlock cfg) else mret tt
  | None =>
      if 0 <? EthStartBlock cfg then set_ethLastBlock (EthStartBlock cfg)
      else ethBlockFromChainHead
  end.

Definition loadOffsets (now : Z) : M E unit :=
  _ ← loadCantonOffset now;
  loadEthereumOffset.

(** ** Saving offsets: the database first, memory only when it succeeded *)
Definition saveChainOffset (now : Z) (chainID offset : string) : M E unit :=
  blockNumber ←
    (if bool_decide (chainID = EthChainID cfg) then
       match ParseUint offset with
       | Ok n => mret n
       | Err e => fail (ErrWrap ("invalid ethereum offset " +:+ quoted offset +:+ ": ") e "")
       end
     else mret 0);
  _ ← wrapping ("save chain state for " +:+ chainID +:+ ": ")
        (on_store (bs_set_chain now chainID blockNumber offset));
  if bool_decide (chainID = EthChainID cfg) then set_ethLastBlock blockNumber
  else set_cantonOffset offset.

(** ** Reconciliation *)

(** The event retryStuckTransfer rebuilds from a row. *)
Definition event_of_transfer (t : Transfer) : Event :=
  mkEvent (t_ID t) "" (t_SourceChain t) (t_DestinationChain t) (t_SourceTxHash t) ""
    (t_TokenAddress t) (t_Amount t) (t_Sender t) (t_Recipient t) (t_Nonce t)
    (t_SourceBlockNumber t) false.

Definition retryStuckTransfer (now : Z) (t : Transfer) (dest : option (Event -> M X (string * bool)))
    : M E unit :=
  match dest with
  | None => mret tt
  | Some submit =>
      r ← attempt (on_ext (submit (event_of_transfer t)));
      match r with
      | Err _ => _ ← attempt (on_store (bs_retry now (t_ID t))); mret tt
      | Ok (destTxHash, skipped) =>
          let txHashPtr := if (skipped : bool) then None else Some (destTxHash : string) in
          _ ← attempt (on_store (bs_update now (t_ID t) TransferStatusCompleted txHashPtr None));
          mret tt
      end
  end.

Definition maybeRetryTransfer (now : Z) (t : Transfer) (dest : option (Event -> M X (string * bool)))
    (maxRetries retryDelay : Z) : M E unit :=
  if (0 <? maxRetries) && (maxRetries <=? t_RetryCount t) then
    _ ← attempt (on_store (bs_update now (t_ID t) TransferStatusFailed None
          (Some ("max retries (" +:+ FormatInt maxRetries +:+ ") exceeded")%string)));
    mret tt
  else if now <? t_UpdatedAt t + retryDelay then mret tt
  else retryStuckTransfer now t dest.

Definition runReconciliation (now : Z) (ethDest cantonDest : option (Event -> M X (string * bool)))
    : M E unit :=
  cantonPending ← wrapping "get pending canton transfers: "
    (on_store (bs_pending DirectionCantonToEthereum));
  ethPending ← wrapping "get pending ethereum transfers: "
    (on_store (bs_pending DirectionEthereumToCanton));
  let maxRetries := MaxRetries cfg in
  let retryDelay := if RetryDelay cfg <=? 0 then stuckTransferThreshold else RetryDelay cfg in
  _ ← for_each cantonPending (fun t => maybeRetryTransfer now t ethDest maxRetries retryDelay);
  for_each ethPending (fun t => maybeRetryTransfer now t cantonDest maxRetries retryDelay).

(** ** Readiness *)

Definition checkEthereumReadiness : M E unit :=
  r ← attempt (on_ext GetLatestBlockNumber);
  match r with
  | Err _ => mret tt
  | Ok headBlock =>
      e ← get;
      if ethereumSynced e then mret tt
      else
        let lastProcessed := Z.max (ethLastBlock e) (GetLastScannedBlock (e_ext e)) in
        if headBlock <=? uint64 (lastProcessed + 1) then mark_ethereum else mret tt
  end.

Definition streamGracePeriod : Z := 10 * Second.

Definition checkCantonReadiness (now : Z) : M E unit :=
  r ← attempt (on_ext GetLatestLedgerOffset);
  match r with
  | Err _ => mret tt
  | Ok ledgerEnd =>
      e ← get;
      if cantonSynced e then mret tt
      else if bool_decide (cantonOffset e = ""%string) || bool_decide (cantonOffset e = FormatInt ledgerEnd)
      then mark_canton
      else if bool_decide (cantonOffset e = OffsetBegin) then mark_canton
      else
        match ParseInt (cantonOffset e) with
        | Err _ => mret tt
        | Ok currentOffset =>
            if ledgerEnd <=? currentOffset then mark_canton
            else
              match cantonStreamStarted e with
              | Some started => if streamGracePeriod <=? now - started then mark_canton else mret tt
              | None => mret tt
              end
        end
  end.

Definition checkReadiness (now : Z) : M E unit :=
  _ ← checkEthereumReadiness;
  checkCantonReadiness now.

(** ** The processors Start wires together *)

Context `{!GoEthereum} `{!DecimalLib}.

(** The post-submit hook of the Canton processor: complete the withdrawal on
    Canton, best effort. *)
Definition completeWithdrawal (ev : Event) (destTxHash : string) : M X unit :=
  if bool_decide (ev_SourceContractID ev = ""%string) then mret tt
  else _ ← attempt (CompleteWithdrawal (ev_SourceContractID ev) destTxHash); mret tt.

Definition cantonProcessor : Processor S X :=
  mkProcessor (CantonChainID cfg) cantonSource_ExtractOffset (EthChainID cfg)
    EthereumDestination_SubmitTransfer DirectionCantonToEthereum
    (Some saveChainOffset) (Some completeWithdrawal).

Definition ethProcessor : Processor S X :=
  mkProcessor (EthChainID cfg) ethereumSource_ExtractOffset (CantonChainID cfg)
    CantonDestination_SubmitTransfer DirectionEthereumToCanton
    (Some saveChainOffset) None.

(** runCantonProcessorLoop: one entry per run of the processor, with the
    clock and the events the source delivers from a start offset; the waits
    between the runs are collected.  The list ends when ctx is canceled. *)
Fixpoint runCantonProcessorLoop (runs : list (Z * (string -> list (Z * Event)))) (backoff : Z)
    (last : string) (waits : list Z) : M E (list Z) :=
  match runs with
  | [] => mret waits
  | (now, stream) :: runs =>
      _ ← set_streamStarted now;
      e ← get;
      '(last', _) ← (fun e0 : E =>
        let '(_, st) := Start cantonProcessor (stream (cantonOffset e))
                          (mkProcState e0 last []) in
        (Ok (lastSavedOffset st, tt), ps_engine st));
      runCantonProcessorLoop runs (nextCantonProcessorBackoff backoff) last' (waits ++ [backoff])
  end.
End Engine.
