(* ===== verification/RelayerEngineProofs.v ===== *)
(** * Properties of the relayer engine

    Theorems about engine.go over any lawful store: restart backoff, offsets
    across restarts, reconciliation and readiness. *)

From S2P Require Import Prelude AppErrors Effects GoStd EthClient RelayerStore Decimal RelayerChains RelayerProcessor RelayerEngine.

(** ** The restart backoff *)

Definition backoff_at (k : nat) : Z :=
  Nat.iter k nextCantonProcessorBackoff cantonProcessorRestartInitialBackoff.

(** Doubling below the cap cannot overflow. *)
Lemma nextCantonProcessorBackoff_eq c :
  0 < c <= cantonProcessorRestartMaxBackoff ->
  nextCantonProcessorBackoff c = Z.min (2 * c) cantonProcessorRestartMaxBackoff.
Proof.
  unfold nextCantonProcessorBackoff, cantonProcessorRestartMaxBackoff, Second. intros Hc.
  destruct (Z.leb_spec c 0); [lia|]. rewrite int64_id by int_lia.
  destruct (Z.ltb_spec (30 * 1000000000) (c * 2)); lia.
Qed.

(** The k-th wait is min(2^k, 30) seconds. *)
Lemma backoff_at_eq k : backoff_at k = Z.min (2 ^ Z.of_nat k * Second) cantonProcessorRestartMaxBackoff.
Proof.
  induction k as [|k IH]; [reflexivity|].
  change (backoff_at (S k)) with (nextCantonProcessorBackoff (backoff_at k)). rewrite IH.
  assert (0 < 2 ^ Z.of_nat k) by (apply Z.pow_pos_nonneg; lia).
  unfold cantonProcessorRestartMaxBackoff, Second in *.
  rewrite nextCantonProcessorBackoff_eq by (unfold cantonProcessorRestartMaxBackoff, Second; lia).
  unfold cantonProcessorRestartMaxBackoff, Second.
  rewrite Nat2Z.inj_succ, Z.pow_succ_r by lia. lia.
Qed.

Section Loop.
Context {S X : Type} `{!BridgeStore S} `{!CantonBridge X} `{!EthereumBridge X}
  `{!GoEthereum} `{!DecimalLib}.

Lemma loop_waits cfg runs k last ws (e : Engine S X) :
  (runCantonProcessorLoop cfg runs (backoff_at k) last ws e).1 =
    Ok (ws ++ (backoff_at <$> seq k (length runs))).
Proof.
  revert k last ws e. induction runs as [|[now stream] runs IH]; intros k last ws e.
  { cbn. by rewrite app_nil_r. }
  cbn [runCantonProcessorLoop]. unfold mbind at 1, M_bind at 1, set_streamStarted, modify.
  unfold mbind at 1, M_bind at 1, get. unfold mbind at 1, M_bind at 1.
  destruct (Start _ _ _) as [r st]. cbn [fst snd].
  change (nextCantonProcessorBackoff (backoff_at k)) with (backoff_at (Datatypes.S k)).
  rewrite IH. cbn. by rewrite <- app_assoc.
Qed.

(** However often and however the Canton processor stops, the waits
    between its restarts are 1s, 2s, 4s, ... capped at 30s: the n-th wait is
    min(2^n, 30) seconds, with no overflow. *)
Theorem runCantonProcessorLoop_waits cfg runs (e : Engine S X) :
  (runCantonProcessorLoop cfg runs cantonProcessorRestartInitialBackoff "" [] e).1 =
    Ok ((fun k => Z.min (2 ^ Z.of_nat k * Second) (30 * Second)) <$> seq 0 (length runs)).
Proof.
  rewrite (loop_waits cfg runs 0). cbn [app]. f_equal. apply list_fmap_ext.
  intros ?? _. apply backoff_at_eq.
Qed.
End Loop.

(** ** Offsets *)

Section Offsets.
Context {S X : Type} `{!BridgeStore S} `{!BridgeStoreLaws S} `{!CantonBridge X} `{!EthereumBridge X}.
Local Abbreviation E := (Engine S X).
Variable cfg : Config.

Lemma wp_on_store {A} (c : M S A) Q (e : E) :
  wp c (fun r s => Q r (mkEngine s (e_ext e) (cantonOffset e) (ethLastBlock e)
    (cantonSynced e) (ethereumSynced e) (cantonStreamStarted e))) (e_store e) ->
  wp (on_store c) Q e.
Proof. intros. by apply wp_zoom. Qed.

Lemma wp_on_ext {A} (c : M X A) Q (e : E) :
  wp c (fun r x => Q r (mkEngine (e_store e) x (cantonOffset e) (ethLastBlock e)
    (cantonSynced e) (ethereumSynced e) (cantonStreamStarted e))) (e_ext e) ->
  wp (on_ext c) Q e.
Proof. intros. by apply wp_zoom. Qed.

(** The offset saveChainOffset records for a chain. *)
Definition offset_block (chainID offset : string) : result Z :=
  if bool_decide (chainID = EthChainID cfg) then ParseUint offset else Ok 0.

Lemma saveChainOffset_spec now c o (e : E) :
  wp (saveChainOffset cfg now c o) (fun r e' =>
    bs_transfers (e_store e') = bs_transfers (e_store e) /\ e_ext e' = e_ext e /\
    match r with
    | Ok _ => exists n, offset_block c o = Ok n /\
        bs_chains (e_store e') = <[c := mkChainState c n o now]> (bs_chains (e_store e)) /\
        (if decide (c = EthChainID cfg)
         then ethLastBlock e' = n /\ cantonOffset e' = cantonOffset e
         else cantonOffset e' = o /\ ethLastBlock e' = ethLastBlock e)
    | Err _ => bs_chains (e_store e') = bs_chains (e_store e) /\
        cantonOffset e' = cantonOffset e /\ ethLastBlock e' = ethLastBlock e
    end) e.
Proof.
  unfold saveChainOffset, offset_block, set_ethLastBlock, set_cantonOffset.
  destruct (decide (c = EthChainID cfg)) as [Hc|Hc].
  - rewrite bool_decide_true by done. destruct (ParseUint o) as [n|err]; wp_go; [|naive_solver].
    apply wp_on_store. eapply wp_mono; [apply law_set_chain|].
    intros [[]|err] s' [Ht Hcs]; cbn; wp_go; cbn; naive_solver.
  - rewrite bool_decide_false by done. wp_go.
    apply wp_on_store. eapply wp_mono; [apply law_set_chain|].
    intros [[]|err] s' [Ht Hcs]; cbn; wp_go; cbn; naive_solver.
Qed.

(** saveChainOffset is a legitimate offset callback for the processor. *)
Lemma engine_offset_frame `{!GoEthereum} `{!DecimalLib} :
  offset_frame (cantonProcessor (S := S) (X := X) cfg) /\
  offset_frame (ethProcessor (S := S) (X := X) cfg).
Proof.
  split; intros upd [= <-] now c o e;
    (eapply wp_mono; [apply saveChainOffset_spec|]); naive_solver.
Qed.

(** With a stored state, the later of the stored and the configured block. *)
Lemma loadEthereumOffset_stored (e : E) :
  wp (loadEthereumOffset cfg) (fun r e' =>
    match r, bs_chains (e_store e) !! EthChainID cfg with
    | Ok _, Some cs => ethLastBlock e' = Z.max (cs_LastBlock cs) (EthStartBlock cfg)
    | _, _ => True
    end) e.
Proof.
  unfold loadEthereumOffset, set_ethLastBlock. wp_go.
  apply wp_on_store. eapply wp_mono; [apply law_get_chain|]. cbn.
  intros [o|err] s' (_ & _ & Hr); cbn; [|done].
  destruct o as [cs|]; rewrite <- Hr; [|by apply wp_intro; intros []].
  wp_go. destruct (Z.ltb_spec (cs_LastBlock cs) (EthStartBlock cfg)); wp_go; cbn; lia.
Qed.

(** Offsets survive a restart.  When saveChainOffset succeeds for the
    Ethereum chain, the block it puts in memory is the number it wrote to
    the database, and an engine restarted on that database resumes from it,
    or from the configured start block when that is ahead: a restart never
    rewinds. *)
Theorem ethereum_offset_restart now offset (e e1 : E) s2 e2 :
  saveChainOffset cfg now (EthChainID cfg) offset e = (Ok tt, e1) ->
  bs_chains s2 = bs_chains (e_store e1) ->
  loadEthereumOffset cfg (mkEngine s2 (e_ext e1) "" 0 false false None) = (Ok tt, e2) ->
  ParseUint offset = Ok (ethLastBlock e1) /\
  ethLastBlock e2 = Z.max (ethLastBlock e1) (EthStartBlock cfg).
Proof.
  intros Hsave Hs2 Hload.
  pose proof (wp_run _ _ _ _ _ (saveChainOffset_spec now (EthChainID cfg) offset e) Hsave)
    as (_ & _ & n & Hn & Hc & Hm).
  unfold offset_block in Hn. rewrite bool_decide_true in Hn by done.
  rewrite decide_True in Hm by done. destruct Hm as [Hm _]. split; [congruence|].
  pose proof (wp_run _ _ _ _ _ (loadEthereumOffset_stored _) Hload) as Hl. cbn in Hl.
  rewrite Hs2, Hc, lookup_insert_eq in Hl. cbn in Hl. by rewrite Hm.
Qed.

Lemma safeCantonOffset_spec le :
  0 <= le <= max_int64 ->
  safeCantonOffset cfg le = OffsetBegin \/
  exists n, safeCantonOffset cfg le = FormatInt n /\ 0 < n < le /\ ParseInt (FormatInt n) = Ok n.
Proof.
  intros Hle. unfold safeCantonOffset.
  set (lb := if CantonLookback cfg <=? 0 then 1 else CantonLookback cfg).
  assert (0 < lb) by (subst lb; destruct (Z.leb_spec (CantonLookback cfg) 0); lia).
  destruct (Z.leb_spec le lb); [by left|right].
  rewrite int64_id by int_lia. exists (le - lb). split_and!; try lia; [done|].
  apply ParseInt_FormatInt. int_lia.
Qed.

(** A stored Canton offset that is ahead of the ledger (a reset ledger)
    is never used: after loading, the offset the stream starts from is not
    beyond the ledger end, unless it is not a number at all (BEGIN, or the
    stored text as it is); and a correction is persisted before it is used. *)
Theorem loadCantonOffset_not_ahead now cs le x (e : E) :
  GetLatestLedgerOffset (e_ext e) = (Ok le, x) -> 0 <= le <= max_int64 ->
  bs_chains (e_store e) !! CantonChainID cfg = Some cs ->
  wp (loadCantonOffset cfg now) (fun r e' => r = Ok tt ->
    match ParseInt (cantonOffset e') with
    | Ok n => n <= le
    | Err _ => cantonOffset e' = OffsetBegin \/ cantonOffset e' = cs_Offset cs
    end /\
    (cantonOffset e' = cs_Offset cs \/
     bs_chains (e_store e') !! CantonChainID cfg =
       Some (mkChainState (CantonChainID cfg) 0 (cantonOffset e') now))) e.
Proof.
  intros Hl Hle Hcs. unfold loadCantonOffset, validateStoredCantonOffset, set_cantonOffset. wp_go.
  apply wp_on_store. eapply wp_mono; [apply law_get_chain|]. cbn.
  intros [o|err] s' (_ & Hch & Hr); cbn; [|done]. rewrite Hr, Hcs. wp_go.
  apply wp_on_ext, wp_intro. cbn. intros r x' Hx. rewrite Hl in Hx. simplify_eq. cbn.
  destruct (ParseInt (cs_Offset cs)) as [n|err] eqn:Hp; cbn; [|wp_go; cbn; rewrite Hp; auto].
  destruct (Z.leb_spec n le); cbn; wp_go; cbn; [rewrite Hp; auto|].
  apply wp_on_store. eapply wp_mono; [apply law_set_chain|]. cbn.
  intros [[]|err] s2 [_ Hs2] Hok; [|done]. cbn.
  split; [|right; by rewrite Hs2, lookup_insert_eq].
  destruct (safeCantonOffset_spec le Hle) as [->|(m & -> & Hm & ->)]; [by left|lia].
Qed.

(** The reasons for which the Canton side counts as caught up. *)
Definition canton_caught_up (now ledgerEnd : Z) (e : E) : Prop :=
  cantonOffset e = ""%string \/ cantonOffset e = OffsetBegin \/ cantonOffset e = FormatInt ledgerEnd \/
  exists n, ParseInt (cantonOffset e) = Ok n /\
    (ledgerEnd <= n \/
     exists started, cantonStreamStarted e = Some started /\ streamGracePeriod <= now - started).

(** What a readiness check leaves alone. *)
Definition same_progress (e e' : E) : Prop :=
  e_store e' = e_store e /\ cantonOffset e' = cantonOffset e /\
  ethLastBlock e' = ethLastBlock e /\ cantonStreamStarted e' = cantonStreamStarted e.

Lemma checkEthereumReadiness_spec (e : E) :
  wp checkEthereumReadiness (fun r e' => r = Ok tt /\ same_progress e e' /\
    cantonSynced e' = cantonSynced e /\ (ethereumSynced e = true -> ethereumSynced e' = true) /\
    (ethereumSynced e' = true -> ethereumSynced e = true \/
      exists head x, GetLatestBlockNumber (e_ext e) = (Ok head, x) /\
        head <= uint64 (Z.max (ethLastBlock e) (GetLastScannedBlock x) + 1))) e.
Proof.
  unfold checkEthereumReadiness, mark_ethereum, same_progress. wp_go. apply wp_on_ext, wp_intro.
  intros [head|err] x Hx; wp_go; [|cbn; naive_solver]. cbn.
  destruct (ethereumSynced e) eqn:Hs; [wp_go; cbn; split_and!; auto|].
  destruct (Z.leb_spec head (uint64 (ethLastBlock e `max` GetLastScannedBlock x + 1)));
    wp_go; cbn; split_and!; try done; auto. intros _. right. eauto.
Qed.

Lemma checkCantonReadiness_spec now (e : E) :
  wp (checkCantonReadiness now) (fun r e' => r = Ok tt /\ same_progress e e' /\
    ethereumSynced e' = ethereumSynced e /\ (cantonSynced e = true -> cantonSynced e' = true) /\
    (cantonSynced e' = true -> cantonSynced e = true \/
      exists le x, GetLatestLedgerOffset (e_ext e) = (Ok le, x) /\ canton_caught_up now le e)) e.
Proof.
  unfold checkCantonReadiness, mark_canton, same_progress, canton_caught_up. wp_go.
  apply wp_on_ext, wp_intro. intros [le|err] x Hx; wp_go; [|cbn; naive_solver]. cbn.
  repeat case_match; wp_go; cbn; split_and!; try done; try congruence; auto; intros _; right;
    exists le, x; (split; [done|]);
    repeat match goal with
    | H : (_ || _) = true |- _ => apply orb_true_iff in H
    | H : bool_decide _ = true \/ _ |- _ => destruct H as [H|H]
    | H : bool_decide _ = true |- _ => apply bool_decide_eq_true in H
    | H : (_ <=? _) = true |- _ => apply Z.leb_le in H
    end; eauto 10.
Qed.

(** Readiness only turns on, and only for a reason: a check changes
    neither the store nor the offsets, a flag that is set stays set, the
    Ethereum flag turns on only when the scanned position plus one block
    reaches the head it read, and the Canton flag only when the offset is
    unset, BEGIN or at the ledger end it read, or the stream has run for the
    grace period. *)
Theorem checkReadiness_justified now (e : E) :
  wp (checkReadiness now) (fun r e' =>
    r = Ok tt /\ same_progress e e' /\
    (cantonSynced e = true -> cantonSynced e' = true) /\
    (ethereumSynced e = true -> ethereumSynced e' = true) /\
    (IsReady e = true -> IsReady e' = true) /\
    (ethereumSynced e' = true -> ethereumSynced e = true \/
      exists head x, GetLatestBlockNumber (e_ext e) = (Ok head, x) /\
        head <= uint64 (Z.max (ethLastBlock e) (GetLastScannedBlock x) + 1)) /\
    (cantonSynced e' = true -> cantonSynced e = true \/
      exists le x x', GetLatestLedgerOffset x = (Ok le, x') /\ canton_caught_up now le e)) e.
Proof.
  unfold checkReadiness. apply wp_bind. eapply wp_mono; [apply checkEthereumReadiness_spec|].
  cbn beta. intros r e1 (-> & (Hs & Hco & Hel & Hst) & Hcs & Hes & Hj).
  eapply wp_mono; [apply checkCantonReadiness_spec|].
  cbn beta. intros r e2 (-> & (Hs2 & Hco2 & Hel2 & Hst2) & Hes2 & Hcs2 & Hj2).
  unfold IsReady, same_progress. rewrite !andb_true_iff, Hes2, <- Hcs.
  split_and!; try congruence; [auto|auto|intros []; auto|auto|].
  intros Hsync. destruct (Hj2 Hsync) as [?|(le & x & Hx & Hc)]; [by left|]. right.
  exists le, (e_ext e1), x. split; [done|]. unfold canton_caught_up in *. by rewrite <- Hco, <- Hst.
Qed.
End Offsets.

(** ** Reconciliation *)

Section Reconcile.
Context {S X : Type} `{!BridgeStore S} `{!BridgeStoreLaws S}.
Local Abbreviation E := (Engine S X).
Local Abbreviation Dest := (option (Event -> M X (string * bool))).
Variables (cfg : Config) (now : Z).

(** The delay and the budget a pass uses. *)
Definition pass_delay : Z := if RetryDelay cfg <=? 0 then stuckTransferThreshold else RetryDelay cfg.
Definition exhausted (t : Transfer) : bool := (0 <? MaxRetries cfg) && (MaxRetries cfg <=? t_RetryCount t).
Definition due (t : Transfer) : bool := negb (exhausted t) && (t_UpdatedAt t + pass_delay <=? now).

(** Submitting a list of transfers, one after the other: the outcomes and the
    world they leave. *)
Fixpoint submissions (dest : Dest) (ts : list Transfer) (x : X)
    : list (Transfer * result (string * bool)) * X :=
  match dest, ts with
  | Some submit, t :: ts =>
      let '(r, x1) := submit (event_of_transfer t) x in
      let '(log, x2) := submissions dest ts x1 in ((t, r) :: log, x2)
  | _, _ => ([], x)
  end.

(** How a pass may change a row, given the submissions it made. *)
Inductive row_after (log : list (Transfer * result (string * bool))) (t : Transfer) : Transfer -> Prop :=
| ra_same : row_after log t t
| ra_failed msg : t_Status t = TransferStatusPending -> exhausted t = true ->
    row_after log t (set_status now TransferStatusFailed None (Some msg) t)
| ra_retry e : t_Status t = TransferStatusPending -> (t, Err e) ∈ log ->
    row_after log t (incr_retry now t)
| ra_done h skipped : t_Status t = TransferStatusPending -> (t, Ok (h, skipped)) ∈ log ->
    row_after log t
      (set_status now TransferStatusCompleted (if skipped : bool then None else Some h) None t).

Lemma row_after_mono log log' t t' : log ⊆ log' -> row_after log t t' -> row_after log' t t'.
Proof. intros Hsub []; econstructor; eauto. Qed.

Lemma submissions_none ts x : submissions None ts x = ([], x).
Proof. by destruct ts. Qed.

Lemma submissions_app dest ts1 ts2 x :
  submissions dest (ts1 ++ ts2) x =
    ((submissions dest ts1 x).1 ++ (submissions dest ts2 (submissions dest ts1 x).2).1,
     (submissions dest ts2 (submissions dest ts1 x).2).2).
Proof.
  destruct dest as [submit|]; [|by rewrite !submissions_none].
  revert x. induction ts1 as [|t ts1 IH]; intros x; cbn [app submissions fst snd].
  { by destruct (submissions _ ts2 x). }
  destruct (submit _ x) as [r x1]. rewrite IH.
  destruct (submissions (Some submit) ts1 x1) as [l1 x2]. cbn.
  by destruct (submissions (Some submit) ts2 x2).
Qed.

Lemma wp_bs_write (e : E) {A} (c : M S A) id f t :
  bs_transfers (e_store e) !! id = Some t ->
  wp c (fun r s' => bs_transfers s' = bs_transfers (e_store e) \/
                    bs_transfers s' = alter f id (bs_transfers (e_store e))) (e_store e) ->
  wp (on_store c) (fun _ e' => e_ext e' = e_ext e /\ exists t', (t' = t \/ t' = f t) /\
    bs_transfers (e_store e') = <[id := t']> (bs_transfers (e_store e))) e.
Proof.
  intros Ht Hc. apply wp_on_store. eapply wp_mono; [exact Hc|]. cbn. intros _ s' [->| ->].
  - split; [done|]. exists t. by rewrite insert_id by done; auto.
  - split; [done|]. exists (f t). by rewrite (alter_lookup_Some f id t) by done; auto.
Qed.

Lemma update_either id st h m s :
  wp (bs_update now id st h m) (fun _ s' => bs_transfers s' = bs_transfers s \/
    bs_transfers s' = alter (set_status now st h m) id (bs_transfers s)) s.
Proof. eapply wp_mono; [apply law_update|]. intros [] s'; naive_solver. Qed.

Lemma retry_either id s :
  wp (bs_retry now id) (fun _ s' => bs_transfers s' = bs_transfers s \/
    bs_transfers s' = alter (incr_retry now) id (bs_transfers s)) s.
Proof. eapply wp_mono; [apply law_retry|]. intros [] s'; naive_solver. Qed.

Lemma filter_one t : filter due [t] = if due t then [t] else [].
Proof. rewrite filter_cons, filter_nil. by destruct (due t). Qed.

(** One transfer of a pass: at most one submission, at most its own row. *)
Lemma maybeRetryTransfer_spec dest t (e : E) :
  bs_transfers (e_store e) !! t_ID t = Some t -> t_Status t = TransferStatusPending ->
  wp (maybeRetryTransfer now t dest (MaxRetries cfg) pass_delay) (fun r e' => r = Ok tt /\
    exists t', row_after (submissions dest (filter due [t]) (e_ext e)).1 t t' /\
      bs_transfers (e_store e') = <[t_ID t := t']> (bs_transfers (e_store e)) /\
      e_ext e' = (submissions dest (filter due [t]) (e_ext e)).2) e.
Proof.
  intros Ht Hp. unfold maybeRetryTransfer. rewrite filter_one.
  fold (exhausted t). unfold due. destruct (exhausted t) eqn:Hx; cbn [negb andb].
  { wp_go.
    eapply wp_mono; [eapply wp_bs_write; [done|apply update_either]|]. cbn beta.
    intros _ e' (He & t' & Ht' & Hr). wp_go. split; [done|]. exists t'.
    rewrite He. split_and!; [|done|by destruct dest]. destruct Ht' as [-> | ->]; by econstructor. }
  destruct (Z.ltb_spec now (t_UpdatedAt t + pass_delay)) as [Hlt|Hge].
  { rewrite (proj2 (Z.leb_gt _ _)) by lia. wp_go. split; [done|]. exists t.
    rewrite insert_id by done. split_and!; [constructor|done|by destruct dest]. }
  rewrite (proj2 (Z.leb_le _ _)) by lia.
  unfold retryStuckTransfer. destruct dest as [submit|].
  2:{ wp_go. split; [done|]. exists t. rewrite insert_id by done. split_and!; done || constructor. }
  cbn [submissions]. wp_go. apply wp_on_ext, wp_intro. intros sub x Hsub. rewrite Hsub. cbn [fst snd].
  destruct sub as [[h skipped]|err]; wp_go;
    (eapply wp_mono; [eapply wp_bs_write; [done|apply update_either || apply retry_either]|]);
    cbn; intros _ e' (He & t' & Ht' & Hr); wp_go; (split; [done|]); exists t';
    (split_and!; [|done|done]); destruct Ht' as [-> | ->]; econstructor; try done; by left.
Qed.

(** A list of rows of the table, all pending. *)
Definition pending_in (m : gmap string Transfer) (l : list Transfer) : Prop :=
  forall t, t ∈ l -> m !! t_ID t = Some t /\ t_Status t = TransferStatusPending.

(** A pass over pending rows with distinct ids. *)
Lemma pass_spec dest l (e : E) :
  NoDup (t_ID <$> l) -> pending_in (bs_transfers (e_store e)) l ->
  wp (for_each l (fun t => maybeRetryTransfer now t dest (MaxRetries cfg) pass_delay)) (fun r e' =>
    r = Ok tt /\ e_ext e' = (submissions dest (filter due l) (e_ext e)).2 /\
    (forall id, id ∉ t_ID <$> l -> bs_transfers (e_store e') !! id = bs_transfers (e_store e) !! id) /\
    forall id t, bs_transfers (e_store e) !! id = Some t ->
      exists t', bs_transfers (e_store e') !! id = Some t' /\
        row_after (submissions dest (filter due l) (e_ext e)).1 t t') e.
Proof.
  revert e. induction l as [|t l IH]; intros e Hnd Hl.
  { apply wp_ret. split_and!; [done|by destruct dest|done|]. intros id t Ht. exists t.
    split; [done|constructor]. }
  rewrite fmap_cons in Hnd. apply NoDup_cons in Hnd as [Hni Hnd].
  destruct (Hl t) as [Ht Hp]; [set_solver|]. cbn [for_each]. apply wp_bind.
  eapply wp_mono; [by apply maybeRetryTransfer_spec|]. cbn beta.
  intros r e1 (-> & t1 & Hra & Hr1 & Hx1).
  eapply wp_mono.
  { apply IH; [done|]. intros u Hu. destruct (Hl u) as [Hu1 Hu2]; [set_solver|]. split; [|done].
    rewrite Hr1, lookup_insert_ne; [done|]. intros Heq. apply Hni. rewrite Heq.
    by apply list_elem_of_fmap_2. }
  cbn beta. intros r e2 (-> & Hx2 & Hother & Hrows).
  assert (filter due (t :: l) = filter due [t] ++ filter due l) as ->.
  { change (t :: l) with ([t] ++ l). by rewrite filter_app. }
  rewrite submissions_app. cbn [fst snd]. rewrite <- Hx1. split_and!; [done|done| |].
  - intros id Hid. rewrite fmap_cons in Hid. rewrite Hother by set_solver.
    rewrite Hr1, lookup_insert_ne; set_solver.
  - intros id u Hu. destruct (decide (id = t_ID t)) as [->|Hne].
    + exists t1. rewrite Hother by done. rewrite Hr1, lookup_insert_eq. split; [done|].
      assert (u = t) as -> by congruence. eapply row_after_mono; [|exact Hra]. set_solver.
    + destruct (Hrows id u) as (u' & Hu' & Hrau); [by rewrite Hr1, lookup_insert_ne|].
      exists u'. split; [done|]. eapply row_after_mono; [|exact Hrau]. set_solver.
Qed.

(** The pending rows of a direction, oldest first. *)
Definition pending_rows (m : gmap string Transfer) (dir : TransferDirection) (l : list Transfer) : Prop :=
  (forall t, t ∈ l <-> exists id, m !! id = Some t /\ t_Direction t = dir /\ t_Status t = TransferStatusPending) /\
  Sorted created_before l /\ NoDup (t_ID <$> l).

Lemma pending_rows_in m dir l : keys_ok m -> pending_rows m dir l -> pending_in m l.
Proof.
  intros Hk (Hl & _) t (id & Hid & _ & Hst)%Hl. split; [|done]. by rewrite (Hk id t Hid).
Qed.

Lemma pending_rows_disjoint m dir dir' l l' t :
  keys_ok m -> dir <> dir' -> pending_rows m dir l -> pending_rows m dir' l' ->
  t ∈ l -> t_ID t ∉ t_ID <$> l'.
Proof.
  intros Hk Hne Hl Hl' Ht (u & Hu & Hul)%list_elem_of_fmap.
  destruct (pending_rows_in _ _ _ Hk Hl t Ht) as [H1 _].
  destruct (pending_rows_in _ _ _ Hk Hl' u Hul) as [H2 _].
  assert (t = u) as -> by (rewrite Hu in H1; congruence).
  apply Hl in Ht as (? & _ & ? & _). apply Hl' in Hul as (? & _ & ? & _). congruence.
Qed.

Lemma wp_pending dir (e : E) Q :
  keys_ok (bs_transfers (e_store e)) ->
  (forall s', bs_transfers s' = bs_transfers (e_store e) ->
    let e' := mkEngine s' (e_ext e) (cantonOffset e) (ethLastBlock e)
      (cantonSynced e) (ethereumSynced e) (cantonStreamStarted e) in
    (forall l, pending_rows (bs_transfers (e_store e)) dir l -> Q (Ok l) e') /\
    (forall err, Q (Err err) e')) ->
  wp (on_store (bs_pending dir)) Q e.
Proof.
  intros Hk HQ. apply wp_on_store. eapply wp_mono; [apply law_pending|].
  intros [l|err] s' (Hs & _ & H); destruct (HQ s' Hs) as [Hok Herr]; [|done].
  apply Hok. destruct H as (? & ? & ?). by split_and!; auto.
Qed.

(** C11: a reconciliation pass submits every pending transfer whose retry
    budget and delay allow it, exactly once and oldest first, withdrawals
    before deposits, and submits nothing else.  A row that is not pending is
    never touched; a pending row is marked failed only when its retry budget
    is used up, completed only when its own submission succeeded, and counted
    as retried only when its own submission failed.  When the pending rows
    cannot be read the pass does nothing. *)
Theorem runReconciliation_correct ethDest cantonDest (e : E) :
  keys_ok (bs_transfers (e_store e)) ->
  wp (runReconciliation cfg now ethDest cantonDest) (fun r e' =>
    match r with
    | Err _ => bs_transfers (e_store e') = bs_transfers (e_store e) /\ e_ext e' = e_ext e
    | Ok _ => exists withdrawals deposits,
        pending_rows (bs_transfers (e_store e)) DirectionCantonToEthereum withdrawals /\
        pending_rows (bs_transfers (e_store e)) DirectionEthereumToCanton deposits /\
        let s1 := submissions ethDest (filter due withdrawals) (e_ext e) in
        let s2 := submissions cantonDest (filter due deposits) s1.2 in
        e_ext e' = s2.2 /\
        forall id, match bs_transfers (e_store e) !! id with
                   | None => bs_transfers (e_store e') !! id = None
                   | Some t => exists t', bs_transfers (e_store e') !! id = Some t' /\
                                 row_after (s1.1 ++ s2.1) t t'
                   end
    end) e.
Proof.
  intros Hk. unfold runReconciliation. apply wp_bind, wp_wrapping, wp_pending; [done|].
  intros s1 Hs1. split; [|by auto]. intros wl Hwl. cbn [wrap].
  apply wp_bind, wp_wrapping, wp_pending; cbn [e_store e_ext]; rewrite Hs1; [done|].
  intros s2 Hs2. split; [|by auto]. intros dl Hdl. cbn [wrap]. fold pass_delay.
  apply wp_bind. eapply wp_mono; [apply (pass_spec _ wl); cbn [e_store]; rewrite ?Hs2|].
  { apply Hwl. }
  { by eapply pending_rows_in. }
  cbn [e_store e_ext]. rewrite Hs2. intros r e1 (-> & Hx1 & Ho1 & Hr1).
  assert (forall id, id ∈ t_ID <$> dl -> bs_transfers (e_store e1) !! id = bs_transfers (e_store e) !! id) as Hd1.
  { intros id (t & -> & Ht)%list_elem_of_fmap. apply Ho1.
    by apply (pending_rows_disjoint _ DirectionEthereumToCanton DirectionCantonToEthereum dl wl t Hk). }
  eapply wp_mono; [apply (pass_spec _ dl); [apply Hdl|]|].
  { intros t Ht. rewrite Hd1 by by apply list_elem_of_fmap_2. by eapply pending_rows_in. }
  cbn beta. intros r e2 (-> & Hx2 & Ho2 & Hr2). exists wl, dl. rewrite Hx1 in Hx2, Hr2.
  split; [done|]. split; [done|]. cbv zeta. split; [done|]. intros id.
  destruct (decide (id ∈ t_ID <$> dl)) as [Hin|Hin].
  - rewrite <- (Hd1 id Hin). destruct (bs_transfers (e_store e1) !! id) as [t|] eqn:Ht.
    + destruct (Hr2 id t Ht) as (t' & Ht' & Hra). exists t'. split; [done|].
      eapply row_after_mono; [|exact Hra]. set_solver.
    + apply list_elem_of_fmap in Hin as (t & -> & Htl).
      destruct (pending_rows_in _ _ _ Hk Hdl t Htl) as [H _]. rewrite <- Hd1 in H; [congruence|].
      by apply list_elem_of_fmap_2.
  - rewrite Ho2 by done. destruct (bs_transfers (e_store e) !! id) as [t|] eqn:Ht.
    + destruct (Hr1 id t Ht) as (t' & Ht' & Hra). exists t'. split; [done|].
      eapply row_after_mono; [|exact Hra]. set_solver.
    + rewrite Ho1; [done|]. intros (t & -> & Htl)%list_elem_of_fmap.
      destruct (pending_rows_in _ _ _ Hk Hwl t Htl) as [H _]. congruence.
Qed.
End Reconcile.
