(* ===== verification/RelayerConcurrency.v ===== *)
(** * RelayerConcurrency: the engine's goroutines

    Start of pkg/relayer/engine/engine.go runs the two processors and the
    reconciliation loop at the same time over one store.  The definitions of
    RelayerProcessor and RelayerEngine run each of them alone; here their calls
    of the store and of the destinations interleave, with the clock running in
    between.  processEvent and maybeRetryTransfer, run alone, are runs of this
    relation.  A pass of the reconciliation works on the rows it read when it
    started, and a submission can take any time: no transfer is in two
    submissions at once as long as a submission is over within the retry delay,
    but a transfer that was completed in the meantime can be submitted again. *)

From S2P Require Import Prelude AppErrors Effects GoStd EthClient RelayerStore Decimal RelayerChains RelayerProcessor RelayerEngine RelayerEngineProofs.
Local Open Scope Z_scope.

Abbreviation Submission := (result (string * bool)).

(** What a processor is doing: waiting for an event, in SubmitTransfer for the
    event whose row it created at a time, or back from it. *)
Inductive ProcPhase :=
| PIdle
| PSubmitting (ev : Event) (at_ : Z)
| PSubmitted (ev : Event) (at_ : Z) (r : Submission).

(** What the reconciliation is doing: waiting for its ticker, between the reads
    of the two directions, on the rows it read, in SubmitTransfer for one of
    them, or back from it. *)
Inductive RecPhase :=
| RIdle
| RReading (withdrawals : list Transfer)
| RPass (todo : list Transfer)
| RSubmitting (t : Transfer) (todo : list Transfer)
| RSubmitted (t : Transfer) (r : Submission) (todo : list Transfer).

Record Sys := mkSys {
  clock : Z;
  s_rows : gmap string Transfer;
  (** the calls of SubmitTransfer that have returned *)
  s_calls : list (Event * Submission);
  s_procs : list ProcPhase;
  s_rec : RecPhase;
}.

(** The row and the time of a processor that is busy. *)
Definition busy (p : ProcPhase) : option (string * Z) :=
  match p with
  | PIdle => None
  | PSubmitting ev at_ | PSubmitted ev at_ _ => Some (ev_ID ev, at_)
  end.

(** The processor at an index is busy. *)
Definition busy_at (ps : list ProcPhase) (i : nat) (id : string) (at_ : Z) : Prop :=
  exists p, ps !! i = Some p /\ busy p = Some (id, at_).

(** The rows a pass still has, with the one it is on. *)
Definition snapshot (r : RecPhase) : list Transfer :=
  match r with
  | RIdle => []
  | RReading todo | RPass todo => todo
  | RSubmitting t todo | RSubmitted t _ todo => t :: todo
  end.

Definition on_row (r : RecPhase) : option Transfer :=
  match r with RSubmitting t _ | RSubmitted t _ _ => Some t | _ => None end.

(** The transfers that are in SubmitTransfer. *)
Definition in_flight (s : Sys) : list string :=
  omap (fun p => match p with PSubmitting ev _ => Some (ev_ID ev) | _ => None end) (s_procs s) ++
  match s_rec s with RSubmitting t _ => [t_ID t] | _ => [] end.

(** The status that processEvent and retryStuckTransfer write for an outcome. *)
Definition processed (now : Z) (r : Submission) : Transfer -> Transfer :=
  match r with
  | Err e => set_status now TransferStatusPending None (Some (Error e))
  | Ok (_, true) => set_status now TransferStatusCompleted None None
  | Ok (h, false) => set_status now TransferStatusCompleted (Some h) None
  end.
Definition retried (now : Z) (r : Submission) : Transfer -> Transfer :=
  match r with
  | Err _ => incr_retry now
  | Ok (h, skipped) => set_status now TransferStatusCompleted (if skipped then None else Some h) None
  end.

(** A write of a row; one that fails may have taken effect or not. *)
Inductive wrote (f : Transfer -> Transfer) (id : string) (m : gmap string Transfer) : gmap string Transfer -> Prop :=
| wrote_row : wrote f id m (alter f id m)
| wrote_nothing : wrote f id m m.

Section interleaving.
Variable cfg : Config.
(** how long a submission and the write after it may take *)
Variable limit : option Z.

Definition timely (now : Z) (procs : list ProcPhase) : Prop :=
  match limit with
  | None => True
  | Some d => forall i id at_, busy_at procs i id at_ -> now < at_ + d
  end.

(** Whose step it is. *)
Inductive actor := Clock | Proc (i : nat) | Reconciler.

(** What GetPendingTransfers returns: the pending rows of a direction. *)
Definition pending_rows (dir : TransferDirection) (m : gmap string Transfer) (l : list Transfer) : Prop :=
  (forall t, t ∈ l <-> exists id, m !! id = Some t /\ t_Direction t = dir /\ t_Status t = TransferStatusPending) /\
  Sorted created_before l /\ (keys_ok m -> NoDup (t_ID <$> l)).

Inductive sys_step : actor -> Sys -> Sys -> Prop :=
| step_tick now' now m cs ps r : now <= now' -> timely now' ps ->
    sys_step Clock (mkSys now m cs ps r) (mkSys now' m cs ps r)
| (* the insert of an event's row, and then SubmitTransfer *)
  step_create i row ev now m cs ps r :
    ps !! i = Some PIdle -> m !! ev_ID ev = None -> t_ID row = ev_ID ev -> t_Status row = TransferStatusPending ->
    t_RetryCount row = 0 ->
    sys_step (Proc i) (mkSys now m cs ps r)
      (mkSys now (<[ev_ID ev := toTransferDao now row]> m) cs (<[i := PSubmitting ev now]> ps) r)
| (* an insert that took effect and was reported as failed: the event is skipped *)
  step_create_failed i row ev now m cs ps r :
    ps !! i = Some PIdle -> m !! ev_ID ev = None -> t_ID row = ev_ID ev -> t_Status row = TransferStatusPending ->
    t_RetryCount row = 0 ->
    sys_step (Proc i) (mkSys now m cs ps r) (mkSys now (<[ev_ID ev := toTransferDao now row]> m) cs ps r)
| step_return i ev at_ res now m cs ps r : ps !! i = Some (PSubmitting ev at_) ->
    sys_step (Proc i) (mkSys now m cs ps r) (mkSys now m (cs ++ [(ev, res)]) (<[i := PSubmitted ev at_ res]> ps) r)
| step_record i ev at_ res now m m' cs ps r : ps !! i = Some (PSubmitted ev at_ res) -> wrote (processed now res) (ev_ID ev) m m' ->
    sys_step (Proc i) (mkSys now m cs ps r) (mkSys now m' cs (<[i := PIdle]> ps) r)
| (* a pass reads the pending withdrawals, and then the pending deposits *)
  step_read_withdrawals l now m cs ps : pending_rows DirectionCantonToEthereum m l ->
    sys_step Reconciler (mkSys now m cs ps RIdle) (mkSys now m cs ps (RReading l))
| step_read_deposits l l' now m cs ps : pending_rows DirectionEthereumToCanton m l' ->
    sys_step Reconciler (mkSys now m cs ps (RReading l)) (mkSys now m cs ps (RPass (l ++ l')))
| step_read_failed l now m cs ps : sys_step Reconciler (mkSys now m cs ps (RReading l)) (mkSys now m cs ps RIdle)
| step_exhausted t l now m m' cs ps : exhausted cfg t = true ->
    wrote (set_status now TransferStatusFailed None (Some ("max retries (" +:+ FormatInt (MaxRetries cfg) +:+ ") exceeded"))) (t_ID t) m m' ->
    sys_step Reconciler (mkSys now m cs ps (RPass (t :: l))) (mkSys now m' cs ps (RPass l))
| step_wait t l now m cs ps : exhausted cfg t = false -> now < t_UpdatedAt t + pass_delay cfg ->
    sys_step Reconciler (mkSys now m cs ps (RPass (t :: l))) (mkSys now m cs ps (RPass l))
| step_retry t l now m cs ps : exhausted cfg t = false -> t_UpdatedAt t + pass_delay cfg <= now ->
    sys_step Reconciler (mkSys now m cs ps (RPass (t :: l))) (mkSys now m cs ps (RSubmitting t l))
| step_retry_return t l res now m cs ps :
    sys_step Reconciler (mkSys now m cs ps (RSubmitting t l)) (mkSys now m (cs ++ [(event_of_transfer t, res)]) ps (RSubmitted t res l))
| step_retry_record t l res now m m' cs ps : wrote (retried now res) (t_ID t) m m' ->
    sys_step Reconciler (mkSys now m cs ps (RSubmitted t res l)) (mkSys now m' cs ps (RPass l))
| step_pass_end now m cs ps : sys_step Reconciler (mkSys now m cs ps (RPass [])) (mkSys now m cs ps RIdle).

(** A step of any of them. *)
Definition any_step (s s' : Sys) : Prop := exists a, sys_step a s s'.
End interleaving.

(** ** One submission at a time *)

Lemma busy_at_insert ps i q j id a : busy_at (<[i := q]> ps) j id a ->
  (j = i /\ busy q = Some (id, a)) \/ (j <> i /\ busy_at ps j id a).
Proof.
  intros (p & Hp & Hb). apply list_lookup_insert_Some in Hp as [(-> & -> & _)|[Hne Hp]]; [by left|right]. split; [done|]. by exists p.
Qed.

(** The busy processors after one of them moved on with its row. *)
Lemma busy_at_same ps i p q j id a : ps !! i = Some p -> busy q = busy p -> busy_at (<[i := q]> ps) j id a -> busy_at ps j id a.
Proof. intros Hp Hq [[-> Hb]|[_ Hb]]%busy_at_insert; [|done]. exists p. by rewrite <- Hq. Qed.

Lemma busy_at_idle ps i j id a : busy_at (<[i := PIdle]> ps) j id a -> j <> i /\ busy_at ps j id a.
Proof. by intros [[_ [=]]|[Hne Hb]]%busy_at_insert. Qed.

Lemma wrote_lookup f id m m' id' : wrote f id m m' -> m' !! id' = m !! id' \/ (id' = id /\ m' !! id' = f <$> m !! id').
Proof.
  intros [|]; [|by left]. destruct (decide (id' = id)) as [->|Hne]; [|by left; rewrite lookup_alter_ne].
  right. by rewrite lookup_alter_eq.
Qed.

Lemma wrote_other f id m m' id' : wrote f id m m' -> id' <> id -> m' !! id' = m !! id'.
Proof. intros [Hw|[-> _]]%(wrote_lookup _ _ _ _ id') Hne; done. Qed.

Lemma wrote_some f id m m' id' : wrote f id m m' -> is_Some (m !! id') -> is_Some (m' !! id').
Proof. intros [-> |[_ ->]]%(wrote_lookup _ _ _ _ id') [t ->]; by eexists. Qed.

Lemma wrote_keys f id m m' : (forall t, t_ID (f t) = t_ID t) -> wrote f id m m' -> keys_ok m -> keys_ok m'.
Proof.
  intros Hf Hw Hk id' t. destruct (wrote_lookup _ _ _ _ id' Hw) as [-> |[_ ->]]; [apply Hk|].
  intros (t0 & H0 & ->)%fmap_Some. rewrite Hf. by apply Hk.
Qed.

Lemma processed_ID now r t : t_ID (processed now r t) = t_ID t.
Proof. by destruct r as [[h []]|e]. Qed.
Lemma retried_ID now r t : t_ID (retried now r t) = t_ID t.
Proof. by destruct r as [[h skipped]|e]. Qed.

Section overlap.
Variables (cfg : Config) (d : Z).
Hypothesis limit_ok : 0 < d <= pass_delay cfg.

(** A busy processor's row is as it was created, and the pass, should it have
    read that row, has not come to it. *)
Record conc_inv (s : Sys) : Prop := {
  ci_keys : keys_ok (s_rows s);
  ci_row : forall i id a, busy_at (s_procs s) i id a -> a <= clock s < a + d /\
    exists row, s_rows s !! id = Some row /\ t_UpdatedAt row = a /\ t_RetryCount row = 0;
  ci_apart : forall i j id a b, busy_at (s_procs s) i id a -> busy_at (s_procs s) j id b -> i = j;
  ci_read : forall t, t ∈ snapshot (s_rec s) -> is_Some (s_rows s !! t_ID t);
  ci_fresh : forall t i a, t ∈ snapshot (s_rec s) -> busy_at (s_procs s) i (t_ID t) a ->
    t_UpdatedAt t = a /\ t_RetryCount t = 0;
  ci_on : forall t i a, on_row (s_rec s) = Some t -> ~ busy_at (s_procs s) i (t_ID t) a;
}.

Lemma not_exhausted t : t_RetryCount t = 0 -> exhausted cfg t = false.
Proof. intros Hr. unfold exhausted. rewrite Hr. destruct (Z.ltb_spec 0 (MaxRetries cfg)); [|done]. cbn. apply Z.leb_gt. lia. Qed.

(** A busy processor's row survives a write to a row that is not its own. *)
Lemma row_kept f id' m m' id a now : wrote f id' m m' -> id <> id' ->
  (a <= now < a + d /\ exists row, m !! id = Some row /\ t_UpdatedAt row = a /\ t_RetryCount row = 0) ->
  a <= now < a + d /\ exists row, m' !! id = Some row /\ t_UpdatedAt row = a /\ t_RetryCount row = 0.
Proof. intros Hw Hne [Hc Hrow]. split; [done|]. by rewrite (wrote_other _ _ _ _ _ Hw Hne). Qed.

(** A created row. *)
Lemma create_inv i row ev now m cs ps r (started : bool) :
  ps !! i = Some PIdle -> m !! ev_ID ev = None -> t_ID row = ev_ID ev -> t_RetryCount row = 0 ->
  conc_inv (mkSys now m cs ps r) ->
  conc_inv (mkSys now (<[ev_ID ev := toTransferDao now row]> m) cs (if started then <[i := PSubmitting ev now]> ps else ps) r).
Proof.
  intros Hi Hnone Hid Hretry [Hk Hr Ha Hs Hf Ho]. cbn in *.
  assert (forall j a, ~ busy_at ps j (ev_ID ev) a) as Hnew.
  { intros j a Hb. destruct (Hr _ _ _ Hb) as (_ & row' & Hrow' & _). by rewrite Hrow' in Hnone. }
  assert (forall t, t ∈ snapshot r -> t_ID t <> ev_ID ev) as Hother.
  { intros t Ht Heq. destruct (Hs t Ht) as [x Hx]. rewrite Heq in Hx. congruence. }
  assert (forall j id a, busy_at (if started then <[i := PSubmitting ev now]> ps else ps) j id a ->
    (id = ev_ID ev /\ a = now /\ j = i) \/ (id <> ev_ID ev /\ busy_at ps j id a)) as Hcase.
  { intros j id a Hb. assert ((id = ev_ID ev /\ a = now /\ j = i) \/ busy_at ps j id a) as [?|Hb'].
    { destruct started; [|by right]. apply busy_at_insert in Hb as [[-> [= -> ->]]|[_ Hb]]; auto. }
    - by left.
    - right. split; [|done]. intros ->. by eapply Hnew. }
  split; cbn.
  - intros id t. rewrite lookup_insert_Some. intros [[<- <-]|[_ Ht]]; [by cbn|by apply Hk].
  - intros j id a [(-> & -> & _)|[Hne Hb]]%Hcase.
    + split; [lia|]. exists (toTransferDao now row). by rewrite lookup_insert_eq.
    + destruct (Hr _ _ _ Hb) as (Hc & row' & Hrow' & Hu). split; [done|]. exists row'. by rewrite lookup_insert_ne.
  - intros j k id a b [(Hid1 & _ & Hj)|[Hne Hb]]%Hcase [(Hid2 & _ & Hk')|[Hne' Hb']]%Hcase; [congruence..|by eapply Ha].
  - intros t Ht. rewrite lookup_insert_ne by (intros Heq; by eapply Hother). by apply Hs.
  - intros t j a Ht [(Heq & _)|[_ Hb]]%Hcase; [by destruct (Hother t Ht)|by eapply Hf].
  - intros t j a Ht [(Heq & _)|[_ Hb]]%Hcase; [|by eapply Ho].
    apply (Hother t); [|done]. destruct r; cbn in Ht; try done; injection Ht as ->; apply elem_of_cons; by left.
Qed.

(** The reconciliation moves on, with a write to a row that no processor has. *)
Lemma rec_inv now m cs cs' ps r f id m' r' :
  conc_inv (mkSys now m cs ps r) -> wrote f id m m' -> (forall t, t_ID (f t) = t_ID t) ->
  (m' = m \/ forall i a, ~ busy_at ps i id a) -> snapshot r' ⊆ snapshot r ->
  (forall t i a, on_row r' = Some t -> ~ busy_at ps i (t_ID t) a) ->
  conc_inv (mkSys now m' cs' ps r').
Proof.
  intros [Hk Hr Ha Hs Hf Ho] Hw Hid Hfree Hsub Hon. cbn in *. split; cbn; [by eapply wrote_keys| |done| | |done].
  - intros i id' a Hb. destruct Hfree as [->|Hfree]; [by eapply Hr|]. eapply row_kept; [done| |by eapply Hr].
    intros ->. by eapply Hfree.
  - intros t Ht. eapply wrote_some; [done|]. by apply Hs, Hsub.
  - intros t i a Ht. by apply Hf, Hsub.
Qed.

(** A read of rows as they are. *)
Lemma read_inv now m cs ps r dir l r' :
  conc_inv (mkSys now m cs ps r) -> pending_rows dir m l -> snapshot r' ⊆ snapshot r ++ l -> on_row r' = None ->
  conc_inv (mkSys now m cs ps r').
Proof.
  intros [Hk Hr Ha Hs Hf Ho] (Hl & _) Hsub Hon. cbn in *.
  assert (forall t, t ∈ l -> m !! t_ID t = Some t) as Hl'.
  { intros t (id & Hid & _)%Hl. by rewrite (Hk _ _ Hid). }
  split; cbn; try done.
  - intros t [Ht|Ht]%Hsub%elem_of_app; [by apply Hs|]. by rewrite (Hl' t Ht).
  - intros t i a [Ht|Ht]%Hsub%elem_of_app Hb; [by eapply Hf|].
    destruct (Hr _ _ _ Hb) as (_ & row & Hrow & Hu). rewrite (Hl' t Ht) in Hrow. by injection Hrow as <-.
  - intros t i a. by rewrite Hon.
Qed.

Lemma sys_step_inv a s s' : sys_step cfg (Some d) a s s' -> conc_inv s -> conc_inv s'.
Proof.
  intros Hstep Hinv. pose proof Hinv as [Hk Hr Ha Hs Hf Ho].
  destruct Hstep as [now' now m cs ps r Hle Ht|i row ev now m cs ps r Hi Hn Hid _ Hrc|i row ev now m cs ps r Hi Hn Hid _ Hrc
    |i ev a0 res now m cs ps r Hi|i ev a0 res now m m' cs ps r Hi Hw|l now m cs ps Hl|l l' now m cs ps Hl|l now m cs ps
    |t l now m m' cs ps Hx Hw|t l now m cs ps Hx Hlt|t l now m cs ps Hx Hge|t l res now m cs ps|t l res now m m' cs ps Hw|now m cs ps]; cbn in *.
  - split; cbn; try done. intros i id a Hb. destruct (Hr _ _ _ Hb) as [Hc Hrow]. pose proof (Ht _ _ _ Hb). split; [lia|done].
  - by apply (create_inv i row ev now m cs ps r true).
  - by apply (create_inv i row ev now m cs ps r false).
  - pose proof (fun j id a => busy_at_same ps i _ (PSubmitted ev a0 res) j id a Hi eq_refl) as Hsame.
    split; cbn; eauto. intros t j a Ht Hb. by eapply Ho, Hsame.
  - assert (forall j id a, busy_at (<[i := PIdle]> ps) j id a -> id <> ev_ID ev) as Hne.
    { intros j id a [Hj Hb]%busy_at_idle ->. apply Hj. eapply Ha; [done|]. by exists (PSubmitted ev a0 res). }
    split; cbn.
    + by eapply wrote_keys; [apply processed_ID|..].
    + intros j id a Hb. eapply row_kept; [done|by eapply Hne|]. apply busy_at_idle in Hb as [_ Hb]. by eapply Hr.
    + intros j k id a b [_ Hb]%busy_at_idle [_ Hb']%busy_at_idle. by eapply Ha.
    + intros t Ht. eapply wrote_some; [done|by apply Hs].
    + intros t j a Ht [_ Hb]%busy_at_idle. by eapply Hf.
    + intros t j a Ht [_ Hb]%busy_at_idle. by eapply Ho.
  - by eapply (read_inv now m cs ps RIdle _ l).
  - by eapply (read_inv now m cs ps (RReading l) _ l').
  - eapply (rec_inv now m cs cs ps _ id ""%string m); [done|constructor 2|done|by left|intros ? []%not_elem_of_nil|done].
  - eapply (rec_inv now m _ _ ps _ _ _ m'); [done|done|done| |intros ? ?; by right|done]. right. intros i a Hb.
    destruct (Hf t i a ltac:(by left) Hb) as [_ Hz]. by rewrite (not_exhausted t Hz) in Hx.
  - eapply (rec_inv now m _ _ ps _ id (t_ID t) m); [done|constructor 2|done|by left|intros ? ?; by right|done].
  - eapply (rec_inv now m _ _ ps _ id (t_ID t) m); [done|constructor 2|done|by left|done|].
    intros t' i a [= <-] Hb. destruct (Hf t i a ltac:(by left) Hb) as [Hu _]. destruct (Hr _ _ _ Hb) as [Hc _]. lia.
  - eapply (rec_inv now m _ _ ps _ id (t_ID t) m); [done|constructor 2|done|by left|done|done].
  - eapply (rec_inv now m _ _ ps _ _ _ m'); [done|done|apply retried_ID| |intros ? ?; by right|done]. right. intros i a. by eapply Ho.
  - eapply (rec_inv now m _ _ ps _ id ""%string m); [done|constructor 2|done|by left|done|done].
Qed.

(** The engine as Start leaves it, on the rows of earlier runs. *)
Definition started (now : Z) (m : gmap string Transfer) : Sys := mkSys now m [] [PIdle; PIdle] RIdle.

Lemma started_inv now m : keys_ok m -> conc_inv (started now m).
Proof.
  intros Hk. assert (forall i id a, ~ busy_at [PIdle; PIdle] i id a) as Hidle.
  { intros [|[|i]] id a (p & Hp & Hb); cbn in Hp; simplify_eq; done. }
  split; cbn; try done; intros; exfalso; (by eapply Hidle) || by eapply not_elem_of_nil.
Qed.

Lemma conc_inv_in_flight s : conc_inv s -> NoDup (in_flight s).
Proof.
  intros Hinv. unfold in_flight. apply NoDup_app. split_and!.
  - pose proof (ci_apart s Hinv) as Ha. revert Ha. generalize (s_procs s). clear. intros ps Ha.
    induction ps as [|p ps IH]; [constructor|].
    assert (NoDup (omap (fun p => match p with PSubmitting ev _ => Some (ev_ID ev) | _ => None end) ps)) as Hps.
    { apply IH. intros i j id a b (q & Hq & Hb) (q' & Hq' & Hb'). apply (inj S), (Ha (S i) (S j) id a b); by eexists. }
    destruct p as [|ev at_|ev at_ r]; cbn; try done. constructor; [|done].
    intros (q & Hq & Hid)%list_elem_of_omap. apply list_elem_of_lookup in Hq as [i Hi]. destruct q as [|ev' b|]; try done.
    injection Hid as Hid. assert (0%nat = S i) as [=]. apply (Ha 0%nat (S i) (ev_ID ev) at_ b).
    + by exists (PSubmitting ev at_).
    + exists (PSubmitting ev' b). cbn. by rewrite Hid.
  - intros id (p & Hp & Hid)%list_elem_of_omap Hin. destruct (s_rec s) as [| | |t todo|] eqn:Hrec; try by apply not_elem_of_nil in Hin.
    apply list_elem_of_singleton in Hin as ->. destruct p as [|ev a|]; try done. injection Hid as Hid.
    apply list_elem_of_lookup in Hp as [i Hi]. apply (ci_on s Hinv t i a); [by rewrite Hrec|]. exists (PSubmitting ev a). cbn. by rewrite Hid.
  - destruct (s_rec s); try constructor; [|constructor]. apply not_elem_of_nil.
Qed.
End overlap.

(** C10: No transfer is submitted twice at the same time.  However the two
    processors and the reconciliation interleave, and whatever fails, when a
    submission and the write that follows it are over within the retry delay
    no two SubmitTransfer calls for one transfer are in flight together. *)
Theorem no_overlapping_submissions cfg d now m s :
  0 < d <= pass_delay cfg -> keys_ok m -> rtc (any_step cfg (Some d)) (started now m) s -> NoDup (in_flight s).
Proof.
  intros Hd Hk Hr. apply (conc_inv_in_flight d). revert Hr. apply (rtc_invariant _ (conc_inv d)); [|by apply started_inv].
  intros s1 s2 Hinv [a Hstep]. by eapply sys_step_inv.
Qed.

(** ** The goroutines alone *)

Section runs.
Context {S X : Type} `{!BridgeStore S} `{!BridgeStoreLaws S}.
Variables (cfg : Config) (limit : option Z).
Local Abbreviation steps a := (rtc (sys_step cfg limit a)).

(** A record, in the outside world, of the calls of SubmitTransfer and their
    outcomes; a call adds one entry, the hook after it none. *)
Variable submitted : X -> list (Event * Submission).
Definition logs (submit : Event -> M X (string * bool)) : Prop :=
  forall ev x, wp (submit ev) (fun r x' => submitted x' = submitted x ++ [(ev, r)]) x.
Definition hook_silent (p : Processor S X) : Prop := forall hook ev h x, p_onPostSubmit p = Some hook ->
  wp (hook ev h) (fun _ x' => submitted x' = submitted x) x.

Lemma procs_back (ps : list ProcPhase) i q q' : ps !! i = Some PIdle -> <[i := PIdle]> (<[i := q']> (<[i := q]> ps)) = ps.
Proof. intros Hi. by rewrite !list_insert_insert_eq, list_insert_id. Qed.

(** The state of the interleaving that a state of the processor shows. *)
Definition proc_view (now : Z) (ps : list ProcPhase) (r : RecPhase) (st : ProcState S X) : Sys :=
  mkSys now (rows st) (submitted (world st)) ps r.
Definition engine_view (now : Z) (ps : list ProcPhase) (r : RecPhase) (e : Engine S X) : Sys :=
  mkSys now (bs_transfers (e_store e)) (submitted (e_ext e)) ps r.

(** An event: nothing, an insert that was reported as failed, or the insert,
    the submission and the write of its outcome. *)
Lemma processEvent_run (p : Processor S X) now ev st : offset_frame p -> logs (p_submit p) -> hook_silent p ->
  wp (processEvent now p ev) (fun _ st' => forall i ps r, ps !! i = Some PIdle ->
    steps (Proc i) (proc_view now ps r st) (proc_view now ps r st')) st.
Proof.
  intros Hf Hlog Hhook. eapply wp_mono; [by apply processEvent_outcome|]. intros res st' [Ho _] i ps r Hi. unfold proc_view.
  destruct Ho as [res st' _ -> ->|e st' [-> |[Hnone ->]] -> _ _|res st' sub x row Hnone Hsub Hrow -> _ Hw _]; [done|done|..].
  - apply rtc_once. by eapply (step_create_failed cfg limit i (transfer_of p ev now)).
  - assert (submitted (world st') = submitted (world st) ++ [(ev, sub)]) as ->.
    { pose proof (wp_run _ _ _ _ _ (Hlog ev (world st)) Hsub) as Hx. cbn in Hx.
      destruct Hw as [->|(hook & h & Hk & _ & ->)]; [done|]. pose proof (Hhook hook ev h x Hk) as Hs. unfold wp in Hs.
      destruct (hook ev h x). cbn. by rewrite Hs. }
    eapply rtc_l; [by eapply (step_create cfg limit i (transfer_of p ev now))|].
    eapply rtc_l; [eapply (step_return cfg limit i ev now sub), list_lookup_insert_eq, lookup_lt_is_Some; by rewrite Hi|].
    rewrite <- (procs_back ps i (PSubmitting ev now) (PSubmitted ev now sub) Hi) at 2. apply rtc_once.
    eapply (step_record cfg limit i ev now sub); [apply list_lookup_insert_eq; rewrite length_insert; apply lookup_lt_is_Some; by rewrite Hi|].
    fold (row_of p ev now). destruct Hrow as [sub|e|h|h]; [constructor|..]; rewrite <- alter_insert_same; apply wrote_row.
Qed.

(** A write of a pass. *)
Lemma wp_wrote {A} (c : M S A) f id (e : Engine S X) :
  wp c (fun _ s' => bs_transfers s' = bs_transfers (e_store e) \/
                    bs_transfers s' = alter f id (bs_transfers (e_store e))) (e_store e) ->
  wp (on_store c) (fun _ e' => wrote f id (bs_transfers (e_store e)) (bs_transfers (e_store e')) /\ e_ext e' = e_ext e) e.
Proof. intros Hc. apply wp_on_store. eapply wp_mono; [exact Hc|]. cbn. intros _ s' [-> | ->]; split; constructor. Qed.

(** A row of a pass, as it was read, whatever became of it since. *)
Lemma maybeRetryTransfer_run now t submit (e : Engine S X) : logs submit ->
  wp (maybeRetryTransfer now t (Some submit) (MaxRetries cfg) (pass_delay cfg)) (fun r e' => r = Ok tt /\ forall ps l,
    steps Reconciler (engine_view now ps (RPass (t :: l)) e) (engine_view now ps (RPass l) e')) e.
Proof.
  intros Hlog. unfold maybeRetryTransfer, engine_view. fold (exhausted cfg t). destruct (exhausted cfg t) eqn:Hx.
  { wp_go. eapply wp_mono; [apply wp_wrote, update_either|]. intros ? e' [Hw Hext]. wp_go. split; [done|]. intros ps l. rewrite Hext.
    apply rtc_once. by eapply step_exhausted. }
  destruct (Z.ltb_spec now (t_UpdatedAt t + pass_delay cfg)) as [Hlt|Hge].
  { wp_go. split; [done|]. intros ps l. apply rtc_once. by apply step_wait. }
  unfold retryStuckTransfer. wp_go. apply wp_on_ext, wp_intro. intros sub x Hsub.
  pose proof (wp_run _ _ _ _ _ (Hlog _ _) Hsub) as Hx'. cbn beta in Hx'.
  destruct sub as [[h skipped]|err]; wp_go;
    (eapply wp_mono; [apply wp_wrote, update_either || apply wp_wrote, retry_either|]);
    intros ? e' [Hw Hext]; cbn in Hw, Hext; wp_go; (split; [done|]); intros ps l; rewrite Hext, Hx';
    (eapply rtc_l; [by apply step_retry|]); (eapply rtc_l; [apply step_retry_return|]); apply rtc_once.
  - by apply (step_retry_record cfg limit t l (Ok (h, skipped))).
  - by apply (step_retry_record cfg limit t l (Err err)).
Qed.

Lemma pass_run now submit l rest (e : Engine S X) : logs submit ->
  wp (for_each l (fun t => maybeRetryTransfer now t (Some submit) (MaxRetries cfg) (pass_delay cfg))) (fun r e' => r = Ok tt /\ forall ps,
    steps Reconciler (engine_view now ps (RPass (l ++ rest)) e) (engine_view now ps (RPass rest) e')) e.
Proof.
  intros Hlog. revert e. induction l as [|t l IH]; intros e; cbn [for_each app]; [by apply wp_ret|].
  apply wp_bind. eapply wp_mono; [by apply maybeRetryTransfer_run|]. intros r e1 [-> H1].
  eapply wp_mono; [apply IH|]. intros r e2 [-> H2]. split; [done|]. intros ps. etransitivity; [apply H1|apply H2].
Qed.

(** Reading the pending rows of a direction. *)
Lemma wp_read_pending dir pre (e : Engine S X) Q :
  (forall err e', bs_transfers (e_store e') = bs_transfers (e_store e) -> e_ext e' = e_ext e -> Q (Err err) e') ->
  (forall l e', bs_transfers (e_store e') = bs_transfers (e_store e) -> e_ext e' = e_ext e ->
     pending_rows dir (bs_transfers (e_store e)) l -> Q (Ok l) e') ->
  wp (wrapping pre (on_store (bs_pending dir))) Q e.
Proof.
  intros Herr Hok. apply wp_wrapping, wp_on_store. eapply wp_mono; [apply law_pending|]. intros [l|err] s' (Ht & _ & Hl); cbn.
  - by apply Hok.
  - by apply Herr.
Qed.

(** C27: The goroutines are runs of the interleaving.  What processEvent does
    with an event, and what a reconciliation pass does, to the rows and in
    calls of SubmitTransfer, on any store that keeps its promises and with any
    outcome of its calls, is a run of the steps of that goroutine alone, with
    the calls of the code as the calls of the run.  The record of the calls is
    any function of the outside world to which a call adds its event and its
    outcome and the hook after a submission nothing. *)
Theorem goroutines_are_runs (p : Processor S X) now ev ethDest cantonDest st (e : Engine S X) i ps r :
  offset_frame p -> logs (p_submit p) -> hook_silent p -> logs ethDest -> logs cantonDest -> ps !! i = Some PIdle ->
  wp (processEvent now p ev) (fun _ st' =>
    rtc (sys_step cfg limit (Proc i)) (mkSys now (rows st) (submitted (world st)) ps r)
                                      (mkSys now (rows st') (submitted (world st')) ps r)) st /\
  wp (runReconciliation cfg now (Some ethDest) (Some cantonDest)) (fun _ e' =>
    rtc (sys_step cfg limit Reconciler) (mkSys now (bs_transfers (e_store e)) (submitted (e_ext e)) ps RIdle)
                                        (mkSys now (bs_transfers (e_store e')) (submitted (e_ext e')) ps RIdle)) e.
Proof.
  intros Hf Hlog Hhook He Hc Hi. split.
  { eapply wp_mono; [by apply processEvent_run|]. intros res st' Hrun. by apply (Hrun i). }
  unfold runReconciliation. fold (pass_delay cfg). apply wp_bind, wp_read_pending; [by intros err e' -> ->|]. intros l1 e1 H1 Hx1 Hl1.
  rewrite <- H1, <- Hx1. rewrite <- H1 in Hl1. apply wp_bind, wp_read_pending.
  { intros err e' -> ->. eapply rtc_l; [by apply step_read_withdrawals|]. apply rtc_once, step_read_failed. }
  intros l2 e2 H2 Hx2 Hl2. rewrite <- H2, <- Hx2. rewrite <- H2 in Hl1, Hl2.
  apply wp_bind. eapply wp_mono; [by apply (pass_run now ethDest l1 (l2 ++ []))|]. intros r3 e3 [-> H3].
  eapply wp_mono; [by apply (pass_run now cantonDest l2 [])|]. intros r4 e4 [-> H4].
  eapply rtc_l; [by apply step_read_withdrawals|]. eapply rtc_l; [by apply step_read_deposits|].
  specialize (H3 ps). specialize (H4 ps). rewrite app_nil_r in H3, H4. etransitivity; [apply H3|]. etransitivity; [apply H4|]. apply rtc_once, step_pass_end.
Qed.
End runs.

(** ** A pass over old rows *)

Section stale.
Variable cfg : Config.
Variables (start d : Z).
Local Abbreviation delay := (pass_delay cfg).

Definition rc_row (id : string) (at_ : Z) : Transfer :=
  mkTransfer id DirectionEthereumToCanton TransferStatusPending "ethereum" "canton" "0x1" None "0xt" "1" "s" "r" 0 7 0 at_ at_ None None.
Definition rc_event (id : string) : Event := event_of_transfer (rc_row id 0).

(** A transfer that has been stuck for the retry delay. *)
Definition rc_a : Transfer := rc_row "a" (start - delay).
Definition rc_rows : gmap string Transfer := {["a"%string := rc_a]}.

(** The states of the run: the second transfer is created while the first,
    stuck one is waiting, the pass reads both, the processor completes the
    second, and the pass, late from the first, comes to its row. *)
Definition rc_b : Transfer := toTransferDao start (rc_row "b" 0).
Definition rc_both : gmap string Transfer := <["b"%string := rc_b]> rc_rows.
Definition rc_done : gmap string Transfer := alter (processed start (Ok ("0xb"%string, false))) "b" rc_both.
Definition rc_late : gmap string Transfer := alter (retried (start + delay) (Ok ("0xa"%string, false))) "a" rc_done.
Definition rc_b_call : Event * Submission := (rc_event "b", Ok ("0xb"%string, false)).
Definition rc_a_call : Event * Submission := (event_of_transfer rc_a, Ok ("0xa"%string, false)).

(** The processor is submitting, and the pass has read its row. *)
Definition rc_read : Sys := mkSys start rc_both [] [PIdle; PSubmitting (rc_event "b") start] (RPass [rc_a; rc_b]).
(** The processor is done; the pass waits for the destination. *)
Definition rc_completed : Sys := mkSys start rc_done [rc_b_call] [PIdle; PIdle] (RSubmitting rc_a [rc_b]).
(** The pass comes to the row it read. *)
Definition rc_again : Sys := mkSys (start + delay) rc_late [rc_b_call; rc_a_call] [PIdle; PIdle] (RSubmitting rc_b []).

Lemma rc_pending : pending_rows DirectionCantonToEthereum rc_both [] /\
  (0 <= delay -> pending_rows DirectionEthereumToCanton rc_both [rc_a; rc_b]).
Proof.
  assert (forall t, (exists id, rc_both !! id = Some t) <-> t = rc_a \/ t = rc_b) as Hin.
  { intros t. unfold rc_both, rc_rows. split.
    - intros [id [[<- <-]|[_ [<- <-]%lookup_singleton_Some]]%lookup_insert_Some]; auto.
    - intros [->| ->]; [exists "a"%string|exists "b"%string]; reflexivity. }
  split; [split; [|split; [constructor|constructor]]|intros Hd; split; [|split]].
  - intros t. split; [by intros ?%not_elem_of_nil|]. intros (id & Hid & Hdir & _).
    destruct (proj1 (Hin t) (ex_intro _ id Hid)) as [->| ->]; discriminate.
  - intros t. rewrite !elem_of_cons. split.
    + intros [->|[->|[]%not_elem_of_nil]]; [exists "a"%string|exists "b"%string]; done.
    + intros (id & Hid & _). destruct (proj1 (Hin t) (ex_intro _ id Hid)); auto.
  - constructor; [constructor; constructor|]. constructor. unfold created_before. cbn. lia.
  - intros _. cbn. repeat constructor; set_solver.
Qed.

Local Abbreviation run := (rtc (any_step cfg (Some d))).
Hypothesis limit_ok : 0 < d <= delay.

Lemma rc_not_exhausted id at_ : exhausted cfg (rc_row id at_) = false.
Proof. by apply not_exhausted. Qed.

Lemma rc_run_read : run (started start rc_rows) rc_read.
Proof.
  destruct rc_pending as [Hw Hdep].
  eapply rtc_l; [exists (Proc 1); by apply (step_create cfg _ 1%nat (rc_row "b" 0) (rc_event "b") start rc_rows [] [PIdle; PIdle] RIdle)|].
  eapply rtc_l; [exists Reconciler; by apply (step_read_withdrawals cfg _ [])|].
  apply rtc_once. exists Reconciler. apply (step_read_deposits cfg _ [] [rc_a; rc_b]). apply Hdep. lia.
Qed.

Lemma rc_run_completed : run rc_read rc_completed.
Proof.
  eapply rtc_l; [exists Reconciler; apply (step_retry cfg _ rc_a [rc_b]); [apply rc_not_exhausted|cbn; lia]|].
  eapply rtc_l; [exists (Proc 1); by apply (step_return cfg _ 1%nat (rc_event "b") start (Ok ("0xb"%string, false)) start _ [] [PIdle; PSubmitting (rc_event "b") start])|].
  apply rtc_once. exists (Proc 1). eapply (step_record cfg _ 1%nat (rc_event "b")); [reflexivity|]. apply wrote_row.
Qed.

Lemma rc_run_again : run rc_completed rc_again.
Proof.
  eapply rtc_l; [exists Clock; apply (step_tick cfg _ (start + delay)); [lia|]|].
  { intros [|[|i]] id a (p & Hp & Hb); cbn in Hp; simplify_eq; done. }
  eapply rtc_l; [exists Reconciler; apply (step_retry_return cfg _ rc_a [rc_b] (Ok ("0xa"%string, false)))|].
  eapply rtc_l; [exists Reconciler; apply step_retry_record, wrote_row|].
  apply rtc_once. exists Reconciler. apply (step_retry cfg _ rc_b []); [by apply not_exhausted|cbn; lia].
Qed.

Lemma rc_keys : keys_ok rc_rows.
Proof. intros id t. unfold rc_rows. rewrite lookup_singleton_Some. by intros [<- <-]. Qed.
End stale.


(** ** Witnesses *)

Definition rc_config : Config := mkConfig 5 (60 * Second) "canton" 0 10 "ethereum" 100 50 "0xtoken".


Lemma no_overlapping_submissions_witness : exists s,
  rtc (any_step rc_config (Some (1 * Second))) (started (100 * Second) (rc_rows rc_config (100 * Second))) s /\
  (length (in_flight s) = 2)%nat /\ NoDup (in_flight s).
Proof.
  assert (0 < 1 * Second <= pass_delay rc_config) as Hd by (split; vm_compute; [reflexivity|discriminate]).
  assert (rtc (any_step rc_config (Some (1 * Second))) (started (100 * Second) (rc_rows rc_config (100 * Second)))
    (mkSys (100 * Second) (rc_both rc_config (100 * Second)) [] [PIdle; PSubmitting (rc_event "b") (100 * Second)]
      (RSubmitting (rc_a rc_config (100 * Second)) [rc_b (100 * Second)]))) as Hrun.
  { eapply rtc_r; [by apply rc_run_read|]. exists Reconciler. apply step_retry; [reflexivity|vm_compute; discriminate]. }
  eexists. split; [exact Hrun|]. split; [reflexivity|].
  apply (no_overlapping_submissions rc_config (1 * Second) (100 * Second) (rc_rows rc_config (100 * Second))); [exact Hd|apply rc_keys|exact Hrun].
Defined.

(** A destination that records its calls with their outcomes. *)
Definition rc_submit (ev : Event) : M (list (Event * Submission)) (string * bool) := fun x =>
  let r := if bool_decide (ev_Amount ev = ""%string) then Err (ErrNew "invalid amount") else Ok ("0xabc"%string, false) in
  (r, x ++ [(ev, r)]).
Definition rc_processor : Processor RelayerDB (list (Event * Submission)) :=
  mkProcessor "ethereum" (fun ev => FormatUint (ev_SourceBlockNumber ev)) "canton" rc_submit DirectionEthereumToCanton None None.
Definition rc_state : ProcState RelayerDB (list (Event * Submission)) :=
  mkProcState (mkEngine (mkDB (mkRelayerTables ∅ ∅) []) [] "" 0 false false None) "" [].

Lemma rc_logs : logs (fun x : list (Event * Submission) => x) rc_submit.
Proof. by intros ev x. Qed.

(** An event and a pass on the PostgreSQL store: one call, then none. *)
Lemma goroutines_are_runs_witness :
  let ev := ex_event "c" 3 in
  let st' := (processEvent 5 rc_processor ev rc_state).2 in
  let e' := (runReconciliation rc_config (10 * Minute) (Some rc_submit) (Some rc_submit) (ps_engine st')).2 in
  world st' = [(ev, Ok ("0xabc"%string, false))] /\
  rtc (sys_step rc_config None (Proc 0)) (mkSys 5 ∅ [] [PIdle; PIdle] RIdle) (mkSys 5 (rows st') (world st') [PIdle; PIdle] RIdle) /\
  rtc (sys_step rc_config None Reconciler) (mkSys (10 * Minute) (rows st') (world st') [PIdle; PIdle] RIdle)
    (mkSys (10 * Minute) (bs_transfers (e_store e')) (e_ext e') [PIdle; PIdle] RIdle).
Proof.
  intros ev st' e'. split; [vm_compute; reflexivity|].
  pose proof (fun now st e => goroutines_are_runs rc_config None (fun x => x) rc_processor now ev rc_submit rc_submit st e 0 [PIdle; PIdle] RIdle
    (fun _ H => match H with eq_refl => I end) rc_logs (fun _ _ _ _ H => match H with eq_refl => I end) rc_logs rc_logs eq_refl) as Hruns.
  split.
  - destruct (Hruns 5 rc_state (ps_engine rc_state)) as [Hp _]. unfold wp in Hp. subst st'. by destruct (processEvent 5 rc_processor ev rc_state).
  - destruct (Hruns (10 * Minute) rc_state (ps_engine st')) as [_ Hr]. unfold wp in Hr. subst e'. by destruct (runReconciliation _ _ _ _ _).
Defined.
