(* ===== verification/RelayerScenarios.v ===== *)
(** * Relayer scenarios

    A concrete outside world (a Canton ledger with PendingDeposit contracts
    and an EVM bridge contract with its set of processed withdrawals) that
    instantiates the two bridge interfaces, the witnesses of the engine's
    theorems on it, and the scenarios in which the bridge loses a deposit. *)

From S2P Require Import Prelude AppErrors Effects GoStd EthClient RelayerStore Decimal RelayerChains RelayerProcessor RelayerEngine RelayerEngineProofs.

(** A pending deposit carries the EVM transaction hash; IsDepositProcessed
    looks for an active PendingDeposit or DepositReceipt with that hash.
    [w_mint_faults] says which of the next mint calls fail. *)
Record World := mkWorld {
  w_ledgerEnd : Z;
  w_deposits : list (string * (string * string));
  w_minted : list string;
  w_mint_faults : list bool;
  w_head : Z;
  w_scanned : Z;
  w_released : list (list Z);
}.

#[export] Instance World_canton : CantonBridge World := {|
  IsDepositProcessed hash := fun w => (Ok (bool_decide (hash ∈ (w_deposits w).*1)), w);
  CreatePendingDeposit fp amount hash := fun w =>
    (Ok (hash, fp), mkWorld (w_ledgerEnd w) (w_deposits w ++ [(hash, (fp, amount))]) (w_minted w)
      (w_mint_faults w) (w_head w) (w_scanned w) (w_released w));
  ProcessDepositAndMint cid mapping := fun w =>
    match w_mint_faults w with
    | true :: fs => (Err (ErrNew "participant unavailable"),
        mkWorld (w_ledgerEnd w) (w_deposits w) (w_minted w) fs (w_head w) (w_scanned w) (w_released w))
    | fs => (Ok ("holding-" +:+ cid)%string,
        mkWorld (w_ledgerEnd w) (w_deposits w) (w_minted w ++ [cid]) (tail fs) (w_head w) (w_scanned w) (w_released w))
    end;
  CompleteWithdrawal _ _ := mret tt;
  GetLatestLedgerOffset := fun w => (Ok (w_ledgerEnd w), w);
|}.

#[export] Instance World_ethereum : EthereumBridge World := {|
  GetLatestBlockNumber := fun w => (Ok (w_head w), w);
  WithdrawFromCanton _ _ _ _ hash := fun w =>
    (Ok hash, mkWorld (w_ledgerEnd w) (w_deposits w) (w_minted w) (w_mint_faults w) (w_head w)
      (w_scanned w) (w_released w ++ [hash]));
  IsWithdrawalProcessed hash := fun w => (Ok (bool_decide (hash ∈ w_released w)), w);
  GetLastScannedBlock := w_scanned;
|}.

#[export] Existing Instance RefDecimal.lib.
#[export] Existing Instance example_geth.

Definition sc_config : Config := mkConfig 3 (5 * Minute) "canton" 0 10 "ethereum" 100 50 "0xtoken".
Definition sc_world (faults : list bool) : World := mkWorld 500 [] [] faults 1000 0 [].
Definition sc_engine (tb : RelayerTables) (w : World) : Engine RelayerDB World :=
  mkEngine (mkDB tb []) w "" 0 false false None.
Definition sc_empty : RelayerTables := mkRelayerTables ∅ ∅.

(** A deposit log: transaction hash [1], amount 10^18 wei, a block and a log index. *)
Definition sc_deposit (blk idx : Z) : Event :=
  ethereumSource_event (mkDepositEvent [10] [20] [30] 1000000000000000000 7 blk [1] idx false).
Definition sc_checkpoint (blk : Z) : Event := ethereumSource_event (checkpoint_event blk).

(** ** Witnesses *)

Lemma ethereum_offset_restart_witness :
  exists e1 e2 : Engine RelayerDB World,
    ParseUint "250" = Ok (ethLastBlock e1) /\ ethLastBlock e2 = Z.max (ethLastBlock e1) 100.
Proof.
  eexists _, _.
  apply (ethereum_offset_restart sc_config 7 "250" (sc_engine sc_empty (sc_world []))
           _ (mkDB (mkRelayerTables ∅ {["ethereum"%string := mkChainState "ethereum" 250 "250" 7]}) []) _);
    vm_compute; reflexivity.
Defined.

Definition sc_ahead : Engine RelayerDB World :=
  sc_engine (mkRelayerTables ∅ {["canton"%string := mkChainState "canton" 0 "900" 1]}) (sc_world []).

Lemma loadCantonOffset_not_ahead_witness :
  cantonOffset (loadCantonOffset sc_config 7 sc_ahead).2 = "490"%string /\
  wp (loadCantonOffset sc_config 7) (fun r e' => r = Ok tt ->
    match ParseInt (cantonOffset e') with
    | Ok n => n <= 500
    | Err _ => cantonOffset e' = OffsetBegin \/ cantonOffset e' = "900"%string
    end /\
    (cantonOffset e' = "900"%string \/
     bs_chains (e_store e') !! "canton"%string =
       Some (mkChainState "canton" 0 (cantonOffset e') 7))) sc_ahead.
Proof.
  split; [vm_compute; reflexivity|].
  apply (loadCantonOffset_not_ahead sc_config 7 (mkChainState "canton" 0 "900" 1) 500 (sc_world []) sc_ahead).
  - reflexivity.
  - int_lia.
  - reflexivity.
Defined.

(** A stuck withdrawal, a stuck deposit, an exhausted one and a completed one. *)
Definition sc_row (id : string) (dir : TransferDirection) (st : TransferStatus) (retries : Z) : Transfer :=
  mkTransfer id dir st "a" "b" "0a" None "0x" "5" "s" "r" 0 1 retries 0 0 None None.
Definition sc_rows : gmap string Transfer := {[
  "w"%string := sc_row "w" DirectionCantonToEthereum TransferStatusPending 0;
  "d"%string := sc_row "d" DirectionEthereumToCanton TransferStatusPending 1;
  "x"%string := sc_row "x" DirectionEthereumToCanton TransferStatusPending 3;
  "c"%string := sc_row "c" DirectionEthereumToCanton TransferStatusCompleted 0 ]}.
Definition sc_stuck : Engine RelayerDB World := sc_engine (mkRelayerTables sc_rows ∅) (sc_world []).
Definition sc_ethDest : option (Event -> M World (string * bool)) := Some EthereumDestination_SubmitTransfer.
Definition sc_cantonDest : option (Event -> M World (string * bool)) := Some CantonDestination_SubmitTransfer.

Lemma runReconciliation_correct_witness :
  let e' := (runReconciliation sc_config (10 * Minute) sc_ethDest sc_cantonDest sc_stuck).2 in
  (w_minted (e_ext e') = ["0a"%string] /\
   t_Status <$> transfers (tables (e_store e')) !! "x"%string = Some TransferStatusFailed /\
   t_Status <$> transfers (tables (e_store e')) !! "w"%string = Some TransferStatusCompleted) /\
  forall r e'', runReconciliation sc_config (10 * Minute) sc_ethDest sc_cantonDest sc_stuck = (r, e'') ->
    r = Ok tt -> exists withdrawals, pending_rows sc_rows DirectionCantonToEthereum withdrawals.
Proof.
  split; [vm_compute; auto|]. intros r e'' Hrun ->.
  destruct (wp_run _ _ _ _ _
    (runReconciliation_correct sc_config (10 * Minute) sc_ethDest sc_cantonDest sc_stuck
       ltac:(intros id t Hid; apply elem_of_map_to_list in Hid; vm_compute in Hid;
             repeat (apply elem_of_cons in Hid as [[= -> ->]|Hid]; [reflexivity|]);
             by apply not_elem_of_nil in Hid)) Hrun) as (wl & dl & H & _).
  by exists wl.
Defined.

(** ** Scenarios that lose a deposit *)

Definition sc_run (faults : list (option string)) (mint : list bool) (evs : list (Z * Event))
    : ProcState RelayerDB World :=
  (Start (ethProcessor sc_config) evs
     (mkProcState (mkEngine (mkDB sc_empty faults) (sc_world mint) "" 0 false false None) "" [])).2.

(** The id and status of every row, and the persisted Ethereum block. *)
Definition sc_statuses (tb : RelayerTables) : list (string * TransferStatus) :=
  prod_map id t_Status <$> map_to_list (transfers tb).
Definition sc_block (tb : RelayerTables) : option Z := cs_LastBlock <$> chain_state tb !! "ethereum"%string.

(** A deposit whose row could not be inserted is skipped for good.  The
    database fails once, on the insert of a deposit of block 250; the next
    checkpoint of block 260 is persisted regardless, so the stream resumes
    behind the deposit, which has no row for reconciliation to find. *)
Theorem failed_insert_is_skipped :
  let st := sc_run [Some "db down"%string] [] [(1, sc_deposit 250 0); (2, sc_checkpoint 260)] in
  sc_statuses (tables (e_store (ps_engine st))) = [] /\
  sc_block (tables (e_store (ps_engine st))) = Some 260 /\
  ethLastBlock (ps_engine st) = 260 /\
  w_minted (e_ext (ps_engine st)) = [].
Proof. vm_compute. auto. Qed.

(** A deposit whose mint fails is later marked completed without a mint.
    The PendingDeposit contract exists, so the retry's IsDepositProcessed
    check answers true and the transfer is skipped as already processed. *)
Theorem failed_mint_is_completed :
  let st := sc_run [] [true] [(1, sc_deposit 250 0)] in
  let e' := (runReconciliation sc_config (10 * Minute) sc_ethDest sc_cantonDest (ps_engine st)).2 in
  (snd <$> sc_statuses (tables (e_store (ps_engine st)))) = [TransferStatusPending] /\
  (snd <$> sc_statuses (tables (e_store e'))) = [TransferStatusCompleted] /\
  w_minted (e_ext e') = [].
Proof. vm_compute. auto. Qed.

(** Of two deposit logs of one EVM transaction only the first is minted:
    the transfers have different ids but the idempotency check is by
    transaction hash alone, so the second is completed as already processed. *)
Theorem second_deposit_of_transaction_is_completed :
  let st := sc_run [] [] [(1, sc_deposit 250 0); (1, sc_deposit 250 1)] in
  (snd <$> sc_statuses (tables (e_store (ps_engine st)))) = [TransferStatusCompleted; TransferStatusCompleted] /\
  length (w_minted (e_ext (ps_engine st))) = 1%nat /\ ps_errors st = [].
Proof. vm_compute. auto. Qed.
