(* ===== verification/RelayerDelivery.v ===== *)
(** * RelayerDelivery: deposits from the chain to the transfers table

    The composition that Start of pkg/relayer/engine/engine.go makes for the
    Ethereum side: the stored block, the deposit poller, the source and the
    processor, through any number of lives of the process.  When the process
    stops between blocks, every deposit up to the stored block has its row or
    was counted as an error.  A processor stores the block of each deposit it
    has processed and a restart resumes after that block, so a process that
    stops between two deposits of one block loses the second. *)

From S2P Require Import Prelude AppErrors Effects GoStd EthClient RelayerStore Decimal RelayerChains RelayerProcessor RelayerEngine RelayerEngineProofs RelayerScenarios.
Local Open Scope Z_scope.

(** ** The stream of a life *)

(** The channel between the poller and the processor. *)
Definition emit (ev : DepositEvent) : M (list DepositEvent) unit := fun l => (Ok tt, l ++ [ev]).

(** A tick: the head it is told, and what the node answers to eth_getLogs. *)
Abbreviation Tick := (result Z * Filter)%type.

Section poller.
Variable MaxBlockRange : Z.

Definition watch (from : Z) (ticks : list Tick) : Watch (list DepositEvent) :=
  foldl (fun w t => (tick emit t.2 MaxBlockRange t.1 w).2) (watch_start from [] 0) ticks.

(** The chain: its deposits, by block. *)
Variable chain : list DepositEvent.
Hypothesis chain_ordered : StronglySorted (fun a b => de_BlockNumber a <= de_BlockNumber b) chain.
Hypothesis chain_deposits : Forall (fun d => de_Checkpoint d = false) chain.

Definition in_range (r : blockRange) (d : DepositEvent) : Prop := r_start r <= de_BlockNumber d <= r_end r.
#[local] Instance in_range_dec r d : Decision (in_range r d).
Proof. unfold in_range. apply _. Defined.

(** Documented behaviour of eth_getLogs: the deposits of the range in order,
    all of them when the iterator ends without an error. *)
Definition node_ok (f : Filter) : Prop := forall r evs err, f r = Ok (evs, err) ->
  exists k, evs = take k (filter (in_range r) chain) /\ (err = None -> evs = filter (in_range r) chain).

(** Everything before an element of the stream has been streamed. *)
Definition covers (from : Z) (l : list DepositEvent) : Prop := forall pre ev post dep,
  l = pre ++ ev :: post -> dep ∈ chain -> from < de_BlockNumber dep ->
  (de_BlockNumber dep < de_BlockNumber ev \/ (de_Checkpoint ev = true /\ de_BlockNumber dep <= de_BlockNumber ev)) -> dep ∈ pre.

Lemma covers_nil from : covers from [].
Proof. intros [|? pre] ev post dep; discriminate. Qed.

Lemma covers_snoc from l ev : covers from l ->
  (forall dep, dep ∈ chain -> from < de_BlockNumber dep ->
    (de_BlockNumber dep < de_BlockNumber ev \/ (de_Checkpoint ev = true /\ de_BlockNumber dep <= de_BlockNumber ev)) -> dep ∈ l) ->
  covers from (l ++ [ev]).
Proof.
  intros Hl Hev pre ev' post dep Heq Hin Hfrom Hblk. destruct (decide (post = [])) as [->|Hne].
  - apply app_inj_tail in Heq as [-> ->]. by apply Hev.
  - destruct (exists_last Hne) as (post' & x & ->). rewrite app_comm_cons, app_assoc in Heq.
    apply app_inj_tail in Heq as [-> _]. by eapply Hl.
Qed.

(** An element of an ordered list comes after those of lower blocks. *)
Lemma ordered_before (l : list DepositEvent) pre ev post dep :
  StronglySorted (fun a b => de_BlockNumber a <= de_BlockNumber b) l -> l = pre ++ ev :: post ->
  dep ∈ l -> de_BlockNumber dep < de_BlockNumber ev -> dep ∈ pre.
Proof.
  intros Hs -> Hin Hlt. apply elem_of_app in Hin as [Hin|Hin]; [done|]. exfalso.
  clear -Hs Hin Hlt. induction pre as [|x pre IH]; cbn in Hs; inversion_clear Hs as [|? ? Hs' Hall].
  - apply elem_of_cons in Hin as [->|Hin]; [lia|]. rewrite Forall_forall in Hall. specialize (Hall _ Hin). lia.
  - by apply IH.
Qed.

Lemma ordered_filter (P : DepositEvent -> Prop) `{!forall d, Decision (P d)} l :
  StronglySorted (fun a b => de_BlockNumber a <= de_BlockNumber b) l ->
  StronglySorted (fun a b => de_BlockNumber a <= de_BlockNumber b) (filter P l).
Proof.
  intros Hl. induction Hl as [|x l Hs IH Hx]; [constructor|]. rewrite filter_cons. destruct (decide (P x)); [|done].
  constructor; [done|]. rewrite Forall_forall in *. intros y [_ Hy]%list_elem_of_filter. by apply Hx.
Qed.

(** The deposits of a slice, or the first of them, after everything up to the
    slice. *)
Lemma covers_slice from r k l :
  covers from l -> (forall dep, dep ∈ chain -> from < de_BlockNumber dep < r_start r -> dep ∈ l) ->
  covers from (l ++ take k (filter (in_range r) chain)).
Proof.
  intros Hl Hbelow. induction k as [|k IH]; [by rewrite take_0, app_nil_r|].
  destruct (filter (in_range r) chain !! k) as [ev|] eqn:Hk;
    [|apply lookup_ge_None in Hk; rewrite !take_ge in * by lia; exact IH].
  rewrite (take_S_r _ _ _ Hk), app_assoc. apply covers_snoc; [done|]. intros dep Hin Hfrom Hblk.
  pose proof (list_elem_of_lookup_2 _ _ _ Hk) as [Hev Hevin]%list_elem_of_filter. unfold in_range in Hev.
  destruct Hblk as [Hlt|[Hcp _]]; [|rewrite Forall_forall in chain_deposits; by rewrite chain_deposits in Hcp].
  apply elem_of_app. destruct (decide (de_BlockNumber dep < r_start r)) as [Hb|Hb]; [left; apply Hbelow; [done|lia]|right].
  eapply (ordered_before (filter (in_range r) chain) _ ev (drop (S k) (filter (in_range r) chain)));
    [by apply ordered_filter|by rewrite take_drop_middle| |done].
  apply list_elem_of_filter. split; [unfold in_range; lia|done].
Qed.

(** ** The poller streams everything *)

(** What holds of the poller after its ticks. *)
Record watch_inv (from : Z) (w : Watch (list DepositEvent)) : Prop := {
  wi_block : is_uint64 (currentBlock w);
  wi_from : from <= currentBlock w;
  wi_covers : covers from (consumer w);
  wi_after : Forall (fun ev => from < de_BlockNumber ev /\ is_uint64 (de_BlockNumber ev)) (consumer w);
  wi_done : forall dep, dep ∈ chain -> from < de_BlockNumber dep <= currentBlock w -> dep ∈ consumer w;
  wi_source : Forall (fun ev => de_Checkpoint ev = false -> ev ∈ chain) (consumer w);
}.

Lemma emit_all evs g : forall w : Watch (list DepositEvent),
  for_each evs (fun ev => wrapping (g ev) (handle emit ev)) w = (Ok tt, mkWatch (currentBlock w) (lastScannedBlock w) (consumer w ++ evs)).
Proof.
  induction evs as [|ev evs IH]; intros [c s l]; cbn [for_each]; [by rewrite app_nil_r|].
  unfold mbind, M_bind. unfold wrapping at 1, handle at 1, zoom, emit at 1. cbn -[for_each]. rewrite IH. cbn. by rewrite <- app_assoc.
Qed.

(** A slice right after the blocks that are done. *)
Lemma scanSlice_inv f from r w : node_ok f -> watch_inv from w -> r_start r = currentBlock w + 1 -> r_start r <= r_end r -> is_uint64 (r_end r) ->
  wp (scanSlice emit f r) (fun res w' => watch_inv from w' /\ match res with Ok _ => currentBlock w' = r_end r | Err _ => True end) w.
Proof.
  intros Hf [Hu Hfr Hcov Hafter Hdone Hsrc] Hs Hle Hend. unfold scanSlice, scanDepositRange.
  destruct (f r) as [[evs err]|e] eqn:Hr; [|by apply wp_fail].
  destruct (Hf _ _ _ Hr) as (k & Hevs & Hall).
  assert (covers from (consumer w ++ evs)) as Hcov'.
  { rewrite Hevs. apply covers_slice; [done|]. intros dep Hin Hb. apply Hdone; [done|lia]. }
  assert (Forall (fun ev => from < de_BlockNumber ev /\ is_uint64 (de_BlockNumber ev)) (consumer w ++ evs)) as Hafter'.
  { apply Forall_app. split; [done|]. rewrite Hevs. apply Forall_take, Forall_forall. intros d [Hr' _]%list_elem_of_filter.
    unfold in_range in Hr'. split; [lia|int_lia]. }
  assert (Forall (fun ev => de_Checkpoint ev = false -> ev ∈ chain) (consumer w ++ evs)) as Hsrc'.
  { apply Forall_app. split; [done|]. rewrite Hevs. apply Forall_take, Forall_forall. by intros d [_ Hd]%list_elem_of_filter. }
  apply wp_bind, wp_bind. unfold wp at 1. rewrite emit_all. destruct err as [e|].
  { apply wp_fail. split; [|done]. split; cbn; [done|done|done|done| |done]. intros dep Hin Hb. apply elem_of_app. left. by apply Hdone. }
  apply wp_ret. unfold handle, emit, advance, setLastScannedBlock. wp_go. cbn.
  assert (forall dep, dep ∈ chain -> from < de_BlockNumber dep <= r_end r -> dep ∈ consumer w ++ evs) as Hnow.
  { intros dep Hin Hb. apply elem_of_app. destruct (decide (de_BlockNumber dep <= currentBlock w)) as [Hc|Hc]; [left; apply Hdone; [done|lia]|right].
    rewrite (Hall eq_refl). apply list_elem_of_filter. split; [unfold in_range; lia|done]. }
  split; [|done]. split; cbn; [done|lia| | | |].
  - apply covers_snoc; [done|]. intros dep Hin Hb Hblk. apply Hnow; [done|]. cbn in Hblk. lia.
  - apply Forall_app. split; [done|]. apply Forall_singleton. cbn. split; [lia|done].
  - intros dep Hin Hb. apply elem_of_app. left. by apply Hnow.
  - apply Forall_app. split; [done|]. by apply Forall_singleton.
Qed.

(** The slices of a tick follow each other. *)
Fixpoint contiguous (s : Z) (cs : list blockRange) : Prop :=
  match cs with
  | [] => True
  | r :: cs => r_start r = s /\ r_start r <= r_end r /\ is_uint64 (r_end r) /\ contiguous (r_end r + 1) cs
  end.

Lemma partition_contiguous maxRange cs : forall s n,
  concat (range_blocks <$> cs) = seqZ s n -> Forall (slice_ok maxRange) cs -> contiguous s cs.
Proof.
  induction cs as [|r cs IH]; intros s n Hc Hok; [done|]. apply Forall_cons in Hok as [(Hle & _ & _ & Hu) Hok].
  cbn in Hc. unfold range_blocks at 1 in Hc.
  assert (0 < n) as Hn. { destruct (decide (0 < n)); [done|]. rewrite (seqZ_nil s n) in Hc by lia. rewrite seqZ_cons in Hc by lia. discriminate. }
  pose proof Hc as Hc'. rewrite seqZ_cons, (seqZ_cons s n) in Hc by lia. injection Hc as Hs _.
  cbn. split; [done|]. split; [done|]. split; [done|].
  rewrite Hs in Hc'. set (len := r_end r - s + 1) in *.
  assert (len <= n) as Hlen.
  { apply (f_equal length) in Hc'. rewrite length_app, !length_seqZ in Hc'. lia. }
  replace n with (len + (n - len)) in Hc' by lia. rewrite (seqZ_app s len (n - len)) in Hc' by lia. apply app_inv_head in Hc'.
  replace (r_end r + 1) with (s + len) by lia. by eapply IH.
Qed.

Lemma slices_inv f from cs : node_ok f -> forall w, watch_inv from w -> contiguous (currentBlock w + 1) cs ->
  wp (for_each cs (scanSlice emit f)) (fun _ w' => watch_inv from w') w.
Proof.
  intros Hf. induction cs as [|r cs IH]; intros w Hw Hc; cbn [for_each]; [by apply wp_ret|].
  destruct Hc as (Hs & Hle & Hu & Hc). apply wp_bind. eapply wp_mono; [by apply scanSlice_inv|].
  intros [[]|e] w' [Hw' Hcur]; [|done]. apply IH; [done|]. by rewrite Hcur.
Qed.

Hypothesis range_ok : is_uint64 MaxBlockRange /\ 0 < MaxBlockRange.

Definition tick_ok (t : Tick) : Prop := node_ok t.2 /\ forall latest, t.1 = Ok latest -> is_uint64 latest.

Lemma tick_inv from t w : tick_ok t -> watch_inv from w -> watch_inv from (tick emit t.2 MaxBlockRange t.1 w).2.
Proof.
  intros [Hf Hl] Hw. destruct range_ok as [Hm Hm0]. destruct t as [[latest|e] f]; cbn in *; [|done].
  specialize (Hl latest eq_refl). unfold tick, mbind, M_bind, get. cbn. pose proof (wi_block _ _ Hw) as Hu.
  destruct (Z.leb_spec latest (currentBlock w)) as [Hle|Hgt]; [by destruct Hw|].
  rewrite (uint64_id (currentBlock w + 1)) by int_lia. unfold attempt.
  pose proof (chunkRange_loop 0 (currentBlock w + 1) latest MaxBlockRange ltac:(int_lia) Hl Hm Hm0 ltac:(lia)) as Hcs.
  rewrite Nat.add_0_r in Hcs.
  destruct (chunk_loop_spec (Z.to_nat ((latest - (currentBlock w + 1)) / MaxBlockRange + 1)) (currentBlock w + 1) latest MaxBlockRange)
    as [Hcat Hok]; try done; try int_lia.
  rewrite <- Hcs in Hcat, Hok. pose proof (slices_inv f from _ Hf w Hw (partition_contiguous _ _ _ _ Hcat Hok)) as Hwp.
  unfold wp in Hwp. by destruct (for_each _ _ w) as [[[]|e] w'].
Qed.

Lemma watch_inv_ticks from ticks : is_uint64 from -> Forall tick_ok ticks -> watch_inv from (watch from ticks).
Proof.
  intros Hu Hok. unfold watch. assert (watch_inv from (watch_start from [] 0)) as Hw.
  { split; cbn; [done|lia|apply covers_nil|constructor| |constructor]. intros dep _. lia. }
  revert Hw. generalize (watch_start from ([] : list DepositEvent) 0). induction Hok as [|t ticks Ht Hok IH]; intros w Hw; cbn; [done|].
  apply IH. by apply tick_inv.
Qed.
End poller.

(** ** The stored block *)

Section processor.
Context {S X : Type} `{!BridgeStore S} `{!BridgeStoreLaws S} `{!CantonBridge X} `{!EthereumBridge X} `{!GoEthereum} `{!DecimalLib}.
Variable cfg : Config.
Local Abbreviation E := (Engine S X).
Local Abbreviation P := (ethProcessor (S := S) (X := X) cfg).

(** The stored state is as before, or that of the event. *)
Definition stored_by (ev : Event) (st st' : ProcState S X) : Prop :=
  chains st' !! EthChainID cfg = chains st !! EthChainID cfg \/
  exists cs, chains st' !! EthChainID cfg = Some cs /\ cs_LastBlock cs = ev_SourceBlockNumber ev.

Lemma persistOffset_stored now ev st : is_uint64 (ev_SourceBlockNumber ev) ->
  wp (persistOffset now P ev) (fun _ st' => stored_by ev st st') st.
Proof.
  intros Hu. unfold persistOffset. cbn [p_onOffsetUpdate ethProcessor p_extract p_sourceChain]. wp_go.
  destruct (_ || _) eqn:Hskip; [by left|]. unfold set_lastSavedOffset, on_engine. wp_go.
  eapply wp_mono; [apply saveChainOffset_spec|]. cbn. intros [[]|err] e' (_ & _ & Hc); wp_go; unfold stored_by, chains; cbn.
  - destruct Hc as (n & Hn & Hc & _). right. rewrite Hc, lookup_insert_eq. eexists. split; [done|]. cbn.
    unfold offset_block in Hn. rewrite bool_decide_true in Hn by done. unfold ethereumSource_ExtractOffset in *.
    destruct (Z.leb_spec (ev_SourceBlockNumber ev) 0); [done|]. rewrite ParseUint_FormatUint in Hn by int_lia. by injection Hn as <-.
  - destruct Hc as [-> _]. by left.
Qed.

(** A write to the transfers keeps the stored state. *)
Lemma wp_update_stored now id s h m st (Q : result (result unit) -> ProcState S X -> Prop) :
  (forall r st', chains st' = chains st -> Q (Ok r) st') ->
  wp (attempt (on_engine (on_store (bs_update now id s h m)))) Q st.
Proof.
  intros HQ. apply wp_attempt, on_store_spec. eapply wp_mono; [apply law_update|].
  intros r s' [Hc _] st' <- _ _ _. apply HQ. exact Hc.
Qed.

Lemma processEvent_stored now ev st : is_uint64 (ev_SourceBlockNumber ev) ->
  wp (processEvent now P ev) (fun _ st' => stored_by ev st st') st.
Proof.
  intros Hu. unfold processEvent. apply wp_bind, wp_wrapping, on_store_spec. eapply wp_mono; [apply law_create|].
  intros r s' [Hc _] st1 <- _ _ _. change (chains st1 = chains st) in Hc.
  assert (forall st2, chains st2 = chains st -> wp (persistOffset now P ev) (fun _ st' => stored_by ev st st') st2) as Hpersist.
  { intros st2 H2. eapply wp_mono; [by apply persistOffset_stored|]. intros r' st3. unfold stored_by. by rewrite H2. }
  destruct r as [[]|e]; [|by apply Hpersist|by left; rewrite Hc]. cbn [negb].
  apply wp_bind, wp_attempt, on_ext_spec, wp_intro. intros sub x Hsub st2 H2 _ _ _.
  assert (chains st2 = chains st) as Hc2 by (unfold chains in *; by rewrite H2).
  destruct sub as [[h []]|e]; apply wp_bind, wp_update_stored; intros r3 st3 H3; rewrite Hc2 in H3.
  - by apply Hpersist.
  - cbn [p_onPostSubmit ethProcessor]. apply wp_bind, wp_ret. by apply Hpersist.
  - apply wp_fail. left. by rewrite H3.
Qed.

Lemma step_stored now ev st : is_uint64 (ev_SourceBlockNumber ev) ->
  wp (step P now ev) (fun _ st' => stored_by ev st st') st.
Proof.
  intros Hu. unfold step. destruct (ev_Checkpoint ev); [by apply persistOffset_stored|].
  apply wp_bind, wp_attempt. eapply wp_mono; [by apply processEvent_stored|]. intros [[]|e] st1 H1; [by apply wp_ret|].
  unfold count_error. by apply wp_modify.
Qed.

(** A run over events: the rows are kept, the errors too, every deposit left a
    trace, and the stored block is an earlier one or that of an event. *)
Lemma Start_effects evs st : (forall now ev, (now, ev) ∈ evs -> is_uint64 (ev_SourceBlockNumber ev)) ->
  wp (Start P evs) (fun _ st' =>
    (forall id, is_Some (rows st !! id) -> is_Some (rows st' !! id)) /\
    (forall id, id ∈ ps_errors st -> id ∈ ps_errors st') /\
    (forall now ev, (now, ev) ∈ evs -> ev_Checkpoint ev = false -> is_Some (rows st' !! ev_ID ev) \/ ev_ID ev ∈ ps_errors st') /\
    (chains st' !! EthChainID cfg = chains st !! EthChainID cfg \/
     exists now ev cs, (now, ev) ∈ evs /\ chains st' !! EthChainID cfg = Some cs /\ cs_LastBlock cs = ev_SourceBlockNumber ev)) st.
Proof.
  pose proof (proj2 (engine_offset_frame (S := S) (X := X) cfg)) as Hf.
  unfold Start. revert st. induction evs as [|[now ev] evs IH]; intros st Hu; cbn [for_each].
  { apply wp_ret. split_and!; try done; [|by left]. intros now ev []%not_elem_of_nil. }
  apply wp_bind, wp_intro. intros r st1 Hrun.
  pose proof (fun id => wp_run _ _ _ _ _ (step_rows P now ev st id Hf) Hrun) as Hstep.
  pose proof (wp_run _ _ _ _ _ (step_stored now ev st (Hu now ev ltac:(by left))) Hrun) as Hst.
  destruct (Hstep (ev_ID ev)) as [-> _].
  eapply wp_mono; [apply IH; intros now' ev' Hin; apply (Hu now' ev'); by right|].
  intros r st2 (Hm & He & Hr & Hc). split_and!.
  - intros id Hid. apply Hm. by apply (Hstep id).
  - intros id Hid. apply He. by apply (Hstep id).
  - intros now' ev' [[= -> ->]|Hin]%elem_of_cons Hcp; [|by eapply Hr].
    destruct (Hstep (ev_ID ev)) as (_ & _ & _ & [Hs|Hs]); auto.
  - destruct Hc as [Hc|(now' & ev' & cs & Hin & Hc)]; [|right; exists now', ev', cs; split; [by right|done]].
    rewrite Hc. destruct Hst as [->|(cs & -> & Hcs)]; [by left|]. right. exists now, ev, cs. split; [by left|done].
Qed.

(** An id that no event has gets no row and no error. *)
Lemma Start_elsewhere evs id st : (forall now ev, (now, ev) ∈ evs -> ev_Checkpoint ev = false -> ev_ID ev <> id) ->
  wp (Start P evs) (fun _ st' => rows st' !! id = rows st !! id /\ (id ∈ ps_errors st' -> id ∈ ps_errors st)) st.
Proof.
  pose proof (proj2 (engine_offset_frame (S := S) (X := X) cfg)) as Hf. intros Hid.
  apply (wp_for_each _ _ (fun st' => rows st' !! id = rows st !! id /\ (id ∈ ps_errors st' -> id ∈ ps_errors st))); [done|].
  intros [now ev] st1 Hin [Hr He]. unfold step. destruct (ev_Checkpoint ev) eqn:Hcp.
  { eapply wp_mono; [by apply persistOffset_spec|]. intros r st2 (_ & -> & _ & ->). done. }
  specialize (Hid now ev Hin Hcp). apply wp_bind, wp_attempt. eapply wp_mono; [by apply processEvent_outcome|].
  intros r st2 [Ho Hes]. assert (rows st2 !! id = rows st1 !! id) as H2.
  { destruct Ho as [?? _ -> _|?? [->|[_ ->]] _ _ _|????? _ _ _ -> _ _ _]; rewrite ?lookup_insert_ne by done; done. }
  destruct r as [[]|err]; [apply wp_ret; rewrite H2, Hes; done|]. unfold count_error. apply wp_modify. unfold rows in *. cbn.
  rewrite H2. split; [done|]. rewrite Hes. intros [Hi|Hi%list_elem_of_singleton]%elem_of_app; [by apply He|by subst].
Qed.
End processor.

(** ** Lives of the relayer *)

(** A life: what the ticks of the poller see, how many of the streamed events
    the processor consumes before the process stops, and its clock. *)
Record RLife := mkRLife { rl_ticks : list Tick; rl_taken : nat; rl_clock : nat -> Z }.

Section lives.
Context {S X : Type} `{!BridgeStore S} `{!BridgeStoreLaws S} `{!CantonBridge X} `{!EthereumBridge X} `{!GoEthereum} `{!DecimalLib}.
Variables (cfg : Config) (MaxBlockRange : Z).
Local Abbreviation E := (Engine S X).
Local Abbreviation P := (ethProcessor (S := S) (X := X) cfg).

(** A new process on the database and the world of the last one. *)
Definition restarted (e : E) : E := mkEngine (e_store e) (e_ext e) "" 0 false false None.

Definition consumed (l : RLife) (from : Z) : list DepositEvent := take (rl_taken l) (consumer (watch MaxBlockRange from (rl_ticks l))).

Definition events_of_life (l : RLife) (from : Z) : list (Z * Event) :=
  imap (fun i d => (rl_clock l i, ethereumSource_event d)) (consumed l from).

(** The Ethereum side of Start: the engine it leaves, and the events that were
    counted as errors. *)
Definition relayer_life (l : RLife) (e : E) : E * list string :=
  match loadEthereumOffset cfg (restarted e) with
  | (Err _, e1) => (e1, [])
  | (Ok _, e1) =>
      match ethereumSource_fromBlock (FormatUint (ethLastBlock e1)) with
      | Err _ => (e1, [])
      | Ok from =>
          let '(_, st) := Start P (events_of_life l from) (mkProcState e1 "" []) in (ps_engine st, ps_errors st)
      end
  end.

Variable chain : list DepositEvent.

(** The process did not stop between two deposits of a block. *)
Definition whole_blocks (cs : list DepositEvent) : Prop := forall dep ev,
  dep ∈ chain -> ev ∈ cs -> de_Checkpoint ev = false -> de_BlockNumber dep = de_BlockNumber ev -> dep ∈ cs.

Definition stored_block (e : E) : Z := default 0 (cs_LastBlock <$> bs_chains (e_store e) !! EthChainID cfg).

(** The engines after lives that stopped between blocks, with the errors. *)
Inductive ran (e0 : E) : E -> list string -> Prop :=
| ran_start : ran e0 e0 []
| ran_life e errs l : ran e0 e errs -> Forall (tick_ok chain) (rl_ticks l) ->
    whole_blocks (consumed l (Z.max (stored_block e) (EthStartBlock cfg))) ->
    ran e0 (relayer_life l e).1 (errs ++ (relayer_life l e).2).

Definition deposit_id (d : DepositEvent) : string := ev_ID (ethereumSource_event d).

Definition recorded (e : E) (errs : list string) (d : DepositEvent) : Prop :=
  is_Some (bs_transfers (e_store e) !! deposit_id d) \/ deposit_id d ∈ errs.

Hypothesis chain_ordered : StronglySorted (fun a b => de_BlockNumber a <= de_BlockNumber b) chain.
Hypothesis chain_deposits : Forall (fun d => de_Checkpoint d = false) chain.
Hypothesis range_ok : is_uint64 MaxBlockRange /\ 0 < MaxBlockRange.

Lemma load_keeps (e : E) : wp (loadEthereumOffset cfg) (fun _ e' =>
  bs_transfers (e_store e') = bs_transfers (e_store e) /\ bs_chains (e_store e') = bs_chains (e_store e)) e.
Proof.
  unfold loadEthereumOffset, ethBlockFromChainHead, set_ethLastBlock. apply wp_bind, wp_wrapping, wp_on_store.
  eapply wp_mono; [apply law_get_chain|]. intros [o|err] s' (Ht & Hc & _); [|done]. cbn [wrap].
  destruct o as [cs|]; [wp_go; destruct (_ <? _); wp_go; done|]. destruct (0 <? _); [by wp_go|]. destruct (_ <=? 0); [by wp_go|].
  apply wp_bind, wp_attempt, wp_on_ext, wp_intro. intros [n|err] x _; [destruct (_ <=? _)|]; by wp_go.
Qed.

Lemma fromBlock_FormatUint b : is_uint64 b -> ethereumSource_fromBlock (FormatUint b) = Ok b.
Proof.
  intros Hb. unfold ethereumSource_fromBlock. rewrite bool_decide_true by apply FormatUint_nonempty.
  rewrite bool_decide_true by apply FormatUint_not_begin. cbn. by rewrite ParseUint_FormatUint by int_lia.
Qed.

Lemma source_block d : ev_SourceBlockNumber (ethereumSource_event d) = de_BlockNumber d.
Proof. unfold ethereumSource_event. by destruct (de_Checkpoint d). Qed.

Lemma elem_of_life l from now ev : (now, ev) ∈ events_of_life l from -> exists d, d ∈ consumed l from /\ ev = ethereumSource_event d.
Proof. intros (i & d & [= -> ->] & Hd)%elem_of_lookup_imap_1. exists d. split; [by eapply list_elem_of_lookup_2|done]. Qed.

Lemma life_of_elem l from d : d ∈ consumed l from -> exists now, (now, ethereumSource_event d) ∈ events_of_life l from.
Proof. intros [i Hi]%list_elem_of_lookup. exists (rl_clock l i). by apply (elem_of_lookup_imap_2 (fun i d => (rl_clock l i, ethereumSource_event d))). Qed.

(** What a life consumed up to a streamed event. *)
Lemma consumed_upto l from d dep : is_uint64 from -> Forall (tick_ok chain) (rl_ticks l) -> whole_blocks (consumed l from) ->
  d ∈ consumed l from -> dep ∈ chain -> from < de_BlockNumber dep <= de_BlockNumber d -> dep ∈ consumed l from.
Proof.
  intros Hu Hticks Hwhole Hd Hin Hb.
  pose proof (watch_inv_ticks MaxBlockRange chain chain_ordered chain_deposits range_ok from (rl_ticks l) Hu Hticks) as Hw.
  destruct (decide (de_BlockNumber dep < de_BlockNumber d \/ de_Checkpoint d = true)) as [Hlt|Hnot].
  - unfold consumed in *. set (L := consumer _) in *. apply list_elem_of_lookup in Hd as [i Hi].
    apply lookup_take_Some in Hi as [Hi Hk]. assert (dep ∈ take i L) as Hpre.
    { eapply (wi_covers _ _ _ Hw (take i L) d (drop (Datatypes.S i) L)); [by rewrite take_drop_middle|done|lia|].
      destruct Hlt; [left; lia|right; split; [done|lia]]. }
    apply elem_of_take in Hpre as (j & Hj & Hji). apply elem_of_take. exists j. split; [done|lia].
  - eapply (Hwhole dep d); [done|done| |]; [by destruct (de_Checkpoint d); [destruct Hnot; right|]|].
    apply dec_stable. intros Hne. apply Hnot. left. lia.
Qed.

(** What holds between lives: the stored block is at or after the first one,
    and every deposit up to it left a trace. *)
Definition life_inv (start : Z) (e : E) (errs : list string) : Prop :=
  exists cs, bs_chains (e_store e) !! EthChainID cfg = Some cs /\ start <= cs_LastBlock cs /\ is_uint64 (cs_LastBlock cs) /\
    forall dep, dep ∈ chain -> start < de_BlockNumber dep <= cs_LastBlock cs -> recorded e errs dep.

Lemma relayer_life_inv start l e errs : EthStartBlock cfg <= start -> life_inv start e errs -> Forall (tick_ok chain) (rl_ticks l) ->
  whole_blocks (consumed l (Z.max (stored_block e) (EthStartBlock cfg))) ->
  life_inv start (relayer_life l e).1 (errs ++ (relayer_life l e).2).
Proof.
  intros Hcfg (cs & Hcs & Hstart & Hu & Hrec) Hticks Hwhole. unfold relayer_life.
  pose proof (load_keeps (restarted e)) as Hk. pose proof (loadEthereumOffset_stored cfg (restarted e)) as Hl. unfold wp in Hk, Hl.
  destruct (loadEthereumOffset cfg (restarted e)) as [[[]|err] e1]; destruct Hk as [Ht Hc]; cbn in Ht, Hc.
  2:{ exists cs. cbn. rewrite Hc. split_and!; try done. intros dep Hin Hb. unfold recorded in *. cbn. rewrite Ht, app_nil_r. by apply Hrec. }
  cbn in Hl. rewrite Hcs in Hl. unfold stored_block in Hwhole. rewrite Hcs in Hwhole. cbn in Hwhole. rewrite Z.max_l in Hl, Hwhole by lia.
  rewrite Hl, fromBlock_FormatUint by done. set (from := cs_LastBlock cs) in *.
  pose proof (watch_inv_ticks MaxBlockRange chain chain_ordered chain_deposits range_ok from (rl_ticks l) Hu Hticks) as Hw.
  assert (forall d, d ∈ consumed l from -> from < de_BlockNumber d /\ is_uint64 (de_BlockNumber d)) as Hafter.
  { intros d (i & Hi & _)%elem_of_take. pose proof (wi_after _ _ _ Hw) as Hall. rewrite Forall_forall in Hall.
    by apply Hall, (list_elem_of_lookup_2 _ i). }
  pose proof (Start_effects cfg (events_of_life l from) (mkProcState e1 "" [])) as Hs. unfold wp in Hs.
  destruct (Start P (events_of_life l from) _) as [r st]. destruct Hs as (Hm & _ & Htrace & Hst).
  { intros now ev (d & Hd & ->)%elem_of_life. rewrite source_block. by apply Hafter. }
  unfold rows, chains in *. cbn in *. rewrite Ht in Hm. rewrite Hc, Hcs in Hst.
  assert (forall dep, dep ∈ chain -> start < de_BlockNumber dep <= from -> recorded (ps_engine st) (errs ++ ps_errors st) dep) as Hold.
  { intros dep Hin Hb. destruct (Hrec dep Hin Hb) as [Hs|Hs]; [left; by apply Hm|right; apply elem_of_app; by left]. }
  assert (forall dep, dep ∈ chain -> dep ∈ consumed l from -> recorded (ps_engine st) (errs ++ ps_errors st) dep) as Hnew.
  { intros dep Hin Hd. destruct (life_of_elem l from dep Hd) as [now Hev]. rewrite Forall_forall in chain_deposits.
    destruct (Htrace now _ Hev) as [Hs|Hs]; [unfold ethereumSource_event; by rewrite (chain_deposits dep Hin)|by left|].
    right. apply elem_of_app. by right. }
  destruct Hst as [Hst|(now & ev & cs' & (d & Hd & ->)%elem_of_life & Hst & Hblk)]; [by exists cs|].
  rewrite source_block in Hblk. exists cs'. rewrite Hblk. destruct (Hafter d Hd) as [Hgt Hud]. split_and!; [done|lia|done|].
  intros dep Hin Hb. destruct (decide (de_BlockNumber dep <= from)) as [Hle|Hle]; [apply Hold; [done|lia]|].
  apply Hnew; [done|]. apply (consumed_upto l from d); try done. lia.
Qed.

(** C2: no deposit is lost across restarts that fall between blocks.  The
    relayer resumes from the block it stored; over any number of lives, with
    nodes that fail in the middle of a range, streams that are cut off and any
    failures of the store and the destination, every deposit of the chain
    between the first block and the stored one has a row in the transfers table
    or was counted as a processing error, provided that no life stopped between
    two deposits of one block. *)
Theorem deposits_survive_restarts e0 cs e errs dep :
  bs_chains (e_store e0) !! EthChainID cfg = Some cs -> is_uint64 (cs_LastBlock cs) -> EthStartBlock cfg <= cs_LastBlock cs ->
  ran e0 e errs -> dep ∈ chain -> cs_LastBlock cs < de_BlockNumber dep <= stored_block e -> recorded e errs dep.
Proof.
  intros Hcs Hu Hcfg Hran Hin Hb. assert (life_inv (cs_LastBlock cs) e errs) as (cs' & Hcs' & _ & _ & Hrec).
  { clear Hin Hb. induction Hran as [|e errs l Hran IH Hticks Hwhole]; [|by apply relayer_life_inv].
    exists cs. split_and!; try done. intros d _ Hd. lia. }
  apply Hrec; [done|]. unfold stored_block in Hb. by rewrite Hcs' in Hb.
Qed.

(** ** What is never seen again *)

(** The engines after any lives, with their errors. *)
Inductive lived (e0 : E) : E -> list string -> Prop :=
| lived_start : lived e0 e0 []
| lived_life e errs l : lived e0 e errs -> Forall (tick_ok chain) (rl_ticks l) ->
    lived e0 (relayer_life l e).1 (errs ++ (relayer_life l e).2).

(** A life does not move the stored block back, and gives a row or an error
    only to deposits that it consumes. *)
Lemma relayer_life_skips l e cs : bs_chains (e_store e) !! EthChainID cfg = Some cs -> is_uint64 (cs_LastBlock cs) ->
  EthStartBlock cfg <= cs_LastBlock cs -> Forall (tick_ok chain) (rl_ticks l) ->
  (exists cs', bs_chains (e_store (relayer_life l e).1) !! EthChainID cfg = Some cs' /\ cs_LastBlock cs <= cs_LastBlock cs' /\
     is_uint64 (cs_LastBlock cs')) /\
  forall id, (forall d, d ∈ consumed l (cs_LastBlock cs) -> de_Checkpoint d = false -> deposit_id d <> id) ->
    bs_transfers (e_store (relayer_life l e).1) !! id = bs_transfers (e_store e) !! id /\ id ∉ (relayer_life l e).2.
Proof.
  intros Hcs Hu Hcfg Hticks. unfold relayer_life.
  pose proof (load_keeps (restarted e)) as Hk. pose proof (loadEthereumOffset_stored cfg (restarted e)) as Hl. unfold wp in Hk, Hl.
  destruct (loadEthereumOffset cfg (restarted e)) as [[[]|err] e1]; destruct Hk as [Ht Hc]; cbn in Ht, Hc.
  2:{ cbn. rewrite Hc, Ht. split; [by exists cs|]. intros id _. split; [done|apply not_elem_of_nil]. }
  cbn in Hl. rewrite Hcs in Hl. rewrite Z.max_l in Hl by lia. rewrite Hl, fromBlock_FormatUint by done. set (from := cs_LastBlock cs) in *.
  pose proof (watch_inv_ticks MaxBlockRange chain chain_ordered chain_deposits range_ok from (rl_ticks l) Hu Hticks) as Hw.
  assert (forall d, d ∈ consumed l from -> from < de_BlockNumber d /\ is_uint64 (de_BlockNumber d)) as Hafter.
  { intros d (i & Hi & _)%elem_of_take. pose proof (wi_after _ _ _ Hw) as Hall. rewrite Forall_forall in Hall.
    by apply Hall, (list_elem_of_lookup_2 _ i). }
  pose proof (Start_effects cfg (events_of_life l from) (mkProcState e1 "" [])) as Hs.
  pose proof (fun id => Start_elsewhere cfg (events_of_life l from) id (mkProcState e1 "" [])) as Ho. unfold wp in Hs, Ho.
  destruct (Start P (events_of_life l from) _) as [r st]. destruct Hs as (_ & _ & _ & Hst).
  { intros now ev (d & Hd & ->)%elem_of_life. rewrite source_block. by apply Hafter. }
  unfold rows, chains in *. cbn in *. rewrite Hc, Hcs in Hst. split.
  - destruct Hst as [Hst|(now & ev & cs' & (d & Hd & ->)%elem_of_life & Hst & Hblk)]; [by exists cs|].
    rewrite source_block in Hblk. exists cs'. rewrite Hblk. destruct (Hafter d Hd). split_and!; [done|lia|done].
  - intros id Hid. destruct (Ho id) as [Hr He].
    { intros now ev (d & Hd & ->)%elem_of_life Hcp. apply (Hid d Hd). unfold ethereumSource_event in Hcp. by destruct (de_Checkpoint d). }
    rewrite Hr, Ht. split; [done|]. intros Hi. by apply He, not_elem_of_nil in Hi.
Qed.

(** What a life consumes lies after the block it resumes from. *)
Lemma consumed_after l from d : is_uint64 from -> Forall (tick_ok chain) (rl_ticks l) -> d ∈ consumed l from ->
  from < de_BlockNumber d /\ (de_Checkpoint d = false -> d ∈ chain).
Proof.
  intros Hu Hticks (i & Hi & _)%elem_of_take.
  pose proof (watch_inv_ticks MaxBlockRange chain chain_ordered chain_deposits range_ok from (rl_ticks l) Hu Hticks) as [_ _ _ Ha _ Hs].
  rewrite Forall_forall in Ha, Hs. apply list_elem_of_lookup_2 in Hi. split; [by apply Ha|by apply Hs].
Qed.

(** A deposit without a row at or before the stored block never gets one. *)
Lemma passed_deposit_stays e cs dep e' errs :
  bs_chains (e_store e) !! EthChainID cfg = Some cs -> is_uint64 (cs_LastBlock cs) -> EthStartBlock cfg <= cs_LastBlock cs ->
  de_BlockNumber dep <= cs_LastBlock cs -> (forall d, d ∈ chain -> deposit_id d = deposit_id dep -> d = dep) ->
  bs_transfers (e_store e) !! deposit_id dep = None -> lived e e' errs ->
  bs_transfers (e_store e') !! deposit_id dep = None /\ deposit_id dep ∉ errs.
Proof.
  intros Hcs Hu Hcfg Hb Hids Hnone Hlived.
  enough ((exists cs', bs_chains (e_store e') !! EthChainID cfg = Some cs' /\ cs_LastBlock cs <= cs_LastBlock cs' /\ is_uint64 (cs_LastBlock cs')) /\
    bs_transfers (e_store e') !! deposit_id dep = None /\ deposit_id dep ∉ errs) by naive_solver.
  induction Hlived as [|e1 errs l _ IH Hticks]; [split; [by exists cs|]; split; [done|apply not_elem_of_nil]|].
  destruct IH as ((cs1 & Hcs1 & Hle & Hu1) & Hn1 & He1).
  destruct (relayer_life_skips l e1 cs1 Hcs1 Hu1 ltac:(lia) Hticks) as [(cs2 & Hcs2 & Hle2 & Hu2) Hskip].
  split; [exists cs2; split_and!; [done|lia|done]|]. destruct (Hskip (deposit_id dep)) as [-> Hne].
  { intros d Hd Hcp Heq. destruct (consumed_after l _ d Hu1 Hticks Hd) as [Hgt Hin]. rewrite (Hids d (Hin Hcp) Heq) in Hgt. lia. }
  split; [done|]. rewrite not_elem_of_app. done.
Qed.

(** C38: a process that stops between two deposits of one block loses the
    second.  When a life consumes a deposit and not another one of the same
    block, and the block of the first is stored, which the processor does as
    soon as it has processed a deposit, then however many lives follow, with
    whatever nodes, stores and destinations, and however far they get, the
    other deposit never gets a row in the transfers table and is never counted
    as an error, neither in that life nor in a later one.  The stored block is
    at or after the configured start block, and deposits have distinct ids. *)
Theorem split_block_loses_deposit e cs l d1 d2 e' errs :
  bs_chains (e_store e) !! EthChainID cfg = Some cs -> is_uint64 (cs_LastBlock cs) -> EthStartBlock cfg <= cs_LastBlock cs ->
  (forall d, d ∈ chain -> deposit_id d = deposit_id d2 -> d = d2) ->
  bs_transfers (e_store e) !! deposit_id d2 = None -> Forall (tick_ok chain) (rl_ticks l) ->
  d1 ∈ consumed l (cs_LastBlock cs) -> stored_block (relayer_life l e).1 = de_BlockNumber d1 ->
  d2 ∈ chain -> de_BlockNumber d2 = de_BlockNumber d1 -> d2 ∉ consumed l (cs_LastBlock cs) ->
  lived (relayer_life l e).1 e' errs ->
  bs_transfers (e_store e') !! deposit_id d2 = None /\ deposit_id d2 ∉ (relayer_life l e).2 ++ errs.
Proof.
  intros Hcs Hu Hcfg Hids Hnone Hticks Hd1 Hstored Hd2 Hsame Hnot Hlived.
  destruct (relayer_life_skips l e cs Hcs Hu Hcfg Hticks) as [(cs1 & Hcs1 & Hle & Hu1) Hskip].
  destruct (Hskip (deposit_id d2)) as [Hrow Herr].
  { intros d Hd Hcp Heq. destruct (consumed_after l _ d Hu Hticks Hd) as [_ Hin]. by rewrite (Hids d (Hin Hcp) Heq) in Hd. }
  unfold stored_block in Hstored. rewrite Hcs1 in Hstored. cbn in Hstored.
  destruct (passed_deposit_stays _ cs1 d2 e' errs Hcs1 Hu1) as [Hr He]; try done; [lia|lia|by rewrite Hrow|].
  split; [done|]. by rewrite not_elem_of_app.
Qed.
End lives.

(** ** A block with two deposits *)

Definition rd_deposit (tx blk : Z) : DepositEvent := mkDepositEvent [10] [20] [30] 1000000000000000000 7 blk [tx] 0 false.
Definition rd_chain : list DepositEvent := [rd_deposit 1 105; rd_deposit 2 105; rd_deposit 3 108].
Definition rd_node : Filter := fun r => Ok (filter (fun d => r_start r <= de_BlockNumber d <= r_end r) rd_chain, None).
Definition rd_life (taken : nat) : RLife := mkRLife [(Ok 110, rd_node)] taken (fun i => Z.of_nat i).
Definition rd_start : Engine RelayerDB World :=
  sc_engine (mkRelayerTables ∅ {["ethereum"%string := mkChainState "ethereum" 100 "100" 1]}) (sc_world []).
Definition rd_then (e : Engine RelayerDB World * list string) (taken : nat) : Engine RelayerDB World * list string :=
  let '(e', errs) := relayer_life sc_config 1000 (rd_life taken) e.1 in (e', e.2 ++ errs).

Lemma rd_node_ok : node_ok rd_chain rd_node.
Proof.
  intros r evs err [= <- <-]. exists (length rd_chain). rewrite take_ge by apply length_filter.
  split; [apply filter_ext_in; done|]. intros _. by apply filter_ext_in.
Qed.

Lemma rd_life_ok taken : Forall (tick_ok rd_chain) (rl_ticks (rd_life taken)).
Proof. apply Forall_singleton. split; [apply rd_node_ok|]. cbn. intros latest [= <-]. split; vm_compute; [discriminate|reflexivity]. Qed.

(** With a store and a node that never fail, the first life stores the block of
    the deposit it consumes; the second deposit of the block is lost, although
    the relayer has stored a block past it. *)
Example split_block_example :
  let '(e, errs) := rd_then (rd_then (rd_start, []) 1) 9 in
  rd_deposit 2 105 ∈ rd_chain /\ node_ok rd_chain rd_node /\
  stored_block sc_config e = 110 /\ errs = [] /\
  bs_transfers (e_store e) !! deposit_id (rd_deposit 2 105) = None /\
  is_Some (bs_transfers (e_store e) !! deposit_id (rd_deposit 1 105)) /\
  is_Some (bs_transfers (e_store e) !! deposit_id (rd_deposit 3 108)).
Proof.
  destruct (rd_then (rd_then (rd_start, []) 1) 9) as [e errs] eqn:He. split; [right; left|]. split; [apply rd_node_ok|].
  vm_compute in He. injection He as <- <-. split_and!; vm_compute; by eauto.
Qed.

Definition rd_f1 : Engine RelayerDB World * list string := relayer_life sc_config 1000 (rd_life 1) rd_start.
Definition rd_f2 : Engine RelayerDB World * list string := relayer_life sc_config 1000 (rd_life 9) rd_f1.1.

Lemma rd_ids d : d ∈ rd_chain -> deposit_id d = deposit_id (rd_deposit 2 105) -> d = rd_deposit 2 105.
Proof.
  unfold rd_chain. rewrite !elem_of_cons. intros [->|[->|[->|[]%not_elem_of_nil]]] Hid; [|done|]; vm_compute in Hid; discriminate.
Qed.

Lemma split_block_loses_deposit_witness :
  stored_block sc_config rd_f2.1 = 110 /\
  bs_transfers (e_store rd_f2.1) !! deposit_id (rd_deposit 2 105) = None /\
  deposit_id (rd_deposit 2 105) ∉ rd_f1.2 ++ [] ++ rd_f2.2.
Proof.
  split; [vm_compute; reflexivity|].
  apply (split_block_loses_deposit sc_config 1000 rd_chain) with
    (e := rd_start) (cs := mkChainState "ethereum" 100 "100" 1) (l := rd_life 1) (d1 := rd_deposit 1 105).
  - repeat constructor; vm_compute; discriminate.
  - repeat constructor.
  - split; [split; vm_compute; [discriminate|reflexivity]|reflexivity].
  - reflexivity.
  - split; vm_compute; [discriminate|reflexivity].
  - vm_compute. discriminate.
  - exact rd_ids.
  - vm_compute. reflexivity.
  - apply rd_life_ok.
  - assert (consumed 1000 (rd_life 1) 100 = [rd_deposit 1 105]) as Hc by (vm_compute; reflexivity). cbn [cs_LastBlock]. rewrite Hc. left.
  - vm_compute. reflexivity.
  - right; left.
  - reflexivity.
  - assert (consumed 1000 (rd_life 1) 100 = [rd_deposit 1 105]) as Hc by (vm_compute; reflexivity). cbn [cs_LastBlock]. rewrite Hc.
    intros [[=]|[]%not_elem_of_nil]%elem_of_cons.
  - apply (lived_life sc_config 1000 rd_chain rd_f1.1 rd_f1.1 [] (rd_life 9)); [constructor|apply rd_life_ok].
Defined.

Lemma rd_whole (cs : list DepositEvent) :
  (rd_deposit 1 105 ∈ cs <-> rd_deposit 2 105 ∈ cs) ->
  Forall (fun d => de_Checkpoint d = true \/ (de_BlockNumber d = 105 /\ rd_deposit 1 105 ∈ cs) \/ d = rd_deposit 3 108) cs ->
  whole_blocks rd_chain cs.
Proof.
  intros Hboth Hcs dep ev Hdep Hev Hcp Hblk. rewrite Forall_forall in Hcs.
  destruct (Hcs ev Hev) as [Hc|[[Hb H1]| ->]]; [congruence|..]; unfold rd_chain in Hdep; rewrite !elem_of_cons in Hdep;
    destruct Hdep as [->|[->|[->|[]%not_elem_of_nil]]]; cbn in *; try done; try lia; naive_solver.
Qed.

Definition rd_e1 : Engine RelayerDB World * list string := relayer_life sc_config 1000 (rd_life 2) rd_start.
Definition rd_e2 : Engine RelayerDB World * list string := relayer_life sc_config 1000 (rd_life 9) rd_e1.1.

Lemma rd_ran : ran sc_config 1000 rd_chain rd_start rd_e2.1 (([] ++ rd_e1.2) ++ rd_e2.2).
Proof.
  apply (ran_life sc_config 1000 rd_chain rd_start rd_e1.1 ([] ++ rd_e1.2) (rd_life 9));
    [apply (ran_life sc_config 1000 rd_chain rd_start rd_start [] (rd_life 2)); [constructor|apply rd_life_ok|]|apply rd_life_ok|].
  - assert (consumed 1000 (rd_life 2) (Z.max (stored_block sc_config rd_start) (EthStartBlock sc_config)) = [rd_deposit 1 105; rd_deposit 2 105])
      as -> by (vm_compute; reflexivity).
    apply rd_whole; [split; intros _; [by right; left|by left]|]. repeat constructor; right; left; split; try done; by left.
  - assert (consumed 1000 (rd_life 9) (Z.max (stored_block sc_config rd_e1.1) (EthStartBlock sc_config)) = [rd_deposit 3 108; checkpoint_event 110])
      as -> by (vm_compute; reflexivity).
    apply rd_whole; [split; intros Hin; apply elem_of_cons in Hin as [[=]|[[=]|[]%not_elem_of_nil]%elem_of_cons]|].
    apply Forall_cons; split; [by right; right|]. apply Forall_singleton. by left.
Qed.

Lemma deposits_survive_restarts_witness :
  stored_block sc_config rd_e2.1 = 110 /\ rd_e1.2 ++ rd_e2.2 = [] /\ recorded rd_e2.1 (([] ++ rd_e1.2) ++ rd_e2.2) (rd_deposit 2 105).
Proof.
  split; [vm_compute; reflexivity|]. split; [vm_compute; reflexivity|].
  apply (deposits_survive_restarts sc_config 1000 rd_chain) with (e0 := rd_start) (cs := mkChainState "ethereum" 100 "100" 1).
  - repeat constructor; vm_compute; discriminate.
  - repeat constructor.
  - split; [split; vm_compute; [discriminate|reflexivity]|reflexivity].
  - reflexivity.
  - split; vm_compute; [discriminate|reflexivity].
  - vm_compute. discriminate.
  - exact rd_ran.
  - right; left.
  - assert (stored_block sc_config rd_e2.1 = 110) as -> by (vm_compute; reflexivity). split; [reflexivity|vm_compute; discriminate].
Defined.
