(* ===== verification/DamlValues.v ===== *)
(** * Daml values: pkg/cantonsdk/values

    The Ledger API's Value message, the typed accessors that never fail
    (decode.go), the constructors (encode.go) and the metadata encoding
    (meta.go).  A [*lapiv2.Value] is an [option Value]; a nil Optional, Record
    or map inside a value is the empty one, which the code treats alike. *)

From S2P Require Import Prelude.

Inductive Value :=
| Value_Text (s : string)
| Value_Party (s : string)
| Value_Numeric (s : string)
| Value_ContractId (s : string)
| Value_Timestamp (micros : Z)
| Value_Int64 (n : Z)
| Value_Optional (inner : option Value)
| Value_Record (fields : list (string * option Value))
| Value_TextMap (entries : list (string * option Value))
| Value_GenMap (entries : list (option Value * option Value))
| Value_List (elements : list (option Value))
| Value_Bool (b : bool)
| Value_Variant (constructor : string) (inner : option Value)
| Value_Other.

Abbreviation ValuePtr := (option Value).
Abbreviation Fields := (gmap string ValuePtr).

(** [m[name]] of a Go map of pointers: nil when absent. *)
Definition field (m : Fields) (name : string) : ValuePtr := mjoin (m !! name).

(** RecordToMap (values.go): the last field of a label wins, empty labels are skipped. *)
Definition RecordToMap (fields : list (string * ValuePtr)) : Fields :=
  foldl (fun m f => if bool_decide (f.1 = ""%string) then m else <[f.1 := f.2]> m) ∅ fields.

(** ** decode.go *)

Definition Text (v : ValuePtr) : string := match v with Some (Value_Text t) => t | _ => "" end.
Definition TextOK (v : ValuePtr) : option string := match v with Some (Value_Text t) => Some t | _ => None end.
Definition Party (v : ValuePtr) : string := match v with Some (Value_Party p) => p | _ => "" end.
Definition PartyOK (v : ValuePtr) : option string := match v with Some (Value_Party p) => Some p | _ => None end.

Definition PartyList (v : ValuePtr) : list string :=
  match v with
  | Some (Value_List elements) => filter (fun p => p <> ""%string) (Party <$> elements)
  | _ => []
  end.

Definition Numeric (v : ValuePtr) : string := match v with Some (Value_Numeric n) => n | _ => "0" end.
Definition NumericOK (v : ValuePtr) : option string := match v with Some (Value_Numeric n) => Some n | _ => None end.
Definition ContractID (v : ValuePtr) : string := match v with Some (Value_ContractId c) => c | _ => "" end.

Definition IsNone (v : ValuePtr) : bool :=
  match v with
  | None => true
  | Some (Value_Optional inner) => match inner with None => true | Some _ => false end
  | Some _ => false
  end.

Definition OptionalText (v : ValuePtr) : string :=
  match v with Some (Value_Optional inner) => Text inner | _ => "" end.
Definition OptionalParty (v : ValuePtr) : string :=
  match v with Some (Value_Optional inner) => Party inner | _ => "" end.

(** Go's zero time, in microseconds since the epoch. *)
Definition zero_time : Z := -62135596800000000.

Definition Timestamp (v : ValuePtr) : Z := match v with Some (Value_Timestamp t) => t | _ => zero_time end.
Definition TimestampOK (v : ValuePtr) : option Z := match v with Some (Value_Timestamp t) => Some t | _ => None end.

Definition NewtypeText (v : ValuePtr) : string :=
  match v with
  | Some (Value_Record ((_, inner) :: _)) => Text inner
  | _ => ""
  end.

Definition RecordField (v : ValuePtr) : Fields :=
  match v with Some (Value_Record fields) => RecordToMap fields | _ => ∅ end.

Definition NestedTextField (v : ValuePtr) (name : string) : string := Text (field (RecordField v) name).
Definition NestedTextFieldOK (v : ValuePtr) (name : string) : option string := TextOK (field (RecordField v) name).
Definition NestedPartyField (v : ValuePtr) (name : string) : string := Party (field (RecordField v) name).
Definition NestedPartyFieldOK (v : ValuePtr) (name : string) : option string := PartyOK (field (RecordField v) name).

Definition OptionalRecordFields (v : ValuePtr) : Fields :=
  match v with Some (Value_Optional (Some inner)) => RecordField (Some inner) | _ => ∅ end.

(** The first entry with the key, in a TextMap or a GenMap with Text keys. *)
Definition MapLookupText (v : ValuePtr) (key : string) : string :=
  match v with
  | Some (Value_TextMap entries) =>
      match List.find (fun e => bool_decide (e.1 = key)) entries with Some e => Text e.2 | None => "" end
  | Some (Value_GenMap entries) =>
      match List.find (fun e => bool_decide (Text e.1 = key)) entries with Some e => Text e.2 | None => "" end
  | _ => ""
  end.

(** ** encode.go *)

Definition TextValue (v : string) : Value := Value_Text v.
Definition PartyValue (v : string) : Value := Value_Party v.
Definition NumericValue (v : string) : Value := Value_Numeric v.
Definition ContractIDValue (v : string) : Value := Value_ContractId v.
Definition TimestampValue (micros : Z) : Value := Value_Timestamp micros.
Definition NoneValue : Value := Value_Optional None.
Definition OptionalValue (v : Value) : Value := Value_Optional (Some v).
Definition NewtypeValue (inner : Value) : Value := Value_Record [(""%string, Some inner)].

(** ** meta.go *)

Definition MetaKeySymbol : string := "splice.chainsafe.io/symbol".

Definition DecodeTextMap (v : ValuePtr) : gmap string string :=
  match v with
  | Some (Value_TextMap entries) => foldl (fun m e => <[e.1 := Text e.2]> m) ∅ entries
  | _ => ∅
  end.

Definition DecodeMetadata (v : ValuePtr) : gmap string string :=
  match v with
  | Some (Value_Record fields) => DecodeTextMap (field (RecordToMap fields) "values")
  | _ => ∅
  end.

Definition MetaSymbol (v : ValuePtr) : string := default ""%string (DecodeMetadata v !! MetaKeySymbol).

(** sort.Strings *)
Definition sort_strings (l : list string) : list string :=
  merge_sort (fun a b => Is_true (String.leb a b)) l.

Definition EncodeMetadata (kvs : gmap string string) : Value :=
  let keys := sort_strings (map_to_list kvs).*1 in
  Value_Record [("values"%string, Some (Value_TextMap
    ((fun k => (k, Some (TextValue (default ""%string (kvs !! k))))) <$> keys)))].

Definition EmptyMetadata : Value := EncodeMetadata ∅.

Definition EncodeInstrumentId (admin id : string) : Value :=
  Value_Record [("admin"%string, Some (PartyValue admin)); ("id"%string, Some (TextValue id))].

Definition EncodeExtraArgs (choiceContext : gmap string string) : Value :=
  let contextValue := if decide (choiceContext = ∅) then EmptyMetadata else EncodeMetadata choiceContext in
  Value_Record [("context"%string, Some contextValue); ("meta"%string, Some EmptyMetadata)].

Definition EncodeOptionalMetadata (kvs : gmap string string) : Value :=
  if decide (kvs = ∅) then NoneValue else OptionalValue (EncodeMetadata kvs).

(** [None] is the nil map. *)
Definition DecodeOptionalMetadata (v : ValuePtr) : option (gmap string string) :=
  match v with
  | Some (Value_Optional (Some inner)) => Some (DecodeMetadata (Some inner))
  | _ => None
  end.

Definition MetaSymbolFromRecord (args : option (list (string * ValuePtr))) : string :=
  match args with None => "" | Some fields => MetaSymbol (field (RecordToMap fields) "meta") end.

Definition DecodeInstrumentId (v : ValuePtr) : string * string :=
  match v with
  | Some (Value_Record fields) =>
      (Party (field (RecordToMap fields) "admin"), Text (field (RecordToMap fields) "id"))
  | _ => (""%string, ""%string)
  end.

Definition ListValue (elements : list ValuePtr) : Value := Value_List elements.
Definition Int64Value (n : Z) : Value := Value_Int64 n.

(** ** Round trips *)

Lemma foldl_insert_lookup {A B} (f : A -> string * B) l (m : gmap string B) k :
  NoDup ((fun x => (f x).1) <$> l) ->
  foldl (fun m x => <[(f x).1 := (f x).2]> m) m l !! k =
    match List.find (fun x => bool_decide ((f x).1 = k)) l with
    | Some x => Some (f x).2
    | None => m !! k
    end.
Proof.
  revert m. induction l as [|x l IH]; intros m Hnd; [done|].
  rewrite fmap_cons in Hnd. apply NoDup_cons in Hnd as [Hni Hnd]. cbn [foldl List.find].
  rewrite IH by done. case_bool_decide as Hk.
  - destruct (List.find _ l) as [y|] eqn:Hf.
    + apply find_some in Hf as [Hin Hy]. apply bool_decide_eq_true in Hy. destruct Hni.
      apply list_elem_of_fmap. exists y. split; [congruence|]. by apply list_elem_of_In.
    + subst k. by rewrite lookup_insert_eq.
  - destruct (List.find _ l); [done|]. by rewrite lookup_insert_ne.
Qed.

Lemma sorted_keys_Permutation (kvs : gmap string string) :
  sort_strings (map_to_list kvs).*1 ≡ₚ (map_to_list kvs).*1.
Proof. apply merge_sort_Permutation. Qed.

Lemma find_key (f : string -> string * ValuePtr) l k :
  (forall x, (f x).1 = x) ->
  List.find (fun e => bool_decide (e.1 = k)) (f <$> l) = if decide (k ∈ l) then Some (f k) else None.
Proof.
  intros Hf. induction l as [|x l IH]; [done|]. rewrite fmap_cons. cbn [List.find]. rewrite Hf, IH.
  case_bool_decide as Hx.
  - subst x. rewrite decide_True by constructor. done.
  - apply decide_ext. rewrite elem_of_cons. naive_solver.
Qed.

Lemma elem_of_keys (kvs : gmap string string) k :
  k ∈ sort_strings (map_to_list kvs).*1 <-> is_Some (kvs !! k).
Proof.
  rewrite sorted_keys_Permutation, list_elem_of_fmap. split.
  - intros ((k' & v) & -> & Hin). apply elem_of_map_to_list in Hin. eauto.
  - intros [v Hv]. exists (k, v). split; [done|]. by apply elem_of_map_to_list.
Qed.

Lemma metadata_lookup kvs k :
  DecodeMetadata (Some (EncodeMetadata kvs)) !! k = kvs !! k.
Proof.
  unfold DecodeMetadata, EncodeMetadata.
  set (l := (fun k => (k, _)) <$> _).
  change (field _ _) with (Some (Value_TextMap l)). unfold DecodeTextMap.
  pose proof (foldl_insert_lookup (fun e : string * ValuePtr => (e.1, Text e.2)) l ∅ k) as Hl.
  cbn [fst snd] in Hl. rewrite Hl; subst l.
  - rewrite find_key by done. destruct (decide _) as [Hk|Hk]; cbn.
    + apply elem_of_keys in Hk as [v ->]. done.
    + destruct (kvs !! k) eqn:Hv; [|done]. destruct Hk. apply elem_of_keys. eauto.
  - rewrite <- list_fmap_compose. unfold compose. cbn [fst]. rewrite list_fmap_id.
    rewrite sorted_keys_Permutation. apply NoDup_fst_map_to_list.
Qed.

(** Metadata survives the ledger.  Decoding an encoded metadata map gives
    the map back, an optional one too (an empty map travels as None), and every
    key looks up to its value in the Optional Metadata field of an event; an
    encoded instrument id decodes to its parts. *)
Theorem metadata_roundtrip kvs :
  DecodeMetadata (Some (EncodeMetadata kvs)) = kvs /\
  default ∅ (DecodeOptionalMetadata (Some (EncodeOptionalMetadata kvs))) = kvs /\
  (forall k, MapLookupText (field (OptionalRecordFields (Some (EncodeOptionalMetadata kvs))) "values") k =
     default ""%string (kvs !! k)) /\
  (forall admin id, DecodeInstrumentId (Some (EncodeInstrumentId admin id)) = (admin, id)).
Proof.
  assert (DecodeMetadata (Some (EncodeMetadata kvs)) = kvs) as Hd by (apply map_eq; apply metadata_lookup).
  split; [done|]. unfold EncodeOptionalMetadata. destruct (decide (kvs = ∅)) as [->|Hne].
  { split_and!; [done| |done]. intros k. by rewrite lookup_empty. }
  split_and!; [exact Hd| |done].
  intros k. unfold OptionalRecordFields, OptionalValue, EncodeMetadata, RecordField.
  set (l := (fun k => (k, _)) <$> _).
  change (field _ _) with (Some (Value_TextMap l)). subst l. unfold MapLookupText.
  rewrite find_key by done. destruct (decide _) as [Hk|Hk]; cbn; [done|].
  destruct (kvs !! k) eqn:Hv; [|done]. destruct Hk. apply elem_of_keys. eauto.
Qed.
