(* ===== verification/Streaming.v ===== *)
(** * Ledger streaming: pkg/cantonsdk/streaming

    The decoding of Ledger API transactions into events with typed accessors
    (types.go, client.go), the per-transaction batches (stream.go), and the
    reconnect loop of Client.Subscribe. *)

From S2P Require Import Prelude AppErrors Effects GoStd DamlValues.

(** ** Types *)

(** An Identifier: package id, module and entity name. *)
Record Identifier := mkIdentifier { PackageId : string; ModuleName : string; EntityName : string }.

Definition no_identifier : Identifier := mkIdentifier "" "" "".

(** LedgerEvent; [le_fields] is set on created events only. *)
Record LedgerEvent := mkLedgerEvent {
  le_ContractID : string;
  le_Template : Identifier;
  le_IsCreated : bool;
  le_Choice : string;
  le_fields : Fields;
}.

Record LedgerTransaction := mkLedgerTransaction {
  lt_UpdateID : string;
  lt_Offset : Z;
  lt_EffectiveTime : Z;
  lt_Events : list LedgerEvent;
}.

(** The accessors of LedgerEvent. *)
Definition TextField (e : LedgerEvent) (name : string) : string := Text (field (le_fields e) name).
Definition PartyField (e : LedgerEvent) (name : string) : string := Party (field (le_fields e) name).
Definition NumericField (e : LedgerEvent) (name : string) : string := Numeric (field (le_fields e) name).
Definition OptionalTextField (e : LedgerEvent) (name : string) : string := OptionalText (field (le_fields e) name).
Definition OptionalPartyField (e : LedgerEvent) (name : string) : string := OptionalParty (field (le_fields e) name).
Definition ev_IsNone (e : LedgerEvent) (name : string) : bool := IsNone (field (le_fields e) name).
Definition TimestampField (e : LedgerEvent) (name : string) : Z := Timestamp (field (le_fields e) name).
Definition ev_NestedTextField (e : LedgerEvent) (record name : string) : string :=
  NestedTextField (field (le_fields e) record) name.
Definition ev_NestedPartyField (e : LedgerEvent) (record name : string) : string :=
  NestedPartyField (field (le_fields e) record) name.
Definition NestedNumericField (e : LedgerEvent) (record name : string) : string :=
  Numeric (field (RecordField (field (le_fields e) record)) name).
Definition NestedTimestampField (e : LedgerEvent) (record name : string) : Z :=
  Timestamp (field (RecordField (field (le_fields e) record)) name).
Definition DoublyNestedPartyField (e : LedgerEvent) (outer middle name : string) : string :=
  NestedPartyField (field (RecordField (field (le_fields e) outer)) middle) name.
Definition DoublyNestedTextField (e : LedgerEvent) (outer middle name : string) : string :=
  NestedTextField (field (RecordField (field (le_fields e) outer)) middle) name.
Definition OptionalMetaLookup (e : LedgerEvent) (metaField key : string) : string :=
  MapLookupText (field (OptionalRecordFields (field (le_fields e) metaField)) "values") key.

(** ** Decoding *)

(** The Ledger API's Event: a created, exercised or archived contract. *)
Inductive ApiEvent :=
| Event_Created (contractID : string) (tid : option Identifier) (args : list (string * ValuePtr)) (acsDelta : bool)
| Event_Exercised (contractID : string) (tid : option Identifier) (choice : string) (consuming acsDelta : bool)
| Event_Archived (contractID : string) (tid : option Identifier).

Record ApiTransaction := mkApiTransaction {
  at_UpdateId : string;
  at_Offset : Z;
  at_EffectiveAt : Z;
  at_Events : list ApiEvent;
}.

Definition decodeLedgerEvent (ev : ApiEvent) : option LedgerEvent :=
  match ev with
  | Event_Created cid tid args acsDelta =>
      if acsDelta then Some (mkLedgerEvent cid (default no_identifier tid) true "" (RecordToMap args)) else None
  | Event_Exercised cid tid choice consuming acsDelta =>
      if consuming && acsDelta then Some (mkLedgerEvent cid (default no_identifier tid) false choice ∅) else None
  | Event_Archived _ _ => None
  end.

Definition decodeLedgerTransaction (tx : ApiTransaction) : LedgerTransaction :=
  mkLedgerTransaction (at_UpdateId tx) (at_Offset tx) (at_EffectiveAt tx) (omap decodeLedgerEvent (at_Events tx)).

(** streaming.Batch *)
Record Batch (T : Type) := mkBatch { b_Offset : Z; UpdateID : string; Items : list T }.
Arguments mkBatch {T} _ _ _.
Arguments b_Offset {T} _.
Arguments UpdateID {T} _.
Arguments Items {T} _.

(** The batch Stream.Subscribe emits for a transaction. *)
Definition stream_batch {T} (decode : LedgerTransaction -> LedgerEvent -> option T) (tx : LedgerTransaction) : Batch T :=
  mkBatch (lt_Offset tx) (lt_UpdateID tx) (omap (decode tx) (lt_Events tx)).

(** ** The reconnect loop *)

Definition reconnectBaseDelay : Z := 5 * Second.
Definition reconnectMaxDelay : Z := 60 * Second.

(** A response of the update stream: a transaction, or a checkpoint or
    topology update. *)
Abbreviation Response := (option ApiTransaction).

(** runStream on the responses received before the connection fails: what it
    sends, and the last offset it recorded. *)
Fixpoint runStream (lastOffset : Z) (resps : list Response) : list LedgerTransaction * Z :=
  match resps with
  | [] => ([], lastOffset)
  | None :: resps => runStream lastOffset resps
  | Some tx :: resps =>
      let lt := decodeLedgerTransaction tx in
      let '(out, last) := runStream (lt_Offset lt) resps in (lt :: out, last)
  end.

(** How a connection ends: with io.EOF, or with another error, which is one of
    authentication or not. *)
Inductive StreamEnd := EndOfStream | Dropped (isAuth : bool).

(** Subscribe over a sequence of connections.  A connection is opened from
    FromOffset, delivers the given number of the server's responses, and then
    ends; io.EOF is terminal, any other error makes it reconnect, and the last
    connection lasts until ctx is canceled.  [updates] is the server's
    GetUpdates. *)
Section Subscribe.
Variable updates : Z -> list Response.

Fixpoint Subscribe (fromOffset lastOffset delay : Z) (conns : list (nat * StreamEnd))
    : list LedgerTransaction * Z * list Z :=
  match conns with
  | [] => ([], lastOffset, [])
  | (n, EndOfStream) :: _ =>
      let '(out, last) := runStream lastOffset (take n (updates fromOffset)) in (out, last, [])
  | (n, Dropped isAuth) :: conns =>
      let '(out, last) := runStream lastOffset (take n (updates fromOffset)) in
      let delay := if isAuth : bool then reconnectBaseDelay else delay in
      let '(out', last', waits) := Subscribe last last (Z.min (delay * 2) reconnectMaxDelay) conns in
      (out ++ out', last', delay :: waits)
  end.
End Subscribe.

(** Splitting the elements with keys in a range at a key in between. *)
Lemma filter_between {A} (key : A -> Z) lo mid hi l :
  lo <= mid <= hi -> StronglySorted (fun a b => key a < key b) l ->
  filter (fun x => lo < key x <= hi) l = filter (fun x => lo < key x <= mid) l ++ filter (fun x => mid < key x <= hi) l.
Proof.
  intros Hle Hs. induction Hs as [|x l Hs IH Hx]; [done|]. rewrite !filter_cons, IH.
  destruct (decide (lo < key x <= mid)) as [H1|H1].
  { rewrite decide_True by lia. rewrite decide_False by lia. done. }
  destruct (decide (mid < key x <= hi)) as [H2|H2]; [|by rewrite decide_False by lia].
  rewrite decide_True by lia.
  rewrite (filter_none (fun y => lo < key y <= mid)); [done|].
  intros y Hy. rewrite Forall_forall in Hx. specialize (Hx y Hy). lia.
Qed.

Lemma omap_id_take {A} n (l : list (option A)) : exists k, omap id (take n l) = take k (omap id l).
Proof.
  revert n. induction l as [|[x|] l IH]; intros [|n]; try (exists 0%nat; done).
  - destruct (IH n) as [k Hk]. exists (S k). cbn. by rewrite Hk.
  - destruct (IH n) as [k Hk]. exists k. cbn. by rewrite Hk.
Qed.

(** ** Exactly-once delivery *)

(** A participant: its transactions in ledger order.  GetUpdates from an
    exclusive offset yields the later ones, with other updates in between. *)
Section Delivery.
Variable ledger : list ApiTransaction.
Variable updates : Z -> list Response.
Hypothesis ledger_ordered : StronglySorted (fun a b => at_Offset a < at_Offset b) ledger.
Hypothesis updates_spec : forall o, omap id (updates o) = filter (fun tx => o < at_Offset tx) ledger.

Definition between (lo hi : Z) : list LedgerTransaction :=
  decodeLedgerTransaction <$> filter (fun tx => lo < at_Offset tx <= hi) ledger.

(** What a connection forwards. *)
Lemma runStream_txs lo resps :
  runStream lo resps = (decodeLedgerTransaction <$> omap id resps,
                        default lo (at_Offset <$> last (omap id resps))).
Proof.
  revert lo. induction resps as [|[tx|] resps IH]; intros lo; cbn; [done| |by rewrite IH].
  rewrite IH. cbn. destruct (omap id resps) as [|y l] eqn:Hl; [done|].
  f_equal. change (last (tx :: y :: l)) with (last (y :: l)).
  destruct (last (y :: l)) eqn:Hlast; [done|]. by apply last_None in Hlast.
Qed.

(** A prefix of the later transactions is everything up to its last offset. *)
Lemma take_later k lo l :
  StronglySorted (fun a b => at_Offset a < at_Offset b) l ->
  let sent := take k (filter (fun tx => lo < at_Offset tx) l) in
  let hi := default lo (at_Offset <$> last sent) in
  lo <= hi /\ sent = filter (fun tx => lo < at_Offset tx <= hi) l.
Proof.
  intros Hs. cbv zeta. revert k. induction Hs as [|x l Hs IH Hx]; intros k.
  { rewrite filter_nil, take_nil. cbn. split; [lia|done]. }
  rewrite !filter_cons. destruct (decide (lo < at_Offset x)) as [Hlo|Hlo].
  2:{ rewrite (decide_False (P := lo < at_Offset x <= _)) by lia. apply IH. }
  destruct k as [|k]; cbn [take].
  { cbn. split; [lia|]. rewrite decide_False by lia. symmetry. apply filter_none.
    intros y Hy. rewrite Forall_forall in Hx. specialize (Hx y Hy). lia. }
  destruct (IH k) as [Hle Heq]. set (s := take k _) in *.
  assert (default lo (at_Offset <$> last (x :: s)) = Z.max (at_Offset x) (default lo (at_Offset <$> last s))) as ->.
  { destruct s as [|y s'] eqn:Es; [cbn; lia|]. change (last (x :: y :: s')) with (last (y :: s')).
    destruct (last (y :: s')) as [z|] eqn:Hz; [|by apply last_None in Hz]. cbn.
    assert (z ∈ l) as Hzl.
    { apply last_Some_elem_of in Hz. rewrite <- Es in Hz. subst s.
      apply elem_of_take in Hz as (i & Hi & _). apply list_elem_of_lookup_2 in Hi.
      by apply list_elem_of_filter in Hi as [_ Hi]. }
    rewrite Forall_forall in Hx. specialize (Hx z Hzl). lia. }
  split; [lia|]. rewrite decide_True by lia. f_equal. rewrite Heq at 1. apply filter_ext_in.
  intros y Hy. rewrite Forall_forall in Hx. specialize (Hx y Hy). lia.
Qed.

(** The stream is exactly-once across reconnects.  However often the
    connection drops, and after however many responses, and when the server
    ends the stream, the transactions
    delivered since the resume offset are precisely those of the ledger
    between that offset and the last recorded one, in order: none is lost and
    none is delivered twice. *)
Theorem Subscribe_exactly_once conns from delay out last waits :
  Subscribe updates from from delay conns = (out, last, waits) ->
  from <= last /\ out = between from last.
Proof.
  revert from delay out last waits. induction conns as [|[n [|isAuth]] conns IH]; intros from delay out last waits; cbn.
  { intros [= <- <- _]. split; [lia|]. unfold between.
    rewrite filter_none; [done|]. intros; lia. }
  { rewrite runStream_txs. destruct (omap_id_take n (updates from)) as [k ->]. rewrite updates_spec. intros [= <- <- _].
    pose proof (take_later k from ledger ledger_ordered) as [Hle Hsent]. cbv zeta in Hle, Hsent.
    split; [done|]. unfold between. by rewrite <- Hsent. }
  rewrite runStream_txs. destruct (omap_id_take n (updates from)) as [k ->]. rewrite updates_spec.
  pose proof (take_later k from ledger ledger_ordered) as [Hle Hsent]. cbv zeta in Hle, Hsent.
  set (mid := default from _) in *. rewrite Hsent.
  destruct (Subscribe updates mid mid _ conns) as [[out' last'] ws] eqn:Hrest.
  intros [= <- <- _]. destruct (IH _ _ _ _ _ Hrest) as [Hle' ->]. split; [lia|].
  unfold between. by rewrite (filter_between at_Offset from mid last'), fmap_app.
Qed.
End Delivery.

(** A ledger of three transactions read over three connections. *)
Definition ex_tx (o : Z) : ApiTransaction :=
  mkApiTransaction (FormatInt o) o 0 [Event_Exercised "c" None "Archive" true true; Event_Archived "d" None].
Definition ex_ledger : list ApiTransaction := [ex_tx 1; ex_tx 3; ex_tx 7].
Definition ex_updates (o : Z) : list Response :=
  None :: (Some <$> filter (fun tx => o < at_Offset tx) ex_ledger).

Lemma Subscribe_exactly_once_witness :
  exists out waits, Subscribe ex_updates 0 0 reconnectBaseDelay [(2%nat, Dropped false); (0%nat, Dropped true); (3%nat, Dropped false)] =
    (out, 7, waits) /\ (lt_Offset <$> out) = [1; 3; 7] /\ waits = [5 * Second; 5 * Second; 10 * Second] /\
    0 <= 7 /\ out = between ex_ledger 0 7.
Proof.
  eexists _, _. split; [vm_compute; reflexivity|]. split; [reflexivity|]. split; [reflexivity|].
  apply (Subscribe_exactly_once ex_ledger ex_updates) with (delay := reconnectBaseDelay)
    (conns := [(2%nat, Dropped false); (0%nat, Dropped true); (3%nat, Dropped false)]) (waits := [5 * Second; 5 * Second; 10 * Second]).
  - repeat constructor.
  - intros o. unfold ex_updates. cbn [omap list_omap id].
    induction (filter _ ex_ledger) as [|x l IH]; [done|]. cbn. by f_equal.
  - vm_compute. reflexivity.
Defined.
