(* ===== verification/LedgerApi.v ===== *)
(** * Ledger API: messages, calls and histories

    The messages of the Ledger API v2 that the clients build and read, and the
    interaction with everything outside the process: a [call] names a request
    with the type of its response, a history is the list of exchanges so far,
    and the environment answers each call as any function of the history.
    Client code is a computation over histories, so that a theorem quantified
    over the environment covers every behaviour of the ledger, of the
    registries, of the clock and of the uuid generator. *)

From S2P Require Import Prelude AppErrors Effects GoStd DamlValues Streaming.

(** ** Messages *)

Record CreatedEvent := mkCreatedEvent {
  ce_ContractId : string;
  ce_TemplateId : option Identifier;
  ce_CreateArguments : list (string * ValuePtr);
  ce_CreatedEventBlob : list Z;
}.

Inductive Command :=
| Command_Exercise (tid : Identifier) (contractId choice : string) (argument : Value)
| Command_Create (tid : Identifier) (arguments : list (string * ValuePtr)).

Record DisclosedContract := mkDisclosedContract {
  dc_ContractId : string;
  dc_CreatedEventBlob : list Z;
  dc_SynchronizerId : string;
  dc_TemplateId : option Identifier;
}.

Record Commands := mkCommands {
  cs_SynchronizerId : string;
  cs_CommandId : string;
  cs_UserId : string;
  cs_ActAs : list string;
  cs_ReadAs : list string;
  cs_Commands : list Command;
  cs_DisclosedContracts : list DisclosedContract;
}.

Record PrepareSubmissionRequest := mkPrepareSubmissionRequest {
  ps_UserId : string;
  ps_CommandId : string;
  ps_Commands : list Command;
  ps_ActAs : list string;
  ps_ReadAs : list string;
  ps_SynchronizerId : string;
  ps_DisclosedContracts : list DisclosedContract;
}.

(** The prepared transaction is opaque to the clients. *)
Record PrepareSubmissionResponse := mkPrepareSubmissionResponse {
  pr_PreparedTransactionHash : list Z;
  pr_PreparedTransaction : list Z;
  pr_HashingSchemeVersion : Z;
}.

Definition SIGNATURE_FORMAT_DER : string := "SIGNATURE_FORMAT_DER".
Definition SIGNING_ALGORITHM_SPEC_EC_DSA_SHA_256 : string := "SIGNING_ALGORITHM_SPEC_EC_DSA_SHA_256".

Record Signature := mkSignature {
  sg_Format : string;
  sg_Signature : list Z;
  sg_SignedBy : string;
  sg_SigningAlgorithmSpec : string;
}.

Record ExecuteSubmissionRequest := mkExecuteSubmissionRequest {
  es_PreparedTransaction : list Z;
  es_PartySignatures : list (string * list Signature);
  es_SubmissionId : string;
  es_UserId : string;
  es_HashingSchemeVersion : Z;
}.

Inductive CumulativeFilter :=
| TemplateFilter (tid : Identifier) (includeBlob : bool)
| InterfaceFilter (iid : Identifier) (includeBlob : bool).

Record GetActiveContractsRequest := mkGetActiveContractsRequest {
  ga_ActiveAtOffset : Z;
  ga_FiltersByParty : list (string * list CumulativeFilter);
  ga_Verbose : bool;
}.

(** The messages of a stream, each with an active contract or without, and
    how the stream ended: EOF, or an error. *)
Record ContractStream := mkContractStream { st_msgs : list (option CreatedEvent); st_error : option error }.

Record PartyDetails := mkPartyDetails { pd_Party : string; pd_IsLocal : bool }.

Record SigningPublicKey := mkSigningPublicKey { sp_Format : string; sp_KeyData : list Z; sp_KeySpec : string }.

Record TopologyResponse := mkTopologyResponse {
  tr_TopologyTransactions : list (list Z);
  tr_MultiHash : list Z;
  tr_PublicKeyFingerprint : string;
}.

(** JSON documents; an object that is decoded into a struct has no two keys
    that are equal up to case. *)
Inductive json :=
| JNull
| JBool (b : bool)
| JNumber (text : string)
| JString (s : string)
| JArray (l : list json)
| JObject (l : list (string * json)).

(** What an HTTP request comes to: it cannot be built, it cannot be made, or
    it has a status and a body; the body as the caller reads it, up to its
    limit, with its document when it parses. *)
Inductive http_outcome :=
| http_invalid (e : error)
| http_failed (e : error)
| http_response (status : Z) (body : result (string * option json)).

(** A value of the Signer interface. *)
Record Signer := mkSigner { SignDER : list Z -> result (list Z); Fingerprint : result string }.

(** ** Calls *)

Inductive call : Type -> Type :=
| Now : call Z
| NewUUID : call string
| GetLedgerEndRPC : call (result Z)
| GetActiveContracts (req : GetActiveContractsRequest) : call (result ContractStream)
| SubmitAndWait (c : Commands) : call (result unit)
| SubmitAndWaitForTransaction (c : Commands) : call (result (option (list (option CreatedEvent))))
| PrepareSubmission (req : PrepareSubmissionRequest) : call (result PrepareSubmissionResponse)
| ExecuteSubmissionAndWait (req : ExecuteSubmissionRequest) : call (result unit)
| AllocatePartyRPC (hint synchronizer : string) : call (result (option PartyDetails))
| GenerateTopologyRPC (synchronizer hint : string) (key : SigningPublicKey) : call (result TopologyResponse)
| AllocateExternalPartyRPC (synchronizer : string) (txs : list (list Z)) (sigs : list Signature) : call (result string)
| ListKnownPartiesRPC (pageSize : Z) (pageToken : string) : call (result (list PartyDetails * string))
| GetPartiesRPC (parties : list string) : call (result (list PartyDetails))
| GetParticipantIdRPC : call (result string)
| GrantActAsRPC (userId party : string) : call (result unit)
| ResolveKey (party : string) : call (result Signer)
| GenerateKey : call (result Z)
| RandomNonce : call (result (list Z))
| HttpPost (url : string) (body : json) : call http_outcome.

Record exchange := Exchange { x_type : Type; x_call : call x_type; x_response : x_type }.
Arguments Exchange {x_type} _ _.

Abbreviation history := (list exchange).

Class Env := { respond : forall A, history -> call A -> A }.

Section computations.
Context `{!Env}.

(** Make the call and record the exchange. *)
Definition ask {A} (c : call A) : M history A := fun h =>
  let a := respond A h c in (Ok a, h ++ [Exchange c a]).

(** A call that can fail. *)
Definition rpc {A} (c : call (result A)) : M history A := fun h =>
  let r := respond _ h c in (r, h ++ [Exchange c r]).

Lemma wp_ask {A} (c : call A) Q h :
  (forall a, Q (Ok a) (h ++ [Exchange c a])) -> wp (ask c) Q h.
Proof. intros HQ. apply HQ. Qed.

Lemma wp_rpc {A} (c : call (result A)) Q h :
  (forall r, Q r (h ++ [Exchange c r])) -> wp (rpc c) Q h.
Proof. intros HQ. apply HQ. Qed.

(** What a computation adds to the history: [emits c P] when every exchange
    it makes satisfies [P]. *)
Definition emits {A} (P : exchange -> Prop) (c : M history A) : Prop :=
  forall h, exists new, (c h).2 = h ++ new /\ Forall P new.

Lemma emits_ret {A} P (a : A) : emits P (mret a).
Proof. intros h. exists []. by rewrite app_nil_r. Qed.

Lemma emits_fail {A} P e : emits (A := A) P (fail e).
Proof. intros h. exists []. by rewrite app_nil_r. Qed.

Lemma emits_lift {A} P (r : result A) : emits P (lift r).
Proof. intros h. exists []. by rewrite app_nil_r. Qed.

Lemma emits_ask {A} (P : exchange -> Prop) (c : call A) : (forall a, P (Exchange c a)) -> emits P (ask c).
Proof. intros Hc h. exists [Exchange c (respond A h c)]. split; [done|]. by constructor. Qed.

Lemma emits_rpc {A} (P : exchange -> Prop) (c : call (result A)) : (forall a, P (Exchange c a)) -> emits P (rpc c).
Proof. intros Hc h. eexists [Exchange c _]. split; [done|]. by constructor. Qed.

Lemma emits_bind {A B} P (c : M history A) (k : A -> M history B) :
  emits P c -> (forall a, emits P (k a)) -> emits P (c ≫= k).
Proof.
  intros Hc Hk h. destruct (Hc h) as (n1 & H1 & F1). unfold mbind, M_bind.
  destruct (c h) as [[a|e] h1] eqn:Hrun; cbn in *; subst; [|by exists n1].
  destruct (Hk a (h ++ n1)) as (n2 & H2 & F2). exists (n1 ++ n2). rewrite H2. by rewrite app_assoc, Forall_app.
Qed.

Lemma emits_wrapping {A} P pre (c : M history A) : emits P c -> emits P (wrapping pre c).
Proof. intros Hc h. destruct (Hc h) as (n & Hn & F). exists n. unfold wrapping. by destruct (c h). Qed.

Lemma emits_attempt {A} P (c : M history A) : emits P c -> emits P (attempt c).
Proof. intros Hc h. destruct (Hc h) as (n & Hn & F). exists n. unfold attempt. by destruct (c h). Qed.

Lemma emits_weaken {A} (P Q : exchange -> Prop) (c : M history A) :
  emits P c -> (forall x, P x -> Q x) -> emits Q c.
Proof. intros Hc HPQ h. destruct (Hc h) as (new & Hn & Hf). exists new. split; [done|]. by eapply Forall_impl. Qed.

(** The frame of a specification: a computation only extends the history. *)
Lemma wp_emits {A} P (c : M history A) Q h :
  emits P c -> wp c Q h -> wp c (fun r h' => Q r h' /\ exists new, h' = h ++ new /\ Forall P new) h.
Proof. intros Hc. unfold wp. specialize (Hc h). destruct (c h). cbn in *. eauto. Qed.
End computations.

Create HintDb emits.
#[export] Hint Resolve emits_ret emits_fail emits_lift emits_ask emits_rpc emits_bind emits_wrapping emits_attempt : emits.

(** ** What a history submitted to the ledger *)

(** The transactions whose execution was requested, in order. *)
Definition executed_request (x : exchange) : option ExecuteSubmissionRequest :=
  match x_call x with ExecuteSubmissionAndWait r => Some r | _ => None end.
Definition executed (h : history) : list ExecuteSubmissionRequest := omap executed_request h.

(** The transactions that were prepared, with what the ledger returned. *)
Definition prepared_exchange (x : exchange) : option (PrepareSubmissionRequest * PrepareSubmissionResponse) :=
  match x with
  | @Exchange A c a =>
      match c in call B return B -> option (PrepareSubmissionRequest * PrepareSubmissionResponse) with
      | PrepareSubmission r => fun a => match a with Ok p => Some (r, p) | Err _ => None end
      | _ => fun _ => None
      end a
  end.
Definition prepared (h : history) : list (PrepareSubmissionRequest * PrepareSubmissionResponse) := omap prepared_exchange h.

(** The commands submitted with the participant's own key. *)
Definition submitted_commands (x : exchange) : option Commands :=
  match x_call x with
  | SubmitAndWait c => Some c
  | SubmitAndWaitForTransaction c => Some c
  | _ => None
  end.
Definition submitted (h : history) : list Commands := omap submitted_commands h.

(** An exchange that writes nothing to the ledger and prepares nothing. *)
Definition read_only (x : exchange) : Prop :=
  executed_request x = None /\ submitted_commands x = None /\ prepared_exchange x = None.

(** What a history asked the ledger to do. *)
Definition effects (h : history) := (executed h, submitted h, prepared h).

Lemma omap_app_Forall {A B} (f : A -> option B) h new :
  Forall (fun x => f x = None) new -> omap f (h ++ new) = omap f h.
Proof.
  intros Hn. rewrite omap_app. assert (omap f new = []) as ->; [|by rewrite app_nil_r].
  induction Hn as [|x l Hx _ IH]; [done|]. cbn. by rewrite Hx.
Qed.

Lemma effects_read_only h new : Forall read_only new -> effects (h ++ new) = effects h.
Proof.
  intros Hn. unfold effects, executed, submitted, prepared.
  by rewrite !omap_app_Forall by (eapply Forall_impl; [done|]; intros x (? & ? & ?); done).
Qed.

Section effects.
Context `{!Env}.

(** A computation that only reads leaves the effects as they are. *)
Lemma wp_read_only {A} (c : M history A) Q h :
  emits read_only c ->
  (forall r new, c h = (r, h ++ new) -> effects (h ++ new) = effects h -> Q r (h ++ new)) ->
  wp c Q h.
Proof.
  intros Hc HQ. unfold wp. destruct (Hc h) as (new & Hn & Hf). destruct (c h) as [r h'] eqn:E. cbn in Hn. subst h'.
  apply HQ; [done|]. by apply effects_read_only.
Qed.

Lemma effects_snoc h x : read_only x -> effects (h ++ [x]) = effects h.
Proof. intros Hx. apply effects_read_only. by constructor. Qed.
End effects.

(** ** A scripted environment, for witnesses *)

Record Script := mkScript {
  sc_now : Z;
  sc_end : Z;
  sc_contracts : GetActiveContractsRequest -> list CreatedEvent;
  sc_key : string -> result Signer;
  sc_parties : string -> list PartyDetails * string;
  sc_http : string -> http_outcome;
}.

Definition scripted (s : Script) : Env := {| respond A h c :=
  match c in call B return B with
  | Now => sc_now s
  | NewUUID => "uuid-" +:+ FormatInt (Z.of_nat (length h))
  | GetLedgerEndRPC => Ok (sc_end s)
  | GetActiveContracts req => Ok (mkContractStream (Some <$> sc_contracts s req) None)
  | SubmitAndWait _ => Ok tt
  | SubmitAndWaitForTransaction _ => Ok (Some [])
  | PrepareSubmission _ => Ok (mkPrepareSubmissionResponse [7; 7] [1; 2; 3] 2)
  | ExecuteSubmissionAndWait _ => Ok tt
  | AllocatePartyRPC hint _ => Ok (Some (mkPartyDetails hint true))
  | GenerateTopologyRPC _ _ key => Ok (mkTopologyResponse [sp_KeyData key] (sp_KeyData key) "fp")
  | AllocateExternalPartyRPC _ _ _ => Ok "party"
  | ListKnownPartiesRPC _ tok => Ok (sc_parties s tok)
  | GetPartiesRPC _ => Ok (sc_parties s "").1
  | GetParticipantIdRPC => Ok "participant"
  | GrantActAsRPC _ _ => Ok tt
  | ResolveKey p => sc_key s p
  | GenerateKey => Ok (Z.of_nat (length h) + 7)
  | RandomNonce => Ok (replicate 12 5)
  | HttpPost url _ => sc_http s url
  end |}.
