(* ===== verification/Keys.v ===== *)
(** * Keys: pkg/keys/canton_keys.go

    The secp256k1 key pairs of custodial parties: construction, signatures in
    DER, their verification, the encryption of private keys at rest, and the
    cipher that services use for it.  DER
    (encoding/asn1) and base64 are written out; the curve of go-ethereum's
    crypto package, HKDF and AES-GCM are parameters with named laws. *)

From S2P Require Import Prelude AppErrors Effects GoStd GoText EthClient AuthMessages LedgerApi.
From Stdlib Require Import Ascii String.
Local Open Scope Z_scope.
Local Abbreviation length := Datatypes.length.

(** What a call comes to when it can also panic. *)
Inductive outcome (A : Type) :=
| Return (r : result A)
| Panic.
Arguments Return {A} r.
Arguments Panic {A}.

Abbreviation is_byte := (fun b => 0 <= b < 256).

(** ** encoding/asn1 *)

Definition der_len (n : Z) : list Z :=
  if n <? 128 then [n] else let b := big_Bytes n in 128 + Z.of_nat (length b) :: b.

Definition der_tlv (tag : Z) (content : list Z) : list Z := tag :: der_len (Z.of_nat (length content)) ++ content.

(** The INTEGER of a non-negative number: minimal, with its sign bit clear. *)
Definition der_integer (n : Z) : list Z :=
  der_tlv 2 (match big_Bytes n with
             | [] => [0]
             | b :: bs => if 128 <=? b then 0 :: b :: bs else b :: bs
             end).

Record ecdsaSignature := mkEcdsaSignature { es_R : Z; es_S : Z }.

Definition marshal_ecdsaSignature (s : ecdsaSignature) : list Z :=
  der_tlv 48 (der_integer (es_R s) ++ der_integer (es_S s)).

(** The bytes of a long-form length: minimal and below 2^31. *)
Fixpoint get_len (k : nat) (acc : Z) (bs : list Z) : option (Z * list Z) :=
  match k with
  | O => if acc <? 128 then None else Some (acc, bs)
  | S k =>
      match bs with
      | [] => None
      | b :: bs => if 2 ^ 23 <=? acc then None
                   else let acc := acc * 256 + b in if acc =? 0 then None else get_len k acc bs
      end
  end.

(** An element with the given identifier octet: its content and the rest. *)
Definition der_element (tag : Z) (bs : list Z) : option (list Z * list Z) :=
  match bs with
  | t :: l :: bs =>
      if negb (t =? tag) then None
      else
        '(n, bs) ← (if l <? 128 then Some (l, bs)
                    else if l =? 128 then None
                    else get_len (Z.to_nat (l - 128)) 0 bs);
        if Z.of_nat (length bs) <? n then None
        else Some (take (Z.to_nat n) bs, drop (Z.to_nat n) bs)
  | _ => None
  end.

(** checkInteger and parseBigInt: two's complement, minimally encoded. *)
Definition parse_integer (bs : list Z) : option Z :=
  let value := match bs with
               | b :: _ => if 128 <=? b then SetBytes bs - 256 ^ Z.of_nat (length bs) else SetBytes bs
               | [] => 0
               end in
  match bs with
  | [] => None
  | [b] => Some value
  | b :: c :: _ => if ((b =? 0) && (c <? 128)) || ((b =? 255) && (128 <=? c)) then None else Some value
  end.

(** asn1.Unmarshal into the signature: the value and the bytes after it;
    bytes after the second integer inside the sequence are ignored. *)
Definition unmarshal_ecdsaSignature (bs : list Z) : option (ecdsaSignature * list Z) :=
  '(inner, rest) ← der_element 48 bs;
  '(r, inner) ← der_element 2 inner;
  R ← parse_integer r;
  '(s, inner) ← der_element 2 inner;
  S ← parse_integer s;
  Some (mkEcdsaSignature R S, rest).

Fixpoint base128_high (fuel : nat) (n : Z) (acc : list Z) : list Z :=
  match fuel with
  | O => acc
  | S fuel => if n =? 0 then acc else base128_high fuel (n / 128) (128 + n mod 128 :: acc)
  end.
Definition base128 (n : Z) : list Z := base128_high 10 (n / 128) [n mod 128].

(** An object identifier; the first two arcs share a byte. *)
Definition der_oid (oid : list Z) : list Z :=
  der_tlv 6 (match oid with
             | a :: b :: arcs => base128 (a * 40 + b) ++ mjoin (base128 <$> arcs)
             | _ => []
             end).
Definition oidECPublicKey : list Z := [1; 2; 840; 10045; 2; 1].
Definition oidSecp256k1 : list Z := [1; 3; 132; 0; 10].

(** big.Int.FillBytes into [n] bytes. *)
Definition fill_bytes (n : nat) (v : Z) : list Z := replicate (n - length (big_Bytes v)) 0 ++ big_Bytes v.
(** elliptic.Marshal of a point of the curve. *)
Definition elliptic_Marshal (x y : Z) : list Z := 4 :: fill_bytes 32 x ++ fill_bytes 32 y.

(** The subjectPublicKeyInfo of a point: an algorithm identifier and a bit
    string with no unused bits. *)
Definition MarshalSPKIPublicKey (x y : Z) : list Z :=
  der_tlv 48 (der_tlv 48 (der_oid oidECPublicKey ++ der_oid oidSecp256k1) ++ der_tlv 3 (0 :: elliptic_Marshal x y)).

Example spki_prefix :
  take 23 (MarshalSPKIPublicKey 1 2) = [48; 86; 48; 16; 6; 7; 42; 134; 72; 206; 61; 2; 1; 6; 5; 43; 129; 4; 0; 10; 3; 66; 0].
Proof. vm_compute. reflexivity. Qed.

(** ** The curve, HKDF and AES-GCM *)

(** What the sources call of go-ethereum's crypto package and of
    golang.org/x/crypto/hkdf: a secret key is its scalar, a public key its point. *)
Class Curve := {
  ToECDSA : list Z -> result Z;
  FromECDSA : Z -> list Z;
  PublicPoint : Z -> Z * Z;
  CompressPoint : Z * Z -> list Z;
  DecompressPubkey : list Z -> result (Z * Z);
  crypto_Sign : list Z -> Z -> result (list Z);
  VerifySignature : list Z -> list Z -> list Z -> bool;
  RecoverPoint : list Z -> list Z -> result (Z * Z);
  PointToAddress : Z * Z -> Address;
  curve_N : Z;
  hkdf_read : list Z -> list Z -> Z -> result (list Z);
}.

(** crypto/aes and crypto/cipher for a 32-byte key: sealing appends nothing to
    the ciphertext but its tag, a ciphertext opens under the nonce it was
    sealed with. *)
Class AesGcm := {
  NonceSize : nat;
  gcm_Seal : list Z -> list Z -> list Z -> list Z;
  gcm_Open : list Z -> list Z -> list Z -> result (list Z);
}.

Class CurveLaws `{!Curve} := {
  law_compress : forall d, DecompressPubkey (CompressPoint (PublicPoint d)) = Ok (PublicPoint d);
  law_N : 0 < curve_N < 2 ^ 256;
  law_scalar : forall d, 0 < d < curve_N ->
    ToECDSA (FromECDSA d) = Ok d /\ length (FromECDSA d) = 32%nat /\ Forall is_byte (FromECDSA d);
  (** a signature is R ‖ S ‖ V, low-S, and verifies under the signer's key *)
  law_sign : forall h d sig, crypto_Sign h d = Ok sig ->
    length sig = 65%nat /\ Forall is_byte sig /\
    0 < SetBytes (take 32 sig) /\ 0 < SetBytes (take 32 (drop 32 sig)) <= Z.shiftr curve_N 1 /\
    VerifySignature (elliptic_Marshal (PublicPoint d).1 (PublicPoint d).2) h (take 64 sig) = true;
}.

Class AesGcmLaws `{!AesGcm} := {
  law_nonce : NonceSize = 12%nat;
  law_open_seal : forall key nonce text, length key = 32%nat -> length nonce = NonceSize -> Forall is_byte text ->
    gcm_Open key nonce (gcm_Seal key nonce text) = Ok text;
  law_seal_bytes : forall key nonce text, Forall is_byte (gcm_Seal key nonce text);
}.

Section keys.
Context `{!GoEthereum} `{!Curve} `{!AesGcm}.

Record CantonKeyPair := mkCantonKeyPair { kp_PublicKey : list Z; kp_PrivateKey : list Z }.

(** crypto.GenerateKey draws the scalar. *)
Definition GenerateCantonKeyPair (generated : result Z) : result CantonKeyPair :=
  d ← wrap "failed to generate secp256k1 keypair: " generated;
  mret (mkCantonKeyPair (CompressPoint (PublicPoint d)) (FromECDSA d)).

Definition DeriveCantonKeyPair (evmAddress : string) (serverSeed : list Z) : result CantonKeyPair :=
  if bool_decide (length serverSeed < 32)%nat then Err (ErrNew "server seed must be at least 32 bytes")
  else
    let info := bytes_of ("canton-key-" +:+ evmAddress) in
    privateKeyBytes ← wrap "failed to derive key seed: " (hkdf_read serverSeed info 32);
    d ← wrap "failed to create private key: " (ToECDSA privateKeyBytes);
    mret (mkCantonKeyPair (CompressPoint (PublicPoint d)) privateKeyBytes).

Definition CantonKeyPairFromPrivateKey (privKey : list Z) : result CantonKeyPair :=
  if negb (bool_decide (length privKey = 32%nat)) then
    Err (ErrNew ("private key must be 32 bytes, got " +:+ FormatInt (Z.of_nat (length privKey))))
  else
    d ← wrap "invalid secp256k1 private key: " (ToECDSA privKey);
    mret (mkCantonKeyPair (CompressPoint (PublicPoint d)) privKey).

Definition PublicKeyHex (kp : CantonKeyPair) : string := hex_encode (kp_PublicKey kp).
Definition PrivateKeyHex (kp : CantonKeyPair) : string := "0x" +:+ hex_encode (kp_PrivateKey kp).

Definition SPKIPublicKey (kp : CantonKeyPair) : result (list Z) :=
  p ← wrap "decompress public key: " (DecompressPubkey (kp_PublicKey kp));
  mret (MarshalSPKIPublicKey p.1 p.2).

(** binary.BigEndian.PutUint32 of the hash purpose, and the multihash header. *)
Definition purpose : list Z := [0; 0; 0; 12].
Definition key_Fingerprint (kp : CantonKeyPair) : result string :=
  spki ← wrap "encode SPKI public key: " (SPKIPublicKey kp);
  mret (hex_encode ([18; 32] ++ Sum256 (purpose ++ spki))).

(** The first 64 bytes of crypto.Sign over a digest. *)
Definition sign_digest (hash : list Z) (kp : CantonKeyPair) : result (list Z) :=
  d ← wrap "failed to convert private key: " (ToECDSA (kp_PrivateKey kp));
  wrap "failed to sign: " (crypto_Sign hash d).

Definition Sign (kp : CantonKeyPair) (message : list Z) : result (list Z) :=
  signature ← sign_digest (Sum256 message) kp; mret (take 64 signature).

Definition SignHash (kp : CantonKeyPair) (hash : list Z) : result (list Z) :=
  if negb (bool_decide (length hash = 32%nat)) then Err (ErrNew "hash must be 32 bytes")
  else signature ← sign_digest hash kp; mret (take 64 signature).

Definition hash_length_error (hash : list Z) : error :=
  ErrNew ("hash must be 32 bytes, got " +:+ FormatInt (Z.of_nat (length hash))).

Definition SignHashDER (kp : CantonKeyPair) (hash : list Z) : result (list Z) :=
  if negb (bool_decide (length hash = 32%nat)) then Err (hash_length_error hash)
  else
    rawSig ← sign_digest hash kp;
    let r := SetBytes (take 32 rawSig) in
    let s := SetBytes (take 32 (drop 32 rawSig)) in
    mret (marshal_ecdsaSignature (mkEcdsaSignature r s)).

Definition key_SignDER (kp : CantonKeyPair) (message : list Z) : result (list Z) := SignHashDER kp (Sum256 message).

(** The key pair as a value of the Signer interface. *)
Definition signer_of (kp : CantonKeyPair) : Signer := mkSigner (key_SignDER kp) (key_Fingerprint kp).

(** One try of Verify with recovery id [v]. *)
Definition verify_with (kp : CantonKeyPair) (hash signature : list Z) (v : Z) : bool :=
  match RecoverPoint hash (signature ++ [v]), DecompressPubkey (kp_PublicKey kp) with
  | Ok recovered, Ok actual => bool_decide (PointToAddress recovered = PointToAddress actual)
  | _, _ => false
  end.
Definition Verify (kp : CantonKeyPair) (message signature : list Z) : bool :=
  let hash := Sum256 message in
  if negb (bool_decide (length signature = 64%nat)) then false
  else verify_with kp hash signature 0 || verify_with kp hash signature 1.

(** copy(dst[n-len(src):n], src): out of range when src is longer than n. *)
Definition pad_copy (n : nat) (v : Z) : option (list Z) :=
  if bool_decide (length (big_Bytes v) <= n)%nat then Some (fill_bytes n v) else None.

Definition VerifyDER (compressedPubKey hash derSig : list Z) : outcome unit :=
  if negb (bool_decide (length hash = 32%nat)) then Return (Err (hash_length_error hash))
  else match DecompressPubkey compressedPubKey with
  | Err e => Return (Err (ErrWrap "invalid compressed public key: " e ""))
  | Ok pubKey =>
      match unmarshal_ecdsaSignature derSig with
      | None => Return (Err (ErrWrap "invalid DER signature: " (ErrNew "asn1: syntax error") ""))
      | Some (sig, rest) =>
          if negb (bool_decide (rest = [])) then Return (Err (ErrNew "trailing bytes after DER signature"))
          else if (es_R sig <=? 0) || (es_S sig <=? 0) then
            Return (Err (ErrNew "signature contains non-positive values"))
          else if Z.shiftr curve_N 1 <? es_S sig then Return (Err (ErrNew "signature is not low-S normalized"))
          else match pad_copy 32 (es_R sig), pad_copy 32 (es_S sig) with
               | Some r, Some s =>
                   if VerifySignature (elliptic_Marshal pubKey.1 pubKey.2) hash (r ++ s) then Return (Ok tt)
                   else Return (Err (ErrNew "signature verification failed"))
               | _, _ => Panic
               end
      end
  end.

(** ** Encryption at rest *)

(** [drawn] is the nonce that rand.Reader gives. *)
Definition encryptPrivateKey (drawn : result (list Z)) (privateKey masterKey : list Z) : result string :=
  if negb (bool_decide (length masterKey = 32%nat)) then Err (ErrNew "master key must be 32 bytes (AES-256)")
  else if negb (bool_decide (length privateKey = 32%nat)) then Err (ErrNew "private key must be 32 bytes (secp256k1)")
  else
    nonce ← wrap "failed to generate nonce: " drawn;
    mret (Std_Encode (nonce ++ gcm_Seal masterKey nonce privateKey)).

Definition decryptPrivateKey (encrypted : string) (masterKey : list Z) : result (list Z) :=
  if negb (bool_decide (length masterKey = 32%nat)) then Err (ErrNew "master key must be 32 bytes (AES-256)")
  else match Std_Decode encrypted with
  | None => Err (ErrWrap "failed to decode base64: " (ErrNew "illegal base64 data") "")
  | Some ciphertext =>
      if bool_decide (length ciphertext < NonceSize)%nat then Err (ErrNew "ciphertext too short")
      else
        plaintext ← wrap "failed to decrypt: " (gcm_Open masterKey (take NonceSize ciphertext) (drop NonceSize ciphertext));
        if negb (bool_decide (length plaintext = 32%nat)) then
          Err (ErrNew ("decrypted key has wrong size: got " +:+ FormatInt (Z.of_nat (length plaintext)) +:+ ", want 32"))
        else mret plaintext
  end.

Definition MasterKeyFromBase64 (encoded : string) : result (list Z) :=
  match Std_Decode encoded with
  | None => Err (ErrWrap "failed to decode master key: " (ErrNew "illegal base64 data") "")
  | Some key =>
      if negb (bool_decide (length key = 32%nat)) then
        Err (ErrNew ("master key must be 32 bytes, got " +:+ FormatInt (Z.of_nat (length key))))
      else Ok key
  end.
Definition MasterKeyToBase64 (key : list Z) : string := Std_Encode key.

(** "0x" and the last 20 bytes of the hash, when the key does not decompress. *)
Definition DeriveEVMAddressFromPublicKey (compressedPubKey : list Z) : string :=
  match DecompressPubkey compressedPubKey with
  | Err _ => "0x" +:+ skip 26 (Hash_Hex (Keccak256 compressedPubKey))
  | Ok pubKey => Address_Hex (PointToAddress pubKey)
  end.
End keys.

(** ** Big-endian numbers *)

Lemma put_bytes_facts fuel n acc :
  0 <= n -> exists bs, put_bytes fuel n acc = bs ++ acc /\ Forall is_byte bs /\
    ((Z.to_nat (Z.log2 n) < fuel)%nat -> match bs with b :: _ => 0 < b | [] => n = 0 end).
Proof.
  revert n acc. induction fuel as [|fuel IH]; intros n acc Hn; cbn [put_bytes].
  { exists []. split; [done|]. split; [constructor|]. lia. }
  destruct (Z.eqb_spec n 0) as [->|Hne].
  { exists []. split; [done|]. split; [constructor|]. done. }
  pose proof (Z.mod_pos_bound n 256 ltac:(lia)).
  destruct (Z.le_gt_cases 256 n) as [Hge|Hsm].
  - destruct (IH (n / 256) (n mod 256 :: acc)) as (bs & -> & Hbs & Hhd); [by apply Z.div_pos|].
    exists (bs ++ [n mod 256]). split; [by rewrite <- app_assoc|]. split; [by apply Forall_app; split; [|constructor]|].
    intros Hf. assert (Z.log2 (n / 256) < Z.log2 n) as Hl.
    { apply Z.log2_lt_pow2; [apply Z.div_str_pos; lia|]. apply Z.div_lt_upper_bound; [lia|].
      pose proof (Z.log2_spec n) as [_ Hs]; [lia|]. rewrite Z.pow_succ_r in Hs by apply Z.log2_nonneg. lia. }
    pose proof (Z.log2_nonneg (n / 256)). pose proof (Z.div_str_pos n 256 ltac:(lia)).
    destruct bs; cbn; [|apply Hhd; lia]. assert (n / 256 = 0) by (apply Hhd; lia). lia.
  - exists [n mod 256]. rewrite Z.div_small, Z.mod_small by lia.
    split; [by destruct fuel|]. split; [constructor; [lia|constructor]|]. lia.
Qed.

Lemma big_Bytes_facts n :
  0 <= n -> Forall is_byte (big_Bytes n) /\ match big_Bytes n with b :: _ => 0 < b | [] => n = 0 end.
Proof.
  intros Hn. unfold big_Bytes. rewrite Z.abs_eq by done.
  destruct (put_bytes_facts (S (Z.to_nat (Z.log2 n))) n [] Hn) as (bs & -> & Hbs & Hhd).
  rewrite app_nil_r. split; [done|]. apply Hhd. lia.
Qed.

Lemma SetBytes_cons b bs : SetBytes (b :: bs) = b * 256 ^ Z.of_nat (length bs) + SetBytes bs.
Proof.
  unfold SetBytes. cbn [foldl].
  assert (forall l a c, foldl (fun n x => n * 256 + x) (a + c) l =
    a * 256 ^ Z.of_nat (length l) + foldl (fun n x => n * 256 + x) c l) as Hl.
  { clear. induction l as [|x l IH]; intros a c; [cbn; lia|]. cbn [foldl].
    replace ((a + c) * 256 + x) with (a * 256 + (c * 256 + x)) by lia. rewrite IH.
    cbn [length]. rewrite Nat2Z.inj_succ, Z.pow_succ_r by lia. lia. }
  replace (0 * 256 + b) with (b + 0) by lia. apply Hl.
Qed.

Lemma SetBytes_bound bs : Forall is_byte bs -> 0 <= SetBytes bs < 256 ^ Z.of_nat (length bs).
Proof.
  induction 1 as [|b bs Hb _ IH]; [done|]. rewrite SetBytes_cons. cbn [length].
  rewrite Nat2Z.inj_succ, Z.pow_succ_r by lia. nia.
Qed.

Lemma SetBytes_inj a b :
  Forall is_byte a -> Forall is_byte b -> length a = length b -> SetBytes a = SetBytes b -> a = b.
Proof.
  intros Ha. revert b. induction Ha as [|x a Hx Ha IH]; intros [|y b] Hb Hl E; try done.
  apply Forall_cons in Hb as [Hy Hb]. cbn in Hl. injection Hl as Hl. rewrite !SetBytes_cons, Hl in E.
  pose proof (SetBytes_bound a Ha) as Ba. pose proof (SetBytes_bound b Hb) as Bb. rewrite Hl in Ba.
  assert (x = y) as -> by nia. f_equal. apply IH; [done..|]. lia.
Qed.

Lemma SetBytes_zeros n bs : SetBytes (replicate n 0 ++ bs) = SetBytes bs.
Proof. induction n as [|n IH]; [done|]. cbn [replicate app]. rewrite SetBytes_cons, IH. lia. Qed.

Lemma length_big_Bytes n k : 0 <= n -> (length (big_Bytes n) <= k)%nat <-> n < 256 ^ Z.of_nat k.
Proof.
  intros Hn. destruct (big_Bytes_facts n Hn) as [Hb Hhd]. pose proof (SetBytes_big_Bytes n Hn) as E.
  split; intros H.
  - pose proof (SetBytes_bound _ Hb) as Hbd. rewrite E in Hbd.
    assert (256 ^ Z.of_nat (length (big_Bytes n)) <= 256 ^ Z.of_nat k) by (apply Z.pow_le_mono_r; lia). lia.
  - destruct (big_Bytes n) as [|b bs] eqn:Eb; [cbn; lia|]. rewrite SetBytes_cons in E.
    apply Forall_cons in Hb as [Hb Hbs]. pose proof (SetBytes_bound bs Hbs).
    destruct (decide (S (length bs) <= k)%nat) as [|Hgt]; [done|].
    assert (256 ^ Z.of_nat k <= 256 ^ Z.of_nat (length bs)) by (apply Z.pow_le_mono_r; lia). nia.
Qed.

(** Filling the bytes of a number read from [k] bytes gives them back. *)
Lemma fill_SetBytes k bs : Forall is_byte bs -> length bs = k -> fill_bytes k (SetBytes bs) = bs.
Proof.
  intros Hb Hl. pose proof (SetBytes_bound bs Hb) as Hbd. rewrite Hl in Hbd.
  assert (length (big_Bytes (SetBytes bs)) <= k)%nat as Hle by (apply length_big_Bytes; lia).
  apply SetBytes_inj; [|done| |].
  - apply Forall_app. split; [apply Forall_replicate; lia|]. apply big_Bytes_facts. lia.
  - unfold fill_bytes. rewrite length_app, length_replicate. lia.
  - unfold fill_bytes. rewrite SetBytes_zeros. apply SetBytes_big_Bytes. lia.
Qed.

(** ** DER *)

Lemma der_element_tlv tag content rest :
  Z.of_nat (length content) < 128 -> der_element tag (der_tlv tag content ++ rest) = Some (content, rest).
Proof.
  intros Hl. unfold der_tlv, der_len. rewrite (proj2 (Z.ltb_lt _ _) Hl). cbn.
  rewrite Z.eqb_refl. cbn. rewrite (proj2 (Z.ltb_lt _ _) Hl). cbn. rewrite length_app.
  rewrite (proj2 (Z.ltb_ge _ _)) by lia. rewrite Nat2Z.id. by rewrite take_app_length, drop_app_length.
Qed.

(** The content of an INTEGER. *)
Definition integer_bytes (n : Z) : list Z :=
  match big_Bytes n with
  | [] => [0]
  | b :: bs => if 128 <=? b then 0 :: b :: bs else b :: bs
  end.

Lemma parse_integer_bytes n : 0 <= n -> parse_integer (integer_bytes n) = Some n.
Proof.
  intros Hn. destruct (big_Bytes_facts n Hn) as [Hb Hhd]. pose proof (SetBytes_big_Bytes n Hn) as E.
  unfold integer_bytes. destruct (big_Bytes n) as [|b bs]; [by subst|].
  destruct (Z.leb_spec 128 b) as [Hge|Hlt].
  - unfold parse_integer. rewrite (proj2 (Z.ltb_ge b 128)) by lia. cbn [Z.eqb andb orb].
    change (128 <=? 0) with false. rewrite SetBytes_cons. f_equal. cbn [length] in *. lia.
  - unfold parse_integer. rewrite (proj2 (Z.leb_gt 128 b)) by lia. rewrite E.
    destruct bs as [|c bs]; [done|]. rewrite (proj2 (Z.eqb_neq b 0)), (proj2 (Z.eqb_neq b 255)) by lia. done.
Qed.

Lemma length_integer_bytes n k : 0 <= n < 256 ^ Z.of_nat k -> (length (integer_bytes n) <= S k)%nat.
Proof.
  intros [Hn Hlt]. pose proof (proj2 (length_big_Bytes n k Hn) Hlt) as Hl. unfold integer_bytes.
  destruct (big_Bytes n) as [|b bs]; cbn in *; [lia|]. case_match; cbn; lia.
Qed.

#[local] Arguments der_tlv : simpl never.
#[local] Arguments der_element : simpl never.
#[local] Arguments parse_integer : simpl never.

(** A signature whose numbers fit 58 bytes reads back what was written. *)
Lemma ecdsaSignature_roundtrip r s :
  0 <= r < 256 ^ 58 -> 0 <= s < 256 ^ 58 ->
  unmarshal_ecdsaSignature (marshal_ecdsaSignature (mkEcdsaSignature r s)) = Some (mkEcdsaSignature r s, []).
Proof.
  intros Hr Hs. pose proof (length_integer_bytes r 58 Hr) as Lr. pose proof (length_integer_bytes s 58 Hs) as Ls.
  unfold unmarshal_ecdsaSignature, marshal_ecdsaSignature. cbn [es_R es_S].
  change (der_integer r) with (der_tlv 2 (integer_bytes r)). change (der_integer s) with (der_tlv 2 (integer_bytes s)).
  rewrite <- (app_nil_r (der_tlv 48 _)). rewrite der_element_tlv.
  2:{ rewrite length_app. unfold der_tlv, der_len. rewrite !(proj2 (Z.ltb_lt _ _)) by lia. cbn. lia. }
  cbn. rewrite der_element_tlv by lia. cbn. rewrite parse_integer_bytes by lia. cbn.
  rewrite <- (app_nil_r (der_tlv 2 (integer_bytes s))). rewrite der_element_tlv by lia. cbn.
  by rewrite parse_integer_bytes by lia.
Qed.

(** ** Signatures *)

Section signatures.
Context `{!GoEthereum} `{!Curve} `{!CurveLaws}.

(** The key pair of a secret scalar, as CantonKeyPairFromPrivateKey builds it. *)
Definition pair_of (privKey : list Z) (kp : CantonKeyPair) : Prop := CantonKeyPairFromPrivateKey privKey = Ok kp.

Lemma pair_of_inv privKey kp :
  pair_of privKey kp -> exists d, ToECDSA (kp_PrivateKey kp) = Ok d /\ kp_PublicKey kp = CompressPoint (PublicPoint d).
Proof.
  unfold pair_of, CantonKeyPairFromPrivateKey. case_bool_decide; cbn; [|done].
  destruct (ToECDSA privKey) as [d|e] eqn:Hd; cbn; [|done]. intros [= <-]. cbn. eauto.
Qed.

(** C30: A signature made by SignHashDER with a custodial key passes VerifyDER
    under the public key of that pair: the DER encoding of the two numbers,
    its parser, the low-S rule and the padding to 64 bytes fit together, and
    verification of such a signature does not panic. *)
Theorem SignHashDER_verifies privKey kp hash der :
  pair_of privKey kp -> SignHashDER kp hash = Ok der -> VerifyDER (kp_PublicKey kp) hash der = Return (Ok tt).
Proof.
  intros (d & Hd & Hpk)%pair_of_inv. unfold SignHashDER. destruct (bool_decide (length hash = 32%nat)) eqn:Hh; cbn; [|done].
  unfold sign_digest. rewrite Hd. cbn. destruct (crypto_Sign hash d) as [sig|e] eqn:Hsig; cbn; [|done]. intros [= <-].
  destruct (law_sign _ _ _ Hsig) as (Hl & Hb & Hr & Hs & Hv). pose proof law_N as HN.
  assert (Z.shiftr curve_N 1 < 2 ^ 256) as Hhalf.
  { rewrite Z.shiftr_div_pow2 by lia. apply Z.div_lt_upper_bound; lia. }
  assert (length (take 32 sig) = 32%nat) as Lr by (rewrite length_take; lia).
  assert (length (take 32 (drop 32 sig)) = 32%nat) as Ls by (rewrite length_take, length_drop; lia).
  assert (Forall is_byte (take 32 sig)) as Br by (by apply Forall_take).
  assert (Forall is_byte (take 32 (drop 32 sig))) as Bs by (by apply Forall_take, Forall_drop).
  pose proof (SetBytes_bound _ Br) as Hrb. rewrite Lr in Hrb.
  unfold VerifyDER. rewrite Hh, Hpk, law_compress. cbn [negb].
  rewrite ecdsaSignature_roundtrip by (cbn in *; lia). cbn [es_R es_S].
  rewrite bool_decide_eq_true_2 by done. cbn [negb].
  rewrite !(proj2 (Z.leb_gt _ _)), (proj2 (Z.ltb_ge _ _)) by lia. cbn [orb].
  unfold pad_copy. rewrite !bool_decide_eq_true_2 by (apply length_big_Bytes; cbn in *; lia).
  rewrite !fill_SetBytes by done.
  replace (take 32 sig ++ take 32 (drop 32 sig)) with (take 64 sig); [by rewrite Hv|].
  change 64%nat with (32 + 32)%nat. by rewrite take_take_drop.
Qed.

(** Acceptance is sound: VerifyDER returns nil only for a 32-byte digest, a
    key that decompresses, and numbers 0 < R < 2^256 and 0 < S <= N/2 whose
    64-byte form the curve verifies under that key and digest. *)
Theorem VerifyDER_sound pk hash der :
  VerifyDER pk hash der = Return (Ok tt) ->
  length hash = 32%nat /\ exists p sig, DecompressPubkey pk = Ok p /\ unmarshal_ecdsaSignature der = Some (sig, []) /\
    0 < es_R sig < 2 ^ 256 /\ 0 < es_S sig <= Z.shiftr curve_N 1 /\
    VerifySignature (elliptic_Marshal p.1 p.2) hash (fill_bytes 32 (es_R sig) ++ fill_bytes 32 (es_S sig)) = true.
Proof.
  unfold VerifyDER. case_bool_decide as Hh; cbn [negb]; [|done].
  destruct (DecompressPubkey pk) as [p|e]; [|done].
  destruct (unmarshal_ecdsaSignature der) as [[sig rest]|]; [|done].
  case_bool_decide as Hrest; cbn [negb]; [|done]. subst rest.
  destruct (Z.leb_spec (es_R sig) 0); [done|]. destruct (Z.leb_spec (es_S sig) 0); [done|]. cbn [orb].
  destruct (Z.ltb_spec (Z.shiftr curve_N 1) (es_S sig)); [done|]. unfold pad_copy.
  case_bool_decide as Hr; [|done]. case_bool_decide as Hs; [|done]. case_match eqn:Hv; [|done]. intros _.
  apply length_big_Bytes in Hr; [|lia]. change (256 ^ Z.of_nat 32) with (2 ^ 256) in Hr.
  split; [done|]. exists p, sig. repeat split; try done.
Qed.

(** R is bounded below but not above, so VerifyDER panics on a well-formed
    signature whose R takes more than 32 bytes (and up to 58, the longest that
    a short-form sequence holds), whatever the key and the digest. *)
Theorem VerifyDER_panics pk p hash r s :
  DecompressPubkey pk = Ok p -> length hash = 32%nat ->
  2 ^ 256 <= r < 256 ^ 58 -> 0 < s <= Z.shiftr curve_N 1 ->
  VerifyDER pk hash (marshal_ecdsaSignature (mkEcdsaSignature r s)) = Panic.
Proof.
  intros Hp Hh Hr Hs. pose proof law_N as HN.
  assert (Z.shiftr curve_N 1 < 2 ^ 256) as Hhalf.
  { rewrite Z.shiftr_div_pow2 by lia. apply Z.div_lt_upper_bound; lia. }
  assert (2 ^ 256 < 256 ^ 58) by done.
  unfold VerifyDER. rewrite bool_decide_eq_true_2, Hp by done. cbn [negb].
  rewrite ecdsaSignature_roundtrip by lia. cbn [es_R es_S]. rewrite bool_decide_eq_true_2 by done. cbn [negb].
  rewrite !(proj2 (Z.leb_gt _ _)), (proj2 (Z.ltb_ge _ _)) by lia. cbn [orb].
  unfold pad_copy. rewrite bool_decide_eq_false_2; [done|].
  intros Hl%length_big_Bytes; [|lia]. change (256 ^ Z.of_nat 32) with (2 ^ 256) in Hl. lia.
Qed.
End signatures.

(** ** Encryption at rest *)

Section at_rest.
Context `{!AesGcm} `{!AesGcmLaws}.

Lemma decrypt_encrypt nonce privateKey masterKey encrypted :
  length nonce = NonceSize -> Forall is_byte nonce -> Forall is_byte privateKey ->
  encryptPrivateKey (Ok nonce) privateKey masterKey = Ok encrypted ->
  decryptPrivateKey encrypted masterKey = Ok privateKey.
Proof.
  intros Hn Hb Hp. unfold encryptPrivateKey, decryptPrivateKey.
  case_bool_decide as Hm; cbn; [|done]. case_bool_decide as Hk; cbn; [|done]. intros [= <-].
  rewrite Std_roundtrip by (apply Forall_app; split; [done|apply law_seal_bytes]).
  rewrite bool_decide_eq_false_2 by (rewrite length_app; lia).
  rewrite <- Hn. rewrite take_app_length, drop_app_length. rewrite law_open_seal by done. cbn.
  by rewrite bool_decide_eq_true_2.
Qed.

(** A private key that was encrypted under a master key decrypts to itself
    under that master key. *)
Theorem encrypt_decrypt_roundtrip nonce privateKey masterKey encrypted :
  length nonce = NonceSize -> Forall is_byte nonce -> Forall is_byte privateKey ->
  encryptPrivateKey (Ok nonce) privateKey masterKey = Ok encrypted ->
  decryptPrivateKey encrypted masterKey = Ok privateKey.
Proof. apply decrypt_encrypt. Qed.
End at_rest.

(** ** Witnesses: a curve with one signature and a cipher that leaves bytes as they are *)

Definition one_one : list Z := fill_bytes 32 1 ++ fill_bytes 32 1.

Definition example_curve : Curve := {|
  ToECDSA b := Ok (SetBytes b);
  FromECDSA := fill_bytes 32;
  PublicPoint d := (d, 1);
  CompressPoint p := [p.1; p.2];
  DecompressPubkey b := match b with [x; y] => Ok (x, y) | _ => Err (ErrNew "invalid public key") end;
  crypto_Sign h d := Ok (one_one ++ [0]);
  VerifySignature k h s := bool_decide (s = one_one);
  RecoverPoint h s := Ok (1, 1);
  PointToAddress p := [p.1];
  curve_N := 100;
  hkdf_read seed info n := Ok (take (Z.to_nat n) seed);
|}.

Lemma example_curve_laws : @CurveLaws example_curve.
Proof.
  split; [done|done| |].
  { intros d Hd. cbn in Hd. assert (d < 256 ^ Z.of_nat 32) as Hlt by (change (256 ^ Z.of_nat 32) with (2 ^ 256); lia).
    assert (length (big_Bytes d) <= 32)%nat as Hl by (apply length_big_Bytes; lia). cbn. unfold fill_bytes.
    rewrite SetBytes_zeros, SetBytes_big_Bytes by lia. split; [done|]. rewrite length_app, length_replicate.
    split; [lia|]. apply Forall_app. split; [apply Forall_replicate; lia|]. apply big_Bytes_facts. lia. }
  intros h d sig [= <-]. split_and!; try (vm_compute; done).
  apply (Forall_impl (fun b => b = 0 \/ b = 1)); [|intros b [-> | ->]; lia].
  vm_compute. repeat (constructor; [by auto|]). constructor.
Qed.

Definition example_gcm : AesGcm := {|
  NonceSize := 12;
  gcm_Seal k n t := (fun b => b mod 256) <$> t;
  gcm_Open k n c := Ok c;
|}.

Lemma example_gcm_laws : @AesGcmLaws example_gcm.
Proof.
  split; [done| |].
  - intros k n t _ _ Ht. cbn. f_equal. induction Ht as [|b t Hb _ IH]; [done|]. cbn. by rewrite Z.mod_small, IH.
  - intros k n t. cbn. apply Forall_fmap. induction t as [|b t IH]; [done|]. constructor; [|done]. cbn.
    apply Z.mod_pos_bound. lia.
Qed.

Definition ex_pair : CantonKeyPair := mkCantonKeyPair [7; 1] (fill_bytes 32 7).
Definition ex_hash : list Z := replicate 32 9.

Lemma SignHashDER_verifies_witness :
  exists der, @SignHashDER example_curve ex_pair ex_hash = Ok der /\
    @VerifyDER example_curve (kp_PublicKey ex_pair) ex_hash der = Return (Ok tt).
Proof.
  eexists. split; [reflexivity|].
  refine (@SignHashDER_verifies example_curve example_curve_laws (fill_bytes 32 7) ex_pair ex_hash _ _ _); vm_compute; reflexivity.
Defined.

Lemma VerifyDER_sound_witness :
  exists sig, unmarshal_ecdsaSignature (marshal_ecdsaSignature (mkEcdsaSignature 1 1)) = Some (sig, []).
Proof.
  destruct (@VerifyDER_sound example_curve [7; 1] ex_hash (marshal_ecdsaSignature (mkEcdsaSignature 1 1)))
    as (_ & p & sig & _ & Hsig & _); [vm_compute; reflexivity|eauto].
Defined.

Lemma VerifyDER_panics_witness :
  @VerifyDER example_curve [7; 1] ex_hash (marshal_ecdsaSignature (mkEcdsaSignature (2 ^ 256) 1)) = Panic.
Proof.
  apply (@VerifyDER_panics example_curve example_curve_laws [7; 1] (7, 1)); try reflexivity; vm_compute; split; congruence.
Defined.

Lemma encrypt_decrypt_roundtrip_witness :
  exists encrypted, @encryptPrivateKey example_gcm (Ok (replicate 12 5)) (replicate 32 6) (replicate 32 7) = Ok encrypted /\
    @decryptPrivateKey example_gcm encrypted (replicate 32 7) = Ok (replicate 32 6).
Proof.
  eexists. split; [reflexivity|].
  refine (@encrypt_decrypt_roundtrip example_gcm example_gcm_laws (replicate 12 5) _ _ _ _ _ _ _);
    [reflexivity|apply Forall_replicate; lia|apply Forall_replicate; lia|reflexivity].
Defined.

(** ** The cipher: the keys at rest across processes

    The master key, its text in the environment, and the KeyCipher interface
    with its implementation MasterKeyCipher, which the registration service
    encrypts with and the resolver of signing keys decrypts with. *)

(** KeyCipher, with the bytes an encryption draws as an argument. *)
Class KeyCipher := {
  Encrypt : result (list Z) -> list Z -> result string;
  Decrypt : string -> result (list Z);
}.

(** A cipher gives back what it took, when the nonce is one of the cipher's. *)
Class KeyCipherLaws `{!KeyCipher} (nonce_ok : list Z -> Prop) :=
  decrypt_inverts : forall nonce key encrypted, nonce_ok nonce -> Forall is_byte key ->
    Encrypt (Ok nonce) key = Ok encrypted -> Decrypt encrypted = Ok key.

Section cipher.
Context `{!AesGcm}.

(** NewMasterKeyCipher *)
Definition MasterKeyCipher (masterKey : list Z) : KeyCipher := {|
  Encrypt drawn key := encryptPrivateKey drawn key masterKey;
  Decrypt encrypted := decryptPrivateKey encrypted masterKey;
|}.

(** [drawn] is what rand.Reader gives for 32 bytes. *)
Definition GenerateMasterKey (drawn : result (list Z)) : result (list Z) := wrap "failed to generate master key: " drawn.

Definition gcm_nonce (nonce : list Z) : Prop := length nonce = NonceSize /\ Forall is_byte nonce.

Lemma MasterKeyCipher_laws `{!AesGcmLaws} masterKey : @KeyCipherLaws (MasterKeyCipher masterKey) gcm_nonce.
Proof. intros nonce key encrypted [Hn Hb] Hk He. by eapply decrypt_encrypt. Qed.

Lemma master_key_text key : length key = 32%nat -> Forall is_byte key -> MasterKeyFromBase64 (MasterKeyToBase64 key) = Ok key.
Proof. intros Hl Hb. unfold MasterKeyFromBase64, MasterKeyToBase64. rewrite Std_roundtrip by done. by rewrite bool_decide_eq_true_2. Qed.

(** A key that one process encrypted is the key that a later one decrypts:
    the master key was drawn once, and each process builds its cipher from the
    text of the master key in its environment. *)
Theorem keys_survive_restart `{!AesGcmLaws} drawn masterKey nonce key encrypted :
  length drawn = 32%nat -> Forall is_byte drawn -> GenerateMasterKey (Ok drawn) = Ok masterKey ->
  gcm_nonce nonce -> length key = 32%nat -> Forall is_byte key ->
  let env := MasterKeyToBase64 masterKey in
  (first ← MasterKeyFromBase64 env; @Encrypt (MasterKeyCipher first) (Ok nonce) key) = Ok encrypted ->
  (second ← MasterKeyFromBase64 env; @Decrypt (MasterKeyCipher second) encrypted) = Ok key.
Proof.
  intros Hd Hb [= <-] Hn Hk Hkb. cbv zeta. rewrite master_key_text by done. cbn [mbind result_bind].
  intros He. eapply (MasterKeyCipher_laws drawn); done.
Qed.

(** Encryption never refuses a key pair's private key under a master key of
    the environment. *)
Theorem cipher_accepts masterKey env nonce key : MasterKeyFromBase64 env = Ok masterKey -> length key = 32%nat ->
  is_ok (@Encrypt (MasterKeyCipher masterKey) (Ok nonce) key) = true.
Proof.
  unfold MasterKeyFromBase64. destruct (Std_Decode env) as [k|]; [|done]. case_bool_decide as Hl; [|done]. intros [= <-] Hk.
  cbn. unfold encryptPrivateKey. by rewrite !bool_decide_eq_true_2.
Qed.
End cipher.

(** PublicKeyBase64 *)
Definition PublicKeyBase64 (kp : CantonKeyPair) : string := Std_Encode (kp_PublicKey kp).

(** ** Witnesses *)

Lemma keys_survive_restart_witness :
  exists encrypted,
    (first ← MasterKeyFromBase64 (MasterKeyToBase64 (replicate 32 7));
     @Encrypt (@MasterKeyCipher example_gcm first) (Ok (replicate 12 5)) (replicate 32 6)) = Ok encrypted /\
    (second ← MasterKeyFromBase64 (MasterKeyToBase64 (replicate 32 7)); @Decrypt (@MasterKeyCipher example_gcm second) encrypted) = Ok (replicate 32 6).
Proof.
  eexists. split; [vm_compute; reflexivity|].
  apply (@keys_survive_restart example_gcm example_gcm_laws (replicate 32 7) (replicate 32 7) (replicate 12 5) (replicate 32 6));
    [reflexivity|apply Forall_replicate; lia|reflexivity|split; [reflexivity|apply Forall_replicate; lia]|reflexivity
    |apply Forall_replicate; lia|vm_compute; reflexivity].
Defined.

Lemma cipher_accepts_witness : is_ok (@Encrypt (@MasterKeyCipher example_gcm (replicate 32 7)) (Ok (replicate 12 5)) (replicate 32 6)) = true.
Proof. apply (@cipher_accepts example_gcm (replicate 32 7) (MasterKeyToBase64 (replicate 32 7))); [vm_compute; reflexivity|reflexivity]. Defined.
