(* ===== verification/TokenCodec.v ===== *)
(** * Token messages: pkg/cantonsdk/token types.go, decimal.go, decode.go, encode.go

    The data of the CIP-56 token client: requests with their validation,
    holdings and events decoded from created contracts, the arithmetic on
    decimal texts, and the Daml values of the choices the client exercises.
    A [json.RawMessage] is [None] when it is empty and the document otherwise. *)

From S2P Require Import Prelude AppErrors Effects GoStd GoText Decimal DamlValues Streaming LedgerApi.
From Stdlib Require Import Ascii String.
Local Open Scope Z_scope.
Local Abbreviation length := Datatypes.length.

Abbreviation RawMessage := (option json).

(** ** types.go *)

Record Holding := mkHolding {
  h_ContractID : string;
  h_Issuer : string;
  h_Owner : string;
  h_Amount : string;
  h_Symbol : string;
  h_InstrumentAdmin : string;
  h_InstrumentID : string;
  h_Locked : bool;
  h_Metadata : gmap string string;
}.

Record MintRequest := mkMintRequest {
  mr_RecipientParty : string;
  mr_Amount : string;
  mr_TokenSymbol : string;
  mr_ConfigCID : string;
  mr_EventMeta : gmap string string;
}.

(** [if s == "" { return fmt.Errorf("... is required") }] *)
Definition required (s msg : string) : result unit := if bool_decide (s = ""%string) then Err (ErrNew msg) else Ok tt.

(** The checks in order, the first failure wins. *)
Fixpoint checks (l : list (result unit)) : result unit :=
  match l with
  | [] => Ok tt
  | Ok _ :: l => checks l
  | Err e :: _ => Err e
  end.

Definition MintRequest_validate (m : MintRequest) : result unit :=
  checks [required (mr_RecipientParty m) "recipient_party is required";
          required (mr_Amount m) "amount is required";
          required (mr_TokenSymbol m) "token_symbol is required"].

Record BurnRequest := mkBurnRequest {
  br_HoldingCID : string;
  br_Amount : string;
  br_TokenSymbol : string;
  br_EventMeta : gmap string string;
}.

Definition BurnRequest_validate (b : BurnRequest) : result unit :=
  checks [required (br_HoldingCID b) "holding_cid is required";
          required (br_Amount b) "amount is required";
          required (br_TokenSymbol b) "token_symbol is required"].

Record TokenTransferEvent := mkTokenTransferEvent {
  te_ContractID : string;
  te_Issuer : string;
  te_FromParty : string;
  te_ToParty : string;
  te_Amount : string;
  te_InstrumentAdmin : string;
  te_InstrumentID : string;
  te_Timestamp : Z;
  te_Meta : option (gmap string string);
  te_AuditObservers : list string;
}.

Definition EventTypeMint : string := "MINT".
Definition EventTypeBurn : string := "BURN".
Definition EventTypeTransfer : string := "TRANSFER".

Definition EventType (e : TokenTransferEvent) : string :=
  if bool_decide (te_FromParty e = ""%string) then EventTypeMint
  else if bool_decide (te_ToParty e = ""%string) then EventTypeBurn
  else EventTypeTransfer.

(** [if e.Meta == nil { return "" }; return e.Meta[key]] *)
Definition meta_text (e : TokenTransferEvent) (key : string) : string :=
  match te_Meta e with
  | None => ""
  | Some m => default ""%string (m !! key)
  end.
Definition EvmTxHash (e : TokenTransferEvent) : string := meta_text e "bridge.externalTxId".
Definition EvmDestination (e : TokenTransferEvent) : string := meta_text e "bridge.externalAddress".
Definition UserFingerprint (e : TokenTransferEvent) : string := meta_text e "bridge.fingerprint".

Record PrepareTransferRequest := mkPrepareTransferRequest {
  pt_FromPartyID : string;
  pt_ToPartyID : string;
  pt_Amount : string;
  pt_TokenSymbol : string;
  pt_Validity : Z;
}.

(** The checks that every transfer makes on its arguments. *)
Definition validate_transfer (from to amount symbol : string) (validity : Z) : result unit :=
  checks [(if bool_decide (from = ""%string) || bool_decide (to = ""%string)
           then Err (ErrNew "from/to party is required") else Ok tt);
          required amount "amount is required";
          required symbol "token symbol is required";
          (if validity <=? 0 then Err (ErrNew "transfer validity must be positive") else Ok tt)].

Definition PrepareTransferRequest_validate (r : PrepareTransferRequest) : result unit :=
  validate_transfer (pt_FromPartyID r) (pt_ToPartyID r) (pt_Amount r) (pt_TokenSymbol r) (pt_Validity r).

Record PreparedTransfer := mkPreparedTransfer {
  p_TransferID : string;
  p_TransactionHash : list Z;
  p_PreparedTransaction : list Z;
  p_HashingSchemeVersion : Z;
  p_PartyID : string;
  p_ExpiresAt : Z;
}.

Record ExecuteTransferRequest := mkExecuteTransferRequest {
  er_PreparedTransfer : option PreparedTransfer;
  er_Signature : list Z;
  er_SignedBy : string;
}.

Definition ExecuteTransferRequest_validate (r : ExecuteTransferRequest) : result unit :=
  checks [(match er_PreparedTransfer r with None => Err (ErrNew "prepared transfer is required") | Some _ => Ok tt end);
          (if bool_decide (er_Signature r = []) then Err (ErrNew "signature is required") else Ok tt);
          required (er_SignedBy r) "signed by is required"].

Record TransferFactoryInfo := mkTransferFactoryInfo {
  tf_ContractID : string;
  tf_CreatedEventBlob : list Z;
  tf_TemplateID : Identifier;
}.

Record AnyValue := mkAnyValue { av_Tag : string; av_Value : RawMessage }.
Abbreviation AcceptChoiceContext := (gmap string AnyValue).

(** ** decimal.go *)

Section decimals.
Context `{!DecimalLib}.

Definition decimal_error : error := ErrNew "can't convert to decimal".
Definition parse_decimal (s : string) : result dec :=
  match NewFromString s with Some d => Ok d | None => Err (ErrWrap "parse decimal: " decimal_error "") end.

Definition addDecimalStrings (a b : string) : result string :=
  match parse_decimal a with
  | Err e => Err e
  | Ok da => match parse_decimal b with
             | Err e => Err e
             | Ok db => Ok (dec_String (dec_Add da db))
             end
  end.

Definition compareDecimalStrings (a b : string) : result Z :=
  match parse_decimal a with
  | Err e => Err e
  | Ok da => match parse_decimal b with
             | Err e => Err e
             | Ok db => Ok (dec_Cmp da db)
             end
  end.
End decimals.

(** ** decode.go *)

Definition decodeHolding (ce : CreatedEvent) : Holding :=
  let fields := RecordToMap (ce_CreateArguments ce) in
  let '(admin, id, issuer, symbol, meta) :=
    match field fields "instrumentId" with
    | Some _ =>
        let '(admin, id) := DecodeInstrumentId (field fields "instrumentId") in
        let meta := DecodeMetadata (field fields "meta") in
        (admin, id, Party (field fields "issuer"), default ""%string (meta !! MetaKeySymbol), meta)
    | None =>
        match field fields "instrument" with
        | Some _ =>
            let id := NestedTextField (field fields "instrument") "id" in
            (NestedPartyField (field fields "instrument") "source", id, Party (field fields "registrar"), id, ∅)
        | None => (""%string, ""%string, ""%string, ""%string, ∅)
        end
    end in
  mkHolding (ce_ContractId ce) issuer (Party (field fields "owner")) (Numeric (field fields "amount")) symbol
    admin id (negb (IsNone (field fields "lock"))) meta.

Definition decodeTokenTransferEvent (ce : CreatedEvent) : TokenTransferEvent :=
  let fields := RecordToMap (ce_CreateArguments ce) in
  let '(admin, id) := DecodeInstrumentId (field fields "instrumentId") in
  mkTokenTransferEvent (ce_ContractId ce) (Party (field fields "issuer"))
    (OptionalParty (field fields "fromParty")) (OptionalParty (field fields "toParty"))
    (Numeric (field fields "amount")) admin id (Timestamp (field fields "timestamp"))
    (DecodeOptionalMetadata (field fields "meta")) (PartyList (field fields "auditObservers")).

(** ** encoding/json *)

Definition json_error : error := ErrNew "json: cannot unmarshal".

(** The member of an object that Go assigns to the field [name]: the last one
    whose key is the name up to case. *)
Definition member (name : string) (l : list (string * json)) : RawMessage :=
  (snd <$> List.find (fun kv => EqualFold kv.1 name) (rev l)).

(** json.Unmarshal into a string, a bool and a json.Number. *)
Definition unmarshal_string (raw : RawMessage) : result string :=
  match raw with
  | Some (JString s) => Ok s
  | Some JNull => Ok ""%string
  | _ => Err json_error
  end.
Definition unmarshal_bool (raw : RawMessage) : result bool :=
  match raw with
  | Some (JBool b) => Ok b
  | Some JNull => Ok false
  | _ => Err json_error
  end.

(** The integer literals of JSON: no plus sign, no leading zeros. *)
Definition int_literal (s : string) : bool :=
  match TrimPrefix s "-" with
  | EmptyString => false
  | String "0" EmptyString => true
  | String c t => match digit_val c with
                  | Some d => negb (d =? 0) && (match get_digits t 0 with Some _ => true | None => false end)
                  | None => false
                  end
  end.
Definition unmarshal_Number (raw : RawMessage) : result string :=
  match raw with
  | Some (JNumber s) => Ok s
  | Some (JString s) => if int_literal s then Ok s else Err json_error
  | Some JNull => Ok ""%string
  | _ => Err json_error
  end.

(** A field of a struct: absent fields keep their zero value. *)
Definition string_field (l : list (string * json)) (name : string) : result string :=
  match member name l with None => Ok ""%string | raw => unmarshal_string raw end.

Definition unmarshal_AnyValue (j : json) : result AnyValue :=
  match j with
  | JObject l =>
      match string_field l "tag" with
      | Ok tag => Ok (mkAnyValue tag (member "value" l))
      | Err e => Err e
      end
  | JNull => Ok (mkAnyValue "" None)
  | _ => Err json_error
  end.

(** A slice whose elements are decoded one by one. *)
Fixpoint collect {A B} (f : A -> result B) (l : list A) : result (list B) :=
  match l with
  | [] => Ok []
  | x :: l =>
      match f x with
      | Err e => Err e
      | Ok y => match collect f l with Ok ys => Ok (y :: ys) | Err e => Err e end
      end
  end.

Definition unmarshal_slice {B} (f : json -> result B) (raw : RawMessage) : result (list B) :=
  match raw with
  | Some (JArray l) => collect f l
  | Some JNull => Ok []
  | _ => Err json_error
  end.

(** ** encode.go *)

Definition encodeIssuerMintArgs (now : Z) (req : MintRequest) : list (string * ValuePtr) :=
  [("recipient"%string, Some (PartyValue (mr_RecipientParty req)));
   ("amount"%string, Some (NumericValue (mr_Amount req)));
   ("eventTime"%string, Some (TimestampValue (UnixMicro now)));
   ("eventMeta"%string, Some (EncodeOptionalMetadata (mr_EventMeta req)))].

Definition encodeIssuerBurnArgs (now : Z) (req : BurnRequest) : list (string * ValuePtr) :=
  [("holdingCid"%string, Some (ContractIDValue (br_HoldingCID req)));
   ("amount"%string, Some (NumericValue (br_Amount req)));
   ("eventTime"%string, Some (TimestampValue (UnixMicro now)));
   ("eventMeta"%string, Some (EncodeOptionalMetadata (br_EventMeta req)))].

(** The tuple of an AV_Map entry. *)
Definition unmarshal_MapItem (j : json) : result (string * AnyValue) :=
  match j with
  | JObject l =>
      match string_field l "_1" with
      | Err e => Err e
      | Ok key =>
          match member "_2" l with
          | None => Ok (key, mkAnyValue "" None)
          | Some v => match unmarshal_AnyValue v with Ok av => Ok (key, av) | Err e => Err e end
          end
      end
  | JNull => Ok (""%string, mkAnyValue "" None)
  | _ => Err json_error
  end.

(** [return nil, fmt.Errorf("AV_X: %w", err)] around a scalar. *)
Definition scalar {A} (tag : string) (r : result A) (f : A -> Value) : result Value :=
  match r with Ok a => Ok (f a) | Err e => Err (ErrWrap (tag +:+ ": ") e "") end.

(** encodeAnyValue with encodeAnyValueList and encodeAnyValueMap; the fuel
    bounds the nesting of the document. *)
Fixpoint encodeAnyValue (fuel : nat) (av : AnyValue) : result Value :=
  match fuel with
  | O => Err (ErrNew "nesting too deep")
  | S fuel =>
      let tag := av_Tag av in
      let raw := av_Value av in
      let inner :=
        if bool_decide (tag = "AV_ContractId"%string) then scalar tag (unmarshal_string raw) ContractIDValue
        else if bool_decide (tag = "AV_Text"%string) then scalar tag (unmarshal_string raw) TextValue
        else if bool_decide (tag = "AV_Party"%string) then scalar tag (unmarshal_string raw) PartyValue
        else if bool_decide (tag = "AV_Bool"%string) then scalar tag (unmarshal_bool raw) Value_Bool
        else if bool_decide (tag = "AV_Int"%string) then
          scalar tag (match unmarshal_Number raw with Ok n => ParseInt n | Err e => Err e end) Int64Value
        else if bool_decide (tag = "AV_Decimal"%string) then scalar tag (unmarshal_string raw) NumericValue
        else if bool_decide (tag = "AV_List"%string) then
          match unmarshal_slice unmarshal_AnyValue raw with
          | Err e => Err (ErrWrap "AV_List: " e "")
          | Ok items =>
              match collect (encodeAnyValue fuel) items with
              | Ok elems => Ok (ListValue (Some <$> elems))
              | Err e => Err e
              end
          end
        else if bool_decide (tag = "AV_Map"%string) then
          match unmarshal_slice unmarshal_MapItem raw with
          | Err e => Err (ErrWrap "AV_Map: " e "")
          | Ok items =>
              match collect (fun it =>
                match encodeAnyValue fuel it.2 with
                | Ok v => Ok (Value_Record [("_1"%string, Some (TextValue it.1)); ("_2"%string, Some v)])
                | Err e => Err e
                end) items with
              | Ok elems => Ok (ListValue (Some <$> elems))
              | Err e => Err e
              end
          end
        else Err (ErrNew ("unsupported AnyValue tag " +:+ quoted tag)) in
      match inner with
      | Ok v => Ok (Value_Variant tag (Some v))
      | Err e => Err e
      end
  end.

(** The nesting of a document. *)
Fixpoint json_depth (j : json) : nat :=
  match j with
  | JArray l => S (foldr (fun x n => Nat.max (json_depth x) n) 0%nat l)
  | JObject l => S (foldr (fun kv n => Nat.max (json_depth kv.2) n) 0%nat l)
  | _ => 1
  end.
Definition raw_depth (raw : RawMessage) : nat := match raw with Some j => json_depth j | None => 0 end.

(** The encoding of a value, with fuel for its document. *)
Definition encode_any (av : AnyValue) : result Value := encodeAnyValue (S (raw_depth (av_Value av))) av.

Definition encodeChoiceContextRecord (ctx : AcceptChoiceContext) : result Value :=
  let keys := sort_strings (map_to_list ctx).*1 in
  match collect (fun k =>
    match encode_any (default (mkAnyValue "" None) (ctx !! k)) with
    | Ok v => Ok (k, Some v)
    | Err e => Err (ErrWrap ("encode key " +:+ quoted k +:+ ": ") e "")
    end) keys with
  | Ok entries => Ok (Value_Record [("values"%string, Some (Value_TextMap entries))])
  | Err e => Err e
  end.

Definition encodeTransferFactoryTransferArgs (expectedAdmin sender receiver amount instrumentAdmin instrumentID : string)
    (requestedAt executeBefore : Z) (inputHoldingCIDs : list string) (extraArgs : Value) : list (string * ValuePtr) :=
  let transfer := Value_Record
    [("sender"%string, Some (PartyValue sender));
     ("receiver"%string, Some (PartyValue receiver));
     ("amount"%string, Some (NumericValue amount));
     ("instrumentId"%string, Some (EncodeInstrumentId instrumentAdmin instrumentID));
     ("requestedAt"%string, Some (TimestampValue (UnixMicro requestedAt)));
     ("executeBefore"%string, Some (TimestampValue (UnixMicro executeBefore)));
     ("inputHoldingCids"%string, Some (ListValue ((fun cid => Some (ContractIDValue cid)) <$> inputHoldingCIDs)));
     ("meta"%string, Some EmptyMetadata)] in
  [("expectedAdmin"%string, Some (PartyValue expectedAdmin));
   ("transfer"%string, Some transfer);
   ("extraArgs"%string, Some extraArgs)].
