(* ===== verification/LedgerClient.v ===== *)
(** * The ledger client: pkg/cantonsdk/ledger

    client.go (queries of the ledger end and of active contracts, the token
    cache) and auth.go (the OAuth2 client-credentials provider with its own
    cache and refresh deadline).  The gRPC stubs are calls to the environment;
    the bearer token travels in call metadata, which the calls do not show. *)

From S2P Require Import Prelude AppErrors Effects GoStd GoText Decimal DamlValues Streaming LedgerApi TokenCodec.
From Stdlib Require Import Ascii String.
Local Open Scope Z_scope.
Local Abbreviation length := Datatypes.length.

(** ** Queries *)

Section queries.
Context `{!Env}.

Definition GetLedgerEnd : M history Z := wrapping "failed to get ledger end: " (rpc GetLedgerEndRPC).

(** The events of the messages that carry an active contract, unless the
    stream broke. *)
Definition collectActiveContracts (pre : string) (s : ContractStream) : result (list CreatedEvent) :=
  match st_error s with
  | Some e => Err (ErrWrap pre e "")
  | None => Ok (omap id (st_msgs s))
  end.

(** The filters of a query by party; a map, so a repeated party counts once. *)
Definition filtersByParty (parties : list string) (f : CumulativeFilter) : list (string * list CumulativeFilter) :=
  (fun p => (p, [f])) <$> remove_dups parties.

Definition query_contracts (activeAtOffset : Z) (parties : list string) (f : CumulativeFilter) (pre : string)
    : M history (list CreatedEvent) :=
  if activeAtOffset =? 0 then fail (ErrNew "ledger is empty, no contracts exist")
  else if bool_decide (parties = []) then fail (ErrNew "at least one party is required")
  else
    stream ← wrapping pre (rpc (GetActiveContracts (mkGetActiveContractsRequest activeAtOffset (filtersByParty parties f) true)));
    lift (collectActiveContracts "failed to receive active contract: " stream).

Definition GetActiveContractsByTemplate (activeAtOffset : Z) (parties : list string) (templateID : Identifier)
    : M history (list CreatedEvent) :=
  query_contracts activeAtOffset parties (TemplateFilter templateID false) "failed to get active contracts by template: ".

Definition GetActiveContractsByInterface (activeAtOffset : Z) (parties : list string) (interfaceID : Identifier)
    : M history (list CreatedEvent) :=
  query_contracts activeAtOffset parties (InterfaceFilter interfaceID false) "failed to get active contracts: ".

Lemma emits_GetLedgerEnd : emits read_only GetLedgerEnd.
Proof. apply emits_wrapping, emits_rpc. done. Qed.

Lemma emits_query_contracts o ps f pre : emits read_only (query_contracts o ps f pre).
Proof.
  unfold query_contracts. destruct (o =? 0); [apply emits_fail|]. case_bool_decide; [apply emits_fail|].
  apply emits_bind; [by apply emits_wrapping, emits_rpc|]. intros s. apply emits_lift.
Qed.

Lemma emits_ByTemplate o ps tid : emits read_only (GetActiveContractsByTemplate o ps tid).
Proof. apply emits_query_contracts. Qed.

Lemma emits_ByInterface o ps iid : emits read_only (GetActiveContractsByInterface o ps iid).
Proof. apply emits_query_contracts. Qed.
End queries.
#[export] Hint Resolve emits_GetLedgerEnd emits_query_contracts emits_ByTemplate emits_ByInterface : emits.

(** ** auth.go *)

Definition defaultExpiryLeeway : Z := 60 * Second.
Definition fallbackTokenTTL : Z := 5 * Minute.

Record AuthConfig := mkAuthConfig {
  au_ClientID : string;
  au_ClientSecret : string;
  au_Audience : string;
  au_TokenURL : string;
  au_ExpiryLeeway : Z;
}.

Definition AuthConfig_validate (cfg : AuthConfig) : result unit :=
  if bool_decide (au_ClientID cfg = ""%string) || bool_decide (au_ClientSecret cfg = ""%string) ||
     bool_decide (au_Audience cfg = ""%string) || bool_decide (au_TokenURL cfg = ""%string)
  then Err (ErrNew "no auth configured: OAuth2 client credentials are required") else Ok tt.

(** The leeway that NewOAuthClientCredentialsProvider settles on. *)
Definition provider_leeway (cfg : AuthConfig) : Z :=
  if au_ExpiryLeeway cfg =? 0 then defaultExpiryLeeway else au_ExpiryLeeway cfg.

(** time.Duration(n) * time.Second, at its width. *)
Definition seconds (n : Z) : Z := int64 (n * Second).

Definition computeRefreshBy (now expiresInSeconds leeway : Z) : Z :=
  if expiresInSeconds <=? 0 then now + fallbackTokenTTL
  else
    let exp := now + seconds expiresInSeconds in
    let refreshBy := exp + int64 (- leeway) in
    if refreshBy <? now then now + seconds (Z.quot expiresInSeconds 2) else refreshBy.

Definition marshalTokenRequest (cfg : AuthConfig) : json :=
  JObject [("audience"%string, JString (au_Audience cfg)); ("client_id"%string, JString (au_ClientID cfg));
           ("client_secret"%string, JString (au_ClientSecret cfg)); ("grant_type"%string, JString "client_credentials")].

(** An int field: a number that is an integer of 64 bits. *)
Definition int_field (l : list (string * json)) (name : string) : result Z :=
  match member name l with
  | None | Some JNull => Ok 0
  | Some (JNumber s) => match ParseInt s with Ok n => Ok n | Err _ => Err json_error end
  | _ => Err json_error
  end.

(** The access token and its lifetime in seconds. *)
Definition decodeTokenResponse (document : option json) : result (string * Z) :=
  let decoded :=
    match document with
    | Some (JObject l) =>
        token ← string_field l "access_token";
        expires ← int_field l "expires_in";
        _ ← string_field l "token_type";
        mret (token, expires)
    | Some JNull => Ok (""%string, 0)
    | _ => Err json_error
    end in
  tr ← wrap "decode token response: " decoded;
  if bool_decide (tr.1 = ""%string) then Err (ErrNew "token response missing access_token") else Ok tr.

Definition context_ended (e : error) : bool :=
  errors_Is e "context.Canceled" "context canceled" || errors_Is e "context.DeadlineExceeded" "context deadline exceeded".

(** A token and the time it is kept until. *)
Record Cached := mkCached { ca_token : string; ca_expiry : Z }.
Definition no_token : Cached := mkCached "" zero_time.

(** The caches of the client and of its provider, over the history. *)
Record AuthState := mkAuthState { as_history : history; as_client : Cached; as_provider : Cached }.
Definition set_history (h : history) (s : AuthState) : AuthState := mkAuthState h (as_client s) (as_provider s).
Definition set_client (c : Cached) (s : AuthState) : AuthState := mkAuthState (as_history s) c (as_provider s).
Definition set_provider (c : Cached) (s : AuthState) : AuthState := mkAuthState (as_history s) (as_client s) c.

Section auth.
Context `{!Env}.
Variable cfg : AuthConfig.

Definition fetchToken : M history (string * Z) :=
  o ← ask (HttpPost (au_TokenURL cfg) (marshalTokenRequest cfg));
  match o with
  | http_invalid e => fail (ErrWrap "create token request: " e "")
  | http_failed e => if context_ended e then fail e else fail (ErrWrap "call token endpoint: " e "")
  | http_response status body =>
      if bool_decide (status = 200) then
        tr ← lift (decodeTokenResponse (match body with Ok (_, j) => j | Err _ => None end));
        now ← ask Now;
        mret (tr.1, computeRefreshBy now tr.2 (provider_leeway cfg))
      else match body with
           | Err e => fail (ErrWrap ("token endpoint returned " +:+ FormatInt status +:+ " and body read failed: ") e "")
           | Ok (text, _) => fail (ErrNew ("token endpoint returned " +:+ FormatInt status +:+ ": " +:+ text))
           end
  end.

Definition with_history {A} (c : M history A) : M AuthState A := zoom as_history set_history c.

(** The provider's Token; the fetch runs outside its mutex. *)
Definition provider_Token : M AuthState (string * Z) :=
  _ ← lift (AuthConfig_validate cfg);
  s ← Effects.get;
  let cached := as_provider s in
  fresh ← (if bool_decide (ca_token cached = ""%string) then mret false
           else now ← with_history (ask Now); mret (now <? ca_expiry cached));
  if fresh : bool then mret (ca_token cached, ca_expiry cached)
  else
    r ← with_history fetchToken;
    _ ← modify (set_provider (mkCached r.1 r.2));
    mret r.

(** The client's loadToken, under its mutex. *)
Definition loadToken : M AuthState string :=
  now ← with_history (ask Now);
  s ← Effects.get;
  let cached := as_client s in
  if negb (bool_decide (ca_token cached = ""%string)) && (now <? ca_expiry cached) then mret (ca_token cached)
  else
    r ← provider_Token;
    _ ← modify (set_client (mkCached r.1 r.2));
    mret r.1.

Definition InvalidateToken : M AuthState unit := modify (set_client no_token).

(** The token that AuthContext attaches; none when it cannot be loaded. *)
Definition AuthContext : M AuthState (option string) :=
  r ← attempt loadToken;
  match r with
  | Err _ => mret None
  | Ok token => if bool_decide (token = ""%string) then mret None else mret (Some token)
  end.
End auth.

(** The refresh deadline.  For every lifetime of up to 2^63 ns that the
    token endpoint grants, and every leeway, the deadline is neither before
    the time of the response nor after the expiry less the leeway, unless the
    leeway exceeds the lifetime, when it is the middle of the lifetime. *)
Theorem computeRefreshBy_bounds now expiresIn leeway :
  0 < expiresIn <= max_int64 / Second -> 0 <= leeway <= max_int64 ->
  let t := computeRefreshBy now expiresIn leeway in
  now <= t <= now + expiresIn * Second /\
  (leeway <= expiresIn * Second -> t = now + expiresIn * Second - leeway) /\
  (expiresIn * Second < leeway -> t = now + expiresIn / 2 * Second).
Proof.
  intros He Hl. unfold computeRefreshBy, seconds.
  assert (max_int64 / Second = 9223372036) as E by done. rewrite E in He.
  assert (Second = 1000000000) as Es by done.
  assert (max_int64 = 9223372036854775807) as Em by done. rewrite Em in Hl.
  rewrite (proj2 (Z.leb_gt _ _)) by lia.
  assert (0 <= expiresIn / 2 <= expiresIn) as Hh by (split; [apply Z.div_pos; lia|apply Z.div_le_upper_bound; lia]).
  rewrite (int64_id (expiresIn * Second)) by (unfold is_int64, min_int64, max_int64; lia).
  rewrite (int64_id (- leeway)) by (unfold is_int64, min_int64, max_int64; lia).
  rewrite Z.quot_div_nonneg by lia.
  rewrite (int64_id (expiresIn / 2 * Second)) by (unfold is_int64, min_int64, max_int64; lia).
  destruct (Z.ltb_spec (now + expiresIn * Second + - leeway) now); cbv zeta; lia.
Qed.

Lemma computeRefreshBy_bounds_witness :
  computeRefreshBy 1000 3600 (60 * Second) = 1000 + 3600 * Second - 60 * Second.
Proof.
  destruct (computeRefreshBy_bounds 1000 3600 (60 * Second)) as (_ & H1 & _); [vm_compute; split; congruence..|].
  apply H1. vm_compute. congruence.
Defined.

(** ** The token caches *)

Section caches.
Context `{!Env}.
Variable cfg : AuthConfig.

(** The client's cache serves no token past its deadline: loadToken returns
    the cached token only when the clock is before the deadline kept with it,
    and otherwise what it returns is what the provider returned, which is then
    kept with the provider's deadline. *)
Theorem loadToken_serves_fresh s :
  let '(r, s') := loadToken cfg s in
  let now := respond Z (as_history s) Now in
  let asked := set_history (as_history s ++ [Exchange Now now]) s in
  (ca_token (as_client s) <> "" /\ now < ca_expiry (as_client s) /\ r = Ok (ca_token (as_client s)) /\ s' = asked) \/
  ((ca_token (as_client s) = "" \/ ca_expiry (as_client s) <= now) /\
   match provider_Token cfg asked with
   | (Ok (token, expiry), s1) => r = Ok token /\ s' = set_client (mkCached token expiry) s1
   | (Err e, s1) => r = Err e /\ s' = s1
   end).
Proof.
  unfold loadToken, with_history, ask, zoom, Effects.get, modify, mbind, M_bind, mret, M_ret. cbv zeta.
  set (now := respond Z (as_history s) Now). set (asked := set_history _ s). change (as_client asked) with (as_client s).
  case_bool_decide as Ht; cbn [negb andb].
  - destruct (provider_Token cfg asked) as [[[token expiry]|e] s1]; right; auto.
  - destruct (Z.ltb_spec now (ca_expiry (as_client s))); [left; done|].
    destruct (provider_Token cfg asked) as [[[token expiry]|e] s1]; right; auto.
Qed.

(** InvalidateToken clears the client's cache but not the provider's: while
    the provider's own deadline has not passed, the next loadToken gets the
    invalidated token back, with no request to the token endpoint. *)
Theorem InvalidateToken_refills s token expiry :
  AuthConfig_validate cfg = Ok tt -> token <> "" -> as_provider s = mkCached token expiry ->
  (forall h, respond Z h Now < expiry) ->
  let '(_, s1) := InvalidateToken s in
  exists s2, loadToken cfg s1 = (Ok token, s2) /\ as_client s2 = mkCached token expiry /\
    exists new, as_history s2 = as_history s ++ new /\
      Forall (fun x => match x_call x with HttpPost _ _ => False | _ => True end) new.
Proof.
  intros Hcfg Ht Hp Hnow. unfold InvalidateToken, modify. destruct s as [h c p]. cbn in Hp. subst p.
  unfold loadToken, provider_Token, with_history, ask, lift, zoom, Effects.get, modify, mbind, M_bind, mret, M_ret.
  cbn [as_history as_client as_provider set_history set_client no_token ca_token ca_expiry negb andb]. rewrite Hcfg.
  rewrite (bool_decide_eq_true_2 (""%string = ""%string)) by done. cbn [negb andb].
  cbn [as_history as_client as_provider set_history set_client ca_token ca_expiry].
  rewrite bool_decide_eq_false_2 by done. rewrite (proj2 (Z.ltb_lt _ _) (Hnow _)).
  eexists. split; [reflexivity|]. split; [done|].
  eexists. cbn [as_history set_history set_client]. rewrite <- app_assoc. split; [reflexivity|]. by repeat constructor.
Qed.
End caches.

Definition ex_auth : AuthConfig := mkAuthConfig "id" "secret" "aud" "https://auth/token" 0.

(** An environment whose clock stands at 100 and whose network is down. *)
Definition clock_env : Env := scripted (mkScript 100 0 (fun _ => []) (fun _ => Err (ErrNew "no key")) (fun _ => ([], ""%string))
  (fun _ => http_failed (ErrNew "unreachable"))).

Definition revoked : AuthState := mkAuthState [] (mkCached "tok" 500) (mkCached "tok" 500).

Lemma InvalidateToken_refills_witness :
  exists s2, @loadToken clock_env ex_auth (InvalidateToken revoked).2 = (Ok "tok"%string, s2) /\
    as_client s2 = mkCached "tok" 500.
Proof.
  destruct (@InvalidateToken_refills clock_env ex_auth revoked "tok" 500) as (s2 & Hl & Hc & _);
    [reflexivity|discriminate|reflexivity|intros h; cbn; lia|]. eauto.
Defined.
