(* ===== verification/StreamingClient.v ===== *)
(** * StreamingClient: the reconnecting ledger stream with its credentials

    pkg/cantonsdk/streaming: New and the party option, the request that opens a
    stream, runStream and Subscribe with the errors of gRPC and the client's
    token, over the reconnect loop of [Streaming]; and the constructors of
    builder.go. *)

From S2P Require Import Prelude AppErrors Effects GoStd GoText Decimal DamlValues Streaming LedgerApi TokenCodec LedgerClient.
From Stdlib Require Import Ascii String.
Local Open Scope Z_scope.
Local Abbreviation length := Datatypes.length.

(** ** Options and requests *)

(** New: the party of WithParty, if the option was given. *)
Definition streaming_New (party : option string) : result (option string) :=
  match party with
  | Some p => if bool_decide (p = ""%string) then Err (ErrNew "streaming: WithParty requires a non-empty party ID") else Ok party
  | None => Ok None
  end.

(** A cumulative filter names a template; an empty package matches all versions. *)
Abbreviation Filters := (list Identifier).
Definition buildTemplateFilters (templateIDs : list Identifier) : Filters :=
  (fun tid => mkIdentifier (PackageId tid) (ModuleName tid) (EntityName tid)) <$> templateIDs.

Record EventFormat := mkEventFormat { ef_FiltersForAnyParty : option Filters; ef_FiltersByParty : gmap string Filters; ef_Verbose : bool }.
Inductive TransactionShape := TRANSACTION_SHAPE_ACS_DELTA | TRANSACTION_SHAPE_LEDGER_EFFECTS.
Record GetUpdatesRequest := mkGetUpdatesRequest { gu_BeginExclusive : Z; gu_EventFormat : EventFormat; gu_TransactionShape : TransactionShape }.

Definition update_request (party : option string) (fromOffset : Z) (templateIDs : list Identifier) : GetUpdatesRequest :=
  let filters := buildTemplateFilters templateIDs in
  mkGetUpdatesRequest fromOffset
    (match party with
     | None => mkEventFormat (Some filters) ∅ true
     | Some p => mkEventFormat None {[p := filters]} true
     end) TRANSACTION_SHAPE_LEDGER_EFFECTS.

(** ** Errors of a stream *)

Inductive StreamError := GrpcStatus (code : Z) | EOF | OtherError (msg : string).
Definition codes_PermissionDenied : Z := 7.
Definition codes_Unauthenticated : Z := 16.

(** status.FromError also finds the status in a wrapped error. *)
Definition isAuthError (err : option StreamError) : bool :=
  match err with
  | Some (GrpcStatus code) => (code =? codes_Unauthenticated) || (code =? codes_PermissionDenied)
  | _ => false
  end.

Definition is_eof (err : StreamError) : bool := match err with EOF => true | _ => false end.

(** ** Subscribe *)

(** A connection: the error that opening it gives, if any, the number of
    responses it delivers, and the error it ends with. *)
Record Connection := mkConnection { cn_open : option StreamError; cn_take : nat; cn_end : StreamError }.
Definition cn_error (a : Connection) : StreamError := match cn_open a with Some e => e | None => cn_end a end.
Definition cn_delivered (a : Connection) : nat := match cn_open a with Some _ => 0%nat | None => cn_take a end.

(** What Subscribe did: the transactions it sent, the last offset, its waits,
    and its requests with the token each carried. *)
Record StreamLog := mkStreamLog {
  sl_out : list LedgerTransaction;
  sl_last : Z;
  sl_waits : list Z;
  sl_requests : list (option string * GetUpdatesRequest);
}.

Section client.
Context `{!Env}.
Variable cfg : AuthConfig.
Variable party : option string.
Variable templateIDs : list Identifier.
(** The server's updates after an offset. *)
Variable updates : Z -> list Response.

Definition invalidate_on_auth (err : StreamError) : M AuthState unit :=
  if isAuthError (Some err) then InvalidateToken else mret tt.

(** runStream: the token, the request, the responses, and the token's end when
    the error is one of authentication. *)
Definition run_stream (fromOffset lastOffset : Z) (a : Connection) :
    M AuthState (option string * GetUpdatesRequest * list LedgerTransaction * Z * StreamError) :=
  token ← AuthContext cfg;
  let '(out, last) := runStream lastOffset (take (cn_delivered a) (updates fromOffset)) in
  _ ← invalidate_on_auth (cn_error a);
  mret (token, update_request party fromOffset templateIDs, out, last, cn_error a).

(** The goroutine of Subscribe over the connections it makes until ctx is
    canceled. *)
Fixpoint subscribe (fromOffset lastOffset delay : Z) (conns : list Connection) : M AuthState StreamLog :=
  match conns with
  | [] => mret (mkStreamLog [] lastOffset [] [])
  | a :: conns =>
      '(token, req, out, last, err) ← run_stream fromOffset lastOffset a;
      if is_eof err then mret (mkStreamLog out last [] [(token, req)])
      else
        _ ← invalidate_on_auth err;
        let delay := if isAuthError (Some err) then reconnectBaseDelay else delay in
        log ← subscribe last last (Z.min (delay * 2) reconnectMaxDelay) conns;
        mret (mkStreamLog (out ++ sl_out log) (sl_last log) (delay :: sl_waits log) ((token, req) :: sl_requests log))
  end.

(** ** Theorems *)

(** The connections up to the one that ends the stream, as [Subscribe] of
    [Streaming] takes them. *)
Definition plain_end (err : StreamError) : StreamEnd :=
  if is_eof err then EndOfStream else Dropped (isAuthError (Some err)).
Fixpoint plain_connections (conns : list Connection) : list (nat * StreamEnd) :=
  match conns with
  | [] => []
  | a :: conns => (cn_delivered a, plain_end (cn_error a)) :: (if is_eof (cn_error a) then [] else plain_connections conns)
  end.

Lemma AuthContext_ok s : exists token s', AuthContext cfg s = (Ok token, s').
Proof.
  unfold AuthContext, attempt, mbind, M_bind. destruct (loadToken cfg s) as [[token|e] s']; [|by eexists _, _].
  case_bool_decide; by eexists _, _.
Qed.

Lemma invalidate_ok err s : invalidate_on_auth err s =
  (Ok tt, if isAuthError (Some err) then set_client no_token s else s).
Proof. unfold invalidate_on_auth. by destruct (isAuthError (Some err)). Qed.

(** With its credentials the stream delivers what the plain reconnect loop
    delivers: the same transactions and offset, the same waits, and a request
    for each connection up to the one that ends the stream. *)
Theorem subscribe_refines conns from last delay s :
  let '(r, _) := subscribe from last delay conns s in
  let '(out, last', waits) := Subscribe updates from last delay (plain_connections conns) in
  exists log, r = Ok log /\ sl_out log = out /\ sl_last log = last' /\ sl_waits log = waits /\
    length (sl_requests log) = length (plain_connections conns).
Proof.
  revert from last delay s. induction conns as [|a conns IH]; intros from last delay s; cbn [subscribe plain_connections Subscribe]; unfold plain_end in *.
  { eexists. split; [reflexivity|]. cbn. split_and!; done. }
  unfold run_stream. unfold mbind, M_bind. destruct (AuthContext_ok s) as (token & s1 & ->).
  destruct (runStream last (take (cn_delivered a) (updates from))) as [out last1] eqn:Hrun. rewrite invalidate_ok. cbn [mret M_ret].
  destruct (is_eof (cn_error a)) eqn:Heof.
  { eexists. split; [reflexivity|]. done. }
  rewrite invalidate_ok. match goal with |- context [subscribe last1 last1 ?d conns ?s'] => specialize (IH last1 last1 d s'); set (run := subscribe last1 last1 d conns s') in * end.
  destruct run as [r s2]. destruct (Subscribe updates last1 last1 _ (plain_connections conns)) as [[out' last'] waits] eqn:Hsub.
  destruct IH as (log & -> & <- & <- & Hw & Hreq). eexists. split; [reflexivity|]. cbn. split_and!; try done; [by rewrite Hw|by rewrite Hreq].
Qed.

(** What a connection leaves of the credentials: after an error of
    authentication the client has no token, so that the next connection asks
    its provider again; after any other error the token it used is kept. *)
Theorem rejected_token_dropped from last a s :
  let '(r, s') := run_stream from last a s in
  let '(token, s1) := AuthContext cfg s in
  is_ok r = true /\
  (isAuthError (Some (cn_error a)) = true -> as_client s' = no_token /\ as_provider s' = as_provider s1) /\
  (isAuthError (Some (cn_error a)) = false -> s' = s1).
Proof.
  unfold run_stream, mbind, M_bind. destruct (AuthContext_ok s) as (token & s1 & ->).
  destruct (runStream last _) as [out last1]. rewrite invalidate_ok. cbn [mret M_ret].
  by destruct (isAuthError (Some (cn_error a))).
Qed.

(** The stream with its credentials is exactly-once: whatever connections it
    makes and however they fail, it delivers the ledger's transactions between
    the offset it started from and the last it recorded, in order, and asks
    each time for what follows the last it delivered. *)
Theorem stream_exactly_once ledger conns from delay s log s' :
  StronglySorted (fun a b => at_Offset a < at_Offset b) ledger ->
  (forall o, omap id (updates o) = filter (fun tx => o < at_Offset tx) ledger) ->
  subscribe from from delay conns s = (Ok log, s') ->
  from <= sl_last log /\ sl_out log = between ledger from (sl_last log).
Proof.
  intros Hsorted Hupd Hrun. pose proof (subscribe_refines conns from from delay s) as Href. rewrite Hrun in Href.
  destruct (Subscribe updates from from delay (plain_connections conns)) as [[out last] waits] eqn:Hsub.
  destruct Href as (log' & [= <-] & <- & <- & _). by eapply Subscribe_exactly_once.
Qed.
End client.

(** ** The request *)

(** A stream reads as one party exactly when New was given one, and asks for
    exactly the given templates; a party given as the empty text is refused. *)
Theorem stream_request party fromOffset templateIDs p :
  streaming_New party = Ok p ->
  let req := update_request p fromOffset templateIDs in
  gu_BeginExclusive req = fromOffset /\ gu_TransactionShape req = TRANSACTION_SHAPE_LEDGER_EFFECTS /\
  match p with
  | None => ef_FiltersForAnyParty (gu_EventFormat req) = Some templateIDs /\ ef_FiltersByParty (gu_EventFormat req) = ∅
  | Some q => q <> ""%string /\ ef_FiltersForAnyParty (gu_EventFormat req) = None /\ ef_FiltersByParty (gu_EventFormat req) = {[q := templateIDs]}
  end.
Proof.
  assert (Hf : buildTemplateFilters templateIDs = templateIDs).
  { unfold buildTemplateFilters. rewrite <- (list_fmap_id templateIDs) at 2. apply list_fmap_ext. intros _ [] _. done. }
  destruct party as [q|]; cbn; [case_bool_decide as Hq; [done|]|]; intros [= <-]; cbn; rewrite Hf; done.
Qed.

(** ** builder.go *)

Abbreviation FieldValue := ValuePtr.
Definition MakeTextField (s : string) : FieldValue := Some (Value_Text s).
Definition MakePartyField (s : string) : FieldValue := Some (Value_Party s).
Definition MakeNumericField (s : string) : FieldValue := Some (Value_Numeric s).
Definition MakeTimestampField (micros : Z) : FieldValue := Some (Value_Timestamp micros).
Definition MakeNoneField : FieldValue := Some (Value_Optional None).
Definition MakeSomePartyField (party : string) : FieldValue := Some (Value_Optional (Some (Value_Party party))).

(** The fields in the order in which the iteration over the map gave them. *)
Definition MakeRecordField (fields : list (string * FieldValue)) : FieldValue := Some (Value_Record fields).
Definition MakeSomeRecordField (fields : list (string * FieldValue)) : FieldValue := Some (Value_Optional (MakeRecordField fields)).
Definition MakeTextMapField (entries : list (string * string)) : FieldValue :=
  Some (Value_TextMap ((fun kv => (kv.1, Some (Value_Text kv.2))) <$> entries)).

Definition NewLedgerEvent (contractID packageID moduleName templateName : string) (isCreated : bool) (fields : gmap string FieldValue) : LedgerEvent :=
  mkLedgerEvent contractID (mkIdentifier packageID moduleName templateName) isCreated "" fields.

(** The labels of a record are the keys of a map: no label twice. *)
Lemma RecordToMap_lookup l name : NoDup l.*1 -> name <> ""%string -> RecordToMap l !! name = (list_to_map l : Fields) !! name.
Proof.
  intros Hnd Hn. unfold RecordToMap.
  assert (Hgen : forall l (m : Fields), NoDup l.*1 -> foldl (fun m f => if bool_decide (f.1 = ""%string) then m else <[f.1 := f.2]> m) m l !! name =
    match (list_to_map l : Fields) !! name with Some v => Some v | None => m !! name end).
  { clear l Hnd. induction l as [|[k v] l IH]; intros m Hnd; cbn; [by rewrite lookup_empty|].
    apply NoDup_cons in Hnd as [Hk Hnd]. rewrite IH by done. destruct (decide (k = name)) as [->|Hne].
    - rewrite lookup_insert_eq, bool_decide_eq_false_2 by done. rewrite not_elem_of_list_to_map_1 by done. apply lookup_insert_eq.
    - rewrite lookup_insert_ne by done. destruct ((list_to_map l : Fields) !! name); [done|].
      case_bool_decide; [done|]. by rewrite lookup_insert_ne. }
  rewrite Hgen by done. rewrite lookup_empty. by destruct (list_to_map l !! name).
Qed.

(** The accessors read back what the constructors made, whatever the order in
    which a map was iterated: the fields of an event, those of a record in it,
    and those of a record in a record. *)
Theorem builder_roundtrip (fields inner : gmap string FieldValue) order id pkg md tmpl created outer name v :
  order ≡ₚ map_to_list inner -> fields !! outer = Some (MakeRecordField order) -> inner !! name = Some v -> name <> ""%string ->
  let e := NewLedgerEvent id pkg md tmpl created fields in
  (forall s, v = MakeTextField s -> ev_NestedTextField e outer name = s) /\
  (forall s, v = MakePartyField s -> ev_NestedPartyField e outer name = s) /\
  (forall s, v = MakeNumericField s -> NestedNumericField e outer name = s) /\
  (forall t, v = MakeTimestampField t -> NestedTimestampField e outer name = t).
Proof.
  intros Hord Hout Hin Hn e.
  assert (Hf : field (RecordField (field (le_fields e) outer)) name = v).
  { unfold e, field at 2. cbn. rewrite Hout. cbn. unfold field. rewrite RecordToMap_lookup; [|rewrite Hord; apply NoDup_fst_map_to_list|done].
    rewrite (list_to_map_proper order (map_to_list inner)); [|rewrite Hord; apply NoDup_fst_map_to_list|done].
    by rewrite list_to_map_to_list, Hin. }
  unfold ev_NestedTextField, ev_NestedPartyField, NestedTextField, NestedPartyField, NestedNumericField, NestedTimestampField. rewrite Hf.
  repeat split; by intros s ->.
Qed.

(** ** Witnesses *)

Definition ex_connections : list Connection :=
  [mkConnection None 2 (OtherError "reset"); mkConnection (Some (GrpcStatus codes_Unauthenticated)) 9 EOF; mkConnection None 3 EOF; mkConnection None 9 EOF].

Lemma stream_exactly_once_witness :
  exists log s', @subscribe clock_env ex_auth None [] ex_updates 0 0 reconnectBaseDelay ex_connections revoked = (Ok log, s') /\
    sl_waits log = [5 * Second; 5 * Second] /\ (lt_Offset <$> sl_out log) = [1; 3; 7] /\
    (fst <$> sl_requests log) = [Some "tok"; Some "tok"; Some "tok"]%string /\
    0 <= sl_last log /\ sl_out log = between ex_ledger 0 (sl_last log).
Proof.
  eexists _, _. split; [vm_compute; reflexivity|]. do 3 (split; [reflexivity|]).
  refine (@stream_exactly_once clock_env ex_auth None [] ex_updates ex_ledger ex_connections 0 reconnectBaseDelay revoked _ _ _ _ _).
  - repeat constructor.
  - intros o. unfold ex_updates. cbn [omap list_omap id]. induction (filter _ ex_ledger) as [|x l IH]; [done|]. cbn. by f_equal.
  - vm_compute. reflexivity.
Defined.

Lemma stream_request_witness : streaming_New (Some "alice"%string) = Ok (Some "alice"%string) /\
  ef_FiltersByParty (gu_EventFormat (update_request (Some "alice"%string) 7 [no_identifier])) = {["alice"%string := [no_identifier]]}.
Proof.
  split; [reflexivity|]. apply (stream_request (Some "alice"%string) 7 [no_identifier] (Some "alice"%string)). reflexivity.
Defined.

Lemma builder_roundtrip_witness :
  let order := [("id"%string, MakeTextField "USDCx"); ("admin"%string, MakePartyField "reg")] in
  ev_NestedTextField (NewLedgerEvent "c" "" "m" "t" true {["instrument"%string := MakeRecordField order]}) "instrument" "id" = "USDCx"%string.
Proof.
  cbv zeta. eapply (builder_roundtrip {["instrument"%string := MakeRecordField _]}
    {["id"%string := MakeTextField "USDCx"; "admin"%string := MakePartyField "reg"]}
    [("id"%string, MakeTextField "USDCx"); ("admin"%string, MakePartyField "reg")]);
    [|reflexivity|reflexivity|discriminate|reflexivity].
  symmetry. rewrite map_to_list_insert by reflexivity. by rewrite map_to_list_singleton.
Defined.
