(* ===== verification/Identity.v ===== *)
(** * The identity client: pkg/cantonsdk/identity

    Party allocation, internal and external, the listing of parties and the
    fingerprint mappings that tie an EVM user to a Canton party. *)

From S2P Require Import Prelude AppErrors Effects GoStd GoText Decimal DamlValues Streaming LedgerApi TokenCodec LedgerClient.
From Stdlib Require Import Ascii String.
Local Open Scope Z_scope.
Local Abbreviation length := Datatypes.length.

Module Identity.

Record Config := mkConfig { DomainID : string; IssuerParty : string; UserID : string; PackageID : string }.

Definition Config_validate (c : Config) : result unit :=
  checks [required (DomainID c) "domain_id is required"; required (IssuerParty c) "issuer_party is required";
          required (UserID c) "user_id is required"; required (PackageID c) "package_id is required"].

Record Party := mkParty { PartyID : string; IsLocal : bool }.

Record FingerprintMapping := mkFingerprintMapping {
  fm_ContractID : string;
  fm_Issuer : string;
  fm_UserParty : string;
  fm_Fingerprint : string;
  fm_EvmAddress : string;
}.

Record ExternalPartyTopology := mkExternalPartyTopology {
  ep_TopologyTransactions : list (list Z);
  ep_MultiHash : list Z;
  ep_Fingerprint : string;
}.

Record CreateFingerprintMappingRequest := mkCreateFingerprintMappingRequest {
  cf_UserParty : string;
  cf_Fingerprint : string;
  cf_EvmAddress : string;
}.

Definition CreateFingerprintMappingRequest_validate (r : CreateFingerprintMappingRequest) : result unit :=
  checks [required (cf_UserParty r) "user_party ID is required"; required (cf_Fingerprint r) "fingerprint ID is required"].

(** encode.go; the label of a field of RecordValue is empty. *)
Definition RecordValue (fields : list Value) : Value := Value_Record ((fun v => (""%string, Some v)) <$> fields).

Definition encodeFingerprintMappingCreate (issuer userParty fingerprint evmAddress : string) : list (string * ValuePtr) :=
  let evmVal := if bool_decide (evmAddress = ""%string) then NoneValue
                else OptionalValue (RecordValue [TextValue evmAddress]) in
  [("issuer"%string, Some (PartyValue issuer)); ("userParty"%string, Some (PartyValue userParty));
   ("fingerprint"%string, Some (TextValue fingerprint)); ("evmAddress"%string, Some evmVal)].

Definition normalizeFingerprint (fingerprint : string) : string :=
  if HasPrefix fingerprint "0x" then fingerprint else "0x" +:+ fingerprint.

Definition fingerprintMappingFromCreateEvent (event : CreatedEvent) : FingerprintMapping :=
  let fields := RecordToMap (ce_CreateArguments event) in
  mkFingerprintMapping (ce_ContractId event) (DamlValues.Party (field fields "issuer"))
    (DamlValues.Party (field fields "userParty")) (normalizeFingerprint (Text (field fields "fingerprint")))
    (Text (field fields "evmAddress")).

Definition mapping_module : string := "Common.FingerprintAuth".
Definition mapping_entity : string := "FingerprintMapping".

Definition spki_key (spkiPublicKey : list Z) : SigningPublicKey :=
  mkSigningPublicKey "CRYPTO_KEY_FORMAT_DER_X509_SUBJECT_PUBLIC_KEY_INFO" spkiPublicKey "SIGNING_KEY_SPEC_EC_SECP256K1".

Definition der_signature (signature : list Z) (signedBy : string) : Signature :=
  mkSignature SIGNATURE_FORMAT_DER signature signedBy SIGNING_ALGORITHM_SPEC_EC_DSA_SHA_256.

Definition isAlreadyExistsError (e : error) : bool :=
  match status_FromError e with Some c => bool_decide (c = codes_AlreadyExists) | None => false end.

Section client.
Context `{!Env}.
Variable cfg : Config.

Definition AllocateParty (hint : string) : M history Party :=
  resp ← wrapping "error allocating party: " (rpc (AllocatePartyRPC hint (DomainID cfg)));
  match resp with
  | None => fail (ErrNew "allocate party returned nil party details")
  | Some d => mret (mkParty (pd_Party d) (pd_IsLocal d))
  end.

Definition GenerateExternalPartyTopology (hint : string) (spkiPublicKey : list Z) : M history ExternalPartyTopology :=
  resp ← wrapping "generate external party topology: " (rpc (GenerateTopologyRPC (DomainID cfg) hint (spki_key spkiPublicKey)));
  mret (mkExternalPartyTopology (tr_TopologyTransactions resp) (tr_MultiHash resp) (tr_PublicKeyFingerprint resp)).

Definition AllocateExternalPartyWithSignature (topology : ExternalPartyTopology) (derSignature : list Z) : M history Party :=
  partyId ← wrapping "allocate external party: " (rpc (AllocateExternalPartyRPC (DomainID cfg)
    (ep_TopologyTransactions topology) [der_signature derSignature (ep_Fingerprint topology)]));
  mret (mkParty partyId false).

Definition AllocateExternalParty (hint : string) (spkiPublicKey : list Z) (signDER : list Z -> result (list Z))
    : M history Party :=
  topoResp ← wrapping "generate external party topology: " (rpc (GenerateTopologyRPC (DomainID cfg) hint (spki_key spkiPublicKey)));
  derSig ← wrapping "sign topology multi-hash: " (lift (signDER (tr_MultiHash topoResp)));
  partyId ← wrapping "allocate external party: " (rpc (AllocateExternalPartyRPC (DomainID cfg)
    (tr_TopologyTransactions topoResp) [der_signature derSig (tr_PublicKeyFingerprint topoResp)]));
  mret (mkParty partyId false).

(** The pages from a token on; [None] when [fuel] pages were not enough. *)
Definition listKnownPartiesPageSize : Z := 1000.
Fixpoint list_parties (fuel : nat) (pageToken : string) (out : list Party) : M history (option (list Party)) :=
  match fuel with
  | O => mret None
  | S fuel =>
      resp ← wrapping "error listing parties: " (rpc (ListKnownPartiesRPC listKnownPartiesPageSize pageToken));
      let '(details, next) := resp in
      let out := out ++ ((fun p => mkParty (pd_Party p) (pd_IsLocal p)) <$> details) in
      if bool_decide (next = ""%string) then mret (Some out) else list_parties fuel next out
  end.
Definition ListParties (fuel : nat) : M history (option (list Party)) := list_parties fuel "" [].

Definition PartyExists (partyID : string) : M history bool :=
  r ← attempt (rpc (GetPartiesRPC [partyID]));
  match r with
  | Err e =>
      match status_FromError e with
      | Some codes_InvalidArgument => mret false
      | _ => fail (ErrWrap ("error getting party " +:+ partyID +:+ ": ") e "")
      end
  | Ok details => mret (existsb (fun p => bool_decide (pd_Party p = partyID)) details)
  end.

Definition GetParticipantID : M history string :=
  wrapping "error getting participant id: " (rpc GetParticipantIdRPC).

(** The first created FingerprintMapping of a transaction. *)
Definition find_mapping (events : list (option CreatedEvent)) : option CreatedEvent :=
  List.find (fun ce => match ce_TemplateId ce with
                       | Some tid => bool_decide (ModuleName tid = mapping_module) && bool_decide (EntityName tid = mapping_entity)
                       | None => false
                       end) (omap id events).

(** A created event always carries its template id. *)
Definition CreateFingerprintMapping (req : CreateFingerprintMappingRequest) : M history FingerprintMapping :=
  _ ← wrapping "invalid request: " (lift (CreateFingerprintMappingRequest_validate req));
  commandId ← ask NewUUID;
  resp ← wrapping "error creating fingerprint mapping: " (rpc (SubmitAndWaitForTransaction
    (mkCommands (DomainID cfg) commandId (UserID cfg) [IssuerParty cfg] [cf_UserParty req]
       [Command_Create (mkIdentifier (PackageID cfg) mapping_module mapping_entity)
          (encodeFingerprintMappingCreate (IssuerParty cfg) (cf_UserParty req) (cf_Fingerprint req) (cf_EvmAddress req))] [])));
  match resp ≫= find_mapping with
  | Some created => mret (fingerprintMappingFromCreateEvent created)
  | None => fail (ErrNew "fingerprint mapping contract not found in response")
  end.

(** The last of the mappings with the fingerprint. *)
Definition latest_mapping (fp : string) (events : list CreatedEvent) : option FingerprintMapping :=
  foldl (fun latest ce =>
    let m := fingerprintMappingFromCreateEvent ce in
    if bool_decide (fm_Fingerprint m = fp) then Some m else latest) None events.

Definition GetFingerprintMapping (fingerprint : string) : M history FingerprintMapping :=
  let fp := normalizeFingerprint fingerprint in
  end_ ← GetLedgerEnd;
  if end_ =? 0 then fail (ErrNew "ledger is empty, no contracts exist")
  else
    events ← GetActiveContractsByTemplate end_ [IssuerParty cfg] (mkIdentifier (PackageID cfg) mapping_module mapping_entity);
    match latest_mapping fp events with
    | Some m => mret m
    | None => fail (ErrNew ("no FingerprintMapping found for fingerprint: " +:+ fp))
    end.

Definition GrantActAsParty (partyID : string) : M history unit :=
  r ← attempt (rpc (GrantActAsRPC (UserID cfg) partyID));
  match r with
  | Ok _ => mret tt
  | Err e => if isAlreadyExistsError e then mret tt else fail (ErrWrap "grant can act as: " e "")
  end.

Lemma emits_GetFingerprintMapping fp : emits read_only (GetFingerprintMapping fp).
Proof.
  apply emits_bind; [apply emits_GetLedgerEnd|]. intros e. destruct (e =? 0); [apply emits_fail|].
  apply emits_bind; [apply emits_ByTemplate|]. intros l. destruct (latest_mapping _ l); eauto with emits.
Qed.
End client.
#[export] Hint Resolve emits_GetFingerprintMapping : emits.

(** ** Fingerprint mappings *)

Lemma normalizeFingerprint_idem fp : normalizeFingerprint (normalizeFingerprint fp) = normalizeFingerprint fp.
Proof.
  unfold normalizeFingerprint. destruct (HasPrefix fp "0x") eqn:E; [by rewrite E|]. by rewrite HasPrefix_app.
Qed.

(** A mapping that the client creates decodes to the party and the
    normalised fingerprint it was created for, but never to the EVM address:
    the address is written as an optional record and read as a text, so a
    decoded mapping has none. *)
Theorem mapping_decodes_without_address issuer party fp address cid tid blob :
  fingerprintMappingFromCreateEvent
    (mkCreatedEvent cid tid (encodeFingerprintMappingCreate issuer party fp address) blob) =
  mkFingerprintMapping cid issuer party (normalizeFingerprint fp) "".
Proof.
  unfold fingerprintMappingFromCreateEvent, encodeFingerprintMappingCreate. cbn.
  by destruct (bool_decide (address = ""%string)).
Qed.

Lemma latest_mapping_app fp l ce :
  latest_mapping fp (l ++ [ce]) =
    let m := fingerprintMappingFromCreateEvent ce in
    if bool_decide (fm_Fingerprint m = fp) then Some m else latest_mapping fp l.
Proof. unfold latest_mapping. by rewrite foldl_app. Qed.

(** GetFingerprintMapping looks a fingerprint up with or without its 0x
    prefix and returns the last active mapping of it: none of the mappings the
    ledger lists after the returned one has the fingerprint, and it fails only
    when no listed mapping has it. *)
Lemma latest_mapping_correct fp events :
  match latest_mapping fp events with
  | Some m => exists before ce after, events = before ++ ce :: after /\ m = fingerprintMappingFromCreateEvent ce /\
      fm_Fingerprint m = fp /\ Forall (fun c => fm_Fingerprint (fingerprintMappingFromCreateEvent c) <> fp) after
  | None => Forall (fun c => fm_Fingerprint (fingerprintMappingFromCreateEvent c) <> fp) events
  end.
Proof.
  induction events as [|ce l IH] using rev_ind; [constructor|].
  rewrite latest_mapping_app. cbv zeta. case_bool_decide as Hfp.
  { exists l, ce, []. done. }
  destruct (latest_mapping fp l) as [m|].
  - destruct IH as (before & c & after & -> & -> & Hm & Hafter). exists before, c, (after ++ [ce]).
    split; [by rewrite <- app_assoc|]. split_and!; [done..|]. apply Forall_app. by repeat constructor.
  - apply Forall_app. by repeat constructor.
Qed.

Lemma GetFingerprintMapping_fp `{!Env} cfg fp h m h' :
  GetFingerprintMapping cfg fp h = (Ok m, h') -> fm_Fingerprint m = normalizeFingerprint fp.
Proof.
  unfold GetFingerprintMapping. unfold mbind at 1, M_bind at 1. destruct (GetLedgerEnd h) as [[e|e] h1]; [|done].
  destruct (e =? 0); [done|]. unfold mbind at 1, M_bind at 1. destruct (GetActiveContractsByTemplate _ _ _ h1) as [[l|e'] h2]; [|done].
  pose proof (latest_mapping_correct (normalizeFingerprint fp) l) as Hl.
  destruct (latest_mapping _ l) as [m'|]; [|done]. intros [= <- _]. by destruct Hl as (? & ? & ? & _ & _ & ? & _).
Qed.

(** ** Listing parties *)

Section listing.
Context `{!Env}.
Variable page : string -> list PartyDetails * string.
Hypothesis pages_served : forall h tok, respond _ h (ListKnownPartiesRPC listKnownPartiesPageSize tok) = Ok (page tok).

(** The parties of [n] pages from a token on, if the listing ends there. *)
Fixpoint pages_from (n : nat) (tok : string) : option (list PartyDetails) :=
  match n with
  | O => None
  | S n => if bool_decide ((page tok).2 = ""%string) then Some (page tok).1
           else rest ← pages_from n (page tok).2; Some ((page tok).1 ++ rest)
  end.

Lemma list_parties_pages n tok out all h :
  pages_from n tok = Some all ->
  (list_parties n tok out h).1 = Ok (Some (out ++ ((fun p => mkParty (pd_Party p) (pd_IsLocal p)) <$> all))).
Proof.
  revert tok out all h. induction n as [|n IH]; intros tok out all h; [done|].
  cbn [pages_from list_parties]. unfold mbind at 2, M_bind, wrapping, rpc. rewrite pages_served. cbn [wrap].
  destruct (page tok) as [details next]. cbn [fst snd]. case_bool_decide; [by intros [= <-]|].
  destruct (pages_from n next) as [rest|] eqn:Hr; cbn; [|done]. intros [= <-].
  rewrite (IH _ _ rest) by done. by rewrite fmap_app, app_assoc.
Qed.

(** When the participant's listing ends within n pages, ListParties with
    fuel n returns every party of every page, in order: it neither stops early
    nor repeats a page. *)
Theorem ListParties_complete n all h :
  pages_from n "" = Some all ->
  (ListParties n h).1 = Ok (Some ((fun p => mkParty (pd_Party p) (pd_IsLocal p)) <$> all)).
Proof. apply list_parties_pages. Qed.
End listing.

Definition ex_pages (tok : string) : list PartyDetails * string :=
  if bool_decide (tok = ""%string) then ([mkPartyDetails "alice" true; mkPartyDetails "bob" false], "next"%string)
  else ([mkPartyDetails "carol" false], ""%string).
Definition ex_env : Env := scripted (mkScript 0 0 (fun _ => []) (fun _ => Err (ErrNew "no key")) ex_pages
  (fun _ => http_failed (ErrNew "down"))).

Lemma ListParties_complete_witness :
  (@ListParties ex_env 2 []).1 = Ok (Some [mkParty "alice" true; mkParty "bob" false; mkParty "carol" false]).
Proof.
  apply (@ListParties_complete ex_env ex_pages (fun h tok => eq_refl) 2
    [mkPartyDetails "alice" true; mkPartyDetails "bob" false; mkPartyDetails "carol" false]). reflexivity.
Defined.
End Identity.
