(* ===== verification/BridgeClient.v ===== *)
(** * The bridge client: pkg/cantonsdk/bridge

    client.go, types.go, encode.go, decode.go and config.go: the deposit and
    withdrawal commands of the bridge operator, the query for known deposits,
    and the reconnecting stream of withdrawal events.  The client is the
    instance of the [CantonBridge] interface that the relayer runs against. *)

From S2P Require Import Prelude AppErrors Effects GoStd GoText EthClient RelayerStore Decimal RelayerChains DamlValues Streaming LedgerApi TokenCodec LedgerClient Identity.
From Stdlib Require Import Ascii String.
Local Open Scope Z_scope.
Local Abbreviation length := Datatypes.length.

Module Bridge.
(** ** Configuration and requests *)

Record Config := mkConfig {
  DomainID : string;
  UserID : string;
  OperatorParty : string;
  PackageID : string;
  CorePackageID : string;
  ConfigModule : string;
}.

Definition Config_validate (c : Config) : result unit :=
  checks [required (DomainID c) "domain id is required"; required (UserID c) "user id is required";
          required (OperatorParty c) "operator party is required"; required (PackageID c) "bridge package id is required";
          required (ConfigModule c) "bridge module is required"; required (CorePackageID c) "bridge core_package_id is required"].

Record CreatePendingDepositRequest := mkCreatePendingDepositRequest {
  cp_Fingerprint : string;
  cp_Amount : string;
  cp_EvmTxHash : string;
}.
Definition CreatePendingDepositRequest_validate (r : CreatePendingDepositRequest) : result unit :=
  checks [required (cp_Fingerprint r) "fingerprint is required"; required (cp_Amount r) "amount is required";
          required (cp_EvmTxHash r) "evm_tx_hash is required"].

(** The creation time of the contract, which no caller reads, is left out. *)
Record PendingDeposit := mkPendingDeposit { pe_ContractID : string; pe_MappingCID : string; pe_Fingerprint : string }.

Record ProcessDepositRequest := mkProcessDepositRequest { pr_DepositCID : string; pr_MappingCID : string }.
Definition ProcessDepositRequest_validate (r : ProcessDepositRequest) : result unit :=
  checks [required (pr_DepositCID r) "deposit_cid is required"; required (pr_MappingCID r) "mapping_cid is required"].

Record InitiateWithdrawalRequest := mkInitiateWithdrawalRequest {
  iw_MappingCID : string;
  iw_HoldingCID : string;
  iw_Amount : string;
  iw_EvmDestination : string;
}.
Definition InitiateWithdrawalRequest_validate (r : InitiateWithdrawalRequest) : result unit :=
  checks [required (iw_MappingCID r) "mapping_cid is required"; required (iw_HoldingCID r) "holding_cid is required";
          required (iw_Amount r) "amount is required"; required (iw_EvmDestination r) "evm_destination is required"].

Record CompleteWithdrawalRequest := mkCompleteWithdrawalRequest { cw_WithdrawalEventCID : string; cw_EvmTxHash : string }.
Definition CompleteWithdrawalRequest_validate (r : CompleteWithdrawalRequest) : result unit :=
  checks [required (cw_WithdrawalEventCID r) "withdrawal_event_cid is required"; required (cw_EvmTxHash r) "evm_tx_hash is required"].

(** ** encode.go and decode.go *)

Definition encodeCreatePendingDepositArgs (now : Z) (req : CreatePendingDepositRequest) : Value :=
  Value_Record [("fingerprint"%string, Some (TextValue (cp_Fingerprint req))); ("amount"%string, Some (NumericValue (cp_Amount req)));
                ("evmTxHash"%string, Some (TextValue (cp_EvmTxHash req))); ("timestamp"%string, Some (TimestampValue (UnixMicro now)))].

Definition encodeProcessDepositAndMintArgs (now : Z) (req : ProcessDepositRequest) : Value :=
  Value_Record [("depositCid"%string, Some (ContractIDValue (pr_DepositCID req))); ("mappingCid"%string, Some (ContractIDValue (pr_MappingCID req)));
                ("timestamp"%string, Some (TimestampValue (UnixMicro now)))].

Definition encodeInitiateWithdrawalArgs (req : InitiateWithdrawalRequest) : Value :=
  Value_Record [("mappingCid"%string, Some (ContractIDValue (iw_MappingCID req))); ("holdingCid"%string, Some (ContractIDValue (iw_HoldingCID req)));
                ("amount"%string, Some (NumericValue (iw_Amount req)));
                ("evmDestination"%string, Some (NewtypeValue (TextValue (iw_EvmDestination req))))].

Definition encodeProcessWithdrawalArgs (now : Z) : Value := Value_Record [("timestamp"%string, Some (TimestampValue (UnixMicro now)))].

Definition encodeCompleteWithdrawalArgs (now : Z) (evmTxHash : string) : Value :=
  Value_Record [("evmTxHash"%string, Some (TextValue evmTxHash)); ("timestamp"%string, Some (TimestampValue (UnixMicro now)))].

Definition WithdrawalStatusPending : string := "Pending".
Definition WithdrawalStatusCompleted : string := "Completed".
Definition WithdrawalStatusFailed : string := "Failed".

Definition decodeWithdrawalStatusV2 (v : ValuePtr) : string :=
  match v with
  | Some (Value_Variant ctor _) =>
      if bool_decide (ctor = "Pending"%string) then WithdrawalStatusPending
      else if bool_decide (ctor = "Completed"%string) then WithdrawalStatusCompleted
      else if bool_decide (ctor = "Failed"%string) then WithdrawalStatusFailed
      else WithdrawalStatusPending
  | _ => WithdrawalStatusPending
  end.

(** A created event of the update stream, with its place in the ledger. *)
Record StreamedEvent := mkStreamedEvent { se_created : CreatedEvent; se_Offset : Z; se_NodeId : Z }.

Definition decodeWithdrawalEvent (e : StreamedEvent) (txID : string) : WithdrawalEvent :=
  let fields := RecordToMap (ce_CreateArguments (se_created e)) in
  mkWithdrawalEvent (ce_ContractId (se_created e)) (canton_event_id (se_Offset e) (se_NodeId e)) txID
    (DamlValues.Party (field fields "issuer")) (DamlValues.Party (field fields "userParty"))
    (NewtypeText (field fields "evmDestination")) (Numeric (field fields "amount")) (Text (field fields "fingerprint"))
    (decodeWithdrawalStatusV2 (field fields "status")).

(** ** Commands *)

Definition bridgeContractsModule : string := "Bridge.Contracts".
Definition fingerprintAuthModule : string := "Common.FingerprintAuth".

(** Whether a created event is of the template, in any package. *)
Definition is_created (module entity : string) (ce : CreatedEvent) : bool :=
  match ce_TemplateId ce with
  | Some tid => bool_decide (ModuleName tid = module) && bool_decide (EntityName tid = entity)
  | None => false
  end.

(** The contract of the first created event of the template. *)
Definition first_created (module entity : string) (events : list (option CreatedEvent)) : option CreatedEvent :=
  List.find (is_created module entity) (omap id events).

Definition isAlreadyExistsError (e : error) : bool :=
  match status_FromError e with Some c => bool_decide (c = codes_AlreadyExists) | None => false end.

Section client.
Context `{!Env}.
Variable cfg : Config.
Variable identity : Identity.Config.

Definition bridge_tid : Identifier := mkIdentifier (PackageID cfg) (ConfigModule cfg) "WayfinderBridgeConfig".
Definition request_tid : Identifier := mkIdentifier (CorePackageID cfg) bridgeContractsModule "WithdrawalRequest".
Definition event_tid : Identifier := mkIdentifier (CorePackageID cfg) bridgeContractsModule "WithdrawalEvent".
Definition pendingTID : Identifier := mkIdentifier (Identity.PackageID identity) fingerprintAuthModule "PendingDeposit".
Definition receiptTID : Identifier := mkIdentifier (Identity.PackageID identity) fingerprintAuthModule "DepositReceipt".

Definition GetWayfinderBridgeConfigCID : M history string :=
  end_ ← GetLedgerEnd;
  if end_ =? 0 then fail (ErrNew "ledger is empty, no contracts exist")
  else
    events ← wrapping "query WayfinderBridgeConfig: " (GetActiveContractsByTemplate end_ [OperatorParty cfg] bridge_tid);
    match events with
    | [] => fail (ErrNew "no active WayfinderBridgeConfig found")
    | e :: _ => mret (ce_ContractId e)
    end.

Definition has_tx_hash (evmTxHash : string) (ce : CreatedEvent) : bool :=
  bool_decide (Text (field (RecordToMap (ce_CreateArguments ce)) "evmTxHash") = evmTxHash).

(** The inner function of IsDepositProcessed. *)
Definition deposit_check (end_ : Z) (evmTxHash : string) (tid : Identifier) : M history bool :=
  events ← GetActiveContractsByTemplate end_ [OperatorParty cfg] tid;
  mret (existsb (has_tx_hash evmTxHash) events).

Definition IsDepositProcessed (evmTxHash : string) : M history bool :=
  if bool_decide (evmTxHash = ""%string) then fail (ErrNew "evm tx hash is required")
  else
    end_ ← GetLedgerEnd;
    if end_ =? 0 then mret false
    else
      ok ← wrapping "query PendingDeposit: " (deposit_check end_ evmTxHash pendingTID);
      if ok : bool then mret true
      else wrapping "query DepositReceipt: " (deposit_check end_ evmTxHash receiptTID).

(** Commands acting as the bridge operator. *)
Definition operator_commands (commandId : string) (cmd : Command) : Commands :=
  mkCommands (DomainID cfg) commandId (UserID cfg) [OperatorParty cfg] [] [cmd] [].

(** Submit a command and wait for the events of its transaction. *)
Definition submit (op : string) (cmd : Command) : M history (list (option CreatedEvent)) :=
  commandId ← ask NewUUID;
  resp ← wrapping (op +:+ ": ") (rpc (SubmitAndWaitForTransaction (operator_commands commandId cmd)));
  match resp with
  | None => fail (ErrNew (op +:+ ": missing transaction in response"))
  | Some events => mret events
  end.

Definition CreatePendingDeposit (req : CreatePendingDepositRequest) : M history PendingDeposit :=
  _ ← wrapping "invalid request: " (lift (CreatePendingDepositRequest_validate req));
  configCID ← GetWayfinderBridgeConfigCID;
  m ← Identity.GetFingerprintMapping identity (cp_Fingerprint req);
  let req := mkCreatePendingDepositRequest (Identity.fm_Fingerprint m) (cp_Amount req) (cp_EvmTxHash req) in
  now ← ask Now;
  events ← submit "create pending deposit"
    (Command_Exercise bridge_tid configCID "CreatePendingDeposit" (encodeCreatePendingDepositArgs now req));
  match first_created fingerprintAuthModule "PendingDeposit" events with
  | Some created => mret (mkPendingDeposit (ce_ContractId created) (Identity.fm_ContractID m) (Identity.fm_Fingerprint m))
  | None => fail (ErrNew "PendingDeposit contract not found in response")
  end.

(** The last holding of the transaction, or the empty string. *)
Definition minted_holding (events : list (option CreatedEvent)) : string :=
  foldl (fun cid ce => if is_created "CIP56.Token" "CIP56Holding" ce then ce_ContractId ce else cid) ""%string (omap id events).

(** The contract id of the minted holding; the search for the transfer event
    only decides what is logged. *)
Definition ProcessDepositAndMint (req : ProcessDepositRequest) : M history string :=
  _ ← wrapping "invalid request: " (lift (ProcessDepositRequest_validate req));
  configCID ← GetWayfinderBridgeConfigCID;
  now ← ask Now;
  events ← submit "process deposit and mint"
    (Command_Exercise bridge_tid configCID "ProcessDepositAndMint" (encodeProcessDepositAndMintArgs now req));
  if bool_decide (minted_holding events = ""%string) then fail (ErrNew "CIP56Holding contract not found in response")
  else mret (minted_holding events).

Definition InitiateWithdrawal (req : InitiateWithdrawalRequest) : M history string :=
  _ ← wrapping "invalid request: " (lift (InitiateWithdrawalRequest_validate req));
  configCID ← GetWayfinderBridgeConfigCID;
  events ← submit "initiate withdrawal"
    (Command_Exercise bridge_tid configCID "InitiateWithdrawal" (encodeInitiateWithdrawalArgs req));
  match first_created bridgeContractsModule "WithdrawalRequest" events with
  | Some created => mret (ce_ContractId created)
  | None => fail (ErrNew "WithdrawalRequest contract not found in response")
  end.

Definition ProcessWithdrawal (withdrawalRequestCID : string) : M history string :=
  now ← ask Now;
  events ← submit "process withdrawal"
    (Command_Exercise request_tid withdrawalRequestCID "ProcessWithdrawal" (encodeProcessWithdrawalArgs now));
  match first_created bridgeContractsModule "WithdrawalEvent" events with
  | Some created => mret (ce_ContractId created)
  | None => fail (ErrNew "WithdrawalEvent contract not found in response")
  end.

Definition CompleteWithdrawal (req : CompleteWithdrawalRequest) : M history unit :=
  _ ← wrapping "invalid request: " (lift (CompleteWithdrawalRequest_validate req));
  now ← ask Now;
  commandId ← ask NewUUID;
  r ← attempt (rpc (SubmitAndWait (operator_commands commandId
        (Command_Exercise event_tid (cw_WithdrawalEventCID req) "CompleteWithdrawal"
           (encodeCompleteWithdrawalArgs now (cw_EvmTxHash req))))));
  match r with
  | Ok _ => mret tt
  | Err e => if isAlreadyExistsError e then mret tt else fail (ErrWrap "complete withdrawal: " e "")
  end.

Definition GetLatestLedgerOffset : M history Z := GetLedgerEnd.

(** The client behind the relayer's interface. *)
#[export] Instance bridge_client : CantonBridge history := {|
  RelayerChains.IsDepositProcessed := IsDepositProcessed;
  RelayerChains.CreatePendingDeposit fingerprint amount evmTxHash :=
    d ← CreatePendingDeposit (mkCreatePendingDepositRequest fingerprint amount evmTxHash); mret (pe_ContractID d, pe_MappingCID d);
  RelayerChains.ProcessDepositAndMint depositCID mappingCID := ProcessDepositAndMint (mkProcessDepositRequest depositCID mappingCID);
  RelayerChains.CompleteWithdrawal cid evmTxHash := CompleteWithdrawal (mkCompleteWithdrawalRequest cid evmTxHash);
  RelayerChains.GetLatestLedgerOffset := GetLatestLedgerOffset;
|}.
End client.

(** ** The stream of withdrawal events *)

Definition streamReconnectDelay : Z := 5 * Second.
Definition streamMaxReconnectDelay : Z := 60 * Second.

Definition isAuthError (e : option error) : bool :=
  match e with
  | None => false
  | Some e => match status_FromError e with
              | Some (codes_Unauthenticated | codes_PermissionDenied) => true
              | _ => false
              end
  end.

Definition parseOffset (offset : string) : result Z :=
  if bool_decide (offset = ""%string) || bool_decide (offset = "BEGIN"%string) then Ok 0
  else wrap ("invalid offset " +:+ quoted offset +:+ ": ") (ParseInt offset).

(** A response of the stream: a transaction with its created events (absent
    for the other events), or another update. *)
Record StreamedTx := mkStreamedTx { sx_UpdateId : string; sx_Offset : Z; sx_Events : list (option StreamedEvent) }.

(** The withdrawals of a transaction that are sent. *)
Definition pending_withdrawal (txID : string) (ev : option StreamedEvent) : option (WithdrawalEvent * Z) :=
  match ev with
  | Some e =>
      if is_created bridgeContractsModule "WithdrawalEvent" (se_created e) then
        let we := decodeWithdrawalEvent e txID in
        if bool_decide (we_Status we = WithdrawalStatusPending) then Some (we, se_Offset e) else None
      else None
  | None => None
  end.
Definition tx_withdrawals (tx : StreamedTx) : list (WithdrawalEvent * Z) := omap (pending_withdrawal (sx_UpdateId tx)) (sx_Events tx).

(** Send the withdrawals of the responses received before the connection
    fails, and record the offset of each. *)
Fixpoint forward (lastOffset : string) (resps : list (option StreamedTx)) : list WithdrawalEvent * string :=
  match resps with
  | [] => ([], lastOffset)
  | None :: resps => forward lastOffset resps
  | Some tx :: resps =>
      let ws := tx_withdrawals tx in
      let '(out, last) := forward (foldl (fun _ w => FormatInt w.2) lastOffset ws) resps in
      (ws.*1 ++ out, last)
  end.

(** [updates] is the participant's GetUpdates.  A connection delivers the given
    number of its responses and then fails; an offset that does not parse ends
    it at once. *)
Section stream.
Variable updates : Z -> list (option StreamedTx).

Definition streamWithdrawalEventsOnce (offset : string) (n : nat) : list WithdrawalEvent * string :=
  match parseOffset offset with
  | Err _ => ([], offset)
  | Ok beginExclusive => forward offset (take n (updates beginExclusive))
  end.

Record connection := mkConnection { cn_responses : nat; cn_error : option error; cn_healthy : bool }.

(** The loop over a sequence of connections: what was sent, the offset it
    would reconnect from, and the delays before the reconnects. *)
Fixpoint StreamWithdrawalEvents (currentOffset : string) (reconnectDelay : Z) (conns : list connection)
    : list WithdrawalEvent * string * list Z :=
  match conns with
  | [] => ([], currentOffset, [])
  | cn :: conns =>
      let '(out, currentOffset) := streamWithdrawalEventsOnce currentOffset (cn_responses cn) in
      let reconnectDelay := if cn_healthy cn then streamReconnectDelay else reconnectDelay in
      let reconnectDelay := if isAuthError (cn_error cn) then streamReconnectDelay else reconnectDelay in
      let '(out', last, waits) := StreamWithdrawalEvents currentOffset (Z.min (reconnectDelay * 2) streamMaxReconnectDelay) conns in
      (out ++ out', last, reconnectDelay :: waits)
  end.
End stream.
End Bridge.
