(* ===== verification/BridgeProofs.v ===== *)
(** * The bridge client: theorems

    The withdrawal stream delivers every pending withdrawal exactly once across
    reconnects, but an offset taken from one event skips the rest of its
    transaction; and what the relayer's Canton destination submits to the
    ledger through the client. *)

From S2P Require Import Prelude AppErrors Effects GoStd GoText EthClient RelayerStore Decimal RelayerChains DamlValues Streaming LedgerApi TokenCodec LedgerClient Identity BridgeClient.
From Stdlib Require Import Ascii String.
Local Open Scope Z_scope.
Local Abbreviation length := Datatypes.length.
Import Bridge.

(** ** Delivery of withdrawals *)

(** The pending withdrawals of transactions, in order. *)
Definition withdrawals (txs : list StreamedTx) : list (WithdrawalEvent * Z) := List.concat (tx_withdrawals <$> txs).

Lemma withdrawals_cons tx txs : withdrawals (tx :: txs) = tx_withdrawals tx ++ withdrawals txs.
Proof. done. Qed.

Lemma withdrawals_app l k : withdrawals (l ++ k) = withdrawals l ++ withdrawals k.
Proof. unfold withdrawals. by rewrite fmap_app, concat_app. Qed.

Lemma elem_of_withdrawals w txs : w ∈ withdrawals txs <-> exists tx, tx ∈ txs /\ w ∈ tx_withdrawals tx.
Proof.
  induction txs as [|tx txs IH]; [by split; [intros ?%elem_of_nil|intros (? & ?%elem_of_nil & _)]|].
  rewrite withdrawals_cons, elem_of_app, IH. set_solver.
Qed.

(** The offset that is recorded after sending. *)
Definition record_offset (o : string) (ws : list (WithdrawalEvent * Z)) : string := foldl (fun _ w => FormatInt w.2) o ws.

Lemma record_offset_last o ws : record_offset o ws = default o ((fun w => FormatInt w.2) <$> last ws).
Proof.
  unfold record_offset. induction ws as [|w ws IH] using rev_ind; [done|]. rewrite foldl_app, last_snoc. done.
Qed.

Lemma forward_spec o resps :
  forward o resps = ((withdrawals (omap id resps)).*1, record_offset o (withdrawals (omap id resps))).
Proof.
  revert o. induction resps as [|[tx|] resps IH]; intros o; cbn [forward]; [done| |by rewrite IH].
  rewrite IH. change (omap id (Some tx :: resps)) with (tx :: omap id resps).
  rewrite withdrawals_cons, fmap_app. unfold record_offset. by rewrite foldl_app.
Qed.

Lemma parse_FormatInt n : 0 < n <= max_int64 -> parseOffset (FormatInt n) = Ok n.
Proof.
  intros Hn. unfold parseOffset. assert (FormatInt n = FormatUint n) as Hf.
  { unfold FormatInt. destruct (Z.ltb_spec n 0); [lia|done]. }
  rewrite !bool_decide_eq_false_2; [|rewrite Hf; apply FormatUint_not_begin|rewrite Hf; apply FormatUint_nonempty].
  cbn [orb]. by rewrite ParseInt_FormatInt by int_lia.
Qed.

Lemma StronglySorted_filter {A} (R : A -> A -> Prop) (P : A -> Prop) `{!forall x, Decision (P x)} l :
  StronglySorted R l -> StronglySorted R (filter P l).
Proof.
  intros Hs. induction Hs as [|x l Hs IH Hx]; [constructor|]. rewrite filter_cons. case_decide; [|done].
  constructor; [done|]. apply Forall_forall. intros y Hy. apply list_elem_of_filter in Hy as [_ Hy].
  rewrite Forall_forall in Hx. by apply Hx.
Qed.

(** A participant: its transactions in ledger order, each with the offset its
    events carry, and GetUpdates from an exclusive offset. *)
Section Delivery.
Variable ledger : list StreamedTx.
Variable updates : Z -> list (option StreamedTx).
Hypothesis ledger_ordered : StronglySorted (fun a b => sx_Offset a < sx_Offset b) ledger.
Hypothesis ledger_offsets : forall tx, tx ∈ ledger -> 0 < sx_Offset tx <= max_int64 /\
  forall e, Some e ∈ sx_Events tx -> se_Offset e = sx_Offset tx.
Hypothesis updates_spec : forall o, omap id (updates o) = filter (fun tx => o < sx_Offset tx) ledger.

(** The pending withdrawals of the ledger after one offset, up to another. *)
Definition pending_between (lo hi : Z) : list WithdrawalEvent :=
  (withdrawals (filter (fun tx => lo < sx_Offset tx <= hi) ledger)).*1.

Lemma withdrawal_offset tx w : tx ∈ ledger -> w ∈ tx_withdrawals tx -> w.2 = sx_Offset tx.
Proof.
  intros Htx Hw. destruct (ledger_offsets tx Htx) as [_ He]. unfold tx_withdrawals in Hw.
  apply list_elem_of_omap in Hw as ([e|] & Hin & Hp); [|done]. cbn in Hp.
  destruct (is_created _ _ _); [|done]. case_bool_decide; [|done]. injection Hp as <-. by apply He.
Qed.

(** The last recorded offset is the largest. *)
Lemma withdrawals_last_max S lo :
  StronglySorted (fun a b => sx_Offset a < sx_Offset b) S -> (forall tx, tx ∈ S -> tx ∈ ledger) ->
  forall w, w ∈ withdrawals S -> w.2 <= default lo (snd <$> last (withdrawals S)).
Proof.
  intros Hs. induction Hs as [|x S Hs IH Hx]; intros Hin w Hw; [by apply elem_of_nil in Hw|].
  rewrite withdrawals_cons in *. rewrite last_app. apply elem_of_app in Hw as [Hw|Hw].
  - rewrite (withdrawal_offset x w) by (done || apply Hin; set_solver).
    destruct (last (withdrawals S)) as [v|] eqn:Hl.
    + apply last_Some_elem_of, elem_of_withdrawals in Hl as (y & Hy & Hv). cbn.
      rewrite (withdrawal_offset y v) by (done || apply Hin; set_solver). rewrite Forall_forall in Hx. specialize (Hx y Hy). lia.
    + destruct (last (tx_withdrawals x)) as [v|] eqn:Hlx.
      * apply last_Some_elem_of in Hlx. cbn. rewrite (withdrawal_offset x v) by (done || apply Hin; set_solver). lia.
      * apply last_None in Hlx. rewrite Hlx in Hw. by apply elem_of_nil in Hw.
  - specialize (IH (fun tx Htx => Hin tx (list_elem_of_further _ _ _ Htx)) w Hw).
    destruct (last (withdrawals S)) as [v|] eqn:Hl; [done|]. apply last_None in Hl. rewrite Hl in Hw. by apply elem_of_nil in Hw.
Qed.

(** Transactions past every withdrawal have none. *)
Lemma withdrawals_upto S m :
  (forall tx, tx ∈ S -> tx ∈ ledger) -> (forall w, w ∈ withdrawals S -> w.2 <= m) ->
  withdrawals (filter (fun tx => sx_Offset tx <= m) S) = withdrawals S.
Proof.
  induction S as [|x S IH]; intros Hin Hm; [done|]. rewrite filter_cons, withdrawals_cons.
  assert (withdrawals (filter (fun tx => sx_Offset tx <= m) S) = withdrawals S) as IH'.
  { apply IH; [intros; apply Hin; set_solver|]. intros w Hw. apply Hm. rewrite withdrawals_cons. set_solver. }
  case_decide as Hx; [by rewrite withdrawals_cons, IH'|]. rewrite IH'.
  destruct (tx_withdrawals x) as [|w ws] eqn:Hw; [done|]. exfalso. apply Hx.
  rewrite <- (withdrawal_offset x w); [|apply Hin; set_solver|rewrite Hw; set_solver]. apply Hm. rewrite withdrawals_cons, Hw. set_solver.
Qed.

(** One connection. *)
Lemma once_delivers o n from :
  parseOffset o = Ok from ->
  exists mid o', streamWithdrawalEventsOnce updates o n = (pending_between from mid, o') /\
    parseOffset o' = Ok mid /\ from <= mid.
Proof.
  intros Ho. unfold streamWithdrawalEventsOnce. rewrite Ho, forward_spec.
  destruct (omap_id_take n (updates from)) as [k ->]. rewrite updates_spec.
  set (later := filter (fun tx => from < sx_Offset tx) ledger). set (S := take k later).
  assert (later = S ++ drop k later) as Hsplit by (symmetry; apply take_drop).
  assert (StronglySorted (fun a b => sx_Offset a < sx_Offset b) later) as Hls.
  { by apply StronglySorted_filter. }
  assert (forall tx, tx ∈ later -> tx ∈ ledger) as Hin by (intros tx Htx; by apply list_elem_of_filter in Htx as [_ ?]).
  assert (forall tx, tx ∈ S -> tx ∈ ledger) as HinS by (intros tx Htx; apply Hin; rewrite Hsplit; set_solver).
  rewrite Hsplit in Hls. apply StronglySorted_app in Hls as (Hcross & HsS & _).
  set (mid := default from (snd <$> last (withdrawals S))). exists mid, (record_offset o (withdrawals S)).
  pose proof (withdrawals_last_max S from HsS HinS) as Hmax. fold mid in Hmax.
  assert (mid = from \/ exists tx, tx ∈ S /\ mid = sx_Offset tx) as Hmid.
  { subst mid. destruct (last (withdrawals S)) as [v|] eqn:Hl; [|by left]. right.
    apply last_Some_elem_of, elem_of_withdrawals in Hl as (tx & Htx & Hv). exists tx. split; [done|]. cbn. apply withdrawal_offset; auto. }
  assert (forall tx, tx ∈ later -> from < sx_Offset tx) as Hgt by (intros tx Htx; by apply list_elem_of_filter in Htx as [? _]).
  split_and!.
  - f_equal. unfold pending_between. f_equal. rewrite <- (withdrawals_upto S mid HinS Hmax).
    assert (filter (fun tx => from < sx_Offset tx <= mid) ledger = filter (fun tx => sx_Offset tx <= mid) later) as ->.
    { subst later. rewrite list_filter_filter. apply list_filter_iff. intros tx. lia. }
    rewrite Hsplit at 1. rewrite filter_app, (filter_none _ (drop k later)); [by rewrite app_nil_r|].
    intros y Hy Hle. destruct Hmid as [Hm|(tx & Htx & Hm)].
    + specialize (Hgt y). rewrite Hsplit in Hgt. specialize (Hgt ltac:(set_solver)). lia.
    + specialize (Hcross tx y Htx Hy). lia.
  - rewrite record_offset_last. subst mid. destruct (last (withdrawals S)) as [v|] eqn:Hl; [|done]. cbn.
    apply last_Some_elem_of, elem_of_withdrawals in Hl as (tx & Htx & Hv).
    rewrite (withdrawal_offset tx v) by auto. apply parse_FormatInt. by apply ledger_offsets, HinS.
  - destruct Hmid as [->|(tx & Htx & ->)]; [lia|]. specialize (Hgt tx). rewrite Hsplit in Hgt. specialize (Hgt ltac:(set_solver)). lia.
Qed.

Lemma StreamWithdrawalEvents_delivers conns o delay from out o' waits :
  parseOffset o = Ok from ->
  StreamWithdrawalEvents updates o delay conns = (out, o', waits) ->
  exists upto, parseOffset o' = Ok upto /\ from <= upto /\ out = pending_between from upto.
Proof.
  revert o delay from out o' waits. induction conns as [|cn conns IH]; intros o delay from out o' waits Ho; cbn [StreamWithdrawalEvents].
  { intros [= <- <- _]. exists from. split; [done|]. split; [lia|]. unfold pending_between.
    rewrite filter_none; [done|]. intros; lia. }
  destruct (once_delivers o (cn_responses cn) from Ho) as (mid & o1 & -> & Ho1 & Hle).
  destruct (StreamWithdrawalEvents updates o1 _ conns) as [[out1 o2] ws] eqn:Hrest. intros [= <- <- _].
  destruct (IH _ _ _ _ _ _ Ho1 Hrest) as (upto & Hup & Hle' & ->). exists upto. split; [done|]. split; [lia|].
  unfold pending_between. by rewrite (filter_between sx_Offset from mid upto), withdrawals_app, fmap_app.
Qed.

(** C12: the withdrawal stream is exactly-once across reconnects.  However
    often the connection drops, for whatever error and after however many
    responses, the withdrawals sent are precisely the pending ones of the
    ledger between the offset the stream started from and the one it would
    reconnect from, in ledger order. *)
Theorem StreamWithdrawalEvents_exactly_once conns o delay from out o' waits :
  parseOffset o = Ok from ->
  StreamWithdrawalEvents updates o delay conns = (out, o', waits) ->
  exists upto, parseOffset o' = Ok upto /\ from <= upto /\ out = pending_between from upto.
Proof. apply StreamWithdrawalEvents_delivers. Qed.

(** The offset the relayer extracts from the event of a withdrawal. *)
Lemma extracted_offset tx w token :
  tx ∈ ledger -> w ∈ tx_withdrawals tx ->
  cantonSource_ExtractOffset (cantonSource_event token w.1) = FormatInt (sx_Offset tx).
Proof.
  intros Htx Hw. destruct (ledger_offsets tx Htx) as [Hb He]. unfold tx_withdrawals in Hw.
  apply list_elem_of_omap in Hw as ([e|] & Hin & Hp); [|done]. cbn in Hp.
  destruct (is_created _ _ _); [|done]. case_bool_decide; [|done]. injection Hp as <-.
  unfold cantonSource_ExtractOffset, cantonSource_event. cbn [ev_ID fst we_EventID decodeWithdrawalEvent].
  rewrite (He e Hin). apply cantonOffset_roundtrip. lia.
Qed.

(** A restart can lose a withdrawal.  The relayer persists the offset it
    extracts from the last event it processed, and streams from it after a
    restart: every withdrawal streamed then is of a later transaction, so a
    second withdrawal of the same transaction that was not processed before
    the restart is not streamed again, however the connections go. *)
Theorem restart_skips_transaction tx w token conns delay out o' waits :
  tx ∈ ledger -> w ∈ tx_withdrawals tx ->
  StreamWithdrawalEvents updates (cantonSource_ExtractOffset (cantonSource_event token w.1)) delay conns = (out, o', waits) ->
  exists upto, out = pending_between (sx_Offset tx) upto /\
    (forall tx', tx' ∈ filter (fun t => sx_Offset tx < sx_Offset t <= upto) ledger -> tx' <> tx).
Proof.
  intros Htx Hw Hrun. rewrite (extracted_offset tx w token Htx Hw) in Hrun.
  destruct (ledger_offsets tx Htx) as [Hb _].
  destruct (StreamWithdrawalEvents_delivers conns _ delay (sx_Offset tx) out o' waits (parse_FormatInt _ Hb) Hrun) as (upto & _ & _ & ->).
  exists upto. split; [done|]. intros tx' Htx' ->. apply list_elem_of_filter in Htx' as [? _]. lia.
Qed.
End Delivery.

(** A ledger with two withdrawals in one transaction. *)
Definition ex_withdrawal (cid : string) (node : Z) : option StreamedEvent :=
  Some (mkStreamedEvent (mkCreatedEvent cid (Some (mkIdentifier "core" bridgeContractsModule "WithdrawalEvent"))
    [("amount"%string, Some (Value_Numeric "1.5"))] []) 7 node).
Definition ex_double : StreamedTx := mkStreamedTx "update-7" 7 [ex_withdrawal "w1" 1; None; ex_withdrawal "w2" 2].
Definition ex_later : StreamedTx := mkStreamedTx "update-9" 9 [].
Definition ex_withdrawal_ledger : list StreamedTx := [ex_double; ex_later].
Definition ex_withdrawal_updates (o : Z) : list (option StreamedTx) :=
  None :: (Some <$> filter (fun tx => o < sx_Offset tx) ex_withdrawal_ledger).

Lemma ex_withdrawal_updates_spec o : omap id (ex_withdrawal_updates o) = filter (fun tx => o < sx_Offset tx) ex_withdrawal_ledger.
Proof.
  unfold ex_withdrawal_updates. cbn [omap list_omap id]. induction (filter _ ex_withdrawal_ledger) as [|x l IH]; [done|]. cbn. by f_equal.
Qed.

Lemma ex_withdrawal_offsets tx :
  tx ∈ ex_withdrawal_ledger -> 0 < sx_Offset tx <= max_int64 /\ forall e, Some e ∈ sx_Events tx -> se_Offset e = sx_Offset tx.
Proof.
  unfold ex_withdrawal_ledger. rewrite !elem_of_cons, elem_of_nil. intros [->|[->|[]]].
  - split; [cbn; int_lia|]. intros e. cbn. rewrite !elem_of_cons, elem_of_nil. intros [He|[He|[He|[]]]]; [injection He as ->; done|done|injection He as ->; done].
  - split; [cbn; int_lia|]. intros e He. by apply elem_of_nil in He.
Qed.

Lemma StreamWithdrawalEvents_exactly_once_witness :
  exists out o' waits, StreamWithdrawalEvents ex_withdrawal_updates "BEGIN" streamReconnectDelay
      [mkConnection 2 None false; mkConnection 3 None true] = (out, o', waits) /\
    we_EventID <$> out = ["7-1"; "7-2"]%string /\ o' = "7"%string /\
    exists upto, parseOffset o' = Ok upto /\ 0 <= upto /\ out = pending_between ex_withdrawal_ledger 0 upto.
Proof.
  eexists _, _, _. split; [vm_compute; reflexivity|]. split; [reflexivity|]. split; [reflexivity|].
  refine (StreamWithdrawalEvents_exactly_once ex_withdrawal_ledger ex_withdrawal_updates _ ex_withdrawal_offsets ex_withdrawal_updates_spec
    [mkConnection 2 None false; mkConnection 3 None true] "BEGIN" streamReconnectDelay 0 _ _ _ _ _).
  - repeat constructor.
  - reflexivity.
  - vm_compute. reflexivity.
Defined.

(** The relayer processed the first withdrawal; the second is gone. *)
Lemma restart_skips_transaction_witness :
  exists w1 w2, tx_withdrawals ex_double = [w1; w2] /\
  exists out o' waits, StreamWithdrawalEvents ex_withdrawal_updates (cantonSource_ExtractOffset (cantonSource_event "0xtoken" w1.1))
      streamReconnectDelay [mkConnection 3 None false] = (out, o', waits) /\ out = [] /\
    exists upto, out = pending_between ex_withdrawal_ledger 7 upto.
Proof.
  eexists _, _. split; [reflexivity|]. eexists _, _, _. split; [vm_compute; reflexivity|]. split; [reflexivity|].
  destruct (restart_skips_transaction ex_withdrawal_ledger ex_withdrawal_updates ltac:(repeat constructor) ex_withdrawal_offsets
    ex_withdrawal_updates_spec ex_double (decodeWithdrawalEvent (default (mkStreamedEvent (mkCreatedEvent "" None [] []) 0 0) (ex_withdrawal "w1" 1)) "update-7", 7)
    "0xtoken" [mkConnection 3 None false] streamReconnectDelay [] "7" [streamReconnectDelay]) as (upto & Hup & _).
  - apply list_elem_of_here.
  - apply list_elem_of_here.
  - vm_compute. reflexivity.
  - exists upto. exact Hup.
Defined.

(** ** What the relayer's Canton destination submits *)

(** The commands a computation adds to those the participant signed for. *)
Definition adds (h : history) (cmds : list Commands) (h' : history) : Prop :=
  effects h' = (executed h, submitted h ++ cmds, prepared h).

Lemma adds_refl h : adds h [] h.
Proof. unfold adds, effects. by rewrite app_nil_r. Qed.

Lemma adds_effects h h1 cmds h2 : effects h1 = effects h -> adds h1 cmds h2 -> adds h cmds h2.
Proof. unfold adds, effects. intros [= H1 H2 H3] ->. by rewrite H1, H2, H3. Qed.

Lemma adds_trans h c1 h1 c2 h2 : adds h c1 h1 -> adds h1 c2 h2 -> adds h (c1 ++ c2) h2.
Proof. unfold adds, effects. intros [= H1 H2 H3] ->. by rewrite H1, H2, H3, app_assoc. Qed.

Lemma adds_none h h' : effects h' = effects h -> adds h [] h'.
Proof. unfold adds, effects. intros ->. by rewrite app_nil_r. Qed.

Section destination.
Context `{!Env} `{!DecimalLib}.
Variable cfg : Bridge.Config.
Variable identity : Identity.Config.

Lemma emits_GetConfigCID : emits read_only (GetWayfinderBridgeConfigCID cfg).
Proof.
  apply emits_bind; [apply emits_GetLedgerEnd|]. intros e. destruct (e =? 0); [apply emits_fail|].
  apply emits_bind; [apply emits_wrapping, emits_ByTemplate|]. intros [|c l]; [apply emits_fail|apply emits_ret].
Qed.

Lemma emits_deposit_check e hash tid : emits read_only (deposit_check cfg e hash tid).
Proof. apply emits_bind; [apply emits_ByTemplate|]. intros l. apply emits_ret. Qed.

Lemma emits_IsDepositProcessed hash : emits read_only (IsDepositProcessed cfg identity hash).
Proof.
  unfold IsDepositProcessed. case_bool_decide; [apply emits_fail|]. apply emits_bind; [apply emits_GetLedgerEnd|]. intros e.
  destruct (e =? 0); [apply emits_ret|]. apply emits_bind; [apply emits_wrapping, emits_deposit_check|].
  intros [|]; [apply emits_ret|apply emits_wrapping, emits_deposit_check].
Qed.

(** A submission adds its command, whatever the ledger answers. *)
Lemma wp_submit op cmd Q h :
  (forall id events h', adds h [operator_commands cfg id cmd] h' ->
     Exchange (SubmitAndWaitForTransaction (operator_commands cfg id cmd)) (Ok (Some events)) ∈ h' -> Q (Ok events) h') ->
  (forall id e h', adds h [operator_commands cfg id cmd] h' -> Q (Err e) h') ->
  wp (submit cfg op cmd) Q h.
Proof.
  intros Hok Herr. unfold submit. apply wp_bind, wp_ask. intros id. apply wp_bind, wp_wrapping, wp_rpc. intros r.
  set (h' := _ ++ [Exchange (SubmitAndWaitForTransaction _) r]).
  assert (adds h [operator_commands cfg id cmd] h') as Ha.
  { unfold adds, effects, executed, submitted, prepared, h'. rewrite !omap_app. cbn. by rewrite !app_nil_r. }
  destruct r as [[events|]|e]; cbn [wrap].
  - apply wp_ret, (Hok id); [done|]. unfold h'. set_solver.
  - by apply wp_fail, (Herr id).
  - by apply (Herr id).
Qed.

Definition create_command (id configCID : string) (now : Z) (fingerprint amount evmTxHash : string) : Commands :=
  operator_commands cfg id (Command_Exercise (bridge_tid cfg) configCID "CreatePendingDeposit"
    (encodeCreatePendingDepositArgs now (mkCreatePendingDepositRequest fingerprint amount evmTxHash))).

Definition mint_command (id configCID : string) (now : Z) (depositCID mappingCID : string) : Commands :=
  operator_commands cfg id (Command_Exercise (bridge_tid cfg) configCID "ProcessDepositAndMint"
    (encodeProcessDepositAndMintArgs now (mkProcessDepositRequest depositCID mappingCID))).

(** The deposit command for a recipient, and the contract it created. *)
Definition creates_deposit (fp amount hash : string) (m : Identity.FingerprintMapping) (cmd : Commands) : Prop :=
  Identity.fm_Fingerprint m = Identity.normalizeFingerprint fp /\
  exists id configCID now, cmd = create_command id configCID now (Identity.fm_Fingerprint m) amount hash.

Lemma wp_CreatePendingDeposit fp amount hash h :
  wp (CreatePendingDeposit cfg identity (mkCreatePendingDepositRequest fp amount hash)) (fun r h' => match r with
    | Ok d => exists m cmd events ce, creates_deposit fp amount hash m cmd /\ adds h [cmd] h' /\
        Exchange (SubmitAndWaitForTransaction cmd) (Ok (Some events)) ∈ h' /\
        first_created fingerprintAuthModule "PendingDeposit" events = Some ce /\
        d = mkPendingDeposit (ce_ContractId ce) (Identity.fm_ContractID m) (Identity.fm_Fingerprint m)
    | Err _ => adds h [] h' \/ exists m cmd, creates_deposit fp amount hash m cmd /\ adds h [cmd] h'
    end) h.
Proof.
  unfold CreatePendingDeposit. apply wp_bind, wp_wrapping, wp_lift.
  destruct (CreatePendingDepositRequest_validate _); cbn [wrap]; [|left; apply adds_refl].
  apply wp_bind, (wp_read_only _ _ _ emits_GetConfigCID). intros r0 n0 _ He0. destruct r0 as [configCID|e]; [|left; by apply adds_none].
  apply wp_bind, (wp_read_only _ _ _ (Identity.emits_GetFingerprintMapping identity fp)). intros r1 n1 Hm He1.
  destruct r1 as [m|e]; [|left; apply adds_none; congruence].
  assert (Identity.fm_Fingerprint m = Identity.normalizeFingerprint fp) as Hfp by exact (Identity.GetFingerprintMapping_fp _ _ _ _ _ Hm).
  apply wp_bind, wp_ask. intros now. apply wp_bind.
  assert (forall cmds h', adds (((h ++ n0) ++ n1) ++ [Exchange Now now]) cmds h' -> adds h cmds h') as Hadds.
  { intros cmds h'. apply adds_effects. rewrite effects_snoc by done. congruence. }
  apply wp_submit.
  - intros id events h' Ha Hin. apply Hadds in Ha. destruct (first_created _ _ _) as [ce|] eqn:Hf.
    + apply wp_ret. exists m. eexists _, events, ce. split; [split; [done|by eexists _, _, _]|]. done.
    + apply wp_fail. right. exists m. eexists. split; [split; [done|by eexists _, _, _]|done].
  - intros id e h' Ha. apply Hadds in Ha. right. exists m. eexists. split; [split; [done|by eexists _, _, _]|done].
Qed.

Lemma wp_ProcessDepositAndMint depositCID mappingCID h :
  wp (ProcessDepositAndMint cfg (mkProcessDepositRequest depositCID mappingCID)) (fun r h' => match r with
    | Ok holding => exists id configCID now events, let cmd := mint_command id configCID now depositCID mappingCID in
        adds h [cmd] h' /\ Exchange (SubmitAndWaitForTransaction cmd) (Ok (Some events)) ∈ h' /\
        minted_holding events = holding /\ holding <> ""%string
    | Err _ => adds h [] h' \/ exists id configCID now, adds h [mint_command id configCID now depositCID mappingCID] h'
    end) h.
Proof.
  unfold ProcessDepositAndMint. apply wp_bind, wp_wrapping, wp_lift.
  destruct (ProcessDepositRequest_validate _); cbn [wrap]; [|left; apply adds_refl].
  apply wp_bind, (wp_read_only _ _ _ emits_GetConfigCID). intros r0 n0 _ He0. destruct r0 as [configCID|e]; [|left; by apply adds_none].
  apply wp_bind, wp_ask. intros now. apply wp_bind.
  assert (forall cmds h', adds ((h ++ n0) ++ [Exchange Now now]) cmds h' -> adds h cmds h') as Hadds.
  { intros cmds h'. apply adds_effects. by rewrite effects_snoc. }
  apply wp_submit.
  - intros id events h' Ha Hin. apply Hadds in Ha. case_bool_decide as Hh; [apply wp_fail; right; by eexists _, _, _|].
    apply wp_ret. by exists id, configCID, now, events.
  - intros id e h' Ha. apply Hadds in Ha. right. by eexists _, _, _.
Qed.

(** The ledger listed an active contract of the template, for the operator,
    that records the Ethereum transaction. *)
Definition listed_deposit (tid : Identifier) (hash : string) (h : history) : Prop :=
  exists offset s ce,
    Exchange (GetActiveContracts (mkGetActiveContractsRequest offset [(OperatorParty cfg, [TemplateFilter tid false])] true)) (Ok s) ∈ h /\
    Some ce ∈ st_msgs s /\ Text (field (RecordToMap (ce_CreateArguments ce)) "evmTxHash") = hash.

Definition known_deposit (hash : string) (h : history) : Prop :=
  listed_deposit (pendingTID identity) hash h \/ listed_deposit (receiptTID identity) hash h.

Lemma deposit_check_listed e hash tid h b h' :
  deposit_check cfg e hash tid h = (Ok b, h') -> b = true -> listed_deposit tid hash h'.
Proof.
  unfold deposit_check. unfold mbind at 1, M_bind at 1. unfold GetActiveContractsByTemplate, query_contracts.
  destruct (e =? 0); [done|]. rewrite bool_decide_eq_false_2 by done. unfold mbind at 1, M_bind at 1, wrapping, rpc.
  set (req := mkGetActiveContractsRequest e _ true). destruct (respond _ h (GetActiveContracts req)) as [s|er]; cbn [wrap]; [|done].
  unfold lift, collectActiveContracts. destruct (st_error s); [done|]. intros [= <- <-] Hb.
  apply existsb_exists in Hb as (ce & Hin & Hce). exists e, s, ce.
  split; [apply elem_of_app; right; by apply list_elem_of_singleton|]. split.
  - apply list_elem_of_In, list_elem_of_omap in Hin as (x & Hx & Hid). cbn in Hid. by subst x.
  - by apply bool_decide_eq_true in Hce.
Qed.

Lemma IsDepositProcessed_known hash h h' :
  IsDepositProcessed cfg identity hash h = (Ok true, h') -> known_deposit hash h'.
Proof.
  unfold IsDepositProcessed. case_bool_decide; [done|]. unfold mbind at 1, M_bind at 1. destruct (GetLedgerEnd h) as [[e|e] h1]; [|done].
  destruct (e =? 0); [done|]. unfold mbind at 1, M_bind at 1, wrapping.
  destruct (deposit_check cfg e hash (pendingTID identity) h1) as [[[|]|er] h2] eqn:Hc; cbn [wrap]; [| |done].
  - intros [= <-]. left. by eapply deposit_check_listed.
  - destruct (deposit_check cfg e hash (receiptTID identity) h2) as [[b|er] h3] eqn:Hc'; cbn [wrap]; [|done].
    intros [= -> <-]. right. by eapply deposit_check_listed.
Qed.

(** What became of a deposit whose submission started at a history. *)
Definition deposit_outcome (ev : Event) (h : history) (r : result (string * bool)) (h' : history) : Prop :=
  match r with
  | Ok (holding, false) => exists a m create events ce id configCID now events',
      SetString (ev_Amount ev) = Some a /\
      creates_deposit (ev_Recipient ev) (bigIntToDecimal a decimalPlaces) (ev_SourceTxHash ev) m create /\
      let mint := mint_command id configCID now (ce_ContractId ce) (Identity.fm_ContractID m) in
      adds h [create; mint] h' /\
      Exchange (SubmitAndWaitForTransaction create) (Ok (Some events)) ∈ h' /\
      first_created fingerprintAuthModule "PendingDeposit" events = Some ce /\
      Exchange (SubmitAndWaitForTransaction mint) (Ok (Some events')) ∈ h' /\ minted_holding events' = holding /\ holding <> ""%string
  | Ok (_, true) => adds h [] h' /\ known_deposit (ev_SourceTxHash ev) h'
  | Err _ => adds h [] h' \/ exists a m create, SetString (ev_Amount ev) = Some a /\
      creates_deposit (ev_Recipient ev) (bigIntToDecimal a decimalPlaces) (ev_SourceTxHash ev) m create /\
      (adds h [create] h' \/ exists id configCID now depositCID,
         adds h [create; mint_command id configCID now depositCID (Identity.fm_ContractID m)] h')
  end.

Lemma emits_ProcessDepositAndMint req : emits (fun _ => True) (ProcessDepositAndMint cfg req).
Proof.
  unfold ProcessDepositAndMint. apply emits_bind; [apply emits_wrapping, emits_lift|]. intros _.
  apply emits_bind; [by eapply emits_weaken; [apply emits_GetConfigCID|]|]. intros c. apply emits_bind; [by apply emits_ask|]. intros now.
  apply emits_bind; [|intros ev; case_bool_decide; eauto with emits].
  unfold submit. apply emits_bind; [by apply emits_ask|]. intros id. apply emits_bind; [by apply emits_wrapping, emits_rpc|].
  intros [r|]; eauto with emits.
Qed.

Lemma wp_deposit_steps ev a h h0 :
  SetString (ev_Amount ev) = Some a -> effects h0 = effects h ->
  wp (d ← wrapping "create pending deposit: "
        (CreatePendingDeposit cfg identity (mkCreatePendingDepositRequest (ev_Recipient ev) (bigIntToDecimal a decimalPlaces) (ev_SourceTxHash ev)));
      holding ← wrapping "process deposit and mint: " (ProcessDepositAndMint cfg (mkProcessDepositRequest (pe_ContractID d) (pe_MappingCID d)));
      mret (holding, false)) (deposit_outcome ev h) h0.
Proof.
  intros Ha He. apply wp_bind, wp_wrapping. eapply wp_mono; [apply wp_CreatePendingDeposit|]. cbv beta. intros [d|e] h1; cbn [wrap].
  2:{ intros [H1|(m & cmd & Hc & H1)]; apply (adds_effects h) in H1; try done; [by left|right]. exists a, m, cmd. auto. }
  intros (m & create & events & ce & Hc & H1 & Hin & Hf & ->). apply (adds_effects h) in H1; [|done].
  apply wp_bind, wp_wrapping. eapply wp_mono; [eapply wp_emits; [apply emits_ProcessDepositAndMint|apply wp_ProcessDepositAndMint]|].
  cbv beta. intros [holding|e] h2; cbn [wrap].
  - intros [(id & configCID & now & events' & H2 & Hin' & Hm & Hne) (new & -> & _)]. apply wp_ret.
    exists a, m, create, events, ce, id, configCID, now, events'. split; [done|]. split; [done|]. cbv zeta.
    split; [exact (adds_trans _ _ _ _ _ H1 H2)|]. split; [apply elem_of_app; by left|]. done.
  - intros [[H2|(id & configCID & now & H2)] _]; right; exists a, m, create; (split; [done|]); (split; [done|]).
    + left. pose proof (adds_trans _ _ _ _ _ H1 H2) as H3. by rewrite app_nil_r in H3.
    + right. exists id, configCID, now, (ce_ContractId ce). exact (adds_trans _ _ _ _ _ H1 H2).
Qed.

(** C13: a deposit on the ledger.  Through the bridge client, the relayer's
    Canton destination submits exactly two commands for a deposit that it
    reports as submitted: one that creates a pending deposit with the
    recipient's normalised fingerprint, the amount as an 18-place decimal and
    the Ethereum transaction hash, and one that mints from the very contract
    that the first created, with the recipient's mapping, and it returns the
    holding minted.  A deposit it reports as known is listed by the ledger as
    pending or processed, and nothing is submitted.  When it fails, it has
    submitted no command, the first, or both. *)
Theorem CantonDestination_submits (ev : Event) h :
  wp (@CantonDestination_SubmitTransfer history (bridge_client cfg identity) _ ev) (deposit_outcome ev h) h.
Proof.
  unfold CantonDestination_SubmitTransfer. destruct (SetString (ev_Amount ev)) as [a|] eqn:Ha; [|apply wp_fail; left; apply adds_refl].
  apply wp_bind, wp_attempt. change RelayerChains.IsDepositProcessed with (IsDepositProcessed cfg identity).
  apply (wp_read_only _ _ _ (emits_IsDepositProcessed (ev_SourceTxHash ev))). intros r n Hrun He.
  pose proof (wp_deposit_steps ev a h (h ++ n) Ha He) as Hsteps.
  destruct r as [[|]|e].
  { apply wp_ret. split; [by apply adds_none|]. by eapply IsDepositProcessed_known. }
  all: revert Hsteps; unfold wp, mbind, M_bind, wrapping;
    cbn [RelayerChains.CreatePendingDeposit RelayerChains.ProcessDepositAndMint bridge_client]; unfold mbind, M_bind;
    destruct (CreatePendingDeposit cfg identity _ (h ++ n)) as [[d|e0] h1]; exact id.
Qed.
End destination.
