(* ===== verification/TokenRegistry.v ===== *)
(** * The token registry client: pkg/cantonsdk/token/registry_client.go

    The Splice transfer-factory registry of an external token: the requests
    the client posts, the responses it reads, and the conversion of disclosed
    contracts and choice contexts into Ledger API messages.  The HTTP client is
    the environment's [HttpPost]. *)

From S2P Require Import Prelude AppErrors Effects GoStd GoText Decimal DamlValues Streaming LedgerApi TokenCodec.
From Stdlib Require Import Ascii String.
Local Open Scope Z_scope.
Local Abbreviation length := Datatypes.length.

(** ** URLs *)

(** strings.TrimRight(s, "/") *)
Fixpoint trim_slashes (s : string) : string :=
  match s with
  | EmptyString => EmptyString
  | String c t =>
      match trim_slashes t with
      | EmptyString => if Ascii.eqb c "/" then EmptyString else String c EmptyString
      | t' => String c t'
      end
  end.

(** The bytes that url.PathEscape keeps. *)
Definition path_char (c : ascii) : bool :=
  let n := nat_of_ascii c in
  ((48 <=? n) && (n <=? 57))%nat || ((65 <=? n) && (n <=? 90))%nat || ((97 <=? n) && (n <=? 122))%nat ||
  bool_decide (c ∈ ["-"; "_"; "."; "~"; "$"; "&"; "+"; "="; ":"; "@"]%char).

Definition upper_hex (d : Z) : ascii :=
  ascii_of_nat (if d <? 10 then 48 + Z.to_nat d else 55 + Z.to_nat d).

(** url.PathEscape *)
Fixpoint PathEscape (s : string) : string :=
  match s with
  | EmptyString => EmptyString
  | String c t =>
      if path_char c then String c (PathEscape t)
      else let n := Z.of_nat (nat_of_ascii c) in
           String "%" (String (upper_hex (n / 16)) (String (upper_hex (n mod 16)) (PathEscape t)))
  end.

Definition registry_path (registrar : string) : string :=
  "/api/token-standard/v0/registrars/" +:+ registrar +:+ "/registry/transfer-instruction/v1/transfer-factory".
Definition choice_context_path (registrar instruction action : string) : string :=
  "/api/token-standard/v0/registrars/" +:+ registrar +:+ "/registry/transfer-instruction/v1/" +:+ instruction +:+
  "/choice-contexts/" +:+ action.

(** ** Requests *)

Record RegistryTransferDetail := mkRegistryTransferDetail {
  rt_Sender : string;
  rt_Receiver : string;
  rt_Amount : string;
  rt_InstrumentAdmin : string;
  rt_InstrumentID : string;
  rt_InputHoldingCIDs : list string;
  rt_ExecuteBefore : string;
  rt_RequestedAt : string;
}.

(** The choice arguments, whose context and meta maps the client leaves empty. *)
Record RegistryRequest := mkRegistryRequest {
  rr_ExpectedAdmin : string;
  rr_Transfer : RegistryTransferDetail;
  rr_ExcludeDebugFields : bool;
}.

Definition empty_AnyValueMap : json := JObject [("values"%string, JObject [])].

(** json.Marshal of the request; a nil slice is null. *)
Definition marshal_RegistryRequest (r : RegistryRequest) : json :=
  let t := rr_Transfer r in
  let transfer := JObject
    [("sender"%string, JString (rt_Sender t));
     ("receiver"%string, JString (rt_Receiver t));
     ("amount"%string, JString (rt_Amount t));
     ("instrumentId"%string, JObject [("admin"%string, JString (rt_InstrumentAdmin t)); ("id"%string, JString (rt_InstrumentID t))]);
     ("inputHoldingCids"%string, match rt_InputHoldingCIDs t with [] => JNull | l => JArray (JString <$> l) end);
     ("meta"%string, empty_AnyValueMap);
     ("executeBefore"%string, JString (rt_ExecuteBefore t));
     ("requestedAt"%string, JString (rt_RequestedAt t))] in
  JObject
    [("choiceArguments"%string, JObject
       [("expectedAdmin"%string, JString (rr_ExpectedAdmin r));
        ("transfer"%string, transfer);
        ("extraArgs"%string, JObject [("context"%string, empty_AnyValueMap); ("meta"%string, empty_AnyValueMap)])]);
     ("excludeDebugFields"%string, JBool (rr_ExcludeDebugFields r))].

(** ** Responses *)

Record RegistryResponse := mkRegistryResponse {
  rs_FactoryID : string;
  rs_TransferKind : string;
  rs_ChoiceContext : RawMessage;
  rs_DisclosedContracts : RawMessage;
}.

Record registryDisclosedContract := mkRegistryDisclosedContract {
  rd_ContractID : string;
  rd_CreatedEventBlob : string;
  rd_TemplateID : RawMessage;
  rd_SynchronizerID : string;
}.

Record AcceptContextResponse := mkAcceptContextResponse {
  ac_ChoiceContextData : AcceptChoiceContext;
  ac_DisclosedContracts : list registryDisclosedContract;
}.

(** json.Unmarshal into a struct: null leaves the zero value, another
    document than an object is an error. *)
Definition unmarshal_struct {A} (zero : A) (fields : list (string * json) -> result A) (j : json) : result A :=
  match j with
  | JObject l => fields l
  | JNull => Ok zero
  | _ => Err json_error
  end.

Definition unmarshal_registryDisclosedContract : json -> result registryDisclosedContract :=
  unmarshal_struct (mkRegistryDisclosedContract "" "" None "") (fun l =>
    contractId ← string_field l "contractId";
    blob ← string_field l "createdEventBlob";
    synchronizer ← string_field l "synchronizerId";
    mret (mkRegistryDisclosedContract contractId blob (member "templateId" l) synchronizer)).

(** A map[string]T: the last of two equal keys wins. *)
Definition unmarshal_map {B} (f : json -> result B) (raw : RawMessage) : result (gmap string B) :=
  match raw with
  | Some (JObject l) => kvs ← collect (fun kv => v ← f kv.2; mret (kv.1, v)) l; mret (list_to_map (rev kvs))
  | Some JNull | None => Ok ∅
  | _ => Err json_error
  end.

Definition unmarshal_AcceptChoiceContext : json -> result AcceptChoiceContext :=
  unmarshal_struct ∅ (fun l => unmarshal_map unmarshal_AnyValue (member "values" l)).

Definition unmarshal_AcceptContextResponse : json -> result AcceptContextResponse :=
  unmarshal_struct (mkAcceptContextResponse ∅ []) (fun l =>
    ctx ← match member "choiceContextData" l with None => Ok ∅ | Some j => unmarshal_AcceptChoiceContext j end;
    disclosed ← match member "disclosedContracts" l with
                | None => Ok []
                | raw => unmarshal_slice unmarshal_registryDisclosedContract raw
                end;
    mret (mkAcceptContextResponse ctx disclosed)).

(** [len(raw) == 0 || string(raw) == "null"] *)
Definition absent (raw : RawMessage) : bool := match raw with None | Some JNull => true | _ => false end.

(** The wire response, with the members of its choiceContext lifted out. *)
Definition unmarshal_registry_response (j : json) : result RegistryResponse :=
  wire ← wrap "parse registry response: " (unmarshal_struct (""%string, ""%string, None) (fun l =>
    factory ← string_field l "factoryId";
    kind ← string_field l "transferKind";
    mret (factory, kind, member "choiceContext" l)) j);
  let '(factory, kind, context) := wire in
  inner ← match context with
          | Some j =>
              if absent context then Ok (None, None)
              else wrap "parse choiceContext wrapper: " (unmarshal_struct (None, None) (fun l =>
                     Ok (member "choiceContextData" l, member "disclosedContracts" l)) j)
          | None => Ok (None, None)
          end;
  mret (mkRegistryResponse factory kind inner.1 inner.2).

(** ** Conversions *)

Definition parseTemplateID (raw : RawMessage) : result (option Identifier) :=
  match raw with
  | None => Ok None
  | Some j =>
      let object :=
        wrap "parse templateId: " (unmarshal_struct (Some (mkIdentifier "" "" "")) (fun l =>
          package ← string_field l "packageId";
          module ← string_field l "moduleName";
          entity ← string_field l "entityName";
          mret (Some (mkIdentifier package module entity))) j) in
      match unmarshal_string raw with
      | Ok s =>
          if bool_decide (s = ""%string) then object
          else match split_first ":" s with
               | (package, Some rest) =>
                   match split_first ":" rest with
                   | (module, Some entity) => Ok (Some (mkIdentifier package module entity))
                   | _ => Err (ErrNew ("templateId " +:+ quoted s +:+ " not in pkg:module:entity form"))
                   end
               | _ => Err (ErrNew ("templateId " +:+ quoted s +:+ " not in pkg:module:entity form"))
               end
      | Err _ => object
      end
  end.

Definition base64_error : error := ErrNew "illegal base64 data".

Definition convertDisclosedContractSlice (contracts : list registryDisclosedContract) (fallbackDomainID : string)
    : result (list DisclosedContract) :=
  collect (fun c =>
    blob ← match Std_Decode (rd_CreatedEventBlob c) with
           | Some b => Ok b
           | None => Err (ErrWrap ("decode created_event_blob for " +:+ rd_ContractID c +:+ ": ") base64_error "")
           end;
    tid ← wrap ("parse templateId for " +:+ rd_ContractID c +:+ ": ") (parseTemplateID (rd_TemplateID c));
    let domain := if bool_decide (rd_SynchronizerID c = ""%string) then fallbackDomainID else rd_SynchronizerID c in
    mret (mkDisclosedContract (rd_ContractID c) blob domain tid)) contracts.

Definition ConvertDisclosedContracts (raw : RawMessage) (fallbackDomainID : string) : result (list DisclosedContract) :=
  if absent raw then Ok []
  else
    contracts ← wrap "parse disclosed contracts: " (unmarshal_slice unmarshal_registryDisclosedContract raw);
    convertDisclosedContractSlice contracts fallbackDomainID.

(** The legacy shape, a map of texts; the AnyValue shape counts as absent. *)
Definition ConvertChoiceContext (raw : RawMessage) : result (gmap string string) :=
  match raw with
  | None | Some JNull => Ok ∅
  | Some (JObject l) =>
      match member "values" l with
      | Some _ => Ok ∅
      | None => wrap "parse choice context: " (unmarshal_map (fun j => unmarshal_string (Some j)) raw)
      end
  | _ => Err (ErrWrap "parse choice context: " json_error "")
  end.

Definition ConvertAnyValueChoiceContext (raw : RawMessage) : result AcceptChoiceContext :=
  match raw with
  | None | Some JNull => Ok ∅
  | Some j => wrap "parse anyvalue choice context: " (unmarshal_AcceptChoiceContext j)
  end.

(** ** Calls to the registry *)

Section registry.
Context `{!Env}.

(** Post a document and decode the document of a 200 response; the messages
    are those of the caller. *)
Definition post_json {A} (url : string) (body : json) (create failed read returned parse : string)
    (decode : json -> result A) : M history A :=
  o ← ask (HttpPost url body);
  match o with
  | http_invalid e => fail (ErrWrap create e "")
  | http_failed e => fail (ErrWrap failed e "")
  | http_response status b =>
      match b with
      | Err e => fail (ErrWrap read e "")
      | Ok (text, document) =>
          if bool_decide (status = 200) then
            match document with
            | Some j => lift (decode j)
            | None => fail (ErrWrap parse json_error "")
            end
          else fail (ErrNew (returned +:+ FormatInt status +:+ ": " +:+ text))
      end
  end.

Definition GetTransferFactory_registry (registryBaseURL registrarParty : string) (req : RegistryRequest)
    : M history RegistryResponse :=
  post_json (trim_slashes registryBaseURL +:+ registry_path (PathEscape registrarParty)) (marshal_RegistryRequest req)
    "create registry request: " "registry request failed: " "read registry response: "
    "registry returned " "parse registry response: " unmarshal_registry_response.

Definition choice_context_body : json := JObject [("meta"%string, JObject []); ("excludeDebugFields"%string, JBool false)].

Definition getChoiceContext (registryBaseURL registrarParty instructionCID action : string) : M history AcceptContextResponse :=
  post_json (trim_slashes registryBaseURL +:+ choice_context_path registrarParty instructionCID action) choice_context_body
    ("create " +:+ action +:+ " context request: ") (action +:+ " context request failed: ")
    ("read " +:+ action +:+ " context response: ") (action +:+ " context returned ")
    ("parse " +:+ action +:+ " context response: ")
    (fun j => wrap ("parse " +:+ action +:+ " context response: ") (unmarshal_AcceptContextResponse j)).

Definition GetAcceptChoiceContext (base registrar instruction : string) : M history AcceptContextResponse :=
  getChoiceContext base registrar instruction "accept".
Definition GetWithdrawChoiceContext (base registrar instruction : string) : M history AcceptContextResponse :=
  getChoiceContext base registrar instruction "withdraw".

(** A request to a registry writes nothing to the ledger. *)
Lemma emits_post_json {A} url body c f r t p (decode : json -> result A) :
  emits read_only (post_json url body c f r t p decode).
Proof.
  apply emits_bind; [apply emits_ask; done|]. intros [e|e|status [[text [j|]]|e]]; eauto with emits;
    case_bool_decide; eauto with emits.
Qed.
End registry.
#[export] Hint Resolve emits_post_json : emits.
