(* ===== verification/TokenClient.v ===== *)
(** * The token client: pkg/cantonsdk/token/client.go

    Mint and burn as the issuer, holdings and balances, transfers of custodial
    parties (interactive submission signed with the key the middleware holds),
    of internal parties and of external wallets (prepare and execute), and the
    acceptance and withdrawal of transfer instructions. *)

From S2P Require Import Prelude AppErrors Effects GoStd GoText Decimal DamlValues Streaming LedgerApi TokenCodec LedgerClient Identity TokenRegistry.
From Stdlib Require Import Ascii String.
Local Open Scope Z_scope.
Local Abbreviation length := Datatypes.length.

(** ** config.go and the client *)

Record TokenConfig := mkTokenConfig {
  DomainID : string;
  IssuerParty : string;
  UserID : string;
  CIP56PackageID : string;
  SpliceTransferPackageID : string;
  SpliceHoldingPackageID : string;
  UtilityRegistryAppPackageID : string;
  UtilityRegistryPackageID : string;
  ExternalTokens : gmap string string;
}.

Definition TokenConfig_validate (c : TokenConfig) : result unit :=
  checks [required (DomainID c) "domain_id is required"; required (IssuerParty c) "issuer_party is required";
          required (UserID c) "user_id is required"; required (CIP56PackageID c) "cip56_package_id is required";
          required (SpliceTransferPackageID c) "splice_transfer_package_id is required";
          required (SpliceHoldingPackageID c) "splice_holding_package_id is required"].

(** The client: its configuration, the identity client, and whether a key
    resolver and a registry client were configured. *)
Record Client := mkClient {
  cl_cfg : TokenConfig;
  cl_identity : Identity.Config;
  cl_keyResolver : bool;
  cl_registryClient : bool;
}.

Definition ErrInsufficientBalance : error := ErrVar "token.ErrInsufficientBalance" "insufficient balance".
Definition ErrTransferFactoryNotFound : error := ErrVar "token.ErrTransferFactoryNotFound" "no active CIP56TransferFactory found".
Definition is_factory_not_found (e : error) : bool :=
  errors_Is e "token.ErrTransferFactoryNotFound" "no active CIP56TransferFactory found".

Definition preparedTxCacheTTL : Z := Hour.

Definition moduleConfig : string := "CIP56.Config".
Definition entityTokenConfig : string := "TokenConfig".
Definition moduleToken : string := "CIP56.Token".
Definition entityHolding : string := "CIP56Holding".
Definition moduleTransferFactory : string := "CIP56.TransferFactory".
Definition entityTransferFactory : string := "CIP56TransferFactory".
Definition moduleEvents : string := "CIP56.Events".
Definition spliceTransferModule : string := "Splice.Api.Token.TransferInstructionV1".
Definition spliceTransferFactory : string := "TransferFactory".
Definition transferInstrEntity : string := "TransferInstruction".
Definition acceptChoice : string := "TransferInstruction_Accept".
Definition withdrawChoice : string := "TransferInstruction_Withdraw".
Definition spliceHoldingModule : string := "Splice.Api.Token.HoldingV1".
Definition spliceHoldingEntity : string := "Holding".
Definition moduleTransferOffer : string := "Utility.Registry.App.V0.Model.Transfer".
Definition entityTransferOffer : string := "TransferOffer".

Record transferFactoryRequest := mkTransferFactoryRequest {
  tq_CommandID : string;
  tq_FromPartyID : string;
  tq_ToPartyID : string;
  tq_Amount : string;
  tq_InstrumentAdmin : string;
  tq_InstrumentID : string;
  tq_InputHoldingCIDs : list string;
  tq_FactoryCID : string;
  tq_ChoiceContext : gmap string string;
  tq_AnyValueContext : AcceptChoiceContext;
  tq_DisclosedContracts : list DisclosedContract;
  tq_IsExternal : bool;
  tq_Times : option (Z * Z);
  tq_Validity : Z;
}.

Record selectedHoldings := mkSelectedHoldings { sh_CIDs : list string; sh_InstrumentAdmin : string; sh_InstrumentID : string }.

(** ** Selection of holdings *)

Section selection.
Context `{!DecimalLib}.

Fixpoint select_loop (holdings : list Holding) (requiredAmount : string) (res : selectedHoldings) (total : string)
    : result selectedHoldings :=
  match holdings with
  | [] => Err (ErrWrap "" ErrInsufficientBalance (": total unlocked balance " +:+ total +:+ ", need " +:+ requiredAmount))
  | h :: rest =>
      if h_Locked h then select_loop rest requiredAmount res total
      else
        let first := bool_decide (sh_CIDs res = []) in
        let res' := if first then mkSelectedHoldings [] (h_InstrumentAdmin h) (h_InstrumentID h) else res in
        if negb first && (negb (bool_decide (h_InstrumentAdmin h = sh_InstrumentAdmin res)) ||
                          negb (bool_decide (h_InstrumentID h = sh_InstrumentID res)))
        then select_loop rest requiredAmount res total
        else
          let res'' := mkSelectedHoldings (sh_CIDs res' ++ [h_ContractID h]) (sh_InstrumentAdmin res') (sh_InstrumentID res') in
          match addDecimalStrings total (h_Amount h) with
          | Err e => Err e
          | Ok next =>
              match compareDecimalStrings next requiredAmount with
              | Err e => Err e
              | Ok cmp => if 0 <=? cmp then Ok res'' else select_loop rest requiredAmount res'' next
              end
          end
  end.

Definition selectHoldingsForTransfer (holdings : list Holding) (requiredAmount : string) : result selectedHoldings :=
  match holdings with
  | [] => Err (ErrWrap "" ErrInsufficientBalance ": no holdings found")
  | _ => select_loop holdings requiredAmount (mkSelectedHoldings [] "" "") "0"
  end.

(** The running total of amounts, as a text. *)
Fixpoint sum_amounts (amounts : list string) (total : string) : result string :=
  match amounts with
  | [] => Ok total
  | a :: rest => match addDecimalStrings total a with Err e => Err e | Ok next => sum_amounts rest next end
  end.
End selection.

Section client.
Context `{!Env} `{!DecimalLib}.
Variable c : Client.
Let cfg := cl_cfg c.

(** ** Issuer operations *)

Definition config_tid : Identifier := mkIdentifier (CIP56PackageID cfg) moduleConfig entityTokenConfig.
Definition holding_tid : Identifier := mkIdentifier (CIP56PackageID cfg) moduleToken entityHolding.

Definition GetTokenConfigCID (tokenSymbol : string) : M history string :=
  end_ ← GetLedgerEnd;
  if end_ =? 0 then fail (ErrNew "ledger is empty, no contracts exist")
  else
    events ← wrapping "error getting contracts: " (GetActiveContractsByTemplate end_ [IssuerParty cfg] config_tid);
    match List.find (fun ce => bool_decide (MetaSymbol (field (RecordToMap (ce_CreateArguments ce)) "meta") = tokenSymbol)) events with
    | Some ce => mret (ce_ContractId ce)
    | None => fail (ErrNew ("no active TokenConfig found for symbol " +:+ tokenSymbol))
    end.

(** Commands acting as the issuer. *)
Definition issuer_commands (commandId : string) (cmd : Command) : Commands :=
  mkCommands (DomainID cfg) commandId (UserID cfg) [IssuerParty cfg] [] [cmd] [].

Definition is_holding_event (ce : CreatedEvent) : bool :=
  match ce_TemplateId ce with
  | Some tid => bool_decide (ModuleName tid = moduleToken) && bool_decide (EntityName tid = entityHolding)
  | None => false
  end.

Definition Mint (req : MintRequest) : M history string :=
  _ ← wrapping "invalid request: " (lift (MintRequest_validate req));
  cid ← (if bool_decide (mr_ConfigCID req = ""%string) then GetTokenConfigCID (mr_TokenSymbol req) else mret (mr_ConfigCID req));
  now ← ask Now;
  let cmd := Command_Exercise config_tid cid "IssuerMint" (Value_Record (encodeIssuerMintArgs now req)) in
  commandId ← ask NewUUID;
  resp ← wrapping "mint tokens: " (rpc (SubmitAndWaitForTransaction (issuer_commands commandId cmd)));
  match resp with
  | None => fail (ErrNew "mint tokens: missing transaction in response")
  | Some events =>
      match List.find is_holding_event (omap id events) with
      | Some created => mret (ce_ContractId created)
      | None => fail (ErrNew "CIP56Holding contract not found in mint response")
      end
  end.

Definition Burn (req : BurnRequest) : M history unit :=
  _ ← wrapping "invalid request: " (lift (BurnRequest_validate req));
  configCID ← GetTokenConfigCID (br_TokenSymbol req);
  now ← ask Now;
  let cmd := Command_Exercise config_tid configCID "IssuerBurn" (Value_Record (encodeIssuerBurnArgs now req)) in
  commandId ← ask NewUUID;
  wrapping "burn tokens: " (rpc (SubmitAndWait (issuer_commands commandId cmd))).

(** ** Holdings and balances *)

Definition holding_iid : Identifier := mkIdentifier (SpliceHoldingPackageID cfg) spliceHoldingModule spliceHoldingEntity.

Definition wanted (ownerParty instrumentID : string) (h : Holding) : bool :=
  bool_decide (h_Owner h = ownerParty) &&
  (bool_decide (instrumentID = ""%string) || bool_decide (h_InstrumentID h = instrumentID)).

Definition GetHoldingsByParty (ownerParty instrumentID : string) : M history (list Holding) :=
  _ ← lift (required ownerParty "owner party is required");
  end_ ← GetLedgerEnd;
  if end_ =? 0 then mret []
  else
    events ← wrapping "query holdings by party: " (GetActiveContractsByInterface end_ [ownerParty] holding_iid);
    mret (filter (wanted ownerParty instrumentID) (decodeHolding <$> events)).

Definition GetHoldings (ownerParty tokenSymbol : string) : M history (list Holding) :=
  _ ← lift (required ownerParty "owner party is required");
  _ ← lift (required tokenSymbol "token symbol is required");
  GetHoldingsByParty ownerParty tokenSymbol.

Definition GetAllHoldings : M history (list Holding) :=
  end_ ← GetLedgerEnd;
  if end_ =? 0 then mret []
  else
    events ← wrapping "query holdings: " (GetActiveContractsByTemplate end_ [IssuerParty cfg] holding_tid);
    mret (decodeHolding <$> events).

Definition GetBalanceByPartyID (partyID tokenSymbol : string) : M history string :=
  holdings ← GetHoldings partyID tokenSymbol;
  lift (sum_amounts (h_Amount <$> holdings) "0").

Definition GetBalanceByFingerprint (fingerprint tokenSymbol : string) : M history string :=
  m ← Identity.GetFingerprintMapping (cl_identity c) fingerprint;
  GetBalanceByPartyID (Identity.fm_UserParty m) tokenSymbol.

(** The amount of an event whose metadata has the symbol. *)
Definition supply_amount (tokenSymbol : string) (ce : CreatedEvent) : option string :=
  let fields := RecordToMap (ce_CreateArguments ce) in
  if bool_decide (MetaSymbol (field fields "meta") = tokenSymbol) then Some (Numeric (field fields "amount")) else None.

Definition GetTotalSupply (tokenSymbol : string) : M history string :=
  _ ← lift (required tokenSymbol "token symbol is required");
  end_ ← GetLedgerEnd;
  if end_ =? 0 then mret "0"%string
  else
    events ← wrapping "query holdings: " (GetActiveContractsByTemplate end_ [IssuerParty cfg] holding_tid);
    lift (sum_amounts (omap (supply_amount tokenSymbol) events) "0").

Definition GetTokenTransferEvents : M history (list TokenTransferEvent) :=
  end_ ← GetLedgerEnd;
  if end_ =? 0 then mret []
  else
    events ← wrapping "query TokenTransferEvent: " (GetActiveContractsByTemplate end_ [IssuerParty cfg]
               (mkIdentifier (CIP56PackageID cfg) moduleEvents "TokenTransferEvent"));
    mret (decodeTokenTransferEvent <$> events).

(** ** Transfer factories *)

Definition queryFactoryContracts (filter : CumulativeFilter) (label : string) : M history (CreatedEvent * list CreatedEvent) :=
  end_ ← GetLedgerEnd;
  if end_ =? 0 then fail (ErrNew "ledger is empty, no contracts exist")
  else
    stream ← wrapping ("query " +:+ label +:+ ": ") (rpc (GetActiveContracts
               (mkGetActiveContractsRequest end_ [(IssuerParty cfg, [filter])] true)));
    events ← lift (collectActiveContracts ("receive " +:+ label +:+ " contract: ") stream);
    match events with
    | [] => fail ErrTransferFactoryNotFound
    | ev :: rest => mret (ev, rest)
    end.

Definition factory_info (tid : Identifier) (ev : CreatedEvent) : TransferFactoryInfo :=
  mkTransferFactoryInfo (ce_ContractId ev) (ce_CreatedEventBlob ev) tid.

Definition GetTransferFactory : M history TransferFactoryInfo :=
  let tid := mkIdentifier (CIP56PackageID cfg) moduleTransferFactory entityTransferFactory in
  events ← queryFactoryContracts (TemplateFilter tid true) "CIP56TransferFactory";
  mret (factory_info tid events.1).

Definition factory_iid : Identifier := mkIdentifier (SpliceTransferPackageID cfg) spliceTransferModule spliceTransferFactory.

Definition GetAllocationFactory : M history TransferFactoryInfo :=
  events ← queryFactoryContracts (InterfaceFilter factory_iid true) "TransferFactory interface";
  mret (factory_info factory_iid events.1).

Definition getTransferFactoryCID : M history string :=
  r ← attempt GetTransferFactory;
  match r with
  | Ok info => mret (tf_ContractID info)
  | Err e =>
      if negb (is_factory_not_found e) then fail e
      else info ← GetAllocationFactory; mret (tf_ContractID info)
  end.

Definition firstContractCID (end_ : Z) (tid : Identifier) : M history string :=
  events ← GetActiveContractsByTemplate end_ [IssuerParty cfg] tid;
  match events with
  | [] => fail (ErrNew (EntityName tid +:+ " not found on ACS"))
  | ev :: _ => mret (ce_ContractId ev)
  end.

Definition getUtilityRegistryChoiceContext : M history AcceptChoiceContext :=
  end_ ← wrapping "get ledger end: " GetLedgerEnd;
  configCID ← wrapping "InstrumentConfiguration: " (firstContractCID end_
    (mkIdentifier (UtilityRegistryPackageID cfg) "Utility.Registry.V0.Configuration.Instrument" "InstrumentConfiguration"));
  ruleCID ← wrapping "TransferRule: " (firstContractCID end_
    (mkIdentifier (UtilityRegistryPackageID cfg) "Utility.Registry.V0.Rule.Transfer" "TransferRule"));
  let avCID := fun cid => mkAnyValue "AV_ContractId" (Some (JString cid)) in
  let emptyList := mkAnyValue "AV_List" (Some (JArray [])) in
  mret (list_to_map [("utility.digitalasset.com/instrument-configuration"%string, avCID configCID);
                     ("utility.digitalasset.com/transfer-rule"%string, avCID ruleCID);
                     ("utility.digitalasset.com/sender-credentials"%string, emptyList);
                     ("utility.digitalasset.com/receiver-credentials"%string, emptyList)]).

(** The request with the factory, the contexts and the times filled in. *)
Definition resolved (req : transferFactoryRequest) (factory : string) (ctx : gmap string string) (av : AcceptChoiceContext)
    (disclosed : list DisclosedContract) (external : bool) (times : option (Z * Z)) : transferFactoryRequest :=
  mkTransferFactoryRequest (tq_CommandID req) (tq_FromPartyID req) (tq_ToPartyID req) (tq_Amount req)
    (tq_InstrumentAdmin req) (tq_InstrumentID req) (tq_InputHoldingCIDs req) factory ctx av disclosed external times
    (tq_Validity req).

Definition registry_request (req : transferFactoryRequest) (requestedAt executeBefore : Z) : RegistryRequest :=
  mkRegistryRequest (tq_InstrumentAdmin req)
    (mkRegistryTransferDetail (tq_FromPartyID req) (tq_ToPartyID req) (tq_Amount req) (tq_InstrumentAdmin req)
       (tq_InstrumentID req) (tq_InputHoldingCIDs req) (RFC3339 executeBefore) (RFC3339 requestedAt)) false.

Definition resolveTransferFactory (req : transferFactoryRequest) : M history transferFactoryRequest :=
  now ← ask Now;
  let requestedAt := now - 5 * Second in
  let executeBefore := requestedAt + tq_Validity req in
  let times := Some (requestedAt, executeBefore) in
  if bool_decide (tq_InstrumentAdmin req = IssuerParty cfg) then
    cid ← getTransferFactoryCID;
    mret (resolved req cid (tq_ChoiceContext req) (tq_AnyValueContext req) (tq_DisclosedContracts req) (tq_IsExternal req) times)
  else if negb (cl_registryClient c) then fail (ErrNew "no registry client configured for external token transfers")
  else
    match ExternalTokens cfg !! tq_InstrumentAdmin req with
    | None => fail (ErrNew ("unsupported external token issuer: " +:+ tq_InstrumentAdmin req))
    | Some registryURL =>
        regResp ← wrapping ("registry lookup for " +:+ tq_InstrumentAdmin req +:+ ": ")
          (GetTransferFactory_registry registryURL (tq_InstrumentAdmin req) (registry_request req requestedAt executeBefore));
        anyCtx ← wrapping "convert anyvalue choice context: " (lift (ConvertAnyValueChoiceContext (rs_ChoiceContext regResp)));
        contexts ← (if bool_decide (anyCtx = ∅) then
                      ctx ← wrapping "convert choice context: " (lift (ConvertChoiceContext (rs_ChoiceContext regResp)));
                      mret (ctx, tq_AnyValueContext req)
                    else mret (tq_ChoiceContext req, anyCtx));
        disclosed ← wrapping "convert disclosed contracts: "
          (lift (ConvertDisclosedContracts (rs_DisclosedContracts regResp) (DomainID cfg)));
        mret (resolved req (rs_FactoryID regResp) contexts.1 contexts.2 disclosed true times)
    end.

(** ** Transfers *)

Definition transfer_extra_args (req : transferFactoryRequest) : result Value :=
  if bool_decide (tq_AnyValueContext req = ∅) then Ok (EncodeExtraArgs (tq_ChoiceContext req))
  else
    ctxValue ← wrap "encode choice context: " (encodeChoiceContextRecord (tq_AnyValueContext req));
    mret (Value_Record [("context"%string, Some ctxValue); ("meta"%string, Some EmptyMetadata)]).

Definition transfer_command (req : transferFactoryRequest) (requestedAt executeBefore : Z) (extraArgs : Value) : Command :=
  Command_Exercise factory_iid (tq_FactoryCID req) "TransferFactory_Transfer"
    (Value_Record (encodeTransferFactoryTransferArgs (tq_InstrumentAdmin req) (tq_FromPartyID req) (tq_ToPartyID req)
      (tq_Amount req) (tq_InstrumentAdmin req) (tq_InstrumentID req) requestedAt executeBefore (tq_InputHoldingCIDs req) extraArgs)).

Definition buildTransferCommand (req : transferFactoryRequest) : M history Command :=
  times ← match tq_Times req with
          | Some t => mret t
          | None => now ← ask Now; let requestedAt := now - 5 * Second in mret (requestedAt, requestedAt + tq_Validity req)
          end;
  extraArgs ← lift (transfer_extra_args req);
  mret (transfer_command req times.1 times.2 extraArgs).

(** The checks that every transfer by party makes on its arguments. *)
Definition validate_idempotent (idempotencyKey from to amount symbol : string) (validity : Z) : result unit :=
  checks [required idempotencyKey "idempotencyKey is required"; validate_transfer from to amount symbol validity].

(** The request of a transfer before its factory is resolved. *)
Definition transfer_request (commandID from to amount : string) (selected : selectedHoldings) (validity : Z) : transferFactoryRequest :=
  mkTransferFactoryRequest commandID from to amount (sh_InstrumentAdmin selected) (sh_InstrumentID selected) (sh_CIDs selected)
    "" ∅ ∅ [] false None validity.

Definition select_inputs (from symbol amount : string) : M history selectedHoldings :=
  holdings ← GetHoldings from symbol;
  wrapping "select holdings for transfer: " (lift (selectHoldingsForTransfer holdings amount)).

(** The factory of an internal transfer, with its context. *)
Definition internal_factory : M history (string * AcceptChoiceContext) :=
  r ← attempt GetTransferFactory;
  match r with
  | Ok info => mret (tf_ContractID info, ∅)
  | Err e =>
      if is_factory_not_found e then
        allocInfo ← GetAllocationFactory;
        ctx ← (if bool_decide (UtilityRegistryPackageID cfg = ""%string) then mret ∅
               else wrapping "get utility registry choice context: " getUtilityRegistryChoiceContext);
        mret (tf_ContractID allocInfo, ctx)
      else fail e
  end.

Definition TransferInternalByPartyID (idempotencyKey fromParty toParty amount tokenSymbol : string) (validity : Z) : M history unit :=
  _ ← lift (validate_idempotent idempotencyKey fromParty toParty amount tokenSymbol validity);
  selected ← select_inputs fromParty tokenSymbol amount;
  factory ← internal_factory;
  let req := resolved (transfer_request idempotencyKey fromParty toParty amount selected validity) factory.1 ∅ factory.2 [] false None in
  cmd ← buildTransferCommand req;
  _ ← rpc (SubmitAndWaitForTransaction
       (mkCommands (DomainID cfg) idempotencyKey (UserID cfg) [fromParty] [IssuerParty cfg] [cmd] []));
  mret tt.

Definition transfer_readAs (req : transferFactoryRequest) : list string :=
  if tq_IsExternal req then [] else [IssuerParty cfg].

Definition transfer_commands (req : transferFactoryRequest) (commandId : string) (cmd : Command) : Commands :=
  mkCommands (DomainID cfg) commandId (UserID cfg) [tq_FromPartyID req] (transfer_readAs req) [cmd] (tq_DisclosedContracts req).

Definition prepare_request (cs : Commands) : PrepareSubmissionRequest :=
  mkPrepareSubmissionRequest (cs_UserId cs) (cs_CommandId cs) (cs_Commands cs) (cs_ActAs cs) (cs_ReadAs cs)
    (cs_SynchronizerId cs) (cs_DisclosedContracts cs).

Definition execute_request (prepared : list Z) (scheme : Z) (partyID submissionId userId signedBy : string) (derSig : list Z)
    : ExecuteSubmissionRequest :=
  mkExecuteSubmissionRequest prepared [(partyID, [Identity.der_signature derSig signedBy])] submissionId userId scheme.

Definition prepareAndExecuteAsUser (commands : Commands) (signerKey : Signer) (partyID : string) : M history unit :=
  prepResp ← wrapping "prepare submission: " (rpc (PrepareSubmission (prepare_request commands)));
  derSig ← wrapping "sign prepared transaction: " (lift (SignDER signerKey (pr_PreparedTransactionHash prepResp)));
  fingerprint ← wrapping "get signer fingerprint: " (lift (Fingerprint signerKey));
  submissionId ← ask NewUUID;
  wrapping "execute submission: " (rpc (ExecuteSubmissionAndWait
    (execute_request (pr_PreparedTransaction prepResp) (pr_HashingSchemeVersion prepResp) partyID submissionId
       (cs_UserId commands) fingerprint derSig))).

Definition transferViaFactory (req : transferFactoryRequest) : M history unit :=
  if negb (cl_keyResolver c) then
    fail (ErrNew "transfer failed: no key resolver configured (required for Interactive Submission)")
  else
    signerKey ← wrapping ("transfer failed: cannot resolve signing key for party " +:+ tq_FromPartyID req +:+ ": ")
      (rpc (ResolveKey (tq_FromPartyID req)));
    cmd ← buildTransferCommand req;
    prepareAndExecuteAsUser (transfer_commands req (tq_CommandID req) cmd) signerKey (tq_FromPartyID req).

Definition TransferByPartyID (idempotencyKey fromParty toParty amount tokenSymbol : string) (validity : Z) : M history unit :=
  _ ← lift (validate_idempotent idempotencyKey fromParty toParty amount tokenSymbol validity);
  selected ← select_inputs fromParty tokenSymbol amount;
  req ← resolveTransferFactory (transfer_request idempotencyKey fromParty toParty amount selected validity);
  transferViaFactory req.

Definition TransferByFingerprint (idempotencyKey fromFingerprint toFingerprint amount tokenSymbol : string) (validity : Z)
    : M history unit :=
  if validity <=? 0 then fail (ErrNew "transfer validity must be positive")
  else
    fromMap ← wrapping "sender not found: " (Identity.GetFingerprintMapping (cl_identity c) fromFingerprint);
    toMap ← wrapping "recipient not found: " (Identity.GetFingerprintMapping (cl_identity c) toFingerprint);
    TransferByPartyID idempotencyKey (Identity.fm_UserParty fromMap) (Identity.fm_UserParty toMap) amount tokenSymbol validity.

(** ** External wallets *)

(** Prepare commands for signing; the id of the transfer is drawn after. *)
Definition prepare_external (cs : Commands) (partyID : string) (expires : M history Z) : M history PreparedTransfer :=
  prepResp ← wrapping "prepare submission: " (rpc (PrepareSubmission (prepare_request cs)));
  transferId ← ask NewUUID;
  expiresAt ← expires;
  mret (mkPreparedTransfer transferId (pr_PreparedTransactionHash prepResp) (pr_PreparedTransaction prepResp)
          (pr_HashingSchemeVersion prepResp) partyID expiresAt).

Definition PrepareTransfer (req : PrepareTransferRequest) : M history PreparedTransfer :=
  _ ← wrapping "invalid request: " (lift (PrepareTransferRequest_validate req));
  selected ← select_inputs (pt_FromPartyID req) (pt_TokenSymbol req) (pt_Amount req);
  factoryReq ← resolveTransferFactory (transfer_request "" (pt_FromPartyID req) (pt_ToPartyID req) (pt_Amount req) selected (pt_Validity req));
  cmd ← buildTransferCommand factoryReq;
  commandId ← ask NewUUID;
  prepare_external (transfer_commands factoryReq commandId cmd) (pt_FromPartyID req) (mret zero_time).

Definition ExecuteTransfer (req : ExecuteTransferRequest) : M history unit :=
  _ ← wrapping "invalid request: " (lift (ExecuteTransferRequest_validate req));
  match er_PreparedTransfer req with
  | None => fail (ErrNew "prepared transfer is required")
  | Some pt =>
      submissionId ← ask NewUUID;
      wrapping "execute submission: " (rpc (ExecuteSubmissionAndWait
        (execute_request (p_PreparedTransaction pt) (p_HashingSchemeVersion pt) (p_PartyID pt) submissionId (UserID cfg)
           (er_SignedBy req) (er_Signature req))))
  end.

(** ** Transfer instructions *)

Definition FindPendingInboundTransferInstructions (partyID : string) : M history (list string) :=
  _ ← lift (required partyID "partyID is required");
  _ ← lift (required (UtilityRegistryAppPackageID cfg) "utility_registry_app_package_id not configured");
  end_ ← GetLedgerEnd;
  if end_ =? 0 then mret []
  else
    events ← wrapping "query pending TransferOffers: " (GetActiveContractsByTemplate end_ [partyID]
               (mkIdentifier (UtilityRegistryAppPackageID cfg) moduleTransferOffer entityTransferOffer));
    mret (ce_ContractId <$> events).

(** The registry's choice context for an action on an instruction. *)
Definition action_context (action registryURL instrumentAdmin instructionCID : string) : M history AcceptContextResponse :=
  if bool_decide (action = "accept"%string) then GetAcceptChoiceContext registryURL instrumentAdmin instructionCID
  else GetWithdrawChoiceContext registryURL instrumentAdmin instructionCID.

Definition instruction_command (instructionCID choice : string) (ctxValue : Value) : Command :=
  let extraArgs := Value_Record [("context"%string, Some ctxValue); ("meta"%string, Some EmptyMetadata)] in
  Command_Exercise (mkIdentifier (SpliceTransferPackageID cfg) spliceTransferModule transferInstrEntity) instructionCID choice
    (Value_Record [("extraArgs"%string, Some extraArgs)]).

Definition buildInstructionChoiceCommand (instructionCID instrumentAdmin action choice : string)
    : M history (Command * list DisclosedContract) :=
  if negb (cl_registryClient c) then fail (ErrNew ("no registry client configured for " +:+ action))
  else match ExternalTokens cfg !! instrumentAdmin with
  | None => fail (ErrNew ("unsupported external token issuer: " +:+ instrumentAdmin))
  | Some registryURL =>
      if negb (bool_decide (action = "accept"%string)) && negb (bool_decide (action = "withdraw"%string)) then
        fail (ErrNew ("unsupported instruction action: " +:+ action))
      else
        ctxResp ← wrapping ("get " +:+ action +:+ " choice context: ") (action_context action registryURL instrumentAdmin instructionCID);
        ctxValue ← wrapping "encode choice context: " (lift (encodeChoiceContextRecord (ac_ChoiceContextData ctxResp)));
        disclosed ← wrapping "convert disclosed contracts: "
          (lift (convertDisclosedContractSlice (ac_DisclosedContracts ctxResp) (DomainID cfg)));
        mret (instruction_command instructionCID choice ctxValue, disclosed)
  end.

Definition validate_instruction (partyID instructionCID instrumentAdmin : string) : result unit :=
  if bool_decide (partyID = ""%string) || bool_decide (instructionCID = ""%string) || bool_decide (instrumentAdmin = ""%string)
  then Err (ErrNew "partyID, instructionCID, and instrumentAdmin are required") else Ok tt.

Definition exerciseInstructionAsCustodial (partyID : string) (cmd : Command) (disclosed : list DisclosedContract) : M history unit :=
  if negb (cl_keyResolver c) then
    fail (ErrNew "no key resolver configured (custodial instruction exercise requires the api-server to hold the user's signing key)")
  else
    signerKey ← wrapping ("resolve signing key for " +:+ partyID +:+ ": ") (rpc (ResolveKey partyID));
    commandId ← ask NewUUID;
    prepareAndExecuteAsUser (mkCommands (DomainID cfg) commandId (UserID cfg) [partyID] [] [cmd] disclosed) signerKey partyID.

(** The custodial exercise of a choice on an instruction. *)
Definition exercise_instruction (partyID instructionCID instrumentAdmin action choice pre : string) : M history unit :=
  _ ← lift (validate_instruction partyID instructionCID instrumentAdmin);
  r ← buildInstructionChoiceCommand instructionCID instrumentAdmin action choice;
  wrapping pre (exerciseInstructionAsCustodial partyID r.1 r.2).

Definition AcceptTransferInstruction (partyID instructionCID instrumentAdmin : string) : M history unit :=
  exercise_instruction partyID instructionCID instrumentAdmin "accept" acceptChoice "accept transfer instruction: ".

Definition WithdrawTransferInstruction (partyID instructionCID instrumentAdmin : string) : M history unit :=
  exercise_instruction partyID instructionCID instrumentAdmin "withdraw" withdrawChoice "withdraw transfer instruction: ".

Definition prepareInstructionTx (partyID : string) (cmd : Command) (disclosed : list DisclosedContract) : M history PreparedTransfer :=
  commandId ← ask NewUUID;
  prepare_external (mkCommands (DomainID cfg) commandId (UserID cfg) [partyID] [] [cmd] disclosed) partyID
    (now ← ask Now; mret (now + preparedTxCacheTTL)).

(** The preparation of a choice on an instruction for external signing. *)
Definition prepare_instruction (partyID instructionCID instrumentAdmin action choice : string) : M history PreparedTransfer :=
  _ ← lift (validate_instruction partyID instructionCID instrumentAdmin);
  r ← buildInstructionChoiceCommand instructionCID instrumentAdmin action choice;
  prepareInstructionTx partyID r.1 r.2.

Definition PrepareAcceptTransfer (partyID instructionCID instrumentAdmin : string) : M history PreparedTransfer :=
  prepare_instruction partyID instructionCID instrumentAdmin "accept" acceptChoice.

Definition PrepareWithdrawTransfer (partyID instructionCID instrumentAdmin : string) : M history PreparedTransfer :=
  prepare_instruction partyID instructionCID instrumentAdmin "withdraw" withdrawChoice.
End client.
