(* ===== verification/TokenClientProofs.v ===== *)
(** * The token client: theorems

    The selection of holdings, the balances, and what the transfers of the
    three kinds of party submit to the ledger, for every environment. *)

From S2P Require Import Prelude AppErrors Effects GoStd GoText Decimal DamlValues Streaming LedgerApi TokenCodec LedgerClient Identity TokenRegistry TokenClient.
From Stdlib Require Import QArith Qcanon Ascii String.
Local Open Scope Z_scope.
Local Abbreviation length := Datatypes.length.

(** ** Selection of holdings *)

Section selection.
Context `{DecimalLaws}.

(** The number of an amount. *)
Definition amount_val (s : string) : Qc := match NewFromString s with Some d => dec_val d | None => 0%Qc end.
Definition sum_vals (amounts : list string) : Qc := foldr (fun a n => (amount_val a + n)%Qc) 0%Qc amounts.
Definition worth (l : list Holding) : Qc := sum_vals (h_Amount <$> l).

(** The holdings that a transfer of an instrument may use. *)
Definition eligible (admin id : string) (h : Holding) : bool :=
  negb (h_Locked h) && (bool_decide (h_InstrumentAdmin h = admin) && bool_decide (h_InstrumentID h = id)).

(** Running out of funds, as the callers tell it. *)
Definition insufficient (e : error) : bool := errors_Is e "token.ErrInsufficientBalance" "insufficient balance".

Lemma sum_vals_app a b : sum_vals (a ++ b) = (sum_vals a + sum_vals b)%Qc.
Proof.
  unfold sum_vals. induction a as [|x a IH]; cbn [foldr app]; [by rewrite Qcplus_0_l|]. by rewrite IH, Qcplus_assoc.
Qed.

Lemma worth_app a b : worth (a ++ b) = (worth a + worth b)%Qc.
Proof. unfold worth. by rewrite fmap_app, sum_vals_app. Qed.

Lemma worth_one h : worth [h] = amount_val (h_Amount h).
Proof. unfold worth. cbn. apply Qcplus_0_r. Qed.

(** Adding texts adds numbers. *)
Lemma addDecimalStrings_ok a b c :
  addDecimalStrings a b = Ok c -> is_Some (NewFromString c) /\ amount_val c = (amount_val a + amount_val b)%Qc.
Proof.
  unfold addDecimalStrings, parse_decimal, amount_val.
  destruct (NewFromString a) as [da|]; [|done]. destruct (NewFromString b) as [db|]; [|done]. intros [= <-].
  destruct (dlaw_parse_string (dec_Add da db)) as (d & -> & Hd). by rewrite Hd, dlaw_add.
Qed.

Lemma compareDecimalStrings_ok a b n :
  compareDecimalStrings a b = Ok n -> (0 <= n <-> (amount_val b <= amount_val a)%Qc).
Proof.
  unfold compareDecimalStrings, parse_decimal, amount_val.
  destruct (NewFromString a) as [da|]; [|done]. destruct (NewFromString b) as [db|]; [|done]. intros [= <-].
  apply dlaw_cmp.
Qed.

Lemma parse_errors a b e :
  (addDecimalStrings a b = Err e \/ compareDecimalStrings a b = Err e) ->
  insufficient e = false /\ (NewFromString a = None \/ NewFromString b = None).
Proof.
  unfold addDecimalStrings, compareDecimalStrings, parse_decimal.
  intros [E|E]; destruct (NewFromString a), (NewFromString b); simplify_eq; auto.
Qed.

(** A text that is the total of some holdings. *)
Definition totals (total : string) (acc : list Holding) : Prop :=
  is_Some (NewFromString total) /\ amount_val total = worth acc.

(** An amount that does not parse. *)
Definition malformed (required : string) (l : list Holding) : Prop :=
  NewFromString required = None \/ Exists (fun h => NewFromString (h_Amount h) = None) l.

(** What is chosen: the shortest prefix of the eligible holdings that covers
    the amount, after those already taken. *)
Definition chosen (acc run : list Holding) (admin id required : string) (sel : selectedHoldings) : Prop :=
  exists k, (0 < k <= length run)%nat /\
    sel = mkSelectedHoldings (h_ContractID <$> acc ++ take k run) admin id /\
    (amount_val required <= worth (acc ++ take k run))%Qc /\
    forall j, (j < k)%nat -> (0 < length (acc ++ take j run))%nat -> (worth (acc ++ take j run) < amount_val required)%Qc.

Definition selection_result (acc run : list Holding) (admin id required : string) (r : result selectedHoldings) : Prop :=
  match r with
  | Ok sel => chosen acc run admin id required sel
  | Err e => if insufficient e then (worth (acc ++ run) < amount_val required)%Qc else malformed required run
  end.

Lemma selection_cons acc h run admin id required r :
  (worth (acc ++ [h]) < amount_val required)%Qc ->
  (acc <> [] -> (worth acc < amount_val required)%Qc) ->
  selection_result (acc ++ [h]) run admin id required r ->
  selection_result acc (h :: run) admin id required r.
Proof.
  intros Hlt Hacc. destruct r as [sel|e]; cbn.
  - intros (k & Hk & -> & Hge & Hmin). exists (S k). cbn [take length]. rewrite <- app_assoc in Hge. cbn in Hge.
    split; [lia|]. rewrite <- app_assoc. split; [done|]. split; [done|].
    intros [|j] Hj Hl.
    + cbn [take] in *. rewrite app_nil_r in *. apply Hacc. intros ->. cbn in Hl. lia.
    + cbn [take]. specialize (Hmin j). rewrite <- app_assoc in Hmin. cbn in Hmin. apply Hmin; [lia|].
      rewrite length_app. cbn. lia.
  - rewrite <- app_assoc. cbn. destruct (insufficient e); [done|]. intros [|]; [by left|right; by constructor].
Qed.

(** Taking the first eligible holding. *)
Lemma select_step acc h run admin id required total (k : string -> result selectedHoldings) :
  totals total acc -> (acc <> [] -> (worth acc < amount_val required)%Qc) ->
  (forall next, totals next (acc ++ [h]) -> (worth (acc ++ [h]) < amount_val required)%Qc ->
     selection_result (acc ++ [h]) run admin id required (k next)) ->
  selection_result acc (h :: run) admin id required
    match addDecimalStrings total (h_Amount h) with
    | Err e => Err e
    | Ok next =>
        match compareDecimalStrings next required with
        | Err e => Err e
        | Ok cmp => if 0 <=? cmp then Ok (mkSelectedHoldings (h_ContractID <$> acc ++ [h]) admin id) else k next
        end
    end.
Proof.
  intros [Hsome Ht] Hacc Hk. destruct (addDecimalStrings total (h_Amount h)) as [next|e] eqn:Ha.
  2:{ cbn. destruct (parse_errors total (h_Amount h) e) as [-> [Hp|Hp]]; [auto| |].
      - rewrite Hp in Hsome. by destruct Hsome.
      - right. by left. }
  apply addDecimalStrings_ok in Ha as [Hsome' Hn]. rewrite Ht, <- worth_one, <- worth_app in Hn.
  destruct (compareDecimalStrings next required) as [cmp|e] eqn:Hc.
  2:{ cbn. destruct (parse_errors next required e) as [-> [Hp|Hp]]; [auto| |by left].
      rewrite Hp in Hsome'. by destruct Hsome'. }
  apply compareDecimalStrings_ok in Hc. rewrite Hn in Hc. destruct (Z.leb_spec 0 cmp) as [Hle|Hlt].
  - cbn. exists 1%nat. cbn [take length]. split; [lia|]. split; [done|]. split; [by apply Hc|].
    intros [|j] Hj Hl; [|lia]. cbn [take] in *. rewrite app_nil_r in *. apply Hacc. intros ->. cbn in Hl. lia.
  - assert (worth (acc ++ [h]) < amount_val required)%Qc as Hw.
    { apply Qcnot_le_lt. intros Hge%Hc. lia. }
    apply selection_cons; [done..|]. by apply Hk.
Qed.

Lemma filter_bool_cons {A} (f : A -> bool) x l :
  filter f (x :: l) = if f x then x :: filter f l else filter f l.
Proof. rewrite filter_cons. case_decide as E; destruct (f x); done. Qed.

Lemma select_loop_run holdings required acc admin id total :
  acc <> [] -> totals total acc -> (worth acc < amount_val required)%Qc ->
  selection_result acc (filter (eligible admin id) holdings) admin id required
    (select_loop holdings required (mkSelectedHoldings (h_ContractID <$> acc) admin id) total).
Proof.
  revert acc total. induction holdings as [|h rest IH]; intros acc total Hne Ht Hlt.
  { cbn. by rewrite app_nil_r. }
  cbn [select_loop sh_CIDs sh_InstrumentAdmin sh_InstrumentID]. rewrite filter_bool_cons. unfold eligible at 1.
  destruct (h_Locked h); cbn [negb andb]; [by apply IH|].
  rewrite (bool_decide_eq_false_2 (h_ContractID <$> acc = [])) by (by intros E%fmap_nil_inv). cbn [negb andb].
  destruct (bool_decide (h_InstrumentAdmin h = admin)) eqn:Ea; cbn [negb orb andb]; [|by apply IH].
  destruct (bool_decide (h_InstrumentID h = id)) eqn:Ei; cbn [negb orb andb]; [|by apply IH].
  cbn [sh_CIDs sh_InstrumentAdmin sh_InstrumentID].
  assert ((h_ContractID <$> acc) ++ [h_ContractID h] = h_ContractID <$> acc ++ [h]) as -> by (by rewrite fmap_app).
  apply (select_step acc h _ admin id required total
    (select_loop rest required (mkSelectedHoldings (h_ContractID <$> acc ++ [h]) admin id))); [done..|].
  intros next Hn Hw. apply IH; [by destruct acc|done..].
Qed.

(** The instrument of a transfer: that of the first unlocked holding. *)
Definition first_unlocked (holdings : list Holding) : option Holding := List.find (fun h => negb (h_Locked h)) holdings.

(** The selection of inputs.  A selection takes the instrument of the first
    unlocked holding and the shortest prefix of the unlocked holdings of that
    instrument whose amounts cover the transfer: no locked holding, no holding
    of another instrument and none beyond what is needed is spent.  When the
    selection reports an insufficient balance, the unlocked holdings of that
    instrument together do not cover the amount (or every holding is locked);
    any other error means that an amount does not parse. *)
Theorem selectHoldings_correct holdings required :
  match selectHoldingsForTransfer holdings required, first_unlocked holdings with
  | Ok sel, Some f =>
      chosen [] (filter (eligible (h_InstrumentAdmin f) (h_InstrumentID f)) holdings)
        (h_InstrumentAdmin f) (h_InstrumentID f) required sel
  | Ok _, None => False
  | Err e, Some f =>
      let run := filter (eligible (h_InstrumentAdmin f) (h_InstrumentID f)) holdings in
      if insufficient e then (worth run < amount_val required)%Qc else malformed required run
  | Err e, None => insufficient e = true
  end.
Proof.
  unfold selectHoldingsForTransfer.
  set (loop l := select_loop l required (mkSelectedHoldings [] "" "") "0").
  assert (match first_unlocked holdings with
          | Some f => selection_result [] (filter (eligible (h_InstrumentAdmin f) (h_InstrumentID f)) holdings)
                        (h_InstrumentAdmin f) (h_InstrumentID f) required (loop holdings)
          | None => exists e, loop holdings = Err e /\ insufficient e = true
          end) as Hloop.
  { subst loop. cbv beta. induction holdings as [|h rest IH]; [by eexists|]. cbn [select_loop first_unlocked List.find sh_CIDs].
    rewrite bool_decide_eq_true_2 by done. cbn [negb andb sh_CIDs sh_InstrumentAdmin sh_InstrumentID app].
    unfold first_unlocked. cbn [List.find].
    destruct (h_Locked h) eqn:Hl; cbn [negb].
    - fold (first_unlocked rest). destruct (first_unlocked rest) as [f|]; [|done].
      rewrite filter_bool_cons. unfold eligible at 1. rewrite Hl. exact IH.
    - rewrite filter_bool_cons. unfold eligible at 1. rewrite Hl, !bool_decide_eq_true_2 by done. cbn [negb andb].
      refine (select_step [] h (filter (eligible (h_InstrumentAdmin h) (h_InstrumentID h)) rest)
        (h_InstrumentAdmin h) (h_InstrumentID h) required "0"
        (select_loop rest required (mkSelectedHoldings [h_ContractID h] (h_InstrumentAdmin h) (h_InstrumentID h))) _ _ _); [|done|].
      + destruct dlaw_parse_zero as (d & Hd & Hv). split; [by eexists|]. unfold amount_val. by rewrite Hd, Hv.
      + intros next Hn Hw. by apply (select_loop_run rest required [h]). }
  destruct holdings as [|h rest]; [done|].
  change (select_loop (h :: rest) required (mkSelectedHoldings [] "" "") "0") with (loop (h :: rest)).
  destruct (first_unlocked (h :: rest)); [|by destruct Hloop as (e & -> & He)].
  destruct (loop (h :: rest)); exact Hloop.
Qed.
End selection.

(** ** What the client submits *)

Section submissions.
Context `{!Env} `{!DecimalLib}.
Variable c : Client.

Ltac emits_tac := repeat (first [apply emits_bind | apply emits_wrapping | apply emits_attempt]; intros); eauto with emits.

Lemma emits_GetHoldings o s : emits read_only (GetHoldings c o s).
Proof.
  unfold GetHoldings, GetHoldingsByParty. do 3 (apply emits_bind; [apply emits_lift|intros _]).
  apply emits_bind; [apply emits_GetLedgerEnd|]. intros e. destruct (e =? 0); [apply emits_ret|]. emits_tac.
Qed.

Lemma emits_select_inputs f s a : emits read_only (select_inputs c f s a).
Proof. unfold select_inputs. apply emits_bind; [apply emits_GetHoldings|]. intros. emits_tac. Qed.

Lemma emits_queryFactory f l : emits read_only (queryFactoryContracts c f l).
Proof.
  unfold queryFactoryContracts. apply emits_bind; [apply emits_GetLedgerEnd|]. intros e. destruct (e =? 0); [apply emits_fail|].
  apply emits_bind; [by apply emits_wrapping, emits_rpc|]. intros st. apply emits_bind; [apply emits_lift|].
  intros [|ev rest]; eauto with emits.
Qed.

Lemma emits_GetTransferFactory : emits read_only (GetTransferFactory c).
Proof. apply emits_bind; [apply emits_queryFactory|]. eauto with emits. Qed.

Lemma emits_GetAllocationFactory : emits read_only (GetAllocationFactory c).
Proof. apply emits_bind; [apply emits_queryFactory|]. eauto with emits. Qed.

Lemma emits_getTransferFactoryCID : emits read_only (getTransferFactoryCID c).
Proof.
  apply emits_bind; [apply emits_attempt, emits_GetTransferFactory|]. intros [i|e]; [apply emits_ret|].
  destruct (negb (is_factory_not_found e)); [apply emits_fail|].
  apply emits_bind; [apply emits_GetAllocationFactory|]. eauto with emits.
Qed.

Lemma emits_firstContractCID e tid : emits read_only (firstContractCID c e tid).
Proof. apply emits_bind; [apply emits_ByTemplate|]. intros [|ev l]; eauto with emits. Qed.

Lemma emits_internal_factory : emits read_only (internal_factory c).
Proof.
  apply emits_bind; [apply emits_attempt, emits_GetTransferFactory|]. intros [i|e]; [apply emits_ret|].
  destruct (is_factory_not_found e); [|apply emits_fail].
  apply emits_bind; [apply emits_GetAllocationFactory|]. intros a. apply emits_bind; [|eauto with emits].
  case_bool_decide; [apply emits_ret|]. apply emits_wrapping. unfold getUtilityRegistryChoiceContext.
  apply emits_bind; [apply emits_wrapping, emits_GetLedgerEnd|]. intros end_.
  do 2 (apply emits_bind; [apply emits_wrapping, emits_firstContractCID|]; intros ?). apply emits_ret.
Qed.

Lemma emits_resolveTransferFactory req : emits read_only (resolveTransferFactory c req).
Proof.
  apply emits_bind; [by apply emits_ask|]. intros now. case_bool_decide.
  { apply emits_bind; [apply emits_getTransferFactoryCID|]. eauto with emits. }
  destruct (negb (cl_registryClient c)); [apply emits_fail|]. case_match; [|apply emits_fail].
  apply emits_bind; [apply emits_wrapping, emits_post_json|]. intros resp.
  apply emits_bind; [apply emits_wrapping, emits_lift|]. intros av.
  apply emits_bind; [case_bool_decide; emits_tac|]. intros ctx. emits_tac.
Qed.

Lemma emits_buildTransferCommand req : emits read_only (buildTransferCommand c req).
Proof.
  apply emits_bind; [destruct (tq_Times req); [apply emits_ret|]; apply emits_bind; [by apply emits_ask|eauto with emits]|].
  intros t. apply emits_bind; [apply emits_lift|]. eauto with emits.
Qed.

Lemma emits_buildInstruction i a act ch : emits read_only (buildInstructionChoiceCommand c i a act ch).
Proof.
  unfold buildInstructionChoiceCommand. destruct (negb _); [apply emits_fail|]. case_match; [|apply emits_fail].
  destruct (_ && _); [apply emits_fail|]. apply emits_bind.
  { apply emits_wrapping. unfold action_context. case_bool_decide; apply emits_post_json. }
  intros. emits_tac.
Qed.

(** The request that resolution returns is the one it was given, with the
    factory, the contexts and the times filled in. *)
Definition same_transfer (req req' : transferFactoryRequest) : Prop :=
  exists factory ctx av disclosed external now,
    req' = resolved req factory ctx av disclosed external (Some (now, now + tq_Validity req)).

Lemma resolve_same req h :
  wp (resolveTransferFactory c req) (fun r _ => match r with Ok req' => same_transfer req req' | Err _ => True end) h.
Proof.
  unfold resolveTransferFactory. apply wp_bind, wp_ask. intros now. case_bool_decide.
  { apply wp_bind, wp_intro. intros [cid|e] h' _; [|done]. apply wp_ret. unfold same_transfer. eauto 10. }
  destruct (negb (cl_registryClient c)); [done|]. destruct (ExternalTokens (cl_cfg c) !! _); [|done].
  apply wp_bind, wp_intro. intros [resp|e] h1 _; [|done].
  apply wp_bind, wp_intro. intros [av|e] h2 _; [|done].
  apply wp_bind, wp_intro. intros [ctx|e] h3 _; [|done].
  apply wp_bind, wp_intro. intros [disclosed|e] h4 _; [|done].
  apply wp_ret. unfold same_transfer. eauto 10.
Qed.

(** The interactive submission of commands as a party whose key is known. *)
Definition signed_submission (cs : Commands) (party : string) (signer : Signer) (h h' : history) : Prop :=
  exists resp sig fp sid new, h' = h ++ new /\
    SignDER signer (pr_PreparedTransactionHash resp) = Ok sig /\ Fingerprint signer = Ok fp /\
    effects h' = (executed h ++ [execute_request (pr_PreparedTransaction resp) (pr_HashingSchemeVersion resp) party sid
                                   (cs_UserId cs) fp sig],
                  submitted h, prepared h ++ [(prepare_request cs, resp)]).

Definition nothing_executed (h h' : history) : Prop := executed h' = executed h /\ submitted h' = submitted h.

Lemma effects_nothing h h' : effects h' = effects h -> nothing_executed h h'.
Proof. by intros [= H1 H2 _]. Qed.

Lemma wp_prepareAndExecute cs signer party h :
  wp (prepareAndExecuteAsUser cs signer party) (fun r h' =>
    (nothing_executed h h' /\ is_ok r = false) \/ signed_submission cs party signer h h') h.
Proof.
  unfold prepareAndExecuteAsUser. apply wp_bind, wp_wrapping, wp_rpc. intros [resp|e].
  2:{ left. unfold nothing_executed, executed, submitted. rewrite !omap_app. cbn. by rewrite !app_nil_r. }
  cbn [wrap]. apply wp_bind, wp_wrapping, wp_lift. destruct (SignDER signer _) as [sig|e] eqn:Hs.
  2:{ left. unfold nothing_executed, executed, submitted. rewrite !omap_app. cbn. by rewrite !app_nil_r. }
  cbn [wrap]. apply wp_bind, wp_wrapping, wp_lift. destruct (Fingerprint signer) as [fp|e] eqn:Hf.
  2:{ left. unfold nothing_executed, executed, submitted. rewrite !omap_app. cbn. by rewrite !app_nil_r. }
  cbn [wrap]. apply wp_bind, wp_ask. intros sid. apply wp_wrapping, wp_rpc. intros r. right.
  exists resp, sig, fp, sid. eexists. split; [by rewrite <- !app_assoc|]. split; [done|]. split; [done|].
  unfold effects, executed, submitted, prepared. rewrite !omap_app. cbn. by rewrite !app_nil_r.
Qed.

Lemma signed_submission_effects cs party signer h h1 h' :
  effects h = effects h1 -> (exists new, h1 = h ++ new) ->
  signed_submission cs party signer h1 h' -> signed_submission cs party signer h h'.
Proof.
  intros [= He Hs Hp] (n & ->) (resp & sig & fp & sid & new & -> & H1 & H2 & H3).
  exists resp, sig, fp, sid, (n ++ new). rewrite He, Hs, Hp. by rewrite app_assoc.
Qed.

Lemma wp_buildTransferCommand req now h :
  tq_Times req = Some (now, now + tq_Validity req) ->
  wp (buildTransferCommand c req) (fun r h' => h' = h /\
    match r with Ok cmd => exists extra, cmd = transfer_command c req now (now + tq_Validity req) extra | Err _ => True end) h.
Proof.
  intros Ht. unfold buildTransferCommand. rewrite Ht. apply wp_bind, wp_ret, wp_bind, wp_lift.
  destruct (transfer_extra_args req); [|done]. apply wp_ret. eauto.
Qed.

(** The one submission of a transfer, spelled out: it acts as the sender alone
    and moves the amount from sender to receiver out of the selected holdings. *)
Definition transfer_submission (req : transferFactoryRequest) (key from to amount : string) (sel : selectedHoldings)
    (requestedAt executeBefore : Z) (extra : Value) : Commands :=
  mkCommands (DomainID (cl_cfg c)) key (UserID (cl_cfg c)) [from] (if tq_IsExternal req then [] else [IssuerParty (cl_cfg c)])
    [Command_Exercise (factory_iid c) (tq_FactoryCID req) "TransferFactory_Transfer"
       (Value_Record (encodeTransferFactoryTransferArgs (sh_InstrumentAdmin sel) from to amount (sh_InstrumentAdmin sel) (sh_InstrumentID sel)
          requestedAt executeBefore (sh_CIDs sel) extra))]
    (tq_DisclosedContracts req).

Lemma transfer_submission_eq cid key from to amount sel validity req requestedAt executeBefore extra :
  same_transfer (transfer_request cid from to amount sel validity) req ->
  transfer_commands c req key (transfer_command c req requestedAt executeBefore extra) =
  transfer_submission req key from to amount sel requestedAt executeBefore extra.
Proof. by intros (factory & ctx & av & disclosed & ext & now & ->). Qed.

Lemma wp_transferViaFactory key from to amount sel validity req h :
  same_transfer (transfer_request key from to amount sel validity) req ->
  wp (transferViaFactory c req) (fun r h' =>
    (nothing_executed h h' /\ is_ok r = false) \/
    exists extra now signer, Exchange (ResolveKey from) (Ok signer) ∈ h' /\
      signed_submission (transfer_commands c req key (transfer_command c req now (now + validity) extra)) from signer h h') h.
Proof.
  intros (factory & ctx & av & disclosed & ext & now & ->). unfold transferViaFactory.
  destruct (negb (cl_keyResolver c)); [by left|].
  apply wp_bind, wp_wrapping, wp_rpc. intros r. cbn [wrap].
  assert (effects (h ++ [Exchange (ResolveKey from) r]) = effects h) as Hkey by (by apply effects_snoc).
  destruct r as [signer|e]; [|left; auto using effects_nothing]. cbn [wrap].
  apply wp_bind. eapply wp_mono; [by apply (wp_buildTransferCommand _ now)|]. intros [cmd|e] h' [-> Hcmd].
  2:{ left. auto using effects_nothing. }
  destruct Hcmd as [extra ->]. eapply wp_mono; [apply wp_prepareAndExecute|]. cbv beta.
  intros r h' [[Hn Hr]|Hsub].
  - left. split; [|done]. apply effects_nothing in Hkey. unfold nothing_executed in *. destruct Hn as [-> ->]. done.
  - right. exists extra, now, signer. split.
    + destruct Hsub as (? & ? & ? & ? & new & -> & _). set_solver.
    + eapply signed_submission_effects; [done|by eexists|done].
Qed.

(** What a custodial transfer comes to: nothing and an error, or one signed
    submission of the transfer command. *)
Definition custodial_transfer (key from to amount symbol : string) (validity : Z) (h : history) (r : result unit) (h' : history) : Prop :=
  (nothing_executed h h' /\ is_ok r = false) \/
  exists holdings sel req extra requestedAt signer,
    (GetHoldings c from symbol h).1 = Ok holdings /\ selectHoldingsForTransfer holdings amount = Ok sel /\
    same_transfer (transfer_request key from to amount sel validity) req /\
    Exchange (ResolveKey from) (Ok signer) ∈ h' /\
    signed_submission (transfer_submission req key from to amount sel requestedAt (requestedAt + validity) extra) from signer h h'.

Lemma wp_TransferByPartyID key from to amount symbol validity h :
  wp (TransferByPartyID c key from to amount symbol validity) (custodial_transfer key from to amount symbol validity h) h.
Proof.
  unfold TransferByPartyID. apply wp_bind, wp_lift. destruct (validate_idempotent _ _ _ _ _ _); [|by left].
  apply wp_bind. unfold select_inputs. apply wp_bind. apply wp_read_only; [apply emits_GetHoldings|].
  intros [holdings|e] n1 Hh H1; [|left; auto using effects_nothing]. apply wp_wrapping, wp_lift.
  destruct (selectHoldingsForTransfer holdings amount) as [sel|e] eqn:Hsel; cbn [wrap]; [|left; auto using effects_nothing].
  apply wp_bind, wp_read_only; [apply emits_resolveTransferFactory|]. intros r n2 Hres H2.
  pose proof (wp_run _ _ _ _ _ (resolve_same _ _) Hres) as Hsame. cbv beta in Hsame.
  destruct r as [req|e]; [|left; split; [apply effects_nothing; congruence|done]].
  eapply wp_mono; [exact (wp_transferViaFactory _ _ _ _ _ _ _ _ Hsame)|]. cbv beta.
  intros r h' [[Hn Hr]|(extra & now & signer & Hkey & Hsub)].
  - left. split; [|done]. unfold nothing_executed in *. destruct Hn as [-> ->].
    rewrite H1 in H2. injection H2 as -> -> _. done.
  - right. exists holdings, sel, req, extra, now, signer. rewrite Hh. split_and!; try done.
    rewrite <- (transfer_submission_eq _ _ _ _ _ _ _ _ _ _ _ Hsame).
    apply (signed_submission_effects _ _ _ h ((h ++ n1) ++ n2)); [congruence|eexists; by rewrite <- app_assoc|done].
Qed.

(** C15: a custodial transfer submits at most one transaction, and the right one.
    Whatever the ledger, the registry, the clock and the key store answer,
    either nothing is executed and the caller gets an error, or exactly one
    prepared transaction is executed: it was prepared from a single
    TransferFactory_Transfer command that acts only as the sender, carries the
    idempotency key as its command id, moves the requested amount from sender
    to receiver out of the holdings selected from the sender's own, and
    expires after the requested validity; and it is signed over the hash the
    ledger returned with the key resolved for the sender. *)
Theorem TransferByPartyID_submits key from to amount symbol validity h r h' :
  TransferByPartyID c key from to amount symbol validity h = (r, h') ->
  custodial_transfer key from to amount symbol validity h r h'.
Proof. intros Hrun. exact (wp_run _ _ _ _ _ (wp_TransferByPartyID key from to amount symbol validity h) Hrun). Qed.


(** What a custodial exercise of a choice comes to. *)
Definition custodial_exercise (partyID instruction choice : string) (h : history) (r : result unit) (h' : history) : Prop :=
  (nothing_executed h h' /\ is_ok r = false) \/
  cl_keyResolver c = true /\
  exists ctxValue disclosed commandId signer,
    Exchange (ResolveKey partyID) (Ok signer) ∈ h' /\
    signed_submission (mkCommands (DomainID (cl_cfg c)) commandId (UserID (cl_cfg c)) [partyID] []
      [instruction_command c instruction choice ctxValue] disclosed) partyID signer h h'.

Lemma wp_exercise_instruction partyID instruction admin action choice pre h :
  wp (exercise_instruction c partyID instruction admin action choice pre) (custodial_exercise partyID instruction choice h) h.
Proof.
  unfold exercise_instruction. apply wp_bind, wp_lift. destruct (validate_instruction _ _ _); [|by left].
  apply wp_bind, wp_read_only; [apply emits_buildInstruction|]. intros r n1 Hb H1.
  destruct r as [[cmd disclosed]|e]; [|left; auto using effects_nothing].
  assert (exists ctxValue, cmd = instruction_command c instruction choice ctxValue) as [ctxValue ->].
  { eapply (wp_run _ (fun r _ => match r with Ok (cmd, _) => exists v, cmd = instruction_command c instruction choice v | Err _ => True end)
      _ (Ok (cmd, disclosed))); [|exact Hb].
    unfold buildInstructionChoiceCommand. destruct (negb _); [done|]. destruct (ExternalTokens _ !! _); [|done].
    destruct (_ && _); [done|]. do 3 (apply wp_bind, wp_intro; intros [?|?] ? _; [|done]). apply wp_ret. eauto. }
  cbn [fst snd]. apply wp_wrapping. unfold exerciseInstructionAsCustodial.
  destruct (cl_keyResolver c) eqn:Hkr; cbn [negb]; [|left; auto using effects_nothing].
  apply wp_bind, wp_wrapping, wp_rpc. intros r.
  assert (effects ((h ++ n1) ++ [Exchange (ResolveKey partyID) r]) = effects h) as Hkey.
  { rewrite <- H1. by apply effects_snoc. }
  destruct r as [signer|e]; cbn [wrap]; [|left; auto using effects_nothing].
  apply wp_bind, wp_ask. intros commandId. eapply wp_mono; [apply wp_prepareAndExecute|]. cbv beta.
  pose proof (effects_snoc ((h ++ n1) ++ [Exchange (ResolveKey partyID) (Ok signer)]) (Exchange NewUUID commandId)) as Hu.
  rewrite Hkey in Hu. specialize (Hu ltac:(done)). intros r h' [[Hn Hr]|Hsub].
  - left. split; [|by destruct r]. apply effects_nothing in Hu. unfold nothing_executed in *. destruct Hn as [-> ->]. done.
  - right. split; [done|]. exists ctxValue, disclosed, commandId, signer. split.
    + destruct Hsub as (? & ? & ? & ? & new & -> & _). set_solver.
    + eapply signed_submission_effects; [done|eexists; by rewrite <- !app_assoc|done].
Qed.

(** Accepting or withdrawing a transfer instruction for a custodial party
    executes at most one transaction: a single exercise of
    TransferInstruction_Accept, or of TransferInstruction_Withdraw, on that
    instruction, acting only as the party and signed with the key resolved for
    the party; otherwise nothing is executed and the caller gets an error,
    which is always so when no key resolver is configured. *)
Theorem instruction_choices_submit partyID instruction admin h :
  wp (AcceptTransferInstruction c partyID instruction admin) (custodial_exercise partyID instruction acceptChoice h) h /\
  wp (WithdrawTransferInstruction c partyID instruction admin) (custodial_exercise partyID instruction withdrawChoice h) h.
Proof. split; apply wp_exercise_instruction. Qed.


(** An internal transfer submits at most one command, with the
    participant's own key: a TransferFactory_Transfer that acts only as the
    sender, under the idempotency key, out of the holdings selected from the
    sender's own; when the call fails before the submission nothing is
    submitted, and it never executes an interactive submission. *)
Theorem TransferInternal_submits key from to amount symbol validity h :
  wp (TransferInternalByPartyID c key from to amount symbol validity) (fun r h' =>
    (nothing_executed h h' /\ is_ok r = false) \/
    exists holdings sel factory av extra now,
      (GetHoldings c from symbol h).1 = Ok holdings /\ selectHoldingsForTransfer holdings amount = Ok sel /\
      let req := resolved (transfer_request key from to amount sel validity) factory ∅ av [] false None in
      executed h' = executed h /\
      submitted h' = submitted h ++
        [mkCommands (DomainID (cl_cfg c)) key (UserID (cl_cfg c)) [from] [IssuerParty (cl_cfg c)]
           [transfer_command c req now (now + validity) extra] []]) h.
Proof.
  unfold TransferInternalByPartyID. apply wp_bind, wp_lift. destruct (validate_idempotent _ _ _ _ _ _); [|by left].
  apply wp_bind. unfold select_inputs. apply wp_bind. apply wp_read_only; [apply emits_GetHoldings|].
  intros [holdings|e] n1 Hh H1; [|left; auto using effects_nothing]. apply wp_wrapping, wp_lift.
  destruct (selectHoldingsForTransfer holdings amount) as [sel|e] eqn:Hsel; cbn [wrap]; [|left; auto using effects_nothing].
  apply wp_bind, wp_read_only; [apply emits_internal_factory|]. intros [[factory av]|e] n2 _ H2.
  2:{ left. split; [apply effects_nothing; congruence|done]. }
  cbn [fst snd]. apply wp_bind. unfold buildTransferCommand. cbn [tq_Times resolved].
  apply wp_bind, wp_bind, wp_ask. intros now. apply wp_ret. cbn [fst snd].
  pose proof (effects_snoc ((h ++ n1) ++ n2) (Exchange Now now) ltac:(done)) as H3.
  apply wp_bind, wp_lift. destruct (transfer_extra_args _) as [extra|e]; [|left; split; [apply effects_nothing; congruence|done]].
  apply wp_ret, wp_bind, wp_rpc. intros r. set (cmds := mkCommands _ _ _ _ _ _ _).
  rewrite H2, H1 in H3. injection H3 as He Hs _.
  destruct r; [apply wp_ret|]; right; exists holdings, sel, factory, av, extra, (now - 5 * Second); rewrite Hh;
    (split; [done|]); (split; [done|]); cbv zeta; unfold executed, submitted in *;
    rewrite !(omap_app _ (_ ++ [Exchange Now now])), He, Hs; cbn; by rewrite app_nil_r.
Qed.

(** ** External wallets *)

(** Preparing a transfer extends the history. *)
Lemma emits_PrepareTransfer req : emits (fun _ => True) (PrepareTransfer c req).
Proof.
  assert (forall A (k : M history A), emits read_only k -> emits (fun _ => True) k) as Hw.
  { intros A k Hk. by eapply emits_weaken. }
  apply emits_bind; [apply emits_wrapping, emits_lift|]. intros _.
  apply emits_bind; [apply Hw, emits_select_inputs|]. intros sel.
  apply emits_bind; [apply Hw, emits_resolveTransferFactory|]. intros freq.
  apply emits_bind; [apply Hw, emits_buildTransferCommand|]. intros cmd.
  apply emits_bind; [by apply emits_ask|]. intros id. apply emits_bind; [by apply emits_wrapping, emits_rpc|]. intros resp.
  apply emits_bind; [by apply emits_ask|]. intros tid. apply emits_bind; [apply emits_ret|]. intros e. apply emits_ret.
Qed.

(** What the preparation of a transfer for an external wallet comes to. *)
Definition prepared_transfer (req : PrepareTransferRequest) (h : history) (r : result PreparedTransfer) (h' : history) : Prop :=
  nothing_executed h h' /\
  forall pt, r = Ok pt -> exists holdings sel freq extra now commandId resp,
    (GetHoldings c (pt_FromPartyID req) (pt_TokenSymbol req) h).1 = Ok holdings /\
    selectHoldingsForTransfer holdings (pt_Amount req) = Ok sel /\
    same_transfer (transfer_request "" (pt_FromPartyID req) (pt_ToPartyID req) (pt_Amount req) sel (pt_Validity req)) freq /\
    prepared h' = prepared h ++ [(prepare_request (transfer_submission freq commandId (pt_FromPartyID req) (pt_ToPartyID req)
                                   (pt_Amount req) sel now (now + pt_Validity req) extra), resp)] /\
    p_TransactionHash pt = pr_PreparedTransactionHash resp /\ p_PreparedTransaction pt = pr_PreparedTransaction resp /\
    p_HashingSchemeVersion pt = pr_HashingSchemeVersion resp /\ p_PartyID pt = pt_FromPartyID req.

Lemma wp_PrepareTransfer req h : wp (PrepareTransfer c req) (prepared_transfer req h) h.
Proof.
  unfold PrepareTransfer, prepared_transfer. apply wp_bind, wp_wrapping, wp_lift. destruct (PrepareTransferRequest_validate req); [|done].
  apply wp_bind. unfold select_inputs. apply wp_bind. apply wp_read_only; [apply emits_GetHoldings|].
  intros [holdings|e] n1 Hh H1; [|split; [by apply effects_nothing|done]]. apply wp_wrapping, wp_lift.
  destruct (selectHoldingsForTransfer holdings _) as [sel|e] eqn:Hsel; cbn [wrap]; [|split; [by apply effects_nothing|done]].
  apply wp_bind, wp_read_only; [apply emits_resolveTransferFactory|]. intros r n2 Hres H2.
  pose proof (wp_run _ _ _ _ _ (resolve_same _ _) Hres) as Hsame. cbv beta in Hsame. rewrite H1 in H2.
  destruct r as [freq|e]; [|split; [by apply effects_nothing|done]].
  pose proof Hsame as (factory & ctx & av & disclosed & ext & now & Hreq).
  apply wp_bind. eapply wp_mono; [apply (wp_buildTransferCommand _ now); by rewrite Hreq|].
  intros [cmd|e] h' [-> Hcmd]; [|split; [by apply effects_nothing|done]]. destruct Hcmd as [extra ->].
  assert (tq_Validity freq = pt_Validity req) as -> by (by rewrite Hreq).
  apply wp_bind, wp_ask. intros commandId. set (h1 := ((h ++ n1) ++ n2) ++ [Exchange NewUUID commandId]).
  assert (effects h1 = effects h) as H3 by (unfold h1; rewrite effects_snoc by done; done). clearbody h1.
  unfold prepare_external. apply wp_bind, wp_wrapping, wp_rpc. injection H3 as He Hs Hp. intros [resp|e]; cbn [wrap].
  - apply wp_bind, wp_ask. intros transferId. apply wp_bind, wp_ret, wp_ret. split.
    + unfold nothing_executed, executed, submitted in *. rewrite !omap_app. cbn. by rewrite !app_nil_r, He, Hs.
    + intros pt [= <-]. exists holdings, sel, freq, extra, now, commandId, resp. rewrite Hh. split_and!; try done.
      rewrite <- (transfer_submission_eq _ _ _ _ _ _ _ _ _ _ _ Hsame).
      unfold prepared in *. rewrite !omap_app. cbn. by rewrite app_nil_r, Hp.
  - split; [|done]. unfold nothing_executed, executed, submitted in *. rewrite !omap_app. cbn. by rewrite !app_nil_r, He, Hs.
Qed.

(** Preparing a transfer for an external wallet executes and submits
    nothing.  When it succeeds, exactly one transaction was prepared: a
    TransferFactory_Transfer acting only as the sender, for the requested
    amount and receiver, out of the holdings selected from the sender's own;
    and what the wallet is asked to sign is the hash the ledger returned for
    it, under the sender's party id. *)
Theorem PrepareTransfer_prepares req h r h' :
  PrepareTransfer c req h = (r, h') -> prepared_transfer req h r h'.
Proof. intros Hrun. exact (wp_run _ _ _ _ _ (wp_PrepareTransfer req h) Hrun). Qed.


(** Executing a prepared transfer requests exactly one execution, of the
    prepared transaction under its hashing scheme, with the client's signature
    and key fingerprint for the party it was prepared for; a request that does
    not validate requests none. *)
Definition executed_transfer (req : ExecuteTransferRequest) (h : history) (r : result unit) (h' : history) : Prop :=
  match ExecuteTransferRequest_validate req, er_PreparedTransfer req with
  | Ok _, Some pt => exists sid new, h' = h ++ new /\
      effects h' = (executed h ++ [execute_request (p_PreparedTransaction pt) (p_HashingSchemeVersion pt) (p_PartyID pt) sid
                                     (UserID (cl_cfg c)) (er_SignedBy req) (er_Signature req)], submitted h, prepared h)
  | _, _ => h' = h /\ is_ok r = false
  end.

Lemma wp_ExecuteTransfer req h : wp (ExecuteTransfer c req) (executed_transfer req h) h.
Proof.
  unfold ExecuteTransfer, executed_transfer. apply wp_bind, wp_wrapping, wp_lift.
  destruct (ExecuteTransferRequest_validate req) eqn:Hv; cbn [wrap]; [|done].
  destruct (er_PreparedTransfer req) as [pt|]; [|done].
  apply wp_bind, wp_ask. intros sid. apply wp_wrapping, wp_rpc. intros r. exists sid. eexists. split; [by rewrite <- app_assoc|].
  unfold effects, executed, submitted, prepared. rewrite !omap_app. cbn. by rewrite !app_nil_r.
Qed.
End submissions.

(** ** Balances *)

Section balances.
Context `{!Env} `{DecimalLaws}.
Variable c : Client.

Lemma sum_amounts_ok l total s : sum_amounts l total = Ok s -> amount_val s = (amount_val total + sum_vals l)%Qc.
Proof.
  revert total. induction l as [|a l IH]; intros total; cbn.
  { intros [= ->]. by rewrite Qcplus_0_r. }
  destruct (addDecimalStrings total a) as [next|e] eqn:Ha; [|done]. intros Hs%IH.
  apply addDecimalStrings_ok in Ha as [_ Ha]. by rewrite Hs, Ha, Qcplus_assoc.
Qed.

Lemma amount_val_zero : amount_val "0" = 0%Qc.
Proof. destruct dlaw_parse_zero as (d & Hd & Hv). unfold amount_val. by rewrite Hd, Hv. Qed.

(** The last exchange of a successful query of active contracts. *)
Definition listed (h : history) (req : GetActiveContractsRequest) (events : list CreatedEvent) : Prop :=
  exists msgs, Exchange (GetActiveContracts req) (Ok (mkContractStream msgs None)) ∈ h /\ events = omap id msgs.

Lemma wp_query_contracts o ps f pre h :
  wp (query_contracts o ps f pre) (fun r h' => match r with
    | Ok events => listed h' (mkGetActiveContractsRequest o (filtersByParty ps f) true) events
    | Err _ => True end) h.
Proof.
  unfold query_contracts. destruct (o =? 0); [done|]. case_bool_decide; [done|].
  apply wp_bind, wp_wrapping, wp_rpc. intros [[msgs [e|]]|e]; cbn [wrap]; [done| |done]. apply wp_lift. cbn.
  exists msgs. split; [|done]. set_solver.
Qed.

(** Balances and supply add up.  GetTotalSupply returns the exact sum of
    the amounts of the issuer's active holdings whose metadata carries the
    symbol, as the ledger lists them at its end, and zero on an empty ledger;
    no rounding and no holding counted twice or left out. *)
Theorem GetTotalSupply_sum symbol h :
  wp (GetTotalSupply c symbol) (fun r h' => match r with
    | Ok s =>
        (exists pre, h' = pre ++ [Exchange GetLedgerEndRPC (Ok 0)] /\ s = "0") \/
        exists end_ events,
          listed h' (mkGetActiveContractsRequest end_ (filtersByParty [IssuerParty (cl_cfg c)] (TemplateFilter (holding_tid c) false)) true) events /\
          amount_val s = sum_vals (omap (supply_amount symbol) events)
    | Err _ => True end) h.
Proof.
  unfold GetTotalSupply. apply wp_bind, wp_lift. destruct (required _ _); [|done].
  apply wp_bind, wp_wrapping, wp_rpc. intros [e|err]; cbn [wrap]; [|done].
  destruct (Z.eqb_spec e 0) as [->|He]; [apply wp_ret; left; by eexists|].
  apply wp_bind, wp_wrapping. eapply wp_mono; [apply wp_query_contracts|]. intros [events|err] h' Hl; cbn [wrap]; [|done].
  apply wp_lift. destruct (sum_amounts _ _) as [s|err] eqn:Hs; [|done]. right. exists e, events. split; [done|].
  apply sum_amounts_ok in Hs. by rewrite Hs, amount_val_zero, Qcplus_0_l.
Qed.

(** GetBalanceByPartyID returns the exact sum of the amounts of the
    holdings that GetHoldings lists for the party and symbol, locked ones
    included. *)
Theorem GetBalance_sum party symbol h s :
  (GetBalanceByPartyID c party symbol h).1 = Ok s ->
  exists holdings, (GetHoldings c party symbol h).1 = Ok holdings /\ amount_val s = worth holdings /\
    Forall (fun hd => h_Owner hd = party /\ h_InstrumentID hd = symbol) holdings.
Proof.
  unfold GetBalanceByPartyID, mbind, M_bind. destruct (GetHoldings c party symbol h) as [[holdings|e] h'] eqn:Hg; [|done].
  cbn. intros Hs%sum_amounts_ok. exists holdings. split; [done|]. split; [by rewrite Hs, amount_val_zero, Qcplus_0_l|].
  revert Hg. apply (wp_run _ (fun r _ => match r with Ok l => Forall (fun hd => h_Owner hd = party /\ h_InstrumentID hd = symbol) l
    | Err _ => True end) _ (Ok holdings)).
  unfold GetHoldings, GetHoldingsByParty. apply wp_bind, wp_lift. destruct (required party _); [|done].
  apply wp_bind, wp_lift. unfold required at 1. case_bool_decide as Hsym; [done|].
  apply wp_bind, wp_intro. intros [?|err] h0 _; [|done].
  apply wp_bind, wp_intro. intros [e|err] h1 _; [|done]. destruct (e =? 0); [by apply wp_ret|].
  apply wp_bind, wp_intro. intros [events|err] h2 _; [|done]. apply wp_ret. apply Forall_forall. intros hd Hin.
  apply list_elem_of_filter in Hin as [Hw _]. unfold wanted in Hw. apply Is_true_eq_true in Hw.
  apply andb_true_iff in Hw as [Ho Hi]. apply bool_decide_eq_true in Ho. split; [done|].
  apply orb_true_iff in Hi as [Hi|Hi]; apply bool_decide_eq_true in Hi; done.
Qed.
End balances.

(** ** Witnesses: three holdings, one of them locked *)

Definition ex_holding (cid amount : string) (locked : bool) : Holding :=
  mkHolding cid "issuer" "alice" amount "DEMO" "issuer" "DEMO" locked ∅.
Definition ex_holdings : list Holding := [ex_holding "c0" "9" true; ex_holding "c1" "1.5" false; ex_holding "c2" "2.25" false;
  ex_holding "c3" "4" false].

Lemma selectHoldings_correct_witness :
  @selectHoldingsForTransfer RefDecimal.lib ex_holdings "3.75" = Ok (mkSelectedHoldings ["c1"; "c2"] "issuer" "DEMO") /\
  chosen (H := RefDecimal.lib) [] (filter (eligible "issuer" "DEMO") ex_holdings) "issuer" "DEMO" "3.75"
    (mkSelectedHoldings ["c1"; "c2"] "issuer" "DEMO").
Proof.
  assert (@selectHoldingsForTransfer RefDecimal.lib ex_holdings "3.75" = Ok (mkSelectedHoldings ["c1"; "c2"] "issuer" "DEMO")) as E
    by (vm_compute; reflexivity).
  split; [exact E|]. pose proof (@selectHoldings_correct RefDecimal.lib RefDecimal.laws ex_holdings "3.75") as Hc.
  rewrite E in Hc. exact Hc.
Defined.

Definition ex_client : Client :=
  mkClient (mkTokenConfig "domain" "issuer" "user" "cip56" "splice-transfer" "splice-holding" "" "" ∅)
    (Identity.mkConfig "domain" "issuer" "user" "common") true true.

Definition ex_created (cid owner amount : string) : CreatedEvent :=
  mkCreatedEvent cid None
    [("owner"%string, Some (PartyValue owner)); ("amount"%string, Some (NumericValue amount));
     ("issuer"%string, Some (PartyValue "issuer")); ("instrumentId"%string, Some (EncodeInstrumentId "issuer" "DEMO"));
     ("lock"%string, Some NoneValue); ("meta"%string, Some (EncodeMetadata {[MetaKeySymbol := "DEMO"%string]}))] [].

Definition ex_env : Env := scripted (mkScript (100 * Second) 5
  (fun _ => [ex_created "c1" "alice" "1.5"; ex_created "c2" "bob" "2.25"; ex_created "c3" "alice" "4"])
  (fun p => Ok (mkSigner (fun m => Ok (0 :: m)) (Ok ("fp-" +:+ p)))) (fun _ => ([], ""%string)) (fun _ => http_failed (ErrNew "down"))).

Lemma GetBalance_sum_witness :
  (@GetBalanceByPartyID ex_env RefDecimal.lib ex_client "alice" "DEMO" []).1 = Ok "5.5"%string /\
  exists holdings, (@GetHoldings ex_env ex_client "alice" "DEMO" []).1 = Ok holdings /\
    amount_val (H := RefDecimal.lib) "5.5" = worth (H := RefDecimal.lib) holdings.
Proof.
  assert ((@GetBalanceByPartyID ex_env RefDecimal.lib ex_client "alice" "DEMO" []).1 = Ok "5.5"%string) as E by (vm_compute; reflexivity).
  split; [exact E|].
  destruct (@GetBalance_sum ex_env RefDecimal.lib RefDecimal.laws ex_client "alice" "DEMO" [] "5.5" E) as (hs & H1 & H2 & _). eauto.
Defined.

Lemma GetTotalSupply_sum_witness :
  (@GetTotalSupply ex_env RefDecimal.lib ex_client "DEMO" []).1 = Ok "7.75"%string /\
  exists events, amount_val (H := RefDecimal.lib) "7.75" = sum_vals (H := RefDecimal.lib) (omap (supply_amount "DEMO") events).
Proof.
  assert ((@GetTotalSupply ex_env RefDecimal.lib ex_client "DEMO" []).1 = Ok "7.75"%string) as E by (vm_compute; reflexivity).
  pose proof (@GetTotalSupply_sum ex_env RefDecimal.lib RefDecimal.laws ex_client "DEMO" []) as Hw. unfold wp in Hw.
  split; [exact E|]. revert E Hw. generalize (@GetTotalSupply ex_env RefDecimal.lib ex_client "DEMO" []).
  intros [r h'] E Hw. cbn [fst] in E. subst r. destruct Hw as [(pre & _ & Hs)|(e & events & _ & Hs)]; [discriminate|eauto].
Defined.

(** A custodial transfer that goes through: one transaction prepared and executed. *)
Example TransferByPartyID_runs :
  let '(r, h) := @TransferByPartyID ex_env RefDecimal.lib ex_client "key" "alice" "bob" "5" "DEMO" Hour [] in
  r = Ok tt /\ length (executed h) = 1%nat /\ length (prepared h) = 1%nat /\ submitted h = [] /\
  (es_PartySignatures <$> executed h) = [[("alice"%string, [Identity.der_signature [0; 7; 7] "fp-alice"])]].
Proof. vm_compute. done. Qed.

Lemma TransferByPartyID_submits_witness :
  exists h', @TransferByPartyID ex_env RefDecimal.lib ex_client "key" "alice" "bob" "5" "DEMO" Hour [] = (Ok tt, h') /\
    @custodial_transfer ex_env RefDecimal.lib ex_client "key" "alice" "bob" "5" "DEMO" Hour [] (Ok tt) h'.
Proof.
  assert (is_ok (@TransferByPartyID ex_env RefDecimal.lib ex_client "key" "alice" "bob" "5" "DEMO" Hour []).1 = true) as Hr
    by (vm_compute; reflexivity).
  destruct (@TransferByPartyID ex_env RefDecimal.lib ex_client "key" "alice" "bob" "5" "DEMO" Hour []) as [[[]|e] h'] eqn:Hrun;
    [|discriminate].
  exists h'. split; [reflexivity|].
  exact (@TransferByPartyID_submits ex_env RefDecimal.lib ex_client "key" "alice" "bob" "5" "DEMO" Hour [] _ _ Hrun).
Defined.

Definition ex_prepare : PrepareTransferRequest := mkPrepareTransferRequest "alice" "bob" "5" "DEMO" Hour.

Lemma PrepareTransfer_prepares_witness :
  exists pt h', @PrepareTransfer ex_env RefDecimal.lib ex_client ex_prepare [] = (Ok pt, h') /\
    @prepared_transfer ex_env RefDecimal.lib ex_client ex_prepare [] (Ok pt) h'.
Proof.
  assert (is_ok (@PrepareTransfer ex_env RefDecimal.lib ex_client ex_prepare []).1 = true) as Hr by (vm_compute; reflexivity).
  destruct (@PrepareTransfer ex_env RefDecimal.lib ex_client ex_prepare []) as [[pt|e] h'] eqn:Hrun; [|discriminate].
  exists pt, h'. split; [reflexivity|].
  exact (@PrepareTransfer_prepares ex_env RefDecimal.lib ex_client ex_prepare [] _ _ Hrun).
Defined.
