(* ===== verification/CantonClient.v ===== *)
(** * CantonClient: opening the Canton SDK client

    pkg/cantonsdk/client (New, Close, propagateCommonConfig, the name of a
    method in its metric), and of pkg/cantonsdk/ledger what New needs: the dial
    options with the TLS configuration (dial.go), New, and the subject of the
    bearer token (JWTSubject).  Reading certificates, dialing and the parser of
    the jwt package are parameters.  The state counts the open connections. *)

From S2P Require Import Prelude AppErrors Effects GoStd GoText Decimal DamlValues Streaming LedgerApi TokenCodec LedgerClient Identity BridgeClient TokenClient.
From Stdlib Require Import Ascii String.
Local Open Scope Z_scope.

(** ** pkg/cantonsdk/ledger: dial.go and New *)

Record TLSConfig := mkTLSConfig {
  tls_Enabled : bool;
  tls_CertFile : string;
  tls_KeyFile : string;
  tls_CAFile : string;
  tls_InsecureSkipVerify : bool;
}.

(** crypto/tls Config as far as the code sets it. *)
Record TLSSettings (C P : Type) := mkTLSSettings {
  ts_InsecureSkipVerify : bool;
  ts_Certificates : list C;
  ts_RootCAs : option P;
}.
Arguments mkTLSSettings {C P} _ _ _.
Arguments ts_InsecureSkipVerify {C P} _.
Arguments ts_Certificates {C P} _.
Arguments ts_RootCAs {C P} _.

(** The gRPC dial options the code builds; [Extra] stands for one a caller
    passed to WithGRPCDialOptions, and [UnaryInterceptor] for the observer of
    the metrics. *)
Inductive DialOption (C P : Type) :=
  | WithTLS (t : TLSSettings C P)
  | WithInsecure
  | MaxCallRecvMsgSize (n : Z)
  | UnaryInterceptor
  | Extra (name : string).
Arguments WithTLS {C P} _.
Arguments WithInsecure {C P}.
Arguments MaxCallRecvMsgSize {C P} _.
Arguments UnaryInterceptor {C P}.
Arguments Extra {C P} _.

(** Files, certificates and the dialer, none of which is in the repository. *)
Class Dialing := {
  Certificate : Type;
  CertPool : Type;
  LoadX509KeyPair : string -> string -> result Certificate;
  ReadFile : string -> result (list Z);
  AppendCertsFromPEM : list Z -> option CertPool;
  grpc_NewClient : string -> list (DialOption Certificate CertPool) -> result unit;
}.

Record LedgerConfig := mkLedgerConfig { lc_RPCURL : string; lc_MaxMessageSize : Z; lc_TLS : TLSConfig; lc_Auth : AuthConfig }.

Section dial.
Context `{!Dialing}.

Definition loadTLSConfig (c : TLSConfig) : result (TLSSettings Certificate CertPool) :=
  certs ← (if negb (bool_decide (tls_CertFile c = ""%string)) && negb (bool_decide (tls_KeyFile c = ""%string)) then
             cert ← wrap "load client cert/key: " (LoadX509KeyPair (tls_CertFile c) (tls_KeyFile c)); mret [cert]
           else mret []);
  roots ← (if negb (bool_decide (tls_CAFile c = ""%string)) then
             b ← wrap "read CA file: " (ReadFile (tls_CAFile c));
             match AppendCertsFromPEM b with
             | Some pool => mret (Some pool)
             | None => Err (ErrNew "append CA certs from PEM failed")
             end
           else mret None);
  mret (mkTLSSettings (tls_InsecureSkipVerify c) certs roots).

Definition dialOptions (cfg : LedgerConfig) (extra : list (DialOption Certificate CertPool)) :
    result (list (DialOption Certificate CertPool)) :=
  creds ← (if tls_Enabled (lc_TLS cfg) then
             t ← wrap "load TLS config: " (loadTLSConfig (lc_TLS cfg)); mret (WithTLS t)
           else mret WithInsecure);
  mret ([creds] ++ (if 0 <? lc_MaxMessageSize cfg then [MaxCallRecvMsgSize (lc_MaxMessageSize cfg)] else []) ++ extra).
End dial.

(** strings.Contains *)
Fixpoint contains (sub s : string) : bool :=
  String.prefix sub s || match s with EmptyString => false | String _ s => contains sub s end.

Definition dial_target (url : string) : string := if contains "://" url then url else ("dns:///" +:+ url)%string.

(** ** The token's subject *)

Section subject.
Context `{!Env}.
(** ParseUnverified of the jwt package with its map of claims. *)
Variable ParseUnverified : string -> result (list (string * json)).

(** The member of a JSON object decoded into a Go map: the last one with that
    very name. *)
Definition claim (name : string) (l : list (string * json)) : option json := list_to_map (M := gmap string json) (rev l) !! name.

Definition extractJWTSubject (token : string) : result string :=
  claims ← wrap "failed to parse JWT: " (ParseUnverified token);
  match claim "sub" claims with
  | Some (JString sub) => mret sub
  | _ => Err (ErrNew "JWT missing 'sub' claim")
  end.

(** An empty token is reported with the nil error it came with. *)
Definition JWTSubject (cfg : AuthConfig) : M AuthState string :=
  r ← attempt (loadToken cfg);
  match r with
  | Err e => fail (ErrWrap "error loading JWT token: " e "")
  | Ok token =>
      if bool_decide (token = ""%string) then fail (ErrNew "error loading JWT token: %!w(<nil>)")
      else wrapping "error extracting JWT subject: " (lift (extractJWTSubject token))
  end.
End subject.

(** ** pkg/cantonsdk/client *)

(** Config; the ledger, identity and token configurations, which the loader
    requires, are not nil (New would panic on a nil one). *)
Record CantonConfig := mkCantonConfig {
  cc_DomainID : string;
  cc_IssuerParty : string;
  cc_Ledger : LedgerConfig;
  cc_Identity : Identity.Config;
  cc_Token : TokenConfig;
  cc_Bridge : option Bridge.Config;
}.

Definition identity_with (domain issuer : string) (c : Identity.Config) : Identity.Config :=
  Identity.mkConfig domain issuer (Identity.UserID c) (Identity.PackageID c).
Definition token_with (domain issuer : string) (c : TokenConfig) : TokenConfig :=
  mkTokenConfig domain issuer (TokenClient.UserID c) (CIP56PackageID c) (SpliceTransferPackageID c) (SpliceHoldingPackageID c)
    (UtilityRegistryAppPackageID c) (UtilityRegistryPackageID c) (ExternalTokens c).
Definition bridge_with (domain operator : string) (c : Bridge.Config) : Bridge.Config :=
  Bridge.mkConfig domain (Bridge.UserID c) operator (Bridge.PackageID c) (Bridge.CorePackageID c) (Bridge.ConfigModule c).

Definition propagateCommonConfig (cfg : CantonConfig) : CantonConfig :=
  mkCantonConfig (cc_DomainID cfg) (cc_IssuerParty cfg) (cc_Ledger cfg)
    (identity_with (cc_DomainID cfg) (cc_IssuerParty cfg) (cc_Identity cfg))
    (token_with (cc_DomainID cfg) (cc_IssuerParty cfg) (cc_Token cfg))
    (bridge_with (cc_DomainID cfg) (cc_IssuerParty cfg) <$> cc_Bridge cfg).

(** The subject of the token becomes the user of the identity and the token client. *)
Definition identity_user (sub : string) (c : Identity.Config) : Identity.Config :=
  Identity.mkConfig (Identity.DomainID c) (Identity.IssuerParty c) sub (Identity.PackageID c).
Definition token_user (sub : string) (c : TokenConfig) : TokenConfig :=
  mkTokenConfig (TokenClient.DomainID c) (TokenClient.IssuerParty c) sub (CIP56PackageID c) (SpliceTransferPackageID c) (SpliceHoldingPackageID c)
    (UtilityRegistryAppPackageID c) (UtilityRegistryPackageID c) (ExternalTokens c).
Definition with_user (sub : string) (c : CantonConfig) : CantonConfig :=
  mkCantonConfig (cc_DomainID c) (cc_IssuerParty c) (cc_Ledger c) (identity_user sub (cc_Identity c)) (token_user sub (cc_Token c)) (cc_Bridge c).
Definition bridge_user (sub : string) (c : Bridge.Config) : Bridge.Config :=
  Bridge.mkConfig (Bridge.DomainID c) sub (Bridge.OperatorParty c) (Bridge.PackageID c) (Bridge.CorePackageID c) (Bridge.ConfigModule c).

Section client.
Context `{!Env} `{!Dialing}.
Variable ParseUnverified : string -> result (list (string * json)).

(** The options of New other than the logger and the HTTP client. *)
Record ClientOptions := mkClientOptions {
  op_bridgeCfg : option Bridge.Config;
  op_keyResolver : bool;
  op_dialOpts : list (DialOption Certificate CertPool);
  op_promRegisterer : bool;
}.

(** The client: the configurations its sub-clients keep. *)
Record CantonSDK := mkCantonSDK {
  sdk_identity : Identity.Config;
  sdk_token : TokenClient.Client;
  sdk_bridge : option Bridge.Config;
}.

(** What New works on: the configuration behind the caller's pointer, which it
    writes, the ledger client's tokens, and the number of open connections. *)
Record ClientWorld := mkClientWorld { cw_cfg : option CantonConfig; cw_auth : AuthState; cw_conns : Z }.
Definition on_auth {A} (c : M AuthState A) : M ClientWorld A :=
  zoom cw_auth (fun a w => mkClientWorld (cw_cfg w) a (cw_conns w)) c.
Definition add_conns (n : Z) : M ClientWorld unit := modify (fun w => mkClientWorld (cw_cfg w) (cw_auth w) (cw_conns w + n)).
Definition write_cfg (c : CantonConfig) : M ClientWorld unit := modify (fun w => mkClientWorld (Some c) (cw_auth w) (cw_conns w)).

(** ledger.New: the options, then the connection; its provider starts with no
    token. *)
Definition ledger_New (cfg : LedgerConfig) (extra : list (DialOption Certificate CertPool)) : M ClientWorld unit :=
  dopts ← lift (dialOptions cfg extra);
  _ ← wrapping "failed to create Canton client: " (lift (grpc_NewClient (dial_target (lc_RPCURL cfg)) dopts));
  _ ← add_conns 1;
  on_auth (modify (fun s => set_provider no_token (set_client no_token s))).

Definition ledger_Close : M ClientWorld unit := add_conns (-1).

(** A step of New that closes the connection before it returns an error. *)
Definition closing {A} (c : result A) : M ClientWorld A :=
  match c with
  | Ok a => mret a
  | Err e => _ ← ledger_Close; fail e
  end.

Definition identity_New (c : Identity.Config) : result Identity.Config :=
  _ ← wrap "invalid request: " (Identity.Config_validate c); mret c.
Definition token_New (c : TokenConfig) (id : Identity.Config) (keyResolver registryClient : bool) : result TokenClient.Client :=
  _ ← wrap "invalid config: " (TokenConfig_validate c); mret (mkClient c id keyResolver registryClient).
Definition bridge_New (c : Bridge.Config) : result Bridge.Config :=
  _ ← wrap "invalid config: " (Bridge.Config_validate c); mret c.

(** The user of the ledger: the configured one, or the subject of the token,
    which is written to the configuration. *)
Definition resolve_user (cfg : CantonConfig) : M ClientWorld CantonConfig :=
  if bool_decide (Identity.UserID (cc_Identity cfg) = ""%string) then
    sub ← on_auth (JWTSubject ParseUnverified (lc_Auth (cc_Ledger cfg)));
    let cfg := with_user sub cfg in
    _ ← write_cfg cfg; mret cfg
  else mret cfg.

(** The bridge client, from the option's configuration if there is one; the
    user is written to the configuration it takes. *)
Definition open_bridge (o : ClientOptions) (cfg : CantonConfig) : M ClientWorld (option Bridge.Config) :=
  let user := Identity.UserID (cc_Identity cfg) in
  match op_bridgeCfg o, cc_Bridge cfg with
  | Some b, _ => b ← closing (bridge_New (bridge_user user b)); mret (Some b)
  | None, Some b =>
      let b := bridge_user user b in
      _ ← write_cfg (mkCantonConfig (cc_DomainID cfg) (cc_IssuerParty cfg) (cc_Ledger cfg) (cc_Identity cfg) (cc_Token cfg) (Some b));
      b ← closing (bridge_New b); mret (Some b)
  | None, None => mret None
  end.

(** The sub-clients, in the order New makes them. *)
Definition open_clients (o : ClientOptions) (cfg : CantonConfig) : M ClientWorld CantonSDK :=
  id ← closing (identity_New (cc_Identity cfg));
  tk ← closing (token_New (cc_Token cfg) id (op_keyResolver o) (negb (bool_decide (ExternalTokens (cc_Token cfg) = ∅))));
  br ← open_bridge o cfg;
  mret (mkCantonSDK id tk br).

Definition client_New (o : ClientOptions) : M ClientWorld CantonSDK :=
  w ← Effects.get;
  match cw_cfg w with
  | None => fail (ErrNew "nil canton config")
  | Some cfg =>
      let cfg := propagateCommonConfig cfg in
      _ ← write_cfg cfg;
      _ ← ledger_New (cc_Ledger cfg) (op_dialOpts o ++ (if op_promRegisterer o then [UnaryInterceptor] else []));
      cfg ← resolve_user cfg;
      open_clients o cfg
  end.

(** Close *)
Definition client_Close (c : option CantonSDK) : M ClientWorld unit :=
  match c with None => mret tt | Some _ => ledger_Close end.
End client.

(** ** shortMethodName *)

(** strings.LastIndex of a dot, as what follows it. *)
Fixpoint after_last_dot (s : string) : option string :=
  match s with
  | EmptyString => None
  | String c s' =>
      match after_last_dot s' with
      | Some r => Some r
      | None => if bool_decide (c = "."%char) then Some s' else None
      end
  end.

Definition shortMethodName (full : string) : string :=
  let s := TrimPrefix full "/" in
  match after_last_dot s with Some r => r | None => s end.

Example shortMethodName_doc :
  shortMethodName "/com.digitalasset.canton.v2.CommandService/SubmitAndWait" = "CommandService/SubmitAndWait"%string.
Proof. reflexivity. Qed.

(** ** Theorems *)

Section theorems.
Context `{!Env} `{!Dialing}.
Variable ParseUnverified : string -> result (list (string * json)).
Notation New := (client_New ParseUnverified).

(** The sub-clients of [sdk] agree with one another and with the common fields
    of [cfg]: one domain, one issuer and, unless the caller set a user, one
    user; the bridge client always runs as the user of the identity client. *)
Definition consistent (o : ClientOptions) (cfg : CantonConfig) (sdk : CantonSDK) : Prop :=
  Identity.DomainID (sdk_identity sdk) = cc_DomainID cfg /\
  Identity.IssuerParty (sdk_identity sdk) = cc_IssuerParty cfg /\
  TokenClient.DomainID (cl_cfg (sdk_token sdk)) = cc_DomainID cfg /\
  TokenClient.IssuerParty (cl_cfg (sdk_token sdk)) = cc_IssuerParty cfg /\
  cl_identity (sdk_token sdk) = sdk_identity sdk /\
  (Identity.UserID (cc_Identity cfg) = ""%string -> TokenClient.UserID (cl_cfg (sdk_token sdk)) = Identity.UserID (sdk_identity sdk)) /\
  match sdk_bridge sdk with
  | None => op_bridgeCfg o = None /\ cc_Bridge cfg = None
  | Some b => Bridge.UserID b = Identity.UserID (sdk_identity sdk) /\
      (op_bridgeCfg o = None -> Bridge.DomainID b = cc_DomainID cfg /\ Bridge.OperatorParty b = cc_IssuerParty cfg)
  end.

(** The ledger client's tokens when New has just made it. *)
Definition fresh_auth (s : AuthState) : AuthState := set_provider no_token (set_client no_token s).

Lemma closing_ok {A} (c : result A) (Q : result A -> ClientWorld -> Prop) w :
  (forall a, c = Ok a -> Q (Ok a) w) ->
  (forall e, c = Err e -> Q (Err e) (mkClientWorld (cw_cfg w) (cw_auth w) (cw_conns w - 1))) ->
  wp (closing c) Q w.
Proof. intros Hok Herr. destruct c as [a|e]; [by apply Hok|]. apply (Herr e eq_refl). Qed.

(** The options are good and the connection is made. *)
Definition dials (cfg : LedgerConfig) (extra : list (DialOption Certificate CertPool)) : Prop :=
  exists dopts, dialOptions cfg extra = Ok dopts /\ grpc_NewClient (dial_target (lc_RPCURL cfg)) dopts = Ok tt.

Lemma ledger_New_wp cfg extra (Q : result unit -> ClientWorld -> Prop) w :
  (dials cfg extra -> Q (Ok tt) (mkClientWorld (cw_cfg w) (fresh_auth (cw_auth w)) (cw_conns w + 1))) ->
  (forall e, ~ dials cfg extra -> Q (Err e) w) ->
  wp (ledger_New cfg extra) Q w.
Proof.
  intros Hok Herr. unfold ledger_New, dials in *. apply wp_bind, wp_lift.
  destruct (dialOptions cfg extra) as [dopts|e]; [|apply Herr; by intros (? & ? & _)].
  apply wp_bind, wp_wrapping, wp_lift. destruct (grpc_NewClient _ dopts) as [[]|e] eqn:Hd; cbn.
  - apply Hok. eauto.
  - apply Herr. intros (? & ? & ?). congruence.
Qed.

(** The configuration of the bridge client that New takes, with its user. *)
Definition bridge_choice (o : ClientOptions) (cfg : CantonConfig) : option Bridge.Config :=
  bridge_user (Identity.UserID (cc_Identity cfg)) <$> match op_bridgeCfg o with Some b => Some b | None => cc_Bridge cfg end.

Lemma validated_ok {A} pre (v : result unit) (a b : A) : (_ ← wrap pre v; mret a) = Ok b -> b = a.
Proof. destruct v; intros Hv; by inversion Hv. Qed.

Lemma open_bridge_wp o cfg (Q : result (option Bridge.Config) -> ClientWorld -> Prop) w :
  cw_cfg w = Some cfg ->
  (forall cfg', cc_Identity cfg' = cc_Identity cfg -> cc_Token cfg' = cc_Token cfg ->
     Q (Ok (bridge_choice o cfg)) (mkClientWorld (Some cfg') (cw_auth w) (cw_conns w))) ->
  (forall e cfg', Q (Err e) (mkClientWorld cfg' (cw_auth w) (cw_conns w - 1))) ->
  wp (open_bridge o cfg) Q w.
Proof.
  intros Hcfg Hok Herr. unfold open_bridge, bridge_choice in *.
  assert (Hw : w = mkClientWorld (Some cfg) (cw_auth w) (cw_conns w)) by (destruct w; cbn in *; congruence).
  destruct (op_bridgeCfg o) as [b|]; [|destruct (cc_Bridge cfg) as [b|]].
  - apply wp_bind, closing_ok; [intros x Hx%validated_ok|intros; apply Herr].
    subst x. rewrite Hw. apply wp_ret. by apply Hok.
  - apply wp_bind, wp_modify. apply wp_bind, closing_ok; [intros x Hx%validated_ok|intros; apply Herr].
    subst x. apply wp_ret. by apply Hok.
  - rewrite Hw. apply wp_ret. by apply Hok.
Qed.

Lemma open_clients_wp o cfg (Q : result CantonSDK -> ClientWorld -> Prop) w :
  cw_cfg w = Some cfg ->
  (forall cfg', cc_Identity cfg' = cc_Identity cfg -> cc_Token cfg' = cc_Token cfg ->
     Q (Ok (mkCantonSDK (cc_Identity cfg)
         (mkClient (cc_Token cfg) (cc_Identity cfg) (op_keyResolver o) (negb (bool_decide (ExternalTokens (cc_Token cfg) = ∅))))
         (bridge_choice o cfg)))
       (mkClientWorld (Some cfg') (cw_auth w) (cw_conns w))) ->
  (forall e cfg', Q (Err e) (mkClientWorld cfg' (cw_auth w) (cw_conns w - 1))) ->
  wp (open_clients o cfg) Q w.
Proof.
  intros Hcfg Hok Herr. unfold open_clients.
  apply wp_bind, closing_ok; [intros id ->%validated_ok|intros; apply Herr].
  apply wp_bind, closing_ok; [intros tk ->%validated_ok|intros; apply Herr].
  apply wp_bind, open_bridge_wp; [done| |done]. intros cfg' Hid Htk. by apply Hok.
Qed.

(** The dial options New passes on. *)
Definition dial_extra (o : ClientOptions) : list (DialOption Certificate CertPool) :=
  op_dialOpts o ++ (if op_promRegisterer o then [UnaryInterceptor] else []).

(** The connection is made, no user is configured and the token gives none. *)
Definition user_missing (o : ClientOptions) (w : ClientWorld) (e : error) : Prop :=
  exists cfg, cw_cfg w = Some cfg /\ dials (cc_Ledger cfg) (dial_extra o) /\ Identity.UserID (cc_Identity cfg) = ""%string /\
    (JWTSubject ParseUnverified (lc_Auth (cc_Ledger cfg)) (fresh_auth (cw_auth w))).1 = Err e.

(** What New promises, of the world it starts in. *)
Definition opened (o : ClientOptions) (w : ClientWorld) (r : result CantonSDK) (w' : ClientWorld) : Prop :=
  match r with
  | Ok sdk =>
      exists cfg cfg', cw_cfg w = Some cfg /\ cw_conns w' = cw_conns w + 1 /\ consistent o cfg sdk /\
        cw_cfg w' = Some cfg' /\ cc_Identity cfg' = sdk_identity sdk /\ cc_Token cfg' = cl_cfg (sdk_token sdk)
  | Err e =>
      (user_missing o w e /\ cw_conns w' = cw_conns w + 1) \/
      ((forall e', ~ user_missing o w e') /\ cw_conns w' = cw_conns w)
  end.

Lemma consistent_opened o cfg sub :
  let cfg1 := propagateCommonConfig cfg in
  let cfg2 := if bool_decide (Identity.UserID (cc_Identity cfg) = ""%string) then with_user sub cfg1 else cfg1 in
  consistent o cfg (mkCantonSDK (cc_Identity cfg2)
    (mkClient (cc_Token cfg2) (cc_Identity cfg2) (op_keyResolver o) (negb (bool_decide (ExternalTokens (cc_Token cfg2) = ∅))))
    (bridge_choice o cfg2)).
Proof.
  cbv zeta. unfold consistent, bridge_choice. case_bool_decide; repeat split; try done;
    cbn; destruct (op_bridgeCfg o), (cc_Bridge cfg); cbn; done.
Qed.

(** C28: Opening the client: on success there is exactly one more connection, and
    the identity and token clients have the domain and the issuer of the
    configuration, as has the bridge client unless its configuration is an
    option; the bridge client has the user of the identity client, and so has
    the token client when no user was configured; the caller's configuration
    keeps what the sub-clients use.  On an error the connections are those of
    before, except exactly when the connection was made, no user is configured
    and none can be read from the token: then New returns that error and the
    connection it made stays open. *)
Theorem client_New_opens o w : let '(r, w') := New o w in opened o w r w'.
Proof.
  change (wp (New o) (opened o w) w).
  unfold client_New. apply wp_bind, wp_get. destruct (cw_cfg w) as [cfg|] eqn:Hcfg.
  2:{ right. split; [|done]. intros e (cfg & Hc & _). congruence. }
  apply wp_bind, wp_modify, wp_bind, ledger_New_wp.
  2:{ intros e Hd. right. split; [|done]. intros e' (cfg' & Hc & Hd' & _). rewrite Hcfg in Hc. injection Hc as <-. by apply Hd. }
  intros Hd.
  apply wp_bind. unfold resolve_user. cbn [cc_Identity propagateCommonConfig identity_with Identity.UserID].
  case_bool_decide as Hu.
  - apply wp_bind, wp_zoom. apply wp_intro. intros [sub|e] s Hs.
    + apply wp_bind, wp_modify, wp_ret. apply open_clients_wp; [done| |].
      2:{ intros e cfg'. right. split; [|cbn; lia]. intros e' (cfg0 & Hc & _ & _ & Hj). rewrite Hcfg in Hc.
          injection Hc as <-. cbn in Hs. by rewrite Hs in Hj. }
      intros cfg' Hid Htk. pose proof (consistent_opened o cfg sub) as Hc. cbv zeta in Hc. rewrite bool_decide_eq_true_2 in Hc by done.
      exists cfg, cfg'. cbn. eauto 10.
    + left. split; [|done]. exists cfg. cbn in Hs |- *. rewrite Hs. by split_and!.
  - apply wp_ret. apply open_clients_wp; [done| |].
    2:{ intros e cfg'. right. split; [|cbn; lia]. intros e' (cfg0 & Hc & _ & Hu' & _). rewrite Hcfg in Hc. by injection Hc as <-. }
    intros cfg' Hid Htk. pose proof (consistent_opened o cfg "") as Hc. cbv zeta in Hc. rewrite bool_decide_eq_false_2 in Hc by done.
    exists cfg, cfg'. cbn. eauto 10.
Qed.
End theorems.

(** ** The transport *)

Section transport.
Context `{!Dialing}.

(** A connection is in clear text exactly when TLS is disabled: a certificate
    or a CA file that cannot be used is an error, never a fall-back.  With TLS
    the system's roots are replaced exactly when a CA file is named, and a
    client certificate is presented exactly when both its files are named; the
    caller's own options come last. *)
Theorem dialOptions_transport cfg extra :
  match dialOptions cfg extra with
  | Err _ => tls_Enabled (lc_TLS cfg) = true
  | Ok opts =>
      exists creds size, opts = creds :: size ++ extra /\
        size = (if 0 <? lc_MaxMessageSize cfg then [MaxCallRecvMsgSize (lc_MaxMessageSize cfg)] else []) /\
        (if tls_Enabled (lc_TLS cfg) then
           exists t, creds = WithTLS t /\ ts_InsecureSkipVerify t = tls_InsecureSkipVerify (lc_TLS cfg) /\
             (is_Some (ts_RootCAs t) <-> tls_CAFile (lc_TLS cfg) <> ""%string) /\
             (ts_Certificates t <> [] <-> tls_CertFile (lc_TLS cfg) <> ""%string /\ tls_KeyFile (lc_TLS cfg) <> ""%string)
         else creds = WithInsecure)
  end.
Proof.
  unfold dialOptions. destruct (tls_Enabled (lc_TLS cfg)); cbn; [|eauto].
  destruct (loadTLSConfig (lc_TLS cfg)) as [t|e] eqn:Ht; cbn; [|done].
  exists (WithTLS t). eexists. do 2 (split; [reflexivity|]). exists t. split; [done|]. revert Ht. unfold loadTLSConfig.
  repeat case_bool_decide; cbn; repeat (destruct (LoadX509KeyPair _ _); cbn; try done);
    repeat (destruct (ReadFile _); cbn; try done); repeat (destruct (AppendCertsFromPEM _); cbn; try done);
    intros Ht; inversion Ht; subst t; cbn; (split; [done|]); split; split; try done; try (intros [? ?]; done); naive_solver.
Qed.
End transport.

(** ** A lost connection *)

Module Leak.
(** A dialer that always succeeds. *)
Definition dialing : Dialing := {|
  Certificate := unit; CertPool := unit;
  LoadX509KeyPair _ _ := Ok tt; ReadFile _ := Ok []; AppendCertsFromPEM _ := Some tt; grpc_NewClient _ _ := Ok tt |}.

(** A ledger without credentials: no token, hence no subject. *)
Definition ledger : LedgerConfig := mkLedgerConfig "localhost:5011" 0 (mkTLSConfig false "" "" "" false) (mkAuthConfig "" "" "" "" 0).
Definition cfg : CantonConfig := mkCantonConfig "domain" "issuer" ledger (Identity.mkConfig "" "" "" "pkg")
  (mkTokenConfig "" "" "" "cip56" "transfer" "holding" "" "" ∅) None.
Definition w0 : ClientWorld := mkClientWorld (Some cfg) (mkAuthState [] no_token no_token) 0.
Definition no_options : @ClientOptions dialing := @mkClientOptions dialing None false [] false.
End Leak.

(** New fails, and the connection it opened is still open. *)
Example client_New_leaks :
  let '(r, w) := @client_New clock_env Leak.dialing (fun _ => Ok []) Leak.no_options Leak.w0 in
  is_ok r = false /\ cw_conns w = 1.
Proof. vm_compute. auto. Qed.

(** With a user in the configuration the same ledger opens. *)
Example client_New_with_user :
  let cfg := with_user "middleware" Leak.cfg in
  let '(r, w) := @client_New clock_env Leak.dialing (fun _ => Ok []) Leak.no_options
                   (mkClientWorld (Some cfg) (cw_auth Leak.w0) 0) in
  is_ok r = true /\ cw_conns w = 1.
Proof. vm_compute. auto. Qed.
