(* ===== verification/PreparedCache.v ===== *)
(** * Expiring caches: pkg/transfer/cache.go and pkg/user/service/topology_cache.go

    Prepared transfers awaiting a wallet's signature and pending topologies of
    a two-step registration, each under a mutex, so that an operation is one
    step on a map.  The clock is an argument of each step. *)

From S2P Require Import Prelude AppErrors Effects GoStd GoText Decimal DamlValues Streaming LedgerApi TokenCodec LedgerClient Identity.
From Stdlib Require Import Ascii String.
Local Open Scope Z_scope.
Local Abbreviation length := Datatypes.length.

(** ** The map *)

Section entries.
Context {E : Type} (expiresAt : E -> Z) (notFound expired : error).

(** Retrieve and remove: the entry is gone also when it has expired. *)
Definition get_and_delete (now : Z) (key : string) (m : gmap string E) : result E * gmap string E :=
  match m !! key with
  | None => (Err notFound, m)
  | Some entry => (if expiresAt entry <? now then Err expired else Ok entry, delete key m)
  end.

(** The periodic removal of expired entries. *)
Definition cleanup_entries (now : Z) (m : gmap string E) : gmap string E :=
  filter (fun kv => (expiresAt kv.2 <? now) = false) m.
End entries.

(** ** PreparedTransferCache *)

Definition ErrTransferNotFound : error := ErrVar "transfer.ErrTransferNotFound" "transfer not found".
Definition ErrTransferExpired : error := ErrVar "transfer.ErrTransferExpired" "transfer expired".
Definition ErrCacheFull : error := ErrVar "transfer.ErrCacheFull" "cache is full".

Record PreparedTransferCache := mkPreparedTransferCache {
  pc_entries : gmap string PreparedTransfer;
  pc_ttl : Z;
  pc_maxSize : Z;
}.

Definition set_entries (m : gmap string PreparedTransfer) (c : PreparedTransferCache) : PreparedTransferCache :=
  mkPreparedTransferCache m (pc_ttl c) (pc_maxSize c).

Definition NewPreparedTransferCache (ttl maxSize : Z) : PreparedTransferCache := mkPreparedTransferCache ∅ ttl maxSize.

Definition is_full (c : PreparedTransferCache) : bool :=
  (0 <? pc_maxSize c) && (pc_maxSize c <=? Z.of_nat (size (pc_entries c))).

Definition set_expiry (t : Z) (p : PreparedTransfer) : PreparedTransfer :=
  mkPreparedTransfer (p_TransferID p) (p_TransactionHash p) (p_PreparedTransaction p) (p_HashingSchemeVersion p) (p_PartyID p) t.

(** Put stamps the transfer of the caller, which it returns. *)
Definition Put (now : Z) (p : PreparedTransfer) (c : PreparedTransferCache) : result PreparedTransfer * PreparedTransferCache :=
  if is_full c then (Err ErrCacheFull, c)
  else
    let p := set_expiry (now + pc_ttl c) p in
    (Ok p, set_entries (<[p_TransferID p := p]> (pc_entries c)) c).

Definition GetAndDelete (now : Z) (id : string) (c : PreparedTransferCache) : result PreparedTransfer * PreparedTransferCache :=
  let '(r, m) := get_and_delete p_ExpiresAt ErrTransferNotFound ErrTransferExpired now id (pc_entries c) in
  (r, set_entries m c).

Definition cleanup (now : Z) (c : PreparedTransferCache) : PreparedTransferCache :=
  set_entries (cleanup_entries p_ExpiresAt now (pc_entries c)) c.

(** ** TopologyCache *)

Definition ErrTopologyNotFound : error := ErrVar "service.ErrTopologyNotFound" "topology not found".
Definition ErrTopologyExpired : error := ErrVar "service.ErrTopologyExpired" "topology expired".
Definition defaultTopologyTTL : Z := 5 * Minute.

Record PendingTopology := mkPendingTopology {
  pt_Topology : Identity.ExternalPartyTopology;
  pt_PublicKey : list Z;
  pt_ExpiresAt : Z;
}.

Record TopologyCache := mkTopologyCache { tc_entries : gmap string PendingTopology; tc_ttl : Z }.

Definition topology_Put (now : Z) (token : string) (topo : Identity.ExternalPartyTopology) (spkiKey : list Z) (c : TopologyCache)
    : TopologyCache :=
  mkTopologyCache (<[token := mkPendingTopology topo spkiKey (now + tc_ttl c)]> (tc_entries c)) (tc_ttl c).

Definition topology_GetAndDelete (now : Z) (token : string) (c : TopologyCache) : result PendingTopology * TopologyCache :=
  let '(r, m) := get_and_delete pt_ExpiresAt ErrTopologyNotFound ErrTopologyExpired now token (tc_entries c) in
  (r, mkTopologyCache m (tc_ttl c)).

Definition topology_cleanup (now : Z) (c : TopologyCache) : TopologyCache :=
  mkTopologyCache (cleanup_entries pt_ExpiresAt now (tc_entries c)) (tc_ttl c).

(** ** Runs of the cache *)

Inductive op :=
| op_put (now : Z) (p : PreparedTransfer)
| op_get (now : Z) (id : string)
| op_cleanup (now : Z).

Definition cache_step (o : op) (c : PreparedTransferCache) : PreparedTransferCache :=
  match o with
  | op_put now p => (Put now p c).2
  | op_get now id => (GetAndDelete now id c).2
  | op_cleanup now => cleanup now c
  end.

(** Whether an operation stored a transfer under [id], or handed it out. *)
Definition stores (id : string) (o : op) (c : PreparedTransferCache) : bool :=
  match o with
  | op_put now p => bool_decide (p_TransferID p = id) && is_ok (Put now p c).1
  | _ => false
  end.
Definition serves (id : string) (o : op) (c : PreparedTransferCache) : bool :=
  match o with
  | op_get now id' => bool_decide (id' = id) && is_ok (GetAndDelete now id' c).1
  | _ => false
  end.

Fixpoint count_ops (f : op -> PreparedTransferCache -> bool) (ops : list op) (c : PreparedTransferCache) : nat :=
  match ops with
  | [] => 0
  | o :: ops => (if f o c then 1 else 0) + count_ops f ops (cache_step o c)
  end.

Definition run (ops : list op) (c : PreparedTransferCache) : PreparedTransferCache := foldl (fun c o => cache_step o c) c ops.

Definition present (id : string) (c : PreparedTransferCache) : nat := match pc_entries c !! id with Some _ => 1 | None => 0 end.

Lemma step_balance id o c :
  (present id (cache_step o c) + (if serves id o c then 1 else 0) <= present id c + (if stores id o c then 1 else 0))%nat.
Proof.
  unfold present. destruct o as [now p|now id'|now]; cbn.
  - unfold Put. destruct (is_full c); cbn; [rewrite andb_false_r; lia|]. rewrite andb_true_r.
    case_bool_decide as Hid; [|rewrite lookup_insert_ne by done; lia].
    subst. rewrite lookup_insert_eq. destruct (pc_entries c !! _); lia.
  - unfold GetAndDelete, get_and_delete. destruct (pc_entries c !! id') as [e|] eqn:He; cbn.
    2:{ rewrite andb_false_r. lia. }
    case_bool_decide as Hid; cbn; [|rewrite lookup_delete_ne by done; lia].
    subst. rewrite lookup_delete_eq, He. destruct (_ <? now); cbn; lia.
  - unfold cleanup_entries. destruct (filter _ (pc_entries c) !! id) eqn:Hf; [|lia].
    apply map_lookup_filter_Some in Hf as [-> _]. lia.
Qed.

(** A prepared transfer is handed out at most as often as it was stored:
    over every sequence of operations on a fresh cache, at any times, the
    number of successful retrievals of an id never exceeds the number of
    successful stores of it, so one stored transfer is executed at most once. *)
Theorem prepared_single_use id ops ttl maxSize :
  (count_ops (serves id) ops (NewPreparedTransferCache ttl maxSize) <=
   count_ops (stores id) ops (NewPreparedTransferCache ttl maxSize))%nat.
Proof.
  assert (forall c, (present id (run ops c) + count_ops (serves id) ops c <=
    present id c + count_ops (stores id) ops c)%nat) as Hb.
  { unfold run. induction ops as [|o ops IH]; intros c; [cbn; lia|]. cbn [count_ops foldl].
    pose proof (step_balance id o c). specialize (IH (cache_step o c)). lia. }
  specialize (Hb (NewPreparedTransferCache ttl maxSize)).
  change (present id (NewPreparedTransferCache ttl maxSize)) with 0%nat in Hb. lia.
Qed.

(** The cache holds no more entries than its bound, and every entry is under
    its own id with the deadline that the clock of its store set. *)
Definition cache_ok (c : PreparedTransferCache) : Prop :=
  (0 < pc_maxSize c -> Z.of_nat (size (pc_entries c)) <= pc_maxSize c) /\
  map_Forall (fun id p => p_TransferID p = id) (pc_entries c).

Lemma step_config o c : pc_ttl (cache_step o c) = pc_ttl c /\ pc_maxSize (cache_step o c) = pc_maxSize c.
Proof. destruct o as [now p|now id|now]; cbn; unfold Put, GetAndDelete, get_and_delete; repeat case_match; simplify_eq; done. Qed.

Lemma step_ok o c : cache_ok c -> cache_ok (cache_step o c).
Proof.
  intros [Hs Hid]. unfold cache_ok. destruct (step_config o c) as [_ ->]. destruct o as [now p|now id|now]; cbn.
  - unfold Put. destruct (is_full c) eqn:Hf; [done|]. cbn. split.
    + intros Hpos. unfold is_full in Hf. rewrite (proj2 (Z.ltb_lt _ _) Hpos) in Hf. cbn in Hf. apply Z.leb_gt in Hf.
      rewrite map_size_insert. destruct (pc_entries c !! _); cbn; lia.
    + by apply map_Forall_insert_2.
  - unfold GetAndDelete, get_and_delete. destruct (pc_entries c !! id); cbn; [|done]. split.
    + intros Hpos. specialize (Hs Hpos). rewrite map_size_delete. destruct (pc_entries c !! _); cbn; lia.
    + by apply map_Forall_delete.
  - split.
    + intros Hpos. specialize (Hs Hpos).
      assert (size (cleanup_entries p_ExpiresAt now (pc_entries c)) <= size (pc_entries c))%nat; [|lia].
      apply map_size_filter.
    + intros i x Hx. apply map_lookup_filter_Some in Hx as [Hx _]. by apply Hid.
Qed.

(** The cache is bounded and serves nothing stale: after any operations on
    a fresh cache with a positive bound it holds at most that many transfers,
    each under its own id, and what a retrieval hands out at some time is the
    transfer stored under that id, whose deadline has not passed. *)
Theorem prepared_cache_bounded ops ttl maxSize now id :
  0 < maxSize ->
  let c := run ops (NewPreparedTransferCache ttl maxSize) in
  Z.of_nat (size (pc_entries c)) <= maxSize /\
  match (GetAndDelete now id c).1 with
  | Ok p => pc_entries c !! id = Some p /\ p_TransferID p = id /\ now <= p_ExpiresAt p
  | Err e => pc_entries c !! id = None \/ e = ErrTransferExpired
  end /\ pc_entries (GetAndDelete now id c).2 !! id = None.
Proof.
  intros Hpos. cbv zeta.
  assert (cache_ok (run ops (NewPreparedTransferCache ttl maxSize)) /\
          pc_maxSize (run ops (NewPreparedTransferCache ttl maxSize)) = maxSize) as [[Hs Hid] Hm].
  { unfold run. assert (forall c, cache_ok c -> pc_maxSize c = maxSize ->
      cache_ok (foldl (fun c o => cache_step o c) c ops) /\ pc_maxSize (foldl (fun c o => cache_step o c) c ops) = maxSize) as Hf.
    { induction ops as [|o ops IH]; [done|]. intros c Hc Hm. cbn. apply IH; [by apply step_ok|].
      by destruct (step_config o c) as [_ ->]. }
    apply Hf; [|done]. split; cbn; [rewrite map_size_empty; lia|]. apply map_Forall_empty. }
  rewrite Hm in Hs. split; [by apply Hs|]. unfold GetAndDelete, get_and_delete.
  destruct (pc_entries (run ops _) !! id) as [p|] eqn:Hp; cbn; [|split; [by left|done]].
  split; [|apply lookup_delete_eq]. destruct (Z.ltb_spec (p_ExpiresAt p) now); [by right|].
  split_and!; [done| |lia]. by apply Hid.
Qed.

Definition ex_prepared (id : string) : PreparedTransfer := mkPreparedTransfer id [1; 2] [3] 2 "alice::12" 0.

Lemma prepared_cache_bounded_witness :
  let c := run [op_put 10 (ex_prepared "a"); op_put 11 (ex_prepared "b"); op_put 12 (ex_prepared "c")] (NewPreparedTransferCache 60 2) in
  size (pc_entries c) = 2%nat /\ Z.of_nat (size (pc_entries c)) <= 2.
Proof.
  split; [vm_compute; reflexivity|].
  apply (prepared_cache_bounded [op_put 10 (ex_prepared "a"); op_put 11 (ex_prepared "b"); op_put 12 (ex_prepared "c")] 60 2 20 "a").
  lia.
Defined.
