(* ===== verification/IndexerStore.v ===== *)
(** * Indexer store: pkg/indexer/types.go, pkg/indexer/store

    The indexer's data types, its six tables as finite maps keyed by their
    primary keys, and each method of PGStore as the statements it executes.
    Amounts are decimal texts, as in the tables; the decimal package and
    PostgreSQL's numeric type are interfaces. *)

From S2P Require Import Prelude AppErrors Effects GoStd Decimal.
From Stdlib Require Import QArith Qcanon.
Local Open Scope Z_scope.

(** ** Types (types.go) *)

Definition TransferStatusPending : string := "pending".
Definition TransferStatusExpired : string := "expired".
Definition TransferStatusCompleted : string := "completed".
Definition TransferStatusCanceled : string := "canceled".
Definition TransferStatusRejected : string := "rejected".

Definition TransferKindDirect : string := "direct".
Definition TransferKindOffer : string := "offer".

Definition TransferRoleSender : string := "sender".
Definition TransferRoleReceiver : string := "receiver".
Definition TransferRoleAny : string := "any".

Definition EventMint : string := "MINT".
Definition EventBurn : string := "BURN".
Definition EventTransfer : string := "TRANSFER".

(** TransferQuery *)
Record TransferQuery := mkTransferQuery { q_Role : string; q_Status : string }.

(** Transfer, times in microseconds since the epoch; [tr_Archived] is a signal of the decoder that is not stored. *)
Record Transfer := mkTransfer {
  tr_ContractID : string;
  tr_Kind : string;
  tr_Status : string;
  tr_FromPartyID : string;
  tr_ToPartyID : string;
  tr_InstrumentAdmin : string;
  tr_InstrumentID : string;
  tr_Amount : string;
  tr_ExpiresAt : option Z;
  tr_TxID : string;
  tr_LedgerOffset : Z;
  tr_CreatedAt : Z;
  tr_Archived : bool;
}.

(** ParsedEvent: a decoded TokenTransferEvent. *)
Record ParsedEvent := mkParsedEvent {
  pe_InstrumentID : string;
  pe_InstrumentAdmin : string;
  pe_Issuer : string;
  pe_EventType : string;
  pe_Amount : string;
  pe_FromPartyID : option string;
  pe_ToPartyID : option string;
  pe_ExternalTxID : option string;
  pe_ExternalAddress : option string;
  pe_Fingerprint : option string;
  pe_ContractID : string;
  pe_TxID : string;
  pe_LedgerOffset : Z;
  pe_Timestamp : Z;
  pe_EffectiveTime : Z;
}.

(** HoldingChange: a Utility.Registry Holding created or archived. *)
Record HoldingChange := mkHoldingChange {
  h_ContractID : string;
  h_IsArchived : bool;
  h_LedgerOffset : Z;
  h_Owner : string;
  h_InstrumentAdmin : string;
  h_InstrumentID : string;
  h_Amount : string;
  h_Locked : bool;
}.

Record Token := mkToken {
  tk_InstrumentAdmin : string;
  tk_InstrumentID : string;
  tk_Issuer : string;
  tk_TotalSupply : string;
  tk_HolderCount : Z;
  tk_FirstSeenOffset : Z;
  tk_FirstSeenAt : Z;
}.

Record Balance := mkBalance {
  b_PartyID : string;
  b_InstrumentAdmin : string;
  b_InstrumentID : string;
  b_Amount : string;
}.

Record Pagination := mkPagination { Page : Z; Limit : Z }.

Record EventFilter := mkEventFilter {
  f_InstrumentAdmin : string;
  f_InstrumentID : string;
  f_PartyID : string;
  f_EventType : string;
}.

(** ** Rows (store/model.go) *)

(** EventDao has the columns of ParsedEvent, the event type as text. *)
Record EventDao := mkEventDao {
  ed_ContractID : string;
  ed_InstrumentID : string;
  ed_InstrumentAdmin : string;
  ed_Issuer : string;
  ed_EventType : string;
  ed_Amount : string;
  ed_FromPartyID : option string;
  ed_ToPartyID : option string;
  ed_ExternalTxID : option string;
  ed_ExternalAddress : option string;
  ed_Fingerprint : option string;
  ed_TxID : string;
  ed_LedgerOffset : Z;
  ed_Timestamp : Z;
  ed_EffectiveTime : Z;
}.

Record TransferDao := mkTransferDao {
  td_ContractID : string;
  td_Kind : string;
  td_Status : string;
  td_FromPartyID : string;
  td_ToPartyID : string;
  td_InstrumentAdmin : string;
  td_InstrumentID : string;
  td_Amount : string;
  td_ExpiresAt : option Z;
  td_TxID : string;
  td_LedgerOffset : Z;
  td_CreatedAt : Z;
}.

Record HoldingDao := mkHoldingDao {
  hd_ContractID : string;
  hd_Owner : string;
  hd_InstrumentAdmin : string;
  hd_InstrumentID : string;
  hd_Amount : string;
  hd_LedgerOffset : Z;
}.

Definition toEventDao (e : ParsedEvent) : EventDao :=
  mkEventDao (pe_ContractID e) (pe_InstrumentID e) (pe_InstrumentAdmin e) (pe_Issuer e)
    (pe_EventType e) (pe_Amount e) (pe_FromPartyID e) (pe_ToPartyID e) (pe_ExternalTxID e)
    (pe_ExternalAddress e) (pe_Fingerprint e) (pe_TxID e) (pe_LedgerOffset e) (pe_Timestamp e)
    (pe_EffectiveTime e).

Definition fromEventDao (d : EventDao) : ParsedEvent :=
  mkParsedEvent (ed_InstrumentID d) (ed_InstrumentAdmin d) (ed_Issuer d) (ed_EventType d)
    (ed_Amount d) (ed_FromPartyID d) (ed_ToPartyID d) (ed_ExternalTxID d) (ed_ExternalAddress d)
    (ed_Fingerprint d) (ed_ContractID d) (ed_TxID d) (ed_LedgerOffset d) (ed_Timestamp d)
    (ed_EffectiveTime d).

Definition toTransferDao (t : Transfer) : TransferDao :=
  mkTransferDao (tr_ContractID t) (tr_Kind t) (tr_Status t) (tr_FromPartyID t) (tr_ToPartyID t)
    (tr_InstrumentAdmin t) (tr_InstrumentID t) (tr_Amount t) (tr_ExpiresAt t) (tr_TxID t)
    (tr_LedgerOffset t) (tr_CreatedAt t).

Definition fromTransferDao (d : TransferDao) : Transfer :=
  mkTransfer (td_ContractID d) (td_Kind d) (td_Status d) (td_FromPartyID d) (td_ToPartyID d)
    (td_InstrumentAdmin d) (td_InstrumentID d) (td_Amount d) (td_ExpiresAt d) (td_TxID d)
    (td_LedgerOffset d) (td_CreatedAt d) false.

(** ** The tables *)

Abbreviation InstrumentKey := (string * string)%type.
Abbreviation BalanceKey := (string * InstrumentKey)%type.

(** indexer_events, indexer_tokens, indexer_balances, indexer_offsets (its
    only row), indexer_holdings, indexer_transfers. *)
Record IndexerTables := mkIndexerTables {
  events : gmap string EventDao;
  tokens : gmap InstrumentKey Token;
  balances : gmap BalanceKey string;
  offset : option Z;
  holdings : gmap string HoldingDao;
  transfers : gmap string TransferDao;
}.

Abbreviation IndexerDB := (DB IndexerTables).

Definition put_events m t := mkIndexerTables m (tokens t) (balances t) (offset t) (holdings t) (transfers t).
Definition put_tokens m t := mkIndexerTables (events t) m (balances t) (offset t) (holdings t) (transfers t).
Definition put_balances m t := mkIndexerTables (events t) (tokens t) m (offset t) (holdings t) (transfers t).
Definition put_offset m t := mkIndexerTables (events t) (tokens t) (balances t) m (holdings t) (transfers t).
Definition put_holdings m t := mkIndexerTables (events t) (tokens t) (balances t) (offset t) m (transfers t).
Definition put_transfers m t := mkIndexerTables (events t) (tokens t) (balances t) (offset t) (holdings t) m.

(** ** PostgreSQL's numeric type *)

(** [(a::numeric + b::numeric)::text], [None] when a cast fails. *)
Class PgNumeric := numeric_add_text : string -> string -> option string.

(** Addition of numerics is exact on the decimal texts the program writes. *)
Class PgNumericLaws `{DecimalLib} `{!PgNumeric} : Prop := numeric_add_exact : forall a b x y,
  NewFromString a = Some x -> NewFromString b = Some y ->
  exists s z, numeric_add_text a b = Some s /\ NewFromString s = Some z /\
    dec_val z = (dec_val x + dec_val y)%Qc.

(** ** PGStore: the write path *)

(** engine.ErrNegativeBalance *)
Definition ErrNegativeBalance : error := ErrVar "ErrNegativeBalance" "negative balance".
Definition is_ErrNegativeBalance (e : error) : bool := errors_Is e "ErrNegativeBalance" "negative balance".

Section PGStore.
Context `{!DecimalLib} `{!PgNumeric}.

Definition LatestOffset : M IndexerDB Z :=
  o ← wrapping "latest offset: " (query offset);
  mret (default 0 o).

(** INSERT ... ON CONFLICT (contract_id) DO NOTHING *)
Definition InsertEvent (e : ParsedEvent) : M IndexerDB bool :=
  n ← wrapping "insert event: " (exec (fun tb =>
        match events tb !! pe_ContractID e with
        | Some _ => (0, tb)
        | None => (1, put_events (<[pe_ContractID e := toEventDao e]> (events tb)) tb)
        end));
  n ← wrapping "insert event rows affected: " (RowsAffected n);
  mret (0 <? n).

(** INSERT (1, offset) ON CONFLICT (id) DO UPDATE SET ledger_offset *)
Definition SaveOffset (o : Z) : M IndexerDB unit :=
  wrapping "save offset: " (exec (fun tb => (tt, put_offset (Some o) tb))).

Definition UpsertToken (t : Token) : M IndexerDB unit :=
  let key := (tk_InstrumentAdmin t, tk_InstrumentID t) in
  wrapping "upsert token: " (exec (fun tb =>
    match tokens tb !! key with
    | Some _ => (tt, tb)
    | None => (tt, put_tokens (<[key := mkToken (tk_InstrumentAdmin t) (tk_InstrumentID t)
                  (tk_Issuer t) "0" 0 (tk_FirstSeenOffset t) (tk_FirstSeenAt t)]> (tokens tb)) tb)
    end)).

Definition set_supply (s : string) (t : Token) : Token :=
  mkToken (tk_InstrumentAdmin t) (tk_InstrumentID t) (tk_Issuer t) s (tk_HolderCount t)
    (tk_FirstSeenOffset t) (tk_FirstSeenAt t).
Definition add_holders (n : Z) (t : Token) : Token :=
  mkToken (tk_InstrumentAdmin t) (tk_InstrumentID t) (tk_Issuer t) (tk_TotalSupply t)
    (tk_HolderCount t + n) (tk_FirstSeenOffset t) (tk_FirstSeenAt t).

(** UPDATE ... SET total_supply = (total_supply::numeric + delta::numeric)::text;
    the statement fails when a cast does. *)
Definition ApplySupplyDelta (admin id delta : string) : M IndexerDB unit :=
  wrapping "apply supply delta: " (
    ok ← exec (fun tb =>
      match tokens tb !! (admin, id) with
      | None => (true, tb)
      | Some t =>
          match numeric_add_text (tk_TotalSupply t) delta with
          | Some s => (true, put_tokens (<[(admin, id) := set_supply s t]> (tokens tb)) tb)
          | None => (false, tb)
          end
      end);
    if ok : bool then mret tt else fail (ErrNew "invalid input syntax for type numeric")).

Definition holderDelta (wasZero isZero : bool) : Z :=
  match wasZero, isZero with
  | true, false => 1
  | false, true => -1
  | _, _ => 0
  end.

(** Read the balance, compute and upsert the new one, adjust holder_count. *)
Definition ApplyBalanceDelta (party admin id delta : string) : M IndexerDB unit :=
  let key := (party, (admin, id)) in
  row ← wrapping "read balance: " (query (fun tb => balances tb !! key));
  oldAmount ← match row with
              | None => mret dec_Zero
              | Some a => match NewFromString a with
                          | Some d => mret d
                          | None => fail (ErrWrap ("parse old amount " +:+ quoted a +:+ ": ")
                                            (ErrNew "can't convert to decimal") "")
                          end
              end;
  match NewFromString delta with
  | None => fail (ErrWrap ("parse delta " +:+ quoted delta +:+ ": ") (ErrNew "can't convert to decimal") "")
  | Some d =>
      let newAmount := dec_Add oldAmount d in
      if dec_IsNegative newAmount then
        fail (ErrWrap "" ErrNegativeBalance (" for party " +:+ party +:+ " on " +:+ admin +:+ "/" +:+ id
               +:+ ": current=" +:+ dec_String oldAmount +:+ " delta=" +:+ delta))
      else
        _ ← wrapping "upsert balance: " (exec (fun tb =>
              (tt, put_balances (<[key := dec_String newAmount]> (balances tb)) tb)));
        let wasZero := negb (bool_decide (is_Some row)) || dec_IsZero oldAmount in
        let n := holderDelta wasZero (dec_IsZero newAmount) in
        if n =? 0 then mret tt
        else wrapping "update holder count: " (exec (fun tb =>
               (tt, put_tokens (alter (add_holders n) (admin, id) (tokens tb)) tb)))
  end.

(** INSERT ... ON CONFLICT (contract_id) DO NOTHING; the row count is not looked at. *)
Definition InsertHolding (h : HoldingChange) : M IndexerDB unit :=
  wrapping "insert holding: " (exec (fun tb =>
    match holdings tb !! h_ContractID h with
    | Some _ => (tt, tb)
    | None => (tt, put_holdings (<[h_ContractID h := mkHoldingDao (h_ContractID h) (h_Owner h)
                  (h_InstrumentAdmin h) (h_InstrumentID h) (h_Amount h) (h_LedgerOffset h)]>
                  (holdings tb)) tb)
    end)).

Definition TakeHolding (contractID : string) : M IndexerDB (option HoldingChange) :=
  row ← wrapping "select holding: " (query (fun tb => holdings tb !! contractID));
  match row with
  | None => mret None
  | Some d =>
      _ ← wrapping "delete holding: " (exec (fun tb =>
            (tt, put_holdings (delete contractID (holdings tb)) tb)));
      mret (Some (mkHoldingChange (hd_ContractID d) false (hd_LedgerOffset d) (hd_Owner d)
                    (hd_InstrumentAdmin d) (hd_InstrumentID d) (hd_Amount d) false))
  end.

Definition InsertTransfer (t : Transfer) : M IndexerDB unit :=
  wrapping "insert transfer: " (exec (fun tb =>
    match transfers tb !! tr_ContractID t with
    | Some _ => (tt, tb)
    | None => (tt, put_transfers (<[tr_ContractID t := toTransferDao t]> (transfers tb)) tb)
    end)).

Definition set_td_status (s : string) (t : TransferDao) : TransferDao :=
  mkTransferDao (td_ContractID t) (td_Kind t) s (td_FromPartyID t) (td_ToPartyID t)
    (td_InstrumentAdmin t) (td_InstrumentID t) (td_Amount t) (td_ExpiresAt t) (td_TxID t)
    (td_LedgerOffset t) (td_CreatedAt t).

(** UPDATE ... SET status WHERE contract_id = ? AND status = 'pending' *)
Definition FinalizeTransfer (contractID status : string) : M IndexerDB unit :=
  wrapping "finalize transfer: " (exec (fun tb =>
    (tt, put_transfers (alter (fun t =>
           if bool_decide (td_Status t = TransferStatusPending) then set_td_status status t else t)
           contractID (transfers tb)) tb))).
End PGStore.

(** ** PGStore: the read path *)

(** The derived status: a pending row past its expiry reads as expired. *)
Definition surface_expired (now : Z) (t : Transfer) : Transfer :=
  match tr_ExpiresAt t with
  | Some exp =>
      if bool_decide (tr_Status t = TransferStatusPending) && (exp <=? now) then
        mkTransfer (tr_ContractID t) (tr_Kind t) TransferStatusExpired (tr_FromPartyID t) (tr_ToPartyID t)
          (tr_InstrumentAdmin t) (tr_InstrumentID t) (tr_Amount t) (tr_ExpiresAt t) (tr_TxID t)
          (tr_LedgerOffset t) (tr_CreatedAt t) (tr_Archived t)
      else t
  | None => t
  end.

Definition GetTransfer (now : Z) (contractID : string) : M IndexerDB (option Transfer) :=
  row ← wrapping "get transfer: " (query (fun tb => transfers tb !! contractID));
  mret ((fun d => surface_expired now (fromTransferDao d)) <$> row).

(** The WHERE clause of ListTransfers for a role. *)
Definition role_matches (role party : string) (t : TransferDao) : bool :=
  if bool_decide (role = TransferRoleSender) then bool_decide (td_FromPartyID t = party)
  else if bool_decide (role = TransferRoleAny)
  then bool_decide (td_FromPartyID t = party) || bool_decide (td_ToPartyID t = party)
  else bool_decide (td_ToPartyID t = party).

(** [expires_at IS NULL OR expires_at > now] *)
Definition not_expired (now : Z) (t : TransferDao) : bool :=
  match td_ExpiresAt t with None => true | Some exp => now <? exp end.

(** The WHERE clause of ListTransfers for a status. *)
Definition status_matches (now : Z) (status : string) (t : TransferDao) : bool :=
  if bool_decide (status = TransferStatusPending) then
    bool_decide (td_Status t = TransferStatusPending) && not_expired now t
  else if bool_decide (status = TransferStatusExpired) then
    bool_decide (td_Status t = TransferStatusPending) && negb (not_expired now t)
  else if bool_decide (status = TransferStatusCompleted) then bool_decide (td_Status t = TransferStatusCompleted)
  else if bool_decide (status = TransferStatusCanceled) then bool_decide (td_Status t = TransferStatusCanceled)
  else if bool_decide (status = TransferStatusRejected) then bool_decide (td_Status t = TransferStatusRejected)
  else true.

(** The rows that satisfy a condition, in an order; ties in key order. *)
Definition select_rows {A K} `{Countable K} (P : A -> bool) (R : A -> A -> bool) (m : gmap K A) : list A :=
  merge_sort (fun a b => Is_true (R a b)) (List.filter P (snd <$> map_to_list m)).

(** LIMIT and OFFSET of a 1-based page. *)
Definition page_of {A} (p : Pagination) (l : list A) : list A :=
  sql_limit (Limit p) (drop (Z.to_nat ((Page p - 1) * Limit p)) l).

(** runReadTx around Count and Scan: both see the same rows. *)
Definition list_page {A} (what : string) (rows : IndexerTables -> list A) (p : Pagination)
    : M IndexerDB (list A * Z) :=
  wrapping (what +:+ ": ") (
    total ← wrapping "count: " (query (fun tb => Z.of_nat (length (rows tb))));
    items ← query (fun tb => page_of p (rows tb));
    mret (items, total)).

Definition transfer_rows (now : Z) (party : string) (q : TransferQuery) (tb : IndexerTables) : list TransferDao :=
  select_rows (fun t => role_matches (q_Role q) party t && status_matches now (q_Status q) t)
    (fun a b => td_CreatedAt b <=? td_CreatedAt a) (transfers tb).

Definition ListTransfers (now : Z) (party : string) (q : TransferQuery) (p : Pagination)
    : M IndexerDB (list Transfer * Z) :=
  '(daos, total) ← list_page "list transfers" (transfer_rows now party q) p;
  mret ((fun d => surface_expired now (fromTransferDao d)) <$> (daos : list TransferDao), total : Z).

Definition pending_offer_rows (now : Z) (tb : IndexerTables) : list TransferDao :=
  select_rows (fun t => bool_decide (td_Kind t = TransferKindOffer) &&
      bool_decide (td_Status t = TransferStatusPending) && not_expired now t)
    (fun a b => td_CreatedAt a <=? td_CreatedAt b) (transfers tb).

Definition ListPendingTransfers (now : Z) (p : Pagination) : M IndexerDB (list Transfer * Z) :=
  '(daos, total) ← list_page "list pending transfers" (pending_offer_rows now) p;
  mret (fromTransferDao <$> (daos : list TransferDao), total : Z).

Definition GetToken (admin id : string) : M IndexerDB (option Token) :=
  wrapping "get token: " (query (fun tb => tokens tb !! (admin, id))).

Definition ListTokens (p : Pagination) : M IndexerDB (list Token * Z) :=
  list_page "list tokens" (fun tb =>
    select_rows (fun _ => true) (fun a b => tk_FirstSeenOffset a <=? tk_FirstSeenOffset b) (tokens tb)) p.

(** fromBalanceDao, the key columns coming from the primary key. *)
Definition fromBalanceDao (k : BalanceKey) (amount : string) : Balance :=
  mkBalance k.1 k.2.1 k.2.2 amount.

Definition GetBalance (party admin id : string) : M IndexerDB (option Balance) :=
  wrapping "get balance: " (query (fun tb =>
    fromBalanceDao (party, (admin, id)) <$> balances tb !! (party, (admin, id)))).

Definition string_leb (a b : string) : bool := String.leb a b.

Definition balance_rows (P : Balance -> bool) (R : Balance -> Balance -> bool) (tb : IndexerTables) : list Balance :=
  select_rows P R (map_imap (fun k a => Some (fromBalanceDao k a)) (balances tb)).

Definition ListBalancesForParty (party : string) (p : Pagination) : M IndexerDB (list Balance * Z) :=
  list_page "list balances for party" (balance_rows
    (fun b => bool_decide (b_PartyID b = party))
    (fun a b => if bool_decide (b_InstrumentAdmin a = b_InstrumentAdmin b)
                then string_leb (b_InstrumentID a) (b_InstrumentID b)
                else string_leb (b_InstrumentAdmin a) (b_InstrumentAdmin b))) p.

Definition ListBalancesForToken (admin id : string) (p : Pagination) : M IndexerDB (list Balance * Z) :=
  list_page "list balances for token" (balance_rows
    (fun b => bool_decide (b_InstrumentAdmin b = admin) && bool_decide (b_InstrumentID b = id))
    (fun a b => string_leb (b_PartyID a) (b_PartyID b))) p.

Definition GetEvent (contractID : string) : M IndexerDB (option ParsedEvent) :=
  row ← wrapping "get event: " (query (fun tb => events tb !! contractID));
  mret (fromEventDao <$> row).

(** The WHERE clauses of ListEvents; empty filter fields do not constrain. *)
Definition event_matches (f : EventFilter) (e : EventDao) : bool :=
  (bool_decide (f_InstrumentAdmin f = ""%string) || bool_decide (ed_InstrumentAdmin e = f_InstrumentAdmin f)) &&
  (bool_decide (f_InstrumentID f = ""%string) || bool_decide (ed_InstrumentID e = f_InstrumentID f)) &&
  (bool_decide (f_PartyID f = ""%string) ||
   bool_decide (ed_FromPartyID e = Some (f_PartyID f)) || bool_decide (ed_ToPartyID e = Some (f_PartyID f))) &&
  (bool_decide (f_EventType f = ""%string) || bool_decide (ed_EventType e = f_EventType f)).

Definition ListEvents (f : EventFilter) (p : Pagination) : M IndexerDB (list ParsedEvent * Z) :=
  '(daos, total) ← list_page "list events" (fun tb =>
    select_rows (event_matches f) (fun a b => ed_LedgerOffset a <=? ed_LedgerOffset b) (events tb)) p;
  mret (fromEventDao <$> (daos : list EventDao), total : Z).
