(* ===== verification/IndexerProcessor.v ===== *)
(** * Indexer processor: pkg/indexer/engine/processor.go

    Decoded batches applied to the store, one database transaction each, with
    retries; metrics and logs are left out. *)

From S2P Require Import Prelude AppErrors Effects GoStd Decimal DamlValues Streaming IndexerStore.
From Stdlib Require Import Ascii QArith Qcanon.
Local Open Scope Z_scope.

(** The items a batch may hold; any other value is skipped. *)
Inductive Item :=
| ItemEvent (e : ParsedEvent)
| ItemTransfer (t : Transfer)
| ItemHolding (h : HoldingChange)
| ItemOther.

Definition processorRetryBaseDelay : Z := 5 * Second.
Definition processorRetryMaxDelay : Z := 60 * Second.

(** tokenFromEvent *)
Definition tokenFromEvent (e : ParsedEvent) : Token :=
  mkToken (pe_InstrumentAdmin e) (pe_InstrumentID e) (pe_Issuer e) "" 0
    (pe_LedgerOffset e) (pe_EffectiveTime e).

(** supplyDeltaFromEvent *)
Definition supplyDeltaFromEvent (e : ParsedEvent) : option (string * string * string) :=
  if bool_decide (pe_EventType e = EventMint) then
    Some (pe_InstrumentAdmin e, pe_InstrumentID e, pe_Amount e)
  else if bool_decide (pe_EventType e = EventBurn) then
    Some (pe_InstrumentAdmin e, pe_InstrumentID e, "-" +:+ pe_Amount e)
  else None.

(** isNegativeDelta *)
Definition isNegativeDelta (delta : string) : bool :=
  match delta with
  | String.String c _ => bool_decide (c = "-"%char)
  | String.EmptyString => false
  end.

(** balanceUpdatesFromEvent: (party, signed delta) pairs. *)
Definition balanceUpdatesFromEvent (e : ParsedEvent) : list (string * string) :=
  let neg := ("-" +:+ pe_Amount e)%string in
  if bool_decide (pe_EventType e = EventMint) then
    match pe_ToPartyID e with None => [] | Some to => [(to, pe_Amount e)] end
  else if bool_decide (pe_EventType e = EventBurn) then
    match pe_FromPartyID e with None => [] | Some from => [(from, neg)] end
  else if bool_decide (pe_EventType e = EventTransfer) then
    match pe_FromPartyID e, pe_ToPartyID e with
    | Some from, Some to => [(from, neg); (to, pe_Amount e)]
    | _, _ => []
    end
  else [].

(** The settled transfer a TRANSFER event records. *)
Definition direct_transfer (e : ParsedEvent) (from to : string) : Transfer :=
  mkTransfer (pe_ContractID e) TransferKindDirect TransferStatusCompleted from to
    (pe_InstrumentAdmin e) (pe_InstrumentID e) (pe_Amount e) None (pe_TxID e)
    (pe_LedgerOffset e) (pe_EffectiveTime e) false.

Section Processor.
Context `{!DecimalLib} `{!PgNumeric}.

(** One balance update of an event, with the underflow of a transfer's
    sender tolerated. *)
Definition applyUpdate (e : ParsedEvent) (u : string * string) : M IndexerDB unit :=
  r ← attempt (ApplyBalanceDelta u.1 (pe_InstrumentAdmin e) (pe_InstrumentID e) u.2);
  match r with
  | Ok _ => mret tt
  | Err err =>
      if bool_decide (pe_EventType e = EventTransfer) && isNegativeDelta u.2 && is_ErrNegativeBalance err
      then mret tt
      else fail (ErrWrap "apply balance delta: " err "")
  end.

(** processTransferEvent *)
Definition processTransferEvent (e : ParsedEvent) : M IndexerDB unit :=
  inserted ← wrapping "insert event: " (InsertEvent e);
  if negb inserted then mret tt
  else
    _ ← wrapping "upsert token: " (UpsertToken (tokenFromEvent e));
    _ ← match supplyDeltaFromEvent e with
        | Some (admin, id, delta) => wrapping "apply supply delta: " (ApplySupplyDelta admin id delta)
        | None => mret tt
        end;
    _ ← for_each (balanceUpdatesFromEvent e) (applyUpdate e);
    match pe_FromPartyID e, pe_ToPartyID e with
    | Some from, Some to =>
        if bool_decide (pe_EventType e = EventTransfer) then
          wrapping "insert direct transfer: " (InsertTransfer (direct_transfer e from to))
        else mret tt
    | _, _ => mret tt
    end.

(** processHoldingChange *)
Definition processHoldingChange (h : HoldingChange) : M IndexerDB unit :=
  if h_IsArchived h then
    taken ← wrapping ("take holding " +:+ h_ContractID h +:+ ": ") (TakeHolding (h_ContractID h));
    match taken with
    | None => mret tt
    | Some stored =>
        r ← attempt (ApplyBalanceDelta (h_Owner stored) (h_InstrumentAdmin stored)
                       (h_InstrumentID stored) ("-" +:+ h_Amount stored));
        match r with
        | Ok _ => mret tt
        | Err err => if is_ErrNegativeBalance err then mret tt
                     else fail (ErrWrap "apply holding archive delta: " err "")
        end
    end
  else if bool_decide (h_Owner h = ""%string) || bool_decide (h_InstrumentID h = ""%string)
          || bool_decide (h_InstrumentAdmin h = ""%string) then mret tt
  else if h_Locked h then mret tt
  else
    _ ← wrapping ("insert holding " +:+ h_ContractID h +:+ ": ") (InsertHolding h);
    wrapping "apply holding create delta: "
      (ApplyBalanceDelta (h_Owner h) (h_InstrumentAdmin h) (h_InstrumentID h) (h_Amount h)).

(** The terminal status an archived offer is finalized with. *)
Definition archive_status (t : Transfer) : string :=
  if bool_decide (tr_Status t = ""%string) then TransferStatusCompleted else tr_Status t.

Definition processItem (i : Item) : M IndexerDB unit :=
  match i with
  | ItemEvent e => processTransferEvent e
  | ItemTransfer t =>
      if tr_Archived t then
        wrapping ("finalize transfer " +:+ tr_ContractID t +:+ ": ")
          (FinalizeTransfer (tr_ContractID t) (archive_status t))
      else wrapping ("insert transfer " +:+ tr_ContractID t +:+ ": ") (InsertTransfer t)
  | ItemHolding h => processHoldingChange h
  | ItemOther => mret tt
  end.

(** The transaction's body: every item in order, then the offset. *)
Definition batch_body (b : Batch Item) : M IndexerDB unit :=
  _ ← for_each (Items b) processItem;
  wrapping "save offset: " (SaveOffset (b_Offset b)).

(** processBatch *)
Definition processBatch (b : Batch Item) : M IndexerDB unit :=
  wrapping ("tx at offset " +:+ FormatInt (b_Offset b) +:+ ": ") (RunInTx (batch_body b)).

Definition ctx_canceled : error := ErrVar "context.Canceled" "context canceled".

(** processBatchWithRetry, when ctx is canceled during the wait after the
    given number of failed attempts; returns the waits. *)
Fixpoint processBatchWithRetry (attempts : nat) (delay : Z) (waits : list Z) (b : Batch Item)
    : M IndexerDB (list Z) :=
  match attempts with
  | O => fail ctx_canceled
  | S attempts =>
      r ← attempt (processBatch b);
      match r with
      | Ok _ => mret waits
      | Err _ => processBatchWithRetry attempts (Z.min (delay * 2) processorRetryMaxDelay)
                   (waits ++ [delay]) b
      end
  end.

(** Run: resume from the stored offset and consume the fetcher's batches. *)
Definition Run (attempts : nat) (fetch : Z -> list (Batch Item)) : M IndexerDB unit :=
  o ← wrapping "load resume offset: " LatestOffset;
  for_each (fetch o) (fun b =>
    _ ← processBatchWithRetry attempts processorRetryBaseDelay [] b; mret tt).
End Processor.

(** ** Atomicity *)

Section Atomicity.
Context `{!DecimalLib} `{!PgNumeric}.

Lemma batch_body_offset b d d0 : batch_body b d = (Ok tt, d0) -> offset (tables d0) = Some (b_Offset b).
Proof.
  unfold batch_body, mbind, M_bind. destruct (for_each _ _ _) as [[[]|e] d1]; [|done].
  unfold wrapping, SaveOffset, exec. unfold wrapping.
  destruct (faults d1) as [|[m|] fs1]; cbn; by intros [= <-].
Qed.

Lemma processBatch_commit b d :
  wp (processBatch b) (fun r d' =>
    match r with
    | Err _ => tables d' = tables d
    | Ok _ => exists d0, batch_body b d = (Ok tt, d0) /\ tables d' = tables d0
    end) d.
Proof.
  unfold processBatch. apply wp_wrapping, wp_RunInTx, wp_intro.
  intros [[]|e] d0 Hrun; cbn; [|done]. split; [|done]. intros fs. by exists d0.
Qed.

(** A batch is all or nothing.  Whichever statement fails, a failed batch
    leaves every table as it was, and a successful one has moved the tables
    by its whole body with the offset at the batch's own offset. *)
Theorem processBatch_atomic b d :
  wp (processBatch b) (fun r d' =>
    match r with
    | Err _ => tables d' = tables d
    | Ok _ => offset (tables d') = Some (b_Offset b) /\
        exists d0, batch_body b d = (Ok tt, d0) /\ tables d' = tables d0
    end) d.
Proof.
  eapply wp_mono; [apply processBatch_commit|]. intros [[]|e] d'; [|done].
  intros (d0 & Hrun & Ht). rewrite Ht. split; [by eapply batch_body_offset|eauto].
Qed.

(** ** Progress of the retry loop *)

Lemma strict_ApplyBalanceDelta p a i x : schedule_strict (ApplyBalanceDelta p a i x).
Proof.
  unfold ApplyBalanceDelta. apply strict_bind; [auto with schedule|]. intros row.
  apply mono_bind; [repeat case_match; auto with schedule|]. intros old.
  case_match; [|auto with schedule]. case_match; [auto with schedule|].
  apply mono_bind; [auto with schedule|]. intros _. case_match; auto with schedule.
Qed.

Lemma mono_for_each {X} (l : list X) (f : X -> M IndexerDB unit) :
  (forall x, schedule_mono (f x)) -> schedule_mono (for_each l f).
Proof. intros Hf. induction l as [|x l IH]; cbn; auto with schedule. Qed.

Lemma mono_applyUpdate e u : schedule_mono (applyUpdate e u).
Proof.
  unfold applyUpdate. apply mono_bind.
  - apply mono_attempt, strict_mono, strict_ApplyBalanceDelta.
  - intros [[]|err]; [auto with schedule|]. case_match; auto with schedule.
Qed.

Lemma strict_processTransferEvent e : schedule_strict (processTransferEvent e).
Proof.
  unfold processTransferEvent. apply strict_bind.
  { unfold InsertEvent, RowsAffected. auto 10 with schedule. }
  intros []; cbn [negb]; [|auto with schedule].
  apply mono_bind; [unfold UpsertToken; auto with schedule|]. intros _.
  apply mono_bind.
  { destruct (supplyDeltaFromEvent e) as [[[a i] x]|]; [|auto with schedule].
    unfold ApplySupplyDelta. do 2 apply mono_wrapping. apply mono_bind; [auto with schedule|].
    intros []; auto with schedule. }
  intros _. apply mono_bind; [apply mono_for_each, mono_applyUpdate|]. intros _.
  repeat case_match; unfold InsertTransfer; auto with schedule.
Qed.

(** An item that fails has executed a statement. *)
Lemma processItem_schedule i :
  schedule_mono (processItem i) /\
  forall d e d', processItem i d = (Err e, d') ->
    (pending_faults d' <= Nat.pred (pending_faults d))%nat.
Proof.
  assert (forall c : M IndexerDB unit, schedule_strict c -> schedule_mono c /\
    forall d e d', c d = (Err e, d') -> (pending_faults d' <= Nat.pred (pending_faults d))%nat) as Hs.
  { intros c Hc. split; [by apply strict_mono|]. intros d e d' Hd. specialize (Hc d). by rewrite Hd in Hc. }
  assert (schedule_mono (mret () : M IndexerDB unit) /\
    forall d e d', (mret () : M IndexerDB unit) d = (Err e, d') ->
    (pending_faults d' <= Nat.pred (pending_faults d))%nat) as Hret.
  { split; [apply mono_ret|]. by intros. }
  destruct i as [e|t|h|]; cbn [processItem]; [|..].
  - apply Hs, strict_processTransferEvent.
  - unfold FinalizeTransfer, InsertTransfer. case_match; apply Hs; auto with schedule.
  - unfold processHoldingChange. repeat case_match; try done; apply Hs.
    + apply strict_bind; [unfold TakeHolding; apply strict_wrapping, strict_bind; [auto with schedule|]|].
      { intros []; auto with schedule. }
      intros []; [|auto with schedule].
      apply mono_bind; [apply mono_attempt, strict_mono, strict_ApplyBalanceDelta|].
      intros []; [auto with schedule|]. case_match; auto with schedule.
    + apply strict_bind; [unfold InsertHolding; auto with schedule|]. intros _.
      apply mono_wrapping, strict_mono, strict_ApplyBalanceDelta.
  - done.
Qed.

Lemma strict_batch_body b : schedule_strict (batch_body b).
Proof.
  unfold batch_body. apply strict_bind_r.
  - apply mono_for_each. intros i. apply processItem_schedule.
  - induction (Items b) as [|i l IH]; intros d e d'; cbn; [done|]. unfold mbind, M_bind.
    destruct (processItem_schedule i) as [Hm Hf]. specialize (Hm d).
    destruct (processItem i d) as [[[]|e'] d1] eqn:Hi; cbn in *.
    + intros Hl. specialize (IH _ _ _ Hl). lia.
    + intros [= <- <-]. by eapply Hf.
  - intros _. unfold SaveOffset. auto with schedule.
Qed.

Lemma processBatch_schedule b : schedule_strict (processBatch b).
Proof. apply strict_wrapping, strict_RunInTx, strict_batch_body. Qed.

(** The k-th wait of the retry loop. *)
Definition retry_delay (k : nat) : Z :=
  Nat.iter k (fun d => Z.min (d * 2) processorRetryMaxDelay) processorRetryBaseDelay.

Lemma surfaces_ApplyBalanceDelta p a i x : surfaces (ApplyBalanceDelta p a i x).
Proof.
  unfold ApplyBalanceDelta. apply surfaces_bind; [auto with schedule|]. intros row.
  apply surfaces_bind; [repeat case_match; auto with schedule|]. intros old.
  case_match; [|auto with schedule]. case_match; [auto with schedule|].
  apply surfaces_bind; [auto with schedule|]. intros _. case_match; auto with schedule.
Qed.

(** Wherever a statement of an item fails, the item fails. *)
Lemma surfaces_processItem i : surfaces (processItem i).
Proof.
  destruct i as [e|t|h|]; cbn [processItem].
  - unfold processTransferEvent, InsertEvent, RowsAffected, UpsertToken, ApplySupplyDelta, InsertTransfer.
    apply surfaces_bind; [auto 10 with schedule|]. intros []; cbn [negb]; [|auto with schedule].
    apply surfaces_bind; [auto with schedule|]. intros _. apply surfaces_bind.
    { destruct (supplyDeltaFromEvent e) as [[[a i] x]|]; [|auto with schedule].
      do 2 apply surfaces_wrapping. apply surfaces_bind; [auto with schedule|]. intros []; auto with schedule. }
    intros _. apply surfaces_bind; [|intros _; repeat case_match; auto with schedule].
    apply surfaces_for_each. intros u. unfold applyUpdate. apply surfaces_attempt.
    + apply surfaces_ApplyBalanceDelta.
    + intros [[]|err]; [auto with schedule|]. case_match; auto with schedule.
    + intros err d He. unfold is_ErrNegativeBalance. rewrite driver_error_not_var, andb_false_r by done.
      eexists _, _. by split.
  - unfold FinalizeTransfer, InsertTransfer. case_match; auto with schedule.
  - unfold processHoldingChange, TakeHolding, InsertHolding. repeat case_match; auto with schedule.
    + apply surfaces_bind.
      { apply surfaces_wrapping, surfaces_bind; [auto with schedule|]. intros []; auto with schedule. }
      intros []; [|auto with schedule]. apply surfaces_attempt.
      * apply surfaces_ApplyBalanceDelta.
      * intros []; [auto with schedule|]. case_match; auto with schedule.
      * intros err d He. unfold is_ErrNegativeBalance. rewrite driver_error_not_var by done.
        eexists _, _. by split.
    + apply surfaces_bind; [auto with schedule|]. intros _.
      apply surfaces_wrapping, surfaces_ApplyBalanceDelta.
  - auto with schedule.
Qed.

Lemma surfaces_processBatch b : surfaces (processBatch b).
Proof.
  unfold processBatch, batch_body, SaveOffset. apply surfaces_wrapping, surfaces_RunInTx, surfaces_bind.
  - apply surfaces_for_each, surfaces_processItem.
  - auto with schedule.
Qed.

(** The waits, and the tables of the fault-free run. *)
Lemma processBatchWithRetry_progress b k waits attempts d tb1 :
  (pending_faults d < attempts)%nat ->
  processBatch b (mkDB (tables d) []) = (Ok tt, mkDB tb1 []) ->
  exists n d', processBatchWithRetry attempts (retry_delay k) waits b d =
      (Ok (waits ++ (retry_delay <$> seq k n)), d') /\
    (n <= pending_faults d)%nat /\ tables d' = tb1.
Proof.
  revert k waits d. induction attempts as [|attempts IH]; intros k waits d Hlt Hok; [lia|].
  cbn [processBatchWithRetry]. unfold mbind, M_bind, attempt.
  destruct (processBatch b d) as [[[]|e] d2] eqn:Hb.
  { exists 0%nat, d2. cbn. rewrite app_nil_r. split; [done|]. split; [lia|].
    destruct d as [tb fs]. destruct (surfaces_processBatch b _ _ _ _ Hb) as [Hclean|(e & [=] & _)].
    cbn in Hok. rewrite Hok in Hclean. by injection Hclean. }
  pose proof (wp_run _ _ _ _ _ (processBatch_commit b d) Hb) as Ht. cbn in Ht.
  pose proof (processBatch_schedule b d) as Hs. rewrite Hb in Hs. cbn in Hs.
  assert (pending_faults d <> 0%nat) as Hnz.
  { intros Hz. unfold pending_faults in Hz. destruct d as [tb [|]]; [|done]. cbn in *. congruence. }
  destruct (IH (S k) (waits ++ [retry_delay k]) d2) as (n & d' & Hrun & Hn & Htb);
    [lia|by rewrite Ht|].
  change (Z.min (retry_delay k * 2) processorRetryMaxDelay) with (retry_delay (S k)).
  exists (S n), d'. rewrite Hrun. split; [|split; [lia|done]].
  cbn [seq]. rewrite fmap_cons, <- app_assoc. done.
Qed.

Lemma retry_delay_eq k : retry_delay k = Z.min (5 * 2 ^ Z.of_nat k * Second) processorRetryMaxDelay.
Proof.
  induction k as [|k IH]; [reflexivity|].
  change (retry_delay (S k)) with (Z.min (retry_delay k * 2) processorRetryMaxDelay).
  rewrite IH, Nat2Z.inj_succ, Z.pow_succ_r by lia.
  pose proof (Z.pow_pos_nonneg 2 (Z.of_nat k) ltac:(lia) ltac:(lia)).
  unfold processorRetryMaxDelay, Second. lia.
Qed.

(** The retry loop makes progress.  If the batch can be processed at all
    (it succeeds on these tables when no statement fails), then after
    finitely many transient failures, at most one per fault still to come,
    the loop returns with exactly the tables of the fault-free run and the
    offset advanced, having waited 5s, 10s, 20s, ... capped at 60s. *)
Theorem processBatchWithRetry_persists b attempts d tb1 :
  (length (faults d) < attempts)%nat ->
  processBatch b (mkDB (tables d) []) = (Ok tt, mkDB tb1 []) ->
  exists n d', processBatchWithRetry attempts processorRetryBaseDelay [] b d =
      (Ok ((fun k => Z.min (5 * 2 ^ Z.of_nat k * Second) (60 * Second)) <$> seq 0 n), d') /\
    (n <= length (faults d))%nat /\
    tables d' = tb1 /\ offset (tables d') = Some (b_Offset b).
Proof.
  intros Hlt Hok.
  destruct (processBatchWithRetry_progress b 0 [] attempts d tb1 Hlt Hok) as (n & d' & Hrun & Hn & Htb).
  exists n, d'. split.
  { change processorRetryBaseDelay with (retry_delay 0). rewrite Hrun. cbn [app]. do 2 f_equal.
    apply list_fmap_ext. intros ?? _. apply retry_delay_eq. }
  split; [done|]. split; [done|]. rewrite Htb.
  pose proof (wp_run _ _ _ _ _ (processBatch_commit _ _) Hok) as (d0 & Hd0 & Ht). cbn in Ht.
  rewrite Ht. by eapply batch_body_offset.
Qed.
End Atomicity.
