(* ===== verification/IndexerLedger.v ===== *)
(** * Accounting of the indexer

    The balances, supplies and holder counts of pkg/indexer/store and
    pkg/indexer/engine/processor.go, read as rational numbers: what every
    operation does to the total held per instrument, and the invariant that
    ties the counters of indexer_tokens to the rows of indexer_balances. *)

From S2P Require Import Prelude AppErrors Effects GoStd Decimal Streaming IndexerStore IndexerProcessor.
From Stdlib Require Import QArith Qcanon.
Local Open Scope Z_scope.

Lemma Qcle_refl' (x y : Qc) : x = y -> (x <= y)%Qc.
Proof. intros ->. apply Qcle_refl. Qed.

Lemma Qcle_minus_iff' (x y : Qc) : (x <= y)%Qc -> (x - y <= 0)%Qc.
Proof.
  intros Hxy. apply (Qcplus_le_compat _ _ (- y) (- y)) in Hxy; [|apply Qcle_refl].
  by rewrite Qcplus_opp_r in Hxy.
Qed.

(** ** Sums over a map *)

Section Sum.
Context {K V G : Type} `{Countable K} (op : G -> G -> G) (e : G).
Context `{!Assoc eq op} `{!Comm eq op} `{!LeftId eq e op}.
Variable f : K -> V -> G.

Definition msum (m : gmap K V) : G := map_fold (fun k v acc => op (f k v) acc) e m.

Lemma msum_insert_new m k v : m !! k = None -> msum (<[k := v]> m) = op (f k v) (msum m).
Proof.
  intros Hk. unfold msum. rewrite map_fold_insert_L; [done| |done].
  intros. rewrite !(assoc_L op). f_equal. apply (comm_L op).
Qed.

Lemma msum_delete m k : msum m = op (default e (f k <$> m !! k)) (msum (delete k m)).
Proof.
  destruct (m !! k) as [v|] eqn:Hk; cbn.
  - rewrite <- (insert_delete_id m k v) at 1 by done. apply msum_insert_new. apply lookup_delete_eq.
  - rewrite (left_id_L e op). by rewrite delete_id.
Qed.

Lemma msum_insert m k v : msum (<[k := v]> m) = op (f k v) (msum (delete k m)).
Proof.
  rewrite <- (insert_delete_eq m k v). apply msum_insert_new. apply lookup_delete_eq.
Qed.

Lemma msum_zero m : (forall k v, m !! k = Some v -> f k v = e) -> msum m = e.
Proof.
  intros Hf. induction m as [|k v m Hk IH] using map_ind; [apply map_fold_empty|].
  rewrite msum_insert_new, (Hf k v), (left_id_L e op) by (done || apply lookup_insert_eq).
  apply IH. intros k' v' Hk'. apply Hf. rewrite lookup_insert_ne; congruence.
Qed.
End Sum.

#[local] Instance Qcplus_assoc' : Assoc eq Qcplus.
Proof. intros x y z. apply Qcplus_assoc. Qed.
#[local] Instance Qcplus_comm' : Comm eq Qcplus.
Proof. intros x y. apply Qcplus_comm. Qed.
#[local] Instance Qcplus_left_id' : LeftId eq (Q2Qc 0) Qcplus.
Proof. intros x. apply Qcplus_0_l. Qed.

Section Ledger.
Context `{!DecimalLib} `{!PgNumeric} `{!DecimalLaws} `{!PgNumericLaws}.
Local Open Scope Qc_scope.

(** The number a text of the tables denotes. *)
Definition dval (s : string) : Qc := match NewFromString s with Some d => dec_val d | None => 0 end.

Definition nonzero (x : Qc) : Z := if decide (x = 0) then 0%Z else 1%Z.

(** How many parties hold the instrument, and how much in total. *)
Definition holders (key : InstrumentKey) (m : gmap BalanceKey string) : Z :=
  msum Z.add 0%Z (fun k s => if decide (k.2 = key) then nonzero (dval s) else 0%Z) m.
Definition total (key : InstrumentKey) (m : gmap BalanceKey string) : Qc :=
  msum Qcplus 0 (fun k s => if decide (k.2 = key) then dval s else 0) m.

(** The balance of a key; a missing row is a zero balance. *)
Definition balance (m : gmap BalanceKey string) (k : BalanceKey) : Qc := default 0 (dval <$> m !! k).

Lemma total_upsert key k s m :
  total key (<[k := s]> m) = total key m + (if decide (k.2 = key) then dval s - balance m k else 0).
Proof.
  unfold total, balance. rewrite msum_insert, (msum_delete _ _ _ m k) by apply _.
  destruct (m !! k); cbn; destruct (decide (k.2 = key)); ring.
Qed.

Lemma nonzero_0 : nonzero 0 = 0%Z.
Proof. unfold nonzero. by rewrite decide_True. Qed.

Lemma holders_upsert key k s m :
  holders key (<[k := s]> m) =
    (holders key m + (if decide (k.2 = key) then nonzero (dval s) - nonzero (balance m k) else 0))%Z.
Proof.
  unfold holders, balance. rewrite msum_insert, (msum_delete _ _ _ m k) by apply _.
  destruct (m !! k); cbn; destruct (decide (k.2 = key)); rewrite ?nonzero_0; lia.
Qed.

(** ** What the balance operations do *)

Lemma dval_some s d : NewFromString s = Some d -> dval s = dec_val d.
Proof. unfold dval. by intros ->. Qed.

Lemma dval_String x : is_Some (NewFromString (dec_String x)) /\ dval (dec_String x) = dec_val x.
Proof.
  destruct (dlaw_parse_string x) as (x' & Hp & Hv). split; [eauto|]. by rewrite (dval_some _ _ Hp).
Qed.

Lemma dval_minus s : unsigned_text s -> is_Some (NewFromString s) ->
  dval ("-" +:+ s) = - dval s /\ 0 <= dval s.
Proof.
  intros Hu [d Hd]. destruct (dlaw_parse_minus s d Hu Hd) as (d' & Hd' & Hv).
  rewrite (dval_some _ _ Hd). split; [|by eapply dlaw_parse_unsigned].
  rewrite <- Hv. by apply dval_some.
Qed.

Lemma IsZero_nonzero x : dec_IsZero x = bool_decide (dec_val x = 0).
Proof.
  apply eq_true_iff_eq. rewrite bool_decide_eq_true. apply dlaw_iszero.
Qed.

Lemma holderDelta_nonzero x y :
  holderDelta (bool_decide (x = 0)) (bool_decide (y = 0)) = (nonzero y - nonzero x)%Z.
Proof. unfold nonzero. repeat case_decide; repeat case_bool_decide; done. Qed.

Lemma alter_add_0 (key : InstrumentKey) (m : gmap InstrumentKey Token) : alter (add_holders 0%Z) key m = m.
Proof.
  apply map_eq. intros k. destruct (decide (k = key)) as [->|]; [|by rewrite lookup_alter_ne].
  rewrite lookup_alter_eq. destruct (m !! key) as [t|]; [|done]. cbn. destruct t. unfold add_holders. cbn.
  by rewrite Z.add_0_r.
Qed.

Definition upserted (k : BalanceKey) (s : string) (tb : IndexerTables) : IndexerTables :=
  put_tokens (alter (add_holders (nonzero (dval s) - nonzero (balance (balances tb) k))) k.2 (tokens tb))
    (put_balances (<[k := s]> (balances tb)) tb).

Lemma ApplyBalanceDelta_spec party a i delta d :
  wp (ApplyBalanceDelta party a i delta) (fun r d' =>
    match r with
    | Ok _ => exists s, is_Some (NewFromString delta) /\ is_Some (NewFromString s) /\
        dval s = balance (balances (tables d)) (party, (a, i)) + dval delta /\ 0 <= dval s /\
        tables d' = upserted (party, (a, i)) s (tables d)
    | Err e => is_ErrNegativeBalance e = true -> tables d' = tables d
    end) d.
Proof.
  unfold ApplyBalanceDelta, upserted. set (k := (party, (a, i))).
  apply wp_bind, wp_wrapping, wp_query; [intros fs|done]. cbn [wrap tables].
  apply wp_bind.
  apply (wp_mono _ (fun r d1 => match r with
    | Ok old => d1 = mkDB (tables d) fs /\ dec_val old = balance (balances (tables d)) k /\
        negb (bool_decide (is_Some (balances (tables d) !! k))) || dec_IsZero old =
          bool_decide (dec_val old = 0)
    | Err e => is_ErrNegativeBalance e = false end)).
  { unfold balance. destruct (balances (tables d) !! k) as [row|] eqn:Hrow; cbn.
    - destruct (NewFromString row) as [old|] eqn:Hold; wp_go; [|done].
      rewrite (dval_some _ _ Hold). split_and!; [done|done|apply IsZero_nonzero].
    - wp_go. split_and!; [done|apply dlaw_zero|]. rewrite dlaw_zero. by rewrite bool_decide_true. }
  intros [old|e] d1; [|by intros ->]. intros (-> & Hold & Hwas). rewrite Hwas.
  destruct (NewFromString delta) as [dd|] eqn:Hdelta; [|wp_go; done].
  destruct (dec_IsNegative (dec_Add old dd)) eqn:Hneg; [wp_go; done|].
  apply wp_bind, wp_wrapping, wp_exec; [intros fs1|done]. cbn [wrap fst snd tables].
  rewrite IsZero_nonzero, holderDelta_nonzero.
  destruct (dval_String (dec_Add old dd)) as [Hp Hv].
  assert (0 <= dec_val (dec_Add old dd)) as Hge.
  { apply Qcnot_lt_le. rewrite <- dlaw_neg. by rewrite Hneg. }
  assert (dval (dec_String (dec_Add old dd)) = balance (balances (tables d)) k + dval delta) as Hsum.
  { rewrite Hv, dlaw_add, Hold. by rewrite (dval_some _ _ Hdelta). }
  destruct (Z.eqb_spec (nonzero (dec_val (dec_Add old dd)) - nonzero (dec_val old)) 0) as [Hz|Hnz].
  - wp_go. eexists. split_and!; [done|done|exact Hsum|by rewrite Hv|]. cbn.
    rewrite Hv, <- Hold, Hz, alter_add_0. by destruct (tables d).
  - apply wp_wrapping, wp_exec; [intros fs2|done]. cbn. eexists.
    split_and!; [done|done|exact Hsum|by rewrite Hv|]. rewrite Hv, <- Hold. by destruct (tables d).
Qed.

(** ** The invariant *)

(** Instruments that emit TokenTransferEvents, as opposed to those indexed
    through their Holding contracts. *)
Variable cip56 : InstrumentKey -> bool.

(** Balances are non-negative decimals; a balance of a CIP-56 instrument has
    its token row, whose holder_count is the number of parties with a
    non-zero balance and whose total supply is covered by the balances, up to
    a slack that is zero between items. *)
Record ledger_inv (slack : InstrumentKey -> Qc) (tb : IndexerTables) : Prop := {
  inv_bal : forall k s, balances tb !! k = Some s -> is_Some (NewFromString s) /\ 0 <= dval s;
  inv_row : forall k s, balances tb !! k = Some s -> cip56 k.2 = true -> is_Some (tokens tb !! k.2);
  inv_hold : forall c h, holdings tb !! c = Some h ->
    cip56 (hd_InstrumentAdmin h, hd_InstrumentID h) = false;
  inv_token : forall key t, tokens tb !! key = Some t ->
    is_Some (NewFromString (tk_TotalSupply t)) /\
    (cip56 key = true -> tk_HolderCount t = holders key (balances tb) /\
       dval (tk_TotalSupply t) <= total key (balances tb) + slack key);
}.

Definition no_slack : InstrumentKey -> Qc := fun _ => 0.
Definition slack_at (key : InstrumentKey) (x : Qc) : InstrumentKey -> Qc :=
  fun key' => if decide (key' = key) then x else 0.

Lemma ledger_inv_mono sl sl' tb :
  (forall key, cip56 key = true -> sl key <= sl' key) -> ledger_inv sl tb -> ledger_inv sl' tb.
Proof.
  intros Hle [Hb Hr Hh Ht]. split; try done. intros key t Hk. destruct (Ht key t Hk) as [Hs Hc].
  split; [done|]. intros Hcip. destruct (Hc Hcip) as [Hn Hsup]. split; [done|].
  eapply Qcle_trans; [exact Hsup|]. apply Qcplus_le_compat; [apply Qcle_refl|auto].
Qed.

Lemma slack_zero key tb : ledger_inv (slack_at key 0) tb <-> ledger_inv no_slack tb.
Proof.
  split; apply ledger_inv_mono; intros key' _; unfold slack_at, no_slack; case_decide; apply Qcle_refl.
Qed.

(** The invariant only looks at four of the tables. *)
Lemma ledger_inv_frame sl tb tb' :
  tokens tb' = tokens tb -> balances tb' = balances tb -> holdings tb' = holdings tb ->
  ledger_inv sl tb -> ledger_inv sl tb'.
Proof. intros Ht Hb Hh []. by split; rewrite ?Ht, ?Hb, ?Hh. Qed.

Lemma ledger_inv_upserted key x v party s tb :
  ledger_inv (slack_at key x) tb -> (cip56 key = true -> is_Some (tokens tb !! key)) ->
  is_Some (NewFromString s) -> 0 <= dval s -> dval s = balance (balances tb) (party, key) + v ->
  ledger_inv (slack_at key (x - v)) (upserted (party, key) s tb).
Proof.
  intros [Hb Hr Hh Ht] Hrow Hp Hge Hs. unfold upserted. cbn [snd]. split; cbn.
  - intros k s'. rewrite lookup_insert_Some. intros [[<- <-]|[_ Hk]]; eauto.
  - intros k s' Hk Hcip. rewrite lookup_alter_is_Some.
    apply lookup_insert_Some in Hk as [[<- _]|[_ Hk]]; cbn; eauto.
  - done.
  - intros key' t'. rewrite total_upsert, holders_upsert. cbn [snd].
    destruct (decide (key = key')) as [<-|Hne].
    + rewrite lookup_alter_eq. destruct (tokens tb !! key) as [t|] eqn:Hkey; [|done].
      intros [= <-]. cbn. destruct (Ht key t Hkey) as [Hsup Hc]. split; [done|]. intros Hcip.
      destruct (Hc Hcip) as [-> Hle]. split; [lia|]. unfold slack_at in *.
      rewrite decide_True in * by done. rewrite Hs. eapply Qcle_trans; [exact Hle|].
      apply Qcle_refl' ; ring.
    + rewrite lookup_alter_ne by done. intros Hk. destruct (Ht key' t' Hk) as [Hsup Hc].
      split; [done|]. intros Hcip. destruct (Hc Hcip) as [-> Hle]. split; [lia|].
      unfold slack_at in *. rewrite decide_False in * by done.
      eapply Qcle_trans; [exact Hle|]. apply Qcle_refl'; ring.
Qed.

Lemma ApplyBalanceDelta_inv key x party delta d :
  ledger_inv (slack_at key x) (tables d) -> (cip56 key = true -> is_Some (tokens (tables d) !! key)) ->
  wp (ApplyBalanceDelta party key.1 key.2 delta) (fun r d' =>
    match r with
    | Ok _ => ledger_inv (slack_at key (x - dval delta)) (tables d') /\
              (is_Some (tokens (tables d) !! key) -> is_Some (tokens (tables d') !! key))
    | Err e => is_ErrNegativeBalance e = true -> tables d' = tables d
    end) d.
Proof.
  intros Hinv Hrow. destruct key as [a i]. eapply wp_mono; [apply ApplyBalanceDelta_spec|].
  intros [[]|e] d'; [|done]. intros (s & _ & Hp & Hs & Hge & ->). split.
  - by apply ledger_inv_upserted.
  - intros Hk. unfold upserted. cbn. by rewrite lookup_alter_is_Some.
Qed.

Lemma InsertEvent_frame e d :
  wp (InsertEvent e) (fun _ d' => tokens (tables d') = tokens (tables d) /\
    balances (tables d') = balances (tables d) /\ holdings (tables d') = holdings (tables d)) d.
Proof.
  unfold InsertEvent. apply wp_bind, wp_wrapping, wp_exec; [intros fs|done].
  destruct (events (tables d) !! pe_ContractID e); cbn; wp_go; done.
Qed.

Lemma untracked_zero key tb :
  ledger_inv no_slack tb -> cip56 key = true -> tokens tb !! key = None ->
  holders key (balances tb) = 0%Z /\ total key (balances tb) = 0.
Proof.
  intros [_ Hr _ _] Hcip Hnone. unfold holders, total.
  split; apply msum_zero; try apply _; intros k s Hk; rewrite decide_False; try done;
    intros <-; destruct (Hr k s Hk Hcip); congruence.
Qed.

Lemma UpsertToken_inv t d :
  let key := (tk_InstrumentAdmin t, tk_InstrumentID t) in
  cip56 key = true -> ledger_inv no_slack (tables d) ->
  wp (UpsertToken t) (fun r d' => r = Ok tt ->
    ledger_inv no_slack (tables d') /\ is_Some (tokens (tables d') !! key)) d.
Proof.
  intros key Hcip Hinv. unfold UpsertToken. fold key. apply wp_wrapping, wp_exec; [intros fs _|done].
  destruct (tokens (tables d) !! key) as [t'|] eqn:Hkey; cbn; [by eauto|].
  rewrite lookup_insert_eq. split; [|done].
  destruct (untracked_zero key _ Hinv Hcip Hkey) as [Hh Ht]. destruct Hinv as [Hb Hr Hhold Htok].
  split; cbn; try done.
  - intros k s Hk Hc. apply lookup_insert_is_Some'. right. by eapply Hr.
  - intros key' t'. rewrite lookup_insert_Some. intros [[<- <-]|[Hne Hk]]; [|by apply Htok].
    cbn. destruct dlaw_parse_zero as (z & Hz & Hzv). split; [by rewrite Hz|]. intros _.
    split; [done|]. rewrite Ht, (dval_some _ _ Hz), Hzv. unfold no_slack. by rewrite Qcplus_0_r.
Qed.

Lemma ApplySupplyDelta_inv key delta d :
  is_Some (NewFromString delta) -> ledger_inv no_slack (tables d) ->
  wp (ApplySupplyDelta key.1 key.2 delta) (fun r d' => r = Ok tt ->
    ledger_inv (slack_at key (dval delta)) (tables d') /\
    (is_Some (tokens (tables d) !! key) -> is_Some (tokens (tables d') !! key))) d.
Proof.
  intros [dd Hdd] Hinv. destruct key as [a i]. cbn [fst snd]. unfold ApplySupplyDelta.
  apply wp_wrapping, wp_bind, wp_exec; [intros fs|done].
  destruct (tokens (tables d) !! (a, i)) as [t|] eqn:Hkey; cbn [fst snd].
  2:{ wp_go. intros _. cbn. split; [|done]. destruct Hinv as [Hb Hr Hh Ht]. split; try done.
      intros key' t' Hk. destruct (Ht key' t' Hk) as [Hp Hc]. split; [done|].
      unfold slack_at. rewrite decide_False by congruence. done. }
  destruct Hinv as [Hb Hr Hh Ht]. destruct (Ht _ _ Hkey) as [[x Hx] Hc].
  destruct (numeric_add_exact _ _ x dd Hx Hdd) as (s & z & -> & Hz & Hv). cbn [fst snd]. wp_go. intros _.
  cbn. rewrite lookup_insert_eq. split; [|done]. split; cbn; try done.
  - intros k s' Hk Hcip. apply lookup_insert_is_Some'. right. by eapply Hr.
  - intros key' t'. rewrite lookup_insert_Some. intros [[<- <-]|[Hne Hk]].
    + cbn. split; [by rewrite Hz|]. intros Hcip. destruct (Hc Hcip) as [Hn Hle]. split; [done|].
      unfold slack_at, no_slack in *. rewrite decide_True by done.
      rewrite (dval_some _ _ Hz), Hv, <- (dval_some _ _ Hx), <- (dval_some _ _ Hdd).
      rewrite Qcplus_0_r in Hle. apply Qcplus_le_compat; [done|apply Qcle_refl].
    + unfold slack_at. rewrite decide_False by congruence. by apply Ht.
Qed.

(** ** Well-formed items *)

Definition amount_ok (a : string) : Prop := unsigned_text a /\ is_Some (NewFromString a).

(** What the decoders and the ledger guarantee of an item. *)
Definition item_ok (i : Item) : Prop :=
  match i with
  | ItemEvent e => cip56 (pe_InstrumentAdmin e, pe_InstrumentID e) = true /\ amount_ok (pe_Amount e) /\
      (pe_EventType e = EventMint -> is_Some (pe_ToPartyID e)) /\
      (pe_EventType e = EventBurn -> is_Some (pe_FromPartyID e))
  | ItemHolding h => h_IsArchived h = false -> cip56 (h_InstrumentAdmin h, h_InstrumentID h) = false
  | _ => True
  end.

Definition event_key (e : ParsedEvent) : InstrumentKey := (pe_InstrumentAdmin e, pe_InstrumentID e).

(** The slack an event opens with its supply delta. *)
Definition supply_slack (e : ParsedEvent) : Qc :=
  match supplyDeltaFromEvent e with Some (_, _, delta) => dval delta | None => 0 end.

Lemma applyUpdate_inv e x u d :
  ledger_inv (slack_at (event_key e) x) (tables d) -> is_Some (tokens (tables d) !! event_key e) ->
  wp (applyUpdate e u) (fun r d' => r = Ok tt ->
    is_Some (tokens (tables d') !! event_key e) /\
    (ledger_inv (slack_at (event_key e) (x - dval u.2)) (tables d') \/
     (pe_EventType e = EventTransfer /\ isNegativeDelta u.2 = true /\
      ledger_inv (slack_at (event_key e) x) (tables d')))) d.
Proof.
  intros Hinv Hrow. unfold applyUpdate. apply wp_bind, wp_attempt.
  eapply wp_mono; [apply (ApplyBalanceDelta_inv (event_key e) x); [exact Hinv|done]|].
  intros [[]|err] d'; cbn beta iota.
  - intros [Hi Hk]. wp_go. intros _. auto.
  - intros Herr. case_match eqn:Hskip; wp_go; [|done]. intros _.
    apply andb_true_iff in Hskip as [[Ht Hneg]%andb_true_iff Hskip].
    apply bool_decide_eq_true in Ht. rewrite (Herr Hskip). auto.
Qed.

Lemma inv_slack_le key x tb : x <= 0 -> ledger_inv (slack_at key x) tb -> ledger_inv no_slack tb.
Proof.
  intros Hx. apply ledger_inv_mono. intros key' _. unfold slack_at, no_slack.
  case_decide; [done|apply Qcle_refl].
Qed.

(** After its balance updates an event leaves no slack. *)
Lemma updates_inv e d :
  item_ok (ItemEvent e) ->
  ledger_inv (slack_at (event_key e) (supply_slack e)) (tables d) ->
  is_Some (tokens (tables d) !! event_key e) ->
  wp (for_each (balanceUpdatesFromEvent e) (applyUpdate e)) (fun r d' => r = Ok tt ->
    ledger_inv no_slack (tables d')) d.
Proof.
  intros (_ & [Hu Hp] & Hmint & Hburn) Hinv Hrow.
  destruct (dval_minus _ Hu Hp) as [Hminus Hge].
  assert (forall x y tb, x - y <= 0 -> ledger_inv (slack_at (event_key e) (x - y)) tb -> ledger_inv no_slack tb)
    as Hclose by (intros; by eapply inv_slack_le).
  unfold balanceUpdatesFromEvent, supply_slack, supplyDeltaFromEvent in *.
  case_bool_decide as Hm.
  { destruct (Hmint Hm) as [to ->]. cbn [for_each]. wp_go.
    eapply wp_mono; [eapply (applyUpdate_inv e _ (to, pe_Amount e)); [exact Hinv|done]|]. cbn [fst snd].
    intros [[]|err] d1 H1'; [|done]. wp_go. intros _. destruct (H1' eq_refl) as [_ [Hi|(Ht & _)]].
    - eapply Hclose; [|exact Hi]. apply Qcle_refl'. ring.
    - rewrite Hm in Ht. done. }
  case_bool_decide as Hb.
  { destruct (Hburn Hb) as [from ->]. cbn [for_each]. wp_go.
    eapply wp_mono; [eapply (applyUpdate_inv e _ (from, ("-" +:+ pe_Amount e)%string)); [exact Hinv|done]|]. cbn [fst snd].
    intros [[]|err] d1 H1'; [|done]. wp_go. intros _. destruct (H1' eq_refl) as [_ [Hi|(Ht & _)]].
    - eapply Hclose; [|exact Hi]. apply Qcle_refl'. ring.
    - rewrite Hb in Ht. done. }
  assert (wp (mret tt : M IndexerDB unit) (fun r d' => r = Ok tt -> ledger_inv no_slack (tables d')) d) as Hnil.
  { apply wp_ret. intros _. by apply (slack_zero (event_key e)). }
  case_bool_decide as Ht; [|done].
  destruct (pe_FromPartyID e) as [from|]; [|done]. destruct (pe_ToPartyID e) as [to|]; [|done].
  cbn [for_each]. wp_go.
  eapply wp_mono; [eapply (applyUpdate_inv e _ (from, ("-" +:+ pe_Amount e)%string)); [exact Hinv|done]|]. cbn [fst snd].
  intros [[]|err] d1 H1'; [|done]. destruct (H1' eq_refl) as [Hrow1 Hi1]. wp_go.
  assert (exists x, x <= dval (pe_Amount e) /\ ledger_inv (slack_at (event_key e) x) (tables d1)) as (x & Hx & Hi).
  { destruct Hi1 as [Hi|(_ & _ & Hi)]; eexists; (split; [|exact Hi]).
    - rewrite Hminus. apply Qcle_refl'. ring.
    - done. }
  eapply wp_mono; [by apply (applyUpdate_inv e x (to, pe_Amount e))|]. cbn [fst snd].
  intros [[]|err] d2 H2'; [|done]. wp_go. intros _. destruct (H2' eq_refl) as [_ [Hi2|(_ & Hneg & _)]].
  - eapply Hclose; [|exact Hi2]. by apply Qcle_minus_iff'.
  - unfold isNegativeDelta in Hneg. destruct (pe_Amount e) as [|c a]; [done|].
    apply bool_decide_eq_true in Hneg as ->. by destruct Hu.
Qed.

Lemma processTransferEvent_inv e d :
  item_ok (ItemEvent e) -> ledger_inv no_slack (tables d) ->
  wp (processTransferEvent e) (fun r d' => r = Ok tt -> ledger_inv no_slack (tables d')) d.
Proof.
  intros Hok Hinv. pose proof Hok as (Hcip & [Hu Hp] & _ & _). unfold processTransferEvent.
  apply wp_bind, wp_wrapping. eapply wp_mono; [apply InsertEvent_frame|].
  intros [ins|err] d1 (Ht1 & Hb1 & Hh1); cbn [wrap]; [|done].
  assert (ledger_inv no_slack (tables d1)) as Hinv1 by by eapply ledger_inv_frame.
  destruct ins; cbn [negb]; [|by apply wp_ret].
  apply wp_bind, wp_wrapping. eapply wp_mono; [by apply (UpsertToken_inv (tokenFromEvent e))|].
  intros [[]|err] d2 H2'; cbn [wrap]; [|done]. destruct (H2' eq_refl) as [Hinv2 Hrow2].
  apply wp_bind.
  apply (wp_mono _ (fun r d3 => r = Ok tt -> is_Some (tokens (tables d3) !! event_key e) /\
    ledger_inv (slack_at (event_key e) (supply_slack e)) (tables d3))).
  { unfold supply_slack, supplyDeltaFromEvent.
    destruct (dlaw_parse_minus (pe_Amount e) (default dec_Zero (NewFromString (pe_Amount e)))) as (m & Hm & _);
      [done|by destruct Hp as [? ->]|].
    repeat case_bool_decide.
    - apply wp_wrapping. eapply wp_mono; [by apply (ApplySupplyDelta_inv (event_key e) (pe_Amount e))|].
      intros [[]|err] d3 H3'; [|done]. intros _. destruct (H3' eq_refl). auto.
    - apply wp_wrapping. eapply wp_mono;
        [apply (ApplySupplyDelta_inv (event_key e) ("-" +:+ pe_Amount e)); [by exists m|done]|].
      intros [[]|err] d3 H3'; [|done]. intros _. destruct (H3' eq_refl). auto.
    - wp_go. intros _. split; [done|]. by apply slack_zero. }
  intros [[]|err] d3 H3'; [|done]. destruct (H3' eq_refl) as [Hrow3 Hinv3].
  apply wp_bind. eapply wp_mono; [by apply updates_inv|].
  intros [[]|err] d4 H4'; [|done]. specialize (H4' eq_refl).
  repeat case_match; try (by apply wp_ret).
  unfold InsertTransfer. apply wp_wrapping, wp_wrapping, wp_exec; [intros fs _|done].
  case_match; cbn; [done|]. by eapply ledger_inv_frame, H4'.
Qed.

(** A change of an instrument that is not CIP-56 leaves no slack to close. *)
Lemma inv_slack_other key x tb :
  cip56 key = false -> ledger_inv (slack_at key x) tb -> ledger_inv no_slack tb.
Proof.
  intros Hk. apply ledger_inv_mono. intros key' Hcip. unfold slack_at, no_slack.
  case_decide; [congruence|apply Qcle_refl].
Qed.

Lemma other_balance_inv party key delta d :
  cip56 key = false -> ledger_inv no_slack (tables d) ->
  wp (ApplyBalanceDelta party key.1 key.2 delta) (fun r d' =>
    match r with
    | Ok _ => ledger_inv no_slack (tables d')
    | Err e => is_ErrNegativeBalance e = true -> tables d' = tables d
    end) d.
Proof.
  intros Hk Hinv. eapply wp_mono; [apply (ApplyBalanceDelta_inv key 0)|].
  - by apply slack_zero.
  - congruence.
  - intros [[]|err] d'; [|done]. intros [Hi _]. by eapply inv_slack_other.
Qed.

Lemma holdings_inv tb m :
  (forall c h, m !! c = Some h -> cip56 (hd_InstrumentAdmin h, hd_InstrumentID h) = false) ->
  ledger_inv no_slack tb -> ledger_inv no_slack (put_holdings m tb).
Proof. intros Hm []. by split. Qed.

Lemma processHoldingChange_inv h d :
  item_ok (ItemHolding h) -> ledger_inv no_slack (tables d) ->
  wp (processHoldingChange h) (fun r d' => r = Ok tt -> ledger_inv no_slack (tables d')) d.
Proof.
  intros Hok Hinv. unfold processHoldingChange. cbn in Hok. destruct (h_IsArchived h).
  - unfold TakeHolding. apply wp_bind, wp_wrapping, wp_bind, wp_wrapping, wp_query; [intros fs|done].
    cbn [wrap]. destruct (holdings (tables d) !! h_ContractID h) as [row|] eqn:Hrow; [|by wp_go].
    pose proof (inv_hold _ _ Hinv _ _ Hrow) as Hother.
    apply wp_bind, wp_wrapping, wp_exec; [intros fs1|done]. cbn [wrap fst snd tables].
    apply wp_ret. cbn [wrap]. apply wp_bind, wp_attempt.
    eapply wp_mono; [apply (other_balance_inv _ (hd_InstrumentAdmin row, hd_InstrumentID row)); [done|]|].
    { cbn. apply holdings_inv; [|done]. intros c h' Hc. apply lookup_delete_Some in Hc as [_ Hc].
      by eapply inv_hold. }
    cbn [tables]. intros [[]|err] d2 H2'; [by wp_go|]. case_match; wp_go; [|done]. intros _.
    rewrite H2' by done. apply holdings_inv; [|done]. intros c h' Hc.
    apply lookup_delete_Some in Hc as [_ Hc]. by eapply inv_hold.
  - specialize (Hok eq_refl). repeat (case_match; [by wp_go|]).
    unfold InsertHolding. apply wp_bind, wp_wrapping, wp_wrapping, wp_exec; [intros fs|done]. cbn [wrap].
    apply wp_wrapping. eapply wp_mono;
      [apply (other_balance_inv _ (h_InstrumentAdmin h, h_InstrumentID h)); [done|]|].
    + cbn [tables]. destruct (holdings (tables d) !! h_ContractID h); cbn; [done|].
      apply holdings_inv; [|done]. intros c h'. rewrite lookup_insert_Some.
      intros [[_ <-]|[_ Hc]]; [done|by eapply inv_hold].
    + intros [[]|err] d2; done.
Qed.

Lemma processItem_inv i d :
  item_ok i -> ledger_inv no_slack (tables d) ->
  wp (processItem i) (fun r d' => r = Ok tt -> ledger_inv no_slack (tables d')) d.
Proof.
  intros Hok Hinv. destruct i as [e|t|h|]; cbn [processItem].
  - by apply processTransferEvent_inv.
  - unfold FinalizeTransfer, InsertTransfer.
    case_match; (apply wp_wrapping, wp_wrapping, wp_exec; [intros fs _; cbn|done]).
    + by eapply ledger_inv_frame, Hinv.
    + case_match; [done|]. by eapply ledger_inv_frame, Hinv.
  - by apply processHoldingChange_inv.
  - by apply wp_ret.
Qed.

Lemma processBatch_inv b d :
  Forall item_ok (Items b) -> ledger_inv no_slack (tables d) ->
  wp (processBatch b) (fun _ d' => ledger_inv no_slack (tables d')) d.
Proof.
  intros Hok Hinv. eapply wp_mono; [apply processBatch_commit|].
  intros [[]|e] d'; [|by intros ->]. intros (d0 & Hrun & ->).
  enough (wp (batch_body b) (fun r d0 => r = Ok tt -> ledger_inv no_slack (tables d0)) d) as Hwp.
  { by apply (wp_run _ _ _ _ _ Hwp Hrun). }
  clear Hrun. unfold batch_body. apply wp_bind.
  apply (wp_mono _ (fun r d0 => r = Ok tt -> ledger_inv no_slack (tables d0))).
  - revert d Hinv. induction (Items b) as [|i l IH]; intros d Hinv; cbn [for_each]; [by apply wp_ret|].
    inversion Hok as [|?? Hi Hl]; subst. apply wp_bind. eapply wp_mono; [by apply processItem_inv|].
    intros [[]|e] d1 Hd1; [|done]. apply IH; auto.
  - intros [[]|e] d1 Hd1; [|done]. unfold SaveOffset.
    apply wp_wrapping, wp_wrapping, wp_exec; [intros fs _|done]. cbn.
    eapply ledger_inv_frame; [..|by apply Hd1]; done.
Qed.

Lemma processBatchWithRetry_inv attempts delay waits b d :
  Forall item_ok (Items b) -> ledger_inv no_slack (tables d) ->
  wp (processBatchWithRetry attempts delay waits b) (fun _ d' => ledger_inv no_slack (tables d')) d.
Proof.
  intros Hok. revert delay waits d. induction attempts as [|n IH]; intros delay waits d Hinv; cbn.
  { exact Hinv. }
  apply wp_bind, wp_attempt. eapply wp_mono; [by apply processBatch_inv|].
  intros [[]|e] d1 Hd1; [by apply wp_ret|by apply IH].
Qed.

(** C4: the books balance.  Whatever batches of well-formed items the stream
    delivers and whatever statements fail, a run of the indexer keeps the books
    in balance: every indexed balance is a non-negative number, and for every
    CIP-56 instrument holder_count is exactly the number of parties with a
    non-zero balance and the recorded total supply does not exceed the sum of
    the balances.  Items are well-formed ([item_ok]) when a token event is of a
    CIP-56 instrument, its amount is a number written without a sign, a mint
    names its recipient and a burn its owner, and a new holding is of another
    instrument; [stream_batch_ok] shows when the decoders deliver such items. *)
Theorem Run_ledger_inv attempts fetch d :
  (forall o b, b ∈ fetch o -> Forall item_ok (Items b)) -> ledger_inv no_slack (tables d) ->
  wp (Run attempts fetch) (fun _ d' => ledger_inv no_slack (tables d')) d.
Proof.
  intros Hok Hinv. unfold Run, LatestOffset. wp_go; try done. cbn [tables].
  apply (wp_for_each _ _ (fun d => ledger_inv no_slack (tables d))); [done|].
  intros b d1 Hb Hd1. apply wp_bind. eapply wp_mono; [by apply processBatchWithRetry_inv; eauto|].
  intros [ws|e] d2 Hd2; [by apply wp_ret|done].
Qed.
End Ledger.
