(* ===== verification/IndexerHistory.v ===== *)
(** * History of the indexer, and its listings

    The event log and the transfer log of pkg/indexer only grow: what a run
    may do to a row that exists, and why replaying a batch changes nothing.
    Then what the listings return. *)

From S2P Require Import Prelude AppErrors Effects GoStd Decimal Streaming IndexerStore IndexerProcessor.

(** ** Evolution of a transfer row *)

(** A row stays as it is, or a pending one gets another status. *)
Definition row_next (t t' : TransferDao) : Prop :=
  t' = t \/ (td_Status t = TransferStatusPending /\ exists s, t' = set_td_status s t).

#[global] Instance row_next_refl : Reflexive row_next.
Proof. intros t. by left. Qed.

#[global] Instance row_next_trans : Transitive row_next.
Proof.
  intros t t1 t2 [->|[Hp [s ->]]]; [done|]. intros [->|[Hp' [s' ->]]]; right; eauto.
Qed.

(** One state of the database follows another. *)
Record history (tb tb' : IndexerTables) : Prop := {
  hist_events : forall c e, events tb !! c = Some e -> events tb' !! c = Some e;
  hist_transfers : forall c t, transfers tb !! c = Some t ->
    exists t', transfers tb' !! c = Some t' /\ row_next t t';
}.

#[global] Instance history_preorder : PreOrder history.
Proof.
  split.
  - intros tb. split; [done|]. intros c t Hc. by exists t.
  - intros t1 t2 t3 [He Ht] [He' Ht']. split; [eauto|]. intros c t Hc.
    destruct (Ht c t Hc) as (t' & Hc' & Hn). destruct (Ht' c t' Hc') as (t'' & Hc'' & Hn').
    exists t''. split; [done|]. by transitivity t'.
Qed.

(** Two states with the same event and transfer logs. *)
Definition same_logs (tb tb' : IndexerTables) : Prop :=
  events tb' = events tb /\ transfers tb' = transfers tb.

Lemma same_logs_history tb tb' : same_logs tb tb' -> history tb tb'.
Proof. intros [He Ht]. split; rewrite ?He, ?Ht; eauto using row_next_refl. Qed.

Section History.
Context `{!DecimalLib} `{!PgNumeric}.

(** A computation all of whose outcomes relate to the start by [R]. *)
Definition always {A} (R : IndexerTables -> IndexerTables -> Prop) (c : M IndexerDB A) : Prop :=
  forall d, wp c (fun _ d' => R (tables d) (tables d')) d.

Section rules.
Variable R : IndexerTables -> IndexerTables -> Prop.
Context `{!PreOrder R}.

Lemma always_ret {A} (a : A) : always R (mret a).
Proof. intros d. by apply wp_ret. Qed.

Lemma always_fail {A} e : always (A := A) R (fail e).
Proof. intros d. by apply wp_fail. Qed.

Lemma always_exec {A} (f : IndexerTables -> A * IndexerTables) :
  (forall tb, R tb (f tb).2) -> always R (exec f).
Proof. intros Hf d. by apply wp_exec. Qed.

Lemma always_query {A} (f : IndexerTables -> A) : always R (query f).
Proof. by apply always_exec. Qed.

Lemma always_bind {A B} (c : M IndexerDB A) (k : A -> M IndexerDB B) :
  always R c -> (forall a, always R (k a)) -> always R (c ≫= k).
Proof.
  intros Hc Hk d. apply wp_bind. eapply wp_mono; [apply Hc|]. intros [a|e] d1 H1; [|done].
  eapply wp_mono; [apply Hk|]. intros r d2 H2. by transitivity (tables d1).
Qed.

Lemma always_wrapping {A} pre (c : M IndexerDB A) : always R c -> always R (wrapping pre c).
Proof. intros Hc d. apply wp_wrapping. apply Hc. Qed.

Lemma always_attempt {A} (c : M IndexerDB A) : always R c -> always R (attempt c).
Proof. intros Hc d. apply wp_attempt. apply Hc. Qed.

Lemma always_for_each {X} (l : list X) (f : X -> M IndexerDB unit) :
  (forall x, always R (f x)) -> always R (for_each l f).
Proof. intros Hf. induction l; cbn; [apply always_ret|]. by apply always_bind. Qed.
End rules.

#[local] Hint Resolve always_ret always_fail always_query always_bind always_wrapping
  always_attempt always_for_each : canton.
#[local] Hint Extern 0 (PreOrder _) => typeclasses eauto : canton.

#[global] Instance same_logs_preorder : PreOrder same_logs.
Proof. split; [done|]. intros ??? [] []. split; congruence. Qed.

Lemma ApplyBalanceDelta_logs p a i x : always same_logs (ApplyBalanceDelta p a i x).
Proof.
  unfold ApplyBalanceDelta. apply always_bind; [apply _|auto with canton|]. intros row.
  apply always_bind; [apply _|repeat case_match; auto with canton|]. intros old.
  case_match; [|auto with canton]. case_match; [auto with canton|].
  apply always_bind; [apply _|by apply always_wrapping, always_exec; [apply _|]|].
  intros _. case_match; [auto with canton|]. by apply always_wrapping, always_exec; [apply _|].
Qed.

Lemma UpsertToken_logs t : always same_logs (UpsertToken t).
Proof.
  unfold UpsertToken. apply always_wrapping, always_exec; [apply _|]. intros tb. by case_match.
Qed.

Lemma ApplySupplyDelta_logs a i x : always same_logs (ApplySupplyDelta a i x).
Proof.
  unfold ApplySupplyDelta. apply always_wrapping, always_bind; [apply _| |].
  - apply always_exec; [apply _|]. intros tb. by repeat case_match.
  - intros []; auto with canton.
Qed.

Lemma applyUpdate_logs e u : always same_logs (applyUpdate e u).
Proof.
  unfold applyUpdate. apply always_bind; [apply _|apply always_attempt, ApplyBalanceDelta_logs|].
  intros [[]|err]; [auto with canton|]. case_match; auto with canton.
Qed.

Lemma always_logs {A} (c : M IndexerDB A) : always same_logs c -> always history c.
Proof. intros Hc d. eapply wp_mono; [apply Hc|]. intros r d'. apply same_logs_history. Qed.

Lemma InsertEvent_history e : always history (InsertEvent e).
Proof.
  unfold InsertEvent, RowsAffected. apply always_bind; [apply _| |intros; auto with canton].
  apply always_wrapping, always_exec; [apply _|]. intros tb.
  destruct (events tb !! pe_ContractID e) eqn:He; cbn; [done|]. split; cbn.
  - intros c e' Hc. rewrite lookup_insert_ne; congruence.
  - intros c t Hc. by exists t.
Qed.

Lemma InsertTransfer_history t : always history (InsertTransfer t).
Proof.
  unfold InsertTransfer. apply always_wrapping, always_exec; [apply _|]. intros tb.
  destruct (transfers tb !! tr_ContractID t) eqn:He; cbn; [done|]. split; cbn; [done|].
  intros c t' Hc. exists t'. rewrite lookup_insert_ne; [done|congruence].
Qed.

Lemma FinalizeTransfer_history c s : always history (FinalizeTransfer c s).
Proof.
  unfold FinalizeTransfer. apply always_wrapping, always_exec; [apply _|]. intros tb. split; cbn; [done|].
  intros c' t Hc. destruct (decide (c' = c)) as [->|Hne].
  - rewrite lookup_alter_eq, Hc. cbn. eexists. split; [done|].
    case_bool_decide; [right|by left]. eauto.
  - rewrite lookup_alter_ne by done. by exists t.
Qed.

Lemma processHolding_logs h : always same_logs (processHoldingChange h).
Proof.
  unfold processHoldingChange, TakeHolding, InsertHolding.
  repeat case_match; auto with canton.
  + apply always_bind; [apply _| |].
    { apply always_wrapping, always_bind; [apply _|auto with canton|]. intros []; [|auto with canton].
      apply always_bind; [apply _| |intros; auto with canton].
      by apply always_wrapping, always_exec; [apply _|]. }
    intros []; [|auto with canton].
    apply always_bind; [apply _|apply always_attempt, ApplyBalanceDelta_logs|].
    intros []; [auto with canton|]. case_match; auto with canton.
  + apply always_bind; [apply _| |intros; apply always_wrapping, ApplyBalanceDelta_logs].
    apply always_wrapping, always_wrapping, always_exec; [apply _|]. intros tb. by case_match.
Qed.

Lemma processItem_history i : always history (processItem i).
Proof.
  destruct i as [e|t|h|]; cbn [processItem].
  - unfold processTransferEvent. apply always_bind; [apply _|apply always_wrapping, InsertEvent_history|].
    intros []; cbn [negb]; [|auto with canton].
    apply always_bind; [apply _|apply always_logs, always_wrapping, UpsertToken_logs|]. intros _.
    apply always_bind; [apply _| |].
    { apply always_logs. repeat case_match; [|auto with canton].
      apply always_wrapping, ApplySupplyDelta_logs. }
    intros _. apply always_bind; [apply _|apply always_logs, always_for_each, applyUpdate_logs; apply _|].
    intros _. repeat case_match; auto with canton. apply always_wrapping, InsertTransfer_history.
  - case_match; apply always_wrapping; [apply FinalizeTransfer_history|apply InsertTransfer_history].
  - apply always_logs, processHolding_logs.
  - auto with canton.
Qed.

Lemma batch_body_history b : always history (batch_body b).
Proof.
  unfold batch_body, SaveOffset. apply always_bind; [apply _|apply always_for_each, processItem_history; apply _|].
  intros _. apply always_logs, always_wrapping, always_wrapping, always_exec; [apply _|done].
Qed.

Lemma processBatch_history b : always history (processBatch b).
Proof.
  intros d. eapply wp_mono; [apply processBatch_commit|]. intros [[]|e] d'; [|by intros ->].
  intros (d0 & Hrun & ->). by apply (wp_run _ _ _ _ _ (batch_body_history b d) Hrun).
Qed.

Lemma processBatchWithRetry_history attempts delay waits b :
  always history (processBatchWithRetry attempts delay waits b).
Proof.
  revert delay waits. induction attempts as [|n IH]; intros delay waits; cbn; [auto with canton|].
  apply always_bind; [apply _|apply always_attempt, processBatch_history|].
  intros [[]|e]; [auto with canton|apply IH].
Qed.

(** C24: history is append-only.  Whatever the stream delivers and whatever
    fails, a run never removes or alters an indexed event, never removes a
    transfer, and changes nothing of a transfer but the status of one that is
    still pending: a settled, canceled or rejected transfer is final. *)
Theorem Run_history attempts fetch d :
  wp (Run attempts fetch) (fun _ d' => history (tables d) (tables d')) d.
Proof.
  assert (always history (Run attempts fetch)) as Hrun; [|apply Hrun].
  unfold Run, LatestOffset. apply always_bind; [apply _|apply always_wrapping, always_bind; auto with canton|].
  intros o. apply always_for_each; [apply _|]. intros b.
  apply always_bind; [apply _|apply processBatchWithRetry_history|intros; auto with canton].
Qed.

(** ** Replays *)

(** The database already reflects an item. *)
Definition settled (tb : IndexerTables) (i : Item) : Prop :=
  match i with
  | ItemEvent e => is_Some (events tb !! pe_ContractID e)
  | ItemTransfer t =>
      if tr_Archived t
      then exists r, transfers tb !! tr_ContractID t = Some r /\ td_Status r <> TransferStatusPending
      else is_Some (transfers tb !! tr_ContractID t)
  | ItemHolding _ => False
  | ItemOther => True
  end.

Lemma settled_stable tb tb' i : history tb tb' -> settled tb i -> settled tb' i.
Proof.
  intros [He Ht]. destruct i as [e|t| |]; cbn; try done.
  - intros [r Hr]. eauto.
  - destruct (tr_Archived t).
    + intros (r & Hr & Hs). destruct (Ht _ _ Hr) as (r' & Hr' & [->|[Hp _]]); [eauto|done].
    + intros [r Hr]. destruct (Ht _ _ Hr) as (r' & Hr' & _). eauto.
Qed.

(** A settled item has no effect. *)
Lemma settled_noop i d :
  settled (tables d) i -> wp (processItem i) (fun _ d' => tables d' = tables d) d.
Proof.
  destruct i as [e|t|h|]; cbn [processItem settled]; [..|done|by intros _; apply wp_ret].
  - intros [r Hr]. unfold processTransferEvent, InsertEvent.
    apply wp_bind, wp_wrapping, wp_bind, wp_wrapping, wp_exec; [intros fs|done].
    rewrite Hr. cbn. wp_go; done.
  - destruct (tr_Archived t).
    + intros (r & Hr & Hs). unfold FinalizeTransfer. apply wp_wrapping, wp_wrapping, wp_exec; [intros fs|done].
      cbn. rewrite (alter_lookup_Some _ _ r) by done. rewrite bool_decide_false by done.
      rewrite insert_id by done. by destruct (tables d).
    + intros [r Hr]. unfold InsertTransfer. apply wp_wrapping, wp_wrapping, wp_exec; [intros fs|done].
      by rewrite Hr.
Qed.

(** Batches without holding changes whose archives are of offers that are
    known (stored, or created earlier in the batch) and carry a terminal
    status. *)
Fixpoint replayable (known : string -> Prop) (l : list Item) : Prop :=
  match l with
  | [] => True
  | ItemTransfer t :: l =>
      if tr_Archived t
      then known (tr_ContractID t) /\ archive_status t <> TransferStatusPending /\ replayable known l
      else replayable (fun c => known c \/ c = tr_ContractID t) l
  | ItemHolding _ :: _ => False
  | _ :: l => replayable known l
  end.

Lemma processItem_settles i d :
  (forall h, i <> ItemHolding h) ->
  (forall t, i = ItemTransfer t -> tr_Archived t = true ->
     is_Some (transfers (tables d) !! tr_ContractID t) /\ archive_status t <> TransferStatusPending) ->
  wp (processItem i) (fun r d' => r = Ok tt -> settled (tables d') i) d.
Proof.
  intros Hh Harch. destruct i as [e|t|h|]; cbn [processItem settled]; [| |by destruct (Hh h)|by apply wp_ret].
  - unfold processTransferEvent. apply wp_bind, wp_wrapping.
    apply (wp_mono _ (fun r d1 => is_ok r = true -> is_Some (events (tables d1) !! pe_ContractID e))).
    { unfold InsertEvent. apply wp_bind, wp_wrapping, wp_exec; [intros fs|done].
      destruct (events (tables d) !! pe_ContractID e) eqn:He; cbn; wp_go; cbn; try done; intros _;
        rewrite ?lookup_insert_eq, ?He; done. }
    intros [ins|err] d1 H1; cbn [wrap]; [|done]. specialize (H1 eq_refl).
    destruct ins; cbn [negb]; [|by apply wp_ret].
    assert (forall (c : M IndexerDB unit), always history c ->
      wp c (fun r d' => r = Ok tt -> is_Some (events (tables d') !! pe_ContractID e)) d1) as Hrest.
    { intros c Hc. eapply wp_mono; [apply Hc|]. intros r d' [He _] _. destruct H1 as [r1 H1]. eauto. }
    apply Hrest. apply always_bind; [apply _|apply always_logs, always_wrapping, UpsertToken_logs|]. intros _.
    apply always_bind; [apply _|apply always_logs; repeat case_match; [|auto with canton];
      apply always_wrapping, ApplySupplyDelta_logs|].
    intros _. apply always_bind; [apply _|apply always_logs, always_for_each, applyUpdate_logs; apply _|].
    intros _. repeat case_match; auto with canton. apply always_wrapping, InsertTransfer_history.
  - destruct (tr_Archived t) eqn:Ha.
    + destruct (Harch t eq_refl Ha) as [[r Hr] Hs]. unfold FinalizeTransfer.
      apply wp_wrapping, wp_wrapping, wp_exec; [intros fs _|done]. cbn. rewrite lookup_alter_eq, Hr. cbn.
      eexists. split; [done|]. case_bool_decide; done.
    + unfold InsertTransfer. apply wp_wrapping, wp_wrapping, wp_exec; [intros fs _|done].
      destruct (transfers (tables d) !! tr_ContractID t) eqn:Ht; cbn; [by rewrite Ht|].
      by rewrite lookup_insert_eq.
Qed.

Lemma items_settle l known d :
  (forall c, known c -> is_Some (transfers (tables d) !! c)) -> replayable known l ->
  wp (for_each l processItem) (fun r d' => r = Ok tt -> Forall (settled (tables d')) l) d.
Proof.
  revert known d. induction l as [|i l IH]; intros known d Hk Hr; cbn [for_each]; [by apply wp_ret|].
  assert (forall h, i <> ItemHolding h) as Hh by (intros h ->; done).
  assert (forall t, i = ItemTransfer t -> tr_Archived t = true ->
     is_Some (transfers (tables d) !! tr_ContractID t) /\ archive_status t <> TransferStatusPending) as Harch.
  { intros t -> Ha. cbn in Hr. rewrite Ha in Hr. destruct Hr as (? & ? & _). auto. }
  apply wp_bind, wp_intro. intros [[]|e] d1 Hrun; [|done].
  pose proof (wp_run _ _ _ _ _ (processItem_history i d) Hrun) as Hhist.
  pose proof (wp_run _ _ _ _ _ (processItem_settles i d Hh Harch) Hrun eq_refl) as Hset.
  assert (forall c, is_Some (transfers (tables d) !! c) -> is_Some (transfers (tables d1) !! c)) as Hkeep.
  { intros c [t Ht]. destruct (hist_transfers _ _ Hhist c t Ht) as (t' & ? & _). eauto. }
  apply (wp_mono _ (fun r d' => history (tables d1) (tables d') /\ (r = Ok tt -> Forall (settled (tables d')) l))).
  - apply wp_intro. intros r d2 Hrun2. split.
    { apply (wp_run _ _ _ _ _ (always_for_each _ l _ processItem_history d1) Hrun2). }
    enough (exists known', (forall c, known' c -> is_Some (transfers (tables d1) !! c)) /\ replayable known' l)
      as (known' & Hk' & Hr').
    { apply (wp_run _ _ _ _ _ (IH known' d1 Hk' Hr') Hrun2). }
    destruct i as [e|t|h|]; cbn in Hr; [by exists known; auto| |done|by exists known; auto].
    destruct (tr_Archived t) eqn:Ha.
    + exists known. split; [auto|]. by destruct Hr as (_ & _ & Hr).
    + eexists. split; [|exact Hr]. intros c [Hc| ->]; [auto|]. cbn in Hset. by rewrite Ha in Hset.
  - intros r d2 [Hhist2 H2] Hok. constructor; [by eapply settled_stable|auto].
Qed.

Lemma settled_items_noop l d :
  Forall (settled (tables d)) l -> wp (for_each l processItem) (fun _ d' => tables d' = tables d) d.
Proof.
  revert d. induction l as [|i l IH]; intros d Hl; cbn [for_each]; [by apply wp_ret|].
  inversion Hl as [|?? Hi Hl']; subst. apply wp_bind. eapply wp_mono; [by apply settled_noop|].
  intros [[]|e] d1 Hd1; [|done]. rewrite <- Hd1 in Hl'.
  eapply wp_mono; [by apply IH|]. intros r d2 ->. done.
Qed.

(** Replaying a batch is harmless.  Once a batch of transfer events and
    offer changes was persisted, processing it again in any later state, with
    any statement failing, changes no table but the stored offset: no balance,
    supply, holder count, event or transfer is applied twice. *)
Theorem processBatch_replay b d d1 d2 :
  replayable (fun c => is_Some (transfers (tables d) !! c)) (Items b) ->
  processBatch b d = (Ok tt, d1) -> history (tables d1) (tables d2) ->
  wp (processBatch b) (fun r d3 =>
    match r with
    | Ok _ => tables d3 = put_offset (Some (b_Offset b)) (tables d2)
    | Err _ => tables d3 = tables d2
    end) d2.
Proof.
  intros Hr Hrun Hhist.
  assert (Forall (settled (tables d2)) (Items b)) as Hset.
  { pose proof (wp_run _ _ _ _ _ (processBatch_commit b d) Hrun) as (d0 & Hbody & Ht).
    assert (Forall (settled (tables d1)) (Items b)) as Hset1.
    { revert Hbody. unfold batch_body, mbind, M_bind.
      destruct (for_each (Items b) processItem d) as [[[]|e] dm] eqn:Hitems; [|done]. intros Hsave.
      pose proof (wp_run _ _ _ _ _ (items_settle _ _ d (fun c Hc => Hc) Hr) Hitems eq_refl) as Hset.
      assert (history (tables dm) (tables d0)) as Hh.
      { by apply (wp_run _ _ _ (Ok tt) d0 (batch_body_history (mkBatch (b_Offset b) (UpdateID b) []) dm)). }
      rewrite Ht. eapply Forall_impl; [exact Hset|]. intros i. by apply settled_stable. }
    eapply Forall_impl; [exact Hset1|]. intros i. by apply settled_stable. }
  unfold processBatch. apply wp_wrapping, wp_RunInTx. unfold batch_body. apply wp_bind.
  eapply wp_mono; [by apply settled_items_noop|]. intros [[]|e] d3 Hd3; [|done].
  unfold SaveOffset. apply wp_wrapping, wp_wrapping, wp_exec; cbn; [|done].
  intros _. rewrite Hd3. done.
Qed.
End History.

(** ** The read path

    What the listings of pkg/indexer/store/pg.go return: the rows the filters
    select, with the derived expired status, in order, one page at a time. *)

(** ** Selection *)

Section Select.
Context {A K : Type} `{Countable K}.
Variables (P : A -> bool) (R : A -> A -> bool) (m : gmap K A).

Lemma elem_of_select_rows x : x ∈ select_rows P R m <-> P x = true /\ exists k, m !! k = Some x.
Proof.
  unfold select_rows. rewrite (merge_sort_Permutation (fun a b => Is_true (R a b))).
  rewrite list_elem_of_In, filter_In, <- list_elem_of_In, list_elem_of_fmap. split.
  - intros [((k & y) & -> & Hin) HP]. split; [done|]. exists k. by apply elem_of_map_to_list in Hin.
  - intros [HP [k Hk]]. split; [|done]. exists (k, x). split; [done|]. by apply elem_of_map_to_list.
Qed.

Lemma select_rows_sorted :
  (forall a b, R a b = true \/ R b a = true) -> Sorted (fun a b => Is_true (R a b)) (select_rows P R m).
Proof.
  intros Htot. apply Sorted_merge_sort. intros a b.
  destruct (Htot a b) as [->| ->]; cbn; auto.
Qed.
End Select.

Lemma elem_of_page {A} p (l : list A) x : x ∈ page_of p l -> x ∈ l.
Proof.
  unfold page_of. intros [i Hi]%elem_of_sql_limit%list_elem_of_lookup_1. rewrite lookup_drop in Hi.
  by eapply list_elem_of_lookup_2.
Qed.

(** A page holds as many rows as are left, up to the limit. *)
Lemma length_page {A} p (l : list A) :
  1 <= Page p -> 0 < Limit p ->
  Z.of_nat (length (page_of p l)) =
    Z.min (Limit p) (Z.max 0 (Z.of_nat (length l) - (Page p - 1) * Limit p)).
Proof.
  intros HP HL. unfold page_of, sql_limit. rewrite (proj2 (Z.ltb_lt _ _) HL), length_take, length_drop.
  assert (0 <= (Page p - 1) * Limit p) by nia. lia.
Qed.

Lemma Sorted_sublist_page {A} (R : A -> A -> Prop) `{!Transitive R} p l :
  Sorted R l -> Sorted R (page_of p l).
Proof.
  intros Hl%Sorted_StronglySorted; [|done]. unfold page_of.
  apply StronglySorted_Sorted.
  rewrite <- (take_drop (Z.to_nat ((Page p - 1) * Limit p)) l) in Hl.
  apply StronglySorted_app in Hl as (_ & _ & Hl).
  unfold sql_limit. destruct (0 <? Limit p); [|done]. rewrite <- (take_drop (Z.to_nat (Limit p))) in Hl.
  by apply StronglySorted_app in Hl as (_ & Hl & _).
Qed.

(** The outcome of a listing. *)
Lemma list_page_spec {A} what (rows : IndexerTables -> list A) p d :
  wp (list_page what rows p) (fun r d' => tables d' = tables d /\
    match r with
    | Ok (items, total) => items = page_of p (rows (tables d)) /\ total = Z.of_nat (length (rows (tables d)))
    | Err _ => True
    end) d.
Proof. unfold list_page. wp_go; done. Qed.

(** ** Transfers *)

Definition list_statuses : list string :=
  [TransferStatusPending; TransferStatusExpired; TransferStatusCompleted; TransferStatusCanceled;
   TransferStatusRejected].

Lemma surface_expired_status now row :
  tr_Status (surface_expired now (fromTransferDao row)) =
    if bool_decide (td_Status row = TransferStatusPending) && negb (not_expired now row)
    then TransferStatusExpired else td_Status row.
Proof.
  unfold surface_expired, not_expired. cbn. destruct (td_ExpiresAt row) as [exp|]; cbn.
  - rewrite Z.leb_antisym. destruct (bool_decide _), (now <? exp); done.
  - by rewrite andb_false_r.
Qed.

(** The filter for a status selects exactly the rows that read as that status. *)
Lemma status_matches_derived now s row :
  s ∈ list_statuses -> td_Status row <> TransferStatusExpired ->
  status_matches now s row = true <-> tr_Status (surface_expired now (fromTransferDao row)) = s.
Proof.
  intros Hs Hrow. rewrite surface_expired_status. unfold status_matches, list_statuses in *.
  repeat (apply elem_of_cons in Hs as [->|Hs]; [|]); [..|by apply not_elem_of_nil in Hs];
    repeat (case_bool_decide; cbn [andb] in *; try done); destruct (not_expired now row); cbn; naive_solver congruence.
Qed.

Lemma surface_expired_CreatedAt now t : tr_CreatedAt (surface_expired now t) = tr_CreatedAt t.
Proof. unfold surface_expired. repeat case_match; done. Qed.

(** ListTransfers returns what was asked for.  The page holds
    min(limit, what is left) transfers of a total that counts every matching
    row; each is a stored row of the party in the requested role, newest first,
    read with the same derived status as GetTransfer gives; and when a status
    is requested, the status the caller sees on every item is that one. *)
Theorem ListTransfers_correct now party q p d :
  1 <= Page p -> 0 < Limit p ->
  (forall c row, transfers (tables d) !! c = Some row -> td_Status row <> TransferStatusExpired) ->
  wp (ListTransfers now party q p) (fun r d' => tables d' = tables d /\
    match r with
    | Err _ => True
    | Ok (items, total) =>
        total = Z.of_nat (length (transfer_rows now party q (tables d))) /\
        Z.of_nat (length items) = Z.min (Limit p) (Z.max 0 (total - (Page p - 1) * Limit p)) /\
        Sorted (fun a b => tr_CreatedAt b <= tr_CreatedAt a) items /\
        forall t, t ∈ items -> exists c row, transfers (tables d) !! c = Some row /\
          (GetTransfer now c (mkDB (tables d) [])).1 = Ok (Some t) /\
          role_matches (q_Role q) party row = true /\
          (q_Status q ∈ list_statuses -> tr_Status t = q_Status q)
    end) d.
Proof.
  intros HP HL Hst. unfold ListTransfers. apply wp_bind. eapply wp_mono; [apply list_page_spec|].
  intros [[items total]|e] d' [Hd Hr]; [|by split]. destruct Hr as [-> ->]. apply wp_ret.
  split; [done|]. split; [done|]. split; [rewrite length_fmap; by apply length_page|]. split.
  - set (newer := fun a b : TransferDao => Is_true (td_CreatedAt b <=? td_CreatedAt a)).
    assert (Transitive newer) by (intros a b c; unfold newer; rewrite !Is_true_true, !Z.leb_le; lia).
    assert (Sorted newer (page_of p (transfer_rows now party q (tables d)))) as Hs.
    { apply Sorted_sublist_page; [done|]. apply select_rows_sorted. intros a b. rewrite !Z.leb_le. lia. }
    eapply Sorted_fmap; [|exact Hs]. intros a b. unfold newer. rewrite Is_true_true, Z.leb_le.
    by rewrite !surface_expired_CreatedAt.
  - intros t (row & -> & Hrow%elem_of_page)%list_elem_of_fmap.
    apply elem_of_select_rows in Hrow as [[Hrole Hstatus]%andb_true_iff [c Hc]].
    exists c, row. split; [done|]. split.
    { unfold GetTransfer, wrapping, mbind, M_bind. rewrite query_nofault. cbn. by rewrite Hc. }
    split; [done|]. intros Hq. apply status_matches_derived; eauto.
Qed.
