(* ===== verification/IndexerApi.v ===== *)
(** * The indexer's query API: pkg/indexer/service and pkg/indexer/client

    service.go over the store, the HTTP handlers and routes of http.go, and the
    HTTP client of client/http.go.  A request is its path segments and query
    values.  The router (chi), the text of a JSON document and of a time are
    interfaces; the documents are modelled field by field. *)

From S2P Require Import Prelude AppErrors Effects GoStd GoText Decimal DamlValues Streaming LedgerApi TokenCodec TokenRegistry IndexerStore.
From Stdlib Require Import Ascii String.
Local Open Scope Z_scope.
Local Abbreviation length := Datatypes.length.

(** indexer.Page *)
Record PageOf (T : Type) := mkPageOf { pg_Items : list T; pg_Total : Z; pg_Page : Z; pg_Limit : Z }.
Arguments mkPageOf {T} _ _ _ _.
Arguments pg_Items {T} _.
Arguments pg_Total {T} _.
Arguments pg_Page {T} _.
Arguments pg_Limit {T} _.

Definition MaxLimit : Z := 200.
Definition DefaultLimit : Z := 50.

(** ** service.go *)

Section service.
(** the time of the query *)
Variable now : Z.

(** [if t == nil { return ResourceNotFoundError }] *)
Definition found {A} (msg : string) (c : M IndexerDB (option A)) : M IndexerDB A :=
  t ← c; match t with Some t => mret t | None => fail (ResourceNotFoundError None msg) end.

Definition paged {A} (p : Pagination) (c : M IndexerDB (list A * Z)) : M IndexerDB (PageOf A) :=
  r ← c; mret (mkPageOf r.1 r.2 (Page p) (Limit p)).

Definition svc_GetToken (admin id : string) : M IndexerDB Token := found "token not found" (GetToken admin id).
Definition svc_ListTokens (p : Pagination) : M IndexerDB (PageOf Token) := paged p (ListTokens p).
Definition svc_TotalSupply (admin id : string) : M IndexerDB string :=
  t ← found "token not found" (GetToken admin id); mret (tk_TotalSupply t).
Definition svc_GetBalance (partyID admin id : string) : M IndexerDB Balance := found "balance not found" (GetBalance partyID admin id).
Definition svc_ListBalancesForParty (partyID : string) (p : Pagination) : M IndexerDB (PageOf Balance) :=
  paged p (ListBalancesForParty partyID p).
Definition svc_ListBalancesForToken (admin id : string) (p : Pagination) : M IndexerDB (PageOf Balance) :=
  paged p (ListBalancesForToken admin id p).
Definition svc_GetTransfer (contractID : string) : M IndexerDB Transfer := found "transfer not found" (GetTransfer now contractID).
Definition svc_GetEvent (contractID : string) : M IndexerDB ParsedEvent := found "event not found" (GetEvent contractID).
Definition svc_ListTokenEvents (admin id : string) (f : EventFilter) (p : Pagination) : M IndexerDB (PageOf ParsedEvent) :=
  paged p (ListEvents (mkEventFilter admin id (f_PartyID f) (f_EventType f)) p).
Definition svc_ListPartyEvents (partyID : string) (f : EventFilter) (p : Pagination) : M IndexerDB (PageOf ParsedEvent) :=
  paged p (ListEvents (mkEventFilter (f_InstrumentAdmin f) (f_InstrumentID f) partyID (f_EventType f)) p).
Definition svc_GetTransfers (partyID : string) (query : TransferQuery) (p : Pagination) : M IndexerDB (PageOf Transfer) :=
  paged p (ListTransfers now partyID query p).
Definition svc_GetPendingTransfers (p : Pagination) : M IndexerDB (PageOf Transfer) := paged p (ListPendingTransfers now p).
End service.

(** ** The documents *)

(** MarshalJSON and UnmarshalJSON of time.Time, on the instants of the model. *)
Class TimeJSON := { time_text : Z -> string; parse_time : string -> option Z }.

(** encoding/json of a type. *)
Class Wire (A : Type) := { to_json : A -> json; from_json : json -> result A }.

Definition JInt (n : Z) : json := JNumber (FormatInt n).

(** The fields of a document; an absent field is the zero value. *)
Definition int_field (l : list (string * json)) (name : string) : result Z :=
  match member name l with
  | None | Some JNull => Ok 0
  | Some (JNumber t) => ParseInt t
  | _ => Err json_error
  end.
Definition optional_string (l : list (string * json)) (name : string) : result (option string) :=
  match member name l with
  | None | Some JNull => Ok None
  | Some (JString s) => Ok (Some s)
  | _ => Err json_error
  end.

Definition object {A} (f : list (string * json) -> result A) (j : json) : result A :=
  match j with JObject l => f l | JNull => f [] | _ => Err json_error end.

(** omitempty *)
Definition omit_empty (name s : string) : list (string * json) := if bool_decide (s = ""%string) then [] else [(name, JString s)].
Definition omit_nil (name : string) (o : option string) : list (string * json) := match o with Some s => [(name, JString s)] | None => [] end.

Section documents.
Context `{!TimeJSON}.

Definition JTime (t : Z) : json := JString (time_text t).
Definition time_field (l : list (string * json)) (name : string) : result Z :=
  match member name l with
  | None | Some JNull => Ok zero_time
  | Some (JString s) => match parse_time s with Some t => Ok t | None => Err json_error end
  | _ => Err json_error
  end.
Definition optional_time (l : list (string * json)) (name : string) : result (option Z) :=
  match member name l with
  | None | Some JNull => Ok None
  | Some (JString s) => match parse_time s with Some t => Ok (Some t) | None => Err json_error end
  | _ => Err json_error
  end.

#[export] Instance token_wire : Wire Token := {|
  to_json t := JObject [("instrument_admin"%string, JString (tk_InstrumentAdmin t)); ("instrument_id"%string, JString (tk_InstrumentID t));
    ("issuer"%string, JString (tk_Issuer t)); ("total_supply"%string, JString (tk_TotalSupply t));
    ("holder_count"%string, JInt (tk_HolderCount t)); ("first_seen_offset"%string, JInt (tk_FirstSeenOffset t));
    ("first_seen_at"%string, JTime (tk_FirstSeenAt t))];
  from_json := object (fun l =>
    admin ← string_field l "instrument_admin"; id ← string_field l "instrument_id"; issuer ← string_field l "issuer";
    supply ← string_field l "total_supply"; holders ← int_field l "holder_count"; off ← int_field l "first_seen_offset";
    at_ ← time_field l "first_seen_at"; mret (mkToken admin id issuer supply holders off at_));
|}.

#[export] Instance balance_wire : Wire Balance := {|
  to_json b := JObject [("party_id"%string, JString (b_PartyID b)); ("instrument_admin"%string, JString (b_InstrumentAdmin b));
    ("instrument_id"%string, JString (b_InstrumentID b)); ("amount"%string, JString (b_Amount b))];
  from_json := object (fun l =>
    party ← string_field l "party_id"; admin ← string_field l "instrument_admin"; id ← string_field l "instrument_id";
    amount ← string_field l "amount"; mret (mkBalance party admin id amount));
|}.

#[export] Instance event_wire : Wire ParsedEvent := {|
  to_json e := JObject ([("instrument_id"%string, JString (pe_InstrumentID e)); ("instrument_admin"%string, JString (pe_InstrumentAdmin e));
    ("issuer"%string, JString (pe_Issuer e)); ("event_type"%string, JString (pe_EventType e)); ("amount"%string, JString (pe_Amount e))] ++
    omit_nil "from_party_id" (pe_FromPartyID e) ++ omit_nil "to_party_id" (pe_ToPartyID e) ++
    omit_nil "external_tx_id" (pe_ExternalTxID e) ++ omit_nil "external_address" (pe_ExternalAddress e) ++
    omit_nil "fingerprint" (pe_Fingerprint e) ++
    [("contract_id"%string, JString (pe_ContractID e)); ("tx_id"%string, JString (pe_TxID e));
     ("ledger_offset"%string, JInt (pe_LedgerOffset e)); ("timestamp"%string, JTime (pe_Timestamp e));
     ("effective_time"%string, JTime (pe_EffectiveTime e))]);
  from_json := object (fun l =>
    id ← string_field l "instrument_id"; admin ← string_field l "instrument_admin"; issuer ← string_field l "issuer";
    type ← string_field l "event_type"; amount ← string_field l "amount"; from ← optional_string l "from_party_id";
    to ← optional_string l "to_party_id"; extTx ← optional_string l "external_tx_id"; extAddr ← optional_string l "external_address";
    fp ← optional_string l "fingerprint"; cid ← string_field l "contract_id"; tx ← string_field l "tx_id";
    off ← int_field l "ledger_offset"; ts ← time_field l "timestamp"; eff ← time_field l "effective_time";
    mret (mkParsedEvent id admin issuer type amount from to extTx extAddr fp cid tx off ts eff));
|}.

#[export] Instance transfer_wire : Wire Transfer := {|
  to_json t := JObject ([("contract_id"%string, JString (tr_ContractID t)); ("kind"%string, JString (tr_Kind t));
    ("status"%string, JString (tr_Status t)); ("from_party_id"%string, JString (tr_FromPartyID t));
    ("to_party_id"%string, JString (tr_ToPartyID t)); ("instrument_admin"%string, JString (tr_InstrumentAdmin t));
    ("instrument_id"%string, JString (tr_InstrumentID t)); ("amount"%string, JString (tr_Amount t))] ++
    match tr_ExpiresAt t with Some e => [("expires_at"%string, JTime e)] | None => [] end ++
    omit_empty "tx_id" (tr_TxID t) ++
    [("ledger_offset"%string, JInt (tr_LedgerOffset t)); ("created_at"%string, JTime (tr_CreatedAt t))]);
  from_json := object (fun l =>
    cid ← string_field l "contract_id"; kind ← string_field l "kind"; status ← string_field l "status";
    from ← string_field l "from_party_id"; to ← string_field l "to_party_id"; admin ← string_field l "instrument_admin";
    id ← string_field l "instrument_id"; amount ← string_field l "amount"; exp ← optional_time l "expires_at";
    tx ← string_field l "tx_id"; off ← int_field l "ledger_offset"; at_ ← time_field l "created_at";
    mret (mkTransfer cid kind status from to admin id amount exp tx off at_ false));
|}.

#[export] Instance page_wire {A} `{!Wire A} : Wire (PageOf A) := {|
  to_json p := JObject [("items"%string, JArray (to_json <$> pg_Items p)); ("total"%string, JInt (pg_Total p));
    ("page"%string, JInt (pg_Page p)); ("limit"%string, JInt (pg_Limit p))];
  from_json := object (fun l =>
    items ← (match member "items" l with None => Ok [] | raw => unmarshal_slice from_json raw end);
    total ← int_field l "total"; page ← int_field l "page"; limit ← int_field l "limit";
    mret (mkPageOf items total page limit));
|}.

(** The answer of the supply endpoint. *)
Definition supply_json (supply : string) : json := JObject [("total_supply"%string, JString supply)].
Definition parse_supply : json -> result string := object (fun l => string_field l "total_supply").

(** ** service/http.go *)

Record Request := mkRequest { rq_path : list string; rq_query : gmap string string }.
Record Response := mkResponse { rp_status : Z; rp_body : json }.

(** r.URL.Query().Get(key) *)
Definition query_get (r : Request) (key : string) : string := default ""%string (rq_query r !! key).

Definition parsePagination (r : Request) : result Pagination :=
  page ← (let s := query_get r "page" in
          if bool_decide (s = ""%string) then Ok 1
          else match ParseInt s with
               | Ok v => if v <? 1 then Err (BadRequestError None "page must be an integer >= 1") else Ok v
               | Err _ => Err (BadRequestError None "page must be an integer >= 1")
               end);
  limit ← (let s := query_get r "limit" in
           if bool_decide (s = ""%string) then Ok DefaultLimit
           else match ParseInt s with
                | Ok v => if (v <? 1) || (MaxLimit <? v) then Err (BadRequestError None "limit must be an integer between 1 and 200") else Ok v
                | Err _ => Err (BadRequestError None "limit must be an integer between 1 and 200")
                end);
  mret (mkPagination page limit).

Definition parseEventType (r : Request) : result string :=
  let et := query_get r "event_type" in
  if bool_decide (et = ""%string) then Ok ""%string
  else if bool_decide (et ∈ [EventMint; EventBurn; EventTransfer]) then Ok et
  else Err (BadRequestError None "event_type must be MINT, BURN, or TRANSFER").

Definition parseTransferQuery (r : Request) : result TransferQuery :=
  role ← (let s := query_get r "role" in
          if bool_decide (s = ""%string) || bool_decide (s = "receiver"%string) then Ok TransferRoleReceiver
          else if bool_decide (s = "sender"%string) then Ok TransferRoleSender
          else if bool_decide (s = "any"%string) then Ok TransferRoleAny
          else Err (BadRequestError None "role must be receiver, sender, or any"));
  status ← (let s := query_get r "status" in
            if bool_decide (s = ""%string) || bool_decide (s = "all"%string) then Ok ""%string
            else if bool_decide (s ∈ [TransferStatusPending; TransferStatusExpired; TransferStatusCompleted; TransferStatusCanceled;
                                      TransferStatusRejected]) then Ok s
            else Err (BadRequestError None "status must be pending, expired, completed, canceled, rejected, or all"));
  mret (mkTransferQuery role status).

Section server.
Variable now : Z.

Definition json_of {A} `{!Wire A} (c : M IndexerDB A) : M IndexerDB json := a ← c; mret (to_json a).

Definition h_listTokens (r : Request) : M IndexerDB json := p ← lift (parsePagination r); json_of (svc_ListTokens p).
Definition h_getToken (admin id : string) : M IndexerDB json := json_of (svc_GetToken admin id).
Definition h_getTokenSupply (admin id : string) : M IndexerDB json := s ← svc_TotalSupply admin id; mret (supply_json s).
Definition h_listTokenBalances (admin id : string) (r : Request) : M IndexerDB json :=
  p ← lift (parsePagination r); json_of (svc_ListBalancesForToken admin id p).
Definition h_listTokenEvents (admin id : string) (r : Request) : M IndexerDB json :=
  p ← lift (parsePagination r); et ← lift (parseEventType r); json_of (svc_ListTokenEvents admin id (mkEventFilter "" "" "" et) p).
Definition h_listPartyBalances (partyID : string) (r : Request) : M IndexerDB json :=
  p ← lift (parsePagination r); json_of (svc_ListBalancesForParty partyID p).
Definition h_getPartyBalance (partyID admin id : string) : M IndexerDB json := json_of (svc_GetBalance partyID admin id).
Definition h_listPartyEvents (partyID : string) (r : Request) : M IndexerDB json :=
  p ← lift (parsePagination r); et ← lift (parseEventType r); json_of (svc_ListPartyEvents partyID (mkEventFilter "" "" "" et) p).
Definition h_getEvent (contractID : string) : M IndexerDB json := json_of (svc_GetEvent contractID).
Definition h_getTransfer (contractID : string) : M IndexerDB json := json_of (svc_GetTransfer now contractID).
Definition h_listTransfers (partyID : string) (r : Request) : M IndexerDB json :=
  p ← lift (parsePagination r); query ← lift (parseTransferQuery r); json_of (svc_GetTransfers now partyID query p).
Definition h_listPendingTransfers (r : Request) : M IndexerDB json :=
  p ← lift (parsePagination r); json_of (svc_GetPendingTransfers now p).

(** HandleError around a handler. *)
Definition HandleError (h : M IndexerDB json) : M IndexerDB Response :=
  r ← attempt h;
  match r with
  | Ok j => mret (mkResponse 200 j)
  | Err e => let '(status, (msg, code)) := DefaultErrorHandler e in
             mret (mkResponse status (JObject [("error"%string, JString msg); ("code"%string, JInt code)]))
  end.

(** RegisterPrivateRoutes.  A parameter of a route matches one segment that is
    not empty; chi hands it to the handler as it was written in the path. *)
Class ChiRouter := { URLParam : string -> string }.

Inductive segment := Lit (s : string) | Param.

Fixpoint match_path `{!ChiRouter} (pat : list segment) (path : list string) : option (list string) :=
  match pat, path with
  | [], [] => Some []
  | Lit s :: pat, x :: path => if bool_decide (x = s) then match_path pat path else None
  | Param :: pat, x :: path =>
      if bool_decide (x = ""%string) then None else (fun ps => URLParam x :: ps) <$> match_path pat path
  | _, _ => None
  end.

Definition admin_root : list string := ["indexer"; "v1"; "admin"]%string.

(** The handler of a request, with the parameters of its route. *)
Definition routes (r : Request) : list (list segment * (list string -> M IndexerDB json)) :=
  let no_route := fail (ErrNew "unreachable") in
  [ ([Lit "tokens"], fun _ => h_listTokens r);
    ([Lit "tokens"; Param; Param], fun ps => match ps with [admin; id] => h_getToken admin id | _ => no_route end);
    ([Lit "tokens"; Param; Param; Lit "supply"], fun ps => match ps with [admin; id] => h_getTokenSupply admin id | _ => no_route end);
    ([Lit "tokens"; Param; Param; Lit "balances"], fun ps => match ps with [admin; id] => h_listTokenBalances admin id r | _ => no_route end);
    ([Lit "tokens"; Param; Param; Lit "events"], fun ps => match ps with [admin; id] => h_listTokenEvents admin id r | _ => no_route end);
    ([Lit "parties"; Param; Lit "balances"], fun ps => match ps with [party] => h_listPartyBalances party r | _ => no_route end);
    ([Lit "parties"; Param; Lit "balances"; Param; Param],
     fun ps => match ps with [party; admin; id] => h_getPartyBalance party admin id | _ => no_route end);
    ([Lit "parties"; Param; Lit "events"], fun ps => match ps with [party] => h_listPartyEvents party r | _ => no_route end);
    ([Lit "parties"; Param; Lit "transfers"], fun ps => match ps with [party] => h_listTransfers party r | _ => no_route end);
    ([Lit "pending-transfers"], fun _ => h_listPendingTransfers r);
    ([Lit "events"; Param], fun ps => match ps with [cid] => h_getEvent cid | _ => no_route end);
    ([Lit "transfers"; Param], fun ps => match ps with [cid] => h_getTransfer cid | _ => no_route end) ]%string.

(** The answer to a request: of its route, or none. *)
Fixpoint dispatch `{!ChiRouter} (rs : list (list segment * (list string -> M IndexerDB json))) (path : list string) : option (M IndexerDB json) :=
  match rs with
  | [] => None
  | (pat, h) :: rs =>
      match match_path (map Lit admin_root ++ pat) path with
      | Some ps => Some (h ps)
      | None => dispatch rs path
      end
  end.
End server.

(** ** client/http.go *)

(** http.Client.Do of a GET *)
Class HttpGet (X : Type) := http_get : Request -> M X http_outcome.

Section client.
Context {X : Type} `{!HttpGet X}.

(** The message of an error response: that of the envelope, or the body. *)
Definition error_message (text : string) (doc : option json) : string :=
  let envelope := match doc with
    | Some (JObject l) => match string_field l "error" with Ok m => m | Err _ => ""%string end
    | _ => ""%string
    end in
  if bool_decide (envelope = ""%string) then TrimSpace text else envelope.

Definition getJSON {A} (decode : json -> result A) (url : Request) : M X A :=
  o ← http_get url;
  match o with
  | http_invalid e => fail (ErrWrap "build request: " e "")
  | http_failed e => fail (ErrWrap "http request: " e "")
  | http_response status body =>
      if (status <? 200) || (300 <=? status) then
        match body with
        | Err e => fail (ErrWrap ("indexer HTTP " +:+ FormatInt status +:+ ": failed to read error body: ") e "")
        | Ok (text, doc) =>
            let errMsg := error_message text doc in
            if status =? 404 then fail (ResourceNotFoundError None errMsg)
            else fail (ErrNew ("indexer HTTP " +:+ FormatInt status +:+ ": " +:+ errMsg))
        end
      else
        match body with
        | Err e => fail (ErrWrap "decode response: " e "")
        | Ok (_, None) => fail (ErrWrap "decode response: " json_error "")
        | Ok (_, Some j) => lift (wrap "decode response: " (decode j))
        end
  end.

Definition tokenBase (admin id : string) : list string := admin_root ++ ["tokens"%string; PathEscape admin; PathEscape id].
Definition partyBase (partyID : string) : list string := admin_root ++ ["parties"%string; PathEscape partyID].

Definition pageQuery (p : Pagination) : gmap string string :=
  <["page"%string := FormatInt (Page p)]> {["limit"%string := FormatInt (Limit p)]}.

Definition with_event_type (f : EventFilter) (q : gmap string string) : gmap string string :=
  if bool_decide (f_EventType f = ""%string) then q else <["event_type"%string := f_EventType f]> q.

Definition cl_GetToken (admin id : string) : M X Token :=
  wrapping ("get token " +:+ admin +:+ "/" +:+ id +:+ ": ") (getJSON from_json (mkRequest (tokenBase admin id) ∅)).
Definition cl_ListTokens (p : Pagination) : M X (PageOf Token) :=
  wrapping "list tokens: " (getJSON from_json (mkRequest (admin_root ++ ["tokens"%string]) (pageQuery p))).
Definition cl_TotalSupply (admin id : string) : M X string :=
  wrapping ("total supply for " +:+ admin +:+ "/" +:+ id +:+ ": ")
    (getJSON parse_supply (mkRequest (tokenBase admin id ++ ["supply"%string]) ∅)).
Definition cl_GetBalance (partyID admin id : string) : M X Balance :=
  wrapping ("balance for party " +:+ partyID +:+ " token " +:+ admin +:+ "/" +:+ id +:+ ": ")
    (getJSON from_json (mkRequest (partyBase partyID ++ ["balances"%string; PathEscape admin; PathEscape id]) ∅)).
Definition cl_ListBalancesForParty (partyID : string) (p : Pagination) : M X (PageOf Balance) :=
  wrapping ("list balances for party " +:+ partyID +:+ ": ")
    (getJSON from_json (mkRequest (partyBase partyID ++ ["balances"%string]) (pageQuery p))).
Definition cl_ListBalancesForToken (admin id : string) (p : Pagination) : M X (PageOf Balance) :=
  wrapping ("list balances for token " +:+ admin +:+ "/" +:+ id +:+ ": ")
    (getJSON from_json (mkRequest (tokenBase admin id ++ ["balances"%string]) (pageQuery p))).
Definition cl_GetEvent (contractID : string) : M X ParsedEvent :=
  wrapping ("get event " +:+ contractID +:+ ": ")
    (getJSON from_json (mkRequest (admin_root ++ ["events"%string; PathEscape contractID]) ∅)).
Definition cl_ListTokenEvents (admin id : string) (f : EventFilter) (p : Pagination) : M X (PageOf ParsedEvent) :=
  wrapping ("list events for token " +:+ admin +:+ "/" +:+ id +:+ ": ")
    (getJSON from_json (mkRequest (tokenBase admin id ++ ["events"%string]) (with_event_type f (pageQuery p)))).
Definition cl_ListPartyEvents (partyID : string) (f : EventFilter) (p : Pagination) : M X (PageOf ParsedEvent) :=
  wrapping ("list events for party " +:+ partyID +:+ ": ")
    (getJSON from_json (mkRequest (partyBase partyID ++ ["events"%string]) (with_event_type f (pageQuery p)))).
Definition cl_GetTransfer (contractID : string) : M X Transfer :=
  wrapping ("get transfer " +:+ contractID +:+ ": ")
    (getJSON from_json (mkRequest (admin_root ++ ["transfers"%string; PathEscape contractID]) ∅)).

Definition transfer_query (query : TransferQuery) (q : gmap string string) : gmap string string :=
  let q := if bool_decide (q_Role query = ""%string) then q else <["role"%string := q_Role query]> q in
  if bool_decide (q_Status query = ""%string) then q else <["status"%string := q_Status query]> q.

Definition cl_GetTransfers (partyID : string) (query : TransferQuery) (p : Pagination) : M X (PageOf Transfer) :=
  wrapping ("transfers for party " +:+ partyID +:+ ": ")
    (getJSON from_json (mkRequest (partyBase partyID ++ ["transfers"%string]) (transfer_query query (pageQuery p)))).
Definition cl_GetPendingTransfers (p : Pagination) : M X (PageOf Transfer) :=
  wrapping "get pending transfers: " (getJSON from_json (mkRequest (admin_root ++ ["pending-transfers"%string]) (pageQuery p))).
End client.
End documents.
