(* ===== verification/IndexerApiProofs.v ===== *)
(** * The indexer's query API: theorems

    The documents decode to what was encoded, and a client that talks to the
    server over HTTP gets what the service answers in process. *)

From S2P Require Import Prelude AppErrors Effects GoStd GoText Decimal DamlValues Streaming LedgerApi TokenCodec TokenRegistry IndexerStore IndexerApi.
From Stdlib Require Import Ascii String.
Local Open Scope Z_scope.
Local Abbreviation length := Datatypes.length.

(** ** Documents *)

(** time.Time is printed and parsed without loss. *)
Class TimeJSONLaws `{!TimeJSON} : Prop := time_roundtrip : forall t, parse_time (time_text t) = Some t.

(** A document that decodes to the value it was encoded from. *)
Class WireOk (A : Type) := wire_ok : A -> Prop.
Class WireLaws (A : Type) `{!Wire A} `{!WireOk A} : Prop := wire_roundtrip : forall a, wire_ok a -> from_json (to_json a) = Ok a.

Section documents.
Context `{!TimeJSON} `{!TimeJSONLaws}.

(** ** Looking fields up *)

Lemma member_app name l l' : member name (l ++ l') = match member name l' with Some v => Some v | None => member name l end.
Proof.
  unfold member. rewrite rev_app_distr. induction (rev l') as [|kv r IH]; [done|]. cbn. by destruct (EqualFold kv.1 name).
Qed.

Lemma member_omit_nil name k o : member name (omit_nil k o) = if EqualFold k name then JString <$> o else None.
Proof. destruct o; unfold member; cbn; by destruct (EqualFold k name). Qed.

Lemma member_omit_empty name k s :
  member name (omit_empty k s) = if EqualFold k name then (if bool_decide (s = ""%string) then None else Some (JString s)) else None.
Proof. unfold omit_empty. case_bool_decide; unfold member; cbn; by destruct (EqualFold k name). Qed.

Lemma string_field_eq l name s : member name l = Some (JString s) -> string_field l name = Ok s.
Proof. intros Hm. unfold string_field. by rewrite Hm. Qed.

Lemma string_field_omitted l name s :
  member name l = (if bool_decide (s = ""%string) then None else Some (JString s)) -> string_field l name = Ok s.
Proof. intros Hm. unfold string_field. rewrite Hm. by case_bool_decide; subst. Qed.

Lemma optional_string_eq l name o :
  member name l = match JString <$> o with Some v => Some v | None => None end -> optional_string l name = Ok o.
Proof. intros Hm. unfold optional_string. rewrite Hm. by destruct o. Qed.

Lemma int_field_eq l name n : member name l = Some (JInt n) -> is_int64 n -> int_field l name = Ok n.
Proof. intros Hm Hn. unfold int_field. rewrite Hm. cbn. by rewrite ParseInt_FormatInt. Qed.

Lemma time_field_eq l name t : member name l = Some (JTime t) -> time_field l name = Ok t.
Proof. intros Hm. unfold time_field. rewrite Hm. cbn. by rewrite time_roundtrip. Qed.

Lemma optional_time_eq l name o : member name l = JTime <$> o -> optional_time l name = Ok o.
Proof. intros Hm. unfold optional_time. rewrite Hm. destruct o; [|done]. cbn. by rewrite time_roundtrip. Qed.

(** The fields of an encoded struct, from the first one on. *)
Ltac lookup_field := rewrite ?member_app, ?member_omit_nil, ?member_omit_empty; reflexivity.
Ltac wire_field :=
  match goal with
  | |- (string_field ?l ?n ≫= _) = _ => erewrite (string_field_eq l n) by lookup_field
  | |- (int_field ?l ?n ≫= _) = _ => erewrite (int_field_eq l n) by (lookup_field || done)
  | |- (time_field ?l ?n ≫= _) = _ => erewrite (time_field_eq l n) by lookup_field
  end; unfold mbind at 1, result_bind at 1.

Ltac optional_field o :=
  match goal with |- (optional_string ?l ?n ≫= _) = _ => rewrite (optional_string_eq l n o) by (destruct o; lookup_field) end;
  unfold mbind at 1, result_bind at 1.

(** The optional fields of a transfer and those after them. *)
Ltac transfer_fields tx exp :=
  match goal with |- (optional_time ?l ?n ≫= _) = _ => rewrite (optional_time_eq l n exp)
    by (rewrite ?member_app, ?member_omit_empty; reflexivity) end;
  unfold mbind at 1, result_bind at 1;
  match goal with |- (string_field ?l ?n ≫= _) = _ => rewrite (string_field_omitted l n tx)
    by (rewrite ?member_app, ?member_omit_empty; destruct (bool_decide (tx = ""%string)); reflexivity) end;
  unfold mbind at 1, result_bind at 1; repeat wire_field; done.

#[export] Instance token_ok : WireOk Token := fun t => is_int64 (tk_HolderCount t) /\ is_int64 (tk_FirstSeenOffset t).
#[export] Instance token_laws : WireLaws Token.
Proof. intros [] [Hh Ho]. cbn in Hh, Ho. unfold from_json, to_json, token_wire, object. repeat wire_field. done. Qed.

#[export] Instance balance_ok : WireOk Balance := fun _ => True.
#[export] Instance balance_laws : WireLaws Balance.
Proof. intros [] _. unfold from_json, to_json, balance_wire, object. repeat wire_field. done. Qed.

#[export] Instance event_ok : WireOk ParsedEvent := fun e => is_int64 (pe_LedgerOffset e).
#[export] Instance event_laws : WireLaws ParsedEvent.
Proof.
  intros [id admin issuer type amount from to etx eaddr fp cid tx off ts eff] Ho. unfold wire_ok, event_ok in Ho. cbn in Ho.
  unfold from_json, to_json, event_wire, object. cbn [pe_FromPartyID pe_ToPartyID pe_ExternalTxID pe_ExternalAddress pe_Fingerprint].
  repeat wire_field. optional_field from. optional_field to. optional_field etx. optional_field eaddr. optional_field fp.
  repeat wire_field. done.
Qed.

#[export] Instance transfer_ok : WireOk Transfer := fun t => is_int64 (tr_LedgerOffset t) /\ tr_Archived t = false.
#[export] Instance transfer_laws : WireLaws Transfer.
Proof.
  intros [cid kind status from to admin id amount exp tx off at_ arch] [Ho Ha]. cbn in Ho, Ha. subst arch.
  unfold from_json, to_json, transfer_wire, object. cbn [tr_ExpiresAt tr_TxID]. destruct exp as [e|].
  - repeat wire_field. transfer_fields tx (Some e).
  - repeat wire_field. transfer_fields tx (@None Z).
Qed.

Lemma collect_wire {A} `{!Wire A} `{!WireOk A} `{!WireLaws A} l : Forall wire_ok l -> collect from_json (to_json <$> l) = Ok l.
Proof. induction 1 as [|a l Ha _ IH]; [done|]. cbn. rewrite wire_roundtrip by done. by rewrite IH. Qed.

#[export] Instance page_ok {A} `{!WireOk A} : WireOk (PageOf A) := fun p =>
  Forall wire_ok (pg_Items p) /\ is_int64 (pg_Total p) /\ is_int64 (pg_Page p) /\ is_int64 (pg_Limit p).
#[export] Instance page_laws {A} `{!Wire A} `{!WireOk A} `{!WireLaws A} : WireLaws (PageOf A).
Proof.
  intros [items total page limit] (Hi & Ht & Hp & Hl). cbn in Hi, Ht, Hp, Hl.
  unfold from_json at 1, to_json at 1, page_wire, object. cbn [pg_Items pg_Total pg_Page pg_Limit].
  assert (member "items" [("items"%string, JArray (to_json <$> items)); ("total"%string, JInt total); ("page"%string, JInt page);
    ("limit"%string, JInt limit)] = Some (JArray (to_json <$> items))) as -> by reflexivity.
  cbn [unmarshal_slice]. rewrite (collect_wire items) by done. unfold mbind at 1, result_bind at 1. repeat wire_field. done.
Qed.
End documents.

(** ** Client and server *)

(** chi hands a segment without escapes to the handler unchanged. *)
Definition plain (s : string) : Prop := PathEscape s = s /\ s <> ""%string.
Class ChiLaws `{!ChiRouter} : Prop := URLParam_plain : forall s, plain s -> URLParam s = s.

Section composition.
Context `{!TimeJSON} `{!TimeJSONLaws} `{!ChiRouter} `{!ChiLaws}.
Variable now : Z.
Variable render : json -> string.

(** A network that carries a request to the server and its answer back. *)
#[local] Instance served : HttpGet IndexerDB := fun r =>
  match dispatch (routes now r) (rq_path r) with
  | Some h =>
      resp ← HandleError h; mret (http_response (rp_status resp) (Ok (render (rp_body resp), Some (rp_body resp))))
  | None => mret (http_response 404 (Ok ("404 page not found"%string, None)))
  end.

(** The answers agree: the same value when it can be written as a document, and
    an error that is not found on one side exactly when it is on the other; the
    database is left in the same state. *)
Definition agrees {A} `{!WireOk A} (remote local : result A * IndexerDB) : Prop :=
  remote.2 = local.2 /\
  match local.1 with
  | Ok a => wire_ok a -> remote.1 = Ok a
  | Err e => exists e', remote.1 = Err e' /\ Is e' CategoryResourceNotFound = Is e CategoryResourceNotFound
  end.

Lemma getJSON_error {A} (decode : json -> result A) r (h : M IndexerDB json) e d d' :
  dispatch (routes now r) (rq_path r) = Some h -> h d = (Err e, d') ->
  exists e', getJSON decode r d = (Err e', d') /\ Is e' CategoryResourceNotFound = Is e CategoryResourceNotFound.
Proof.
  intros Hr Hh. unfold getJSON, http_get, served. rewrite Hr. unfold HandleError, mbind, M_bind, attempt. rewrite Hh.
  unfold DefaultErrorHandler, Is. destruct (errors_As e) as [[c m]|]; [destruct c|]; cbn; eexists; split; try reflexivity; done.
Qed.

Lemma getJSON_ok {A} (decode : json -> result A) r (h : M IndexerDB json) j d d' :
  dispatch (routes now r) (rq_path r) = Some h -> h d = (Ok j, d') -> getJSON decode r d = (wrap "decode response: " (decode j), d').
Proof.
  intros Hr Hh. unfold getJSON, http_get, served. rewrite Hr. unfold HandleError, mbind, M_bind, attempt. rewrite Hh. done.
Qed.

(** A handler that encodes the answer of the service. *)
Lemma handler_agrees {A} `{!WireOk A} (enc : A -> json) (decode : json -> result A) pre (c : M IndexerDB A) (h : M IndexerDB json) r d :
  (forall a, wire_ok a -> decode (enc a) = Ok a) ->
  dispatch (routes now r) (rq_path r) = Some h -> h d = (a ← c; mret (enc a)) d ->
  agrees (wrapping pre (getJSON decode r) d) (c d).
Proof.
  intros Hrt Hr Hh. unfold mbind, M_bind in Hh. destruct (c d) as [[a|e] d'] eqn:Hc.
  - unfold wrapping, agrees. cbn [fst snd]. rewrite (getJSON_ok decode r h (enc a) d d') by done. cbn [fst snd]. split; [done|].
    intros Ha. by rewrite Hrt.
  - destruct (getJSON_error decode r h e d d' Hr Hh) as (e' & Hg & Hcat). unfold wrapping, agrees. rewrite Hg. cbn. eauto.
Qed.

Lemma wire_agrees {A} `{!Wire A} `{!WireOk A} `{!WireLaws A} pre (c : M IndexerDB A) (h : M IndexerDB json) r d :
  dispatch (routes now r) (rq_path r) = Some h -> h d = json_of c d -> agrees (wrapping pre (getJSON from_json r) d) (c d).
Proof. apply handler_agrees. apply wire_roundtrip. Qed.

(** ** Queries *)

(** The paginations that the server accepts. *)
Definition page_served (p : Pagination) : Prop := 1 <= Page p <= max_int64 /\ 1 <= Limit p <= MaxLimit.

Lemma FormatInt_nonempty n : is_int64 n -> FormatInt n <> ""%string.
Proof. intros Hn Hf. pose proof (ParseInt_FormatInt n Hn) as Hp. by rewrite Hf in Hp. Qed.

Lemma parsePagination_pageQuery p path q :
  page_served p -> q !! "page"%string = Some (FormatInt (Page p)) -> q !! "limit"%string = Some (FormatInt (Limit p)) ->
  parsePagination (mkRequest path q) = Ok p.
Proof.
  intros [Hp Hl] Hqp Hql. unfold MaxLimit in *. assert (is_int64 (Page p)) by (unfold is_int64, min_int64, max_int64 in *; lia).
  assert (is_int64 (Limit p)) by (unfold is_int64, min_int64, max_int64 in *; lia).
  assert (query_get (mkRequest path q) "page" = FormatInt (Page p)) as Hgp by (unfold query_get; cbn [rq_query]; by rewrite Hqp).
  assert (query_get (mkRequest path q) "limit" = FormatInt (Limit p)) as Hgl by (unfold query_get; cbn [rq_query]; by rewrite Hql).
  unfold parsePagination. rewrite Hgp, Hgl. cbv zeta.
  rewrite !bool_decide_eq_false_2 by (by apply FormatInt_nonempty). rewrite !ParseInt_FormatInt by done.
  destruct (Z.ltb_spec (Page p) 1); [lia|]. cbn. unfold MaxLimit. destruct (Z.ltb_spec (Limit p) 1), (Z.ltb_spec 200 (Limit p)); try lia.
  cbn. by destruct p.
Qed.

Lemma pageQuery_page p : pageQuery p !! "page"%string = Some (FormatInt (Page p)).
Proof. apply lookup_insert_eq. Qed.
Lemma pageQuery_limit p : pageQuery p !! "limit"%string = Some (FormatInt (Limit p)).
Proof. unfold pageQuery. by rewrite lookup_insert_ne, lookup_singleton_eq by done. Qed.
Lemma pageQuery_other p k : k <> "page"%string -> k <> "limit"%string -> pageQuery p !! k = None.
Proof. intros. unfold pageQuery. rewrite lookup_insert_ne, lookup_singleton_ne by done. done. Qed.

(** The filters that the server understands. *)
Definition event_type_served (et : string) : Prop := et = ""%string \/ et ∈ [EventMint; EventBurn; EventTransfer].
Definition query_served (q : TransferQuery) : Prop :=
  q_Role q ∈ [TransferRoleSender; TransferRoleReceiver; TransferRoleAny] /\
  (q_Status q = ""%string \/ q_Status q ∈ [TransferStatusPending; TransferStatusExpired; TransferStatusCompleted; TransferStatusCanceled;
                                           TransferStatusRejected]).

Lemma parseEventType_query f p path :
  event_type_served (f_EventType f) -> parseEventType (mkRequest path (with_event_type f (pageQuery p))) = Ok (f_EventType f).
Proof.
  intros Het.
  assert (query_get (mkRequest path (with_event_type f (pageQuery p))) "event_type" = f_EventType f) as Hg.
  { unfold query_get, with_event_type. cbn [rq_query]. case_bool_decide as He; [by rewrite pageQuery_other, He by done|].
    by rewrite lookup_insert_eq. }
  unfold parseEventType. rewrite Hg. cbv zeta. case_bool_decide as He; [by rewrite He|]. destruct Het as [|Het]; [done|].
  by rewrite bool_decide_eq_true_2.
Qed.

Lemma with_event_type_page f p k : k <> "event_type"%string -> with_event_type f (pageQuery p) !! k = pageQuery p !! k.
Proof. intros. unfold with_event_type. case_bool_decide; [done|]. by rewrite lookup_insert_ne. Qed.

Lemma transfer_query_page q p k : k <> "role"%string -> k <> "status"%string -> transfer_query q (pageQuery p) !! k = pageQuery p !! k.
Proof. intros. unfold transfer_query. repeat case_bool_decide; rewrite ?lookup_insert_ne by done; done. Qed.

Lemma parseTransferQuery_query q p path :
  query_served q -> parseTransferQuery (mkRequest path (transfer_query q (pageQuery p))) = Ok q.
Proof.
  destruct q as [role status]. intros [Hrole Hstatus]. cbn [q_Role q_Status] in *.
  assert (query_get (mkRequest path (transfer_query (mkTransferQuery role status) (pageQuery p))) "role" = role) as Hr.
  { unfold query_get, transfer_query. cbn [rq_query q_Role q_Status].
    repeat case_bool_decide; subst; rewrite ?lookup_insert_eq, ?lookup_insert_ne, ?lookup_insert_eq, ?pageQuery_other by done; done. }
  assert (query_get (mkRequest path (transfer_query (mkTransferQuery role status) (pageQuery p))) "status" = status) as Hs.
  { unfold query_get, transfer_query. cbn [rq_query q_Role q_Status].
    repeat case_bool_decide; subst; rewrite ?lookup_insert_eq, ?lookup_insert_ne, ?pageQuery_other by done; done. }
  unfold parseTransferQuery. rewrite Hr, Hs. clear Hr Hs.
  assert (Hrole' : role = "sender"%string \/ role = "receiver"%string \/ role = "any"%string) by (revert Hrole; set_solver).
  destruct Hrole' as [->|[->| ->]]; cbn -[bool_decide];
    (destruct Hstatus as [->|Hst]; [done|]; repeat (apply elem_of_cons in Hst as [->|Hst]; [done|]); by apply not_elem_of_nil in Hst).
Qed.

(** ** The routes of the client *)

Lemma plain_param s : plain s -> URLParam (PathEscape s) = s.
Proof. intros Hs. pose proof Hs as [E _]. rewrite E. by apply URLParam_plain. Qed.
Lemma plain_nonempty s : plain s -> bool_decide (PathEscape s = ""%string) = false.
Proof. intros [E N]. rewrite E. by apply bool_decide_eq_false_2. Qed.

Ltac route :=
  unfold dispatch, routes, tokenBase, partyBase, admin_root; cbn [rq_path map app match_path];
  rewrite ?plain_nonempty, ?plain_param by assumption; reflexivity.

(** C19: a remote client gets what the service answers.  Over a network that
    carries requests and answers, for identifiers without characters that a
    path escapes, paginations that the server accepts and filters that it
    knows, every method of the HTTP client agrees with the method of the
    service: the same value, through the encoding of the request, the routes,
    the parsing of the parameters and the JSON document, and a not-found error
    exactly when the service answers with one; so that the callers need not
    know whether the indexer runs in process. *)
Theorem client_agrees_with_service admin id party cid p f q d :
  plain admin -> plain id -> plain party -> plain cid -> page_served p -> event_type_served (f_EventType f) -> query_served q ->
  f_InstrumentAdmin f = ""%string -> f_InstrumentID f = ""%string -> f_PartyID f = ""%string ->
  agrees (cl_GetToken admin id d) (svc_GetToken admin id d) /\ agrees (cl_ListTokens p d) (svc_ListTokens p d) /\
  agrees (A := string) (WireOk0 := fun _ => True) (cl_TotalSupply admin id d) (svc_TotalSupply admin id d) /\
  agrees (cl_GetBalance party admin id d) (svc_GetBalance party admin id d) /\
  agrees (cl_ListBalancesForParty party p d) (svc_ListBalancesForParty party p d) /\
  agrees (cl_ListBalancesForToken admin id p d) (svc_ListBalancesForToken admin id p d) /\
  agrees (cl_GetEvent cid d) (svc_GetEvent cid d) /\
  agrees (cl_ListTokenEvents admin id f p d) (svc_ListTokenEvents admin id f p d) /\
  agrees (cl_ListPartyEvents party f p d) (svc_ListPartyEvents party f p d) /\
  agrees (cl_GetTransfer cid d) (svc_GetTransfer now cid d) /\
  agrees (cl_GetTransfers party q p d) (svc_GetTransfers now party q p d) /\
  agrees (cl_GetPendingTransfers p d) (svc_GetPendingTransfers now p d).
Proof.
  intros Ha Hi Hp Hc Hpg Het Hq Hf1 Hf2 Hf3.
  pose proof (fun path => parsePagination_pageQuery p path (pageQuery p) Hpg (pageQuery_page p) (pageQuery_limit p)) as Hpage.
  assert (forall path, parsePagination (mkRequest path (with_event_type f (pageQuery p))) = Ok p) as Hpage_e.
  { intros path. apply parsePagination_pageQuery; [done|by rewrite with_event_type_page, pageQuery_page by done|
      by rewrite with_event_type_page, pageQuery_limit by done]. }
  assert (forall path, parsePagination (mkRequest path (transfer_query q (pageQuery p))) = Ok p) as Hpage_t.
  { intros path. apply parsePagination_pageQuery; [done|by rewrite transfer_query_page, pageQuery_page by done|
      by rewrite transfer_query_page, pageQuery_limit by done]. }
  destruct f as [fa fi fp et]. cbn [f_InstrumentAdmin f_InstrumentID f_PartyID f_EventType] in *. subst fa fi fp.
  split_and!.
  - apply (wire_agrees _ _ (h_getToken admin id)); [route|done].
  - eapply wire_agrees; [route|]. unfold h_listTokens. by rewrite Hpage.
  - eapply (handler_agrees supply_json); [done|route|done].
  - eapply wire_agrees; [route|done].
  - eapply wire_agrees; [route|]. unfold h_listPartyBalances. by rewrite Hpage.
  - eapply wire_agrees; [route|]. unfold h_listTokenBalances. by rewrite Hpage.
  - eapply wire_agrees; [route|done].
  - eapply wire_agrees; [route|]. unfold h_listTokenEvents. by rewrite Hpage_e, parseEventType_query.
  - eapply wire_agrees; [route|]. unfold h_listPartyEvents. by rewrite Hpage_e, parseEventType_query.
  - eapply wire_agrees; [route|done].
  - eapply wire_agrees; [route|]. unfold h_listTransfers. by rewrite Hpage_t, parseTransferQuery_query.
  - eapply wire_agrees; [route|]. unfold h_listPendingTransfers. by rewrite Hpage.
Qed.
End composition.

(** ** Witness: one token *)

Fixpoint pos_text (p : positive) : string :=
  match p with xH => ""%string | xO p => String "0" (pos_text p) | xI p => String "1" (pos_text p) end.
Fixpoint text_pos (s : string) : positive :=
  match s with EmptyString => xH | String c s => if Ascii.eqb c "0" then xO (text_pos s) else xI (text_pos s) end.
Lemma text_pos_text p : text_pos (pos_text p) = p.
Proof. induction p as [p IH|p IH|]; cbn; by rewrite ?IH. Qed.

Definition ex_times : TimeJSON := {| time_text t := pos_text (encode t); parse_time s := decode (text_pos s) |}.
Lemma ex_times_laws : @TimeJSONLaws ex_times.
Proof. intros t. cbn. rewrite text_pos_text. apply decode_encode. Qed.
Definition ex_router : ChiRouter := {| URLParam s := s |}.
Lemma ex_router_laws : @ChiLaws ex_router.
Proof. done. Qed.

Definition ex_token : Token := mkToken "issuer::12" "DEMO" "issuer::12" "7.5" 2 3 4.
Definition ex_indexer : IndexerDB := mkDB (mkIndexerTables ∅ {[("issuer::12"%string, "DEMO"%string) := ex_token]} ∅ None ∅ ∅) [].

Lemma client_agrees_with_service_witness :
  (@cl_GetToken ex_times _ (@served ex_times ex_router 0 (fun _ => ""%string)) "issuer::12" "DEMO" ex_indexer).1 = Ok ex_token /\
  exists e, (@cl_GetBalance _ (@served ex_times ex_router 0 (fun _ => ""%string)) "bob::34" "issuer::12" "DEMO" ex_indexer).1 = Err e /\
    Is e CategoryResourceNotFound = true.
Proof.
  assert (forall s, PathEscape s = s -> s <> ""%string -> plain s) as Hplain by (intros s E N; split; assumption).
  destruct (@client_agrees_with_service ex_times ex_times_laws ex_router ex_router_laws 0 (fun _ => ""%string)
    "issuer::12" "DEMO" "bob::34" "cid" (mkPagination 1 200) (mkEventFilter "" "" "" "") (mkTransferQuery "any" "") ex_indexer)
    as ([_ Ht] & _ & _ & [_ Hb] & _); try (apply Hplain; [reflexivity|discriminate]); try reflexivity.
  - split; cbn; unfold MaxLimit, max_int64; lia.
  - left. reflexivity.
  - split; [cbn; set_solver|left; reflexivity].
  - assert ((svc_GetToken "issuer::12" "DEMO" ex_indexer).1 = Ok ex_token) as Et by (vm_compute; reflexivity).
    assert ((svc_GetBalance "bob::34" "issuer::12" "DEMO" ex_indexer).1 = Err (ResourceNotFoundError None "balance not found")) as Eb
      by (vm_compute; reflexivity).
    rewrite Et in Ht. rewrite Eb in Hb. split; [apply Ht; split; cbn; unfold is_int64, min_int64, max_int64; lia|].
    destruct Hb as (e & He & Hcat). exists e. split; [exact He|]. rewrite Hcat. reflexivity.
Defined.
