(* ===== verification/IndexerDecoder.v ===== *)
(** * Indexer decoders: pkg/indexer/engine/decoder.go

    From ledger events to the items the processor consumes, and why the items
    they produce are the well-formed ones the accounting relies on. *)

From S2P Require Import Prelude AppErrors Effects GoStd Decimal DamlValues Streaming IndexerStore IndexerProcessor IndexerLedger.

Definition tokenTransferEventModule : string := "CIP56.Events".
Definition tokenTransferEventEntity : string := "TokenTransferEvent".
Definition metaKeyExternalTxID : string := "bridge.externalTxId".
Definition metaKeyExternalAddress : string := "bridge.externalAddress".
Definition metaKeyFingerprint : string := "bridge.fingerprint".
Definition transferOfferModule : string := "Utility.Registry.App.V0.Model.Transfer".
Definition transferOfferEntity : string := "TransferOffer".
Definition choiceInstructionAccept : string := "TransferInstruction_Accept".
Definition choiceInstructionWithdraw : string := "TransferInstruction_Withdraw".
Definition choiceInstructionReject : string := "TransferInstruction_Reject".
Definition holdingModule : string := "Utility.Registry.Holding.V0.Holding".
Definition holdingEntity : string := "Holding".

(** FilterMode *)
Inductive FilterMode := FilterModeAll | FilterModeWhitelist.

(** Config.FilterModeAndKeys *)
Definition FilterModeAndKeys (mode : string) (instruments : list InstrumentKey) : FilterMode * list InstrumentKey :=
  if bool_decide (mode = "whitelist"%string) then (FilterModeWhitelist, instruments) else (FilterModeAll, []).

Definition is_template (ev : LedgerEvent) (modl entity : string) : bool :=
  bool_decide (ModuleName (le_Template ev) = modl) && bool_decide (EntityName (le_Template ev) = entity).

(** [if v != "" { p = &v }] *)
Definition nonempty (v : string) : option string := if bool_decide (v = ""%string) then None else Some v.

(** An Optional Party field as a pointer. *)
Definition party_ptr (ev : LedgerEvent) (name : string) : option string :=
  if ev_IsNone ev name then None else nonempty (OptionalPartyField ev name).

Definition event_type (from to : option string) : option string :=
  match from, to with
  | None, Some _ => Some EventMint
  | Some _, None => Some EventBurn
  | Some _, Some _ => Some EventTransfer
  | None, None => None
  end.

(** NewTokenTransferDecoder *)
Definition NewTokenTransferDecoder (mode : FilterMode) (allowed : list InstrumentKey)
    (tx : LedgerTransaction) (ev : LedgerEvent) : option ParsedEvent :=
  if negb (le_IsCreated ev) then None
  else if negb (is_template ev tokenTransferEventModule tokenTransferEventEntity) then None
  else
    let instrumentID := ev_NestedTextField ev "instrumentId" "id" in
    let instrumentAdmin := ev_NestedPartyField ev "instrumentId" "admin" in
    if match mode with
       | FilterModeWhitelist => negb (bool_decide ((instrumentAdmin, instrumentID) ∈ allowed))
       | FilterModeAll => false
       end then None
    else
      let fromPartyID := party_ptr ev "fromParty" in
      let toPartyID := party_ptr ev "toParty" in
      et ← event_type fromPartyID toPartyID;
      Some (mkParsedEvent instrumentID instrumentAdmin (PartyField ev "issuer") et
              (NumericField ev "amount") fromPartyID toPartyID
              (nonempty (OptionalMetaLookup ev "meta" metaKeyExternalTxID))
              (nonempty (OptionalMetaLookup ev "meta" metaKeyExternalAddress))
              (nonempty (OptionalMetaLookup ev "meta" metaKeyFingerprint))
              (le_ContractID ev) (lt_UpdateID tx) (lt_Offset tx)
              (TimestampField ev "timestamp") (lt_EffectiveTime tx)).

(** offerTerminalStatus; the metric and the log aside. *)
Definition offerTerminalStatus (choice : string) : string :=
  if bool_decide (choice = choiceInstructionAccept) then TransferStatusCompleted
  else if bool_decide (choice = choiceInstructionWithdraw) then TransferStatusCanceled
  else if bool_decide (choice = choiceInstructionReject) then TransferStatusRejected
  else TransferStatusCompleted.

(** NewOfferDecoder *)
Definition NewOfferDecoder (packageID : string) (tx : LedgerTransaction) (ev : LedgerEvent) : option Transfer :=
  if bool_decide (packageID = ""%string) then None
  else if negb (is_template ev transferOfferModule transferOfferEntity) then None
  else if le_IsCreated ev then
    let exp := NestedTimestampField ev "transfer" "executeBefore" in
    Some (mkTransfer (le_ContractID ev) TransferKindOffer TransferStatusPending
            (ev_NestedPartyField ev "transfer" "sender") (ev_NestedPartyField ev "transfer" "receiver")
            (DoublyNestedPartyField ev "transfer" "instrumentId" "admin")
            (DoublyNestedTextField ev "transfer" "instrumentId" "id")
            (NestedNumericField ev "transfer" "amount")
            (if exp =? zero_time then None else Some exp)
            (lt_UpdateID tx) (lt_Offset tx) (lt_EffectiveTime tx) false)
  else
    Some (mkTransfer (le_ContractID ev) TransferKindOffer (offerTerminalStatus (le_Choice ev))
            "" "" "" "" "" None "" (lt_Offset tx) (lt_EffectiveTime tx) true).

(** NewHoldingDecoder *)
Definition NewHoldingDecoder (packageID : string) (tx : LedgerTransaction) (ev : LedgerEvent) : option HoldingChange :=
  if bool_decide (packageID = ""%string) then None
  else if negb (is_template ev holdingModule holdingEntity) then None
  else if le_IsCreated ev then
    Some (mkHoldingChange (le_ContractID ev) false (lt_Offset tx) (PartyField ev "owner")
            (PartyField ev "registrar") (ev_NestedTextField ev "instrument" "id")
            (NumericField ev "amount") (negb (ev_IsNone ev "lock")))
  else Some (mkHoldingChange (le_ContractID ev) true (lt_Offset tx) "" "" "" "" false).

(** NewMultiDecoder *)
Definition NewMultiDecoder (transferDecode : LedgerTransaction -> LedgerEvent -> option ParsedEvent)
    (offerDecode : LedgerTransaction -> LedgerEvent -> option Transfer)
    (holdingDecode : LedgerTransaction -> LedgerEvent -> option HoldingChange)
    (tx : LedgerTransaction) (ev : LedgerEvent) : option Item :=
  match transferDecode tx ev with
  | Some item => Some (ItemEvent item)
  | None =>
      match offerDecode tx ev with
      | Some item => Some (ItemTransfer item)
      | None => ItemHolding <$> holdingDecode tx ev
      end
  end.

(** The decoder the indexer runs with. *)
Definition indexer_decode (mode : FilterMode) (allowed : list InstrumentKey) (offerPkg holdingPkg : string)
    : LedgerTransaction -> LedgerEvent -> option Item :=
  NewMultiDecoder (NewTokenTransferDecoder mode allowed) (NewOfferDecoder offerPkg) (NewHoldingDecoder holdingPkg).

(** ** Properties *)

Lemma is_template_eq ev m e :
  is_template ev m e = true <-> ModuleName (le_Template ev) = m /\ EntityName (le_Template ev) = e.
Proof. unfold is_template. rewrite andb_true_iff, !bool_decide_eq_true. done. Qed.

(** What a decoded TokenTransferEvent is. *)
Lemma transfer_decoder_inv mode allowed tx ev e :
  NewTokenTransferDecoder mode allowed tx ev = Some e ->
  le_IsCreated ev = true /\ is_template ev tokenTransferEventModule tokenTransferEventEntity = true /\
  (mode = FilterModeWhitelist -> (pe_InstrumentAdmin e, pe_InstrumentID e) ∈ allowed) /\
  event_type (pe_FromPartyID e) (pe_ToPartyID e) = Some (pe_EventType e) /\
  pe_Amount e = NumericField ev "amount" /\ pe_ContractID e = le_ContractID ev /\ pe_LedgerOffset e = lt_Offset tx.
Proof.
  unfold NewTokenTransferDecoder. destruct (le_IsCreated ev); [|done]. cbn [negb].
  destruct (is_template ev _ _); [|done]. cbn [negb].
  destruct mode; cbn; [|case_bool_decide; [|done]]; cbn;
    (destruct (event_type _ _) as [et|] eqn:Het; [|done]); cbn; intros [= <-]; by split_and!.
Qed.

Lemma offer_decoder_inv pkg tx ev t :
  NewOfferDecoder pkg tx ev = Some t -> is_template ev transferOfferModule transferOfferEntity = true.
Proof. unfold NewOfferDecoder. case_bool_decide; [done|]. by destruct (is_template ev _ _). Qed.

Lemma holding_decoder_inv pkg tx ev h :
  NewHoldingDecoder pkg tx ev = Some h -> is_template ev holdingModule holdingEntity = true.
Proof. unfold NewHoldingDecoder. case_bool_decide; [done|]. by destruct (is_template ev _ _). Qed.

(** The three decoders never compete.  At most one of them accepts a ledger
    event, so the order in which NewMultiDecoder tries them cannot matter: any
    item any decoder produces is the item the event yields. *)
Theorem decoders_exclusive mode allowed offerPkg holdingPkg tx ev :
  (forall e, NewTokenTransferDecoder mode allowed tx ev = Some e ->
     indexer_decode mode allowed offerPkg holdingPkg tx ev = Some (ItemEvent e) /\
     NewOfferDecoder offerPkg tx ev = None /\ NewHoldingDecoder holdingPkg tx ev = None) /\
  (forall t, NewOfferDecoder offerPkg tx ev = Some t ->
     indexer_decode mode allowed offerPkg holdingPkg tx ev = Some (ItemTransfer t) /\
     NewHoldingDecoder holdingPkg tx ev = None) /\
  (forall h, NewHoldingDecoder holdingPkg tx ev = Some h ->
     indexer_decode mode allowed offerPkg holdingPkg tx ev = Some (ItemHolding h)).
Proof.
  assert (forall e t, NewTokenTransferDecoder mode allowed tx ev = Some e ->
    NewOfferDecoder offerPkg tx ev = Some t -> False) as H1.
  { intros e t He Ht. apply transfer_decoder_inv in He as (_ & He & _). apply offer_decoder_inv in Ht.
    apply is_template_eq in He as [He _], Ht as [Ht _]. rewrite He in Ht. done. }
  assert (forall e h, NewTokenTransferDecoder mode allowed tx ev = Some e ->
    NewHoldingDecoder holdingPkg tx ev = Some h -> False) as H2.
  { intros e h He Hh. apply transfer_decoder_inv in He as (_ & He & _). apply holding_decoder_inv in Hh.
    apply is_template_eq in He as [He _], Hh as [Hh _]. rewrite He in Hh. done. }
  assert (forall t h, NewOfferDecoder offerPkg tx ev = Some t ->
    NewHoldingDecoder holdingPkg tx ev = Some h -> False) as H3.
  { intros t h Ht Hh. apply offer_decoder_inv in Ht. apply holding_decoder_inv in Hh.
    apply is_template_eq in Ht as [Ht _], Hh as [Hh _]. rewrite Ht in Hh. done. }
  unfold indexer_decode, NewMultiDecoder.
  destruct (NewTokenTransferDecoder _ _ _ _), (NewOfferDecoder _ _ _), (NewHoldingDecoder _ _ _);
    naive_solver.
Qed.

(** An archive carries the terminal status of the choice that caused it. *)
Lemma offer_archive_terminal pkg tx ev t :
  NewOfferDecoder pkg tx ev = Some t -> tr_Archived t = true ->
  archive_status t = offerTerminalStatus (le_Choice ev) /\ archive_status t <> TransferStatusPending.
Proof.
  unfold NewOfferDecoder. case_bool_decide; [done|]. destruct (negb _); [done|].
  destruct (le_IsCreated ev); intros [= <-]; [done|]. intros _. unfold archive_status. cbn.
  unfold offerTerminalStatus. repeat case_bool_decide; done.
Qed.

Section Decoded.
Context `{!DecimalLib}.
Variable cip56 : InstrumentKey -> bool.
Variables (mode : FilterMode) (allowed : list InstrumentKey) (offerPkg holdingPkg : string).

(** What the ledger guarantees of a created contract: token events belong to
    CIP-56 instruments and carry unsigned amounts, holdings do not. *)
Definition ledger_event_ok (ev : LedgerEvent) : Prop :=
  le_IsCreated ev = true ->
  (is_template ev tokenTransferEventModule tokenTransferEventEntity = true ->
     cip56 (ev_NestedPartyField ev "instrumentId" "admin", ev_NestedTextField ev "instrumentId" "id") = true /\
     amount_ok (NumericField ev "amount")) /\
  (is_template ev holdingModule holdingEntity = true ->
     cip56 (PartyField ev "registrar", ev_NestedTextField ev "instrument" "id") = false).

(** C37: the decoders only emit well-formed items.  For a ledger that keeps
    CIP-56 and Utility.Registry instruments apart and records unsigned decimal
    amounts, every item of the batch decoded from a transaction meets the
    requirements of the accounting: a mint has a recipient, a burn an owner,
    whitelisting and the instrument classes are respected; and the batch
    keeps the transaction's offset. *)
Theorem stream_batch_ok tx :
  Forall ledger_event_ok (lt_Events tx) ->
  let b := stream_batch (indexer_decode mode allowed offerPkg holdingPkg) tx in
  b_Offset b = lt_Offset tx /\ Forall (item_ok cip56) (Items b) /\
  forall e, ItemEvent e ∈ Items b -> mode = FilterModeWhitelist ->
    (pe_InstrumentAdmin e, pe_InstrumentID e) ∈ allowed.
Proof.
  intros Hok. split; [done|]. cbn [Items stream_batch].
  assert (forall i, i ∈ omap (indexer_decode mode allowed offerPkg holdingPkg tx) (lt_Events tx) ->
    item_ok cip56 i /\ forall e, i = ItemEvent e -> mode = FilterModeWhitelist ->
      (pe_InstrumentAdmin e, pe_InstrumentID e) ∈ allowed) as Hall.
  { intros i (ev & Hev & Hi)%list_elem_of_omap. rewrite Forall_forall in Hok. specialize (Hok ev Hev).
    unfold indexer_decode, NewMultiDecoder in Hi.
    destruct (NewTokenTransferDecoder _ _ _ _) as [e|] eqn:He.
    - injection Hi as <-. pose proof (transfer_decoder_inv _ _ _ _ _ He) as (Hc & Ht & Hw & Het & Ham & _).
      destruct (Hok Hc) as [Htok _]. destruct (Htok Ht) as [Hcip Hamount].
      split; [|by intros ? [= <-]]. cbn. rewrite Ham. split_and!; try done.
      + unfold NewTokenTransferDecoder in He. rewrite Hc, Ht in He. cbn in He.
        repeat (case_match; [done|]). destruct (event_type _ _); [|done]. by injection He as <-.
      + intros Hm. destruct (pe_FromPartyID e), (pe_ToPartyID e); cbn in Het; [..|done];
          injection Het as Het; rewrite <- Het in Hm; done.
      + intros Hm. destruct (pe_FromPartyID e), (pe_ToPartyID e); cbn in Het; [..|done];
          injection Het as Het; rewrite <- Het in Hm; done.
    - destruct (NewOfferDecoder _ _ _) as [t|] eqn:Ho; [by injection Hi as <-|].
      destruct (NewHoldingDecoder _ _ _) as [h|] eqn:Hh; [|done]. injection Hi as <-. split; [|done].
      cbn. pose proof (holding_decoder_inv _ _ _ _ Hh) as Ht. unfold NewHoldingDecoder in Hh.
      rewrite Ht in Hh. cbn in Hh. case_bool_decide; [done|].
      destruct (le_IsCreated ev) eqn:Hc; injection Hh as <-; [|done]. intros _. by apply Hok. }
  split; [apply Forall_forall; by intros i Hi; apply Hall|].
  intros e He. by apply (Hall (ItemEvent e) He).
Qed.
End Decoded.
