(* ===== verification/IndexerScenarios.v ===== *)
(** * Indexer scenarios

    A concrete numeric type, concrete streams, the witnesses of the indexer's
    theorems on them, and scenarios in which the index departs from its
    documentation. *)

From S2P Require Import Prelude AppErrors Effects GoStd Decimal DamlValues Streaming IndexerStore IndexerProcessor IndexerLedger IndexerHistory IndexerDecoder.

#[export] Existing Instance RefDecimal.lib.
#[export] Existing Instance RefDecimal.laws.

#[export] Instance ref_numeric : PgNumeric := fun a b =>
  x ← NewFromString a; y ← NewFromString b; Some (dec_String (dec_Add x y)).

#[export] Instance ref_numeric_laws : PgNumericLaws.
Proof.
  intros a b x y Hx Hy. unfold numeric_add_text, ref_numeric. rewrite Hx, Hy. cbn [mbind option_bind].
  destruct (dlaw_parse_string (dec_Add x y)) as (z & Hz & Hv). exists (dec_String (dec_Add x y)), z.
  split; [done|]. split; [done|]. rewrite Hv. apply dlaw_add.
Qed.

(** Events of one CIP-56 token, and changes of a Utility.Registry holding. *)
Definition sc_event (cid et amount : string) (from to : option string) : Item :=
  ItemEvent (mkParsedEvent "DEMO" "admin" "issuer" et amount from to None None None cid "tx" 1 0 0).
Definition sc_offer (cid : string) : Item :=
  ItemTransfer (mkTransfer cid TransferKindOffer TransferStatusPending "alice" "bob" "reg" "USDCx" "5"
    (Some 100) "tx" 1 10 false).
Definition sc_archive (cid status : string) : Item :=
  ItemTransfer (mkTransfer cid TransferKindOffer status "" "" "" "" "" None "" 1 20 true).
Definition sc_holding (cid amount : string) : Item :=
  ItemHolding (mkHoldingChange cid false 1 "alice" "reg" "USDCx" amount false).

Definition sc_batch1 : Batch Item :=
  mkBatch 5 "u1" [sc_event "e1" EventMint "100" None (Some "alice"%string);
                  sc_event "e2" EventTransfer "40.5" (Some "alice"%string) (Some "bob"%string);
                  sc_offer "o1"].
Definition sc_batch2 : Batch Item :=
  mkBatch 6 "u2" [sc_archive "o1" TransferStatusCanceled; sc_holding "h1" "7";
                  sc_event "e3" EventBurn "59.5" (Some "alice"%string) None].

Definition sc_empty : IndexerTables := mkIndexerTables ∅ ∅ ∅ None ∅ ∅.
Definition sc_faults : list (option string) := [None; Some "conn reset"%string; None; None; Some "timeout"%string].

(** The tables as lists, for inspection. *)
Definition sc_view (tb : IndexerTables) : list (BalanceKey * string) * list (string * Z) * option Z :=
  (map_to_list (balances tb), (fun t => (tk_TotalSupply t, tk_HolderCount t)) <$> (map_to_list (tokens tb)).*2,
   offset tb).

Definition sc_cip56 (k : InstrumentKey) : bool := bool_decide (k = ("admin"%string, "DEMO"%string)).

Definition sc_after1 : IndexerTables := tables (processBatch sc_batch1 (mkDB sc_empty [])).2.

Lemma processBatchWithRetry_persists_witness :
  sc_view sc_after1 = ([(("alice", ("admin", "DEMO")), "59.5"); (("bob", ("admin", "DEMO")), "40.5")],
                       [("100", 2)], Some 5)%string /\
  exists n d', processBatchWithRetry 6 processorRetryBaseDelay [] sc_batch1 (mkDB sc_empty sc_faults) =
      (Ok ((fun k => Z.min (5 * 2 ^ Z.of_nat k * Second) (60 * Second)) <$> seq 0 n), d') /\
    (n <= 5)%nat /\ tables d' = sc_after1 /\ offset (tables d') = Some 5.
Proof.
  split; [vm_compute; reflexivity|].
  apply (processBatchWithRetry_persists sc_batch1 6 (mkDB sc_empty sc_faults) sc_after1).
  - cbn. lia.
  - vm_compute. reflexivity.
Defined.

(** The empty index keeps the books. *)
Lemma sc_empty_inv : ledger_inv sc_cip56 no_slack sc_empty.
Proof. by split. Qed.

Lemma sc_batches_ok b : b ∈ [sc_batch1; sc_batch2] -> Forall (item_ok sc_cip56) (Items b).
Proof.
  intros [->|[->|Hb%not_elem_of_nil]%elem_of_cons]%elem_of_cons; [..|done];
    repeat constructor; intros; try discriminate; eauto.
Qed.

Lemma Run_ledger_inv_witness :
  sc_view (tables (Run 1 (fun _ => [sc_batch1; sc_batch2]) (mkDB sc_empty [])).2) =
    ([(("alice", ("admin", "DEMO")), "0.0"); (("alice", ("reg", "USDCx")), "7"); (("bob", ("admin", "DEMO")), "40.5")],
     [("40.5", 1)], Some 6)%string /\
  wp (Run 1 (fun _ => [sc_batch1; sc_batch2])) (fun _ d' => ledger_inv sc_cip56 no_slack (tables d'))
    (mkDB sc_empty []).
Proof.
  split; [vm_compute; reflexivity|].
  apply (Run_ledger_inv sc_cip56 1 (fun _ => [sc_batch1; sc_batch2]) (mkDB sc_empty [])).
  - intros _ b Hb. by apply sc_batches_ok.
  - apply sc_empty_inv.
Defined.

Definition sc_offers : Batch Item := mkBatch 8 "u3"
  [sc_offer "o2"; sc_event "e9" EventMint "1" None (Some "bob"%string); sc_archive "o2" TransferStatusRejected].
Definition sc_offers_db : IndexerDB := (processBatch sc_offers (mkDB sc_after1 [])).2.

Definition sc_later : IndexerDB := mkDB (tables sc_offers_db) sc_faults.

Lemma processBatch_replay_witness :
  wp (processBatch sc_offers) (fun r d3 =>
    match r with
    | Ok _ => tables d3 = put_offset (Some (b_Offset sc_offers)) (tables sc_later)
    | Err _ => tables d3 = tables sc_later
    end) sc_later.
Proof.
  apply (processBatch_replay sc_offers (mkDB sc_after1 []) sc_offers_db sc_later).
  - cbn. split_and!; [by right|done|done].
  - vm_compute. reflexivity.
  - unfold sc_later. cbn [tables]. generalize (tables sc_offers_db). intros tb. reflexivity.
Defined.

Definition sc_query : TransferQuery := mkTransferQuery TransferRoleAny TransferStatusExpired.

Definition sc_page : Pagination := mkPagination 1 20.
Definition sc_db1 : IndexerDB := mkDB sc_after1 [].

Lemma sc_statuses :
  map_Forall (fun _ row => td_Status row <> TransferStatusExpired) (transfers (tables sc_db1)).
Proof. apply (bool_decide_unpack _). vm_compute. exact I. Qed.

Lemma ListTransfers_correct_witness :
  (exists t, (ListTransfers 150 "alice" sc_query sc_page sc_db1).1 = Ok ([t], 1) /\
     tr_Status t = TransferStatusExpired) /\
  forall items total d', ListTransfers 150 "alice" sc_query sc_page sc_db1 = (Ok (items, total), d') ->
    tables d' = tables sc_db1 /\
    total = Z.of_nat (length (transfer_rows 150 "alice" sc_query (tables sc_db1))) /\
    forall t, t ∈ items -> tr_Status t = TransferStatusExpired.
Proof.
  split; [eexists; split; vm_compute; reflexivity|]. intros items total d' Hrun.
  destruct (wp_run _ _ _ _ _ (ListTransfers_correct 150 "alice" sc_query sc_page sc_db1
    ltac:(cbn; lia) ltac:(cbn; lia)
    sc_statuses) Hrun) as (Hd & Ht & _ & _ & Hitems).
  split; [exact Hd|]. split; [exact Ht|]. intros t Hin.
  destruct (Hitems t Hin) as (c & row & _ & _ & _ & Hs). apply Hs.
  unfold list_statuses. apply list_elem_of_In. cbn. auto.
Defined.

(** A transaction with a mint of DEMO and an unlocked holding. *)
Definition sc_tx : LedgerTransaction := decodeLedgerTransaction (mkApiTransaction "u4" 9 50 [
  Event_Created "e4" (Some (mkIdentifier "p" tokenTransferEventModule tokenTransferEventEntity))
    [("instrumentId"%string, Some (EncodeInstrumentId "admin" "DEMO"));
     ("amount"%string, Some (NumericValue "3.5")); ("fromParty"%string, Some NoneValue);
     ("toParty"%string, Some (OptionalValue (PartyValue "bob")))] true;
  Event_Created "h4" (Some (mkIdentifier "p" holdingModule holdingEntity))
    [("owner"%string, Some (PartyValue "alice")); ("registrar"%string, Some (PartyValue "reg"));
     ("instrument"%string, Some (Value_Record [("id"%string, Some (TextValue "USDCx"))]));
     ("amount"%string, Some (NumericValue "2")); ("lock"%string, Some NoneValue)] true;
  Event_Exercised "o4" (Some (mkIdentifier "p" transferOfferModule transferOfferEntity))
    choiceInstructionWithdraw true true]).
Definition sc_allowed : list InstrumentKey := [("admin", "DEMO")]%string.

Lemma stream_batch_ok_witness :
  let b := stream_batch (indexer_decode FilterModeWhitelist sc_allowed "p" "p") sc_tx in
  length (Items b) = 3%nat /\
  (b_Offset b = lt_Offset sc_tx /\ Forall (item_ok sc_cip56) (Items b) /\
   forall e, ItemEvent e ∈ Items b -> FilterModeWhitelist = FilterModeWhitelist ->
     (pe_InstrumentAdmin e, pe_InstrumentID e) ∈ sc_allowed).
Proof.
  intros b. split; [vm_compute; reflexivity|].
  apply (stream_batch_ok sc_cip56 FilterModeWhitelist sc_allowed "p" "p" sc_tx).
  repeat constructor; intros; try discriminate; vm_compute; eauto.
Defined.

(** ** Departures from the documentation *)

(** The total supply of a token can become negative.  When a sender's
    history lives on another participant its deduction is skipped, and burning
    what the receiver got then takes the recorded supply below zero, although
    Token.TotalSupply is documented as always non-negative. *)
Theorem supply_can_be_negative :
  let b := mkBatch 5 "u1" [sc_event "e1" EventTransfer "10" (Some "carol"%string) (Some "bob"%string);
                           sc_event "e2" EventBurn "10" (Some "bob"%string) None] in
  sc_view (tables (processBatch b (mkDB sc_empty [])).2) =
    ([(("bob", ("admin", "DEMO")), "0")], [("-10", 0)], Some 5)%string.
Proof. vm_compute. reflexivity. Qed.

(** A replayed holding is credited twice.  InsertHolding ignores the
    duplicate contract, but the balance delta is applied again. *)
Theorem replayed_holding_credits_twice :
  let b := mkBatch 5 "u1" [sc_holding "h1" "7"] in
  let d1 := (processBatch b (mkDB sc_empty [])).2 in
  let d2 := (processBatch b d1).2 in
  holdings (tables d2) = holdings (tables d1) /\
  map_to_list (balances (tables d1)) = [(("alice", ("reg", "USDCx")), "7")]%string /\
  map_to_list (balances (tables d2)) = [(("alice", ("reg", "USDCx")), "14")]%string.
Proof. vm_compute. auto. Qed.
