(* ===== verification/EvmStore.v ===== *)
(** * EVM store: pkg/ethrpc/types.go, pkg/ethrpc/store

    The mempool, the synthetic transactions, logs and chain state of the EVM
    facade, and each method of PGStore and of its pending block as the
    statements it executes.  A nil byte slice is the empty list. *)

From S2P Require Import Prelude AppErrors Effects GoStd EthClient.

(** ** Types (types.go) *)

Inductive MempoolStatus := MempoolPending | MempoolCompleted | MempoolFailed | MempoolMined.

#[global] Instance MempoolStatus_eq_dec : EqDecision MempoolStatus.
Proof. solve_decision. Defined.

Record MempoolEntry := mkMempoolEntry {
  me_ID : Z;
  me_TxHash : list Z;
  me_FromAddress : string;
  me_ContractAddress : string;
  me_RecipientAddress : string;
  me_Nonce : Z;
  me_Input : list Z;
  me_AmountData : list Z;
  me_Status : MempoolStatus;
  me_ErrorMessage : string;
}.

Record EvmTransaction := mkEvmTransaction {
  tx_TxHash : list Z;
  tx_FromAddress : string;
  tx_ToAddress : string;
  tx_Nonce : Z;
  tx_Input : list Z;
  tx_ValueWei : string;
  tx_Status : Z;
  tx_BlockNumber : Z;
  tx_BlockHash : list Z;
  tx_TxIndex : Z;
  tx_GasUsed : Z;
  tx_ErrorMessage : string;
}.

Record EvmLog := mkEvmLog {
  log_TxHash : list Z;
  log_LogIndex : Z;
  log_Address : list Z;
  log_Topics : list (list Z);
  log_Data : list Z;
  log_BlockNumber : Z;
  log_BlockHash : list Z;
  log_TxIndex : Z;
  log_Removed : bool;
  log_BlockTimestamp : Z;
}.

(** ** Rows (store/model.go) *)

(** A row of the mempool table; updated_at and created_at are left out. *)
Record MempoolEntryDao := mkMempoolEntryDao {
  md_ID : Z;
  md_TxHash : list Z;
  md_FromAddress : string;
  md_ContractAddress : string;
  md_RecipientAddress : string;
  md_Nonce : Z;
  md_Input : list Z;
  md_AmountData : list Z;
  md_Status : MempoolStatus;
  md_ErrorMessage : option string;
}.

Record EvmTransactionDao := mkEvmTransactionDao {
  txd_TxHash : list Z;
  txd_FromAddress : string;
  txd_ToAddress : string;
  txd_Nonce : Z;
  txd_Input : list Z;
  txd_ValueWei : string;
  txd_Status : Z;
  txd_BlockNumber : Z;
  txd_BlockHash : list Z;
  txd_TxIndex : Z;
  txd_GasUsed : Z;
  txd_ErrorMessage : option string;
}.

Record EvmLogDao := mkEvmLogDao {
  ld_TxHash : list Z;
  ld_LogIndex : Z;
  ld_Address : list Z;
  ld_Topic0 : option (list Z);
  ld_Topic1 : option (list Z);
  ld_Topic2 : option (list Z);
  ld_Topic3 : option (list Z);
  ld_Data : option (list Z);
  ld_BlockNumber : Z;
  ld_BlockHash : list Z;
  ld_TxIndex : Z;
  ld_Removed : bool;
  ld_BlockTimestamp : Z;
}.

Definition stringPtrOrNil (v : string) : option string := if bool_decide (v = ""%string) then None else Some v.
Definition bytesPtr (data : list Z) : option (list Z) := match data with [] => None | _ => Some data end.
Definition derefBytes (data : option (list Z)) : list Z := default [] data.
Definition topicAt (topics : list (list Z)) (idx : nat) : option (list Z) :=
  match topics !! idx with Some t => bytesPtr t | None => None end.

Definition toEvmTransactionDao (t : EvmTransaction) : EvmTransactionDao :=
  mkEvmTransactionDao (tx_TxHash t) (tx_FromAddress t) (tx_ToAddress t) (tx_Nonce t) (tx_Input t)
    (tx_ValueWei t) (tx_Status t) (tx_BlockNumber t) (tx_BlockHash t) (tx_TxIndex t) (tx_GasUsed t)
    (stringPtrOrNil (tx_ErrorMessage t)).

Definition fromEvmTransactionDao (d : EvmTransactionDao) : EvmTransaction :=
  mkEvmTransaction (txd_TxHash d) (txd_FromAddress d) (txd_ToAddress d) (txd_Nonce d) (txd_Input d)
    (txd_ValueWei d) (txd_Status d) (txd_BlockNumber d) (txd_BlockHash d) (txd_TxIndex d) (txd_GasUsed d)
    (default ""%string (txd_ErrorMessage d)).

Definition toEvmLogDao (l : EvmLog) : EvmLogDao :=
  mkEvmLogDao (log_TxHash l) (log_LogIndex l) (log_Address l)
    (topicAt (log_Topics l) 0) (topicAt (log_Topics l) 1) (topicAt (log_Topics l) 2) (topicAt (log_Topics l) 3)
    (bytesPtr (log_Data l)) (log_BlockNumber l) (log_BlockHash l) (log_TxIndex l) (log_Removed l)
    (log_BlockTimestamp l).

(** A topic column that is not null and not empty. *)
Definition topic_column (t : option (list Z)) : list (list Z) :=
  match t with Some ((_ :: _) as b) => [b] | _ => [] end.

Definition fromEvmLogDao (d : EvmLogDao) : EvmLog :=
  mkEvmLog (ld_TxHash d) (ld_LogIndex d) (ld_Address d)
    (topic_column (ld_Topic0 d) ++ topic_column (ld_Topic1 d) ++ topic_column (ld_Topic2 d) ++ topic_column (ld_Topic3 d))
    (derefBytes (ld_Data d)) (ld_BlockNumber d) (ld_BlockHash d) (ld_TxIndex d) (ld_Removed d)
    (ld_BlockTimestamp d).

(** ** The tables *)

(** mempool by its unique tx_hash, with the id sequence; evm_transactions by
    tx_hash; evm_logs by (tx_hash, log_index); the latest_block of the evm_state
    singleton, which a migration creates. *)
Record EvmTables := mkEvmTables {
  mempool : gmap (list Z) MempoolEntryDao;
  next_id : Z;
  evm_transactions : gmap (list Z) EvmTransactionDao;
  evm_logs : gmap (list Z * Z) EvmLogDao;
  latest_block : Z;
}.

Abbreviation EvmDB := (DB EvmTables).

Definition put_mempool m (t : EvmTables) := mkEvmTables m (next_id t) (evm_transactions t) (evm_logs t) (latest_block t).
Definition put_transactions m (t : EvmTables) := mkEvmTables (mempool t) (next_id t) m (evm_logs t) (latest_block t).
Definition put_logs m (t : EvmTables) := mkEvmTables (mempool t) (next_id t) (evm_transactions t) m (latest_block t).
Definition put_latest n (t : EvmTables) := mkEvmTables (mempool t) (next_id t) (evm_transactions t) (evm_logs t) n.

Definition set_md_status (s : MempoolStatus) (d : MempoolEntryDao) : MempoolEntryDao :=
  mkMempoolEntryDao (md_ID d) (md_TxHash d) (md_FromAddress d) (md_ContractAddress d) (md_RecipientAddress d)
    (md_Nonce d) (md_Input d) (md_AmountData d) s (md_ErrorMessage d).
Definition set_md_failed (msg : string) (d : MempoolEntryDao) : MempoolEntryDao :=
  mkMempoolEntryDao (md_ID d) (md_TxHash d) (md_FromAddress d) (md_ContractAddress d) (md_RecipientAddress d)
    (md_Nonce d) (md_Input d) (md_AmountData d) MempoolFailed (Some msg).

(** The entry both readers of the mempool build from a row. *)
Definition entry_of (d : MempoolEntryDao) (s : MempoolStatus) : MempoolEntry :=
  mkMempoolEntry (md_ID d) (md_TxHash d) (md_FromAddress d) (md_ContractAddress d) (md_RecipientAddress d)
    (md_Nonce d) (md_Input d) (md_AmountData d) s (default ""%string (md_ErrorMessage d)).

(** Rows of the mempool that satisfy a condition, ORDER BY id ASC. *)
Definition id_before (a b : MempoolEntryDao) : Prop := md_ID a <= md_ID b.
#[global] Instance id_before_dec a b : Decision (id_before a b).
Proof. unfold id_before. apply _. Defined.

Definition mempool_rows (P : MempoolEntryDao -> bool) (m : gmap (list Z) MempoolEntryDao) : list MempoolEntryDao :=
  merge_sort id_before (List.filter P (map_to_list m).*2).

Lemma elem_of_mempool_rows P m d : d ∈ mempool_rows P m <-> P d = true /\ exists h, m !! h = Some d.
Proof.
  unfold mempool_rows. rewrite (merge_sort_Permutation id_before).
  rewrite list_elem_of_In, filter_In, <- list_elem_of_In, list_elem_of_fmap. split.
  - intros [((h & x) & -> & Hin) HP]. split; [done|]. exists h. by apply elem_of_map_to_list in Hin.
  - intros [HP [h Hh]]. split; [|done]. exists (h, d). split; [done|]. by apply elem_of_map_to_list.
Qed.

(** The rows are keyed by their hash. *)
Definition keyed (m : gmap (list Z) MempoolEntryDao) : Prop := map_Forall (fun h d => md_TxHash d = h) m.

Lemma mempool_rows_NoDup P m : keyed m -> NoDup (md_TxHash <$> mempool_rows P m).
Proof.
  intros Hk. unfold mempool_rows. rewrite (merge_sort_Permutation id_before).
  assert (forall l : list (list Z * MempoolEntryDao), (forall h d, (h, d) ∈ l -> md_TxHash d = h) -> NoDup l.*1 ->
    NoDup (md_TxHash <$> List.filter P l.*2)) as Hl.
  { induction l as [|[h d] l IH]; intros Hkey Hnd; [apply NoDup_nil_2|]. rewrite !fmap_cons in *. cbn in *.
    apply NoDup_cons in Hnd as [Hni Hnd].
    assert (NoDup (md_TxHash <$> List.filter P l.*2)) as HIH.
    { apply IH; [|done]. intros h' d' Hin. apply Hkey. by constructor. }
    destruct (P d); [|done]. rewrite fmap_cons. constructor; [|done].
    intros (d' & Heq & Hin)%list_elem_of_fmap. apply Hni.
    apply list_elem_of_In, filter_In in Hin as [Hin _]. apply list_elem_of_In, list_elem_of_fmap in Hin as ([h' d''] & -> & Hin).
    apply list_elem_of_fmap. exists (h', d''). split; [|done]. cbn in *.
    rewrite <- (Hkey h d), <- (Hkey h' d''); [done|by constructor|constructor]. }
  apply Hl; [|apply NoDup_fst_map_to_list].
  intros h d Hin. apply elem_of_map_to_list in Hin. by apply (Hk h d).
Qed.

(** ** PGStore: the mempool *)

(** INSERT ... ON CONFLICT (tx_hash) DO NOTHING; the sequence advances either way. *)
Definition InsertMempoolEntry (e : MempoolEntry) : M EvmDB unit :=
  wrapping "insert mempool entry: " (exec (fun tb =>
    let dao := mkMempoolEntryDao (next_id tb) (me_TxHash e) (me_FromAddress e) (me_ContractAddress e)
                 (me_RecipientAddress e) (me_Nonce e) (me_Input e) (me_AmountData e) MempoolPending None in
    (tt, mkEvmTables
           (match mempool tb !! me_TxHash e with
            | Some _ => mempool tb
            | None => <[me_TxHash e := dao]> (mempool tb)
            end) (next_id tb + 1) (evm_transactions tb) (evm_logs tb) (latest_block tb)))).

(** UPDATE ... WHERE tx_hash = ? AND status = 'pending' *)
Definition update_pending (f : MempoolEntryDao -> MempoolEntryDao) (hash : list Z) (tb : EvmTables) : EvmTables :=
  put_mempool (alter (fun d => if bool_decide (md_Status d = MempoolPending) then f d else d) hash (mempool tb)) tb.

Definition CompleteMempoolEntry (hash : list Z) : M EvmDB unit :=
  wrapping "complete mempool entry: " (exec (fun tb =>
    (tt, update_pending (set_md_status MempoolCompleted) hash tb))).

Definition FailMempoolEntry (hash : list Z) (msg : string) : M EvmDB unit :=
  wrapping "fail mempool entry: " (exec (fun tb => (tt, update_pending (set_md_failed msg) hash tb))).

Definition status_text (s : MempoolStatus) : string :=
  match s with
  | MempoolPending => "pending" | MempoolCompleted => "completed"
  | MempoolFailed => "failed" | MempoolMined => "mined"
  end.

Definition GetMempoolEntriesByStatus (s : MempoolStatus) (limit : Z) : M EvmDB (list MempoolEntry) :=
  wrapping ("get mempool entries by status " +:+ quoted (status_text s) +:+ ": ") (query (fun tb =>
    let rows := mempool_rows (fun d => bool_decide (md_Status d = s)) (mempool tb) in
    (fun d => entry_of d s) <$> sql_limit limit rows)).

(** ** PGStore: the pending block *)

Section Block.
Context `{!GoEthereum}.

(** binary.BigEndian.PutUint64 *)
Definition put_uint64 (n : Z) : list Z :=
  (fun k => Z.land (Z.shiftr n (8 * k)) 255) <$> [7; 6; 5; 4; 3; 2; 1; 0].

(** ethereum.ComputeBlockHash *)
Definition ComputeBlockHash (chainID blockNumber : Z) : list Z := Sum256 (put_uint64 chainID ++ put_uint64 blockNumber).

(** BEGIN and SELECT ... FOR UPDATE: the number and hash of the next block. *)
Definition NewBlock (chainID : Z) : M EvmDB (Z * list Z) :=
  _ ← wrapping "begin tx: " (query (fun _ => tt));
  latest ← wrapping "lock evm_state: " (query latest_block);
  let nextBlock := uint64 (latest + 1) in
  mret (nextBlock, ComputeBlockHash chainID nextBlock).
End Block.

Definition claimable (d : MempoolEntryDao) : bool :=
  bool_decide (md_Status d = MempoolCompleted) || bool_decide (md_Status d = MempoolFailed).

(** The rows a block may claim: terminal ones, oldest first, up to the limit. *)
Definition claim_rows (maxTxs : Z) (tb : EvmTables) : list MempoolEntryDao :=
  sql_limit maxTxs (mempool_rows claimable (mempool tb)).

(** UPDATE ... SET status = 'mined' WHERE id IN ids *)
Definition mark_mined (ids : list Z) (m : gmap (list Z) MempoolEntryDao) : gmap (list Z) MempoolEntryDao :=
  (fun d => if bool_decide (md_ID d ∈ ids) then set_md_status MempoolMined d else d) <$> m.

Definition ClaimMempoolEntries (maxTxs : Z) : M EvmDB (list MempoolEntry) :=
  daos ← wrapping "select claimable mempool entries: " (query (claim_rows maxTxs));
  match daos with
  | [] => mret []
  | _ =>
      _ ← wrapping "mark mempool entries mined: " (exec (fun tb =>
            (tt, put_mempool (mark_mined (md_ID <$> daos) (mempool tb)) tb)));
      mret ((fun d => entry_of d (md_Status d)) <$> daos)
  end.

Definition AddEvmTransaction (t : EvmTransaction) : M EvmDB unit :=
  wrapping "save evm transaction: " (exec (fun tb =>
    match evm_transactions tb !! tx_TxHash t with
    | Some _ => (tt, tb)
    | None => (tt, put_transactions (<[tx_TxHash t := toEvmTransactionDao t]> (evm_transactions tb)) tb)
    end)).

Definition AddEvmLog (l : EvmLog) : M EvmDB unit :=
  wrapping "save evm log: " (exec (fun tb =>
    let key := (log_TxHash l, log_LogIndex l) in
    match evm_logs tb !! key with
    | Some _ => (tt, tb)
    | None => (tt, put_logs (<[key := toEvmLogDao l]> (evm_logs tb)) tb)
    end)).

(** Finalize: the counter, then COMMIT. *)
Definition Finalize (blockNumber : Z) : M EvmDB unit :=
  _ ← wrapping "update evm_state block number: " (exec (fun tb => (tt, put_latest blockNumber tb)));
  query (fun _ => tt).

(** ** PGStore: reads *)

Definition GetLatestEvmBlockNumber : M EvmDB Z :=
  wrapping "get latest block number: " (query latest_block).

Definition GetEvmTransaction (hash : list Z) : M EvmDB (option EvmTransaction) :=
  wrapping "get evm transaction: " (query (fun tb => fromEvmTransactionDao <$> evm_transactions tb !! hash)).

(** SELECT block_number WHERE block_hash = ? LIMIT 1; 0 when no row matches. *)
Definition GetBlockNumberByHash (hash : list Z) : M EvmDB Z :=
  wrapping "get block number by hash: " (query (fun tb =>
    match List.filter (fun d => bool_decide (txd_BlockHash d = hash)) (map_to_list (evm_transactions tb)).*2 with
    | d :: _ => txd_BlockNumber d
    | [] => 0
    end)).

(** SELECT COALESCE(MAX(nonce) + 1, 0) WHERE from_address = ? *)
Definition GetEvmTransactionCount (from : string) : M EvmDB Z :=
  wrapping ("get transaction count for " +:+ from +:+ ": ") (query (fun tb =>
    map_fold (fun _ d n => if bool_decide (txd_FromAddress d = from) then Z.max (txd_Nonce d + 1) n else n) 0
      (evm_transactions tb))).

Definition log_rows (P : EvmLogDao -> bool) (R : EvmLogDao -> EvmLogDao -> Prop) `{!forall a b, Decision (R a b)}
    (tb : EvmTables) : list EvmLogDao := merge_sort R (List.filter P (map_to_list (evm_logs tb)).*2).

Definition log_index_before (a b : EvmLogDao) : Prop := ld_LogIndex a <= ld_LogIndex b.
#[global] Instance log_index_before_dec a b : Decision (log_index_before a b).
Proof. unfold log_index_before. apply _. Defined.

Definition GetEvmLogsByTxHash (hash : list Z) : M EvmDB (list EvmLog) :=
  wrapping "get evm logs by tx hash: " (query (fun tb =>
    fromEvmLogDao <$> log_rows (fun d => bool_decide (ld_TxHash d = hash)) log_index_before tb)).

Definition evmLogsQueryLimit : nat := Z.to_nat 10000.

(** ORDER BY block_number, tx_index, log_index *)
Definition log_position_before (a b : EvmLogDao) : Prop :=
  ld_BlockNumber a < ld_BlockNumber b \/
  (ld_BlockNumber a = ld_BlockNumber b /\
   (ld_TxIndex a < ld_TxIndex b \/ (ld_TxIndex a = ld_TxIndex b /\ ld_LogIndex a <= ld_LogIndex b))).
#[global] Instance log_position_before_dec a b : Decision (log_position_before a b).
Proof. unfold log_position_before. apply _. Defined.

Definition log_matches (address topic0 : option (list Z)) (fromBlock toBlock : Z) (d : EvmLogDao) : bool :=
  (fromBlock <=? ld_BlockNumber d) && (ld_BlockNumber d <=? toBlock) &&
  match address with Some a => bool_decide (ld_Address d = a) | None => true end &&
  match topic0 with Some t => bool_decide (ld_Topic0 d = Some t) | None => true end.

Definition GetEvmLogs (address topic0 : option (list Z)) (fromBlock toBlock : Z) : M EvmDB (list EvmLog) :=
  wrapping "get evm logs: " (query (fun tb =>
    fromEvmLogDao <$> take evmLogsQueryLimit
      (log_rows (log_matches address topic0 fromBlock toBlock) log_position_before tb))).

(** ** Row conversions *)

Lemma topic_column_ptr t : t <> [] -> topic_column (bytesPtr t) = [t].
Proof. by destruct t. Qed.

(** A transaction or log read back from its row is the one that was
    written: error messages, the up to four non-empty topics and the data
    survive the nullable columns. *)
Theorem evm_dao_roundtrip t l :
  (length (log_Topics l) <= 4)%nat -> Forall (fun tp => tp <> []) (log_Topics l) ->
  fromEvmTransactionDao (toEvmTransactionDao t) = t /\ fromEvmLogDao (toEvmLogDao l) = l.
Proof.
  intros Hlen Hne. split.
  - destruct t as [? ? ? ? ? ? ? ? ? ? ? msg]. unfold fromEvmTransactionDao, toEvmTransactionDao, stringPtrOrNil. cbn.
    f_equal. by case_bool_decide.
  - destruct l as [? ? ? topics data ? ? ? ? ?]. unfold fromEvmLogDao, toEvmLogDao. cbn in *. f_equal.
    + destruct topics as [|t0 [|t1 [|t2 [|t3 [|t4 ts]]]]]; cbn in Hlen; try lia;
        rewrite ?Forall_cons in Hne; unfold topicAt; cbn; rewrite ?topic_column_ptr; naive_solver.
    + by destruct data.
Qed.

Lemma evm_dao_roundtrip_witness :
  let t := mkEvmTransaction [1] "0xa" "0xb" 3 [] "0" 0 7 [9] 0 21000 "insufficient balance" in
  let l := mkEvmLog [1] 0 [2] [[3]; [4]; [5]] [6] 7 [9] 0 false 100 in
  fromEvmTransactionDao (toEvmTransactionDao t) = t /\ fromEvmLogDao (toEvmLogDao l) = l.
Proof. intros t l. apply (evm_dao_roundtrip t l); [cbn; lia|by repeat constructor]. Defined.
