(* ===== verification/EvmMiner.v ===== *)
(** * EVM miner: pkg/ethrpc/miner/miner.go

    One mining cycle inside one database transaction, and what a mined block
    contains. *)

From S2P Require Import Prelude AppErrors Effects GoStd EthClient EvmStore.

(** The miner's settings. *)
Record MinerConfig := mkMinerConfig { m_chainID : Z; m_gasLimit : Z; m_maxTxsPerBlock : Z }.

Definition txStatus (succeeded : bool) : Z := if succeeded then 1 else 0.

Definition evmWordSize : Z := 32.

(** The bytes of "Transfer(address,address,uint256)". *)
Definition transferEventSignature : list Z :=
  (fun c => Z.of_nat (Ascii.nat_of_ascii c)) <$> String.list_ascii_of_string "Transfer(address,address,uint256)".

(** A database transaction that [body] commits with [true] and that is rolled
    back by the deferred Abort otherwise. *)
Definition in_block_tx {T} (body : M (DB T) bool) : M (DB T) bool := fun d =>
  match body d with
  | (Ok true, d') => (Ok true, d')
  | (r, d') => (r, set_tables (tables d) d')
  end.

Section Miner.
Context `{!GoEthereum}.
Variable cfg : MinerConfig.

Definition transferEventTopic : Hash := Keccak256 transferEventSignature.

(** buildTransferLog, for a block given by its number and hash. *)
Definition buildTransferLog (e : MempoolEntry) (number : Z) (hash : list Z) (txIndex logIndex ts : Z) : EvmLog :=
  let fromTopic := BytesToHash (LeftPadBytes (HexToAddress (me_FromAddress e)) evmWordSize) in
  let toTopic := BytesToHash (LeftPadBytes (HexToAddress (me_RecipientAddress e)) evmWordSize) in
  mkEvmLog (me_TxHash e) logIndex (HexToAddress (me_ContractAddress e))
    [transferEventTopic; fromTopic; toTopic] (LeftPadBytes (me_AmountData e) evmWordSize)
    number hash txIndex false ts.

Definition succeeded (e : MempoolEntry) : bool := bool_decide (me_Status e = MempoolCompleted).

(** The transaction mine builds for an entry. *)
Definition evmTx (e : MempoolEntry) (number : Z) (hash : list Z) (txIndex : Z) : EvmTransaction :=
  mkEvmTransaction (me_TxHash e) (me_FromAddress e) (me_ContractAddress e) (me_Nonce e) (me_Input e) "0"
    (txStatus (succeeded e)) number hash txIndex (m_gasLimit cfg)
    (if succeeded e then ""%string else me_ErrorMessage e).

(** The loop over the claimed entries. *)
Fixpoint add_entries (number : Z) (hash : list Z) (ts txIndex logIndex : Z) (es : list MempoolEntry)
    : M EvmDB unit :=
  match es with
  | [] => mret tt
  | e :: es =>
      _ ← AddEvmTransaction (evmTx e number hash txIndex);
      if negb (succeeded e) then add_entries number hash ts (txIndex + 1) logIndex es
      else
        _ ← AddEvmLog (buildTransferLog e number hash txIndex logIndex ts);
        add_entries number hash ts (txIndex + 1) (logIndex + 1) es
  end.

(** mine up to Finalize; [false] when there was nothing to mine. *)
Definition mine_body (now : Z) : M EvmDB bool :=
  '(number, hash) ← NewBlock (m_chainID cfg);
  entries ← ClaimMempoolEntries (m_maxTxsPerBlock cfg);
  match entries with
  | [] => mret false
  | _ =>
      _ ← add_entries number hash (uint64 now) 0 0 entries;
      _ ← Finalize number;
      mret true
  end.

(** mine *)
Definition mine (now : Z) : M EvmDB unit :=
  _ ← in_block_tx (mine_body now); mret tt.

(** ** The contents of a block *)

(** The loop's effect on the two tables, as functions. *)
Fixpoint block_txs (number : Z) (hash : list Z) (txIndex : Z) (es : list MempoolEntry)
    (m : gmap (list Z) EvmTransactionDao) : gmap (list Z) EvmTransactionDao :=
  match es with
  | [] => m
  | e :: es => block_txs number hash (txIndex + 1) es
      (match m !! me_TxHash e with
       | Some _ => m
       | None => <[me_TxHash e := toEvmTransactionDao (evmTx e number hash txIndex)]> m
       end)
  end.

Fixpoint block_logs (number : Z) (hash : list Z) (ts txIndex logIndex : Z) (es : list MempoolEntry)
    (m : gmap (list Z * Z) EvmLogDao) : gmap (list Z * Z) EvmLogDao :=
  match es with
  | [] => m
  | e :: es =>
      if succeeded e then
        block_logs number hash ts (txIndex + 1) (logIndex + 1) es
          (match m !! (me_TxHash e, logIndex) with
           | Some _ => m
           | None => <[(me_TxHash e, logIndex) :=
                        toEvmLogDao (buildTransferLog e number hash txIndex logIndex ts)]> m
           end)
      else block_logs number hash ts (txIndex + 1) logIndex es m
  end.

Lemma add_entries_spec number hash ts i li es d :
  wp (add_entries number hash ts i li es) (fun r d' => r = Ok tt ->
    tables d' = mkEvmTables (mempool (tables d)) (next_id (tables d))
      (block_txs number hash i es (evm_transactions (tables d)))
      (block_logs number hash ts i li es (evm_logs (tables d))) (latest_block (tables d))) d.
Proof.
  revert i li d. induction es as [|e es IH]; intros i li d; cbn [add_entries].
  { apply wp_ret. intros _. by destruct (tables d). }
  apply wp_bind. unfold AddEvmTransaction. apply wp_wrapping, wp_exec; [intros fs|done]. cbn [wrap].
  set (tb1 := snd _). assert (tb1 = put_transactions (block_txs number hash i [e] (evm_transactions (tables d))) (tables d)) as Htb1.
  { subst tb1. cbn. destruct (evm_transactions (tables d) !! _); cbn; [by destruct (tables d)|done]. }
  destruct (succeeded e) eqn:Hs; cbn [negb].
  - apply wp_bind. unfold AddEvmLog. apply wp_wrapping, wp_exec; [intros fs1|done]. cbn [wrap tables].
    eapply wp_mono; [apply IH|]. cbn [tables]. intros r d' Hrest Hr. rewrite (Hrest Hr), Htb1. cbn. rewrite Hs.
    destruct (evm_logs (tables d) !! _); done.
  - eapply wp_mono; [apply IH|]. cbn [tables]. intros r d' Hrest Hr. rewrite (Hrest Hr), Htb1. cbn. by rewrite Hs.
Qed.

Lemma block_txs_other number hash i es m h :
  h ∉ me_TxHash <$> es -> block_txs number hash i es m !! h = m !! h.
Proof.
  revert i m. induction es as [|e es IH]; intros i m Hh; [done|]. rewrite fmap_cons in Hh. cbn [block_txs].
  rewrite IH by set_solver. destruct (m !! me_TxHash e); [done|]. rewrite lookup_insert_ne; set_solver.
Qed.

(** Every entry of the block has its transaction, at its position. *)
Lemma block_txs_at number hash i es m k e :
  NoDup (me_TxHash <$> es) -> (forall e, e ∈ es -> m !! me_TxHash e = None) -> es !! k = Some e ->
  block_txs number hash i es m !! me_TxHash e = Some (toEvmTransactionDao (evmTx e number hash (i + Z.of_nat k))).
Proof.
  revert i m k. induction es as [|x es IH]; intros i m k Hnd Hm Hk; [done|].
  rewrite fmap_cons in Hnd. apply NoDup_cons in Hnd as [Hni Hnd]. cbn [block_txs].
  rewrite (Hm x) by constructor. destruct k as [|k]; cbn in Hk.
  - injection Hk as ->. rewrite block_txs_other by done. rewrite lookup_insert_eq. do 3 f_equal. lia.
  - rewrite (IH (i + 1) _ k); [do 3 f_equal; lia|done| |done].
    intros y Hy. rewrite lookup_insert_ne; [apply Hm; by constructor|].
    intros Heq. apply Hni. rewrite Heq. by apply list_elem_of_fmap_2.
Qed.

Lemma block_logs_other number hash ts i li es m h j :
  h ∉ me_TxHash <$> es -> block_logs number hash ts i li es m !! (h, j) = m !! (h, j).
Proof.
  revert i li m. induction es as [|e es IH]; intros i li m Hh; [done|]. rewrite fmap_cons in Hh. cbn [block_logs].
  destruct (succeeded e); rewrite IH by set_solver; [|done].
  destruct (m !! (me_TxHash e, li)); [done|]. rewrite lookup_insert_ne; [done|]. intros [= Heq _]. set_solver.
Qed.

Lemma block_logs_keyed number hash ts i li es m :
  map_Forall (fun k l => (ld_TxHash l, ld_LogIndex l) = k) m ->
  map_Forall (fun k l => (ld_TxHash l, ld_LogIndex l) = k) (block_logs number hash ts i li es m).
Proof.
  revert i li m. induction es as [|e es IH]; intros i li m Hm; [done|]. cbn [block_logs].
  destruct (succeeded e); apply IH; [|done]. destruct (m !! (me_TxHash e, li)); [done|].
  by apply map_Forall_insert_2.
Qed.

(** How many of the first [k] entries succeeded: the log index of the next. *)
Definition logs_before (es : list MempoolEntry) (k : nat) : Z :=
  Z.of_nat (length (List.filter succeeded (take k es))).

(** A succeeded entry has exactly one log, contiguously indexed; a failed one none. *)
Lemma block_logs_at number hash ts i li es m k e j :
  NoDup (me_TxHash <$> es) -> (forall e j, e ∈ es -> m !! (me_TxHash e, j) = None) -> es !! k = Some e ->
  block_logs number hash ts i li es m !! (me_TxHash e, j) =
    if succeeded e && (j =? li + logs_before es k)
    then Some (toEvmLogDao (buildTransferLog e number hash (i + Z.of_nat k) (li + logs_before es k) ts)) else None.
Proof.
  revert i li m k. induction es as [|x es IH]; intros i li m k Hnd Hm Hk; [done|].
  rewrite fmap_cons in Hnd. apply NoDup_cons in Hnd as [Hni Hnd]. cbn [block_logs].
  assert (forall y, y ∈ es -> me_TxHash x <> me_TxHash y) as Hne.
  { intros y Hy Heq. apply Hni. rewrite Heq. by apply list_elem_of_fmap_2. }
  destruct k as [|k]; cbn in Hk.
  - injection Hk as ->. unfold logs_before. cbn [take List.filter length Z.of_nat]. rewrite !Z.add_0_r.
    destruct (succeeded e); rewrite block_logs_other by done; cbn [andb]; [|apply Hm; constructor].
    rewrite Hm by constructor. destruct (Z.eqb_spec j li) as [->|Hj]; [by rewrite lookup_insert_eq|].
    rewrite lookup_insert_ne by congruence. apply Hm. constructor.
  - assert (e ∈ es) as He by by eapply list_elem_of_lookup_2.
    unfold logs_before. cbn [take List.filter]. destruct (succeeded x).
    + rewrite (IH (i + 1) (li + 1) _ k); [|done| |done].
      * unfold logs_before. cbn [length]. rewrite !Nat2Z.inj_succ.
        replace (li + 1 + Z.of_nat (length (List.filter succeeded (take k es))))
          with (li + Z.succ (Z.of_nat (length (List.filter succeeded (take k es))))) by lia.
        by replace (i + 1 + Z.of_nat k) with (i + Z.succ (Z.of_nat k)) by lia.
      * intros y j' Hy. destruct (m !! (me_TxHash x, li)); [by apply Hm; constructor|].
        rewrite lookup_insert_ne; [by apply Hm; constructor|]. intros [= Heq _]. by eapply Hne.
    + rewrite (IH (i + 1) li m k); [|done|intros y j' Hy; by apply Hm; constructor|done].
      unfold logs_before. rewrite Nat2Z.inj_succ.
      by replace (i + 1 + Z.of_nat k) with (i + Z.succ (Z.of_nat k)) by lia.
Qed.
End Miner.

(** ** The invariant of the EVM tables *)

(** Rows of the mempool are keyed by their hash and have distinct ids; the
    transactions are those of the mined entries, in blocks that exist; logs
    belong to transactions. *)
Record evm_inv (tb : EvmTables) : Prop := {
  mp_key : forall h d, mempool tb !! h = Some d -> md_TxHash d = h /\ md_ID d < next_id tb;
  mp_id : forall h1 h2 d1 d2, mempool tb !! h1 = Some d1 -> mempool tb !! h2 = Some d2 ->
    md_ID d1 = md_ID d2 -> h1 = h2;
  tx_mined : forall h t, evm_transactions tb !! h = Some t ->
    1 <= txd_BlockNumber t <= latest_block tb /\
    exists d, mempool tb !! h = Some d /\ md_Status d = MempoolMined;
  mined_tx : forall h d, mempool tb !! h = Some d -> md_Status d = MempoolMined ->
    is_Some (evm_transactions tb !! h);
  log_tx : forall h j l, evm_logs tb !! (h, j) = Some l -> is_Some (evm_transactions tb !! h);
  log_key : map_Forall (fun k l => (ld_TxHash l, ld_LogIndex l) = k) (evm_logs tb);
  latest_nonneg : 0 <= latest_block tb;
}.

Lemma elem_of_claim n tb d : d ∈ claim_rows n tb -> claimable d = true /\ exists h, mempool tb !! h = Some d.
Proof.
  unfold claim_rows. intros Hd%elem_of_sql_limit. by apply elem_of_mempool_rows in Hd.
Qed.

Lemma claim_hashes_NoDup n tb : evm_inv tb -> NoDup (md_TxHash <$> claim_rows n tb).
Proof.
  intros Hinv. unfold claim_rows. rewrite fmap_sql_limit.
  eapply sublist_NoDup; [|apply sql_limit_sublist].
  apply mempool_rows_NoDup. intros h d Hd. by apply (mp_key _ Hinv).
Qed.

(** Marking the claimed ids changes the claimed rows and no other. *)
Lemma mark_mined_lookup n tb h d :
  evm_inv tb -> mempool tb !! h = Some d ->
  mark_mined (md_ID <$> claim_rows n tb) (mempool tb) !! h =
    Some (if bool_decide (h ∈ md_TxHash <$> claim_rows n tb) then set_md_status MempoolMined d else d).
Proof.
  intros Hinv Hh. unfold mark_mined. rewrite lookup_fmap, Hh. cbn. f_equal.
  rewrite (bool_decide_ext (md_ID d ∈ md_ID <$> claim_rows n tb) (h ∈ md_TxHash <$> claim_rows n tb)); [done|].
  rewrite !list_elem_of_fmap. split; intros (x & Hx & Hin); exists x; (split; [|done]).
  - destruct (elem_of_claim _ _ _ Hin) as [_ [h' Hh']]. rewrite (mp_id _ Hinv h h' d x Hh Hh' Hx).
    by apply (mp_key _ Hinv) in Hh' as [-> _].
  - destruct (elem_of_claim _ _ _ Hin) as [_ [h' Hh']]. pose proof (mp_key _ Hinv _ _ Hh') as [Hk _].
    rewrite <- Hx in Hk. subst h'. congruence.
Qed.

(** Claimed rows have no transaction yet. *)
Lemma claim_fresh n tb d :
  evm_inv tb -> d ∈ claim_rows n tb ->
  mempool tb !! md_TxHash d = Some d /\ evm_transactions tb !! md_TxHash d = None /\
  forall j, evm_logs tb !! (md_TxHash d, j) = None.
Proof.
  intros Hinv Hd. destruct (elem_of_claim _ _ _ Hd) as [Hc [h Hh]].
  pose proof (mp_key _ Hinv _ _ Hh) as [-> _].
  assert (evm_transactions tb !! h = None) as Hnone.
  { destruct (evm_transactions tb !! h) as [t|] eqn:Ht; [|done].
    destruct (tx_mined _ Hinv h t Ht) as (_ & d' & Hd' & Hs). rewrite Hh in Hd'. injection Hd' as <-.
    unfold claimable in Hc. by rewrite Hs in Hc. }
  split; [done|]. split; [done|]. intros j. destruct (evm_logs tb !! (h, j)) as [l|] eqn:Hl; [|done].
  destruct (log_tx _ Hinv h j l Hl). congruence.
Qed.

Definition claimed_entry (d : MempoolEntryDao) : MempoolEntry := entry_of d (md_Status d).

Section Mining.
Context `{!GoEthereum}.
Variable cfg : MinerConfig.

(** The tables after a block of the claimed rows. *)
Definition mined_tables (now : Z) (tb : EvmTables) : EvmTables :=
  let rows := claim_rows (m_maxTxsPerBlock cfg) tb in
  let number := uint64 (latest_block tb + 1) in
  let hash := ComputeBlockHash (m_chainID cfg) number in
  mkEvmTables (mark_mined (md_ID <$> rows) (mempool tb)) (next_id tb)
    (block_txs cfg number hash 0 (claimed_entry <$> rows) (evm_transactions tb))
    (block_logs number hash (uint64 now) 0 0 (claimed_entry <$> rows) (evm_logs tb)) number.

(** A cycle does nothing, or mines exactly that block. *)
Lemma mine_outcome now d :
  wp (mine cfg now) (fun r d' =>
    match r with
    | Err _ => tables d' = tables d
    | Ok _ => tables d' =
        if decide (claim_rows (m_maxTxsPerBlock cfg) (tables d) = []) then tables d
        else mined_tables now (tables d)
    end) d.
Proof.
  unfold mine. apply wp_bind.
  apply (wp_mono _ (fun r d' => match r with
    | Ok true => claim_rows (m_maxTxsPerBlock cfg) (tables d) <> [] /\ tables d' = mined_tables now (tables d)
    | Ok false => claim_rows (m_maxTxsPerBlock cfg) (tables d) = [] /\ tables d' = tables d
    | Err _ => tables d' = tables d end)).
  2:{ intros [[]|e] d'; [| |done]; intros [Hc Ht]; apply wp_ret; by case_decide. }
  assert (wp (mine_body cfg now) (fun r d' => match r with
    | Ok true => claim_rows (m_maxTxsPerBlock cfg) (tables d) <> [] /\ tables d' = mined_tables now (tables d)
    | Ok false => claim_rows (m_maxTxsPerBlock cfg) (tables d) = []
    | Err _ => True end) d) as Hbody.
  - unfold mine_body, NewBlock, ClaimMempoolEntries.
    apply wp_bind, wp_bind, wp_wrapping, wp_query; [intros fs|done]. cbn [wrap].
    apply wp_bind, wp_wrapping, wp_query; [intros fs1|done]. cbn [wrap tables]. apply wp_ret.
    apply wp_bind, wp_bind, wp_wrapping, wp_query; [intros fs2|done]. cbn [wrap tables].
    destruct (claim_rows (m_maxTxsPerBlock cfg) (tables d)) as [|x rows] eqn:Hrows.
    { apply wp_ret. by apply wp_ret. }
    rewrite <- Hrows. apply wp_bind, wp_wrapping, wp_exec; [intros fs3|done]. cbn [wrap tables fst snd].
    apply wp_ret.
    destruct ((fun d => entry_of d (md_Status d)) <$> claim_rows (m_maxTxsPerBlock cfg) (tables d)) eqn:Hes;
      [by rewrite Hrows in Hes|]. rewrite <- Hes.
    apply wp_bind. eapply wp_mono; [apply add_entries_spec|]. cbn [tables].
    intros [[]|e] d4 Hd4; [|done]. specialize (Hd4 eq_refl). cbn in Hd4.
    unfold Finalize. apply wp_bind, wp_bind, wp_wrapping, wp_exec; [intros fs5|done]. cbn [wrap tables].
    apply wp_query; [intros fs6|done]. apply wp_ret. split; [by rewrite Hrows|]. cbn. rewrite Hd4. done.
  - unfold wp, in_block_tx in *. destruct (mine_body cfg now d) as [[[]|e] d']; done.
Qed.

Lemma claimed_hashes (rows : list MempoolEntryDao) : me_TxHash <$> (claimed_entry <$> rows) = md_TxHash <$> rows.
Proof. by rewrite <- list_fmap_compose. Qed.

Lemma claimed_fresh_entries n tb e :
  evm_inv tb -> e ∈ claimed_entry <$> claim_rows n tb ->
  evm_transactions tb !! me_TxHash e = None /\ forall j, evm_logs tb !! (me_TxHash e, j) = None.
Proof.
  intros Hinv (d & -> & Hd)%list_elem_of_fmap. by destruct (claim_fresh n tb d Hinv Hd) as (_ & ? & ?).
Qed.

Lemma mined_tables_inv now tb :
  evm_inv tb -> latest_block tb + 1 < two64 -> evm_inv (mined_tables now tb).
Proof.
  intros Hinv Hlt. set (n := m_maxTxsPerBlock cfg). pose proof (latest_nonneg _ Hinv) as Hl.
  assert (uint64 (latest_block tb + 1) = latest_block tb + 1) as Hu by (apply uint64_id; int_lia).
  assert (forall h d', mempool (mined_tables now tb) !! h = Some d' -> exists d, mempool tb !! h = Some d /\
    d' = if bool_decide (h ∈ md_TxHash <$> claim_rows n tb) then set_md_status MempoolMined d else d) as Hmp.
  { intros h d' Hd'. destruct (mempool tb !! h) as [d|] eqn:Hh.
    - exists d. split; [done|]. unfold mined_tables in Hd'. cbn in Hd'.
      rewrite (mark_mined_lookup _ _ h d) in Hd' by done. by injection Hd' as <-.
    - unfold mined_tables, mark_mined in Hd'. cbn in Hd'. by rewrite lookup_fmap, Hh in Hd'. }
  assert (forall h, h ∈ md_TxHash <$> claim_rows n tb ->
    exists d k, claim_rows n tb !! k = Some d /\ md_TxHash d = h) as Hpos.
  { intros h (d & -> & [k Hk]%list_elem_of_lookup_1)%list_elem_of_fmap. eauto. }
  assert (forall h, h ∈ md_TxHash <$> claim_rows n tb ->
    exists t, evm_transactions (mined_tables now tb) !! h = Some t /\ txd_BlockNumber t = latest_block tb + 1) as Hnew.
  { intros h Hh. destruct (Hpos h Hh) as (d & k & Hk & <-). unfold mined_tables. cbn. eexists.
    split; [apply (block_txs_at _ _ _ _ _ _ k (claimed_entry d))|by cbn].
    - rewrite claimed_hashes. by apply claim_hashes_NoDup.
    - intros e He. by apply (claimed_fresh_entries n tb e Hinv).
    - rewrite list_lookup_fmap. fold n. by rewrite Hk. }
  assert (forall h, h ∉ md_TxHash <$> claim_rows n tb ->
    evm_transactions (mined_tables now tb) !! h = evm_transactions tb !! h) as Hold.
  { intros h Hh. unfold mined_tables. cbn. apply block_txs_other. by rewrite claimed_hashes. }
  split.
  - intros h d' (d & Hd & ->)%Hmp. destruct (mp_key _ Hinv h d Hd). by case_bool_decide.
  - intros h1 h2 d1' d2' (d1 & Hd1 & ->)%Hmp (d2 & Hd2 & ->)%Hmp Hid.
    apply (mp_id _ Hinv h1 h2 d1 d2 Hd1 Hd2). by repeat case_bool_decide.
  - intros h t Ht. destruct (decide (h ∈ md_TxHash <$> claim_rows n tb)) as [Hin|Hin].
    + destruct (Hnew h Hin) as (t' & Ht' & Hb). rewrite Ht' in Ht. injection Ht as <-.
      split; [unfold mined_tables; cbn; lia|]. destruct (Hpos h Hin) as (d & k & Hk & <-).
      destruct (claim_fresh n tb d Hinv) as [Hd _]; [by eapply list_elem_of_lookup_2|].
      eexists. split; [unfold mined_tables; cbn; by apply mark_mined_lookup|].
      fold n. by rewrite bool_decide_true.
    + rewrite Hold in Ht by done. destruct (tx_mined _ Hinv h t Ht) as (Hb & d & Hd & Hs).
      split; [unfold mined_tables; cbn; lia|]. eexists.
      split; [unfold mined_tables; cbn; by apply mark_mined_lookup|]. by case_bool_decide.
  - intros h d' (d & Hd & ->)%Hmp Hs. case_bool_decide as Hin.
    + destruct (Hnew h Hin) as (t & Ht & _). eauto.
    + rewrite Hold by done. by eapply mined_tx.
  - intros h j l Hlog. destruct (decide (h ∈ md_TxHash <$> claim_rows n tb)) as [Hin|Hin].
    + destruct (Hnew h Hin) as (t & Ht & _). eauto.
    + rewrite Hold by done. unfold mined_tables in Hlog. cbn in Hlog.
      rewrite block_logs_other in Hlog by by rewrite claimed_hashes. by eapply log_tx.
  - unfold mined_tables. cbn. apply block_logs_keyed, Hinv.
  - unfold mined_tables. cbn. lia.
Qed.

(** C6: mining is atomic and exact.  A cycle that fails leaves every table as
    it was; one that finds nothing to mine consumes no block number; otherwise
    it adds one block with the next number, holding exactly the terminal
    entries it claimed (oldest first, at most the configured maximum), each at
    its position with status 1 when its transfer completed and 0 with its
    error message when it failed, each completed one with one Transfer log,
    the log indices contiguous across the block and the log that of the ERC-20
    event with sender, recipient and amount; the claimed entries become mined
    and nothing else changes.  The tables satisfy the invariant of the
    lifecycle, and the block number does not overflow. *)
Theorem mine_correct now d :
  evm_inv (tables d) -> latest_block (tables d) + 1 < two64 ->
  wp (mine cfg now) (fun r d' =>
    let rows := claim_rows (m_maxTxsPerBlock cfg) (tables d) in
    let number := latest_block (tables d) + 1 in
    let hash := ComputeBlockHash (m_chainID cfg) number in
    match r with
    | Err _ => tables d' = tables d
    | Ok _ => (rows = [] /\ tables d' = tables d) \/
        (rows <> [] /\ latest_block (tables d') = number /\ next_id (tables d') = next_id (tables d) /\
         (forall k row, rows !! k = Some row ->
            mempool (tables d') !! md_TxHash row = Some (set_md_status MempoolMined row) /\
            evm_transactions (tables d') !! md_TxHash row =
              Some (mkEvmTransactionDao (md_TxHash row) (md_FromAddress row) (md_ContractAddress row)
                (md_Nonce row) (md_Input row) "0"
                (if decide (md_Status row = MempoolCompleted) then 1 else 0) number hash (Z.of_nat k) (m_gasLimit cfg)
                (if decide (md_Status row = MempoolCompleted) then None
                 else stringPtrOrNil (default ""%string (md_ErrorMessage row)))) /\
            forall j, evm_logs (tables d') !! (md_TxHash row, j) =
              let li := logs_before (claimed_entry <$> rows) k in
              if decide (md_Status row = MempoolCompleted /\ j = li)
              then Some (mkEvmLogDao (md_TxHash row) li (HexToAddress (md_ContractAddress row))
                     (bytesPtr (Keccak256 transferEventSignature))
                     (bytesPtr (BytesToHash (LeftPadBytes (HexToAddress (md_FromAddress row)) 32)))
                     (bytesPtr (BytesToHash (LeftPadBytes (HexToAddress (md_RecipientAddress row)) 32))) None
                     (bytesPtr (LeftPadBytes (md_AmountData row) 32)) number hash (Z.of_nat k) false (uint64 now))
              else None) /\
         forall h, h ∉ md_TxHash <$> rows ->
           mempool (tables d') !! h = mempool (tables d) !! h /\
           evm_transactions (tables d') !! h = evm_transactions (tables d) !! h /\
           forall j, evm_logs (tables d') !! (h, j) = evm_logs (tables d) !! (h, j))
    end) d.
Proof.
  intros Hinv Hlt. pose proof (latest_nonneg _ Hinv) as Hl.
  assert (uint64 (latest_block (tables d) + 1) = latest_block (tables d) + 1) as Hu by (apply uint64_id; int_lia).
  eapply wp_mono; [apply mine_outcome|]. cbv zeta. intros [[]|e] d'; [|done]. intros ->.
  case_decide as Hempty; [by left|right]. unfold mined_tables. cbn [latest_block mempool evm_transactions evm_logs].
  rewrite Hu. set (n := m_maxTxsPerBlock cfg) in *. set (tb := tables d) in *.
  assert (NoDup (me_TxHash <$> (claimed_entry <$> claim_rows n tb))) as Hnd.
  { rewrite claimed_hashes. by apply claim_hashes_NoDup. }
  split; [done|]. split; [done|]. split; [done|]. split.
  - intros k row Hk. assert (row ∈ claim_rows n tb) as Hrow by by eapply list_elem_of_lookup_2.
    destruct (claim_fresh n tb row Hinv Hrow) as (Hmp & _ & _).
    assert ((claimed_entry <$> claim_rows n tb) !! k = Some (claimed_entry row)) as Hke.
    { by rewrite list_lookup_fmap, Hk. }
    split; [|split].
    + rewrite (mark_mined_lookup n tb _ row) by done. rewrite bool_decide_true; [done|].
      by apply list_elem_of_fmap_2.
    + rewrite (block_txs_at _ _ _ _ _ _ k (claimed_entry row) Hnd);
        [|intros e He; by apply (claimed_fresh_entries n tb e Hinv)|done].
      unfold toEvmTransactionDao, evmTx, succeeded. cbn. do 2 f_equal; repeat case_bool_decide; by case_decide.
    + intros j. rewrite (block_logs_at _ _ _ _ _ _ _ k (claimed_entry row) j Hnd);
        [|intros e j' He; by apply (claimed_fresh_entries n tb e Hinv)|done].
      unfold succeeded. cbn [me_Status claimed_entry entry_of]. rewrite !Z.add_0_l.
      destruct (Z.eqb_spec j (logs_before (claimed_entry <$> claim_rows n tb) k));
        case_bool_decide; cbn [andb]; by case_decide; naive_solver.
  - intros h Hh. split; [|split].
    + unfold mark_mined. destruct (mempool tb !! h) as [row|] eqn:Hrow.
      * pose proof (mark_mined_lookup n tb h row Hinv Hrow) as Hm. rewrite bool_decide_false in Hm by done. done.
      * by rewrite lookup_fmap, Hrow.
    + apply block_txs_other. by rewrite claimed_hashes.
    + intros j. apply block_logs_other. by rewrite claimed_hashes.
Qed.
End Mining.
