(* ===== verification/Migrations.v ===== *)
(** * Migrations: the data migrations

    pkg/migrations/indexerdb/7_create_transfers.go, which moves the legacy
    offers and the settled transfers of the event log into indexer_transfers,
    and pkg/migrations/apidb/14_fix_failed_tx_status.go, which repairs the
    receipts of failed transactions.  A table that does not exist is [None];
    migrations run outside a transaction, so a failing statement leaves what
    the earlier ones did. *)

From S2P Require Import Prelude AppErrors Effects GoStd UserStore Decimal Streaming IndexerStore IndexerProcessor IndexerHistory IndexerScenarios EvmStore EvmMiner.
From Stdlib Require Import String.
Local Open Scope Z_scope.

(** ** Migration 7 *)

Definition transferKindOffer : string := "offer".
Definition transferKindDirect : string := "direct".
Definition transferStatusPend : string := "pending".
Definition transferStatusDone : string := "completed".
Definition legacyStatusAccepted : string := "ACCEPTED".
Definition legacyStatusPending : string := "PENDING".

(** A row of indexer_pending_offers. *)
Record legacyOffer := mkLegacyOffer {
  lo_ContractID : string;
  lo_Status : string;
  lo_ReceiverPartyID : string;
  lo_SenderPartyID : string;
  lo_InstrumentAdmin : string;
  lo_InstrumentID : string;
  lo_Amount : string;
  lo_LedgerOffset : Z;
  lo_CreatedAt : Z;
  lo_ExpiresAt : option Z;
}.

(** The tables the migration reads and writes, by primary key. *)
Record Schema := mkSchema {
  sm_events : gmap string EventDao;
  sm_transfers : option (gmap string TransferDao);
  sm_offers : option (gmap string legacyOffer);
}.

Definition put_sm_transfers m s := mkSchema (sm_events s) m (sm_offers s).
Definition put_sm_offers m s := mkSchema (sm_events s) (sm_transfers s) m.

Definition missing_table (name : string) : error := ErrNew ("relation " +:+ quoted name +:+ " does not exist").

(** CreateSchema: CREATE TABLE IF NOT EXISTS *)
Definition CreateSchema_transfers : M (DB Schema) unit :=
  exec (fun s => (tt, put_sm_transfers (Some (default ∅ (sm_transfers s))) s)).
Definition CreateSchema_offers : M (DB Schema) unit :=
  exec (fun s => (tt, put_sm_offers (Some (default ∅ (sm_offers s))) s)).

(** DropTables: DROP TABLE IF EXISTS *)
Definition DropTables_transfers : M (DB Schema) unit := exec (fun s => (tt, put_sm_transfers None s)).
Definition DropTables_offers : M (DB Schema) unit := exec (fun s => (tt, put_sm_offers None s)).

(** CREATE INDEX IF NOT EXISTS leaves the rows alone. *)
Definition create_index : M (DB Schema) unit := exec (fun s => (tt, s)).

Definition select_offers (P : legacyOffer -> bool) : M (DB Schema) (list legacyOffer) :=
  exec_result (fun s => (match sm_offers s with
    | Some os => Ok (List.filter P (map_to_list os).*2)
    | None => Err (missing_table "indexer_pending_offers")
    end, s)).

Definition select_transfers (P : TransferDao -> bool) : M (DB Schema) (list TransferDao) :=
  exec_result (fun s => (match sm_transfers s with
    | Some ts => Ok (List.filter P (map_to_list ts).*2)
    | None => Err (missing_table "indexer_transfers")
    end, s)).

(** event_type = 'TRANSFER' AND both parties are not null *)
Definition settled_event (e : EventDao) : bool :=
  bool_decide (ed_EventType e = "TRANSFER"%string) && bool_decide (is_Some (ed_FromPartyID e)) && bool_decide (is_Some (ed_ToPartyID e)).

Definition select_events : M (DB Schema) (list EventDao) :=
  query (fun s => List.filter settled_event (map_to_list (sm_events s)).*2).

(** INSERT of several rows ON CONFLICT (contract_id) DO NOTHING *)
Definition insert_new {A} (key : A -> string) (rows : list A) (m : gmap string A) : gmap string A :=
  foldl (fun m r => match m !! key r with Some _ => m | None => <[key r := r]> m end) m rows.

Definition insert_transfers (rows : list TransferDao) : M (DB Schema) unit :=
  exec_result (fun s => match sm_transfers s with
    | Some ts => (Ok tt, put_sm_transfers (Some (insert_new td_ContractID rows ts)) s)
    | None => (Err (missing_table "indexer_transfers"), s)
    end).

Definition insert_offers (rows : list legacyOffer) : M (DB Schema) unit :=
  exec_result (fun s => match sm_offers s with
    | Some os => (Ok tt, put_sm_offers (Some (insert_new lo_ContractID rows os)) s)
    | None => (Err (missing_table "indexer_pending_offers"), s)
    end).

Definition deref (s : option string) : string := default ""%string s.

Definition offer_transfer (o : legacyOffer) : TransferDao :=
  mkTransferDao (lo_ContractID o) transferKindOffer
    (if bool_decide (lo_Status o = legacyStatusAccepted) || bool_decide (lo_Status o = transferStatusDone)
     then transferStatusDone else transferStatusPend)
    (lo_SenderPartyID o) (lo_ReceiverPartyID o) (lo_InstrumentAdmin o) (lo_InstrumentID o) (lo_Amount o)
    (lo_ExpiresAt o) "" (lo_LedgerOffset o) (lo_CreatedAt o).

Definition event_transfer (e : EventDao) : TransferDao :=
  mkTransferDao (ed_ContractID e) transferKindDirect transferStatusDone (deref (ed_FromPartyID e)) (deref (ed_ToPartyID e))
    (ed_InstrumentAdmin e) (ed_InstrumentID e) (ed_Amount e) None (ed_TxID e) (ed_LedgerOffset e) (ed_EffectiveTime e).

Definition transfer_offer (t : TransferDao) : legacyOffer :=
  mkLegacyOffer (td_ContractID t)
    (if bool_decide (td_Status t = transferStatusDone) then legacyStatusAccepted else legacyStatusPending)
    (td_ToPartyID t) (td_FromPartyID t) (td_InstrumentAdmin t) (td_InstrumentID t) (td_Amount t)
    (td_LedgerOffset t) (td_CreatedAt t) (td_ExpiresAt t).

(** sort.Slice orders by the comparison and leaves the order of equal elements
    unspecified. *)
Class SortSlice := sort_slice : list TransferDao -> list TransferDao.
Class SortSliceLaws `{!SortSlice} : Prop := {
  sort_slice_perm : forall l, sort_slice l ≡ₚ l;
  sort_slice_sorted : forall l, Sorted (fun t t' => td_LedgerOffset t <= td_LedgerOffset t') (sort_slice l);
}.

Section migration7.
Context `{!SortSlice}.

Definition merged (offers : list legacyOffer) (events : list EventDao) : list TransferDao :=
  sort_slice (map offer_transfer offers ++ map event_transfer events).

Definition migration7_up : M (DB Schema) unit :=
  _ ← CreateSchema_transfers;
  _ ← create_index;
  _ ← for_each ["from_party_id"; "to_party_id"]%string (fun _ => create_index);
  offers ← select_offers (fun _ => true);
  events ← select_events;
  let transfers := merged offers events in
  _ ← (if bool_decide (transfers = []) then mret tt else insert_transfers transfers);
  DropTables_offers.

Definition migration7_down : M (DB Schema) unit :=
  _ ← CreateSchema_offers;
  transfers ← select_transfers (fun t => bool_decide (td_Kind t = transferKindOffer));
  let offers := map transfer_offer transfers in
  _ ← (if bool_decide (offers = []) then mret tt else insert_offers offers);
  DropTables_transfers.
End migration7.

(** ** Inserting the rows that are new *)

Section insert_new.
Context {A : Type} (key : A -> string).
Implicit Types (m : gmap string A) (rows : list A).

Lemma insert_new_cons r rows m :
  insert_new key (r :: rows) m = insert_new key rows (match m !! key r with Some _ => m | None => <[key r := r]> m end).
Proof. done. Qed.

Lemma insert_new_kept rows m k x : m !! k = Some x -> insert_new key rows m !! k = Some x.
Proof.
  revert m. induction rows as [|r rows IH]; intros m Hk; [done|]. rewrite insert_new_cons. apply IH.
  case_match; [done|]. rewrite lookup_insert_ne; [done|congruence].
Qed.

Lemma insert_new_in rows m r : r ∈ rows -> is_Some (insert_new key rows m !! key r).
Proof.
  revert m. induction rows as [|r' rows IH]; intros m; [by intros ?%not_elem_of_nil|].
  rewrite insert_new_cons. intros [->|Hin]%elem_of_cons; [|by apply IH].
  destruct (m !! key r') as [x|] eqn:Hr.
  - exists x. by apply insert_new_kept.
  - exists r'. apply insert_new_kept, lookup_insert_eq.
Qed.

Lemma insert_new_from rows m k x :
  insert_new key rows m !! k = Some x -> m !! k = Some x \/ (m !! k = None /\ x ∈ rows /\ key x = k).
Proof.
  revert m. induction rows as [|r rows IH]; intros m; [by left|]. rewrite insert_new_cons.
  intros [Hm|(Hm & Hin & Hk)]%IH; [|right; split; [|by split; [right|]]].
  - destruct (m !! key r) eqn:Hr; [by left|]. destruct (decide (key r = k)) as [<-|Hne].
    + rewrite lookup_insert_eq in Hm. simplify_eq. right. by split; [|split; [left|]].
    + left. by rewrite lookup_insert_ne in Hm.
  - destruct (m !! key r) eqn:Hr; [done|]. destruct (decide (key r = k)) as [<-|Hne]; [done|].
    by rewrite lookup_insert_ne in Hm.
Qed.

Lemma insert_new_present rows m : (forall r, r ∈ rows -> is_Some (m !! key r)) -> insert_new key rows m = m.
Proof.
  revert m. induction rows as [|r rows IH]; intros m Hin; [done|]. rewrite insert_new_cons.
  destruct (Hin r) as [x ->]; [by left|]. apply IH. intros r' Hr'. apply Hin. by right.
Qed.

Lemma insert_new_twice rows m : insert_new key rows (insert_new key rows m) = insert_new key rows m.
Proof. apply insert_new_present. intros r. apply insert_new_in. Qed.
End insert_new.

(** ** Migration 7: what it leaves *)

(** Rows are stored under their own key. *)
Definition schema_keyed (s : Schema) : Prop :=
  (forall c e, sm_events s !! c = Some e -> ed_ContractID e = c) /\
  (forall os c o, sm_offers s = Some os -> os !! c = Some o -> lo_ContractID o = c).

(** The rows of the old tables, as the migration turns them into transfers. *)
Definition migrated_row (events : gmap string EventDao) (os : gmap string legacyOffer) (c : string) : option TransferDao :=
  match os !! c with
  | Some o => Some (offer_transfer o)
  | None => e ← events !! c; if settled_event e then Some (event_transfer e) else None
  end.

(** No contract is both an offer and a settled event. *)
Definition sources_disjoint (s : Schema) : Prop :=
  forall os c e, sm_offers s = Some os -> is_Some (os !! c) -> sm_events s !! c = Some e -> settled_event e = false.

Section migration7_proofs.
Context `{!SortSlice}.

Definition merged_rows (s : Schema) (os : gmap string legacyOffer) : list TransferDao :=
  merged (List.filter (fun _ => true) (map_to_list os).*2) (List.filter settled_event (map_to_list (sm_events s)).*2).

(** The schema after the migration. *)
Definition migrated (s : Schema) (os : gmap string legacyOffer) : Schema :=
  mkSchema (sm_events s) (Some (insert_new td_ContractID (merged_rows s os) (default ∅ (sm_transfers s)))) None.

(** What a failed attempt can leave. *)
Inductive attempted (s : Schema) : Schema -> Prop :=
| attempted_none : attempted s s
| attempted_created : attempted s (put_sm_transfers (Some (default ∅ (sm_transfers s))) s)
| attempted_filled os : sm_offers s = Some os -> attempted s (put_sm_offers (Some os) (migrated s os)).

Lemma wp_exec_result {T A} (f : T -> result A * T) Q (d : DB T) :
  (forall fs, Q (f (tables d)).1 (mkDB (f (tables d)).2 fs)) ->
  (forall m fs, Q (Err (ErrNew m)) (mkDB (tables d) fs)) -> wp (exec_result f) Q d.
Proof.
  intros Hf Herr. unfold exec_result. apply wp_bind, wp_exec; [|done]. intros fs. specialize (Hf fs).
  destruct (f (tables d)) as [[a|e] t]; exact Hf.
Qed.

Lemma insert_if_any (rows : list TransferDao) d Q :
  wp (insert_transfers rows) Q d ->
  (forall ts, sm_transfers (tables d) = Some ts -> rows = [] -> Q (Ok tt) d) ->
  is_Some (sm_transfers (tables d)) ->
  wp (if bool_decide (rows = []) then mret tt else insert_transfers rows) Q d.
Proof. intros Hins Hnil [ts Hts]. case_bool_decide; [|done]. apply wp_ret. eauto. Qed.

Lemma migration7_up_outcome d :
  wp migration7_up (fun r d' => match r with
    | Ok _ => exists os, sm_offers (tables d) = Some os /\ tables d' = migrated (tables d) os
    | Err _ => attempted (tables d) (tables d')
    end) d.
Proof.
  unfold migration7_up, CreateSchema_transfers, create_index, DropTables_offers. destruct d as [s fs0]. cbn [tables].
  apply wp_bind, wp_exec; [|constructor]. cbn [fst snd tables]. intros fs1.
  apply wp_bind, wp_exec; [|constructor]. cbn [fst snd tables]. intros fs2. cbn [for_each].
  apply wp_bind, wp_bind, wp_exec; [|constructor]. cbn [fst snd tables]. intros fs3.
  apply wp_bind, wp_exec; [|constructor]. cbn [fst snd tables]. intros fs4. apply wp_ret.
  apply wp_bind, wp_exec_result; [|constructor]. cbn [fst snd tables]. intros fs5.
  cbn [put_sm_transfers sm_offers]. destruct (sm_offers s) as [os|] eqn:Hos; [|constructor].
  apply wp_bind, wp_query; [|constructor]. cbn [tables sm_events put_sm_transfers]. intros fs6.
  fold (merged_rows s os). cbv zeta. apply wp_bind.
  assert (forall fs, wp (exec (fun s => (tt, put_sm_offers None s))) (fun r d' => match r with
    | Ok _ => exists os0, Some os = Some os0 /\ tables d' = migrated s os0
    | Err _ => attempted s (tables d')
    end) (mkDB (put_sm_offers (Some os) (migrated s os)) fs)) as Hdrop.
  { intros fs. apply wp_exec; cbn [fst snd tables]; intros; [by exists os|]. by apply attempted_filled. }
  apply insert_if_any; cbn [tables put_sm_transfers sm_transfers].
  - apply wp_exec_result; cbn [fst snd tables put_sm_transfers sm_transfers]; [|constructor].
    intros fs. specialize (Hdrop fs). unfold migrated, put_sm_offers in Hdrop. cbn in Hdrop.
    unfold put_sm_transfers. cbn. rewrite Hos. exact Hdrop.
  - intros ts [= <-] Hnil. specialize (Hdrop fs6). unfold migrated, put_sm_offers in Hdrop. cbn in Hdrop. rewrite Hnil in Hdrop.
    unfold put_sm_transfers. cbn. rewrite Hos. exact Hdrop.
  - eauto.
Qed.

(** Without faults the migration succeeds exactly when the offers exist. *)
Lemma migration7_up_nofault s :
  migration7_up (mkDB s []) = match sm_offers s with
    | Some os => (Ok tt, mkDB (migrated s os) [])
    | None => (Err (missing_table "indexer_pending_offers"), mkDB (put_sm_transfers (Some (default ∅ (sm_transfers s))) s) [])
    end.
Proof.
  destruct s as [ev ts [os|]]; [|done]. unfold migration7_up, migrated, merged_rows. cbn.
  unfold select_offers, exec_result, select_events, query, exec, mbind, M_bind. cbn.
  case_bool_decide as Hnil; [|done]. cbn. by rewrite Hnil.
Qed.

Lemma migrated_filled s os : migrated (put_sm_offers (Some os) (migrated s os)) os = migrated s os.
Proof. unfold migrated, put_sm_offers, merged_rows. cbn. by rewrite insert_new_twice. Qed.

(** What an attempt left is no obstacle for the next one. *)
Lemma attempted_resumes s s' : attempted s s' ->
  sm_offers s' = sm_offers s /\ forall os, sm_offers s = Some os -> migrated s' os = migrated s os.
Proof.
  intros [| |os Hos]; [done|done|]. split; [done|]. intros os'. rewrite Hos. intros [= <-]. apply migrated_filled.
Qed.

Context `{!SortSliceLaws}.

Lemma elem_of_merged s os t : t ∈ merged_rows s os <->
  (exists c o, os !! c = Some o /\ t = offer_transfer o) \/
  (exists c e, sm_events s !! c = Some e /\ settled_event e = true /\ t = event_transfer e).
Proof.
  unfold merged_rows, merged. rewrite sort_slice_perm, elem_of_app, !list_elem_of_fmap.
  setoid_rewrite list_elem_of_In. setoid_rewrite filter_In. setoid_rewrite <- list_elem_of_In. setoid_rewrite list_elem_of_fmap.
  split.
  - intros [(o & -> & ([c o'] & -> & Hc%elem_of_map_to_list) & _)|(e & -> & ([c e'] & -> & Hc%elem_of_map_to_list) & Hs)]; eauto 10.
  - intros [(c & o & Hc & ->)|(c & e & Hc & Hs & ->)]; [left|right].
    + exists o. split; [done|]. split; [|done]. exists (c, o). by rewrite elem_of_map_to_list.
    + exists e. split; [done|]. split; [|done]. exists (c, e). by rewrite elem_of_map_to_list.
Qed.

(** A row of the merged list is the one its key calls for. *)
Lemma merged_row_key s os t :
  schema_keyed s -> sources_disjoint s -> sm_offers s = Some os ->
  t ∈ merged_rows s os -> migrated_row (sm_events s) os (td_ContractID t) = Some t.
Proof.
  intros [He Ho] Hdis Hos [(c & o & Hc & ->)|(c & e & Hc & Hs & ->)]%elem_of_merged; unfold migrated_row; cbn.
  - by rewrite (Ho _ _ _ Hos Hc), Hc.
  - rewrite (He _ _ Hc), Hc. cbn. rewrite Hs. destruct (os !! c) eqn:Hoc; [|done].
    by rewrite (Hdis _ _ _ Hos (mk_is_Some _ _ Hoc) Hc) in Hs.
Qed.

Lemma migrated_row_merged s os c t :
  schema_keyed s -> sm_offers s = Some os ->
  migrated_row (sm_events s) os c = Some t -> t ∈ merged_rows s os /\ td_ContractID t = c.
Proof.
  intros [He Ho] Hos. unfold migrated_row. rewrite elem_of_merged. destruct (os !! c) as [o|] eqn:Hc.
  - intros [= <-]. split; [by eauto|]. by apply (Ho os).
  - destruct (sm_events s !! c) as [e|] eqn:Hce; [cbn|done]. destruct (settled_event e) eqn:Hs; [|done].
    intros [= <-]. split; [by eauto 10|]. by apply He.
Qed.

(** The table a migration from scratch leaves. *)
Lemma migrated_lookup s os :
  schema_keyed s -> sources_disjoint s -> sm_offers s = Some os -> default ∅ (sm_transfers s) = ∅ ->
  forall c, insert_new td_ContractID (merged_rows s os) ∅ !! c = migrated_row (sm_events s) os c.
Proof.
  intros Hk Hdis Hos Hempty c. apply option_eq. intros t. split.
  - intros [Hin|(_ & Hin & <-)]%insert_new_from; [by rewrite lookup_empty in Hin|]. by apply merged_row_key.
  - intros (Hin & Hc)%migrated_row_merged; [|done..]. destruct (insert_new_in td_ContractID _ ∅ _ Hin) as [t' Ht'].
    rewrite <- Hc, Ht'. apply insert_new_from in Ht' as [Ht'|(_ & Hin' & Hc')]; [by rewrite lookup_empty in Ht'|].
    apply merged_row_key in Hin, Hin'; [|done..]. congruence.
Qed.
End migration7_proofs.

(** ** Migration 7: theorems *)

(** Running the migration until an attempt succeeds, the faults of each attempt
    given. *)
Fixpoint migrate_until `{!SortSlice} (attempts : list (list (option string))) (s : Schema) : option Schema :=
  match attempts with
  | [] => None
  | fs :: attempts =>
      match migration7_up (mkDB s fs) with
      | (Ok _, d) => Some (tables d)
      | (Err _, d) => migrate_until attempts (tables d)
      end
  end.

(** The row the processor writes for a settled event is the migrated one. *)
Lemma event_transfer_direct e : settled_event e = true ->
  event_transfer e = toTransferDao (direct_transfer (fromEventDao e) (deref (ed_FromPartyID e)) (deref (ed_ToPartyID e))).
Proof. done. Qed.

Section migration7_theorems.
Context `{!SortSlice} `{!SortSliceLaws}.

Lemma migrate_until_final attempts s os :
  sm_offers s = Some os -> migrate_until (attempts ++ [[]]) s = Some (migrated s os).
Proof.
  revert s. induction attempts as [|fs attempts IH]; intros s Hos; cbn [app migrate_until].
  - by rewrite migration7_up_nofault, Hos.
  - pose proof (migration7_up_outcome (mkDB s fs)) as Hup. unfold wp in Hup.
    destruct (migration7_up (mkDB s fs)) as [[[]|e] d']; cbn [tables] in Hup.
    + destruct Hup as (os' & Hos' & ->). congruence.
    + apply attempted_resumes in Hup as [Hsame Hm]. rewrite <- (Hm os Hos). apply IH. by rewrite Hsame.
Qed.

(** C26: Migration 7 preserves the history.  However often it fails, at whichever
    statement, and is run again, the attempt that succeeds leaves the event log
    as it was, drops the offers, and leaves in indexer_transfers exactly one
    row for every legacy offer, with its parties, instrument, amount, expiry,
    offset and time, completed when the offer was accepted and pending
    otherwise, and one for every settled event, with its fields and completed,
    which is the row that the indexer itself writes for such an event; nothing
    else is in the table.  This is for tables whose rows are stored under their
    contract ids, when indexer_transfers does not exist yet and no contract id
    is both an offer and a settled event. *)
Theorem migration7_preserves_history attempts s os :
  schema_keyed s -> sources_disjoint s -> sm_transfers s = None -> sm_offers s = Some os ->
  exists ts, migrate_until (attempts ++ [[]]) s = Some (mkSchema (sm_events s) (Some ts) None) /\
    forall c, ts !! c =
      match os !! c with
      | Some o => Some (mkTransferDao (lo_ContractID o) "offer"
                    (if decide (lo_Status o = "ACCEPTED" \/ lo_Status o = "completed")%string then "completed" else "pending")
                    (lo_SenderPartyID o) (lo_ReceiverPartyID o) (lo_InstrumentAdmin o) (lo_InstrumentID o) (lo_Amount o)
                    (lo_ExpiresAt o) "" (lo_LedgerOffset o) (lo_CreatedAt o))
      | None =>
          match sm_events s !! c with
          | Some e =>
              match ed_FromPartyID e, ed_ToPartyID e with
              | Some from, Some to =>
                  if decide (ed_EventType e = "TRANSFER"%string)
                  then Some (mkTransferDao (ed_ContractID e) "direct" "completed" from to (ed_InstrumentAdmin e)
                         (ed_InstrumentID e) (ed_Amount e) None (ed_TxID e) (ed_LedgerOffset e) (ed_EffectiveTime e))
                  else None
              | _, _ => None
              end
          | None => None
          end
      end /\
      (forall e, os !! c = None -> sm_events s !! c = Some e -> is_Some (ts !! c) ->
         ts !! c = Some (toTransferDao (direct_transfer (fromEventDao e) (deref (ed_FromPartyID e)) (deref (ed_ToPartyID e))))).
Proof.
  intros Hk Hdis Hts Hos. eexists. rewrite (migrate_until_final _ _ os Hos). split; [done|]. rewrite Hts. cbn [default].
  intros c. rewrite migrated_lookup by (rewrite ?Hts; done). unfold migrated_row, settled_event. split.
  - destruct (os !! c) as [o|].
    + unfold offer_transfer. do 2 f_equal. by repeat case_bool_decide; case_decide; naive_solver.
    + destruct (sm_events s !! c) as [e|]; [cbn|done]. unfold event_transfer.
      destruct (ed_FromPartyID e), (ed_ToPartyID e); cbn; rewrite ?andb_true_r, ?andb_false_r; try done.
      by case_bool_decide; case_decide.
  - intros e -> -> [t Ht]. rewrite Ht. cbn in Ht. by case_match; simplify_eq.
Qed.

(** An offer with a status of the old code survives the way there and back. *)
Lemma transfer_offer_back o :
  lo_Status o = legacyStatusPending \/ lo_Status o = legacyStatusAccepted -> transfer_offer (offer_transfer o) = o.
Proof. destruct o. cbn. intros [-> | ->]; done. Qed.

Lemma migration7_down_nofault s ts : sm_transfers s = Some ts -> sm_offers s = None ->
  migration7_down (mkDB s []) = (Ok tt, mkDB (mkSchema (sm_events s) None (Some (insert_new lo_ContractID
    (map transfer_offer (List.filter (fun t => bool_decide (td_Kind t = transferKindOffer)) (map_to_list ts).*2)) ∅))) []).
Proof.
  intros Hts Hos. destruct s as [ev ts' os]. cbn in Hts, Hos. subst.
  unfold migration7_down, CreateSchema_offers, select_transfers, exec_result, query, exec, mbind, M_bind. cbn.
  case_bool_decide as Hnil; [|done]. cbn. by rewrite Hnil.
Qed.

(** The down migration undoes the up migration: on a database whose offers have
    the statuses of the old code, applying migration 7 and reverting it gives
    back the offers and the events unchanged. *)
Theorem migration7_roundtrip s os d :
  schema_keyed s -> sources_disjoint s -> sm_transfers s = None -> sm_offers s = Some os ->
  (forall c o, os !! c = Some o -> lo_Status o = legacyStatusPending \/ lo_Status o = legacyStatusAccepted) ->
  migration7_up (mkDB s []) = (Ok tt, d) -> migration7_down d = (Ok tt, mkDB s []).
Proof.
  intros Hk Hdis Hts Hos Hst Hup. rewrite migration7_up_nofault, Hos in Hup. injection Hup as <-.
  unfold migrated. rewrite Hts. cbn [default]. set (ts := insert_new _ _ _).
  assert (forall c, ts !! c = migrated_row (sm_events s) os c) as Hlook by (apply migrated_lookup; by rewrite ?Hts).
  rewrite (migration7_down_nofault _ ts) by done. cbn [sm_events]. do 2 f_equal. destruct s as [ev ts' os']. cbn in *. subst. f_equal. f_equal.
  assert (forall o, o ∈ map transfer_offer (List.filter (fun t => bool_decide (td_Kind t = transferKindOffer)) (map_to_list ts).*2) <->
    os !! lo_ContractID o = Some o) as Hin.
  { intros o. rewrite list_elem_of_In, in_map_iff. setoid_rewrite filter_In. setoid_rewrite <- list_elem_of_In.
    setoid_rewrite list_elem_of_fmap. split.
    - intros (t & <- & ([c t'] & -> & Hc%elem_of_map_to_list) & Hkind%bool_decide_eq_true_1). cbn in *. rewrite Hlook in Hc.
      unfold migrated_row in Hc. destruct (os !! c) as [o|] eqn:Hoc; [|destruct (ev !! c) as [e|]; [cbn in Hc|done]; case_match; by simplify_eq].
      injection Hc as <-. destruct Hk as [_ Ho]. rewrite transfer_offer_back by eauto. cbn. by rewrite (Ho os c o).
    - intros Hoc. exists (offer_transfer o). split; [by apply transfer_offer_back; eauto|]. split; [|by apply bool_decide_eq_true_2].
      exists (lo_ContractID o, offer_transfer o). split; [done|]. apply elem_of_map_to_list. rewrite Hlook. unfold migrated_row. by rewrite Hoc. }
  apply map_eq. intros c. apply option_eq. intros o. split.
  - intros [Hbad|(_ & Ho%Hin & <-)]%insert_new_from; [by rewrite lookup_empty in Hbad|done].
  - intros Hoc. assert (lo_ContractID o = c) as <- by (destruct Hk as [_ Ho]; by eapply Ho).
    destruct (insert_new_in lo_ContractID _ ∅ _ (proj2 (Hin o) Hoc)) as [o' Ho']. rewrite Ho'.
    apply insert_new_from in Ho' as [Ho'|(_ & Ho'%Hin & Hc')]; [by rewrite lookup_empty in Ho'|]. congruence.
Qed.
End migration7_theorems.

(** ** The transfers table and the event log *)

(** Every settled event has its transfer, and every direct transfer is that of
    a settled event, as the processor writes it. *)
Definition transfers_match (tb : IndexerTables) : Prop :=
  (forall c e, events tb !! c = Some e -> settled_event e = true -> is_Some (transfers tb !! c)) /\
  (forall c t, transfers tb !! c = Some t -> td_Kind t = TransferKindDirect ->
     exists e, events tb !! c = Some e /\ settled_event e = true /\ t = event_transfer e).

(** The offers of a batch are not direct transfers. *)
Definition offers_only (i : Item) : Prop :=
  match i with ItemTransfer t => tr_Kind t <> TransferKindDirect | _ => True end.

Section matching.
Context `{!DecimalLib} `{!PgNumeric}.

Lemma same_logs_match tb tb' : same_logs tb tb' -> transfers_match tb -> transfers_match tb'.
Proof. unfold transfers_match. by intros [-> ->]. Qed.

Lemma match_insert_offer tb t :
  transfers_match tb -> tr_Kind t <> TransferKindDirect -> transfers tb !! tr_ContractID t = None ->
  transfers_match (put_transfers (<[tr_ContractID t := toTransferDao t]> (transfers tb)) tb).
Proof.
  intros [He Ht] Hkind Hnew. split; cbn.
  - intros c e Hc Hs. rewrite lookup_insert_is_Some. destruct (decide (tr_ContractID t = c)); eauto.
  - intros c t' [[<- <-]|[_ Hc]]%lookup_insert_Some; [done|eauto].
Qed.

Lemma match_finalize tb c s :
  transfers_match tb ->
  transfers_match (put_transfers (alter (fun t => if bool_decide (td_Status t = TransferStatusPending) then set_td_status s t else t) c (transfers tb)) tb).
Proof.
  intros [He Ht]. split; cbn.
  - intros c' e Hc Hs. rewrite lookup_alter_is_Some. eauto.
  - intros c' t. destruct (decide (c = c')) as [<-|Hne]; [|rewrite lookup_alter_ne by done; eauto].
    rewrite lookup_alter_eq. destruct (transfers tb !! c) as [t0|] eqn:Hc; [|done]. cbn. intros [= <-] Hk.
    assert (td_Kind t0 = TransferKindDirect) as Hk0 by (case_bool_decide; done).
    destruct (Ht c t0 Hc Hk0) as (e & Hce & Hs & ->). by exists e.
Qed.

Lemma settled_parties e from to :
  pe_FromPartyID e = Some from -> pe_ToPartyID e = Some to -> pe_EventType e = EventTransfer ->
  settled_event (toEventDao e) = true /\ event_transfer (toEventDao e) = toTransferDao (direct_transfer e from to).
Proof.
  intros Hf Ht Hty. unfold settled_event, event_transfer, toEventDao, toTransferDao, direct_transfer. cbn.
  rewrite Hf, Ht, Hty. split; [|done]. by rewrite !bool_decide_eq_true_2 by eauto.
Qed.

(** A new event and its transfer. *)
Lemma match_insert_event tb tb' e from to :
  transfers_match tb -> events tb !! pe_ContractID e = None ->
  pe_FromPartyID e = Some from -> pe_ToPartyID e = Some to -> pe_EventType e = EventTransfer ->
  events tb' = <[pe_ContractID e := toEventDao e]> (events tb) ->
  transfers tb' = match transfers tb !! pe_ContractID e with
    | Some _ => transfers tb
    | None => <[pe_ContractID e := toTransferDao (direct_transfer e from to)]> (transfers tb)
    end -> transfers_match tb'.
Proof.
  intros [He Ht] Hnew Hf Hto Hty Hev Htr. destruct (settled_parties e from to Hf Hto Hty) as [Hs Hrow].
  unfold transfers_match. rewrite Hev, Htr. split.
  - intros c e' [[<- <-]|[Hne Hc]]%lookup_insert_Some Hse'.
    + destruct (transfers tb !! pe_ContractID e) eqn:Hold; [by rewrite Hold|]. by rewrite lookup_insert_eq.
    + case_match; [eauto|]. rewrite lookup_insert_ne by done. eauto.
  - intros c t Hc Hk. destruct (transfers tb !! pe_ContractID e) eqn:Hold.
    + destruct (Ht c t Hc Hk) as (e' & Hce & Hse & ->). exists e'. rewrite lookup_insert_ne by congruence. done.
    + apply lookup_insert_Some in Hc as [[<- <-]|[Hne Hc]].
      * exists (toEventDao e). rewrite lookup_insert_eq, Hrow. done.
      * destruct (Ht c t Hc Hk) as (e' & Hce & Hse & ->). exists e'. rewrite lookup_insert_ne by done. done.
Qed.

(** A new event that is no transfer. *)
Lemma match_insert_other tb e :
  transfers_match tb -> events tb !! pe_ContractID e = None -> settled_event (toEventDao e) = false ->
  transfers_match (put_events (<[pe_ContractID e := toEventDao e]> (events tb)) tb).
Proof.
  intros [He Ht] Hnew Hns. split; cbn.
  - intros c e' [[<- <-]|[Hne Hc]]%lookup_insert_Some Hse'; [by rewrite Hns in Hse'|eauto].
  - intros c t Hc Hk. destruct (Ht c t Hc Hk) as (e' & Hce & Hse & ->). exists e'. rewrite lookup_insert_ne by congruence. done.
Qed.

(** Statements that leave both logs alone, in sequence. *)
Lemma wp_logs {A B} (c : M IndexerDB A) (k : A -> M IndexerDB B) (Q : result B -> IndexerDB -> Prop) tb d :
  always same_logs c -> same_logs tb (tables d) -> (forall e d', Q (Err e) d') ->
  (forall a d', same_logs tb (tables d') -> wp (k a) Q d') -> wp (c ≫= k) Q d.
Proof.
  intros Hc Hd Herr Hk. apply wp_bind. eapply wp_mono; [apply Hc|]. intros [a|e] d' Hd'; [|done]. apply Hk.
  unfold same_logs in *. intuition congruence.
Qed.

Lemma processTransferEvent_match e d :
  transfers_match (tables d) -> wp (processTransferEvent e) (fun r d' => is_ok r = true -> transfers_match (tables d')) d.
Proof.
  intros Hm. unfold processTransferEvent, InsertEvent, RowsAffected. wp_go; try done. cbn [tables].
  destruct (events (tables d) !! pe_ContractID e) eqn:Hev; cbn [fst snd negb]; [by apply wp_ret|].
  set (tb := put_events _ (tables d)).
  apply (wp_logs _ _ _ tb); [apply always_wrapping, UpsertToken_logs|done|done|]. intros _ d1 Hd1.
  apply (wp_logs _ _ _ tb); [|done|done|].
  { repeat case_match; [apply always_wrapping, ApplySupplyDelta_logs|apply always_ret; apply _]. }
  intros _ d2 Hd2. apply (wp_logs _ _ _ tb); [apply always_for_each; [apply _|apply applyUpdate_logs]|done|done|].
  intros _ d3 Hd3. assert (settled_event (toEventDao e) = false -> transfers_match (tables d3)) as Hother.
  { intros Hns. apply (same_logs_match tb); [done|]. by apply match_insert_other. }
  destruct (pe_FromPartyID e) as [from|] eqn:Hf; [destruct (pe_ToPartyID e) as [to|] eqn:Ht; [case_bool_decide as Hty|]|].
  - unfold InsertTransfer. wp_go; [|done..]. cbn [tables fst snd direct_transfer tr_ContractID]. destruct Hd3 as [He3 Ht3].
    apply (match_insert_event (tables d) _ e from to); [done..| |].
    + by destruct (transfers (tables d3) !! pe_ContractID e); cbn; rewrite He3.
    + assert (transfers (tables d) = transfers (tables d3)) as -> by done. by destruct (transfers (tables d3) !! pe_ContractID e) eqn:Hold.
  - apply wp_ret. intros _. apply Hother. unfold settled_event. cbn. by rewrite bool_decide_eq_false_2.
  - apply wp_ret. intros _. apply Hother. unfold settled_event. cbn. rewrite Ht, (bool_decide_eq_false_2 (is_Some None)) by by intros [].
    apply andb_false_r.
  - apply wp_ret. intros _. apply Hother. unfold settled_event. cbn. rewrite Hf, (bool_decide_eq_false_2 (is_Some None)) by by intros [].
    by rewrite andb_false_r.
Qed.

Lemma processItem_match i d :
  offers_only i -> transfers_match (tables d) -> wp (processItem i) (fun r d' => is_ok r = true -> transfers_match (tables d')) d.
Proof.
  intros Hi Hm. destruct i as [e|t|h|]; cbn [processItem].
  - by apply processTransferEvent_match.
  - case_match.
    + unfold FinalizeTransfer. wp_go; [|done]. cbn. by apply match_finalize.
    + unfold InsertTransfer. wp_go; [|done]. cbn.
      destruct (transfers (tables d) !! tr_ContractID t) eqn:Hold; cbn; [done|]. by apply match_insert_offer.
  - eapply wp_mono; [apply processHolding_logs|]. intros r d' Hl _. exact (same_logs_match _ _ Hl Hm).
  - by apply wp_ret.
Qed.

Lemma batch_body_match b d :
  Forall offers_only (Items b) -> transfers_match (tables d) ->
  wp (batch_body b) (fun r d' => is_ok r = true -> transfers_match (tables d')) d.
Proof.
  intros Hok Hm. unfold batch_body. apply wp_bind.
  assert (wp (for_each (Items b) processItem) (fun r d' => is_ok r = true -> transfers_match (tables d')) d) as Hitems.
  { revert d Hm. induction Hok as [|i l Hi Hl IH]; intros d Hm; cbn [for_each]; [by apply wp_ret|].
    apply wp_bind. eapply wp_mono; [by apply processItem_match|]. intros [[]|e] d' Hd'; [|done]. by apply IH, Hd'. }
  eapply wp_mono; [exact Hitems|]. intros [[]|e] d1 Hd1; [|done]. unfold SaveOffset. wp_go; [|done]. by apply Hd1.
Qed.

Lemma retry_match attempts delay waits b d :
  Forall offers_only (Items b) -> transfers_match (tables d) ->
  wp (processBatchWithRetry attempts delay waits b) (fun _ d' => transfers_match (tables d')) d.
Proof.
  intros Hok. revert delay waits d. induction attempts as [|n IH]; intros delay waits d Hm; cbn; [done|].
  apply wp_bind, wp_attempt. eapply wp_mono; [apply processBatch_commit|]. intros [[]|e] d' Hd'.
  - apply wp_ret. destruct Hd' as (d0 & Hrun & ->). by apply (wp_run _ _ _ _ _ (batch_body_match b d Hok Hm) Hrun).
  - apply IH. by rewrite Hd'.
Qed.

(** The transfers of a run.  The indexer keeps the transfers table in step with
    its event log, and migration 7 hands it over in step: whatever batches the
    stream delivers and whatever fails, after a run every settled transfer of
    the event log has its row, and every direct row is that of an indexed
    event, with its parties, amount and time. *)
Theorem Run_transfers_match attempts fetch d :
  (forall o b, b ∈ fetch o -> Forall offers_only (Items b)) -> transfers_match (tables d) ->
  wp (Run attempts fetch) (fun _ d' => transfers_match (tables d')) d.
Proof.
  intros Hok Hm. unfold Run, LatestOffset. wp_go; try done. cbn [tables].
  apply (wp_for_each _ _ (fun d => transfers_match (tables d))); [done|].
  intros b d1 Hb Hd1. apply wp_bind. eapply wp_mono; [by apply retry_match; eauto|].
  intros [ws|e] d2 Hd2; [by apply wp_ret|done].
Qed.
End matching.

(** The table migration 7 leaves matches the event log. *)
Lemma migration7_match s os ts tb :
  schema_keyed s -> sources_disjoint s -> sm_offers s = Some os ->
  (forall c, ts !! c = migrated_row (sm_events s) os c) -> events tb = sm_events s -> transfers tb = ts -> transfers_match tb.
Proof.
  intros Hk Hdis Hos Hts Hev Htr. unfold transfers_match. rewrite Hev, Htr. split.
  - intros c e Hc Hs. rewrite Hts. unfold migrated_row. rewrite Hc. cbn. rewrite Hs. by destruct (os !! c).
  - intros c t. rewrite Hts. unfold migrated_row. destruct (os !! c) as [o|] eqn:Hoc; [by intros [= <-]|].
    destruct (sm_events s !! c) as [e|] eqn:Hc; [cbn|done]. destruct (settled_event e) eqn:Hs; [|done]. intros [= <-] _. by exists e.
Qed.

(** ** Migration 14 *)

(** evm_transactions with the default of its status column. *)
Record EvmSchema := mkEvmSchema {
  es_transactions : gmap (list Z) EvmTransactionDao;
  es_status_default : option Z;
}.

Definition set_txd_status (n : Z) (t : EvmTransactionDao) : EvmTransactionDao :=
  mkEvmTransactionDao (txd_TxHash t) (txd_FromAddress t) (txd_ToAddress t) (txd_Nonce t) (txd_Input t) (txd_ValueWei t) n
    (txd_BlockNumber t) (txd_BlockHash t) (txd_TxIndex t) (txd_GasUsed t) (txd_ErrorMessage t).

(** UPDATE ... SET status = 0 WHERE status = 1 AND error_message is not null and not empty *)
Definition repaired (t : EvmTransactionDao) : EvmTransactionDao :=
  if bool_decide (txd_Status t = 1) && negb (bool_decide (default ""%string (txd_ErrorMessage t) = ""%string))
  then set_txd_status 0 t else t.

Definition migration14_up : M (DB EvmSchema) unit :=
  _ ← exec (fun s => (tt, mkEvmSchema (es_transactions s) None));
  exec (fun s => (tt, mkEvmSchema (repaired <$> es_transactions s) (es_status_default s))).

Definition migration14_down : M (DB EvmSchema) unit := exec (fun s => (tt, mkEvmSchema (es_transactions s) (Some 1))).

(** What the column default made of an inserted row: the query builder wrote
    DEFAULT for a status of zero. *)
Definition clobbered (dflt : option Z) (t : EvmTransactionDao) : EvmTransactionDao :=
  if bool_decide (txd_Status t = 0) then set_txd_status (default 0 dflt) t else t.

(** A row that the miner wrote for an entry with an error message if it failed. *)
Definition mined_row (cfg : MinerConfig) (t : EvmTransactionDao) : Prop :=
  exists e number hash i, t = toEvmTransactionDao (evmTx cfg e number hash i) /\
    (succeeded e = false -> me_ErrorMessage e <> ""%string).

Lemma set_txd_status_same t : set_txd_status (txd_Status t) t = t.
Proof. by destruct t. Qed.

Lemma repaired_clobbered cfg dflt t :
  mined_row cfg t -> dflt = None \/ dflt = Some 1 -> repaired (clobbered dflt t) = t.
Proof.
  intros (e & number & hash & i & -> & Hmsg) Hd. unfold toEvmTransactionDao, evmTx. cbn. destruct (succeeded e); [done|].
  cbn. destruct (me_ErrorMessage e) as [|a m]; [by destruct (Hmsg eq_refl)|]. by destruct Hd as [-> | ->].
Qed.

(** Migration 14 restores the receipts.  On a database whose transactions are
    those the miner wrote, some of them stored while the status column had its
    default of 1 (so that every failure became a success), the migration,
    whether it is run once or again after failing, gives every transaction the
    status that the miner meant, alters nothing else and removes the default;
    and a failed attempt alters no row. *)
Theorem migration14_restores cfg txs d :
  map_Forall (fun _ t => mined_row cfg t) txs ->
  es_status_default (tables d) = None \/ es_status_default (tables d) = Some 1 ->
  (forall h t, es_transactions (tables d) !! h = Some t -> exists t0, txs !! h = Some t0 /\ (t = t0 \/ t = clobbered (Some 1) t0)) ->
  (forall h, is_Some (txs !! h) -> is_Some (es_transactions (tables d) !! h)) ->
  wp migration14_up (fun r d' => match r with
    | Ok _ => tables d' = mkEvmSchema txs None
    | Err _ => es_transactions (tables d') = es_transactions (tables d) /\
               (es_status_default (tables d') = es_status_default (tables d) \/ es_status_default (tables d') = None)
    end) d.
Proof.
  intros Hmined Hd Hrows Hall. unfold migration14_up. wp_go; [|by split; auto..|by auto]. cbn. f_equal. apply map_eq. intros h.
  rewrite lookup_fmap. destruct (es_transactions (tables d) !! h) as [t|] eqn:Ht; cbn.
  - destruct (Hrows h t Ht) as (t0 & Ht0 & Hor). rewrite Ht0. f_equal. pose proof (Hmined h t0 Ht0) as Hm.
    destruct Hor as [-> | ->]; [|by apply (repaired_clobbered cfg); auto].
    rewrite <- (repaired_clobbered cfg None t0 Hm) at 2 by auto. f_equal. unfold clobbered.
    case_bool_decide as H0; [|done]. cbn. by rewrite <- H0, set_txd_status_same.
  - destruct (txs !! h) as [t0|] eqn:Ht0; [|done]. destruct (Hall h) as [t Hx]; [by rewrite Ht0|]. congruence.
Qed.

(** ** Examples *)

Definition by_offset (t t' : TransferDao) : Prop := td_LedgerOffset t <= td_LedgerOffset t'.

#[local] Instance by_offset_dec t t' : Decision (by_offset t t') := decide (td_LedgerOffset t <= td_LedgerOffset t').

#[local] Instance by_offset_total : Total by_offset.
Proof. intros t t'. unfold by_offset. lia. Qed.

Definition example_sort : SortSlice := merge_sort by_offset.

Lemma example_sort_laws : @SortSliceLaws example_sort.
Proof. split; [intros l; apply merge_sort_Permutation|intros l; apply (Sorted_merge_sort by_offset)]. Qed.

Definition ex_offer (c status : string) : legacyOffer := mkLegacyOffer c status "bob" "alice" "reg" "USDCx" "5" 20 1 (Some 9).
Definition ex_event (c ty : string) (from : option string) : EventDao :=
  mkEventDao c "DEMO" "issuer" "issuer" ty "7" from (Some "bob"%string) None None None "tx1" 10 1 1.

Definition ex_offers : gmap string legacyOffer :=
  <["o1" := ex_offer "o1" "PENDING"]> (<["o2" := ex_offer "o2" "ACCEPTED"]> ∅).
Definition ex_schema : Schema :=
  mkSchema (<["e1" := ex_event "e1" "TRANSFER" (Some "alice")]> (<["e2" := ex_event "e2" "MINT" None]> ∅)) None (Some ex_offers).

Lemma ex_offers_lookup c o : ex_offers !! c = Some o ->
  (c = "o1"%string /\ o = ex_offer "o1" "PENDING") \/ (c = "o2"%string /\ o = ex_offer "o2" "ACCEPTED").
Proof.
  unfold ex_offers. intros [[<- <-]|[_ [[<- <-]|[_ Hc]]%lookup_insert_Some]]%lookup_insert_Some; auto. by rewrite lookup_empty in Hc.
Qed.

Lemma ex_schema_keyed : schema_keyed ex_schema.
Proof.
  split; cbn.
  - intros c e [[<- <-]|[_ [[<- <-]|[_ Hc]]%lookup_insert_Some]]%lookup_insert_Some; [done..|]. by rewrite lookup_empty in Hc.
  - intros os c o [= <-] [[-> ->]|[-> ->]]%ex_offers_lookup; done.
Qed.

Lemma ex_schema_disjoint : sources_disjoint ex_schema.
Proof. intros os c e [= <-] [o [[-> ->]|[-> ->]]%ex_offers_lookup]; cbn; by rewrite !lookup_insert_ne, lookup_empty. Qed.

(** Two failed attempts, the second at its last statement. *)
Definition ex_attempts : list (list (option string)) :=
  [[Some "down"%string]; [None; None; None; None; None; None; None; Some "down"%string]].

Lemma migration7_preserves_history_witness :
  exists ts, @migrate_until example_sort (ex_attempts ++ [[]]) ex_schema
      = Some (mkSchema (sm_events ex_schema) (Some ts) None) /\
    (td_Status <$> ts !! "o2"%string) = Some "completed"%string /\ (td_Status <$> ts !! "o1"%string) = Some "pending"%string /\
    ts !! "e2"%string = None.
Proof.
  destruct (@migration7_preserves_history example_sort example_sort_laws ex_attempts ex_schema ex_offers
    ex_schema_keyed ex_schema_disjoint eq_refl eq_refl) as (ts & Hrun & Hts).
  exists ts. split; [exact Hrun|]. split_and!; rewrite (proj1 (Hts _)); reflexivity.
Defined.

Lemma migration7_roundtrip_witness :
  exists d, @migration7_up example_sort (mkDB ex_schema []) = (Ok tt, d) /\ migration7_down d = (Ok tt, mkDB ex_schema []).
Proof.
  pose proof (@migration7_up_nofault example_sort ex_schema) as Hup. cbn [sm_offers ex_schema] in Hup.
  eexists. split; [exact Hup|].
  apply (@migration7_roundtrip example_sort example_sort_laws ex_schema ex_offers);
    [apply ex_schema_keyed|apply ex_schema_disjoint|reflexivity|reflexivity| |exact Hup].
  intros c o [[-> ->]|[-> ->]]%ex_offers_lookup; [by left|by right].
Defined.

Definition ex_miner : MinerConfig := mkMinerConfig 1 21000 100.
Definition ex_failed : EvmTransactionDao :=
  toEvmTransactionDao (evmTx ex_miner (mkMempoolEntry 1 [1] "0xa" "0xc" "0xb" 0 [] [] MempoolFailed "insufficient balance") 1 [2] 0).

Lemma migration14_restores_witness :
  tables (migration14_up (mkDB (mkEvmSchema {[ [1] := clobbered (Some 1) ex_failed ]} (Some 1)) [])).2
    = mkEvmSchema {[ [1] := ex_failed ]} None /\ txd_Status ex_failed = 0.
Proof.
  split; [|reflexivity].
  pose proof (migration14_restores ex_miner {[ [1] := ex_failed ]}
    (mkDB (mkEvmSchema {[ [1] := clobbered (Some 1) ex_failed ]} (Some 1)) [])) as Hm.
  apply Hm.
  - apply map_Forall_singleton. by eexists _, _, _, _.
  - by right.
  - cbn. intros h t [<- <-]%lookup_singleton_Some. exists ex_failed. split; [apply lookup_singleton_eq|by right].
  - cbn. intros h [t [<- <-]%lookup_singleton_Some]. by rewrite lookup_singleton_eq.
Defined.

Lemma Run_transfers_match_witness :
  transfers_match (tables (Run 1 (fun _ => [sc_batch1; sc_batch2]) (mkDB sc_empty [])).2) /\
  (td_Kind <$> transfers (tables (Run 1 (fun _ => [sc_batch1; sc_batch2]) (mkDB sc_empty [])).2) !! "e2"%string) = Some TransferKindDirect.
Proof.
  split; [|vm_compute; reflexivity].
  pose proof (Run_transfers_match 1 (fun _ => [sc_batch1; sc_batch2]) (mkDB sc_empty [])) as Hrun. unfold wp in Hrun.
  destruct (Run 1 _ (mkDB sc_empty [])) as [r d']. cbn [snd]. apply Hrun.
  - intros _ b [->|[->|[]%not_elem_of_nil]%elem_of_cons]%elem_of_cons; repeat constructor; done.
  - split; [by intros c e|by intros c t].
Defined.
