(* ===== verification/SchemaCatalog.v ===== *)
(** * SchemaCatalog: tables, indexes and the helpers of the migrations

    pkg/pgutil/migrations/migration.go over the catalog of a PostgreSQL
    database: CreateSchema, DropTables, InsertEntry, TruncateTables, the
    functions that create and drop indexes, and RunMigrations, which drives the
    migrator of the bun package.  A statement is a function of the catalog that
    may be refused; every statement may also fail with a scheduled fault. *)

From S2P Require Import Prelude AppErrors Effects GoStd UserStore.
From Stdlib Require Import Ascii String.
Local Open Scope Z_scope.

(** ** The catalog *)

(** A column as a field's tag declares it; the type is empty when it comes from
    the Go type of the field. *)
Record Column := mkColumn {
  col_Name : string;
  col_Type : string;
  col_PK : bool;
  col_NotNull : bool;
  col_Unique : bool;
  col_Default : option string;
}.
#[export] Instance Column_eq_dec : EqDecision Column.
Proof. solve_decision. Defined.

(** A model: the table of a struct and its columns. *)
Record Model := mkModel { md_Table : string; md_Columns : list Column }.

(** A table: its columns, its CHECK constraints of the form id = k by name, and
    its rows by primary key. *)
Record Table := mkTable { tb_Columns : list Column; tb_Checks : list (string * string); tb_Rows : gmap string (list (string * string)) }.
#[export] Instance Table_eq_dec : EqDecision Table.
Proof. solve_decision. Defined.

Record Index := mkIndex { ix_Table : string; ix_Columns : list string; ix_Unique : bool; ix_Where : option string }.
#[export] Instance Index_eq_dec : EqDecision Index.
Proof. solve_decision. Defined.

(** The tables, and the indexes created by name, in one name space; the ones
    that back primary keys and unique columns belong to their tables. *)
Record Catalog := mkCatalog { ct_Tables : gmap string Table; ct_Indexes : gmap string Index }.
#[export] Instance Catalog_eq_dec : EqDecision Catalog.
Proof. solve_decision. Defined.

Definition empty_catalog : Catalog := mkCatalog ∅ ∅.

Definition column_names (t : Table) : list string := col_Name <$> tb_Columns t.
Definition put_table (n : string) (t : Table) (c : Catalog) : Catalog := mkCatalog (<[n := t]> (ct_Tables c)) (ct_Indexes c).
Definition put_indexes (ixs : gmap string Index) (c : Catalog) : Catalog := mkCatalog (ct_Tables c) ixs.

Definition no_relation (n : string) : error := ErrNew ("relation " +:+ quoted n +:+ " does not exist").
Definition no_column (n : string) : error := ErrNew ("column " +:+ quoted n +:+ " does not exist").

(** ** Statements *)

Abbreviation statement := (Catalog -> result Catalog).

Definition with_table (n : string) (f : Table -> result Catalog) (c : Catalog) : result Catalog :=
  match ct_Tables c !! n with Some t => f t | None => Err (no_relation n) end.

(** CREATE TABLE IF NOT EXISTS *)
Definition pg_create_table (m : Model) : statement := fun c =>
  match ct_Tables c !! md_Table m with
  | Some _ => Ok c
  | None => Ok (put_table (md_Table m) (mkTable (md_Columns m) [] ∅) c)
  end.

(** DROP TABLE IF EXISTS ... CASCADE, which takes the table's indexes along. *)
Definition pg_drop_table (n : string) : statement := fun c =>
  match ct_Tables c !! n with
  | None => Ok c
  | Some _ => Ok (mkCatalog (delete n (ct_Tables c)) (filter (fun p => ix_Table p.2 <> n) (ct_Indexes c)))
  end.

(** CREATE [UNIQUE] INDEX IF NOT EXISTS: only the name decides whether there is
    anything to do. *)
Definition pg_create_index (name : string) (ix : Index) : statement := fun c =>
  with_table (ix_Table ix) (fun t =>
    match ct_Indexes c !! name with
    | Some _ => Ok c
    | None =>
        match List.find (fun col => negb (bool_decide (col ∈ column_names t))) (ix_Columns ix) with
        | Some col => Err (no_column col)
        | None => Ok (put_indexes (<[name := ix]> (ct_Indexes c)) c)
        end
    end) c.

(** DROP INDEX IF EXISTS *)
Definition pg_drop_index (name : string) : statement := fun c => Ok (put_indexes (delete name (ct_Indexes c)) c).

(** ALTER TABLE ... ADD CONSTRAINT name CHECK (id = key) *)
Definition pg_add_check (n name key : string) : statement := fun c =>
  with_table n (fun t =>
    if bool_decide (name ∈ (tb_Checks t).*1) then
      Err (ErrNew ("constraint " +:+ quoted name +:+ " for relation " +:+ quoted n +:+ " already exists"))
    else if bool_decide (map_Forall (fun k _ => k = key) (tb_Rows t)) then
      Ok (put_table n (mkTable (tb_Columns t) ((name, key) :: tb_Checks t) (tb_Rows t)) c)
    else Err (ErrNew ("check constraint " +:+ quoted name +:+ " is violated by some row"))) c.

(** ALTER TABLE ... ADD [COLUMN] IF NOT EXISTS *)
Definition pg_add_column (n : string) (col : Column) : statement := fun c =>
  with_table n (fun t =>
    if bool_decide (col_Name col ∈ column_names t) then Ok c
    else Ok (put_table n (mkTable (tb_Columns t ++ [col]) (tb_Checks t) (tb_Rows t)) c)) c.

(** ALTER TABLE ... DROP COLUMN, which drops the indexes over the column. *)
Definition pg_drop_column (n name : string) : statement := fun c =>
  with_table n (fun t =>
    if bool_decide (name ∈ column_names t) then
      Ok (mkCatalog
            (<[n := mkTable (List.filter (fun col => negb (bool_decide (col_Name col = name))) (tb_Columns t)) (tb_Checks t) (tb_Rows t)]> (ct_Tables c))
            (filter (fun p => ~ (ix_Table p.2 = n /\ name ∈ ix_Columns p.2)) (ct_Indexes c)))
    else Err (no_column name)) c.

(** ALTER TABLE ... ALTER COLUMN ... SET DEFAULT / DROP DEFAULT *)
Definition set_default (name : string) (v : option string) (col : Column) : Column :=
  if bool_decide (col_Name col = name) then mkColumn (col_Name col) (col_Type col) (col_PK col) (col_NotNull col) (col_Unique col) v else col.
Definition pg_alter_default (n name : string) (v : option string) : statement := fun c =>
  with_table n (fun t =>
    if bool_decide (name ∈ column_names t) then
      Ok (put_table n (mkTable (set_default name v <$> tb_Columns t) (tb_Checks t) (tb_Rows t)) c)
    else Err (no_column name)) c.

(** INSERT of one row, and with ON CONFLICT (key) DO NOTHING. *)
Definition violated (t : Table) (key : string) : bool := existsb (fun ck => negb (bool_decide (ck.2 = key))) (tb_Checks t).
Definition add_row (n key : string) (row : list (string * string)) (t : Table) : statement := fun c =>
  if violated t key then Err (ErrNew "new row violates check constraint")
  else Ok (put_table n (mkTable (tb_Columns t) (tb_Checks t) (<[key := row]> (tb_Rows t))) c).
Definition pg_insert (n key : string) (row : list (string * string)) : statement := fun c =>
  with_table n (fun t =>
    match tb_Rows t !! key with
    | Some _ => Err duplicate_key
    | None => add_row n key row t c
    end) c.
Definition pg_insert_new (n key : string) (row : list (string * string)) : statement := fun c =>
  with_table n (fun t =>
    if violated t key then Err (ErrNew "new row violates check constraint")
    else match tb_Rows t !! key with Some _ => Ok c | None => add_row n key row t c end) c.

(** DELETE of the rows whose key satisfies [P]. *)
Definition pg_delete (n : string) (P : string -> bool) : statement := fun c =>
  with_table n (fun t => Ok (put_table n (mkTable (tb_Columns t) (tb_Checks t) (filter (fun p => P p.1 = false) (tb_Rows t))) c)) c.

(** A SELECT or an UPDATE as far as the catalog goes: the table must exist. *)
Definition pg_touch (n : string) : statement := fun c => with_table n (fun _ => Ok c) c.

(** A statement run on the database. *)
Definition stmt (f : statement) : M (DB Catalog) unit :=
  exec_result (fun c => match f c with Ok c' => (Ok tt, c') | Err e => (Err e, c) end).

(** ** The helpers *)

Definition CreateSchema (models : list Model) : M (DB Catalog) unit := for_each models (fun m => stmt (pg_create_table m)).

Definition DropTables (models : list Model) : M (DB Catalog) unit := for_each models (fun m => stmt (pg_drop_table (md_Table m))).

(** An entry is a row of a model's table with its primary key. *)
Definition InsertEntry (entries : list (Model * string * list (string * string))) : M (DB Catalog) unit :=
  for_each entries (fun '(m, key, row) => stmt (pg_insert (md_Table m) key row)).

Definition TruncateTables (models : list Model) : M (DB Catalog) unit :=
  for_each models (fun m => stmt (pg_delete (md_Table m) (fun _ => true))).

Definition CreateIndex (tableName indexName columns : string) : M (DB Catalog) unit :=
  stmt (pg_create_index indexName (mkIndex tableName [columns] false None)).

(** strings.Trim with the cutset of a double quote. *)
Definition dquote : ascii := ascii_of_nat 34.
Fixpoint trim_left_quotes (s : string) : string :=
  match s with
  | EmptyString => EmptyString
  | String a s' => if bool_decide (a = dquote) then trim_left_quotes s' else s
  end.
Fixpoint trim_right_quotes (s : string) : string :=
  match s with
  | EmptyString => EmptyString
  | String a s' =>
      match trim_right_quotes s' with
      | EmptyString => if bool_decide (a = dquote) then EmptyString else String a EmptyString
      | r => String a r
      end
  end.
Definition trim_quotes (s : string) : string := trim_right_quotes (trim_left_quotes s).

Definition index_name (table column : string) : string := "idx_" +:+ table +:+ "_" +:+ column.

(** The table of an index is the name as it was passed, without the quotes the
    query builder puts around it. *)
Definition CreateIndexes (tableName : string) (columns : list string) : M (DB Catalog) unit :=
  for_each columns (fun column => CreateIndex tableName (index_name (trim_quotes tableName) column) column).

Definition CreateUniqueIndexes (tableName : string) (columns : list string) : M (DB Catalog) unit :=
  for_each columns (fun column => stmt (pg_create_index (index_name (trim_quotes tableName) column) (mkIndex tableName [column] true None))).

Definition DropIndex (indexName : string) : M (DB Catalog) unit := stmt (pg_drop_index indexName).

(** strings.NewReplacer of quotes by nothing and of dots by underscores. *)
Fixpoint index_table_name (s : string) : string :=
  match s with
  | EmptyString => EmptyString
  | String a s =>
      if bool_decide (a = dquote) then index_table_name s
      else if bool_decide (a = "."%char) then String "_" (index_table_name s)
      else String a (index_table_name s)
  end.

Definition modelIndexName (model : option Model) (column : string) : result string :=
  match model with
  | None => Err (ErrNew "model cannot be nil")
  | Some m =>
      if bool_decide (md_Table m = ""%string) then Err (ErrNew "failed to resolve table name for model")
      else Ok (index_name (index_table_name (md_Table m)) column)
  end.

(** The table a model's statement runs on. *)
Definition model_table (model : option Model) : string := from_option md_Table ""%string model.

Definition model_indexes (unique : bool) (model : option Model) (columns : list string) : M (DB Catalog) unit :=
  for_each columns (fun column =>
    indexName ← lift (modelIndexName model column);
    stmt (pg_create_index indexName (mkIndex (model_table model) [column] unique None))).
Definition CreateModelIndexes : option Model -> list string -> M (DB Catalog) unit := model_indexes false.
Definition CreateModelUniqueIndexes : option Model -> list string -> M (DB Catalog) unit := model_indexes true.

Definition DropModelIndexes (model : option Model) (columns : list string) : M (DB Catalog) unit :=
  for_each columns (fun column => indexName ← lift (modelIndexName model column); stmt (pg_drop_index indexName)).

(** ** RunMigrations *)

(** What it asks of the migrator, in order. *)
Inductive MigratorCall := Init | Lock | Unlock | Migrate | Rollback | MigrationsWithStatus.
#[export] Instance MigratorCall_eq_dec : EqDecision MigratorCall.
Proof. solve_decision. Defined.

(** The migrator of the bun package: the error of a call after the calls made
    before it. *)
Class Migrator := migrator_answer : list MigratorCall -> MigratorCall -> result unit.

(** How the command ends: it returns, or the process exits with a status. *)
Inductive CommandEnd := Returned (r : result unit) | Exited (status : Z).

(** Usage exits with status 2, before the exit of Exitf itself. *)
Definition Exitf : CommandEnd := Exited 2.

Section run.
Context `{!Migrator}.

Definition call (c : MigratorCall) : M (list MigratorCall) unit := fun h => (migrator_answer h c, h ++ [c]).

(** Under the lock; an error of the deferred Unlock is only logged. *)
Definition locked_run (c : MigratorCall) : M (list MigratorCall) unit :=
  _ ← wrapping "failed to acquire migration lock: " (call Lock);
  r ← attempt (call c);
  _ ← attempt (call Unlock);
  lift r.

Definition RunMigrations (args : list string) (h : list MigratorCall) : CommandEnd * list MigratorCall :=
  match args with
  | [] => (Exitf, h)
  | cmd :: _ =>
      let '(r, h') :=
        (if bool_decide (cmd = "init"%string) then call Init
         else if bool_decide (cmd = "up"%string) then locked_run Migrate
         else if bool_decide (cmd = "down"%string) then locked_run Rollback
         else if bool_decide (cmd = "status"%string) then call MigrationsWithStatus
         else fail (ErrNew ("unknown command: " +:+ cmd))) h in
      (Returned r, h')
  end.

(** The migrate command: the configuration, the database, then the migrations;
    log.Fatalf exits with status 1. *)
Definition migrate_main (config db : result unit) (args : list string) (h : list MigratorCall) : Z * list MigratorCall :=
  match config, db with
  | Err _, _ => (1, h)
  | Ok _, Err _ => (1, h)
  | Ok _, Ok _ =>
      match RunMigrations args h with
      | (Exited n, h') => (n, h')
      | (Returned (Ok _), h') => (0, h')
      | (Returned (Err _), h') => (match Exitf with Exited n => n | Returned _ => 1 end, h')
      end
  end.

(** The lock is held while [h] has more locks that were granted than unlocks. *)
Fixpoint balanced (held : bool) (made h : list MigratorCall) : bool :=
  match h with
  | [] => negb held
  | Lock :: h => negb held && balanced (is_ok (migrator_answer made Lock)) (made ++ [Lock]) h
  | Unlock :: h => held && balanced false (made ++ [Unlock]) h
  | (Migrate | Rollback) as c :: h => held && balanced held (made ++ [c]) h
  | c :: h => balanced held (made ++ [c]) h
  end.

(** Every call but the ones that give the lock back was answered. *)
Fixpoint answered (made h : list MigratorCall) : bool :=
  match h with
  | [] => true
  | c :: h => (bool_decide (c = Unlock) || is_ok (migrator_answer made c)) && answered (made ++ [c]) h
  end.

Definition disciplined (h : list MigratorCall) (r : result unit) (h' : list MigratorCall) : Prop :=
  exists calls, h' = h ++ calls /\ balanced false h calls = true /\ (r = Ok tt <-> calls <> [] /\ answered h calls = true).

Lemma is_ok_unit (r : result unit) : r = Ok tt <-> is_ok r = true.
Proof. destruct r as [[]|]; cbn; split; congruence. Qed.

Lemma call_disciplined c h : c <> Lock -> c <> Unlock -> c <> Migrate -> c <> Rollback -> wp (call c) (disciplined h) h.
Proof.
  intros. exists [c]. split; [done|]. split; [by destruct c|].
  cbn. rewrite bool_decide_eq_false_2, andb_true_r by done. cbn. rewrite is_ok_unit. naive_solver.
Qed.

Lemma locked_disciplined c h : c = Migrate \/ c = Rollback -> wp (locked_run c) (disciplined h) h.
Proof.
  intros Hc. unfold locked_run, call. apply wp_bind, wp_wrapping. unfold wp. destruct (migrator_answer h Lock) as [[]|e] eqn:Hl; cbn.
  - exists [Lock; c; Unlock]. rewrite <- !app_assoc. split; [done|]. cbn. rewrite Hl. split.
    + destruct Hc; subst c; done.
    + rewrite is_ok_unit. destruct Hc; subst c; cbn; rewrite !andb_true_r; naive_solver.
  - exists [Lock]. split; [done|]. cbn. rewrite Hl. naive_solver.
Qed.

(** The lock discipline of the command: migrations are applied and reverted
    only under the lock, the lock is asked for at most once and given back
    exactly when it was granted, whatever the migrator answers; and the
    process ends with status 0 exactly when there was something to do and every
    call was answered, that of giving the lock back apart. *)
Theorem RunMigrations_locking args h : exists calls,
  (RunMigrations args h).2 = h ++ calls /\ balanced false h calls = true /\
  ((migrate_main (Ok tt) (Ok tt) args h).1 = 0 <-> calls <> [] /\ answered h calls = true).
Proof.
  unfold migrate_main, RunMigrations. destruct args as [|cmd args].
  { exists []. rewrite app_nil_r. split; [done|]. split; [done|]. split; [done|naive_solver]. }
  set (body := if bool_decide (cmd = "init"%string) then _ else _).
  assert (Hb : wp body (disciplined h) h).
  { unfold body. repeat case_bool_decide; try (apply call_disciplined; done); try (apply locked_disciplined; auto).
    exists []. rewrite app_nil_r. split; [done|]. split; [done|]. split; [done|naive_solver]. }
  unfold wp in Hb. destruct (body h) as [r h']. destruct Hb as (calls & -> & Hbal & Hr).
  exists calls. split; [done|]. split; [done|]. rewrite <- Hr. destruct r as [[]|]; cbn; naive_solver.
Qed.
End run.

(** ** Scripts *)

(** Statements one after another until one is refused. *)
Fixpoint apply_script (l : list statement) (c : Catalog) : result unit * Catalog :=
  match l with
  | [] => (Ok tt, c)
  | f :: l => match f c with Ok c' => apply_script l c' | Err e => (Err e, c) end
  end.

(** A computation that runs the statements of a script and nothing else. *)
Definition runs (m : M (DB Catalog) unit) (l : list statement) : Prop := forall d, m d = for_each l stmt d.

Lemma for_each_app {W X} (l1 l2 : list X) (body : X -> M W unit) w :
  for_each (l1 ++ l2) body w = (_ ← for_each l1 body; for_each l2 body) w.
Proof.
  revert w. induction l1 as [|x l1 IH]; intros w; [done|].
  cbn. unfold mbind, M_bind. destruct (body x w) as [[[]|e] w']; [|done]. apply IH.
Qed.

Lemma runs_stmt f : runs (stmt f) [f].
Proof.
  intros d. cbn. unfold mbind, M_bind. destruct (stmt f d) as [[[]|e] d']; done.
Qed.

Lemma runs_bind m1 m2 l1 l2 : runs m1 l1 -> runs m2 l2 -> runs (_ ← m1; m2) (l1 ++ l2).
Proof.
  intros H1 H2 d. rewrite for_each_app. unfold mbind, M_bind. rewrite H1. destruct (for_each l1 stmt d) as [[[]|e] d']; [apply H2|done].
Qed.

Lemma runs_for_each {X} (xs : list X) (body : X -> M (DB Catalog) unit) (f : X -> statement) :
  (forall x, runs (body x) [f x]) -> runs (for_each xs body) (f <$> xs).
Proof.
  intros Hb. induction xs as [|x xs IH]; [done|]. exact (runs_bind (body x) (for_each xs body) [f x] (f <$> xs) (Hb x) IH).
Qed.

Lemma runs_CreateSchema models : runs (CreateSchema models) (pg_create_table <$> models).
Proof. apply runs_for_each. intros m. apply runs_stmt. Qed.

Lemma runs_DropTables models : runs (DropTables models) ((fun m => pg_drop_table (md_Table m)) <$> models).
Proof. apply runs_for_each. intros m. apply runs_stmt. Qed.

(** The index that CreateModelIndexes asks for. *)
Definition model_index (unique : bool) (m : Model) (column : string) : statement :=
  pg_create_index (index_name (index_table_name (md_Table m)) column) (mkIndex (md_Table m) [column] unique None).

Lemma runs_model_indexes unique m columns : md_Table m <> ""%string ->
  runs (model_indexes unique (Some m) columns) (model_index unique m <$> columns).
Proof.
  intros Hm. apply runs_for_each. intros column d. cbn [modelIndexName]. rewrite bool_decide_eq_false_2 by done.
  apply runs_stmt.
Qed.

Lemma stmt_run f d : exists fs,
  stmt f d = (match f (tables d) with Ok _ => Ok tt | Err e => Err e end, mkDB (match f (tables d) with Ok c => c | Err _ => tables d end) fs) \/
  (exists e, stmt f d = (Err e, mkDB (tables d) fs)).
Proof.
  unfold stmt, exec_result, exec, mbind, M_bind. destruct (faults d) as [|[m|] fs].
  - exists []. left. destruct (f (tables d)); done.
  - exists fs. right. eauto.
  - exists fs. left. destruct (f (tables d)); done.
Qed.

Lemma stmt_nofault f c :
  stmt f (mkDB c []) = (match f c with Ok _ => Ok tt | Err e => Err e end, mkDB (match f c with Ok c' => c' | Err _ => c end) []).
Proof. unfold stmt, exec_result, exec, mbind, M_bind. cbn. destruct (f c); done. Qed.

Lemma script_nofault l c : for_each l stmt (mkDB c []) = ((apply_script l c).1, mkDB (apply_script l c).2 []).
Proof.
  revert c. induction l as [|f l IH]; intros c; [done|].
  cbn. unfold mbind, M_bind. rewrite stmt_nofault. destruct (f c); [apply IH|done].
Qed.

Lemma apply_script_app l1 l2 c :
  apply_script (l1 ++ l2) c = match apply_script l1 c with (Ok _, c') => apply_script l2 c' | r => r end.
Proof. revert c. induction l1 as [|f l1 IH]; intros c; [done|]. cbn. destruct (f c); [apply IH|done]. Qed.

(** Whatever fails, a prefix of the script has been applied. *)
Lemma script_prefix l d : exists l1 l2, l = l1 ++ l2 /\ apply_script l1 (tables d) = (Ok tt, tables (for_each l stmt d).2).
Proof.
  revert d. induction l as [|f l IH]; intros d; [by exists [], []|].
  cbn. unfold mbind, M_bind. destruct (stmt_run f d) as (fs & [Hs|[e Hs]]); rewrite Hs; [|by exists [], (f :: l)].
  destruct (f (tables d)) as [c'|e] eqn:Hf; [|by exists [], (f :: l)].
  destruct (IH (mkDB c' fs)) as (l1 & l2 & -> & Ha). exists (f :: l1), l2. split; [done|]. cbn. by rewrite Hf.
Qed.

(** ** Resuming *)

(** A catalog with more in it. *)
Definition table_grows (t t' : Table) : Prop :=
  (forall n, n ∈ column_names t -> n ∈ column_names t') /\ (forall k, is_Some (tb_Rows t !! k) -> is_Some (tb_Rows t' !! k)) /\ tb_Checks t' = tb_Checks t.
Definition grows (c c' : Catalog) : Prop :=
  (forall n t, ct_Tables c !! n = Some t -> exists t', ct_Tables c' !! n = Some t' /\ table_grows t t') /\
  (forall n, is_Some (ct_Indexes c !! n) -> is_Some (ct_Indexes c' !! n)).

#[export] Instance table_grows_preorder : PreOrder table_grows.
Proof.
  split; [by intros t; repeat split|]. intros t1 t2 t3 (Hc & Hr & Hk) (Hc' & Hr' & Hk').
  repeat split; [auto|auto|congruence].
Qed.
#[export] Instance grows_preorder : PreOrder grows.
Proof.
  split.
  - intros c. split; [|done]. intros n t Ht. eexists. split; [done|reflexivity].
  - intros c1 c2 c3 [Ht Hi] [Ht' Hi']. split; [|auto].
    intros n t Hn. destruct (Ht n t Hn) as (t2 & Hn2 & Hg). destruct (Ht' n t2 Hn2) as (t3 & Hn3 & Hg').
    exists t3. split; [done|by transitivity t2].
Qed.

(** A statement that only adds, and has nothing to do once [P] holds, which it
    establishes and further additions keep. *)
Record adds (f : statement) (P : Catalog -> Prop) : Prop := {
  adds_grows c c' : f c = Ok c' -> grows c c';
  adds_done c c' : f c = Ok c' -> P c';
  adds_noop c : P c -> f c = Ok c;
  adds_stays c c' : grows c c' -> P c -> P c';
}.
Definition additive (f : statement) : Prop := exists P, adds f P.

(** A script of additive statements can be run again from where it stopped:
    what was applied has nothing left to do. *)
Lemma additive_noop l c c' : Forall additive l -> apply_script l c = (Ok tt, c') ->
  grows c c' /\ forall c2, grows c' c2 -> apply_script l c2 = (Ok tt, c2).
Proof.
  intros Hl. revert c. induction Hl as [|f l [P Hf] Hl IH]; intros c Hc; cbn in *.
  - inversion Hc; subst. split; [reflexivity|done].
  - destruct (f c) as [c1|e] eqn:Hfc; [|done]. destruct (IH c1 Hc) as [Hg Hn].
    split; [transitivity c1; [by eapply adds_grows|done]|]. intros c2 Hg2.
    rewrite (adds_noop f P Hf); [by apply Hn|].
    eapply (adds_stays f P Hf c1); [by transitivity c'|by eapply adds_done].
Qed.

Lemma additive_resumes l1 l2 c c' : Forall additive (l1 ++ l2) -> apply_script l1 c = (Ok tt, c') ->
  apply_script (l1 ++ l2) c' = apply_script (l1 ++ l2) c.
Proof.
  intros [Hl _]%Forall_app Hc. rewrite !apply_script_app, Hc.
  destruct (additive_noop l1 c c' Hl Hc) as [_ Hn]. by rewrite (Hn c' (reflexivity _)).
Qed.

(** The tables after runs of [m] that met the faults of [attempts]. *)
Definition after_attempts (m : M (DB Catalog) unit) (attempts : list (list (option string))) (c : Catalog) : Catalog :=
  fold_left (fun c fs => tables (m (mkDB c fs)).2) attempts c.

Lemma runs_resume m l attempts c : runs m l -> Forall additive l ->
  m (mkDB (after_attempts m attempts c) []) = m (mkDB c []).
Proof.
  intros Hm Hl. rewrite !Hm, !script_nofault.
  assert (Ha : apply_script l (after_attempts m attempts c) = apply_script l c); [|by rewrite Ha].
  unfold after_attempts. revert c. induction attempts as [|fs attempts IH]; intros c; [done|].
  cbn. rewrite IH, Hm. destruct (script_prefix l (mkDB c fs)) as (l1 & l2 & -> & Hp). by apply additive_resumes.
Qed.

Definition table_exists (n : string) (c : Catalog) : Prop := is_Some (ct_Tables c !! n).

Lemma with_table_ok n f c c' : with_table n f c = Ok c' -> exists t, ct_Tables c !! n = Some t /\ f t = Ok c'.
Proof. unfold with_table. destruct (ct_Tables c !! n); [eauto|done]. Qed.

Lemma grows_exists n c c' : grows c c' -> table_exists n c -> table_exists n c'.
Proof. intros [Ht _] [t Hn]. destruct (Ht n t Hn) as (t' & ? & _). by exists t'. Qed.

Lemma put_table_grows n t t' c : ct_Tables c !! n = Some t -> table_grows t t' -> grows c (put_table n t' c).
Proof.
  intros Hn Hg. split; [|done]. intros n' t1 Hn'. cbn. destruct (decide (n' = n)) as [->|Hne].
  - rewrite Hn in Hn'. inversion Hn'; subst t1. exists t'. by rewrite lookup_insert_eq.
  - exists t1. by rewrite lookup_insert_ne.
Qed.

Lemma additive_create_table m : additive (pg_create_table m).
Proof.
  exists (table_exists (md_Table m)). split.
  - intros c c'. unfold pg_create_table. destruct (ct_Tables c !! md_Table m) eqn:Hm; intros [= <-]; [reflexivity|].
    split; [|done]. intros n t Hn. exists t. cbn. rewrite lookup_insert_ne by congruence. done.
  - intros c c'. unfold pg_create_table, table_exists. destruct (ct_Tables c !! md_Table m) eqn:Hm; intros [= <-]; [by rewrite Hm|].
    cbn. by rewrite lookup_insert_eq.
  - intros c [t Ht]. unfold pg_create_table. by rewrite Ht.
  - intros c c'. apply grows_exists.
Qed.

Lemma additive_create_index name ix : additive (pg_create_index name ix).
Proof.
  exists (fun c => table_exists (ix_Table ix) c /\ is_Some (ct_Indexes c !! name)). split.
  - intros c c' (t & Ht & Hf)%with_table_ok. destruct (ct_Indexes c !! name) eqn:Hn; [by inversion Hf|].
    destruct (List.find _ _) in Hf; [done|]. inversion Hf; subst c'. split; [intros n t' Hn'; by exists t'|].
    intros n Hi. cbn. destruct (decide (n = name)) as [->|]; [by rewrite lookup_insert_eq|by rewrite lookup_insert_ne].
  - intros c c' (t & Ht & Hf)%with_table_ok. destruct (ct_Indexes c !! name) eqn:Hn.
    + inversion Hf; subst. split; by eexists.
    + destruct (List.find _ _) in Hf; [done|]. inversion Hf; subst c'. split; [by eexists|]. cbn. by rewrite lookup_insert_eq.
  - intros c [[t Ht] [i Hi]]. unfold pg_create_index, with_table. by rewrite Ht, Hi.
  - intros c c' Hg [Ht Hi]. split; [by eapply grows_exists|]. destruct Hg as [_ Hg]. auto.
Qed.

Lemma additive_add_column n col : additive (pg_add_column n col).
Proof.
  exists (fun c => exists t, ct_Tables c !! n = Some t /\ col_Name col ∈ column_names t). split.
  - intros c c' (t & Ht & Hf)%with_table_ok. case_bool_decide; inversion Hf; subst c'; [reflexivity|].
    eapply put_table_grows; [done|]. repeat split; [|done]. intros x Hx. unfold column_names in *. cbn. set_solver.
  - intros c c' (t & Ht & Hf)%with_table_ok. case_bool_decide; inversion Hf; subst c'; [by exists t|].
    eexists. cbn. rewrite lookup_insert_eq. split; [done|]. unfold column_names. cbn. set_solver.
  - intros c (t & Ht & Hc). unfold pg_add_column, with_table. by rewrite Ht, bool_decide_eq_true_2.
  - intros c c' [Hg _] (t & Ht & Hc). destruct (Hg n t Ht) as (t' & Ht' & Hcols & _). exists t'. auto.
Qed.

Lemma additive_insert_new n key row : additive (pg_insert_new n key row).
Proof.
  exists (fun c => exists t, ct_Tables c !! n = Some t /\ violated t key = false /\ is_Some (tb_Rows t !! key)). split.
  - intros c c' (t & Ht & Hf)%with_table_ok. unfold add_row in Hf. destruct (violated t key) eqn:Hv; [done|].
    destruct (tb_Rows t !! key); inversion Hf; subst c'; [reflexivity|].
    eapply put_table_grows; [done|]. repeat split; [done|]. intros k Hk. cbn.
    destruct (decide (k = key)) as [->|]; [by rewrite lookup_insert_eq|by rewrite lookup_insert_ne].
  - intros c c' (t & Ht & Hf)%with_table_ok. unfold add_row in Hf. destruct (violated t key) eqn:Hv; [done|].
    destruct (tb_Rows t !! key) eqn:Hr; inversion Hf; subst c'; [by exists t|].
    eexists. cbn. rewrite lookup_insert_eq. split; [done|]. split; [exact Hv|]. cbn. by rewrite lookup_insert_eq.
  - intros c (t & Ht & Hv & [r Hr]). unfold pg_insert_new, with_table. by rewrite Ht, Hv, Hr.
  - intros c c' [Hg _] (t & Ht & Hv & Hr). destruct (Hg n t Ht) as (t' & Ht' & _ & Hrows & Hck).
    exists t'. split; [done|]. split; [|auto]. unfold violated in *. by rewrite Hck.
Qed.

#[export] Hint Resolve additive_create_table additive_create_index additive_add_column additive_insert_new : canton.

(** ** The invariant of the catalog *)

(** Every index is over columns that its table has. *)
Definition catalog_wf (c : Catalog) : Prop := forall name ix, ct_Indexes c !! name = Some ix ->
  exists t, ct_Tables c !! ix_Table ix = Some t /\ forall col, col ∈ ix_Columns ix -> col ∈ column_names t.

Definition keeps_wf (f : statement) : Prop := forall c c', catalog_wf c -> f c = Ok c' -> catalog_wf c'.

Lemma put_table_wf n t t' c : ct_Tables c !! n = Some t -> (forall x, x ∈ column_names t -> x ∈ column_names t') ->
  catalog_wf c -> catalog_wf (put_table n t' c).
Proof.
  intros Ht Hcols Hwf name ix Hix. destruct (Hwf name ix Hix) as (t1 & Ht1 & Hc). cbn. destruct (decide (n = ix_Table ix)) as [->|].
  - rewrite Ht in Ht1. inversion Ht1; subst t1. exists t'. rewrite lookup_insert_eq. auto.
  - exists t1. rewrite lookup_insert_ne by done. auto.
Qed.

Lemma keeps_create_table m : keeps_wf (pg_create_table m).
Proof.
  intros c c' Hwf. unfold pg_create_table. destruct (ct_Tables c !! md_Table m) as [t0|] eqn:Hm; intros [= <-]; [done|].
  intros name ix Hix. destruct (Hwf name ix Hix) as (t & Ht & Hc). exists t. cbn. rewrite lookup_insert_ne by congruence. auto.
Qed.

Lemma keeps_drop_table n : keeps_wf (pg_drop_table n).
Proof.
  intros c c' Hwf. unfold pg_drop_table. destruct (ct_Tables c !! n) as [t0|] eqn:Hm; intros [= <-]; [|done].
  intros name ix [Hix Hne]%map_lookup_filter_Some. destruct (Hwf name ix Hix) as (t & Ht & Hc).
  exists t. cbn in *. rewrite lookup_delete_ne by congruence. auto.
Qed.

Lemma keeps_create_index name ix : keeps_wf (pg_create_index name ix).
Proof.
  intros c c' Hwf (t & Ht & Hf)%with_table_ok. destruct (ct_Indexes c !! name) eqn:Hn; [by inversion Hf; subst|].
  match type of Hf with context [List.find ?g ?l] => destruct (List.find g l) eqn:Hfind end; [done|]. inversion Hf; subst c'. intros name' ix'. cbn.
  destruct (decide (name' = name)) as [->|]; [rewrite lookup_insert_eq; intros [= <-]|rewrite lookup_insert_ne by done; apply Hwf].
  exists t. split; [done|]. intros col Hcol. apply list_elem_of_In in Hcol.
  pose proof (find_none _ _ Hfind col Hcol) as Hb. apply negb_false_iff in Hb. by apply bool_decide_eq_true_1 in Hb.
Qed.

Lemma keeps_drop_index name : keeps_wf (pg_drop_index name).
Proof. intros c c' Hwf [= <-] name' ix Hix. cbn in Hix. apply lookup_delete_Some in Hix as [_ Hix]. by eapply Hwf. Qed.

Lemma keeps_add_check n name key : keeps_wf (pg_add_check n name key).
Proof.
  intros c c' Hwf (t & Ht & Hf)%with_table_ok. repeat case_bool_decide; inversion Hf; subst. by eapply put_table_wf.
Qed.

Lemma keeps_add_column n col : keeps_wf (pg_add_column n col).
Proof.
  intros c c' Hwf (t & Ht & Hf)%with_table_ok. case_bool_decide; inversion Hf; subst; [done|].
  eapply put_table_wf; [done| |done]. unfold column_names. cbn. set_solver.
Qed.

Lemma keeps_alter_default n name v : keeps_wf (pg_alter_default n name v).
Proof.
  intros c c' Hwf (t & Ht & Hf)%with_table_ok. case_bool_decide; inversion Hf; subst.
  eapply put_table_wf; [done| |done]. intros x. unfold column_names. cbn. rewrite <- list_fmap_compose.
  rewrite !list_elem_of_fmap. intros (col & -> & Hc). exists col. split; [|done]. unfold compose, set_default. by case_bool_decide.
Qed.

Lemma keeps_drop_column n name : keeps_wf (pg_drop_column n name).
Proof.
  intros c c' Hwf (t & Ht & Hf)%with_table_ok. case_bool_decide; inversion Hf; subst.
  intros name' ix [Hix Hne]%map_lookup_filter_Some. destruct (Hwf name' ix Hix) as (t1 & Ht1 & Hc). cbn in *.
  destruct (decide (n = ix_Table ix)) as [->|]; [|exists t1; by rewrite lookup_insert_ne].
  rewrite Ht in Ht1. inversion Ht1; subst t1. eexists. rewrite lookup_insert_eq. split; [done|]. intros col Hcol.
  unfold column_names in *. cbn. specialize (Hc col Hcol). apply list_elem_of_fmap in Hc as (k & -> & Hk).
  apply list_elem_of_fmap. exists k. split; [done|]. apply list_elem_of_In, filter_In. split; [by apply list_elem_of_In|].
  apply negb_true_iff, bool_decide_eq_false. intros Hk'. apply Hne. by rewrite <- Hk'.
Qed.

Lemma keeps_insert n key row : keeps_wf (pg_insert n key row).
Proof.
  intros c c' Hwf (t & Ht & Hf)%with_table_ok. unfold add_row in Hf.
  destruct (tb_Rows t !! key), (violated t key); inversion Hf; subst. by eapply put_table_wf.
Qed.

Lemma keeps_insert_new n key row : keeps_wf (pg_insert_new n key row).
Proof.
  intros c c' Hwf (t & Ht & Hf)%with_table_ok. unfold add_row in Hf.
  destruct (violated t key), (tb_Rows t !! key); inversion Hf; subst; [done|]. by eapply put_table_wf.
Qed.

Lemma keeps_delete n P : keeps_wf (pg_delete n P).
Proof. intros c c' Hwf (t & Ht & [= <-])%with_table_ok. by eapply put_table_wf. Qed.

Lemma keeps_touch n : keeps_wf (pg_touch n).
Proof. intros c c' Hwf (t & Ht & [= <-])%with_table_ok. done. Qed.

#[export] Hint Resolve keeps_create_table keeps_drop_table keeps_create_index keeps_drop_index keeps_add_check keeps_add_column
  keeps_alter_default keeps_drop_column keeps_insert keeps_insert_new keeps_delete keeps_touch : canton.

(** Scripts keep the invariant, however far they get. *)
Lemma script_keeps_wf l d : Forall keeps_wf l -> catalog_wf (tables d) -> catalog_wf (tables (for_each l stmt d).2).
Proof.
  intros Hl Hwf. destruct (script_prefix l d) as (l1 & l2 & -> & Hp). apply Forall_app in Hl as [Hl _].
  revert Hwf Hp. generalize (tables (for_each (l1 ++ l2) stmt d).2) as c2. generalize (tables d) as c.
  induction Hl as [|f l1 Hf Hl IH]; intros c c2 Hwf Hp; cbn in Hp; [by inversion Hp; subst|].
  destruct (f c) as [c1|e] eqn:Hfc; [|done]. apply (IH c1 c2); [by apply (Hf c c1)|done].
Qed.

(** ** Creating and dropping a table *)

(** The indexes of the other tables. *)
Definition other_indexes (n : string) (c : Catalog) : gmap string Index := filter (fun p => ix_Table p.2 <> n) (ct_Indexes c).

Lemma create_index_aside name ix c c' : pg_create_index name ix c = Ok c' ->
  ct_Tables c' = ct_Tables c /\ other_indexes (ix_Table ix) c' = other_indexes (ix_Table ix) c.
Proof.
  intros (t & Ht & Hf)%with_table_ok. destruct (ct_Indexes c !! name) eqn:Hn; [by inversion Hf; subst|].
  destruct (List.find _ _) in Hf; [done|]. inversion Hf; subst c'. split; [done|]. unfold other_indexes. cbn.
  rewrite map_filter_insert_False by (cbn; tauto). by rewrite delete_id.
Qed.

Lemma model_indexes_aside m columns c c' : apply_script (model_index false m <$> columns) c = (Ok tt, c') ->
  ct_Tables c' = ct_Tables c /\ other_indexes (md_Table m) c' = other_indexes (md_Table m) c.
Proof.
  revert c. induction columns as [|x columns IH]; intros c Hl; cbn in Hl; [by inversion Hl; subst|].
  destruct (model_index false m x c) as [c1|e] eqn:Hx; [|done]. apply create_index_aside in Hx as [Ht Hi].
  destruct (IH c1 Hl) as [-> ->]. done.
Qed.

(** DropTables undoes a migration that creates a table with its indexes. *)
Lemma drop_undoes_create m columns c c' : catalog_wf c -> ct_Tables c !! md_Table m = None ->
  apply_script (pg_create_table m :: (model_index false m <$> columns)) c = (Ok tt, c') ->
  pg_drop_table (md_Table m) c' = Ok c.
Proof.
  intros Hwf Hm Hc. cbn in Hc. unfold pg_create_table in Hc. rewrite Hm in Hc.
  destruct (model_indexes_aside m columns _ c' Hc) as [Ht Hi]. unfold pg_drop_table, other_indexes in *. rewrite Ht, Hi. cbn.
  rewrite lookup_insert_eq, delete_insert_id by done. rewrite map_filter_id; [by destruct c|].
  intros name ix Hix Heq. destruct (Hwf name ix Hix) as (t & Hix' & _). cbn in Heq. congruence.
Qed.
