(* ===== verification/SchemaMigrations.v ===== *)
(** * SchemaMigrations: the migrations of the three databases

    pkg/migrations/apidb, indexerdb and relayerdb over the catalog of
    [SchemaCatalog]: the tables of the models, their indexes, constraints and
    first rows, up and down, in the order of the files' numbers.  The rows that
    migrations 7 of the indexer and 14 of the API server move are the subject
    of Migrations; here these two are the changes they make to the catalog. *)

From S2P Require Import Prelude AppErrors Effects GoStd UserStore SchemaCatalog.
From Stdlib Require Import Ascii String.
Local Open Scope Z_scope.

(** ** The models *)

(** userstore/model.go *)

Definition userDao_model : Model := mkModel "users" [
  mkColumn "id" "" true false false None;
  mkColumn "evm_address" "varchar(42)" false true true None;
  mkColumn "canton_party" "varchar(255)" false true false None;
  mkColumn "fingerprint" "varchar(128)" false true false None;
  mkColumn "mapping_cid" "varchar(255)" false false false None;
  mkColumn "created_at" "" false false false (Some "current_timestamp");
  mkColumn "canton_party_id" "varchar(255)" false false false None;
  mkColumn "canton_private_key_encrypted" "text" false false false None;
  mkColumn "canton_key_created_at" "" false false false None;
  mkColumn "key_mode" "varchar(20)" false true false (Some "'custodial'");
  mkColumn "canton_public_key_fingerprint" "text" false false false None].

Definition whitelistDao_model : Model := mkModel "whitelist" [
  mkColumn "evm_address" "varchar(42)" true false false None;
  mkColumn "note" "varchar(500)" false false false None;
  mkColumn "created_at" "" false false false (Some "current_timestamp")].

(** reconciler/store/model.go *)

Definition tokenMetricsDao_model : Model := mkModel "token_metrics" [
  mkColumn "token_symbol" "varchar(20)" true true false None;
  mkColumn "total_supply" "numeric(38,18)" false true false (Some "'0'");
  mkColumn "last_reconciled_at" "" false false false None;
  mkColumn "updated_at" "" false true false (Some "current_timestamp")].

Definition bridgeEventDao_model : Model := mkModel "bridge_events" [
  mkColumn "id" "" true false false None;
  mkColumn "event_type" "varchar(20)" false true false None;
  mkColumn "contract_id" "varchar(255)" false true true None;
  mkColumn "fingerprint" "varchar(128)" false false false None;
  mkColumn "recipient_fingerprint" "varchar(128)" false false false None;
  mkColumn "amount" "numeric(38,18)" false true false None;
  mkColumn "evm_tx_hash" "varchar(66)" false false false None;
  mkColumn "evm_destination" "varchar(42)" false false false None;
  mkColumn "token_symbol" "varchar(20)" false false false None;
  mkColumn "canton_timestamp" "" false false false None;
  mkColumn "processed_at" "" false true false (Some "current_timestamp")].

Definition reconciliationStateDao_model : Model := mkModel "reconciliation_state" [
  mkColumn "id" "" true true false None;
  mkColumn "last_processed_offset" "" false true false (Some "0");
  mkColumn "last_full_reconcile_at" "" false false false None;
  mkColumn "events_processed" "" false true false (Some "0");
  mkColumn "updated_at" "" false true false (Some "current_timestamp")].

Definition userTokenBalanceDao_model : Model := mkModel "user_token_balances" [
  mkColumn "id" "" true false false None;
  mkColumn "fingerprint" "varchar(128)" false false false None;
  mkColumn "token_symbol" "varchar(20)" false true false None;
  mkColumn "evm_address" "varchar(42)" false false false None;
  mkColumn "canton_party_id" "varchar(255)" false false false None;
  mkColumn "balance" "numeric(38,18)" false true false (Some "'0'");
  mkColumn "updated_at" "" false true false (Some "current_timestamp")].

(** ethrpc/store/model.go *)

Definition evmTransactionDao_model : Model := mkModel "evm_transactions" [
  mkColumn "tx_hash" "bytea" true true false None;
  mkColumn "from_address" "text" false true false None;
  mkColumn "to_address" "text" false true false None;
  mkColumn "nonce" "" false true false None;
  mkColumn "input" "bytea" false true false None;
  mkColumn "value_wei" "text" false true false (Some "'0'");
  mkColumn "status" "smallint" false true false None;
  mkColumn "block_number" "" false true false None;
  mkColumn "block_hash" "bytea" false true false None;
  mkColumn "tx_index" "" false true false (Some "0");
  mkColumn "gas_used" "" false true false (Some "21000");
  mkColumn "error_message" "text" false false false None;
  mkColumn "created_at" "" false true false (Some "current_timestamp")].

Definition evmStateDao_model : Model := mkModel "evm_state" [
  mkColumn "id" "" true false false None;
  mkColumn "latest_block" "" false true false (Some "0")].

Definition evmLogDao_model : Model := mkModel "evm_logs" [
  mkColumn "tx_hash" "bytea" true true false None;
  mkColumn "log_index" "" true true false None;
  mkColumn "address" "bytea" false true false None;
  mkColumn "topic0" "bytea" false false false None;
  mkColumn "topic1" "bytea" false false false None;
  mkColumn "topic2" "bytea" false false false None;
  mkColumn "topic3" "bytea" false false false None;
  mkColumn "data" "bytea" false false false None;
  mkColumn "block_number" "" false true false None;
  mkColumn "block_hash" "bytea" false true false None;
  mkColumn "tx_index" "" false true false (Some "0");
  mkColumn "removed" "" false true false (Some "false");
  mkColumn "block_timestamp" "" false true false (Some "0")].

Definition mempoolEntryDao_model : Model := mkModel "mempool" [
  mkColumn "id" "" true false false None;
  mkColumn "tx_hash" "bytea" false true true None;
  mkColumn "from_address" "text" false true false None;
  mkColumn "contract_address" "text" false true false None;
  mkColumn "recipient_address" "text" false true false None;
  mkColumn "nonce" "" false true false None;
  mkColumn "input" "bytea" false true false None;
  mkColumn "amount_data" "bytea" false true false None;
  mkColumn "status" "text" false true false (Some "'pending'");
  mkColumn "error_message" "text" false false false None;
  mkColumn "created_at" "" false true false (Some "current_timestamp");
  mkColumn "updated_at" "" false true false (Some "current_timestamp")].

(** indexer/store/model.go *)

Definition indexer_EventDao_model : Model := mkModel "indexer_events" [
  mkColumn "contract_id" "varchar(255)" true false false None;
  mkColumn "instrument_id" "varchar(255)" false true false None;
  mkColumn "instrument_admin" "varchar(255)" false true false None;
  mkColumn "issuer" "varchar(255)" false true false None;
  mkColumn "event_type" "varchar(20)" false true false None;
  mkColumn "amount" "text" false true false None;
  mkColumn "from_party_id" "varchar(255)" false false false None;
  mkColumn "to_party_id" "varchar(255)" false false false None;
  mkColumn "external_tx_id" "varchar(255)" false false false None;
  mkColumn "external_address" "varchar(255)" false false false None;
  mkColumn "fingerprint" "varchar(255)" false false false None;
  mkColumn "tx_id" "varchar(255)" false true false None;
  mkColumn "ledger_offset" "" false true false None;
  mkColumn "timestamp" "" false true false None;
  mkColumn "effective_time" "" false true false None].

Definition indexer_TokenDao_model : Model := mkModel "indexer_tokens" [
  mkColumn "instrument_admin" "varchar(255)" true false false None;
  mkColumn "instrument_id" "varchar(255)" true false false None;
  mkColumn "issuer" "varchar(255)" false true false None;
  mkColumn "total_supply" "text" false true false (Some "'0'");
  mkColumn "holder_count" "" false true false (Some "0");
  mkColumn "first_seen_offset" "" false true false None;
  mkColumn "first_seen_at" "" false true false None].

Definition indexer_BalanceDao_model : Model := mkModel "indexer_balances" [
  mkColumn "party_id" "varchar(255)" true false false None;
  mkColumn "instrument_admin" "varchar(255)" true false false None;
  mkColumn "instrument_id" "varchar(255)" true false false None;
  mkColumn "amount" "text" false true false None].

Definition indexer_OffsetDao_model : Model := mkModel "indexer_offsets" [
  mkColumn "id" "" true false false (Some "1");
  mkColumn "ledger_offset" "" false true false (Some "0")].

Definition indexer_HoldingDao_model : Model := mkModel "indexer_holdings" [
  mkColumn "contract_id" "varchar(255)" true false false None;
  mkColumn "owner" "varchar(255)" false true false None;
  mkColumn "instrument_admin" "varchar(255)" false true false None;
  mkColumn "instrument_id" "varchar(255)" false true false None;
  mkColumn "amount" "text" false true false None;
  mkColumn "ledger_offset" "" false true false None].

Definition indexer_TransferDao_model : Model := mkModel "indexer_transfers" [
  mkColumn "contract_id" "varchar(255)" true false false None;
  mkColumn "kind" "varchar(20)" false true false None;
  mkColumn "status" "varchar(20)" false true false None;
  mkColumn "from_party_id" "varchar(255)" false true false None;
  mkColumn "to_party_id" "varchar(255)" false true false None;
  mkColumn "instrument_admin" "varchar(255)" false true false None;
  mkColumn "instrument_id" "varchar(255)" false true false None;
  mkColumn "amount" "text" false true false None;
  mkColumn "expires_at" "" false false false None;
  mkColumn "tx_id" "varchar(255)" false false false None;
  mkColumn "ledger_offset" "" false true false None;
  mkColumn "created_at" "" false true false None].

(** migrations/indexerdb/5_create_pending_offers.go *)

Definition legacyOffer_model : Model := mkModel "indexer_pending_offers" [
  mkColumn "contract_id" "varchar(255)" true false false None;
  mkColumn "status" "varchar(20)" false true false (Some "'PENDING'");
  mkColumn "receiver_party_id" "varchar(255)" false true false None;
  mkColumn "sender_party_id" "varchar(255)" false true false None;
  mkColumn "instrument_admin" "varchar(255)" false true false None;
  mkColumn "instrument_id" "varchar(255)" false true false None;
  mkColumn "amount" "text" false true false None;
  mkColumn "ledger_offset" "" false true false None;
  mkColumn "created_at" "" false true false None;
  mkColumn "expires_at" "" false false false None].

(** relayer/store/model.go *)

Definition relayer_TransferDao_model : Model := mkModel "transfers" [
  mkColumn "id" "varchar(255)" true false false None;
  mkColumn "direction" "varchar(50)" false true false None;
  mkColumn "status" "varchar(50)" false true false None;
  mkColumn "source_chain" "varchar(100)" false true false None;
  mkColumn "destination_chain" "varchar(100)" false true false None;
  mkColumn "source_tx_hash" "varchar(255)" false true false None;
  mkColumn "destination_tx_hash" "varchar(255)" false false false None;
  mkColumn "token_address" "varchar(255)" false true false None;
  mkColumn "amount" "varchar(255)" false true false None;
  mkColumn "sender" "varchar(255)" false true false None;
  mkColumn "recipient" "varchar(255)" false true false None;
  mkColumn "nonce" "" false true false None;
  mkColumn "source_block_number" "" false true false None;
  mkColumn "retry_count" "" false true false (Some "0");
  mkColumn "created_at" "" false true false (Some "current_timestamp");
  mkColumn "updated_at" "" false true false (Some "current_timestamp");
  mkColumn "completed_at" "" false false false None;
  mkColumn "error_message" "text" false false false None].

Definition relayer_ChainStateDao_model : Model := mkModel "chain_state" [
  mkColumn "chain_id" "varchar(100)" true false false None;
  mkColumn "last_block" "" false true false None;
  mkColumn "last_block_hash" "varchar(255)" false true false None;
  mkColumn "updated_at" "" false true false (Some "current_timestamp")].

(** ** The migrations *)

Record Migration := mkMigration { mg_up : M (DB Catalog) unit; mg_down : M (DB Catalog) unit }.

(** The shape most migrations have: a table with indexes, and its removal. *)
Definition creating (m : Model) (indexed : list string) : M (DB Catalog) unit :=
  _ ← CreateSchema [m]; CreateModelIndexes (Some m) indexed.

(** *** API server: pkg/migrations/apidb *)

Definition apidb_up1 := creating userDao_model ["fingerprint"; "canton_party_id"]%string.
Definition apidb_down1 := DropTables [userDao_model].
Definition apidb_up2 := CreateSchema [whitelistDao_model].
Definition apidb_down2 := DropTables [whitelistDao_model].
Definition apidb_up3 := CreateSchema [tokenMetricsDao_model].
Definition apidb_down3 := DropTables [tokenMetricsDao_model].

(** The seeded tokens. *)
Definition seeded : list string := ["PROMPT"; "DEMO"]%string.
Definition seed_row (symbol : string) : list (string * string) := [("token_symbol"%string, symbol); ("total_supply", "0")%string].
Definition apidb_up4 : M (DB Catalog) unit :=
  _ ← stmt (pg_insert_new (md_Table tokenMetricsDao_model) "PROMPT" (seed_row "PROMPT"));
  stmt (pg_insert_new (md_Table tokenMetricsDao_model) "DEMO" (seed_row "DEMO")).
Definition apidb_down4 := stmt (pg_delete (md_Table tokenMetricsDao_model) (fun k => bool_decide (k ∈ seeded))).

Definition apidb_up5 := creating bridgeEventDao_model ["fingerprint"; "event_type"; "evm_tx_hash"]%string.
Definition apidb_down5 := DropTables [bridgeEventDao_model].

Definition singleton_check : statement := pg_add_check (md_Table reconciliationStateDao_model) "singleton_check" "1".
Definition apidb_up6 : M (DB Catalog) unit :=
  _ ← CreateSchema [reconciliationStateDao_model];
  _ ← stmt singleton_check;
  stmt (pg_insert_new (md_Table reconciliationStateDao_model) "1"
          [("id", "1"); ("last_processed_offset", "0"); ("events_processed", "0")]%string).
Definition apidb_down6 := DropTables [reconciliationStateDao_model].

Definition apidb_up7 := creating evmTransactionDao_model ["from_address"; "to_address"; "block_number"]%string.
Definition apidb_down7 := DropTables [evmTransactionDao_model].
Definition apidb_up8 : M (DB Catalog) unit :=
  _ ← CreateSchema [evmStateDao_model];
  stmt (pg_insert_new (md_Table evmStateDao_model) "1" [("id", "1"); ("latest_block", "0")]%string).
Definition apidb_down8 := DropTables [evmStateDao_model].
Definition apidb_up9 := CreateSchema [evmLogDao_model].
Definition apidb_down9 := DropTables [evmLogDao_model].
Definition apidb_up10 := CreateSchema [userTokenBalanceDao_model].
Definition apidb_down10 := DropTables [userTokenBalanceDao_model].

Definition utb_index (name column : string) : string * Index :=
  (name, mkIndex "user_token_balances" [column; "token_symbol"%string] true (Some (column +:+ " IS NOT NULL"))).
Definition utb_indexes : list (string * Index) :=
  [utb_index "idx_utb_fingerprint_token" "fingerprint"; utb_index "idx_utb_evm_address_token" "evm_address";
   utb_index "idx_utb_canton_party_token" "canton_party_id"].
Definition apidb_up11 := for_each utb_indexes (fun '(name, ix) => stmt (pg_create_index name ix)).
Definition apidb_down11 := for_each utb_indexes.*1 (fun name => stmt (pg_drop_index name)).

Definition apidb_up12 := CreateSchema [mempoolEntryDao_model].
Definition apidb_down12 := DropTables [mempoolEntryDao_model].
Definition apidb_up13 := stmt (pg_add_column (md_Table evmLogDao_model) (mkColumn "block_timestamp" "BIGINT" false true false (Some "0"))).
Definition apidb_down13 := stmt (pg_drop_column (md_Table evmLogDao_model) "block_timestamp").
Definition apidb_up14 : M (DB Catalog) unit :=
  _ ← stmt (pg_alter_default "evm_transactions" "status" None); stmt (pg_touch "evm_transactions").
Definition apidb_down14 := stmt (pg_alter_default "evm_transactions" "status" (Some "1")).

Definition apidb_Migrations : list Migration :=
  [mkMigration apidb_up1 apidb_down1; mkMigration apidb_up2 apidb_down2; mkMigration apidb_up3 apidb_down3; mkMigration apidb_up4 apidb_down4; mkMigration apidb_up5 apidb_down5;
   mkMigration apidb_up6 apidb_down6; mkMigration apidb_up7 apidb_down7; mkMigration apidb_up8 apidb_down8; mkMigration apidb_up9 apidb_down9; mkMigration apidb_up10 apidb_down10;
   mkMigration apidb_up11 apidb_down11; mkMigration apidb_up12 apidb_down12; mkMigration apidb_up13 apidb_down13; mkMigration apidb_up14 apidb_down14].

(** *** Indexer: pkg/migrations/indexerdb *)

Definition indexerdb_up1 : M (DB Catalog) unit :=
  _ ← CreateSchema [indexer_EventDao_model];
  _ ← CreateModelIndexes (Some indexer_EventDao_model) ["ledger_offset"%string];
  _ ← CreateModelIndexes (Some indexer_EventDao_model) ["from_party_id"%string];
  CreateModelIndexes (Some indexer_EventDao_model) ["to_party_id"%string].
Definition indexerdb_down1 := DropTables [indexer_EventDao_model].
Definition indexerdb_up2 := CreateSchema [indexer_TokenDao_model].
Definition indexerdb_down2 := DropTables [indexer_TokenDao_model].
Definition indexerdb_up3 := creating indexer_BalanceDao_model ["party_id"%string].
Definition indexerdb_down3 := DropTables [indexer_BalanceDao_model].
Definition indexerdb_up4 := CreateSchema [indexer_OffsetDao_model].
Definition indexerdb_down4 := DropTables [indexer_OffsetDao_model].
Definition indexerdb_up5 := creating legacyOffer_model ["receiver_party_id"; "status"]%string.
Definition indexerdb_down5 := DropTables [legacyOffer_model].
Definition indexerdb_up6 := creating indexer_HoldingDao_model ["owner"; "instrument_admin"; "instrument_id"]%string.
Definition indexerdb_down6 := DropTables [indexer_HoldingDao_model].

Definition party_index (col : string) : statement :=
  pg_create_index ("idx_indexer_transfers_" +:+ col +:+ "_created_at") (mkIndex (md_Table indexer_TransferDao_model) [col; "created_at"%string] false None).
Definition indexerdb_up7 : M (DB Catalog) unit :=
  _ ← CreateSchema [indexer_TransferDao_model];
  _ ← CreateModelIndexes (Some indexer_TransferDao_model) ["status"%string];
  _ ← for_each ["from_party_id"; "to_party_id"]%string (fun col => stmt (party_index col));
  _ ← stmt (pg_touch (md_Table legacyOffer_model));
  _ ← stmt (pg_touch (md_Table indexer_EventDao_model));
  DropTables [legacyOffer_model].
Definition indexerdb_down7 : M (DB Catalog) unit :=
  _ ← CreateSchema [legacyOffer_model];
  _ ← stmt (pg_touch (md_Table indexer_TransferDao_model));
  DropTables [indexer_TransferDao_model].

Definition indexerdb_Migrations : list Migration :=
  [mkMigration indexerdb_up1 indexerdb_down1; mkMigration indexerdb_up2 indexerdb_down2; mkMigration indexerdb_up3 indexerdb_down3; mkMigration indexerdb_up4 indexerdb_down4; mkMigration indexerdb_up5 indexerdb_down5;
   mkMigration indexerdb_up6 indexerdb_down6; mkMigration indexerdb_up7 indexerdb_down7].

(** *** Relayer: pkg/migrations/relayerdb *)

Definition relayerdb_up1 := creating relayer_TransferDao_model ["status"; "direction"; "source_tx_hash"]%string.
Definition relayerdb_down1 := DropTables [relayer_TransferDao_model].
Definition relayerdb_up2 := CreateSchema [relayer_ChainStateDao_model].
Definition relayerdb_down2 := DropTables [relayer_ChainStateDao_model].
Definition relayerdb_Migrations : list Migration := [mkMigration relayerdb_up1 relayerdb_down1; mkMigration relayerdb_up2 relayerdb_down2].

(** All of a database's migrations, up in order and down in reverse. *)
Definition up_all (ms : list Migration) : M (DB Catalog) unit := for_each ms mg_up.
Definition down_all (ms : list Migration) : M (DB Catalog) unit := for_each (rev ms) mg_down.

(** ** What a fresh database has *)

(** The catalog after all migrations on an empty database, without faults. *)
Definition fresh (ms : list Migration) : result unit * Catalog :=
  let '(r, d) := up_all ms (mkDB empty_catalog []) in (r, tables d).

(** The table of every model is there with the columns of the model, and there
    are no other tables. *)
Definition has_models (models : list Model) (c : Catalog) : bool :=
  bool_decide (tb_Columns <$> ct_Tables c = list_to_map ((fun m => (md_Table m, md_Columns m)) <$> models)).

(** An index for every request, over the columns and the table it was asked for. *)
Definition has_indexes (requests : list (string * Index)) (c : Catalog) : bool :=
  bool_decide (ct_Indexes c = list_to_map requests) && bool_decide (NoDup requests.*1).

Definition requests (m : Model) (columns : list string) : list (string * Index) :=
  (fun col => (index_name (md_Table m) col, mkIndex (md_Table m) [col] false None)) <$> columns.

Example fresh_apidb :
  let '(r, c) := fresh apidb_Migrations in
  is_ok r = true /\
  has_models [userDao_model; whitelistDao_model; tokenMetricsDao_model; bridgeEventDao_model; reconciliationStateDao_model;
              evmTransactionDao_model; evmStateDao_model; evmLogDao_model; userTokenBalanceDao_model; mempoolEntryDao_model] c = true /\
  has_indexes (requests userDao_model ["fingerprint"; "canton_party_id"]%string ++
               requests bridgeEventDao_model ["fingerprint"; "event_type"; "evm_tx_hash"]%string ++
               requests evmTransactionDao_model ["from_address"; "to_address"; "block_number"]%string ++ utb_indexes) c = true.
Proof. vm_compute. auto. Qed.

Example fresh_indexerdb :
  let '(r, c) := fresh indexerdb_Migrations in
  is_ok r = true /\
  has_models [indexer_EventDao_model; indexer_TokenDao_model; indexer_BalanceDao_model; indexer_OffsetDao_model;
              indexer_HoldingDao_model; indexer_TransferDao_model] c = true /\
  has_indexes (requests indexer_EventDao_model ["ledger_offset"; "from_party_id"; "to_party_id"]%string ++
               requests indexer_BalanceDao_model ["party_id"%string] ++
               requests indexer_HoldingDao_model ["owner"; "instrument_admin"; "instrument_id"]%string ++
               requests indexer_TransferDao_model ["status"%string] ++
               ((fun col => ("idx_indexer_transfers_" +:+ col +:+ "_created_at",
                             mkIndex "indexer_transfers" [col; "created_at"%string] false None)) <$> ["from_party_id"; "to_party_id"]%string)) c = true.
Proof. vm_compute. auto. Qed.

Example fresh_relayerdb :
  let '(r, c) := fresh relayerdb_Migrations in
  is_ok r = true /\ has_models [relayer_TransferDao_model; relayer_ChainStateDao_model] c = true /\
  has_indexes (requests relayer_TransferDao_model ["status"; "direction"; "source_tx_hash"]%string) c = true.
Proof. vm_compute. auto. Qed.

(** Reverting all migrations leaves nothing behind. *)
Definition reverts (ms : list Migration) : bool :=
  let '(r, d) := down_all ms (mkDB (fresh ms).2 []) in is_ok r && bool_decide (tables d = empty_catalog).

Example reverted_databases : forallb reverts [apidb_Migrations; indexerdb_Migrations; relayerdb_Migrations] = true.
Proof. vm_compute. reflexivity. Qed.

(** ** Interrupted migrations *)

(** The migrations whose statements only add; 7 of the indexer and 14 of the
    API server, which also move rows, are treated in Migrations. *)
Definition additive_ups : list (M (DB Catalog) unit) :=
  [apidb_up1; apidb_up2; apidb_up3; apidb_up4; apidb_up5; apidb_up7; apidb_up8; apidb_up9; apidb_up10; apidb_up11; apidb_up12; apidb_up13;
   indexerdb_up1; indexerdb_up2; indexerdb_up3; indexerdb_up4; indexerdb_up5; indexerdb_up6; relayerdb_up1; relayerdb_up2].

(** The computation runs statements that all satisfy [P]. *)
Section scripts.
Variable P : statement -> Prop.

Definition script_of (m : M (DB Catalog) unit) : Prop := exists l, runs m l /\ Forall P l.

Lemma script_of_stmt f : P f -> script_of (stmt f).
Proof. intros Hf. exists [f]. split; [apply runs_stmt|by constructor]. Qed.
Lemma script_of_bind m1 m2 : script_of m1 -> script_of m2 -> script_of (_ ← m1; m2).
Proof.
  intros (l1 & H1 & A1) (l2 & H2 & A2). exists (l1 ++ l2). split; [by apply runs_bind|by apply Forall_app].
Qed.
Lemma script_of_for_each {X} (xs : list X) body : (forall x, script_of (body x)) -> script_of (for_each xs body).
Proof.
  intros Hb. induction xs as [|x xs IH]; [exists []; done|]. apply (script_of_bind (body x) (for_each xs body)); [apply Hb|done].
Qed.

Hypothesis creates : forall m, P (pg_create_table m).
Hypothesis indexes : forall name ix, P (pg_create_index name ix).

Lemma script_of_CreateSchema models : script_of (CreateSchema models).
Proof. apply script_of_for_each. intros m. by apply script_of_stmt. Qed.
Lemma script_of_indexes m columns : md_Table m <> ""%string -> script_of (CreateModelIndexes (Some m) columns).
Proof.
  intros Hm. eexists. split; [by apply runs_model_indexes|]. apply Forall_fmap, Forall_forall. intros col _. apply indexes.
Qed.
Lemma script_of_creating m columns : md_Table m <> ""%string -> script_of (creating m columns).
Proof. intros Hm. apply script_of_bind; [apply script_of_CreateSchema|by apply script_of_indexes]. Qed.
End scripts.

(** Splits a computation into its statements. *)
Ltac script_parts :=
  lazymatch goal with
  | |- script_of _ (CreateSchema _) => apply script_of_CreateSchema; auto with canton
  | |- script_of _ (DropTables _) => apply script_of_for_each; intros ?; apply script_of_stmt; auto with canton
  | |- script_of _ (CreateModelIndexes _ _) => apply script_of_indexes; [auto with canton|discriminate]
  | |- script_of _ (creating _ _) => apply script_of_creating; [auto with canton..|discriminate]
  | |- script_of _ (stmt _) => apply script_of_stmt; auto with canton
  | |- script_of _ (for_each _ _) => apply script_of_for_each; intros ?; case_match || idtac; script_parts
  | |- script_of _ (_ ≫= _) => apply script_of_bind; script_parts
  end.
Ltac script_up := lazymatch goal with |- script_of _ ?up => unfold up end; script_parts.

(** A migration that was interrupted, however often and wherever, and is then
    run to its end, ends as the migration that was never interrupted. *)
Theorem interrupted_migrations_resume : Forall (fun up =>
    forall attempts c, up (mkDB (after_attempts up attempts c) []) = up (mkDB c [])) additive_ups.
Proof.
  assert (Hs : Forall (script_of additive) additive_ups) by (unfold additive_ups; repeat (apply Forall_cons; split); [script_up..|by constructor]).
  eapply Forall_impl; [exact Hs|]. intros m (l & Hm & Hl) attempts c. by apply (runs_resume m l).
Qed.

(** Migration 6 of the API server is not one of them: adding the constraint is
    refused once it is there.  Interrupted at its last statement it fails at
    every later run. *)
Definition singleton_checked (c : Catalog) : Prop :=
  exists t, ct_Tables c !! "reconciliation_state"%string = Some t /\ "singleton_check"%string ∈ (tb_Checks t).*1.

Lemma up6_refused d : singleton_checked (tables d) -> is_ok (apidb_up6 d).1 = false /\ singleton_checked (tables (apidb_up6 d).2).
Proof.
  intros (t & Ht & Hck). set (c := tables d) in *.
  assert (Hcheck : forall d', tables d' = c -> forall k : unit -> M (DB Catalog) unit,
    is_ok ((stmt singleton_check ≫= k) d').1 = false /\ tables ((stmt singleton_check ≫= k) d').2 = c).
  { intros d' Hd' k. unfold mbind, M_bind. destruct (stmt_run singleton_check d') as (fs & [Hs|[e Hs]]); rewrite Hs, Hd'; [|done].
    unfold singleton_check, pg_add_check, with_table. cbn [md_Table reconciliationStateDao_model]. rewrite Ht. by rewrite bool_decide_eq_true_2. }
  assert (Hall : is_ok (apidb_up6 d).1 = false /\ tables (apidb_up6 d).2 = c); [|destruct Hall as [? ->]; split; [done|by exists t]].
  unfold apidb_up6. generalize (fun _ : unit => stmt (pg_insert_new (md_Table reconciliationStateDao_model) "1"
    [("id", "1"); ("last_processed_offset", "0"); ("events_processed", "0")]%string)) as k. intros k.
  set (rest := stmt singleton_check ≫= k). unfold mbind at 1 2, M_bind. rewrite (runs_CreateSchema _ d).
  change (pg_create_table <$> _) with [pg_create_table reconciliationStateDao_model]. rewrite <- (runs_stmt _ d).
  destruct (stmt_run (pg_create_table reconciliationStateDao_model) d) as (fs & [Hs|[e Hs]]); rewrite Hs; [|done].
  unfold pg_create_table. cbn [md_Table reconciliationStateDao_model]. fold c. rewrite Ht. by apply Hcheck.
Qed.

(** An interrupted migration 6 never completes: if the connection fails at the
    insertion of the first row, every further run of the migration, with or
    without faults, is an error. *)
Theorem migration6_never_resumes msg attempts fs :
  is_ok (apidb_up6 (mkDB (after_attempts apidb_up6 ([None; None; Some msg] :: attempts) empty_catalog) fs)).1 = false.
Proof.
  apply up6_refused. cbn [tables]. unfold after_attempts. cbn [fold_left].
  assert (H0 : singleton_checked (tables (apidb_up6 (mkDB empty_catalog [None; None; Some msg])).2)).
  { eexists. split; [reflexivity|]. cbn. constructor. }
  revert H0. generalize (tables (apidb_up6 (mkDB empty_catalog [None; None; Some msg])).2) as c.
  induction attempts as [|fs' attempts IH]; intros c Hc; [done|]. cbn. apply IH, up6_refused, Hc.
Qed.

(** ** The invariant *)

(** Whatever faults they meet, the migrations keep every index over columns
    that its table has, up and down. *)
Theorem migrations_keep_wf : Forall (fun mg => forall d, catalog_wf (tables d) ->
    catalog_wf (tables (mg_up mg d).2) /\ catalog_wf (tables (mg_down mg d).2))
  (apidb_Migrations ++ indexerdb_Migrations ++ relayerdb_Migrations).
Proof.
  assert (Hs : Forall (fun mg => script_of keeps_wf (mg_up mg) /\ script_of keeps_wf (mg_down mg))
    (apidb_Migrations ++ indexerdb_Migrations ++ relayerdb_Migrations)).
  { unfold apidb_Migrations, indexerdb_Migrations, relayerdb_Migrations. cbn [app].
    repeat (apply Forall_cons; split); [(cbn [mg_up mg_down]; split; script_up)..|by constructor].
    - apply keeps_add_check.
    - apply keeps_create_index. }
  eapply Forall_impl; [exact Hs|]. intros mg [(l1 & H1 & K1) (l2 & H2 & K2)] d Hwf. rewrite H1, H2.
  split; by apply script_keeps_wf.
Qed.

(** A migration that creates a table is undone by its down migration, in any
    well-formed catalog without the table. *)
Theorem creating_reverts m columns c c' : catalog_wf c -> ct_Tables c !! md_Table m = None -> md_Table m <> ""%string ->
  creating m columns (mkDB c []) = (Ok tt, mkDB c' []) ->
  DropTables [m] (mkDB c' []) = (Ok tt, mkDB c []).
Proof.
  intros Hwf Hm Hne Hup. rewrite (runs_DropTables [m]), script_nofault. cbn.
  unfold creating in Hup. rewrite (runs_bind _ _ _ _ (runs_CreateSchema [m]) (runs_model_indexes false m columns Hne)), script_nofault in Hup.
  destruct (apply_script _ c) as [r c1] eqn:Ha in Hup. inversion Hup; subst r c1.
  by rewrite (drop_undoes_create m columns c c' Hwf Hm Ha).
Qed.

Lemma creating_reverts_witness :
  exists c', creating userDao_model ["fingerprint"%string] (mkDB empty_catalog []) = (Ok tt, mkDB c' []) /\
    DropTables [userDao_model] (mkDB c' []) = (Ok tt, mkDB empty_catalog []).
Proof.
  eexists. split; [reflexivity|]. apply (creating_reverts userDao_model ["fingerprint"%string] empty_catalog);
    [intros name ix; cbn; rewrite lookup_empty; discriminate|reflexivity|discriminate|reflexivity].
Defined.

(** ** Down migrations that do not restore *)

(** Migration 7 of the indexer, applied and reverted, loses the two indexes
    that migration 5 had made. *)
Example down7_loses_indexes :
  let before := (fresh (take 6 indexerdb_Migrations)).2 in
  let after := tables (indexerdb_down7 (indexerdb_up7 (mkDB before [])).2).2 in
  size (ct_Indexes before) = (size (ct_Indexes after) + 2)%nat /\ ct_Tables after = ct_Tables before /\
  ct_Indexes after !! "idx_indexer_pending_offers_status"%string = None.
Proof. split; [vm_compute; reflexivity|]. split; [|vm_compute; reflexivity]. refine (bool_decide_unpack _ _). vm_compute. exact I. Qed.

(** The model of evm_logs already has the column that migration 13 adds, so on
    a fresh database only its down migration does anything, and the column it
    leaves off was made by migration 9. *)
Example down13_drops_column :
  let before := (fresh (take 12 apidb_Migrations)).2 in
  let up := apidb_up13 (mkDB before []) in
  tables up.2 = before /\
  (column_names <$> ct_Tables (tables (apidb_down13 up.2).2) !! "evm_logs"%string) <>
  (column_names <$> ct_Tables before !! "evm_logs"%string).
Proof. split; [refine (bool_decide_unpack _ _); vm_compute; exact I|vm_compute; discriminate]. Qed.
