(* ===== verification/Instrumented.v ===== *)
(** * Instrumented: the stores and the indexer client with their metrics

    pkg/relayer/store/instrumented.go, pkg/indexer/store/instrumented.go,
    pkg/ethrpc/store/instrumented.go, pkg/userstore/instrumented.go and
    pkg/indexer/client/instrumented.go wrap every operation: the call is
    forwarded, its duration observed and a failure counted.  A histogram is the
    number of its observations per operation; the observed durations are left
    out.  The file shows that a program over a wrapped store is the program
    over the store, and that the relayer's store keeps its promises when it is
    wrapped. *)

From S2P Require Import Prelude AppErrors Effects GoStd EthClient Decimal DamlValues RelayerStore IndexerStore EvmStore UserStore IndexerApi.
From Stdlib Require Import Ascii.
Local Open Scope Z_scope.

(** ** Metrics *)

(** StoreMetrics, and Metrics of the indexer client: per operation, how many
    durations were observed and how many calls failed. *)
Record StoreMetrics := mkStoreMetrics {
  QueryDuration : gmap string Z;
  Errors : gmap string Z;
}.

Definition NewStoreMetrics : StoreMetrics := mkStoreMetrics ∅ ∅.

Definition counter (op : string) (m : gmap string Z) : Z := default 0 (m !! op).
Definition Inc (op : string) (m : gmap string Z) : gmap string Z := <[op := counter op m + 1]> m.

Lemma counter_Inc op m : counter op (Inc op m) = counter op m + 1.
Proof. unfold Inc, counter. by rewrite lookup_insert_eq. Qed.

Lemma counter_Inc_ne op op' m : op' <> op -> counter op (Inc op' m) = counter op m.
Proof. intros Hne. unfold Inc, counter. by rewrite lookup_insert_ne. Qed.

Definition ObserveQueryDuration (op : string) (m : StoreMetrics) : StoreMetrics := mkStoreMetrics (Inc op (QueryDuration m)) (Errors m).
Definition IncErrors (op : string) (m : StoreMetrics) : StoreMetrics := mkStoreMetrics (QueryDuration m) (Inc op (Errors m)).

(** A call, the count of its failure and, deferred, the observation of its duration. *)
Definition instrumented {W A} (op : string) (c : M W A) : M (W * StoreMetrics) A := fun s =>
  let '(r, w) := c s.1 in
  (r, (w, ObserveQueryDuration op (if is_ok r then s.2 else IncErrors op s.2))).

(** ** Forgetting the metrics *)

Section erasure.
Context {W X : Type}.

(** [c'] does what [c] does to the state, whatever the metrics. *)
Definition erases {A} (c' : M (W * X) A) (c : M W A) : Prop :=
  forall s, (c' s).1 = (c s.1).1 /\ (c' s).2.1 = (c s.1).2.

Lemma erases_ret {A} (a : A) : erases (mret a) (mret a).
Proof. done. Qed.

Lemma erases_fail {A} e : erases (A := A) (fail e) (fail e).
Proof. done. Qed.

Lemma erases_bind {A B} c' c (k' : A -> M (W * X) B) k :
  erases c' c -> (forall a, erases (k' a) (k a)) -> erases (c' ≫= k') (c ≫= k).
Proof.
  intros Hc Hk s. unfold mbind, M_bind. destruct (Hc s) as [Hr Hw].
  destruct (c' s) as [r [w x]], (c s.1) as [r' w']. cbn in *. subst. destruct r'; [|done]. apply (Hk a (w', x)).
Qed.

Lemma erases_attempt {A} (c' : M (W * X) A) c : erases c' c -> erases (attempt c') (attempt c).
Proof.
  intros Hc s. destruct (Hc s) as [Hr Hw]. unfold attempt. destruct (c' s), (c s.1). cbn in *. by subst.
Qed.

Lemma erases_wrapping {A} pre (c' : M (W * X) A) c : erases c' c -> erases (wrapping pre c') (wrapping pre c).
Proof.
  intros Hc s. destruct (Hc s) as [Hr Hw]. unfold wrapping. destruct (c' s), (c s.1). cbn in *. by subst.
Qed.

Lemma erases_for_each {Y} (ys : list Y) body' body :
  (forall y, erases (body' y) (body y)) -> erases (for_each ys body') (for_each ys body).
Proof. intros Hb. induction ys as [|y ys IH]; cbn; [apply erases_ret|]. by apply erases_bind. Qed.

(** A specification of the program without metrics is one of the program with them. *)
Lemma wp_erases {A} (c' : M (W * X) A) c (Q : result A -> W -> Prop) s :
  erases c' c -> wp c Q s.1 -> wp c' (fun r s' => Q r s'.1) s.
Proof.
  intros Hc. unfold wp. destruct (Hc s) as [Hr Hw]. destruct (c' s), (c s.1). cbn in *. by subst.
Qed.
End erasure.

Lemma erases_instrumented {W A} op (c : M W A) : erases (instrumented op c) c.
Proof. intros s. unfold instrumented. by destruct (c s.1). Qed.

Create HintDb erases.
#[export] Hint Resolve erases_ret erases_fail erases_attempt erases_wrapping erases_instrumented : erases.

(** [db.RunInTx] through the wrapper: the callback gets a wrapped store, and
    what it recorded is kept when the transaction is rolled back. *)
Definition instrumented_RunInTx {T X} (fn : M (DB T * X) unit) : M (DB T * X) unit := fun s =>
  let '(r, d) := RunInTx (fun d => let '(r, (d', _)) := fn (d, s.2) in (r, d')) s.1 in
  (r, (d, (fn s).2.2)).

Lemma erases_RunInTx {T X} (fn' : M (DB T * X) unit) fn :
  erases fn' fn -> erases (instrumented_RunInTx fn') (RunInTx fn).
Proof.
  intros Hfn s. unfold instrumented_RunInTx. pose proof (Hfn s) as [Hr Hd].
  assert ((let '(r, (d', _)) := fn' (s.1, s.2) in (r, d')) = fn s.1) as Heq.
  { destruct s as [d x]. cbn in *. destruct (fn' (d, x)) as [r [d' x']], (fn d). cbn in *. by subst. }
  unfold RunInTx at 1 3. rewrite Heq. unfold RunInTx. destruct (fn s.1) as [[[]|e] d']; [|done].
  by destruct (query _ d') as [[|] d''].
Qed.
#[export] Hint Resolve erases_RunInTx : erases.

(** ** The relayer's store *)

Section relayer.
Context {S : Type} `{!BridgeStore S}.
Implicit Types now : Z.

Definition rel_CreateTransfer now t : M (S * StoreMetrics) bool := instrumented "create_transfer" (bs_create now t).
Definition rel_UpdateTransferStatus now id status destTxHash errMsg : M (S * StoreMetrics) unit :=
  instrumented "update_transfer_status" (bs_update now id status destTxHash errMsg).
Definition rel_IncrementRetryCount now id : M (S * StoreMetrics) unit := instrumented "increment_retry_count" (bs_retry now id).
Definition rel_GetChainState chainID : M (S * StoreMetrics) (option ChainState) := instrumented "get_chain_state" (bs_get_chain chainID).
Definition rel_SetChainState now chainID blockNumber offset : M (S * StoreMetrics) unit :=
  instrumented "set_chain_state" (bs_set_chain now chainID blockNumber offset).
Definition rel_GetPendingTransfers direction : M (S * StoreMetrics) (list RelayerStore.Transfer) :=
  instrumented "get_pending_transfers" (bs_pending direction).

(** The wrapped store offers what the relayer's engine asks of a store. *)
#[global] Instance InstrumentedStore_BridgeStore : BridgeStore (S * StoreMetrics) := {|
  bs_transfers s := bs_transfers s.1;
  bs_chains s := bs_chains s.1;
  bs_create := rel_CreateTransfer;
  bs_update := rel_UpdateTransferStatus;
  bs_retry := rel_IncrementRetryCount;
  bs_pending := rel_GetPendingTransfers;
  bs_get_chain := rel_GetChainState;
  bs_set_chain := rel_SetChainState;
|}.

(** The wrapper keeps every promise of the store that it wraps: what holds of
    the relayer over any store that keeps the promises holds as it is deployed,
    with the wrapped store. *)
#[global] Instance InstrumentedStore_laws `{!BridgeStoreLaws S} : BridgeStoreLaws (S * StoreMetrics).
Proof.
  split.
  - intros now t s. exact (wp_erases _ _ _ s (erases_instrumented _ _) (law_create now t s.1)).
  - intros now id st h m s. exact (wp_erases _ _ _ s (erases_instrumented _ _) (law_update now id st h m s.1)).
  - intros now id s. exact (wp_erases _ _ _ s (erases_instrumented _ _) (law_retry now id s.1)).
  - intros dir s. exact (wp_erases _ _ _ s (erases_instrumented _ _) (law_pending dir s.1)).
  - intros c s. exact (wp_erases _ _ _ s (erases_instrumented _ _) (law_get_chain c s.1)).
  - intros now c n o s. exact (wp_erases _ _ _ s (erases_instrumented _ _) (law_set_chain now c n o s.1)).
Qed.
End relayer.

Definition rel_GetTransfer id : M (RelayerDB * StoreMetrics) (option RelayerStore.Transfer) :=
  instrumented "get_transfer" (RelayerStore.GetTransfer id).
Definition rel_ListTransfers limit : M (RelayerDB * StoreMetrics) (list RelayerStore.Transfer) :=
  instrumented "list_transfers" (RelayerStore.ListTransfers limit).

(** ** The user store *)

Section users.
Abbreviation MU := (M (UserDB * StoreMetrics)).

Definition usr_CreateUser usr : MU unit := instrumented "create_user" (CreateUser usr).
Definition usr_GetUserByEVMAddress evmAddress : MU User := instrumented "get_user_by_evm_address" (GetUserByEVMAddress evmAddress).
Definition usr_GetUserByCantonPartyID partyID : MU User := instrumented "get_user_by_canton_party_id" (GetUserByCantonPartyID partyID).
Definition usr_GetUserByFingerprint fingerprint : MU User := instrumented "get_user_by_fingerprint" (GetUserByFingerprint fingerprint).
Definition usr_UserExists evmAddress : MU bool := instrumented "user_exists" (UserExists evmAddress).
Definition usr_DeleteUser evmAddress : MU unit := instrumented "delete_user" (DeleteUser evmAddress).
Definition usr_ListUsers : MU (list User) := instrumented "list_users" ListUsers.
Definition usr_ListCustodialUsers : MU (list User) := instrumented "list_custodial_users" ListCustodialUsers.
Definition usr_IsWhitelisted evmAddress : MU bool := instrumented "is_whitelisted" (IsWhitelisted evmAddress).
Definition usr_AddToWhitelist (now : Z) evmAddress note : MU unit := instrumented "add_to_whitelist" (AddToWhitelist now evmAddress note).
Definition usr_RemoveFromWhitelist evmAddress : MU bool := instrumented "remove_from_whitelist" (RemoveFromWhitelist evmAddress).
Definition usr_ListWhitelist cursor limit : MU (list WhitelistEntry) := instrumented "list_whitelist" (ListWhitelist cursor limit).
Definition usr_GetUserKeyByCantonPartyID decryptor partyID : MU (list Z) :=
  instrumented "get_key_by_canton_party_id" (GetUserKeyByCantonPartyID decryptor partyID).
Definition usr_GetUserKeyByEVMAddress decryptor evmAddress : MU (list Z) :=
  instrumented "get_key_by_evm_address" (GetUserKeyByEVMAddress decryptor evmAddress).
Definition usr_GetUserKeyByFingerprint decryptor fingerprint : MU (list Z) :=
  instrumented "get_key_by_fingerprint" (GetUserKeyByFingerprint decryptor fingerprint).

(** The lookups of the services, through the wrapper. *)
#[global] Instance instrumented_lookup : UserLookup (UserDB * StoreMetrics) := {
  look_by_address := usr_GetUserByEVMAddress;
  look_by_party := usr_GetUserByCantonPartyID;
}.
End users.

(** ** The indexer's store *)

Section indexer.
Context `{!DecimalLib} `{!PgNumeric}.
Abbreviation MI := (M (IndexerDB * StoreMetrics)).

(** The writes of a transaction: instrumentedWriteStore. *)
Definition tx_LatestOffset : MI Z := instrumented "latest_offset" LatestOffset.
Definition tx_RunInTx (fn : MI unit) : MI unit := instrumented_RunInTx fn.
Definition tx_InsertEvent event : MI bool := instrumented "insert_event" (InsertEvent event).
Definition tx_SaveOffset offset : MI unit := instrumented "save_offset" (SaveOffset offset).
Definition tx_UpsertToken token : MI unit := instrumented "upsert_token" (UpsertToken token).
Definition tx_ApplyBalanceDelta partyID instrumentAdmin instrumentID delta : MI unit :=
  instrumented "apply_balance_delta" (ApplyBalanceDelta partyID instrumentAdmin instrumentID delta).
Definition tx_ApplySupplyDelta instrumentAdmin instrumentID delta : MI unit :=
  instrumented "apply_supply_delta" (ApplySupplyDelta instrumentAdmin instrumentID delta).
Definition tx_InsertTransfer t : MI unit := instrumented "insert_transfer" (InsertTransfer t).
Definition tx_FinalizeTransfer contractID status : MI unit := instrumented "finalize_transfer" (FinalizeTransfer contractID status).
Definition tx_InsertHolding h : MI unit := instrumented "insert_holding" (InsertHolding h).
Definition tx_TakeHolding contractID : MI (option HoldingChange) := instrumented "take_holding" (TakeHolding contractID).

(** The store itself: InstrumentedStore. *)
Definition idx_LatestOffset : MI Z := instrumented "latest_offset" LatestOffset.
Definition idx_RunInTx (fn : MI unit) : MI unit := instrumented_RunInTx fn.
Definition idx_InsertEvent event : MI bool := instrumented "insert_event" (InsertEvent event).
Definition idx_SaveOffset offset : MI unit := instrumented "save_offset" (SaveOffset offset).
Definition idx_UpsertToken token : MI unit := instrumented "upsert_token" (UpsertToken token).
Definition idx_ApplyBalanceDelta partyID instrumentAdmin instrumentID delta : MI unit :=
  instrumented "apply_balance_delta" (ApplyBalanceDelta partyID instrumentAdmin instrumentID delta).
Definition idx_ApplySupplyDelta instrumentAdmin instrumentID delta : MI unit :=
  instrumented "apply_supply_delta" (ApplySupplyDelta instrumentAdmin instrumentID delta).
Definition idx_InsertTransfer t : MI unit := instrumented "insert_transfer" (InsertTransfer t).
Definition idx_FinalizeTransfer contractID status : MI unit := instrumented "finalize_transfer" (FinalizeTransfer contractID status).
Definition idx_InsertHolding h : MI unit := instrumented "insert_holding" (InsertHolding h).
Definition idx_TakeHolding contractID : MI (option HoldingChange) := instrumented "take_holding" (TakeHolding contractID).
Definition idx_GetToken admin id : MI (option Token) := instrumented "get_token" (IndexerStore.GetToken admin id).
Definition idx_ListTokens p : MI (list Token * Z) := instrumented "list_tokens" (IndexerStore.ListTokens p).
Definition idx_GetBalance partyID admin id : MI (option Balance) := instrumented "get_balance" (IndexerStore.GetBalance partyID admin id).
Definition idx_ListBalancesForParty partyID p : MI (list Balance * Z) :=
  instrumented "list_balances_for_party" (IndexerStore.ListBalancesForParty partyID p).
Definition idx_ListBalancesForToken admin id p : MI (list Balance * Z) :=
  instrumented "list_balances_for_token" (IndexerStore.ListBalancesForToken admin id p).
Definition idx_GetEvent contractID : MI (option ParsedEvent) := instrumented "get_event" (IndexerStore.GetEvent contractID).
Definition idx_GetTransfer (now : Z) contractID : MI (option Transfer) := instrumented "get_transfer" (IndexerStore.GetTransfer now contractID).
Definition idx_ListEvents f p : MI (list ParsedEvent * Z) := instrumented "list_events" (IndexerStore.ListEvents f p).
Definition idx_ListTransfers (now : Z) partyID query p : MI (list Transfer * Z) :=
  instrumented "list_transfers" (IndexerStore.ListTransfers now partyID query p).
Definition idx_ListPendingTransfers (now : Z) p : MI (list Transfer * Z) :=
  instrumented "list_pending_transfers" (IndexerStore.ListPendingTransfers now p).
End indexer.

(** ** The store of the EVM facade *)

Section evm.
Context `{!GoEthereum}.
Abbreviation ME := (M (EvmDB * StoreMetrics)).

Definition evm_NewBlock chainID : ME (Z * list Z) := instrumented "new_block" (NewBlock chainID).
Definition evm_ClaimMempoolEntries maxTxsPerBlock : ME (list MempoolEntry) :=
  instrumented "claim_mempool_entries" (ClaimMempoolEntries maxTxsPerBlock).
Definition evm_AddEvmTransaction tx : ME unit := instrumented "add_evm_transaction" (AddEvmTransaction tx).
Definition evm_AddEvmLog log : ME unit := instrumented "add_evm_log" (AddEvmLog log).
Definition evm_Finalize number : ME unit := instrumented "finalize" (Finalize number).
Definition evm_GetLatestEvmBlockNumber : ME Z := instrumented "get_latest_evm_block_number" GetLatestEvmBlockNumber.
Definition evm_GetEvmTransactionCount fromAddress : ME Z :=
  instrumented "get_evm_transaction_count" (EvmStore.GetEvmTransactionCount fromAddress).
Definition evm_GetEvmTransaction txHash : ME (option EvmTransaction) := instrumented "get_evm_transaction" (GetEvmTransaction txHash).
Definition evm_GetEvmLogsByTxHash txHash : ME (list EvmLog) := instrumented "get_evm_logs_by_tx_hash" (GetEvmLogsByTxHash txHash).
Definition evm_GetEvmLogs address topic0 fromBlock toBlock : ME (list EvmLog) :=
  instrumented "get_evm_logs" (GetEvmLogs address topic0 fromBlock toBlock).
Definition evm_GetBlockNumberByHash blockHash : ME Z := instrumented "get_block_number_by_hash" (GetBlockNumberByHash blockHash).
Definition evm_InsertMempoolEntry entry : ME unit := instrumented "insert_mempool_entry" (InsertMempoolEntry entry).
Definition evm_CompleteMempoolEntry txHash : ME unit := instrumented "complete_mempool_entry" (CompleteMempoolEntry txHash).
Definition evm_FailMempoolEntry txHash errMsg : ME unit := instrumented "fail_mempool_entry" (FailMempoolEntry txHash errMsg).
Definition evm_GetMempoolEntriesByStatus status limit : ME (list MempoolEntry) :=
  instrumented "get_mempool_entries_by_status" (GetMempoolEntriesByStatus status limit).
End evm.

(** ** The indexer client *)

Section client.
Context `{!TimeJSON} {X : Type} `{!HttpGet X}.
Abbreviation MC := (M (X * StoreMetrics)).

Definition ic_GetToken admin id : MC Token := instrumented "get_token" (cl_GetToken admin id).
Definition ic_ListTokens p : MC (PageOf Token) := instrumented "list_tokens" (cl_ListTokens p).
Definition ic_TotalSupply admin id : MC string := instrumented "total_supply" (cl_TotalSupply admin id).
Definition ic_GetBalance partyID admin id : MC Balance := instrumented "get_balance" (cl_GetBalance partyID admin id).
Definition ic_ListBalancesForParty partyID p : MC (PageOf Balance) := instrumented "list_balances_for_party" (cl_ListBalancesForParty partyID p).
Definition ic_ListBalancesForToken admin id p : MC (PageOf Balance) := instrumented "list_balances_for_token" (cl_ListBalancesForToken admin id p).
Definition ic_GetEvent contractID : MC ParsedEvent := instrumented "get_event" (cl_GetEvent contractID).
Definition ic_GetTransfer contractID : MC Transfer := instrumented "get_transfer" (cl_GetTransfer contractID).
Definition ic_ListTokenEvents admin id f p : MC (PageOf ParsedEvent) := instrumented "list_token_events" (cl_ListTokenEvents admin id f p).
Definition ic_ListPartyEvents partyID f p : MC (PageOf ParsedEvent) := instrumented "list_party_events" (cl_ListPartyEvents partyID f p).
Definition ic_GetTransfers partyID query p : MC (PageOf Transfer) := instrumented "get_transfers" (cl_GetTransfers partyID query p).
Definition ic_GetPendingTransfers p : MC (PageOf Transfer) := instrumented "get_pending_transfers" (cl_GetPendingTransfers p).
End client.
