(* ===== verification/EthMetrics.v ===== *)
(** * EthMetrics: the deposit poller as it is wired

    pkg/ethereum/metrics.go and the observations of pkg/ethereum/client.go
    (observeRPC, setLastScannedBlock, the poll cycle).  Forgetting the metrics
    the poller is that of EthClient; the gauge of the scanned block is the
    block; and a poll cycle counts one failure at most. *)

From S2P Require Import Prelude AppErrors Effects GoStd EthClient Instrumented.
From Stdlib Require Import Ascii.
Local Open Scope Z_scope.

(** Metrics; a gauge is 0 before it is first set, a histogram is the number of
    its observations, and the failures are by their reason. *)
Record EthMetrics := mkEthMetrics {
  RPCCallsTotal : gmap (string * string) Z;
  EventPollDuration : Z;
  fail_get_latest_block : Z;
  fail_filter_events : Z;
  fail_iterator : Z;
  EventsFetchedTotal : Z;
  LatestBlockSeen : Z;
  LastScannedGauge : Z;
}.
Definition NewEthMetrics : EthMetrics := mkEthMetrics ∅ 0 0 0 0 0 0 0.

Definition inc_rpc (method status : string) (m : EthMetrics) : EthMetrics :=
  mkEthMetrics (<[(method, status) := default 0 (RPCCallsTotal m !! (method, status)) + 1]> (RPCCallsTotal m)) (EventPollDuration m)
    (fail_get_latest_block m) (fail_filter_events m) (fail_iterator m) (EventsFetchedTotal m) (LatestBlockSeen m) (LastScannedGauge m).
Definition observe_poll (m : EthMetrics) : EthMetrics :=
  mkEthMetrics (RPCCallsTotal m) (EventPollDuration m + 1)
    (fail_get_latest_block m) (fail_filter_events m) (fail_iterator m) (EventsFetchedTotal m) (LatestBlockSeen m) (LastScannedGauge m).
Definition inc_get_latest (m : EthMetrics) : EthMetrics :=
  mkEthMetrics (RPCCallsTotal m) (EventPollDuration m)
    (fail_get_latest_block m + 1) (fail_filter_events m) (fail_iterator m) (EventsFetchedTotal m) (LatestBlockSeen m) (LastScannedGauge m).
Definition inc_filter (m : EthMetrics) : EthMetrics :=
  mkEthMetrics (RPCCallsTotal m) (EventPollDuration m)
    (fail_get_latest_block m) (fail_filter_events m + 1) (fail_iterator m) (EventsFetchedTotal m) (LatestBlockSeen m) (LastScannedGauge m).
Definition inc_iterator (m : EthMetrics) : EthMetrics :=
  mkEthMetrics (RPCCallsTotal m) (EventPollDuration m)
    (fail_get_latest_block m) (fail_filter_events m) (fail_iterator m + 1) (EventsFetchedTotal m) (LatestBlockSeen m) (LastScannedGauge m).
Definition inc_fetched (m : EthMetrics) : EthMetrics :=
  mkEthMetrics (RPCCallsTotal m) (EventPollDuration m)
    (fail_get_latest_block m) (fail_filter_events m) (fail_iterator m) (EventsFetchedTotal m + 1) (LatestBlockSeen m) (LastScannedGauge m).
Definition set_latest_seen (n : Z) (m : EthMetrics) : EthMetrics :=
  mkEthMetrics (RPCCallsTotal m) (EventPollDuration m)
    (fail_get_latest_block m) (fail_filter_events m) (fail_iterator m) (EventsFetchedTotal m) n (LastScannedGauge m).
Definition set_scanned_gauge (n : Z) (m : EthMetrics) : EthMetrics :=
  mkEthMetrics (RPCCallsTotal m) (EventPollDuration m)
    (fail_get_latest_block m) (fail_filter_events m) (fail_iterator m) (EventsFetchedTotal m) (LatestBlockSeen m) n.

(** observeRPC *)
Definition observeRPC {A} (method : string) (r : result A) : EthMetrics -> EthMetrics :=
  inc_rpc method (if is_ok r then "ok" else "error")%string.

(** The failures of all reasons. *)
Definition poll_failures (m : EthMetrics) : Z := fail_get_latest_block m + fail_filter_events m + fail_iterator m.

Section Poller.
Context {H : Type}.
Variable handler : DepositEvent -> M H unit.
Variable filter_deposits : Filter.
Variable MaxBlockRange : Z.

Abbreviation Metered := (Watch H * EthMetrics)%type.

Definition count (f : EthMetrics -> EthMetrics) : M Metered unit := modify (fun s => (s.1, f s.2)).
Definition plain {A} (c : M (Watch H) A) : M Metered A := zoom fst (fun w s => (w, s.2)) c.

Definition m_setLastScannedBlock (b : Z) : M Metered unit :=
  s ← Effects.get;
  _ ← plain (setLastScannedBlock b);
  if lastScannedBlock s.1 <? b then count (set_scanned_gauge b) else mret tt.

Definition m_scanDepositRange (r : blockRange) : M Metered unit :=
  _ ← count (observeRPC "filter_deposit_events" (filter_deposits r));
  match filter_deposits r with
  | Err e => _ ← count inc_filter; fail e
  | Ok (evs, iterErr) =>
      _ ← for_each evs (fun ev =>
            _ ← count inc_fetched;
            wrapping ("handle deposit event 0x" +:+ hex_encode (de_TxHash ev) +:+ ": ") (plain (handle handler ev)));
      match iterErr with
      | Some e => _ ← count inc_iterator; fail e
      | None => mret tt
      end
  end.

Definition m_scanSlice (r : blockRange) : M Metered unit :=
  _ ← m_scanDepositRange r;
  _ ← plain (handle handler (checkpoint_event (r_end r)));
  _ ← plain (advance (r_end r));
  m_setLastScannedBlock (r_end r).

(** The body of a tick; [latest] is the header's number or the node's error. *)
Definition m_cycle (latest : result Z) : M Metered unit :=
  _ ← count (observeRPC "get_latest_block" latest);
  match latest with
  | Err _ => count inc_get_latest
  | Ok latestBlock =>
      _ ← count (set_latest_seen latestBlock);
      s ← Effects.get;
      if latestBlock <=? currentBlock s.1 then m_setLastScannedBlock latestBlock
      else _ ← attempt (for_each (chunkRange (uint64 (currentBlock s.1 + 1)) latestBlock MaxBlockRange) m_scanSlice);
           mret tt
  end.

(** The deferred observation of the duration. *)
Definition m_tick (latest : result Z) : M Metered unit :=
  r ← attempt (m_cycle latest); _ ← count observe_poll; lift r.

(** ** The metrics leave the poller alone *)

Lemma erases_count_then {A} f (k' : M Metered A) k : erases k' k -> erases (_ ← count f; k') k.
Proof. intros Hk [w m]. apply (Hk (w, f m)). Qed.

Lemma erases_get_then {A} (k' : Metered -> M Metered A) (k : Watch H -> M (Watch H) A) :
  (forall s, erases (k' s) (k s.1)) -> erases (s ← Effects.get; k' s) (w ← Effects.get; k w).
Proof. intros Hk s. apply (Hk s s). Qed.

Lemma eth_erases_plain {A} (c : M (Watch H) A) : erases (plain c) c.
Proof. intros [w m]. unfold plain, zoom. cbn. by destruct (c w). Qed.

Lemma erases_setLastScannedBlock b : erases (m_setLastScannedBlock b) (setLastScannedBlock b).
Proof.
  intros [w m]. unfold m_setLastScannedBlock, mbind, M_bind. cbn. by destruct (lastScannedBlock w <? b).
Qed.

Lemma erases_scanDepositRange r : erases (m_scanDepositRange r) (scanDepositRange handler filter_deposits r).
Proof.
  apply erases_count_then. unfold scanDepositRange. destruct (filter_deposits r) as [[evs iterErr]|e].
  - apply erases_bind.
    + apply erases_for_each. intros ev. apply erases_count_then, erases_wrapping, eth_erases_plain.
    + intros _. destruct iterErr; [apply erases_count_then, erases_fail|apply erases_ret].
  - apply erases_count_then, erases_fail.
Qed.

Lemma erases_scanSlice r : erases (m_scanSlice r) (scanSlice handler filter_deposits r).
Proof.
  apply erases_bind; [apply erases_scanDepositRange|intros _].
  apply erases_bind; [apply eth_erases_plain|intros _].
  apply erases_bind; [apply eth_erases_plain|intros _]. apply erases_setLastScannedBlock.
Qed.

(** A tick with its metrics does to the blocks and to the handler what the
    plain tick does. *)
Theorem m_tick_erases latest : erases (m_tick latest) (tick handler filter_deposits MaxBlockRange latest).
Proof.
  assert (Hc : erases (m_cycle latest) (tick handler filter_deposits MaxBlockRange latest)).
  { apply erases_count_then. unfold tick. destruct latest as [latestBlock|e]; [|intros [w m]; done].
    apply erases_count_then. apply erases_get_then. intros s.
    destruct (latestBlock <=? currentBlock s.1); [apply erases_setLastScannedBlock|].
    apply erases_bind; [apply erases_attempt, erases_for_each, erases_scanSlice|intros _; apply erases_ret]. }
  intros [w m]. destruct (Hc (w, m)) as [Hr Hw]. unfold m_tick, attempt, mbind, M_bind.
  destruct (m_cycle latest (w, m)) as [r [w' m']]. cbn in *. by rewrite Hr, Hw.
Qed.

(** ** What the metrics say *)

(** The gauge is the highest block scanned. *)
Definition gauge_true (s : Metered) : Prop := LastScannedGauge s.2 = lastScannedBlock s.1.

(** How far a step of a cycle moves the failures: none unless it fails. *)
Definition counted {A} (s : Metered) (r : result A) (s' : Metered) : Prop :=
  gauge_true s' /\ EventPollDuration s'.2 = EventPollDuration s.2 /\
  match r with
  | Ok _ => poll_failures s'.2 = poll_failures s.2
  | Err _ => poll_failures s.2 <= poll_failures s'.2 <= poll_failures s.2 + 1
  end.

Lemma counted_plain {A} (c : M (Watch H) A) s :
  (forall w, lastScannedBlock (c w).2 = lastScannedBlock w) -> gauge_true s -> wp (plain c) (counted s) s.
Proof.
  intros Hc Hg. apply wp_zoom. unfold wp. specialize (Hc s.1). destruct (c s.1) as [r w']. cbn in Hc.
  split; [unfold gauge_true; cbn; congruence|]. split; [done|]. destruct r; cbn; lia.
Qed.

Lemma handle_scanned ev w : lastScannedBlock (handle handler ev w).2 = lastScannedBlock w.
Proof. unfold handle, zoom. by destruct (handler ev (consumer w)). Qed.

Lemma counted_setLastScannedBlock b s : gauge_true s -> wp (m_setLastScannedBlock b) (fun r s' => r = Ok tt /\ counted s r s') s.
Proof.
  intros Hg. destruct s as [w m]. unfold wp, m_setLastScannedBlock, mbind, M_bind, plain, zoom. cbn.
  by destruct (lastScannedBlock w <? b) eqn:Hb.
Qed.

(** Sequencing: the first error ends the cycle. *)
Lemma counted_bind {A B} (c : M Metered A) (k : A -> M Metered B) s :
  wp c (counted s) s -> (forall a s', gauge_true s' -> wp (k a) (counted s') s') -> wp (c ≫= k) (counted s) s.
Proof.
  intros Hc Hk. apply wp_bind. eapply wp_mono; [exact Hc|]. intros [a|e] s' (Hg & Hd & Hf); [|done].
  eapply wp_mono; [by apply Hk|]. intros r s'' (Hg' & Hd' & Hf'). split; [done|]. split; [congruence|]. destruct r; lia.
Qed.

Lemma counted_for_each {X} (xs : list X) (body : X -> M Metered unit) s :
  gauge_true s -> (forall x s', gauge_true s' -> wp (body x) (counted s') s') -> wp (for_each xs body) (counted s) s.
Proof.
  revert s. induction xs as [|x xs IH]; intros s Hg Hb; [done|].
  apply (counted_bind (body x) (fun _ => for_each xs body)); [by apply Hb|]. intros _ s' Hg'. by apply IH.
Qed.

Lemma counted_count_then {A} f (k : M Metered A) s :
  (forall m, LastScannedGauge (f m) = LastScannedGauge m /\ EventPollDuration (f m) = EventPollDuration m /\ poll_failures (f m) = poll_failures m) ->
  gauge_true s -> (forall s', gauge_true s' -> wp k (counted s') s') -> wp (_ ← count f; k) (counted s) s.
Proof.
  intros Hf Hg Hk. destruct (Hf s.2) as (H1 & H2 & H3). apply wp_bind, wp_modify.
  eapply wp_mono; [apply Hk; unfold gauge_true; cbn; congruence|].
  intros r s' (Hg' & Hd & Hr). cbn in *. split; [done|]. split; [congruence|]. destruct r; lia.
Qed.

Lemma counted_scanSlice r s : gauge_true s -> wp (m_scanSlice r) (counted s) s.
Proof.
  intros Hg. unfold m_scanSlice. apply counted_bind.
  - apply counted_count_then; [done|done|]. intros s1 Hg1. destruct (filter_deposits r) as [[evs iterErr]|e].
    + apply counted_bind.
      * apply counted_for_each; [done|]. intros ev s2 Hg2. apply counted_count_then; [done|done|]. intros s3 Hg3.
        apply wp_wrapping. eapply wp_mono; [apply counted_plain; [apply handle_scanned|done]|]. by intros [].
      * intros _ s2 Hg2. destruct iterErr; [|done]. split; [done|]. split; [done|]. unfold poll_failures. cbn. lia.
    + split; [done|]. split; [done|]. unfold poll_failures. cbn. lia.
  - intros _ s1 Hg1. apply counted_bind; [apply counted_plain; [apply handle_scanned|done]|]. intros _ s2 Hg2.
    apply counted_bind; [by apply counted_plain|]. intros _ s3 Hg3.
    eapply wp_mono; [by apply counted_setLastScannedBlock|]. by intros r' s' [_ Hc].
Qed.

(** A poll cycle observes its duration once, whatever happens in it, keeps the
    gauge at the highest block scanned, and counts at most one failure: the
    first phase that fails ends the cycle. *)
Theorem poll_cycle_metrics latest s : gauge_true s ->
  let '(r, s') := m_tick latest s in
  r = Ok tt /\ gauge_true s' /\ EventPollDuration s'.2 = EventPollDuration s.2 + 1 /\
  poll_failures s.2 <= poll_failures s'.2 <= poll_failures s.2 + 1.
Proof.
  intros Hg. assert (Hc : wp (m_cycle latest) (fun r s' => r = Ok tt /\ gauge_true s' /\
    EventPollDuration s'.2 = EventPollDuration s.2 /\ poll_failures s.2 <= poll_failures s'.2 <= poll_failures s.2 + 1) s).
  { apply wp_bind, wp_modify. destruct latest as [latestBlock|e].
    2:{ apply wp_modify. unfold gauge_true, poll_failures in *. cbn. split_and!; [done|done|done|lia..]. }
    apply wp_bind, wp_modify, wp_bind, wp_get. match goal with |- context [currentBlock (fst ?x)] => set (s1 := x) end.
    assert (Hg1 : gauge_true s1) by exact Hg. assert (Hf1 : poll_failures s1.2 = poll_failures s.2) by done.
    destruct (latestBlock <=? currentBlock _).
    - eapply wp_mono; [by apply counted_setLastScannedBlock|]. intros r s' (-> & Hg' & Hd & Hr).
      split_and!; [done|done|exact Hd|lia..].
    - apply wp_bind, wp_attempt. eapply wp_mono; [apply counted_for_each; [exact Hg1|intros; by apply counted_scanSlice]|].
      intros r s' (Hg' & Hd & Hr). split_and!; [done|done|exact Hd|..]; destruct r; lia. }
  unfold wp in Hc. unfold m_tick, attempt, mbind, M_bind. destruct (m_cycle latest s) as [r s']. destruct Hc as (-> & Hg' & Hd & Hf).
  cbn. unfold gauge_true, poll_failures in *. cbn in *. split_and!; [done|done|lia..].
Qed.
End Poller.
