(* ===== verification/MetricsRegistry.v ===== *)
(** * MetricsRegistry: the metrics of the three processes

    internal/metrics and the constructors of the metrics of every component.
    A registry of the prometheus package refuses a name that is taken, and the
    constructors of promauto panic then; a vector of metrics panics when it is
    given a number of label values that is not its number of labels.  Both are
    decided by what is written here: the names and labels of the metrics that a
    process registers, and the values its call sites give.  Last, the
    middleware that counts HTTP requests (pkg/app/http/middleware.go). *)

From S2P Require Import Prelude AppErrors Effects GoStd.
From Stdlib Require Import Ascii String.
Local Open Scope Z_scope.
Local Open Scope string_scope.
Local Abbreviation length := Datatypes.length.

Inductive Kind := Counter | Gauge | Histogram.

(** A metric: its full name, kind and labels. *)
Record Desc := mkDesc { ds_Name : string; ds_Kind : Kind; ds_Labels : list string }.

(** prometheus.BuildFQName for a namespace and a subsystem that are not empty. *)
Definition fq (ns sub name : string) : string := ns +:+ "_" +:+ sub +:+ "_" +:+ name.

(** A registry (prometheus.Registerer). *)
Class Registerer (R : Type) := {
  Register : Desc -> R -> option R;
  registered : R -> list string;
}.
(** A name that is not taken can be registered, and is then taken. *)
Class RegistererLaws (R : Type) `{!Registerer R} :=
  register_new : forall d r, ds_Name d ∉ registered r -> exists r', Register d r = Some r' /\ registered r' = ds_Name d :: registered r.

(** The constructors: one registration after another, or a panic. *)
Fixpoint register_all {R} `{!Registerer R} (ds : list Desc) (r : R) : option R :=
  match ds with
  | [] => Some r
  | d :: ds => match Register d r with Some r' => register_all ds r' | None => None end
  end.

(** ** The metrics *)

(** NewMetrics of relayer/engine/metrics.go *)
Definition relayer_engine_metrics (ns : string) : list Desc := [
  mkDesc (fq ns "engine" "transfers_total") Counter ["direction"; "status"];
  mkDesc (fq ns "engine" "transfer_duration_seconds") Histogram ["direction"];
  mkDesc (fq ns "engine" "transfer_amount") Histogram ["direction"; "token"];
  mkDesc (fq ns "engine" "transactions_sent_total") Counter ["chain"; "status"];
  mkDesc (fq ns "engine" "events_detected_total") Counter ["chain"; "event_type"];
  mkDesc (fq ns "engine" "last_processed_block") Gauge ["chain"];
  mkDesc (fq ns "engine" "processor_restarts_total") Counter ["chain"; "reason"];
  mkDesc (fq ns "engine" "event_processing_errors_total") Counter ["chain"; "stage"];
  mkDesc (fq ns "engine" "errors_total") Counter ["component"; "error_type"];
  mkDesc (fq ns "engine" "pending_transfers") Gauge ["direction"];
  mkDesc (fq ns "engine" "reconciliation_duration_seconds") Histogram [];
  mkDesc (fq ns "engine" "reconciliation_runs_total") Counter ["result"];
  mkDesc (fq ns "engine" "transfer_retries_total") Counter ["direction"; "outcome"];
  mkDesc (fq ns "engine" "transfer_age_seconds") Histogram ["direction"];
  mkDesc (fq ns "engine" "chain_head_position") Gauge ["chain"];
  mkDesc (fq ns "engine" "ready") Gauge []].

(** NewStoreMetrics of relayer/store/metrics.go *)
Definition relayer_store_metrics (ns : string) : list Desc := [
  mkDesc (fq ns "db" "query_duration_seconds") Histogram ["operation"];
  mkDesc (fq ns "db" "errors_total") Counter ["operation"]].

(** NewMetrics of ethereum/metrics.go *)
Definition ethereum_metrics (ns : string) : list Desc := [
  mkDesc (fq ns "ethereum_client" "rpc_calls_total") Counter ["method"; "status"];
  mkDesc (fq ns "ethereum_client" "rpc_duration_seconds") Histogram ["method"];
  mkDesc (fq ns "ethereum_client" "event_poll_duration_seconds") Histogram [];
  mkDesc (fq ns "ethereum_client" "event_poll_failures_total") Counter ["reason"];
  mkDesc (fq ns "ethereum_client" "events_fetched_total") Counter [];
  mkDesc (fq ns "ethereum_client" "latest_block_seen") Gauge [];
  mkDesc (fq ns "ethereum_client" "last_scanned_block") Gauge []].

(** NewHTTPMetrics of app/http/metrics.go *)
Definition http_metrics (ns : string) : list Desc := [
  mkDesc (fq ns "http" "requests_total") Counter ["method"; "endpoint"; "status_code"];
  mkDesc (fq ns "http" "request_duration_seconds") Histogram ["method"; "endpoint"];
  mkDesc (fq ns "http" "active_connections") Gauge []].

(** NewStoreMetrics of userstore/metrics.go *)
Definition userstore_metrics (ns : string) : list Desc := [
  mkDesc (fq ns "userstore_db" "query_duration_seconds") Histogram ["operation"];
  mkDesc (fq ns "userstore_db" "errors_total") Counter ["operation"]].

(** NewMetrics of custodial/metrics.go *)
Definition custodial_metrics (ns : string) : list Desc := [
  mkDesc (fq ns "custodial_accept_worker" "runs_total") Counter [];
  mkDesc (fq ns "custodial_accept_worker" "run_duration_seconds") Histogram [];
  mkDesc (fq ns "custodial_accept_worker" "errors_total") Counter ["phase"];
  mkDesc (fq ns "custodial_accept_worker" "custodial_users") Gauge [];
  mkDesc (fq ns "custodial_accept_worker" "pending_offers") Gauge [];
  mkDesc (fq ns "custodial_accept_worker" "offers_fetched_total") Counter [];
  mkDesc (fq ns "custodial_accept_worker" "offers_accepted_total") Counter ["result"];
  mkDesc (fq ns "custodial_accept_worker" "offer_accept_duration_seconds") Histogram [];
  mkDesc (fq ns "custodial_accept_worker" "last_successful_run_timestamp") Gauge []].

(** NewMetrics of indexer/client/metrics.go *)
Definition indexer_client_metrics (ns : string) : list Desc := [
  mkDesc (fq ns "client" "request_duration_seconds") Histogram ["method"];
  mkDesc (fq ns "client" "request_errors_total") Counter ["method"]].

(** NewStoreMetrics of ethrpc/store/metrics.go *)
Definition ethrpc_store_metrics (ns : string) : list Desc := [
  mkDesc (fq ns "ethrpc_db" "query_duration_seconds") Histogram ["operation"];
  mkDesc (fq ns "ethrpc_db" "errors_total") Counter ["operation"]].

(** NewCacheMetrics of transfer/cache_metrics.go *)
Definition transfer_cache_metrics (ns : string) : list Desc := [
  mkDesc (fq ns "transfer_cache" "puts_total") Counter ["result"];
  mkDesc (fq ns "transfer_cache" "gets_total") Counter ["result"]].

(** NewMetrics of ethrpc/miner/metrics.go *)
Definition miner_metrics (ns : string) : list Desc := [
  mkDesc (fq ns "ethrpc_miner" "mine_duration_seconds") Histogram [];
  mkDesc (fq ns "ethrpc_miner" "blocks_mined_total") Counter [];
  mkDesc (fq ns "ethrpc_miner" "transactions_mined_total") Counter [];
  mkDesc (fq ns "ethrpc_miner" "errors_total") Counter [];
  mkDesc (fq ns "ethrpc_miner" "latest_block") Gauge []].

(** NewMetrics of ethrpc/submitter/metrics.go *)
Definition submitter_metrics (ns : string) : list Desc := [
  mkDesc (fq ns "ethrpc_submitter" "drain_duration_seconds") Histogram [];
  mkDesc (fq ns "ethrpc_submitter" "drain_errors_total") Counter [];
  mkDesc (fq ns "ethrpc_submitter" "entries_fetched") Histogram [];
  mkDesc (fq ns "ethrpc_submitter" "pending_backlog") Gauge [];
  mkDesc (fq ns "ethrpc_submitter" "entries_processed_total") Counter ["outcome"];
  mkDesc (fq ns "ethrpc_submitter" "entry_process_duration_seconds") Histogram ["outcome"];
  mkDesc (fq ns "ethrpc_submitter" "canton_transfer_duration_seconds") Histogram ["outcome"];
  mkDesc (fq ns "ethrpc_submitter" "canton_transfer_errors_total") Counter ["category"];
  mkDesc (fq ns "ethrpc_submitter" "db_write_errors_total") Counter ["kind"];
  mkDesc (fq ns "ethrpc_submitter" "worker_pool_blocked_total") Counter [];
  mkDesc (fq ns "ethrpc_submitter" "last_successful_drain_timestamp") Gauge []].

(** newSDKMetrics of cantonsdk/client/metrics.go *)
Definition sdk_metrics (ns : string) : list Desc := [
  mkDesc (fq ns "canton_client" "grpc_duration_seconds") Histogram ["method"]].

(** NewMetrics of indexer/engine/metrics.go *)
Definition indexer_engine_metrics (ns : string) : list Desc := [
  mkDesc (fq ns "engine" "events_processed_total") Counter ["event_type"];
  mkDesc (fq ns "engine" "batch_processing_errors_total") Counter [];
  mkDesc (fq ns "engine" "offer_unknown_archive_choices_total") Counter [];
  mkDesc (fq ns "engine" "sync_lag_seconds") Gauge [];
  mkDesc (fq ns "engine" "last_offset") Gauge []].

(** NewStoreMetrics of indexer/store/metrics.go *)
Definition indexer_store_metrics (ns : string) : list Desc := [
  mkDesc (fq ns "db" "query_duration_seconds") Histogram ["operation"];
  mkDesc (fq ns "db" "errors_total") Counter ["operation"]].

(** ** The processes *)

(** pkg/app/relayer: Run *)
Definition relayer_process : list Desc :=
  let ns := "relayer" in
  (relayer_engine_metrics ns ++ relayer_store_metrics ns ++ http_metrics ns ++ ethereum_metrics ns)%list.

(** pkg/app/indexer: Run *)
Definition indexer_process : list Desc :=
  let ns := "indexer_server" in (indexer_engine_metrics ns ++ indexer_store_metrics ns ++ http_metrics ns)%list.

(** pkg/app/api: Run with initServices; the parts of the JSON-RPC facade and of
    the accept worker are registered when they are enabled. *)
Definition api_process (ethrpc acceptWorker : bool) : list Desc :=
  let ns := "api_server" in
  (userstore_metrics ns ++ http_metrics ns ++ sdk_metrics ns ++ indexer_client_metrics ns ++ ethrpc_store_metrics ns ++
   transfer_cache_metrics ns ++ (if ethrpc then miner_metrics ns ++ submitter_metrics ns else []) ++
   (if acceptWorker then custodial_metrics ns else []))%list.

Definition processes : list (list Desc) :=
  [relayer_process; indexer_process; api_process false false; api_process false true; api_process true false; api_process true true].

(** The namespaces of the processes. *)
Definition namespaces : list string := ["relayer_"; "indexer_server_"; "api_server_"].

Section registration.
Context {R : Type} `{!Registerer R} `{!RegistererLaws R}.

Lemma register_distinct ds r : NoDup (ds_Name <$> ds) -> (forall n, n ∈ ds_Name <$> ds -> n ∉ registered r) ->
  exists r', register_all ds r = Some r'.
Proof.
  revert r. induction ds as [|d ds IH]; intros r Hnd Hfree; cbn; [eauto|]. apply NoDup_cons in Hnd as [Hd Hnd].
  destruct (register_new d r) as (r' & -> & Hr'); [apply Hfree; constructor|].
  apply IH; [done|]. intros n Hn. rewrite Hr', not_elem_of_cons. split; [by intros ->|]. apply Hfree. by constructor.
Qed.
End registration.

Lemma fmap_sublist {A B} (f : A -> B) l k : l `sublist_of` k -> f <$> l `sublist_of` f <$> k.
Proof. induction 1; cbn; by constructor. Qed.

(** No process has two metrics of one name, and all of them are in the
    namespace of a process. *)
Definition distinct (ds : list Desc) : bool :=
  bool_decide (NoDup (ds_Name <$> ds)) && forallb (fun d => existsb (fun ns => String.prefix ns (ds_Name d)) namespaces) ds.
Lemma processes_distinct : forallb distinct processes = true.
Proof. vm_compute. reflexivity. Qed.

(** Registering the metrics of a process, or of the parts of it that are
    enabled, never panics: on a registry that has nothing in the namespaces of
    the processes, such as the default one with the metrics of the Go runtime,
    every registration is accepted. *)
Theorem registration_never_panics {R} `{!Registerer R} `{!RegistererLaws R} process ds (r : R) :
  process ∈ processes -> ds `sublist_of` process ->
  (forall n ns, n ∈ registered r -> ns ∈ namespaces -> String.prefix ns n = false) ->
  exists r', register_all ds r = Some r'.
Proof.
  intros Hp Hsub Hfree. pose proof processes_distinct as Hd. rewrite forallb_forall in Hd.
  apply list_elem_of_In in Hp. specialize (Hd process Hp). apply andb_prop in Hd as [Hnd Hns]. apply bool_decide_eq_true_1 in Hnd.
  apply register_distinct.
  - eapply sublist_NoDup; [exact Hnd|by apply fmap_sublist].
  - intros n Hn Hr. apply list_elem_of_fmap in Hn as (d & -> & Hd). rewrite forallb_forall in Hns.
    assert (Hdp : d ∈ process) by (eapply elem_of_sublist; eassumption). apply list_elem_of_In in Hdp.
    specialize (Hns d Hdp). apply existsb_exists in Hns as (ns & Hin & Hpre). apply list_elem_of_In in Hin.
    rewrite (Hfree _ _ Hr Hin) in Hpre. discriminate.
Qed.

(** ** Label values *)

(** A use of a vector: the metrics of its component, its name and the values. *)
Abbreviation Use := (list Desc * string * list string)%type.

Definition arity_ok (u : Use) : bool :=
  let '(ds, name, values) := u in
  existsb (fun d => bool_decide (ds_Name d = name) && bool_decide (length (ds_Labels d) = length values)) ds.

(** The helper methods of the relayer's engine. *)
Definition relayer_engine_uses (direction chain x y : string) : list Use :=
  let ns := "relayer" in let ds := relayer_engine_metrics ns in let n := fq ns "engine" in
  [(ds, n "transfers_total", [direction; x]); (ds, n "transfer_duration_seconds", [direction]); (ds, n "transfer_amount", [direction; x]);
   (ds, n "transactions_sent_total", [chain; x]); (ds, n "events_detected_total", [chain; x]); (ds, n "last_processed_block", [chain]);
   (ds, n "processor_restarts_total", [chain; x]); (ds, n "event_processing_errors_total", [chain; x]); (ds, n "errors_total", [x; y]);
   (ds, n "pending_transfers", [direction]); (ds, n "reconciliation_runs_total", [x]); (ds, n "transfer_retries_total", [direction; x]);
   (ds, n "transfer_age_seconds", [direction]); (ds, n "chain_head_position", [chain])].

(** ObserveQueryDuration and IncErrors of the stores. *)
Definition store_uses (ds : list Desc) (prefix op : string) : list Use :=
  [(ds, prefix +:+ "_query_duration_seconds", [op]); (ds, prefix +:+ "_errors_total", [op])].
Definition relayer_store_uses (op : string) : list Use := store_uses (relayer_store_metrics "relayer") "relayer_db" op.
Definition userstore_uses (op : string) : list Use := store_uses (userstore_metrics "api_server") "api_server_userstore_db" op.
Definition ethrpc_store_uses (op : string) : list Use := store_uses (ethrpc_store_metrics "api_server") "api_server_ethrpc_db" op.
Definition indexer_store_uses (op : string) : list Use := store_uses (indexer_store_metrics "indexer_server") "indexer_server_db" op.

Definition http_uses (ns method endpoint statusCode : string) : list Use :=
  [(http_metrics ns, fq ns "http" "requests_total", [method; endpoint; statusCode]);
   (http_metrics ns, fq ns "http" "request_duration_seconds", [method; endpoint])].

Definition observeRPC_uses (method status : string) : list Use :=
  let ns := "relayer" in
  [(ethereum_metrics ns, fq ns "ethereum_client" "rpc_duration_seconds", [method]);
   (ethereum_metrics ns, fq ns "ethereum_client" "rpc_calls_total", [method; status])].
Definition poll_uses (reason : string) : list Use :=
  [(ethereum_metrics "relayer", fq "relayer" "ethereum_client" "event_poll_failures_total", [reason])].

Definition indexer_engine_uses (eventType : string) : list Use :=
  [(indexer_engine_metrics "indexer_server", fq "indexer_server" "engine" "events_processed_total", [eventType])].
Definition indexer_client_uses (op : string) : list Use :=
  let ns := "api_server" in
  [(indexer_client_metrics ns, fq ns "client" "request_duration_seconds", [op]); (indexer_client_metrics ns, fq ns "client" "request_errors_total", [op])].
Definition sdk_uses (method : string) : list Use :=
  [(sdk_metrics "api_server", fq "api_server" "canton_client" "grpc_duration_seconds", [method])].

(** Every use gives a vector as many values as it has labels, whatever the
    values are, so that WithLabelValues never panics. *)
Theorem label_values_fit a b c d :
  Forall (fun u => arity_ok u = true)
    (relayer_engine_uses a b c d ++ relayer_store_uses a ++ userstore_uses a ++ ethrpc_store_uses a ++ indexer_store_uses a ++
     http_uses "relayer" a b c ++ http_uses "api_server" a b c ++ http_uses "indexer_server" a b c ++
     observeRPC_uses a b ++ poll_uses a ++ indexer_engine_uses a ++ indexer_client_uses a ++ sdk_uses a)%list.
Proof. repeat constructor. Qed.

(** ** HTTP requests *)

(** HTTPMetrics; a histogram is the number of its observations. *)
Record HttpMetrics := mkHttpMetrics {
  RequestsTotal : gmap (string * string * string) Z;
  RequestDuration : gmap (string * string) Z;
  ActiveConnections : Z;
}.
Definition NewHttpMetrics : HttpMetrics := mkHttpMetrics ∅ ∅ 0.

(** How a handler ends: the status that it wrote, or 0 when it wrote none, and
    whether it panicked. *)
Record HandlerEnd := mkHandlerEnd { he_Status : Z; he_Panicked : bool }.

(** ChiRoutePattern: the pattern of the route that was matched. *)
Definition ChiRoutePattern (pattern : option string) : string :=
  match pattern with Some p => if bool_decide (p = "") then "unknown" else p | None => "unknown" end.

Definition bump {K} `{Countable K} (k : K) (m : gmap K Z) : gmap K Z := <[k := default 0 (m !! k) + 1]> m.

(** RequestMetricsMiddleware around a handler: before it, and the deferred
    function after it, which also runs when it panics. *)
Definition request_begin (m : HttpMetrics) : HttpMetrics := mkHttpMetrics (RequestsTotal m) (RequestDuration m) (ActiveConnections m + 1).
Definition request_key (method : string) (pattern : option string) (e : HandlerEnd) : string * string * string :=
  (method, ChiRoutePattern pattern, FormatInt (he_Status e)).
Definition request_end (method : string) (pattern : option string) (e : HandlerEnd) (m : HttpMetrics) : HttpMetrics :=
  let '(mt, ep, st) := request_key method pattern e in
  mkHttpMetrics (bump (mt, ep, st) (RequestsTotal m)) (bump (mt, ep) (RequestDuration m)) (ActiveConnections m - 1).

(** Requests that are served at the same time. *)
Record Serving := mkServing { sv_metrics : HttpMetrics; sv_inflight : list nat; sv_done : list (string * string * string) }.
Inductive serving_step : Serving -> Serving -> Prop :=
  | serving_begin id m l d : id ∉ l -> serving_step (mkServing m l d) (mkServing (request_begin m) (id :: l) d)
  | serving_end id method pattern e m l l' d : l ≡ₚ id :: l' ->
      serving_step (mkServing m l d) (mkServing (request_end method pattern e m) l' (request_key method pattern e :: d)).

Definition occurrences (k : string * string * string) (d : list (string * string * string)) : Z := Z.of_nat (length (filter (fun x => x = k) d)).

(** At any time the gauge is the number of requests in flight, and each counter
    is the number of finished requests of its method, route and status. *)
Theorem http_metrics_true s : rtc serving_step (mkServing NewHttpMetrics [] []) s ->
  ActiveConnections (sv_metrics s) = Z.of_nat (length (sv_inflight s)) /\
  forall k, default 0 (RequestsTotal (sv_metrics s) !! k) = occurrences k (sv_done s).
Proof.
  revert s. refine (rtc_ind_r _ _ _ _).
  - split; [done|]. intros k. cbn. by rewrite lookup_empty.
  - intros s s' _ Hstep [Ha Hc]. destruct Hstep as [id m l d Hid|id method pattern e m l l' d Hl]; cbn in *.
    + split; [lia|done].
    + split; [apply Permutation_length in Hl; cbn in Hl; lia|]. intros k. unfold bump, occurrences. rewrite filter_cons.
      unfold request_key. destruct (decide _) as [<-|Hne].
      * rewrite lookup_insert_eq. cbn. rewrite Hc. unfold occurrences. lia.
      * rewrite lookup_insert_ne by done. apply Hc.
Qed.

(** A handler that panics before it wrote anything is counted with status 0,
    although the Recoverer outside of the middleware answers 500. *)
Example panic_is_status_0 :
  RequestsTotal (request_end "GET" (Some "/v2/tokens") (mkHandlerEnd 0 true) (request_begin NewHttpMetrics)) !! ("GET", "/v2/tokens", "0") = Some 1.
Proof. vm_compute. reflexivity. Qed.

(** ** Witness: a registry that is the list of its names *)

#[local] Instance list_registry : Registerer (list string) := {|
  Register d r := if bool_decide (ds_Name d ∈ r) then None else Some (ds_Name d :: r);
  registered r := r |}.
#[local] Instance list_registry_laws : RegistererLaws (list string).
Proof. intros d r Hd. exists (ds_Name d :: r). cbn. by rewrite bool_decide_eq_false_2. Qed.

Lemma registration_never_panics_witness :
  exists r' : list string, register_all (api_process true true) ["go_goroutines"; "process_cpu_seconds_total"] = Some r'.
Proof.
  apply (registration_never_panics (api_process true true)); [do 5 right; left|reflexivity|].
  intros n ns Hn Hns. cbn in Hn. unfold namespaces in Hns. rewrite !elem_of_cons, elem_of_nil in Hn. rewrite !elem_of_cons, elem_of_nil in Hns.
  destruct Hn as [->|[->|[]]], Hns as [->|[->|[->|[]]]]; reflexivity.
Defined.
