(* ===== verification/CacheMetrics.v ===== *)
(** * CacheMetrics: the instrumented cache of prepared transfers

    pkg/transfer/cache_instrumented.go and cache_metrics.go: every Put and
    GetAndDelete is forwarded and counted by its result.  The counters tell how
    many transfers the cache holds, up to those that the clean-up removed. *)

From S2P Require Import Prelude AppErrors Effects GoStd TokenCodec PreparedCache Instrumented.
Local Open Scope Z_scope.

Record CacheMetrics := mkCacheMetrics { PutsTotal : gmap string Z; GetsTotal : gmap string Z }.
Definition NewCacheMetrics : CacheMetrics := mkCacheMetrics ∅ ∅.

(** The error variables by which results are told apart. *)
Definition is_var (err : error) (name text : string) : bool := errors_Is err name text.

Definition put_label {A} (r : result A) : string :=
  match r with
  | Ok _ => "ok"
  | Err e => if is_var e "transfer.ErrCacheFull" "cache is full" then "full" else "ok"
  end.

Definition get_label {A} (r : result A) : string :=
  match r with
  | Ok _ => "ok"
  | Err e =>
      if is_var e "transfer.ErrTransferNotFound" "transfer not found" then "not_found"
      else if is_var e "transfer.ErrTransferExpired" "transfer expired" then "expired"
      else "error"
  end.

(** InstrumentedCache *)
Definition instrumented_Put (now : Z) (p : PreparedTransfer) : M (PreparedTransferCache * CacheMetrics) PreparedTransfer := fun s =>
  let '(r, c) := Put now p s.1 in (r, (c, mkCacheMetrics (Inc (put_label r) (PutsTotal s.2)) (GetsTotal s.2))).

Definition instrumented_GetAndDelete (now : Z) (id : string) : M (PreparedTransferCache * CacheMetrics) PreparedTransfer := fun s =>
  let '(r, c) := GetAndDelete now id s.1 in (r, (c, mkCacheMetrics (PutsTotal s.2) (Inc (get_label r) (GetsTotal s.2)))).

Theorem instrumented_cache_erases now p id :
  erases (instrumented_Put now p) (Put now p) /\ erases (instrumented_GetAndDelete now id) (GetAndDelete now id).
Proof.
  split; intros s; unfold instrumented_Put, instrumented_GetAndDelete; [by destruct (Put now p s.1)|by destruct (GetAndDelete now id s.1)].
Qed.

(** ** Runs *)

(** Operations of the program; a transfer id is a fresh uuid, so a Put is of an id that is not stored. *)
Inductive cache_step : PreparedTransferCache * CacheMetrics -> PreparedTransferCache * CacheMetrics -> Prop :=
| cs_put now p s : pc_entries s.1 !! p_TransferID p = None -> cache_step s (instrumented_Put now p s).2
| cs_get now id s : cache_step s (instrumented_GetAndDelete now id s).2
| cs_cleanup now s : cache_step s (cleanup now s.1, s.2).

(** What was stored and neither handed out nor dropped as expired. *)
Definition outstanding (m : CacheMetrics) : Z :=
  counter "ok" (PutsTotal m) - counter "ok" (GetsTotal m) - counter "expired" (GetsTotal m).

Lemma put_outstanding now p s : pc_entries s.1 !! p_TransferID p = None ->
  let s' := (instrumented_Put now p s).2 in
  Z.of_nat (size (pc_entries s'.1)) - Z.of_nat (size (pc_entries s.1)) = outstanding s'.2 - outstanding s.2.
Proof.
  intros Hnone. unfold instrumented_Put, Put, outstanding. destruct (is_full s.1); cbn -[counter Inc].
  - rewrite counter_Inc_ne by done. lia.
  - rewrite counter_Inc, map_size_insert_None by done. lia.
Qed.

Lemma get_outstanding now id s :
  let s' := (instrumented_GetAndDelete now id s).2 in
  Z.of_nat (size (pc_entries s'.1)) - Z.of_nat (size (pc_entries s.1)) = outstanding s'.2 - outstanding s.2 /\
  counter "error" (GetsTotal s'.2) = counter "error" (GetsTotal s.2).
Proof.
  unfold instrumented_GetAndDelete, GetAndDelete, get_and_delete, outstanding.
  destruct (pc_entries s.1 !! id) as [p|] eqn:Hid; cbn -[counter Inc].
  2: { rewrite !counter_Inc_ne by done. split; lia. }
  assert (size (pc_entries s.1) = S (size (delete id (pc_entries s.1)))) as ->.
  { rewrite <- (insert_delete_id _ _ _ Hid) at 1. by rewrite map_size_insert_None by apply lookup_delete_eq. }
  destruct (p_ExpiresAt p <? now); cbn -[counter Inc get_label].
  - change (get_label (Err ErrTransferExpired)) with "expired"%string. rewrite counter_Inc, !counter_Inc_ne by done. split; lia.
  - cbn [get_label]. rewrite counter_Inc, !counter_Inc_ne by done. split; lia.
Qed.

(** The counters bound the cache.  However the calls and the clean-ups follow
    each other, the cache holds at most the transfers that were counted as put
    and not as fetched or expired, and a lookup never ends in the label for
    unknown errors. *)
Theorem cache_metrics_bound s s' : rtc cache_step s s' ->
  Z.of_nat (size (pc_entries s'.1)) - Z.of_nat (size (pc_entries s.1)) <= outstanding s'.2 - outstanding s.2 /\
  counter "error" (GetsTotal s'.2) = counter "error" (GetsTotal s.2).
Proof.
  induction 1 as [s|s s1 s2 Hs _ [IH1 IH2]]; [split; lia|]. rewrite IH2.
  enough (Z.of_nat (size (pc_entries s1.1)) - Z.of_nat (size (pc_entries s.1)) <= outstanding s1.2 - outstanding s.2 /\
    counter "error" (GetsTotal s1.2) = counter "error" (GetsTotal s.2)) as [? ?] by (split; [lia|done]).
  destruct Hs as [now p s Hnone|now id s|now s].
  - pose proof (put_outstanding now p s Hnone) as Hput. cbn -[instrumented_Put outstanding counter] in Hput. split; [lia|].
    unfold instrumented_Put, Put. by destruct (is_full s.1).
  - pose proof (get_outstanding now id s) as [Hget Herr]. cbn -[instrumented_GetAndDelete outstanding counter] in Hget, Herr. split; [lia|done].
  - cbn. split; [|done].
    assert (size (cleanup_entries p_ExpiresAt now (pc_entries s.1)) <= size (pc_entries s.1))%nat; [|lia].
    unfold cleanup_entries. apply map_subseteq_size, map_filter_subseteq.
Qed.
