(* ===== verification/RelayerMetrics.v ===== *)
(** * RelayerMetrics: the relayer's counters

    pkg/relayer/engine/metrics.go, and the processor, the reconciliation tick
    and the readiness check with the metrics they record.  A histogram is the
    number of its observations.  The metrics of the sources, the restart
    counter and the two that are read from a text as a float (TransferAmount,
    LastProcessedBlock) are left out.  Forgetting the metrics, the code is that of RelayerProcessor and
    RelayerEngine; what the counters of a processor say is tied to its rows. *)

From S2P Require Import Prelude AppErrors Effects GoStd EthClient RelayerStore Decimal RelayerChains RelayerProcessor RelayerEngine Instrumented.
Local Open Scope Z_scope.

(** ** Metrics *)

(** A vector of counters by its two label values. *)
Definition CounterVec : Type := gmap (string * string) Z.
Definition value (k : string * string) (v : CounterVec) : Z := default 0 (v !! k).
Definition incr (k : string * string) (v : CounterVec) : CounterVec := <[k := value k v + 1]> v.

Record RelayMetrics := mkRelayMetrics {
  TransfersTotal : CounterVec;
  TransferDuration : gmap string Z;
  TransactionsSent : CounterVec;
  EventProcessingErrors : CounterVec;
  ProcessorErrors : CounterVec;
  PendingTransfers : gmap string Z;
  ReconciliationDuration : Z;
  ReconciliationRuns : gmap string Z;
  TransferRetries : CounterVec;
  TransferAge : gmap string Z;
  ChainHeadPosition : gmap string Z;
  Ready : Z;
}.

Definition NewRelayMetrics : RelayMetrics := mkRelayMetrics ∅ ∅ ∅ ∅ ∅ ∅ 0 ∅ ∅ ∅ ∅ 0.

(** Label values *)
Definition direction_label (d : TransferDirection) : string :=
  match d with DirectionCantonToEthereum => "canton_to_ethereum" | DirectionEthereumToCanton => "ethereum_to_canton" end.
Definition TxStatusSuccess : string := "success".
Definition TxStatusFailed : string := "failed".
Definition TransferResultCompleted : string := "completed".
Definition RetryOutcomeSuccess : string := "success".
Definition RetryOutcomeFailed : string := "failed".
Definition RetryOutcomeMaxExceeded : string := "max_exceeded".
Definition ReconciliationSuccess : string := "success".
Definition ReconciliationError : string := "error".
Definition StageCreateTransfer : string := "create_transfer".
Definition StageSubmit : string := "submit".
Definition StagePostSubmitHook : string := "post_submit_hook".
Definition ErrorCategoryProcessing : string := "processing".

(** Helper methods *)
Definition IncTransfersTotal (d : TransferDirection) (res : string) (m : RelayMetrics) : RelayMetrics :=
  mkRelayMetrics (incr (direction_label d, res) (TransfersTotal m)) (TransferDuration m) (TransactionsSent m)
    (EventProcessingErrors m) (ProcessorErrors m) (PendingTransfers m) (ReconciliationDuration m) (ReconciliationRuns m)
    (TransferRetries m) (TransferAge m) (ChainHeadPosition m) (Ready m).
Definition ObserveTransferDuration (d : TransferDirection) (m : RelayMetrics) : RelayMetrics :=
  mkRelayMetrics (TransfersTotal m) (Inc (direction_label d) (TransferDuration m)) (TransactionsSent m)
    (EventProcessingErrors m) (ProcessorErrors m) (PendingTransfers m) (ReconciliationDuration m) (ReconciliationRuns m)
    (TransferRetries m) (TransferAge m) (ChainHeadPosition m) (Ready m).
Definition IncTransactionsSent (chain status : string) (m : RelayMetrics) : RelayMetrics :=
  mkRelayMetrics (TransfersTotal m) (TransferDuration m) (incr (chain, status) (TransactionsSent m))
    (EventProcessingErrors m) (ProcessorErrors m) (PendingTransfers m) (ReconciliationDuration m) (ReconciliationRuns m)
    (TransferRetries m) (TransferAge m) (ChainHeadPosition m) (Ready m).
Definition IncEventProcessingErrors (chain stage : string) (m : RelayMetrics) : RelayMetrics :=
  mkRelayMetrics (TransfersTotal m) (TransferDuration m) (TransactionsSent m)
    (incr (chain, stage) (EventProcessingErrors m)) (ProcessorErrors m) (PendingTransfers m) (ReconciliationDuration m) (ReconciliationRuns m)
    (TransferRetries m) (TransferAge m) (ChainHeadPosition m) (Ready m).
Definition IncErrorsTotal (component category : string) (m : RelayMetrics) : RelayMetrics :=
  mkRelayMetrics (TransfersTotal m) (TransferDuration m) (TransactionsSent m)
    (EventProcessingErrors m) (incr (component, category) (ProcessorErrors m)) (PendingTransfers m) (ReconciliationDuration m) (ReconciliationRuns m)
    (TransferRetries m) (TransferAge m) (ChainHeadPosition m) (Ready m).
Definition SetPendingTransfers (d : TransferDirection) (count : Z) (m : RelayMetrics) : RelayMetrics :=
  mkRelayMetrics (TransfersTotal m) (TransferDuration m) (TransactionsSent m)
    (EventProcessingErrors m) (ProcessorErrors m) (<[direction_label d := count]> (PendingTransfers m)) (ReconciliationDuration m) (ReconciliationRuns m)
    (TransferRetries m) (TransferAge m) (ChainHeadPosition m) (Ready m).
Definition ObserveReconciliationDuration (m : RelayMetrics) : RelayMetrics :=
  mkRelayMetrics (TransfersTotal m) (TransferDuration m) (TransactionsSent m)
    (EventProcessingErrors m) (ProcessorErrors m) (PendingTransfers m) (ReconciliationDuration m + 1) (ReconciliationRuns m)
    (TransferRetries m) (TransferAge m) (ChainHeadPosition m) (Ready m).
Definition IncReconciliationRuns (res : string) (m : RelayMetrics) : RelayMetrics :=
  mkRelayMetrics (TransfersTotal m) (TransferDuration m) (TransactionsSent m)
    (EventProcessingErrors m) (ProcessorErrors m) (PendingTransfers m) (ReconciliationDuration m) (Inc res (ReconciliationRuns m))
    (TransferRetries m) (TransferAge m) (ChainHeadPosition m) (Ready m).
Definition IncTransferRetries (d : TransferDirection) (res : string) (m : RelayMetrics) : RelayMetrics :=
  mkRelayMetrics (TransfersTotal m) (TransferDuration m) (TransactionsSent m)
    (EventProcessingErrors m) (ProcessorErrors m) (PendingTransfers m) (ReconciliationDuration m) (ReconciliationRuns m)
    (incr (direction_label d, res) (TransferRetries m)) (TransferAge m) (ChainHeadPosition m) (Ready m).
Definition ObserveTransferAge (d : TransferDirection) (m : RelayMetrics) : RelayMetrics :=
  mkRelayMetrics (TransfersTotal m) (TransferDuration m) (TransactionsSent m)
    (EventProcessingErrors m) (ProcessorErrors m) (PendingTransfers m) (ReconciliationDuration m) (ReconciliationRuns m)
    (TransferRetries m) (Inc (direction_label d) (TransferAge m)) (ChainHeadPosition m) (Ready m).
Definition SetChainHeadPosition (chain : string) (position : Z) (m : RelayMetrics) : RelayMetrics :=
  mkRelayMetrics (TransfersTotal m) (TransferDuration m) (TransactionsSent m)
    (EventProcessingErrors m) (ProcessorErrors m) (PendingTransfers m) (ReconciliationDuration m) (ReconciliationRuns m)
    (TransferRetries m) (TransferAge m) (<[chain := position]> (ChainHeadPosition m)) (Ready m).
Definition SetReady (v : Z) (m : RelayMetrics) : RelayMetrics :=
  mkRelayMetrics (TransfersTotal m) (TransferDuration m) (TransactionsSent m)
    (EventProcessingErrors m) (ProcessorErrors m) (PendingTransfers m) (ReconciliationDuration m) (ReconciliationRuns m)
    (TransferRetries m) (TransferAge m) (ChainHeadPosition m) v.

(** Code that records nothing, and a record. *)
Definition plain {W A} (c : M W A) : M (W * RelayMetrics) A := zoom fst (fun w s => (w, s.2)) c.
Definition metric {W} (f : RelayMetrics -> RelayMetrics) : M (W * RelayMetrics) unit := modify (fun s => (s.1, f s.2)).

(** ** The processor with its metrics *)

Section processor.
Context {S X : Type} `{!BridgeStore S}.
Abbreviation MP := (M (ProcState S X * RelayMetrics)).

(** processEvent; the deferred observation of the duration is in [wired_processEvent]. *)
Definition wired_handle (now : Z) (p : Processor S X) (ev : Event) : MP unit :=
  created ← attempt (plain (on_engine (on_store (bs_create now (transfer_of p ev now)))));
  match created with
  | Err e =>
      _ ← metric (IncEventProcessingErrors (p_sourceChain p) StageCreateTransfer);
      fail (ErrWrap "failed to create transfer: " e "")
  | Ok false => plain (persistOffset now p ev)
  | Ok true =>
      submitted ← attempt (plain (on_engine (on_ext (p_submit p ev))));
      match submitted with
      | Err submitErr =>
          _ ← metric (IncTransactionsSent (p_destChain p) TxStatusFailed);
          _ ← metric (IncEventProcessingErrors (p_sourceChain p) StageSubmit);
          _ ← attempt (plain (on_engine (on_store
                (bs_update now (ev_ID ev) TransferStatusPending None (Some (Error submitErr))))));
          fail (ErrWrap "submission failed: " submitErr "")
      | Ok (destTxHash, true) =>
          _ ← attempt (plain (on_engine (on_store
                (bs_update now (ev_ID ev) TransferStatusCompleted None None))));
          plain (persistOffset now p ev)
      | Ok (destTxHash, false) =>
          _ ← attempt (plain (on_engine (on_store
                (bs_update now (ev_ID ev) TransferStatusCompleted (Some destTxHash) None))));
          _ ← match p_onPostSubmit p with
              | Some hook =>
                  r ← attempt (plain (on_engine (on_ext (hook ev destTxHash))));
                  match r with
                  | Ok _ => mret tt
                  | Err _ => metric (IncEventProcessingErrors (p_sourceChain p) StagePostSubmitHook)
                  end
              | None => mret tt
              end;
          _ ← plain (persistOffset now p ev);
          _ ← metric (IncTransfersTotal (p_direction p) TransferResultCompleted);
          _ ← metric (IncTransactionsSent (p_destChain p) TxStatusSuccess);
          metric (ObserveTransferAge (p_direction p))
      end
  end.

Definition wired_processEvent (now : Z) (p : Processor S X) (ev : Event) : MP unit := fun s =>
  let '(r, s') := wired_handle now p ev s in (r, (s'.1, ObserveTransferDuration (p_direction p) s'.2)).

(** One iteration of Start's loop; [metricsName] names the processor. *)
Definition wired_step (metricsName : string) (p : Processor S X) (now : Z) (ev : Event) : MP unit :=
  if ev_Checkpoint ev then plain (persistOffset now p ev)
  else
    r ← attempt (wired_processEvent now p ev);
    match r with
    | Ok _ => mret tt
    | Err _ => _ ← plain (count_error (ev_ID ev)); metric (IncErrorsTotal metricsName ErrorCategoryProcessing)
    end.

Definition wired_Start (metricsName : string) (p : Processor S X) (evs : list (Z * Event)) : MP unit :=
  for_each evs (fun '(now, ev) => wired_step metricsName p now ev).
End processor.

(** ** The engine with its metrics *)

Section engine.
Context {S X : Type} `{!BridgeStore S} `{!CantonBridge X} `{!EthereumBridge X}.
Local Abbreviation E := (Engine S X).
Abbreviation ME := (M (E * RelayMetrics)).
Variable cfg : Config.

(** A destination: its chain id and SubmitTransfer. *)
Definition Dest : Type := string * (Event -> M X (string * bool)).

Definition wired_retryStuckTransfer (now : Z) (t : Transfer) (dest : option Dest) : ME unit :=
  match dest with
  | None => mret tt
  | Some (chain, submit) =>
      r ← attempt (plain (on_ext (submit (event_of_transfer t))));
      match r with
      | Err _ =>
          _ ← metric (IncTransferRetries (t_Direction t) RetryOutcomeFailed);
          _ ← metric (IncTransactionsSent chain TxStatusFailed);
          _ ← attempt (plain (on_store (bs_retry now (t_ID t))));
          mret tt
      | Ok (destTxHash, skipped) =>
          _ ← metric (IncTransferRetries (t_Direction t) RetryOutcomeSuccess);
          _ ← metric (ObserveTransferAge (t_Direction t));
          _ ← (if (skipped : bool) then mret tt else metric (IncTransactionsSent chain TxStatusSuccess));
          let txHashPtr := if (skipped : bool) then None else Some (destTxHash : string) in
          _ ← attempt (plain (on_store (bs_update now (t_ID t) TransferStatusCompleted txHashPtr None)));
          mret tt
      end
  end.

Definition wired_maybeRetryTransfer (now : Z) (t : Transfer) (dest : option Dest) (maxRetries retryDelay : Z) : ME unit :=
  if (0 <? maxRetries) && (maxRetries <=? t_RetryCount t) then
    _ ← metric (IncTransferRetries (t_Direction t) RetryOutcomeMaxExceeded);
    _ ← attempt (plain (on_store (bs_update now (t_ID t) TransferStatusFailed None
          (Some ("max retries (" +:+ FormatInt maxRetries +:+ ") exceeded")%string))));
    mret tt
  else if now <? t_UpdatedAt t + retryDelay then mret tt
  else wired_retryStuckTransfer now t dest.

Definition wired_runReconciliation (now : Z) (ethDest cantonDest : option Dest) : ME unit :=
  cantonPending ← wrapping "get pending canton transfers: " (plain (on_store (bs_pending DirectionCantonToEthereum)));
  ethPending ← wrapping "get pending ethereum transfers: " (plain (on_store (bs_pending DirectionEthereumToCanton)));
  _ ← metric (SetPendingTransfers DirectionCantonToEthereum (Z.of_nat (length cantonPending)));
  _ ← metric (SetPendingTransfers DirectionEthereumToCanton (Z.of_nat (length ethPending)));
  let maxRetries := MaxRetries cfg in
  let retryDelay := if RetryDelay cfg <=? 0 then stuckTransferThreshold else RetryDelay cfg in
  _ ← for_each cantonPending (fun t => wired_maybeRetryTransfer now t ethDest maxRetries retryDelay);
  for_each ethPending (fun t => wired_maybeRetryTransfer now t cantonDest maxRetries retryDelay).

Definition updateChainHeadPositions : ME unit :=
  head ← attempt (plain (on_ext GetLatestBlockNumber));
  _ ← match head with Ok headBlock => metric (SetChainHeadPosition ChainEthereum headBlock) | Err _ => mret tt end;
  ledger ← attempt (plain (on_ext GetLatestLedgerOffset));
  match ledger with Ok ledgerEnd => metric (SetChainHeadPosition ChainCanton ledgerEnd) | Err _ => mret tt end.

(** One tick of reconcileLoop *)
Definition reconcile_tick (now : Z) (ethDest cantonDest : option Dest) : ME unit :=
  _ ← updateChainHeadPositions;
  r ← attempt (wired_runReconciliation now ethDest cantonDest);
  _ ← metric (IncReconciliationRuns (if is_ok r then ReconciliationSuccess else ReconciliationError));
  metric ObserveReconciliationDuration.

(** updateReadyGauge *)
Definition updateReadyGauge : ME unit :=
  modify (fun s => (s.1, SetReady (if cantonSynced s.1 && ethereumSynced s.1 then 1 else 0) s.2)).

Definition wired_mark (mark : M E unit) : ME unit := _ ← plain mark; updateReadyGauge.

Definition wired_checkEthereumReadiness : ME unit :=
  r ← attempt (plain (on_ext GetLatestBlockNumber));
  match r with
  | Err _ => mret tt
  | Ok headBlock =>
      e ← plain get;
      if ethereumSynced e then mret tt
      else
        let lastProcessed := Z.max (ethLastBlock e) (GetLastScannedBlock (e_ext e)) in
        if headBlock <=? uint64 (lastProcessed + 1) then wired_mark mark_ethereum else mret tt
  end.

Definition wired_checkCantonReadiness (now : Z) : ME unit :=
  r ← attempt (plain (on_ext GetLatestLedgerOffset));
  match r with
  | Err _ => mret tt
  | Ok ledgerEnd =>
      e ← plain get;
      if cantonSynced e then mret tt
      else if bool_decide (cantonOffset e = ""%string) || bool_decide (cantonOffset e = FormatInt ledgerEnd)
      then wired_mark mark_canton
      else if bool_decide (cantonOffset e = OffsetBegin) then wired_mark mark_canton
      else
        match ParseInt (cantonOffset e) with
        | Err _ => mret tt
        | Ok currentOffset =>
            if ledgerEnd <=? currentOffset then wired_mark mark_canton
            else
              match cantonStreamStarted e with
              | Some started => if streamGracePeriod <=? now - started then wired_mark mark_canton else mret tt
              | None => mret tt
              end
        end
  end.

Definition wired_checkReadiness (now : Z) : ME unit :=
  _ ← wired_checkEthereumReadiness;
  wired_checkCantonReadiness now.
End engine.

(** ** Forgetting the metrics *)

Lemma erases_plain {W A} (c : M W A) : erases (plain c) c.
Proof. intros [w m]. unfold plain, zoom. cbn. by destruct (c w). Qed.

Lemma erases_metric {W A} f (k : unit -> M (W * RelayMetrics) A) c : erases (k tt) c -> erases (metric f ≫= k) c.
Proof. intros Hk [w m]. unfold metric, mbind, M_bind, modify. cbn. apply (Hk (w, f m)). Qed.

Lemma erases_last {W} f : erases (W := W) (metric f) (mret tt).
Proof. done. Qed.

(** An error that is counted before it is wrapped. *)
Lemma erases_counted {W A B} pre (c' : M (W * RelayMetrics) A) c (K : result A -> M (W * RelayMetrics) B) k :
  erases c' c -> (forall e, erases (K (Err e)) (fail (ErrWrap pre e ""))) -> (forall a, erases (K (Ok a)) (k a)) ->
  erases (attempt c' ≫= K) (wrapping pre c ≫= k).
Proof.
  intros Hc He Ha s. unfold attempt, wrapping, mbind, M_bind. destruct (Hc s) as [Hr Hw].
  destruct (c' s) as [r [w x]], (c s.1) as [r' w']. cbn in *. subst. destruct r'; cbn; [apply (Ha a (w', x))|apply (He e (w', x))].
Qed.

(** Records after the last call. *)
Lemma erases_after {W A} (c' : M (W * RelayMetrics) A) c k :
  erases c' c -> (forall a, erases (k a) (mret a)) -> erases (c' ≫= k) c.
Proof.
  intros Hc Hk s. unfold mbind, M_bind. destruct (Hc s) as [Hr Hw].
  destruct (c' s) as [r [w x]], (c s.1) as [r' w']. cbn in *. subst. destruct r'; [|done]. apply (Hk a (w', x)).
Qed.

#[export] Hint Resolve erases_plain erases_last : erases.

Ltac erase := repeat first
  [ solve [eauto with erases]
  | apply erases_metric
  | apply erases_attempt
  | apply erases_wrapping
  | apply erases_for_each
  | apply erases_bind
  | progress intros
  | progress cbv zeta
  | match goal with |- erases (match ?x with _ => _ end) _ => destruct x end ].

Section erasure.
Context {S X : Type} `{!BridgeStore S}.

Lemma wired_processEvent_erases now (p : Processor S X) ev : erases (wired_processEvent now p ev) (processEvent now p ev).
Proof.
  assert (erases (wired_handle now p ev) (processEvent now p ev)) as Hh.
  { apply erases_counted; [erase..|]. intros [|]; [|erase]. cbn [negb]. apply erases_bind; [erase|]. intros [[h [|]]|e]; [erase| |erase].
    apply erases_bind; [erase|]. intros _. apply erases_bind.
    - destruct (p_onPostSubmit p); [|erase]. apply erases_bind; [erase|]. intros [|]; erase.
    - intros _. apply erases_after; [erase|]. intros []. erase. }
  intros s. unfold wired_processEvent. destruct (Hh s) as [Hr Hw]. by destruct (wired_handle now p ev s).
Qed.

(** With its metrics the processor does what the processor of RelayerProcessor does. *)
Theorem wired_Start_erases name (p : Processor S X) evs : erases (wired_Start name p evs) (Start p evs).
Proof.
  apply erases_for_each. intros [now ev]. unfold wired_step, step. destruct (ev_Checkpoint ev); [erase|].
  apply erases_bind; [apply erases_attempt, wired_processEvent_erases|]. intros [|]; [erase|]. apply erases_after; [erase|]. intros []. erase.
Qed.

Context `{!CantonBridge X} `{!EthereumBridge X}.
Variable cfg : Config.

Lemma wired_maybeRetryTransfer_erases now t (dest : option (Dest (X := X))) maxRetries retryDelay :
  erases (W := Engine S X) (wired_maybeRetryTransfer now t dest maxRetries retryDelay)
    (maybeRetryTransfer now t (snd <$> dest) maxRetries retryDelay).
Proof.
  unfold wired_maybeRetryTransfer, maybeRetryTransfer. destruct (_ && _); [erase|]. destruct (_ <? _); [erase|].
  destruct dest as [[chain submit]|]; cbn; [|erase]. apply erases_bind; [erase|]. intros [[h []]|e]; cbn; [|erase..].
  do 2 apply erases_metric. intros s. apply (erases_bind _ _ (fun _ => mret tt) (fun _ => mret tt)); erase.
Qed.

Lemma wired_runReconciliation_erases now (ethDest cantonDest : option (Dest (X := X))) :
  erases (W := Engine S X) (wired_runReconciliation cfg now ethDest cantonDest)
    (runReconciliation cfg now (snd <$> ethDest) (snd <$> cantonDest)).
Proof.
  apply erases_bind; [erase|]. intros cs. apply erases_bind; [erase|]. intros es. do 2 apply erases_metric.
  apply erases_bind; [|intros _]; apply erases_for_each; intros t; apply wired_maybeRetryTransfer_erases.
Qed.

Lemma wired_mark_erases (mark : M (Engine S X) unit) : erases (wired_mark mark) mark.
Proof. apply erases_after; [erase|]. by intros [] s. Qed.
#[local] Hint Resolve wired_mark_erases : erases.

(** With the gauge the readiness check is that of RelayerEngine. *)
Theorem wired_checkReadiness_erases now : erases (W := Engine S X) (wired_checkReadiness now) (checkReadiness now).
Proof.
  apply erases_bind; [|intros _]; (apply erases_bind; [erase|]; intros [|]; [|erase]; apply erases_bind; [erase|]; intros e); erase.
Qed.
End erasure.

(** ** What the processor's metrics say *)

Lemma value_incr k k' v : value k (incr k' v) = value k v + (if decide (k = k') then 1 else 0).
Proof. unfold incr, value, CounterVec in *. destruct (decide (k = k')) as [->|Hne]; [by rewrite lookup_insert_eq|]. rewrite lookup_insert_ne by done. lia. Qed.

#[local] Arguments value : simpl never.
#[local] Arguments incr : simpl never.
#[local] Arguments counter : simpl never.
#[local] Arguments Inc : simpl never.

(** A row of a transfer that was carried out, with the hash of its transaction. *)
Definition carried_out (kv : string * Transfer) : Prop :=
  t_Status kv.2 = TransferStatusCompleted /\ is_Some (t_DestinationTxHash kv.2).
#[global] Instance carried_out_dec kv : Decision (carried_out kv).
Proof. unfold carried_out. apply _. Defined.

Definition carried (m : gmap string Transfer) : Z := Z.of_nat (size (filter carried_out m)).

Lemma carried_insert m id t : m !! id = None ->
  carried (<[id := t]> m) = carried m + (if decide (carried_out (id, t)) then 1 else 0).
Proof.
  intros Hnone. unfold carried. destruct (decide (carried_out (id, t))) as [Hc|Hc].
  - rewrite map_filter_insert_True by done. rewrite map_size_insert_None; [lia|]. by rewrite map_lookup_filter, Hnone.
  - rewrite map_filter_insert_False, delete_id by done. lia.
Qed.

Section account.
Context {S X : Type} `{!BridgeStore S} `{!BridgeStoreLaws S}.
Variables (name : string) (p : Processor S X).
Hypothesis frame : offset_frame p.
Abbreviation St := (ProcState S X * RelayMetrics)%type.

(** The counters of the processor. *)
Definition completed_count (m : RelayMetrics) : Z :=
  value (direction_label (p_direction p), TransferResultCompleted) (TransfersTotal m).
Definition sent_count (m : RelayMetrics) : Z := value (p_destChain p, TxStatusSuccess) (TransactionsSent m).
Definition unsent_count (m : RelayMetrics) : Z := value (p_destChain p, TxStatusFailed) (TransactionsSent m).
Definition create_errors (m : RelayMetrics) : Z := value (p_sourceChain p, StageCreateTransfer) (EventProcessingErrors m).
Definition submit_errors (m : RelayMetrics) : Z := value (p_sourceChain p, StageSubmit) (EventProcessingErrors m).
Definition error_count (m : RelayMetrics) : Z := value (name, ErrorCategoryProcessing) (ProcessorErrors m).
Definition event_count (m : RelayMetrics) : Z := counter (direction_label (p_direction p)) (TransferDuration m).

(** From [s] to [s'], [n] transfer events later, the counters account for the
    rows and the errors. *)
Record accounted (n : Z) (s s' : St) : Prop := {
  acc_events : event_count s'.2 = event_count s.2 + n;
  acc_sent : sent_count s'.2 - sent_count s.2 = completed_count s'.2 - completed_count s.2;
  acc_unsent : unsent_count s'.2 - unsent_count s.2 = submit_errors s'.2 - submit_errors s.2;
  acc_errors : error_count s'.2 - error_count s.2 =
    (create_errors s'.2 - create_errors s.2) + (submit_errors s'.2 - submit_errors s.2);
  acc_ids : error_count s'.2 - error_count s.2 = Z.of_nat (length (ps_errors s'.1)) - Z.of_nat (length (ps_errors s.1));
  acc_carried : carried (rows s'.1) - carried (rows s.1) <= completed_count s'.2 - completed_count s.2;
  acc_rows : completed_count s'.2 - completed_count s.2 <= Z.of_nat (size (rows s'.1)) - Z.of_nat (size (rows s.1));
}.

Lemma accounted_refl s : accounted 0 s s.
Proof. split; lia. Qed.

Lemma accounted_trans n k s s1 s2 : accounted n s s1 -> accounted k s1 s2 -> accounted (n + k) s s2.
Proof. intros [] []. split; lia. Qed.

(** What processEvent records, by the answers of the store and the destination. *)
Definition recorded (now : Z) (ev : Event) (st : ProcState S X) (m : RelayMetrics) (r : result unit) (m' : RelayMetrics) : Prop :=
  match (bs_create now (transfer_of p ev now) (e_store (ps_engine st))).1 with
  | Err _ => is_ok r = false /\ m' = IncEventProcessingErrors (p_sourceChain p) StageCreateTransfer m
  | Ok false => is_ok r = true /\ m' = m
  | Ok true =>
      match (p_submit p ev (world st)).1 with
      | Err _ => is_ok r = false /\
          m' = IncEventProcessingErrors (p_sourceChain p) StageSubmit (IncTransactionsSent (p_destChain p) TxStatusFailed m)
      | Ok (_, true) => is_ok r = true /\ m' = m
      | Ok (_, false) => is_ok r = true /\ exists hookFailed : bool,
          m' = ObserveTransferAge (p_direction p) (IncTransactionsSent (p_destChain p) TxStatusSuccess
                 (IncTransfersTotal (p_direction p) TransferResultCompleted
                   (if hookFailed then IncEventProcessingErrors (p_sourceChain p) StagePostSubmitHook m else m)))
      end
  end.

Lemma wp_plain {W A} (c : M W A) Q (s : W * RelayMetrics) :
  (forall r w, c s.1 = (r, w) -> Q r (w, s.2)) -> wp (plain c) Q s.
Proof. intros HQ. unfold plain. apply wp_zoom, wp_intro, HQ. Qed.

Lemma persisted now ev st r st' : persistOffset now p ev st = (r, st') -> is_ok r = true.
Proof. intros Hrun. by destruct (wp_run _ _ _ _ _ (persistOffset_spec now p ev st frame) Hrun) as [-> _]. Qed.

Lemma wired_handle_records now ev st m :
  wp (wired_handle now p ev) (fun r s' => recorded now ev st m r s'.2) (st, m).
Proof.
  unfold wired_handle, recorded. wp_go. apply wp_plain. cbn [fst snd]. intros c st1 Hc.
  unfold on_engine, on_store, zoom in Hc. destruct (bs_create _ _ _) as [c0 s0]. injection Hc as -> <-. cbn [fst].
  destruct c as [[|]|e].
  - wp_go. apply wp_plain. cbn [fst snd]. intros sub st2 Hs. unfold on_engine, on_ext, zoom in Hs. cbn in Hs.
    unfold world. destruct (p_submit p ev _) as [sub0 x0]. injection Hs as -> <-. cbn [fst].
    destruct sub as [[h [|]]|e]; unfold metric; wp_go.
    + apply wp_plain. intros _ st3 _. wp_go. apply wp_plain. intros r st4 Hr. split; [by eapply persisted|done].
    + apply wp_plain. intros _ st3 _. wp_go.
      apply (wp_mono _ (fun r s => r = Ok tt /\ exists hf : bool,
        s.2 = if hf then IncEventProcessingErrors (p_sourceChain p) StagePostSubmitHook m else m)).
      * destruct (p_onPostSubmit p) as [hook|]; wp_go; [|by split; [|exists false]].
        apply wp_plain. intros [|] st4 _; wp_go; (split; [done|]); [by exists false|by exists true].
      * intros r [st4 m4] (-> & hf & Hm). cbn in Hm. subst. wp_go. apply wp_plain. cbn [fst snd]. intros r st5 Hr.
        apply persisted in Hr. destruct r as [[]|]; [|done]. wp_go. split; [done|]. by exists hf.
    + apply wp_plain. intros _ st3 _. by wp_go.
  - apply wp_plain. intros r st2 Hr. split; [by eapply persisted|done].
  - unfold metric. by wp_go.
Qed.

(** The row that an outcome leaves, and what was recorded, fit together. *)
Lemma outcome_accounts now ev st m r st' m' :
  outcome p ev now st r st' -> recorded now ev st m r m' ->
  carried (rows st') - carried (rows st) <= completed_count m' - completed_count m <=
    Z.of_nat (size (rows st')) - Z.of_nat (size (rows st)).
Proof.
  unfold recorded, completed_count. intros Ho. pose proof (law_create now (transfer_of p ev now) (e_store (ps_engine st))) as Hlaw.
  unfold wp in Hlaw. destruct (bs_create _ _ _) as [c s1]. destruct Hlaw as [_ Hc]. cbn [fst]. fold (rows st) in Hc.
  destruct Ho as [r0 st' Hin Hrows Hw|e st' Hrows Hw _ _|r0 st' sub x row Hnone Hsub Hfinal Hrows Hr _ _].
  - rewrite Hrows. destruct c as [[|]|e]; [|intros [_ ->]; lia|intros [_ ->]; cbn; lia].
    destruct Hc as [Hnone _]. cbn in Hnone. rewrite Hnone in Hin. by destruct Hin.
  - assert (carried (rows st') = carried (rows st) /\ (size (rows st) <= size (rows st'))%nat) as [-> Hsize].
    { destruct Hrows as [->|[Hnone ->]]; [done|]. rewrite carried_insert, map_size_insert_None by done.
      split; [|lia]. rewrite decide_False; [lia|]. by intros [? _]. }
    destruct c as [[|]|e']; [|intros [? _]; done|intros [_ ->]; cbn; lia].
    destruct (p_submit p ev (world st)) as [[[h [|]]|e'] x]; cbn [fst]; try (intros [? _]; done). intros [_ ->]. cbn. lia.
  - rewrite Hrows, map_size_insert_None by done. rewrite carried_insert by done.
    destruct c as [[|]|e].
    + rewrite Hsub. cbn [fst]. destruct Hfinal as [sub|e|h|h].
      * rewrite decide_False by (by intros [? _]). destruct sub as [[h [|]]|e]; [intros [_ ->]; lia| |intros [_ ->]; cbn; lia].
        intros [_ [[|] ->]]; cbn; rewrite value_incr, decide_True by done; lia.
      * rewrite decide_False by (by intros [? _]). intros [_ ->]. cbn. lia.
      * rewrite decide_False by (intros [_ [? ?]]; done). intros [_ ->]. lia.
      * rewrite decide_True by (split; [done|by eexists]). intros [_ [[|] ->]]; cbn; rewrite value_incr, decide_True by done; lia.
    + destruct Hc as [[? Hsome] _]. cbn in Hsome. by rewrite Hsome in Hnone.
    + intros [Hfail ->]. cbn. rewrite Hfail in Hr. destruct Hfinal as [sub|e'|h|h]; try done;
        rewrite decide_False by (by intros [? _]); lia.
Qed.

Ltac counts := unfold event_count, error_count, completed_count, sent_count, unsent_count, create_errors, submit_errors in *; cbn in *.

Ltac labels :=
  cbn; rewrite ?value_incr;
  repeat match goal with |- context [decide ?P] => destruct (decide P); simplify_eq end; lia.

Lemma recorded_counts now ev st m r m' : recorded now ev st m r m' ->
  event_count m' = event_count m /\ error_count m' = error_count m /\
  sent_count m' - sent_count m = completed_count m' - completed_count m /\
  unsent_count m' - unsent_count m = submit_errors m' - submit_errors m /\
  (create_errors m' - create_errors m) + (submit_errors m' - submit_errors m) = if is_ok r then 0 else 1.
Proof.
  unfold recorded. counts.
  destruct (bs_create _ _ _).1 as [[|]|e]; [|intros [-> ->]; split_and!; labels..].
  destruct (p_submit _ _ _).1 as [[h [|]]|e].
  - intros [-> ->]. split_and!; labels.
  - intros [-> [[|] ->]]; split_and!; labels.
  - intros [-> ->]. split_and!; labels.
Qed.

Lemma wired_step_accounts now ev s :
  wp (wired_step name p now ev) (fun r s' => r = Ok tt /\ accounted (if ev_Checkpoint ev then 0 else 1) s s') s.
Proof.
  destruct s as [st m]. unfold wired_step. destruct (ev_Checkpoint ev).
  { apply wp_plain. intros r st' Hrun. destruct (wp_run _ _ _ _ _ (persistOffset_spec now p ev st frame) Hrun) as (-> & Hr & _ & He).
    split; [done|]. split; cbn; rewrite ?Hr, ?He; lia. }
  wp_go. apply wp_intro. intros r [st1 m1] Hrun.
  pose proof (wp_run _ _ _ _ _ (wp_erases _ _ _ (st, m) (wired_processEvent_erases now p ev) (processEvent_outcome now p ev st frame)) Hrun) as [Ho He].
  cbn [fst] in Ho, He. unfold wired_processEvent in Hrun. destruct (wired_handle now p ev (st, m)) as [r0 [st0 m0]] eqn:Hh.
  pose proof (wp_run _ _ _ _ _ (wired_handle_records now ev st m) Hh) as Hrec. cbn [fst snd] in Hrec, Hrun. injection Hrun as <- <- <-.
  pose proof (outcome_accounts _ _ _ _ _ _ _ Ho Hrec) as [Hc1 Hc2].
  destruct (recorded_counts _ _ _ _ _ _ Hrec) as (H1 & H2 & H3 & H4 & H5). clear Hrec Ho.
  destruct r0 as [[]|e]; cbn [is_ok] in H5; unfold metric, count_error; wp_go.
  - split; [done|]. split; counts; rewrite ?counter_Inc, ?He; lia.
  - apply wp_plain. intros r1 st1 [= <- <-]. wp_go. split; [done|].
    split; counts; unfold rows in *; cbn in *; rewrite ?counter_Inc, ?value_incr, ?decide_True, ?length_app, ?He by done; cbn; lia.
Qed.

(** The counters account for what the processor did.  Whatever events arrive
    and whatever fails, every transfer event is observed once; the completed
    transfers that are counted are as many as the transactions counted as sent,
    at least as many as the rows that were completed with a transaction hash,
    and at most as many as the rows that were added; the transactions counted
    as failed are the submission errors; and the processing errors are those of
    the two stages together. *)
Theorem processor_metrics_account evs s :
  wp (wired_Start name p evs) (fun r s' => r = Ok tt /\
    accounted (Z.of_nat (length (filter (fun e : Z * Event => ev_Checkpoint e.2 = false) evs))) s s') s.
Proof.
  unfold wired_Start. revert s. induction evs as [|[now ev] evs IH]; intros s; cbn [for_each].
  { wp_go. split; [done|]. apply accounted_refl. }
  wp_go. eapply wp_mono; [apply wired_step_accounts|]. intros r s1 [-> Hs1]. eapply wp_mono; [apply IH|].
  intros r s2 [-> Hs2]. split; [done|]. pose proof (accounted_trans _ _ _ _ _ Hs1 Hs2) as Hs.
  rewrite filter_cons. cbn [snd]. destruct (ev_Checkpoint ev); cbn [decide] in *; [done|].
  rewrite decide_True by done. cbn [length]. by replace (Z.of_nat _) with (1 + Z.of_nat (length (filter (fun e : Z * Event => ev_Checkpoint e.2 = false) evs))) by lia.
Qed.
End account.

(** ** What the engine's metrics say *)

Section engine_metrics.
Context {S X : Type} `{!BridgeStore S} `{!CantonBridge X} `{!EthereumBridge X}.
Variable cfg : Config.
Abbreviation EM := (Engine S X * RelayMetrics)%type.

(** The counters of completed transfers and of passes, and code that leaves them. *)
Definition tallies (m : RelayMetrics) : CounterVec * gmap string Z * Z :=
  (TransfersTotal m, ReconciliationRuns m, ReconciliationDuration m).
Definition uncounted {A} (c : M EM A) : Prop := forall s, wp c (fun _ s' => tallies s'.2 = tallies s.2) s.

Lemma uncounted_bind {A B} (c : M EM A) (k : A -> M EM B) : uncounted c -> (forall a, uncounted (k a)) -> uncounted (c ≫= k).
Proof.
  intros Hc Hk s. apply wp_bind. eapply wp_mono; [apply Hc|]. intros [a|e] s1 H1; [|done].
  eapply wp_mono; [apply Hk|]. intros r s2 H2. by rewrite H2.
Qed.

Lemma uncounted_attempt {A} (c : M EM A) : uncounted c -> uncounted (attempt c).
Proof. intros Hc s. apply wp_attempt, Hc. Qed.

Lemma uncounted_wrapping {A} pre (c : M EM A) : uncounted c -> uncounted (wrapping pre c).
Proof. intros Hc s. apply wp_wrapping, Hc. Qed.

Lemma uncounted_plain {A} (c : M (Engine S X) A) : uncounted (plain c).
Proof. intros s. by apply wp_plain. Qed.

Lemma uncounted_for_each {Y} (ys : list Y) body : (forall y, uncounted (body y)) -> uncounted (for_each ys body).
Proof.
  intros Hb s. eapply (wp_for_each _ _ (fun s' => tallies s'.2 = tallies s.2)); [done|].
  intros y s' _ Hs'. eapply wp_mono; [apply Hb|]. intros r s2 H2. by rewrite H2.
Qed.

Create HintDb uncounted.
#[local] Hint Resolve uncounted_bind uncounted_attempt uncounted_wrapping uncounted_plain uncounted_for_each : uncounted.

Lemma uncounted_retry now t (dest : option (Dest (X := X))) maxRetries retryDelay :
  uncounted (wired_maybeRetryTransfer now t dest maxRetries retryDelay).
Proof.
  unfold wired_maybeRetryTransfer, wired_retryStuckTransfer.
  destruct (_ && _); [|destruct (_ <? _); [done|]; destruct dest as [[chain submit]|]; [|done]];
    repeat (apply uncounted_bind; [auto with uncounted; try done|intros ?]); try done.
  destruct a as [[h [|]]|e]; repeat (apply uncounted_bind; [auto with uncounted; try done|intros ?]); done.
Qed.

Lemma uncounted_pass now (ethDest cantonDest : option (Dest (X := X))) :
  uncounted (wired_runReconciliation cfg now ethDest cantonDest).
Proof.
  apply uncounted_bind; [auto with uncounted|intros cs]. apply uncounted_bind; [auto with uncounted|intros es].
  do 2 (apply uncounted_bind; [done|intros _]).
  apply uncounted_bind; [|intros _]; apply uncounted_for_each; intros t; apply uncounted_retry.
Qed.

(** A call to the chains leaves the store. *)
Lemma zoom_keeps {A} (c : M X A) (e : Engine S X) r e' : on_ext c e = (r, e') -> e_store e' = e_store e.
Proof. unfold on_ext, zoom. destruct (c _). by intros [= _ <-]. Qed.

(** A tick of the reconciliation is counted once, as the success or the failure
    that the pass was.  It never counts a transfer in transfers_total: a transfer
    that a retry completes, or that is given up, is in no counter of that name. *)
Theorem reconciliation_metrics now (ethDest cantonDest : option (Dest (X := X))) s :
  wp (reconcile_tick cfg now ethDest cantonDest) (fun r s' => r = Ok tt /\
    TransfersTotal s'.2 = TransfersTotal s.2 /\ ReconciliationDuration s'.2 = ReconciliationDuration s.2 + 1 /\
    exists e, e_store e = e_store s.1 /\
      s'.1 = (runReconciliation cfg now (snd <$> ethDest) (snd <$> cantonDest) e).2 /\
      ReconciliationRuns s'.2 = Inc (if is_ok (runReconciliation cfg now (snd <$> ethDest) (snd <$> cantonDest) e).1
        then ReconciliationSuccess else ReconciliationError) (ReconciliationRuns s.2)) s.
Proof.
  unfold reconcile_tick. apply wp_bind.
  apply (wp_mono _ (fun r s' => r = Ok tt /\ tallies s'.2 = tallies s.2 /\ e_store s'.1 = e_store s.1)).
  - unfold updateChainHeadPositions. wp_go. apply wp_plain. intros r w1 Hr. apply zoom_keeps in Hr.
    destruct r; unfold metric; wp_go; apply wp_plain; intros r' w2 Hr'; apply zoom_keeps in Hr'; cbn in Hr'; destruct r'; wp_go;
      split_and!; try done; cbn; by rewrite Hr'.
  - intros r s1 (-> & H1 & Hstore). wp_go. apply wp_intro. intros r s2 Hrun.
    assert (tallies s2.2 = tallies s1.2) as H2.
    { refine (wp_run _ (fun _ s' => tallies s'.2 = tallies s1.2) _ _ _ _ Hrun). apply uncounted_pass. }
    destruct (wired_runReconciliation_erases cfg now ethDest cantonDest s1) as [Hr He]. rewrite Hrun in Hr, He. cbn in Hr, He.
    unfold metric. wp_go. unfold tallies in H1, H2. injection H1 as Ht1 Hr1 Hd1. injection H2 as Ht2 Hr2 Hd2. cbn. rewrite Ht2, Ht1, Hr2, Hr1, Hd2, Hd1.
    split_and!; [done..|]. exists s1.1. rewrite <- Hr, He. done.
Qed.
(** The gauge and the flags agree. *)
Definition gauge_ok (s : EM) : Prop := Ready s.2 = if IsReady s.1 then 1 else 0.

Lemma gauge_ext {A} (c : M X A) s Q : gauge_ok s -> (forall r s', gauge_ok s' -> Q r s') -> wp (plain (on_ext c)) Q s.
Proof.
  intros Hs HQ. apply wp_plain. intros r e' Hrun. apply HQ. revert Hrun. unfold on_ext, zoom, gauge_ok, IsReady in *.
  destruct (c _). by intros [= _ <-].
Qed.

(** The ready gauge tells whether the relayer is ready: a check keeps it at 1
    exactly when both chains have caught up, whatever the chains answer. *)
Theorem ready_gauge now s : gauge_ok s -> wp (wired_checkReadiness now) (fun r s' => r = Ok tt /\ gauge_ok s') s.
Proof.
  assert (forall mark s, mark = mark_ethereum \/ mark = mark_canton -> gauge_ok s ->
    wp (wired_mark mark) (fun r s' => r = Ok tt /\ gauge_ok s') s) as Hmark by (intros mark s0 [->| ->] _; done).
  intros Hs. unfold wired_checkReadiness. apply wp_bind.
  apply (wp_mono _ (fun r s' => r = Ok tt /\ gauge_ok s')).
  - unfold wired_checkEthereumReadiness. wp_go. apply gauge_ext; [done|]. intros [h|e] s1 H1; [|by wp_go].
    wp_go. apply wp_plain. intros r w [= <- <-]. rewrite <- surjective_pairing.
    destruct (ethereumSynced s1.1); [done|]. cbv zeta. destruct (_ <=? _); [apply Hmark; auto|done].
  - intros r s1 [-> H1]. unfold wired_checkCantonReadiness. wp_go. apply gauge_ext; [done|]. intros [l|e] s2 H2; [|by wp_go].
    wp_go. apply wp_plain. intros r w [= <- <-]. rewrite <- surjective_pairing.
    repeat match goal with |- wp (match ?x with _ => _ end) _ _ => destruct x end; try done; apply Hmark; auto.
Qed.

(** The counter of failed post-submit hooks counts nothing: the only hook is
    that of the Canton processor, which never reports its error. *)
Theorem hook_failures_are_not_counted `{!GoEthereum} `{!DecimalLib} now ev s :
  wp (wired_processEvent now (cantonProcessor cfg (S := S) (X := X)) ev) (fun _ s' =>
    value (CantonChainID cfg, StagePostSubmitHook) (EventProcessingErrors s'.2) =
    value (CantonChainID cfg, StagePostSubmitHook) (EventProcessingErrors s.2)) s.
Proof.
  unfold wp, wired_processEvent. enough (wp (wired_handle now (cantonProcessor cfg (S := S) (X := X)) ev) (fun _ s' =>
    value (CantonChainID cfg, StagePostSubmitHook) (EventProcessingErrors s'.2) =
    value (CantonChainID cfg, StagePostSubmitHook) (EventProcessingErrors s.2)) s) as Hwp.
  { unfold wp in Hwp. by destruct (wired_handle _ _ _ s) as [r [st m]]. }
  unfold wired_handle. wp_go. apply wp_plain. intros [[|]|e] w _; unfold metric; wp_go.
  - apply wp_plain. intros [[h [|]]|e] w1 _; wp_go; apply wp_plain; intros r w2 _; wp_go.
    + by apply wp_plain.
    + cbn [p_onPostSubmit cantonProcessor]. wp_go. apply wp_plain. intros r1 w3 Hk.
      assert (is_ok r1 = true) as Hok.
      { revert Hk. unfold on_engine, on_ext, zoom, completeWithdrawal. cbn. destruct (bool_decide _); [by intros [= <- _]|].
        unfold attempt, mbind, M_bind. destruct (CompleteWithdrawal _ _ _). by intros [= <- _]. }
      destruct r1; [|done]. wp_go. apply wp_plain. intros [|] w4 _; [|done]. by wp_go.
    + cbn [snd fst EventProcessingErrors IncEventProcessingErrors IncTransactionsSent]. rewrite value_incr, decide_False by done. lia.
  - by apply wp_plain.
  - cbn [snd fst EventProcessingErrors IncEventProcessingErrors]. rewrite value_incr, decide_False by done. lia.
Qed.
End engine_metrics.

(** The first insert fails and is counted; both events are carried out, the first when it comes again. *)
Example account_run :
  let s := (wired_Start "ethereum_processor" ex_processor ex_stream (ex_state [Some "db down"%string], NewRelayMetrics)).2 in
  value ("ethereum_to_canton", TransferResultCompleted)%string (TransfersTotal s.2) = 2 /\
  value ("ethereum_processor", ErrorCategoryProcessing)%string (ProcessorErrors s.2) = 1 /\ carried (rows s.1) = 2.
Proof. vm_compute. done. Qed.
