(* ===== verification/IndexerMetrics.v ===== *)
(** * IndexerMetrics: the indexer's processor as it is wired

    pkg/app/indexer gives the processor the instrumented store and the engine's
    metrics (pkg/indexer/engine/metrics.go).  Here is the processor over both.
    Forgetting the metrics it is the processor of IndexerProcessor, so that
    what is shown there holds as deployed; and the metrics say what they are
    documented to say, the count of indexed events excepted. *)

From S2P Require Import Prelude AppErrors Effects GoStd Decimal DamlValues Streaming IndexerStore IndexerProcessor Instrumented.
From Stdlib Require Import Ascii.
Local Open Scope Z_scope.

(** ** The engine's metrics *)

(** Metrics; the offset gauge is [None] before it is first set, the lag is kept
    in microseconds, and the counter of the decoder is left out. *)
Record EngineMetrics := mkEngineMetrics {
  EventsProcessedTotal : gmap string Z;
  BatchProcessingErrors : Z;
  LastOffset : option Z;
  SyncLag : option Z;
}.

Definition NewEngineMetrics : EngineMetrics := mkEngineMetrics ∅ 0 None None.

Definition IncEventsProcessed (eventType : string) (m : EngineMetrics) : EngineMetrics :=
  mkEngineMetrics (Inc eventType (EventsProcessedTotal m)) (BatchProcessingErrors m) (LastOffset m) (SyncLag m).
Definition IncBatchErrors (m : EngineMetrics) : EngineMetrics :=
  mkEngineMetrics (EventsProcessedTotal m) (BatchProcessingErrors m + 1) (LastOffset m) (SyncLag m).
Definition SetLastOffset (o : Z) (m : EngineMetrics) : EngineMetrics :=
  mkEngineMetrics (EventsProcessedTotal m) (BatchProcessingErrors m) (Some o) (SyncLag m).
Definition SetSyncLag (l : Z) (m : EngineMetrics) : EngineMetrics :=
  mkEngineMetrics (EventsProcessedTotal m) (BatchProcessingErrors m) (LastOffset m) (Some l).

(** The zero time.Time, in microseconds. *)
Definition zero_time : Z := -62135596800 * 1000000.

(** The loop over the items of a committed batch. *)
Fixpoint count_events (items : list Item) (last : Z) (m : EngineMetrics) : EngineMetrics * Z :=
  match items with
  | [] => (m, last)
  | ItemEvent e :: items =>
      count_events items (if last <? pe_EffectiveTime e then pe_EffectiveTime e else last) (IncEventsProcessed (pe_EventType e) m)
  | _ :: items => count_events items last m
  end.

(** What processBatch records after the commit, at time [now]. *)
Definition record_batch (now : Z) (b : Batch Item) (m : EngineMetrics) : EngineMetrics :=
  let '(m, last) := count_events (Items b) zero_time (SetLastOffset (b_Offset b) m) in
  if bool_decide (last = zero_time) then m else SetSyncLag (now - last) m.

(** ** The processor *)

Abbreviation Metered := (IndexerDB * (StoreMetrics * EngineMetrics))%type.

Definition with_store {A} (c : M (IndexerDB * StoreMetrics) A) : M Metered A :=
  zoom (fun s => (s.1, s.2.1)) (fun d s => (d.1, (d.2, s.2.2))) c.
Definition with_metrics (f : EngineMetrics -> EngineMetrics) : M Metered unit := modify (fun s => (s.1, (s.2.1, f s.2.2))).

Section wired.
Context `{!DecimalLib} `{!PgNumeric}.
Abbreviation MI := (M (IndexerDB * StoreMetrics)).
(** the time at which the metrics of a batch are written *)
Variable clock : Batch Item -> Z.

Definition wired_applyUpdate (e : ParsedEvent) (u : string * string) : MI unit :=
  r ← attempt (tx_ApplyBalanceDelta u.1 (pe_InstrumentAdmin e) (pe_InstrumentID e) u.2);
  match r with
  | Ok _ => mret tt
  | Err err =>
      if bool_decide (pe_EventType e = EventTransfer) && isNegativeDelta u.2 && is_ErrNegativeBalance err
      then mret tt
      else fail (ErrWrap "apply balance delta: " err "")
  end.

Definition wired_processTransferEvent (e : ParsedEvent) : MI unit :=
  inserted ← wrapping "insert event: " (tx_InsertEvent e);
  if negb inserted then mret tt
  else
    _ ← wrapping "upsert token: " (tx_UpsertToken (tokenFromEvent e));
    _ ← match supplyDeltaFromEvent e with
        | Some (admin, id, delta) => wrapping "apply supply delta: " (tx_ApplySupplyDelta admin id delta)
        | None => mret tt
        end;
    _ ← for_each (balanceUpdatesFromEvent e) (wired_applyUpdate e);
    match pe_FromPartyID e, pe_ToPartyID e with
    | Some from, Some to =>
        if bool_decide (pe_EventType e = EventTransfer) then
          wrapping "insert direct transfer: " (tx_InsertTransfer (direct_transfer e from to))
        else mret tt
    | _, _ => mret tt
    end.

Definition wired_processHoldingChange (h : HoldingChange) : MI unit :=
  if h_IsArchived h then
    taken ← wrapping ("take holding " +:+ h_ContractID h +:+ ": ") (tx_TakeHolding (h_ContractID h));
    match taken with
    | None => mret tt
    | Some stored =>
        r ← attempt (tx_ApplyBalanceDelta (h_Owner stored) (h_InstrumentAdmin stored)
                       (h_InstrumentID stored) ("-" +:+ h_Amount stored));
        match r with
        | Ok _ => mret tt
        | Err err => if is_ErrNegativeBalance err then mret tt
                     else fail (ErrWrap "apply holding archive delta: " err "")
        end
    end
  else if bool_decide (h_Owner h = ""%string) || bool_decide (h_InstrumentID h = ""%string)
          || bool_decide (h_InstrumentAdmin h = ""%string) then mret tt
  else if h_Locked h then mret tt
  else
    _ ← wrapping ("insert holding " +:+ h_ContractID h +:+ ": ") (tx_InsertHolding h);
    wrapping "apply holding create delta: "
      (tx_ApplyBalanceDelta (h_Owner h) (h_InstrumentAdmin h) (h_InstrumentID h) (h_Amount h)).

Definition wired_processItem (i : Item) : MI unit :=
  match i with
  | ItemEvent e => wired_processTransferEvent e
  | ItemTransfer t =>
      if tr_Archived t then
        wrapping ("finalize transfer " +:+ tr_ContractID t +:+ ": ")
          (tx_FinalizeTransfer (tr_ContractID t) (archive_status t))
      else wrapping ("insert transfer " +:+ tr_ContractID t +:+ ": ") (tx_InsertTransfer t)
  | ItemHolding h => wired_processHoldingChange h
  | ItemOther => mret tt
  end.

Definition wired_batch_body (b : Batch Item) : MI unit :=
  _ ← for_each (Items b) wired_processItem;
  wrapping "save offset: " (tx_SaveOffset (b_Offset b)).

(** processBatch with its metrics *)
Definition wired_processBatch (b : Batch Item) : M Metered unit :=
  _ ← wrapping ("tx at offset " +:+ FormatInt (b_Offset b) +:+ ": ") (with_store (idx_RunInTx (wired_batch_body b)));
  with_metrics (record_batch (clock b) b).

Fixpoint wired_processBatchWithRetry (attempts : nat) (delay : Z) (waits : list Z) (b : Batch Item) : M Metered (list Z) :=
  match attempts with
  | O => fail ctx_canceled
  | S attempts =>
      r ← attempt (wired_processBatch b);
      match r with
      | Ok _ => mret waits
      | Err _ =>
          _ ← with_metrics IncBatchErrors;
          wired_processBatchWithRetry attempts (Z.min (delay * 2) processorRetryMaxDelay) (waits ++ [delay]) b
      end
  end.

Definition wired_Run (attempts : nat) (fetch : Z -> list (Batch Item)) : M Metered unit :=
  o ← wrapping "load resume offset: " (with_store idx_LatestOffset);
  for_each (fetch o) (fun b => _ ← wired_processBatchWithRetry attempts processorRetryBaseDelay [] b; mret tt).

(** ** Forgetting the metrics *)

Lemma erases_with_store {A} (c' : MI A) c : erases c' c -> erases (with_store c') c.
Proof. intros Hc s. destruct (Hc (s.1, s.2.1)) as [Hr Hd]. unfold with_store, zoom. destruct (c' (s.1, s.2.1)) as [r [d m]]. by cbn in *. Qed.

Lemma erases_if {W X A} (b : bool) (c1' c2' : M (W * X) A) c1 c2 :
  erases c1' c1 -> erases c2' c2 -> erases (if b then c1' else c2') (if b then c1 else c2).
Proof. by destruct b. Qed.

#[local] Hint Resolve erases_if erases_with_store : erases.
#[local] Hint Extern 2 (erases _ _) => apply erases_instrumented : erases.

(** An update of the metrics after a computation. *)
Lemma erases_then_metrics {A} (c' : M Metered A) c f : erases c' c -> erases (_ ← c'; with_metrics f) (_ ← c; mret tt).
Proof. intros Hc. by apply erases_bind. Qed.

Lemma erases_applyUpdate e u : erases (wired_applyUpdate e u) (applyUpdate e u).
Proof. apply erases_bind; [auto with erases|]. intros [a|err]; auto with erases. Qed.

Lemma erases_processTransferEvent e : erases (wired_processTransferEvent e) (processTransferEvent e).
Proof.
  unfold wired_processTransferEvent, processTransferEvent. apply erases_bind; [auto with erases|]. intros ins.
  apply erases_if; [auto with erases|]. apply erases_bind; [auto with erases|]. intros _.
  apply erases_bind; [destruct (supplyDeltaFromEvent e) as [[[? ?] ?]|]; auto with erases|]. intros _.
  apply erases_bind; [apply erases_for_each, erases_applyUpdate|]. intros _.
  destruct (pe_FromPartyID e), (pe_ToPartyID e); auto with erases.
Qed.

Lemma erases_processHoldingChange h : erases (wired_processHoldingChange h) (processHoldingChange h).
Proof.
  unfold wired_processHoldingChange, processHoldingChange. apply erases_if.
  - apply erases_bind; [auto with erases|]. intros [stored|]; [|auto with erases].
    apply erases_bind; [auto with erases|]. intros [a|err]; auto with erases.
  - apply erases_if; [auto with erases|]. apply erases_if; [auto with erases|].
    apply erases_bind; auto with erases.
Qed.

Lemma erases_batch_body b : erases (wired_batch_body b) (batch_body b).
Proof.
  apply erases_bind; [|intros _; cbv beta; auto with erases]. apply erases_for_each. intros [e|t|h|];
    [apply erases_processTransferEvent| |apply erases_processHoldingChange|done].
  cbn. apply erases_if; auto with erases.
Qed.

Lemma erases_processBatch b : erases (wired_processBatch b) (processBatch b).
Proof.
  intros s. destruct (erases_then_metrics _ _ (record_batch (clock b) b)
    (erases_wrapping ("tx at offset " +:+ FormatInt (b_Offset b) +:+ ": ") _ _
      (erases_with_store _ _ (erases_RunInTx _ _ (erases_batch_body b)))) s) as [Hr Hd].
  unfold wired_processBatch, idx_RunInTx. rewrite Hr, Hd. unfold processBatch, mbind, M_bind.
  by destruct (wrapping _ _ _) as [[[]|e] d].
Qed.

Lemma erases_processBatchWithRetry attempts : forall delay waits b,
  erases (wired_processBatchWithRetry attempts delay waits b) (processBatchWithRetry attempts delay waits b).
Proof.
  induction attempts as [|n IH]; intros delay waits b; cbn; [auto with erases|].
  apply erases_bind; [apply erases_attempt, erases_processBatch|]. intros [a|e]; [auto with erases|].
  intros s. apply (IH _ _ b (s.1, (s.2.1, IncBatchErrors s.2.2))).
Qed.

(** ** What the metrics say *)

Lemma counter_Inc_if op op' m : counter op (Inc op' m) = counter op m + (if bool_decide (op' = op) then 1 else 0).
Proof.
  unfold Inc. unfold counter at 1. case_bool_decide as Heq; [subst; by rewrite lookup_insert_eq|].
  rewrite lookup_insert_ne by done. unfold counter. lia.
Qed.

(** The events of a batch with a given type. *)
Definition events_of (ty : string) (items : list Item) : Z :=
  Z.of_nat (length (List.filter (fun i => match i with ItemEvent e => bool_decide (pe_EventType e = ty) | _ => false end) items)).

Lemma events_of_cons ty i items :
  events_of ty (i :: items) =
  events_of ty items + (match i with ItemEvent e => if bool_decide (pe_EventType e = ty) then 1 else 0 | _ => 0 end).
Proof.
  unfold events_of. cbn [List.filter]. destruct i as [e| | |]; [case_bool_decide; cbn [length]|..]; lia.
Qed.

Lemma count_events_spec items : forall last m,
  let m' := (count_events items last m).1 in
  LastOffset m' = LastOffset m /\ BatchProcessingErrors m' = BatchProcessingErrors m /\
  forall ty, counter ty (EventsProcessedTotal m') = counter ty (EventsProcessedTotal m) + events_of ty items.
Proof.
  induction items as [|i items IH]; intros last m; [cbn; split_and!; [done|done|]; intros ty; unfold events_of; cbn; lia|].
  destruct i as [e|t|h|]; cbn [count_events];
    [destruct (IH (if last <? pe_EffectiveTime e then pe_EffectiveTime e else last) (IncEventsProcessed (pe_EventType e) m)) as (Ho & He & Hc)
    |destruct (IH last m) as (Ho & He & Hc)..];
    (split_and!; [done|done|]); intros ty; rewrite Hc, events_of_cons; [|lia..].
  cbn [EventsProcessedTotal IncEventsProcessed]. rewrite counter_Inc_if. lia.
Qed.

Lemma record_batch_spec now b m :
  let m' := record_batch now b m in
  LastOffset m' = Some (b_Offset b) /\ BatchProcessingErrors m' = BatchProcessingErrors m /\
  forall ty, counter ty (EventsProcessedTotal m') = counter ty (EventsProcessedTotal m) + events_of ty (Items b).
Proof.
  cbv zeta. unfold record_batch. pose proof (count_events_spec (Items b) zero_time (SetLastOffset (b_Offset b) m)) as Hs.
  destruct (count_events _ _ _) as [m' last]. cbn [fst] in Hs. destruct Hs as (Ho & He & Hc).
  by case_bool_decide; cbn.
Qed.

(** One attempt: recorded when it commits, untouched when it does not. *)
Lemma wp_wired_processBatch b s : wp (wired_processBatch b) (fun r s' =>
  match r with
  | Ok _ => offset (tables s'.1) = Some (b_Offset b) /\ s'.2.2 = record_batch (clock b) b s.2.2
  | Err _ => tables s'.1 = tables s.1 /\ s'.2.2 = s.2.2
  end) s.
Proof.
  pose proof (wp_erases _ _ _ s (erases_processBatch b) (processBatch_atomic b s.1)) as Hw. revert Hw.
  unfold wp, wired_processBatch, mbind, M_bind, wrapping, with_store, zoom.
  destruct (idx_RunInTx _ _) as [[[]|e] [d m]]; cbn; [|done]. intros [Ho _]. done.
Qed.

(** What the metrics of a batch say.  A batch that is persisted sets the offset
    gauge to the offset that is stored, adds the failed attempts to the error
    counter, one per wait, and adds its events to the counters of their types,
    whether or not they were indexed before; a batch that is given up leaves
    the tables, the gauge and the event counters alone and counts its attempts. *)
Theorem batch_metrics attempts : forall delay waits b s,
  wp (wired_processBatchWithRetry attempts delay waits b) (fun r s' =>
    match r with
    | Ok waits' =>
        offset (tables s'.1) = Some (b_Offset b) /\ LastOffset s'.2.2 = Some (b_Offset b) /\
        BatchProcessingErrors s'.2.2 = BatchProcessingErrors s.2.2 + Z.of_nat (length waits') - Z.of_nat (length waits) /\
        forall ty, counter ty (EventsProcessedTotal s'.2.2) = counter ty (EventsProcessedTotal s.2.2) + events_of ty (Items b)
    | Err _ =>
        tables s'.1 = tables s.1 /\ LastOffset s'.2.2 = LastOffset s.2.2 /\
        BatchProcessingErrors s'.2.2 = BatchProcessingErrors s.2.2 + Z.of_nat attempts /\
        EventsProcessedTotal s'.2.2 = EventsProcessedTotal s.2.2
    end) s.
Proof.
  induction attempts as [|n IH]; intros delay waits b s; cbn [wired_processBatchWithRetry].
  - apply wp_fail. split_and!; try done. lia.
  - apply wp_bind, wp_attempt. eapply wp_mono; [apply wp_wired_processBatch|]. intros [[]|e] s1 [Hd Hm]; cbv beta iota.
    + apply wp_ret. rewrite Hm. destruct (record_batch_spec (clock b) b s.2.2) as (Ho & He & Hc).
      split_and!; [done|done|rewrite He; lia|done].
    + apply wp_bind. unfold with_metrics. apply wp_modify. eapply wp_mono; [apply IH|].
      intros [waits'|e'] s2; cbn [fst snd BatchProcessingErrors IncBatchErrors LastOffset EventsProcessedTotal]; rewrite ?Hd, Hm.
      * intros (Hoff & Ho & He & Hc). split_and!; [done|done| |done]. rewrite He, length_app. cbn. lia.
      * intros (Ht & Ho & He & Hc). split_and!; [done|done| |done]. rewrite He. lia.
Qed.

(** The metrics do not change what the indexer does: as it is wired, with the
    instrumented store and the engine's metrics, it returns what the processor
    of IndexerProcessor returns and leaves the database in the same state. *)
Theorem wired_Run_erases attempts fetch : erases (wired_Run attempts fetch) (Run attempts fetch).
Proof.
  apply erases_bind; [apply erases_wrapping, erases_with_store, erases_instrumented|]. intros o. apply erases_for_each.
  intros b. apply erases_bind; [apply erases_processBatchWithRetry|auto with erases].
Qed.
End wired.
