(* ===== verification/EvmLifecycle.v ===== *)
(** * Lifecycle of the EVM facade

    The writers of the EVM tables (SendRawTransaction's insert, the submitter's
    two updates, the miner) as one step relation, in any order and with any
    statement failing: the invariant of its reachable states and the state
    machine every mempool entry goes through. *)

From S2P Require Import Prelude AppErrors Effects GoStd EthClient EvmStore EvmMiner.

Section Lifecycle.
Context `{!GoEthereum}.

(** One write by any of the components. *)
Inductive evm_step (tb : EvmTables) : EvmTables -> Prop :=
| step_insert e fs r d : InsertMempoolEntry e (mkDB tb fs) = (r, d) -> evm_step tb (tables d)
| step_complete h fs r d : CompleteMempoolEntry h (mkDB tb fs) = (r, d) -> evm_step tb (tables d)
| step_fail h msg fs r d : FailMempoolEntry h msg (mkDB tb fs) = (r, d) -> evm_step tb (tables d)
| step_mine cfg now fs r d : latest_block tb + 1 < two64 ->
    mine cfg now (mkDB tb fs) = (r, d) -> evm_step tb (tables d).

(** ** What a step does to the tables *)

Lemma InsertMempoolEntry_outcome e d :
  wp (InsertMempoolEntry e) (fun _ d' => tables d' = tables d \/
    exists m, tables d' = mkEvmTables m (next_id (tables d) + 1) (evm_transactions (tables d))
                            (evm_logs (tables d)) (latest_block (tables d)) /\
      (m = mempool (tables d) \/
       (mempool (tables d) !! me_TxHash e = None /\
        exists dao, md_TxHash dao = me_TxHash e /\ md_ID dao = next_id (tables d) /\
          md_Status dao = MempoolPending /\ m = <[me_TxHash e := dao]> (mempool (tables d))))) d.
Proof.
  unfold InsertMempoolEntry. apply wp_wrapping, wp_exec; [intros fs|by left]. right. cbn. eexists.
  split; [done|]. destruct (mempool (tables d) !! me_TxHash e) eqn:Hh; [by left|right].
  split; [done|]. eexists. split_and!; [..|reflexivity]; done.
Qed.

(** A row with another status and error message. *)
Definition with_status (s : MempoolStatus) (msg : option string) (d : MempoolEntryDao) : MempoolEntryDao :=
  mkMempoolEntryDao (md_ID d) (md_TxHash d) (md_FromAddress d) (md_ContractAddress d) (md_RecipientAddress d)
    (md_Nonce d) (md_Input d) (md_AmountData d) s msg.

(** The two updates of the submitter. *)
Definition pending_update (f : MempoolEntryDao -> MempoolEntryDao) : Prop :=
  forall x, exists s msg, s <> MempoolMined /\ f x = with_status s msg x.

Lemma CompleteMempoolEntry_outcome h d :
  wp (CompleteMempoolEntry h) (fun _ d' => tables d' = tables d \/
    exists f, pending_update f /\ tables d' = update_pending f h (tables d)) d.
Proof.
  unfold CompleteMempoolEntry. apply wp_wrapping, wp_exec; [intros fs|by left]. right. eexists.
  split; [|done]. intros x. by exists MempoolCompleted, (md_ErrorMessage x).
Qed.

Lemma FailMempoolEntry_outcome h msg d :
  wp (FailMempoolEntry h msg) (fun _ d' => tables d' = tables d \/
    exists f, pending_update f /\ tables d' = update_pending f h (tables d)) d.
Proof.
  unfold FailMempoolEntry. apply wp_wrapping, wp_exec; [intros fs|by left]. right. eexists.
  split; [|done]. intros x. by exists MempoolFailed, (Some msg).
Qed.

(** A step changes nothing, inserts an entry, updates a pending one, or mines. *)
Inductive effect (tb : EvmTables) : EvmTables -> Prop :=
| eff_none : effect tb tb
| eff_skip n : next_id tb <= n -> effect tb (mkEvmTables (mempool tb) n (evm_transactions tb) (evm_logs tb) (latest_block tb))
| eff_insert h dao : mempool tb !! h = None -> md_TxHash dao = h -> md_ID dao = next_id tb ->
    md_Status dao = MempoolPending ->
    effect tb (mkEvmTables (<[h := dao]> (mempool tb)) (next_id tb + 1) (evm_transactions tb) (evm_logs tb) (latest_block tb))
| eff_update f h : pending_update f -> effect tb (update_pending f h tb)
| eff_mine cfg now : latest_block tb + 1 < two64 -> effect tb (mined_tables cfg now tb).

Lemma step_effect tb tb' : evm_step tb tb' -> effect tb tb'.
Proof.
  intros [e fs r d Hrun|h fs r d Hrun|h msg fs r d Hrun|cfg now fs r d Hlt Hrun].
  - apply (wp_run _ _ _ _ _ (InsertMempoolEntry_outcome e _)) in Hrun. cbn in Hrun.
    destruct Hrun as [->|(m & -> & [->|(Hnone & dao & Hd1 & Hd2 & Hd3 & ->)])].
    + constructor.
    + apply eff_skip. lia.
    + by apply eff_insert.
  - apply (wp_run _ _ _ _ _ (CompleteMempoolEntry_outcome h _)) in Hrun.
    destruct Hrun as [->|(f & Hf & ->)]; [constructor|by apply eff_update].
  - apply (wp_run _ _ _ _ _ (FailMempoolEntry_outcome h msg _)) in Hrun.
    destruct Hrun as [->|(f & Hf & ->)]; [constructor|by apply eff_update].
  - apply (wp_run _ _ _ _ _ (mine_outcome cfg now _)) in Hrun. cbn in Hrun.
    destruct r as [[]|e]; [case_decide|]; rewrite Hrun; by constructor.
Qed.

(** A row that a pending update finds or leaves. *)
Lemma update_pending_lookup f h tb h' d' :
  mempool (update_pending f h tb) !! h' = Some d' ->
  exists d, mempool tb !! h' = Some d /\ (d' = d \/ (md_Status d = MempoolPending /\ d' = f d)).
Proof.
  unfold update_pending. cbn. destruct (decide (h = h')) as [<-|Hne].
  - rewrite lookup_alter_eq. destruct (mempool tb !! h) as [d|]; [|done]. cbn. intros [= <-].
    exists d. split; [done|]. case_bool_decide; auto.
  - rewrite lookup_alter_ne by done. eauto.
Qed.

Lemma effect_inv tb tb' : evm_inv tb -> effect tb tb' -> evm_inv tb'.
Proof.
  intros Hinv Heff. pose proof Hinv as [Hk Hid Htx Hmt Hlog Hlk Hl].
  destruct Heff as [|n Hn|h dao Hnone Hd1 Hd2 Hd3|f h Hf|cfg now Hlt]; [done| | | |by apply mined_tables_inv].
  - split; cbn; try done. intros h d Hd. destruct (Hk h d Hd). split; [done|lia].
  - split; cbn; try done.
    + intros h' d. rewrite lookup_insert_Some. intros [[<- <-]|[_ Hd]]; [split; [done|lia]|].
      destruct (Hk h' d Hd). split; [done|lia].
    + intros h1 h2 d1 d2. rewrite !lookup_insert_Some.
      intros [[<- <-]|[Hn1 H1]] [[<- <-]|[Hn2 H2]] Heq; [done| | |by eauto].
      * apply Hk in H2 as [_ H2]. lia.
      * apply Hk in H1 as [_ H1]. lia.
    + intros h' t Ht. destruct (Htx h' t Ht) as (Hb & d & Hd & Hs). split; [done|]. exists d.
      split; [|done]. rewrite lookup_insert_ne; congruence.
    + intros h' d. rewrite lookup_insert_Some. intros [[<- <-]|[_ Hd]]; [congruence|eauto].
  - split; try done.
    + intros h' d' (d & Hd & Hor)%update_pending_lookup. destruct (Hk h' d Hd) as [? ?].
      destruct Hor as [->|[_ ->]]; [done|]. by destruct (Hf d) as (s & m & _ & ->).
    + intros h1 h2 d1' d2' (d1 & Hd1 & H1)%update_pending_lookup (d2 & Hd2 & H2)%update_pending_lookup Heq.
      apply (Hid h1 h2 d1 d2 Hd1 Hd2). destruct (Hf d1) as (s1 & m1 & _ & Hf1), (Hf d2) as (s2 & m2 & _ & Hf2).
      destruct H1 as [->|[_ ->]], H2 as [->|[_ ->]]; rewrite ?Hf1, ?Hf2 in Heq; done.
    + intros h' t Ht. destruct (Htx h' t Ht) as (Hb & d & Hd & Hs). split; [done|]. exists d. split; [|done].
      unfold update_pending. cbn. destruct (decide (h = h')) as [<-|Hne]; [|by rewrite lookup_alter_ne].
      rewrite lookup_alter_eq, Hd. cbn. by rewrite bool_decide_false by congruence.
    + intros h' d' (d & Hd & Hor)%update_pending_lookup Hs.
      destruct Hor as [->|[_ ->]]; [by eapply Hmt|]. destruct (Hf d) as (s & m & Hne & Heq). by rewrite Heq in Hs.
Qed.

Definition evm_empty : EvmTables := mkEvmTables ∅ 1 ∅ ∅ 0.

Lemma evm_empty_inv : evm_inv evm_empty.
Proof. by split. Qed.

Lemma reachable_inv tb : rtc evm_step evm_empty tb -> evm_inv tb.
Proof.
  apply (rtc_invariant evm_step evm_inv); [|apply evm_empty_inv].
  intros x y Hx Hxy. by eapply effect_inv, step_effect.
Qed.

(** C20: whatever the service, the submitter and the miner do, in any order
    and with any statement failing, in every reachable state an entry is in a
    block exactly when it is marked mined, the block exists, every log
    belongs to a transaction, and ids are unique: no entry is mined twice. *)
Theorem evm_reachable_inv tb : rtc evm_step evm_empty tb -> evm_inv tb.
Proof. apply reachable_inv. Qed.

(** ** The state machine of an entry *)

(** pending, then completed or failed, then mined. *)
Definition status_le (s s' : MempoolStatus) : Prop :=
  s = s' \/ s = MempoolPending \/ (s <> MempoolMined /\ s' = MempoolMined).

(** A later version of a row: the same intent, further along. *)
Definition row_later (d d' : MempoolEntryDao) : Prop :=
  (exists s msg, d' = with_status s msg d) /\ status_le (md_Status d) (md_Status d') /\
  (md_Status d <> MempoolPending -> md_ErrorMessage d' = md_ErrorMessage d).

Record evm_later (tb tb' : EvmTables) : Prop := {
  later_mempool : forall h d, mempool tb !! h = Some d ->
    exists d', mempool tb' !! h = Some d' /\ row_later d d';
  later_txs : forall h t, evm_transactions tb !! h = Some t -> evm_transactions tb' !! h = Some t;
  later_logs : forall k l, evm_logs tb !! k = Some l -> evm_logs tb' !! k = Some l;
  later_block : latest_block tb <= latest_block tb';
}.

Lemma row_later_refl d : row_later d d.
Proof.
  split; [|by split; [left|]]. exists (md_Status d), (md_ErrorMessage d). by destruct d.
Qed.

Lemma row_later_trans d1 d2 d3 : row_later d1 d2 -> row_later d2 d3 -> row_later d1 d3.
Proof.
  intros [(s & m & ->) [Hle Hm]] [(s' & m' & ->) [Hle' Hm']]. unfold with_status, status_le in *. cbn in *.
  split; [by exists s', m'|]. split.
  - destruct Hle as [Heq|[Heq|[Hne Heq]]]; [by rewrite Heq|by right; left|]. subst s.
    right. right. split; [done|]. destruct Hle' as [<-|[?|[? ?]]]; done.
  - intros Hne. rewrite Hm', Hm; [done|done|]. destruct Hle as [Heq|[Heq|[_ Heq]]]; congruence.
Qed.

#[local] Instance evm_later_preorder : PreOrder evm_later.
Proof.
  split.
  - intros tb. split; try done. intros h d Hd. exists d. split; [done|]. apply row_later_refl.
  - intros t1 t2 t3 [Hm Ht Hl Hb] [Hm' Ht' Hl' Hb']. split; [|by eauto|by eauto|lia].
    intros h d Hd. destruct (Hm h d Hd) as (d' & Hd' & H1). destruct (Hm' h d' Hd') as (d'' & Hd'' & H2).
    exists d''. split; [done|]. by eapply row_later_trans.
Qed.

Lemma block_txs_keep cfg number hash i es m h t :
  m !! h = Some t -> block_txs cfg number hash i es m !! h = Some t.
Proof.
  revert i m. induction es as [|e es IH]; intros i m Hh; [done|]. cbn [block_txs]. apply IH.
  destruct (m !! me_TxHash e) eqn:He; [done|]. rewrite lookup_insert_ne; congruence.
Qed.

Lemma block_logs_keep number hash ts i li es m k l :
  m !! k = Some l -> block_logs number hash ts i li es m !! k = Some l.
Proof.
  revert i li m. induction es as [|e es IH]; intros i li m Hk; [done|]. cbn [block_logs].
  destruct (succeeded e); apply IH; [|done].
  destruct (m !! (me_TxHash e, li)) eqn:He; [done|]. rewrite lookup_insert_ne; congruence.
Qed.

Lemma effect_later tb tb' : evm_inv tb -> effect tb tb' -> evm_later tb tb'.
Proof.
  intros Hinv [|n Hn|h dao Hnone Hd1 Hd2 Hd3|f h Hf|cfg now Hlt]; [reflexivity| | | |].
  - split; cbn; try done. intros h d Hd. exists d. split; [done|apply row_later_refl].
  - split; cbn; try done. intros h' d Hd. exists d. split; [|apply row_later_refl].
    rewrite lookup_insert_ne; congruence.
  - split; cbn; try done. intros h' d Hd. destruct (decide (h = h')) as [<-|Hne].
    + rewrite lookup_alter_eq, Hd. cbn. eexists. split; [done|]. case_bool_decide as Hp; [|apply row_later_refl].
      destruct (Hf d) as (s & m & _ & ->). split; [eauto|]. split; [|done]. right. by left.
    + rewrite lookup_alter_ne by done. exists d. split; [done|apply row_later_refl].
  - pose proof (latest_nonneg _ Hinv) as Hl. unfold mined_tables. split; cbn.
    + intros h d Hd. eexists. split; [by apply mark_mined_lookup|]. case_bool_decide as Hin; [|apply row_later_refl].
      apply list_elem_of_fmap in Hin as (x & -> & Hx). destruct (claim_fresh _ _ x Hinv Hx) as (Hmp & _ & _).
      rewrite Hd in Hmp. injection Hmp as <-. destruct (elem_of_claim _ _ _ Hx) as [Hc _].
      split; [by exists MempoolMined, (md_ErrorMessage d)|]. split; [|done]. right. right. cbn. split; [|done].
      intros Hs. unfold claimable in Hc. by rewrite Hs in Hc.
    + intros h t. apply block_txs_keep.
    + intros k l. apply block_logs_keep.
    + rewrite uint64_id by int_lia. lia.
Qed.

(** C21: the mempool is a state machine.  Between any two reachable states an
    entry keeps its intent and only moves forward (pending, then completed or
    failed, then mined), its error message is fixed once it is no longer
    pending, mined transactions and logs are immutable, and the block number
    never decreases. *)
Theorem evm_lifecycle tb tb' :
  rtc evm_step evm_empty tb -> rtc evm_step tb tb' -> evm_later tb tb'.
Proof.
  intros Hinv%reachable_inv Hr'. induction Hr' as [tb|tb1 tb2 tb3 H12 _ IH]; [reflexivity|].
  apply step_effect in H12. transitivity tb2; [by apply effect_later|].
  apply IH. by eapply effect_inv.
Qed.
End Lifecycle.
