(* ===== verification/EvmSubmitter.v ===== *)
(** * EVM submitter: pkg/ethrpc/submitter/submitter.go

    Draining pending mempool entries through Canton.  The token service is an
    interface on the state of the outside world; the goroutines of a drain run
    in an arbitrary order, and a canceled context may leave some out. *)

From S2P Require Import Prelude AppErrors Effects GoStd EthClient EvmStore.

(** token.ERC20 as far as the submitter calls it: whether a contract is
    supported, and TransferFrom of a supported one. *)
Class TokenService (X : Type) := {
  ERC20 : Address -> result unit;
  TransferFrom : Address -> string -> Address -> Address -> Z -> M X unit;
}.

(** ** Error classification *)

Definition isPermanentError (err : error) : bool :=
  match errors_As err with
  | None => false
  | Some (CategoryDataError, _) | Some (CategoryNotSupported, _) | Some (CategoryUnauthorized, _)
  | Some (CategoryForbidden, _) | Some (CategoryResourceNotFound, _) | Some (CategoryDataConflict, _)
  | Some (CategoryGone, _) => true
  | Some _ => false
  end.

Definition is_deadline (err : error) : bool :=
  errors_Is err "context.DeadlineExceeded" "context deadline exceeded".

Definition categorizeTransferError (err : error) : string :=
  if is_deadline err then "timeout"
  else
    match errors_As err with
    | None => "transient"
    | Some (CategoryDataError, _) => "data"
    | Some (CategoryNotSupported, _) => "not_supported"
    | Some (CategoryUnauthorized, _) => "unauthorized"
    | Some (CategoryForbidden, _) => "forbidden"
    | Some (CategoryResourceNotFound, _) => "not_found"
    | Some (CategoryDataConflict, _) => "conflict"
    | Some (CategoryGone, _) => "gone"
    | Some (CategoryConnectionTimeout, _) => "timeout"
    | Some _ => "transient"
    end.

(** The two classifications agree: an error that is recorded as permanent
    is never labeled transient, an error that is retried is always labeled
    timeout or transient, and wrapping an error changes neither. *)
Theorem error_classes_agree err :
  (isPermanentError err = true -> categorizeTransferError err <> "transient"%string) /\
  (isPermanentError err = false -> categorizeTransferError err = "timeout"%string \/
                                   categorizeTransferError err = "transient"%string) /\
  (forall pre post, isPermanentError (ErrWrap pre err post) = isPermanentError err /\
                    categorizeTransferError (ErrWrap pre err post) = categorizeTransferError err).
Proof.
  unfold isPermanentError, categorizeTransferError, is_deadline. cbn. split_and!; [| |done];
    destruct (errors_Is err _ _), (errors_As err) as [[[] ?]|]; auto; done.
Qed.

(** ** Processing *)

Section Submitter.
Context {X : Type} `{!GoEthereum} `{!TokenService X}.

Record SubmitterState := mkSubmitterState { s_db : EvmDB; s_canton : X }.

Definition on_db {A} (c : M EvmDB A) : M SubmitterState A :=
  zoom s_db (fun d s => mkSubmitterState d (s_canton s)) c.
Definition on_canton {A} (c : M X A) : M SubmitterState A :=
  zoom s_canton (fun x s => mkSubmitterState (s_db s) x) c.

Definition completeEntry (e : MempoolEntry) : M SubmitterState unit :=
  _ ← attempt (on_db (CompleteMempoolEntry (me_TxHash e))); mret tt.
Definition failEntry (e : MempoolEntry) (cause : error) : M SubmitterState unit :=
  _ ← attempt (on_db (FailMempoolEntry (me_TxHash e) (Error cause))); mret tt.

(** How far process gets with Canton: the contract is not supported and
    Canton is not called, or Canton answered. *)
Inductive outcome := Unsupported (err : error) | Answered (r : result unit).

(** process up to the answer of Canton. *)
Definition call (e : MempoolEntry) (x : X) : outcome * X :=
  match ERC20 (HexToAddress (me_ContractAddress e)) with
  | Err err => (Unsupported err, x)
  | Ok _ =>
      let '(r, x') := TransferFrom (HexToAddress (me_ContractAddress e)) (Hash_Hex (BytesToHash (me_TxHash e)))
                        (HexToAddress (me_FromAddress e)) (HexToAddress (me_RecipientAddress e))
                        (SetBytes (me_AmountData e)) x in (Answered r, x')
  end.

(** process from there on: the write to the mempool row. *)
Definition record_outcome (e : MempoolEntry) (o : outcome) : M SubmitterState unit :=
  match o with
  | Unsupported err => failEntry e (ErrWrap "contract not supported: " err "")
  | Answered (Ok _) => completeEntry e
  | Answered (Err transferErr) => if isPermanentError transferErr then failEntry e transferErr else mret tt
  end.

(** process *)
Definition process (e : MempoolEntry) : M SubmitterState unit := fun st =>
  let '(o, x) := call e (s_canton st) in record_outcome e o (mkSubmitterState (s_db st) x).

(** ** The worker pool of drain *)

Definition defaultConcurrency : Z := 10.

(** The concurrency New settles on. *)
Definition New_concurrency (concurrency : Z) : Z := if concurrency <=? 0 then defaultConcurrency else concurrency.

(** A goroutine that runs process: it has a slot, or Canton has answered. *)
Inductive worker := Launched (e : MempoolEntry) | Called (e : MempoolEntry) (o : outcome).

(** The loop over the entries: at the check of the context, blocked on a
    saturated pool, or left with entries to go, by the break or by the return. *)
Inductive loop := AtCheck | Blocked | Broken | Returned.

(** The entries not launched yet, the loop over them, whether the context is
    canceled, the running goroutines, the calls made so far in their order, and
    the state they share. *)
Record Drain := mkDrain {
  d_queue : list MempoolEntry;
  d_loop : loop;
  d_canceled : bool;
  d_running : list worker;
  d_calls : list (MempoolEntry * outcome);
  d_state : SubmitterState;
}.

Section Pool.
Variable concurrency : Z.

Definition slot_free (ws : list worker) : Prop := Z.of_nat (length ws) < New_concurrency concurrency.

(** Goroutines are launched in order while a slot is free, and interleave
    between the Canton call and the write.  The context may be canceled at any
    time; the loop sees it at its check or while it is blocked, where a free
    slot may still win. *)
Inductive drain_step : Drain -> Drain -> Prop :=
| ds_launch e q ws log st :
    slot_free ws ->
    drain_step (mkDrain (e :: q) AtCheck false ws log st) (mkDrain q AtCheck false (ws ++ [Launched e]) log st)
| ds_block e q ws log st :
    ~ slot_free ws ->
    drain_step (mkDrain (e :: q) AtCheck false ws log st) (mkDrain (e :: q) Blocked false ws log st)
| ds_unblock e q c ws log st :
    slot_free ws ->
    drain_step (mkDrain (e :: q) Blocked c ws log st) (mkDrain q AtCheck c (ws ++ [Launched e]) log st)
| ds_break e q ws log st :
    drain_step (mkDrain (e :: q) AtCheck true ws log st) (mkDrain (e :: q) Broken true ws log st)
| ds_return e q ws log st :
    drain_step (mkDrain (e :: q) Blocked true ws log st) (mkDrain (e :: q) Returned true ws log st)
| ds_cancel q l ws log st :
    drain_step (mkDrain q l false ws log st) (mkDrain q l true ws log st)
| ds_call e q l c ws1 ws2 log st o x :
    call e (s_canton st) = (o, x) ->
    drain_step (mkDrain q l c (ws1 ++ Launched e :: ws2) log st)
               (mkDrain q l c (ws1 ++ Called e o :: ws2) (log ++ [(e, o)]) (mkSubmitterState (s_db st) x))
| ds_write e o q l c ws1 ws2 log st r st' :
    record_outcome e o st = (r, st') ->
    drain_step (mkDrain q l c (ws1 ++ Called e o :: ws2) log st) (mkDrain q l c (ws1 ++ ws2) log st').

Definition drain_start (entries : list MempoolEntry) (st : SubmitterState) : Drain := mkDrain entries AtCheck false [] [] st.

(** wg.Wait is over: the loop is done and no goroutine is left. *)
Definition finished (p : Drain) : Prop :=
  d_running p = [] /\ (d_queue p = [] \/ d_loop p = Broken \/ d_loop p = Returned).

(** drain: the pending entries are read, then the pool runs until it is done. *)
Inductive drain (batchSize : Z) (st : SubmitterState) : result Drain -> SubmitterState -> Prop :=
| drain_failed err st' :
    wrapping "list pending mempool entries: " (on_db (GetMempoolEntriesByStatus MempoolPending batchSize)) st
      = (Err err, st') ->
    drain batchSize st (Err err) st'
| drain_done entries st1 p :
    wrapping "list pending mempool entries: " (on_db (GetMempoolEntriesByStatus MempoolPending batchSize)) st
      = (Ok entries, st1) ->
    rtc drain_step (drain_start entries st1) p -> finished p ->
    drain batchSize st (Ok p) (d_state p).
End Pool.

(** ** One goroutine at a time *)

(** There is always a slot, also for a concurrency that is not positive. *)
Lemma slot_free_nil concurrency : slot_free concurrency [].
Proof. unfold slot_free, New_concurrency, defaultConcurrency. cbn. case_match; lia. Qed.

(** A goroutine that is not interleaved with others does what process does. *)
Lemma drain_step_process concurrency e q log st r st' :
  process e st = (r, st') ->
  rtc (drain_step concurrency) (mkDrain (e :: q) AtCheck false [] log st)
    (mkDrain q AtCheck false [] (log ++ [(e, (call e (s_canton st)).1)]) st').
Proof.
  unfold process. destruct (call e (s_canton st)) as [o x] eqn:Hcall. intros Hrec.
  eapply rtc_l; [apply ds_launch, slot_free_nil|].
  eapply rtc_l; [by apply (ds_call _ e q _ _ [] [])|]. eapply rtc_once. by eapply (ds_write _ e o q _ _ [] []).
Qed.

(** ** Termination *)

Definition work (p : Drain) : nat :=
  (4 * length (d_queue p) +
   sum_list_with (fun w => match w with Launched _ => 2 | Called _ _ => 1 end) (d_running p) +
   match d_loop p with AtCheck => 2 | Blocked => 1 | Broken | Returned => 0 end +
   if d_canceled p then 0 else 1)%nat.

Lemma drain_step_work concurrency p p' : drain_step concurrency p p' -> (work p' < work p)%nat.
Proof. intros []; unfold work; cbn; rewrite ?sum_list_with_app; cbn; try destruct c; lia. Qed.

(** The loop leaves entries behind only when the context is canceled. *)
Lemma left_canceled concurrency entries st p :
  rtc (drain_step concurrency) (drain_start entries st) p ->
  d_loop p = Broken \/ d_loop p = Returned -> d_canceled p = true.
Proof.
  intros Hr. remember (drain_start entries st) as p0 eqn:Hp0.
  assert (d_loop p0 = Broken \/ d_loop p0 = Returned -> d_canceled p0 = true) as H0 by (subst; by intros []).
  clear Hp0. induction Hr as [|x y z Hxy _ IH]; [done|]. apply IH. destruct Hxy; cbn in *; naive_solver.
Qed.

(** A drain that is not finished has a step of its own. *)
Lemma drain_progress concurrency p :
  finished p \/ exists p', drain_step concurrency p p' /\ d_canceled p' = d_canceled p.
Proof.
  destruct p as [q l c ws log st]. unfold finished. cbn. destruct ws as [|w ws].
  - destruct q as [|e q]; [by auto|]. destruct l; [|right|by auto..].
    + destruct c; right; eexists; (split; [|]); [apply ds_break|done|apply ds_launch, slot_free_nil|done].
    + eexists. split; [apply ds_unblock, slot_free_nil|done].
  - right. destruct w as [e|e o].
    + destruct (call e (s_canton st)) as [o x] eqn:Hc. eexists. split; [by apply (ds_call _ e q l c [] ws)|done].
    + destruct (record_outcome e o st) as [r st''] eqn:Hr. eexists. split; [by eapply (ds_write _ e o q l c [] ws)|done].
Qed.

(** C35: a drain of n entries takes at most 4n + 3 steps, whatever the
    interleaving and whenever the context is canceled, the cancellation being
    one of them; until every goroutine is done and every entry was launched, or
    the loop has left the rest, the drain has a step of its own to take (there
    is always a slot, also for a concurrency that is not positive); and it
    leaves entries behind only when the context is canceled. *)
Theorem drain_terminates concurrency entries st n p :
  nsteps (drain_step concurrency) n (drain_start entries st) p ->
  (n <= 4 * length entries + 3)%nat /\
  ((d_running p = [] /\ (d_queue p = [] \/ d_loop p = Broken \/ d_loop p = Returned)) \/
   exists p', drain_step concurrency p p' /\ d_canceled p' = d_canceled p) /\
  (d_loop p = Broken \/ d_loop p = Returned -> d_canceled p = true).
Proof.
  intros Hn. split_and!; [|apply drain_progress|by eapply left_canceled, rtc_nsteps; exists n].
  cut (n + work p <= work (drain_start entries st))%nat; [unfold work at 2; cbn; lia|].
  induction Hn as [|n x y z Hxy _ IH]; [done|]. apply drain_step_work in Hxy. lia.
Qed.

(** ** What a drain does *)

Fixpoint calls (es : list MempoolEntry) (x : X) : list (MempoolEntry * outcome) * X :=
  match es with
  | [] => ([], x)
  | e :: es =>
      let '(o, x1) := call e x in
      let '(log, x2) := calls es x1 in ((e, o) :: log, x2)
  end.

Lemma calls_snoc es e x log y o z :
  calls es x = (log, y) -> call e y = (o, z) -> calls (es ++ [e]) x = (log ++ [(e, o)], z).
Proof.
  revert x log. induction es as [|e' es IH]; intros x log; cbn.
  - intros [= <- <-] ->. done.
  - destruct (call e' x) as [o1 x1]. destruct (calls es x1) as [log1 x2] eqn:Hc. intros [= <- <-] Ho.
    by rewrite (IH _ _ Hc Ho).
Qed.

(** The pending row after its outcome was recorded. *)
Definition recorded (o : outcome) (d : MempoolEntryDao) : MempoolEntryDao :=
  match o with
  | Unsupported err => set_md_failed (Error (ErrWrap "contract not supported: " err "")) d
  | Answered (Ok _) => set_md_status MempoolCompleted d
  | Answered (Err e) => if isPermanentError e then set_md_failed (Error e) d else d
  end.

Definition settle (o : outcome) (d : MempoolEntryDao) : MempoolEntryDao :=
  if bool_decide (md_Status d = MempoolPending) then recorded o d else d.

Lemma recorded_pending o d : md_Status (recorded o d) = MempoolPending -> recorded o d = d.
Proof. destruct o as [|[]]; cbn; [done|done|]. by destruct (isPermanentError e). Qed.

Lemma settle_recorded o d : settle o (recorded o d) = recorded o d.
Proof. unfold settle. case_bool_decide as Hp; [|done]. by rewrite !(recorded_pending o d Hp). Qed.

Definition pool (st : SubmitterState) : gmap (list Z) MempoolEntryDao := mempool (tables (s_db st)).

(** Everything but the mempool. *)
Definition rest (st : SubmitterState) :=
  (next_id (tables (s_db st)), evm_transactions (tables (s_db st)), evm_logs (tables (s_db st)),
   latest_block (tables (s_db st))).

(** The write of a goroutine: it takes effect or, when it faults, does nothing. *)
Definition written (e : MempoolEntry) (o : outcome) (st st' : SubmitterState) : Prop :=
  s_canton st' = s_canton st /\ rest st' = rest st /\
  (pool st' = pool st \/ pool st' = alter (settle o) (me_TxHash e) (pool st)) /\
  (faults (s_db st) = [] ->
   faults (s_db st') = [] /\ pool st' = alter (settle o) (me_TxHash e) (pool st)).

Lemma update_written e o pre f st r st' :
  (forall d, md_Status d = MempoolPending -> f d = recorded o d) ->
  (_ ← attempt (on_db (wrapping pre (exec (fun tb => (tt, update_pending f (me_TxHash e) tb))))); mret tt) st
    = (r, st') -> written e o st st'.
Proof.
  intros Hf. unfold mbind, M_bind, attempt, on_db, zoom, wrapping, exec. destruct st as [[tb fs] x].
  assert (mempool (update_pending f (me_TxHash e) tb) = alter (settle o) (me_TxHash e) (mempool tb)) as Hpool.
  { unfold update_pending. cbn. apply map_eq. intros h. destruct (decide (h = me_TxHash e)) as [->|Hne].
    - rewrite !lookup_alter_eq. destruct (mempool tb !! me_TxHash e) as [d|]; [|done]. cbn. f_equal.
      unfold settle. case_bool_decide; auto.
    - by rewrite !lookup_alter_ne by done. }
  unfold written, rest, pool. cbn. destruct fs as [|[m|] fs]; cbn; intros [= <- <-]; cbn; naive_solver.
Qed.

Lemma record_written e o st r st' : record_outcome e o st = (r, st') -> written e o st st'.
Proof.
  unfold record_outcome, failEntry, completeEntry, FailMempoolEntry, CompleteMempoolEntry.
  destruct o as [err|[[]|err]]; [by apply update_written|by apply update_written|].
  destruct (isPermanentError err) eqn:Hp.
  - apply update_written. intros d _. cbn. by rewrite Hp.
  - intros [= <- <-]. assert (pool st = alter (settle (Answered (Err err))) (me_TxHash e) (pool st)) as Hpool.
    { symmetry. apply map_eq. intros h. destruct (decide (h = me_TxHash e)) as [->|Hne].
      - rewrite lookup_alter_eq. destruct (pool st !! me_TxHash e) as [d|]; [|done]. cbn. f_equal.
        unfold settle. cbn. rewrite Hp. by case_bool_decide.
      - by rewrite lookup_alter_ne by done. }
    by repeat split; auto.
Qed.

(** The row of a hash during a drain: as it was, or with the outcome of the
    call for its entry recorded. *)
Definition row_drained (log : list (MempoolEntry * outcome)) (h : list Z) (d d' : MempoolEntryDao) : Prop :=
  d' = d \/ exists e o, (e, o) ∈ log /\ me_TxHash e = h /\ md_Status d = MempoolPending /\ d' = recorded o d.

Definition rows_drained (log : list (MempoolEntry * outcome)) (m m' : gmap (list Z) MempoolEntryDao) : Prop :=
  forall h, match m !! h with
            | None => m' !! h = None
            | Some d => exists d', m' !! h = Some d' /\ row_drained log h d d'
            end.

Lemma rows_drained_mono log log' m m' : log ⊆ log' -> rows_drained log m m' -> rows_drained log' m m'.
Proof.
  intros Hsub Hr h. specialize (Hr h). destruct (m !! h) as [d|]; [|done].
  destruct Hr as (d' & Hd' & [->|(e & o & Hin & ?)]); eexists; split; [done|by left|done|right]. set_solver.
Qed.

Lemma rows_drained_settle log m m' e o :
  (e, o) ∈ log -> rows_drained log m m' -> rows_drained log m (alter (settle o) (me_TxHash e) m').
Proof.
  intros Hin Hr h. specialize (Hr h). destruct (decide (h = me_TxHash e)) as [->|Hne].
  - rewrite lookup_alter_eq. destruct (m !! me_TxHash e) as [d|]; [|by rewrite Hr].
    destruct Hr as (d' & -> & Hd'). cbn. eexists. split; [done|]. unfold settle.
    case_bool_decide as Hp; [right|done]. exists e, o.
    assert (d' = d) as ->; [|done]. destruct Hd' as [|(e' & o' & _ & _ & _ & ->)]; [done|].
    by apply recorded_pending.
  - by rewrite lookup_alter_ne by done.
Qed.

Definition launched (ws : list worker) : list MempoolEntry :=
  omap (fun w => match w with Launched e => Some e | Called _ _ => None end) ws.

(** What holds throughout a drain of [entries] that started in [st0]. *)
Record drain_inv (entries : list MempoolEntry) (st0 : SubmitterState) (p : Drain) : Prop := {
  di_entries : (d_calls p).*1 ++ launched (d_running p) ++ d_queue p ≡ₚ entries;
  di_calls : calls (d_calls p).*1 (s_canton st0) = (d_calls p, s_canton (d_state p));
  di_rest : rest (d_state p) = rest st0;
  di_called : forall e o, Called e o ∈ d_running p -> (e, o) ∈ d_calls p;
  di_rows : rows_drained (d_calls p) (pool st0) (pool (d_state p));
  di_faultless : faults (s_db st0) = [] -> faults (s_db (d_state p)) = [] /\
    forall e o d, (e, o) ∈ d_calls p -> pool st0 !! me_TxHash e = Some d -> md_Status d = MempoolPending ->
      Called e o ∈ d_running p \/ pool (d_state p) !! me_TxHash e = Some (recorded o d);
}.

Lemma drain_inv_start entries st : drain_inv entries st (drain_start entries st).
Proof.
  split; try done.
  - intros e o Hin. cbn in Hin. set_solver.
  - intros h. cbn. destruct (pool st !! h) as [d|]; [|done]. exists d. split; [done|by left].
  - cbn. split; [done|]. intros e o d Hin. set_solver.
Qed.

(** The calls of a drain are for entries with distinct hashes. *)
Lemma drain_inv_unique entries st p e o e' o' :
  NoDup (me_TxHash <$> entries) -> drain_inv entries st p ->
  (e, o) ∈ d_calls p -> (e', o') ∈ d_calls p -> me_TxHash e = me_TxHash e' -> o = o'.
Proof.
  intros Hnd Hinv Hin Hin' Hh. rewrite <- (di_entries _ _ _ Hinv), fmap_app in Hnd. apply NoDup_app in Hnd as [Hnd _].
  rewrite <- list_fmap_compose in Hnd.
  apply list_elem_of_lookup in Hin as [i Hi], Hin' as [j Hj].
  assert (i = j) as ->; [|congruence]. eapply NoDup_lookup; [exact Hnd|..].
  - rewrite list_lookup_fmap, Hi. reflexivity.
  - rewrite list_lookup_fmap, Hj. cbn. by rewrite <- Hh.
Qed.

Lemma drain_inv_step concurrency entries st p p' :
  NoDup (me_TxHash <$> entries) -> drain_inv entries st p -> drain_step concurrency p p' -> drain_inv entries st p'.
Proof.
  intros Hnd Hinv Hstep. pose proof Hinv as [He Hc Hrest Hcd Hrow Hfl].
  assert (forall e q l l' c c' ws log s, p = mkDrain (e :: q) l c ws log s ->
    drain_inv entries st (mkDrain q l' c' (ws ++ [Launched e]) log s)) as Hlaunch.
  { intros e q l l' c c' ws log s ->. cbn in *. split; cbn; try done.
    - rewrite <- He. unfold launched. rewrite omap_app. cbn. by rewrite <- app_assoc.
    - intros e' o' Hin. apply Hcd. set_solver.
    - intros Hf. destruct (Hfl Hf) as [Hf' Hr]. split; [done|]. intros e' o' d H1 H2 H3.
      destruct (Hr e' o' d H1 H2 H3); [left; set_solver|by right]. }
  destruct Hstep as [| | | | | |e q l c ws1 ws2 log s o x Hcall|e o q l c ws1 ws2 log s r s' Hrec]; try by eapply Hlaunch.
  all: try (by split). all: cbn in *; clear Hlaunch.
  - split; cbn; try done.
    + rewrite <- He. unfold launched. rewrite !omap_app, fmap_app. cbn. solve_Permutation.
    + rewrite fmap_app. by eapply calls_snoc.
    + intros e' o' Hin. set_solver.
    + eapply rows_drained_mono; [|exact Hrow]. set_solver.
    + intros Hf. destruct (Hfl Hf) as [Hf' Hr]. split; [done|]. intros e' o' d H1 H2 H3.
      apply elem_of_app in H1 as [H1|H1].
      * destruct (Hr e' o' d H1 H2 H3); [left; set_solver|by right].
      * left. set_solver.
  - assert ((e, o) ∈ log) as Hlog by (apply Hcd; set_solver).
    destruct (record_written _ _ _ _ _ Hrec) as (Hx & Hrs & Hp & Hpf). split; cbn; try done.
    + rewrite <- He. unfold launched. by rewrite !omap_app.
    + by rewrite Hx.
    + by rewrite Hrs.
    + intros e' o' Hin. apply Hcd. set_solver.
    + destruct Hp as [->| ->]; [done|]. by apply rows_drained_settle.
    + intros Hf. destruct (Hfl Hf) as [Hf' Hr]. destruct (Hpf Hf') as [Hf'' ->]. split; [done|].
      intros e' o' d H1 H2 H3. destruct (decide (me_TxHash e = me_TxHash e')) as [Hh|Hne].
      * right. rewrite Hh, lookup_alter_eq.
        assert (o' = o) as -> by (symmetry; by apply (drain_inv_unique _ _ _ e o e' o' Hnd Hinv)).
        specialize (Hrow (me_TxHash e')). rewrite H2 in Hrow. destruct Hrow as (d' & -> & Hd'). cbn. f_equal.
        destruct Hd' as [->|(e1 & o1 & Hin1 & Hh1 & _ & ->)].
        -- unfold settle. by rewrite bool_decide_true.
        -- rewrite (drain_inv_unique _ _ _ e1 o1 e o Hnd Hinv Hin1 Hlog) by congruence. apply settle_recorded.
      * rewrite lookup_alter_ne by done. destruct (Hr e' o' d H1 H2 H3) as [Hin|]; [left|by right]. set_solver.
Qed.

Lemma drain_inv_reachable concurrency entries st p :
  NoDup (me_TxHash <$> entries) -> rtc (drain_step concurrency) (drain_start entries st) p -> drain_inv entries st p.
Proof.
  intros Hnd Hr. remember (drain_start entries st) as p0 eqn:Hp0.
  assert (drain_inv entries st p0) as Hinv by (rewrite Hp0; apply drain_inv_start). clear Hp0.
  induction Hr as [|x y z Hxy _ IH]; [done|]. apply IH. by eapply drain_inv_step.
Qed.

(** The rows a drain reads: the oldest pending ones, up to the batch size. *)
Definition pending_batch (batchSize : Z) (m : gmap (list Z) MempoolEntryDao) : list MempoolEntryDao :=
  sql_limit batchSize (mempool_rows (fun d => bool_decide (md_Status d = MempoolPending)) m).

Lemma pending_batch_in batchSize m d :
  keyed m -> d ∈ pending_batch batchSize m -> m !! md_TxHash d = Some d /\ md_Status d = MempoolPending.
Proof.
  intros Hk Hd. unfold pending_batch in Hd. apply elem_of_sql_limit, elem_of_mempool_rows in Hd as [Hp [h Hh]]. apply bool_decide_eq_true in Hp.
  by rewrite (Hk h d Hh : md_TxHash d = h).
Qed.

Lemma pending_batch_NoDup batchSize m :
  keyed m -> NoDup (me_TxHash <$> ((fun d => entry_of d MempoolPending) <$> pending_batch batchSize m)).
Proof.
  intros Hk. rewrite <- list_fmap_compose. change (NoDup (md_TxHash <$> pending_batch batchSize m)).
  pose proof (mempool_rows_NoDup (fun d => bool_decide (md_Status d = MempoolPending)) m Hk) as Hnd.
  unfold pending_batch. rewrite fmap_sql_limit. by eapply sublist_NoDup, sql_limit_sublist.
Qed.

(** C5: a drain, however its goroutines interleave and whichever writes fail,
    calls Canton exactly once for every entry it launched, the oldest pending
    ones up to the batch size, and for nothing else; a mempool row changes only
    if it was pending and its own call was made, to completed when Canton
    accepted it, to failed with Canton's message when it was rejected for good
    or its contract is not supported, and stays pending for a retry otherwise;
    nothing but the mempool changes.  When no statement fails every outcome
    is recorded.  When the pending rows cannot be read the drain does nothing. *)
Theorem drain_correct concurrency batchSize st r st' :
  keyed (pool st) -> drain concurrency batchSize st r st' ->
  match r with
  | Err _ => tables (s_db st') = tables (s_db st) /\ s_canton st' = s_canton st
  | Ok p =>
      (d_calls p).*1 ++ d_queue p ≡ₚ (fun d => entry_of d MempoolPending) <$> pending_batch batchSize (pool st) /\
      NoDup (me_TxHash <$> (d_calls p).*1) /\
      calls (d_calls p).*1 (s_canton st) = (d_calls p, s_canton st') /\
      rest st' = rest st /\
      rows_drained (d_calls p) (pool st) (pool st') /\
      (faults (s_db st) = [] -> forall e o, (e, o) ∈ d_calls p -> exists d,
         pool st !! me_TxHash e = Some d /\ e = entry_of d MempoolPending /\
         pool st' !! me_TxHash e = Some (recorded o d))
  end.
Proof.
  intros Hk Hd.
  assert (forall r s, wrapping "list pending mempool entries: " (on_db (GetMempoolEntriesByStatus MempoolPending batchSize)) st
    = (r, s) -> tables (s_db s) = tables (s_db st) /\ s_canton s = s_canton st /\
    (faults (s_db st) = [] -> faults (s_db s) = []) /\
    forall l, r = Ok l -> l = (fun d => entry_of d MempoolPending) <$> pending_batch batchSize (pool st)) as Hread.
  { intros r0 s. unfold wrapping, on_db, zoom, GetMempoolEntriesByStatus, wrapping, query, exec.
    destruct st as [[tb fs] x]. destruct fs as [|[m|] fs]; cbn; intros [= <- <-]; cbn; split_and!; try done;
      intros l [= <-]; done. }
  destruct Hd as [err s Hrun|entries s p Hrun Hsteps [Hend _]]; destruct (Hread _ _ Hrun) as (Ht & Hx & Hf & Hl); [done|].
  specialize (Hl _ eq_refl). subst entries.
  assert (pool s = pool st) as Hpool by (unfold pool; by rewrite Ht).
  assert (rest s = rest st) as Hrs by (unfold rest; by rewrite Ht).
  pose proof (drain_inv_reachable _ _ _ _ (pending_batch_NoDup batchSize _ Hk) Hsteps) as Hinv.
  pose proof Hinv as [He Hc Hr _ Hrow Hfl]. rewrite Hend in He, Hfl. cbn in He, Hfl.
  rewrite Hpool in Hrow, Hfl. rewrite Hx in Hc. rewrite Hrs in Hr. split_and!; try done.
  - pose proof (pending_batch_NoDup batchSize _ Hk) as Hnd. rewrite <- He, fmap_app in Hnd.
    by apply NoDup_app in Hnd as [? _].
  - intros Hnf e o Hin. destruct (Hfl (Hf Hnf)) as [_ Hrec].
    assert (e ∈ (fun d => entry_of d MempoolPending) <$> pending_batch batchSize (pool st)) as Hent.
    { rewrite <- He. apply elem_of_app. left. apply list_elem_of_fmap. by exists (e, o). }
    apply list_elem_of_fmap in Hent as (d & -> & Hd). destruct (pending_batch_in _ _ _ Hk Hd) as [Hm Hs].
    exists d. split_and!; [done|done|]. cbn in *. destruct (Hrec _ _ _ Hin Hm Hs) as [Hbad|]; [set_solver|done].
Qed.
End Submitter.
