(* ===== verification/EvmMetrics.v ===== *)
(** * EvmMetrics: the miner and the submitter as they are wired

    The mining cycle of pkg/ethrpc/miner over the instrumented store, with the
    metrics of pkg/ethrpc/miner/metrics.go.  Forgetting the metrics it is the
    cycle of EvmMiner; and the metrics say what was mined.  Then the submitter
    with its counters. *)

From S2P Require Import Prelude AppErrors Effects GoStd EthClient EvmStore EvmMiner EvmSubmitter Instrumented.
Local Open Scope Z_scope.

(** Metrics of the miner; its duration histogram is the number of cycles. *)
Record MinerMetrics := mkMinerMetrics {
  MineDuration : Z;
  BlocksMined : Z;
  TransactionsMined : Z;
  ErrorsTotal : Z;
  LatestBlock : option Z;
}.

Definition NewMinerMetrics : MinerMetrics := mkMinerMetrics 0 0 0 0 None.

(** What a cycle records: [Some (number, txs)] when it mined a block. *)
Definition record_cycle (r : result (option (Z * Z))) (m : MinerMetrics) : MinerMetrics :=
  match r with
  | Err _ => mkMinerMetrics (MineDuration m + 1) (BlocksMined m) (TransactionsMined m) (ErrorsTotal m + 1) (LatestBlock m)
  | Ok None => mkMinerMetrics (MineDuration m + 1) (BlocksMined m) (TransactionsMined m) (ErrorsTotal m) (LatestBlock m)
  | Ok (Some (number, txs)) =>
      mkMinerMetrics (MineDuration m + 1) (BlocksMined m + 1) (TransactionsMined m + txs) (ErrorsTotal m) (Some number)
  end.

Section miner.
Context `{!GoEthereum}.
Variable cfg : MinerConfig.
Abbreviation ME := (M (EvmDB * StoreMetrics)).

Fixpoint wired_add_entries (number : Z) (hash : list Z) (ts txIndex logIndex : Z) (es : list MempoolEntry) : ME unit :=
  match es with
  | [] => mret tt
  | e :: es =>
      _ ← evm_AddEvmTransaction (evmTx cfg e number hash txIndex);
      if negb (succeeded e) then wired_add_entries number hash ts (txIndex + 1) logIndex es
      else
        _ ← evm_AddEvmLog (buildTransferLog e number hash txIndex logIndex ts);
        wired_add_entries number hash ts (txIndex + 1) (logIndex + 1) es
  end.

(** The cycle after NewBlock, up to Finalize: how many entries were mined. *)
Definition wired_fill (number : Z) (hash : list Z) (now : Z) : ME (option Z) :=
  entries ← evm_ClaimMempoolEntries (m_maxTxsPerBlock cfg);
  match entries with
  | [] => mret None
  | _ =>
      _ ← wired_add_entries number hash (uint64 now) 0 0 entries;
      _ ← evm_Finalize number;
      mret (Some (Z.of_nat (length entries)))
  end.

(** The block: begun by NewBlock, rolled back by the deferred Abort unless it
    was finalized; Abort is called and observed either way, once there is a block. *)
Definition wired_block (now : Z) : ME (option (Z * Z)) := fun s =>
  match evm_NewBlock (m_chainID cfg) s with
  | (Err e, (d, m)) => (Err e, (set_tables (tables s.1) d, m))
  | (Ok (number, hash), s1) =>
      let '(r, (d, m)) := wired_fill number hash now s1 in
      let m := ObserveQueryDuration "abort" m in
      match r with
      | Ok (Some n) => (Ok (Some (number, n)), (d, m))
      | Ok None => (Ok None, (set_tables (tables s.1) d, m))
      | Err e => (Err e, (set_tables (tables s.1) d, m))
      end
  end.

(** mine with its metrics *)
Definition wired_mine (now : Z) : M (EvmDB * (StoreMetrics * MinerMetrics)) unit := fun s =>
  let '(r, (d, m)) := wired_block now (s.1, s.2.1) in
  (match r with Ok _ => Ok tt | Err e => Err e end, (d, (m, record_cycle r s.2.2))).

(** ** Forgetting the metrics *)

Lemma erases_add_entries number hash ts es : forall txIndex logIndex,
  erases (wired_add_entries number hash ts txIndex logIndex es) (add_entries cfg number hash ts txIndex logIndex es).
Proof.
  induction es as [|e es IH]; intros i j; cbn; [apply erases_ret|].
  apply erases_bind; [apply erases_instrumented|]. intros _. destruct (negb (succeeded e)); [apply IH|].
  apply erases_bind; [apply erases_instrumented|]. intros _. apply IH.
Qed.

(** The model's body: NewBlock and the rest. *)
Definition fill (number : Z) (hash : list Z) (now : Z) : M EvmDB bool :=
  entries ← ClaimMempoolEntries (m_maxTxsPerBlock cfg);
  match entries with
  | [] => mret false
  | _ => _ ← add_entries cfg number hash (uint64 now) 0 0 entries; _ ← Finalize number; mret true
  end.

Lemma wired_fill_erases number hash now s :
  let '(r, s') := wired_fill number hash now s in
  fill number hash now s.1 = (match r with Ok o => Ok (bool_decide (is_Some o)) | Err e => Err e end, s'.1).
Proof.
  assert (erases (o ← wired_fill number hash now; mret (bool_decide (is_Some o))) (fill number hash now)) as Her.
  { intros s0. unfold wired_fill, fill, mbind, M_bind.
    destruct (erases_instrumented "claim_mempool_entries" (ClaimMempoolEntries (m_maxTxsPerBlock cfg)) s0) as [Hr Hd].
    fold (evm_ClaimMempoolEntries (m_maxTxsPerBlock cfg)) in Hr, Hd.
    destruct (evm_ClaimMempoolEntries _ s0) as [r s1], (ClaimMempoolEntries _ s0.1) as [r' d1]. cbn in Hr, Hd. subst.
    destruct r' as [[|e es]|err]; [done| |done].
    destruct (erases_add_entries number hash (uint64 now) (e :: es) 0 0 s1) as [Hr Hd].
    destruct (wired_add_entries _ _ _ _ _ _ s1) as [r2 s2], (add_entries _ _ _ _ _ _ _ s1.1) as [r2' d2]. cbn in Hr, Hd. subst.
    destruct r2' as [[]|err]; [|done].
    destruct (erases_instrumented "finalize" (Finalize number) s2) as [Hr Hd]. fold (evm_Finalize number) in Hr, Hd.
    destruct (evm_Finalize number s2) as [r3 s3], (Finalize number s2.1) as [r3' d3]. cbn in Hr, Hd. subst.
    by destruct r3' as [[]|err]. }
  destruct (Her s) as [Hr Hd]. revert Hr Hd. unfold mbind, M_bind.
  destruct (wired_fill number hash now s) as [[o|e] s'], (fill number hash now s.1) as [r' d']; cbn; by intros <- <-.
Qed.

(** As it is wired, with the instrumented store and its metrics, the miner does
    to the database what the miner of EvmMiner does. *)
Theorem wired_mine_erases now : erases (wired_mine now) (mine cfg now).
Proof.
  intros s. unfold wired_mine, wired_block, mine, in_block_tx, mine_body, mbind, M_bind.
  destruct (erases_instrumented "new_block" (NewBlock (m_chainID cfg)) (s.1, s.2.1)) as [Hr Hd].
  fold (evm_NewBlock (m_chainID cfg)) in Hr, Hd. cbn [fst] in Hr, Hd.
  destruct (evm_NewBlock _ _) as [r [d m]], (NewBlock _ s.1) as [r' d']. cbn in Hr, Hd. subst.
  destruct r' as [[number hash]|e]; [|done].
  pose proof (wired_fill_erases number hash now (d', m)) as Hf.
  destruct (wired_fill number hash now (d', m)) as [[[n|]|e] [d2 m2]]; cbn [fst snd] in Hf;
    unfold fill, mbind, M_bind in Hf; cbn; rewrite Hf; done.
Qed.

(** ** What the metrics say *)

Lemma wp_Finalize number d :
  wp (Finalize number) (fun r d' => match r with Ok _ => latest_block (tables d') = number | Err _ => True end) d.
Proof. unfold Finalize. apply wp_bind, wp_wrapping, wp_exec; [|done]. intros fs. by apply wp_query. Qed.

(** A cycle is counted as failed when it fails and leaves the tables alone; it
    counts a block when it finalized one, with the number that is stored. *)
Theorem cycle_metrics now s : wp (wired_mine now) (fun r s' =>
  MineDuration s'.2.2 = MineDuration s.2.2 + 1 /\
  match r with
  | Err _ => ErrorsTotal s'.2.2 = ErrorsTotal s.2.2 + 1 /\ BlocksMined s'.2.2 = BlocksMined s.2.2 /\
      TransactionsMined s'.2.2 = TransactionsMined s.2.2 /\ LatestBlock s'.2.2 = LatestBlock s.2.2 /\ tables s'.1 = tables s.1
  | Ok _ => ErrorsTotal s'.2.2 = ErrorsTotal s.2.2 /\
      (BlocksMined s'.2.2 = BlocksMined s.2.2 /\ TransactionsMined s'.2.2 = TransactionsMined s.2.2 /\
       LatestBlock s'.2.2 = LatestBlock s.2.2 /\ tables s'.1 = tables s.1 \/
       BlocksMined s'.2.2 = BlocksMined s.2.2 + 1 /\ TransactionsMined s.2.2 < TransactionsMined s'.2.2 /\
       LatestBlock s'.2.2 = Some (latest_block (tables s'.1)))
  end) s.
Proof.
  unfold wp, wired_mine, wired_block. destruct (evm_NewBlock _ _) as [[[number hash]|e] [d m]]; cbn; [|done].
  assert (forall r d2 m2, wired_fill number hash now (d, m) = (r, (d2, m2)) ->
    match r with Ok (Some n) => 0 < n /\ latest_block (tables d2) = number | _ => True end) as Hfill.
  { intros r d2 m2. unfold wired_fill, mbind, M_bind. destruct (evm_ClaimMempoolEntries _ _) as [[es|e] s1]; [|by intros [= <-]].
    destruct es as [|e es]; [by intros [= <-]|]. destruct (wired_add_entries _ _ _ _ _ _ s1) as [[[]|err] s2]; [|by intros [= <-]].
    pose proof (wp_erases _ _ _ s2 (erases_instrumented "finalize" _) (wp_Finalize number s2.1)) as Hw. revert Hw.
    unfold wp, evm_Finalize. destruct (instrumented _ _ s2) as [[[]|err] s3]; intros Hl Heq; inversion Heq; subst; [|done].
    split; [lia|done]. }
  destruct (wired_fill number hash now (d, m)) as [r [d2 m2]] eqn:Hrun. specialize (Hfill _ _ _ eq_refl).
  destruct r as [[n|]|e]; cbn; [|split_and!; auto..]. destruct Hfill as [Hn Hb].
  split; [done|]. split; [done|]. right. split_and!; [done|lia|by rewrite Hb].
Qed.
End miner.

(** ** The submitter with its counters

    pkg/ethrpc/submitter/metrics.go, and the drain of EvmSubmitter with what its
    loop and its goroutines record.  A histogram is the number of its
    observations per label; EntriesFetched is the list of the observed values.
    Goroutines record in any interleaving; the counts at the end of a drain are
    those of the answers of Canton. *)

(** ** Metrics *)

Record SubMetrics := mkSubMetrics {
  DrainDuration : Z;
  DrainErrorsTotal : Z;
  EntriesFetched : list Z;
  PendingBacklog : option Z;
  EntriesProcessedTotal : gmap string Z;
  EntryProcessDuration : gmap string Z;
  CantonTransferDuration : gmap string Z;
  CantonTransferErrorsTotal : gmap string Z;
  DBWriteErrorsTotal : gmap string Z;
  WorkerPoolBlockedTotal : Z;
  LastSuccessfulDrain : option Z;
}.

Definition NewSubMetrics : SubMetrics := mkSubMetrics 0 0 [] None ∅ ∅ ∅ ∅ ∅ 0 None.

(** The deferred observation of process. *)
Definition record_processed (outcome : string) (m : SubMetrics) : SubMetrics :=
  mkSubMetrics (DrainDuration m) (DrainErrorsTotal m) (EntriesFetched m) (PendingBacklog m)
    (Inc outcome (EntriesProcessedTotal m)) (Inc outcome (EntryProcessDuration m)) (CantonTransferDuration m)
    (CantonTransferErrorsTotal m) (DBWriteErrorsTotal m) (WorkerPoolBlockedTotal m) (LastSuccessfulDrain m).

(** What process records of the answer of Canton. *)
Definition record_transfer (r : result unit) (m : SubMetrics) : SubMetrics :=
  let label := match r with
    | Ok _ => "ok" | Err e => if isPermanentError e then "permanent" else "transient" end%string in
  mkSubMetrics (DrainDuration m) (DrainErrorsTotal m) (EntriesFetched m) (PendingBacklog m)
    (EntriesProcessedTotal m) (EntryProcessDuration m) (Inc label (CantonTransferDuration m))
    (match r with Ok _ => CantonTransferErrorsTotal m | Err e => Inc (categorizeTransferError e) (CantonTransferErrorsTotal m) end)
    (DBWriteErrorsTotal m) (WorkerPoolBlockedTotal m) (LastSuccessfulDrain m).

Definition record_db_error (kind : string) (m : SubMetrics) : SubMetrics :=
  mkSubMetrics (DrainDuration m) (DrainErrorsTotal m) (EntriesFetched m) (PendingBacklog m)
    (EntriesProcessedTotal m) (EntryProcessDuration m) (CantonTransferDuration m)
    (CantonTransferErrorsTotal m) (Inc kind (DBWriteErrorsTotal m)) (WorkerPoolBlockedTotal m) (LastSuccessfulDrain m).

Definition record_blocked (m : SubMetrics) : SubMetrics :=
  mkSubMetrics (DrainDuration m) (DrainErrorsTotal m) (EntriesFetched m) (PendingBacklog m)
    (EntriesProcessedTotal m) (EntryProcessDuration m) (CantonTransferDuration m)
    (CantonTransferErrorsTotal m) (DBWriteErrorsTotal m) (WorkerPoolBlockedTotal m + 1) (LastSuccessfulDrain m).

Definition record_fetched (n : Z) (m : SubMetrics) : SubMetrics :=
  mkSubMetrics (DrainDuration m) (DrainErrorsTotal m) (EntriesFetched m ++ [n]) (Some n)
    (EntriesProcessedTotal m) (EntryProcessDuration m) (CantonTransferDuration m)
    (CantonTransferErrorsTotal m) (DBWriteErrorsTotal m) (WorkerPoolBlockedTotal m) (LastSuccessfulDrain m).

(** The end of drain: the deferred duration, with the error of the fetch or,
    unless it returned early, the time of its success. *)
Definition record_drain (failed : bool) (succeeded : option Z) (m : SubMetrics) : SubMetrics :=
  mkSubMetrics (DrainDuration m + 1) (if failed then DrainErrorsTotal m + 1 else DrainErrorsTotal m)
    (EntriesFetched m) (PendingBacklog m) (EntriesProcessedTotal m) (EntryProcessDuration m) (CantonTransferDuration m)
    (CantonTransferErrorsTotal m) (DBWriteErrorsTotal m) (WorkerPoolBlockedTotal m)
    (match succeeded with Some t => Some t | None => LastSuccessfulDrain m end).

Section submitter.
Context {X : Type} `{!GoEthereum} `{!TokenService X}.
Local Abbreviation St := (SubmitterState (X := X)).

(** completeEntry and failEntry with their counters *)
Definition wired_completeEntry (e : MempoolEntry) : M (St * SubMetrics) unit := fun s =>
  let '(r, st) := on_db (CompleteMempoolEntry (me_TxHash e)) s.1 in
  (Ok tt, (st, if is_ok r then s.2 else record_db_error "complete" s.2)).
Definition wired_failEntry (e : MempoolEntry) (cause : error) : M (St * SubMetrics) unit := fun s =>
  let '(r, st) := on_db (FailMempoolEntry (me_TxHash e) (Error cause)) s.1 in
  (Ok tt, (st, if is_ok r then s.2 else record_db_error "fail" s.2)).

(** The outcome that process ends with. *)
Definition outcome_label (o : outcome) : string :=
  match o with
  | Unsupported _ => "failed_permanent"
  | Answered (Ok _) => "completed"
  | Answered (Err e) => if isPermanentError e then "failed_permanent" else "transient_retry"
  end.

(** process from the answer of Canton on, with the deferred observation. *)
Definition wired_record_outcome (e : MempoolEntry) (o : outcome) : M (St * SubMetrics) unit := fun s =>
  let '(r, s') := match o with
    | Unsupported err => wired_failEntry e (ErrWrap "contract not supported: " err "")
    | Answered (Ok _) => wired_completeEntry e
    | Answered (Err transferErr) => if isPermanentError transferErr then wired_failEntry e transferErr else mret tt
    end s in
  (r, (s'.1, record_processed (outcome_label o) s'.2)).

Lemma wired_record_outcome_erases e o : erases (wired_record_outcome e o) (record_outcome e o).
Proof.
  assert (forall c, erases (wired_failEntry e c) (failEntry e c)) as Hf.
  { intros c s. unfold wired_failEntry, failEntry, attempt, mbind, M_bind. by destruct (on_db _ s.1). }
  assert (erases (wired_completeEntry e) (completeEntry e)) as Hc.
  { intros s. unfold wired_completeEntry, completeEntry, attempt, mbind, M_bind. by destruct (on_db _ s.1). }
  intros s. unfold wired_record_outcome. destruct o as [err|[[]|err]]; cbn [record_outcome];
    [pose proof (Hf (ErrWrap "contract not supported: " err "") s) as [H1 H2]|pose proof (Hc s) as [H1 H2]|].
  - by destruct (wired_failEntry _ _ s).
  - by destruct (wired_completeEntry _ s).
  - destruct (isPermanentError err); [|done]. pose proof (Hf err s) as [H1 H2]. by destruct (wired_failEntry _ _ s).
Qed.

(** ** The pool *)

(** The drain and its metrics. *)
Record Pool := mkPool { p_drain : Drain (X := X); p_metrics : SubMetrics }.

Variable concurrency : Z.

Inductive pool_step : Pool -> Pool -> Prop :=
| ps_blocked e q ws log st m :
    ~ slot_free concurrency ws ->
    pool_step (mkPool (mkDrain (e :: q) AtCheck false ws log st) m) (mkPool (mkDrain (e :: q) Blocked false ws log st) (record_blocked m))
| ps_call e q l c ws1 ws2 log st o x m :
    call e (s_canton st) = (o, x) ->
    pool_step (mkPool (mkDrain q l c (ws1 ++ Launched e :: ws2) log st) m)
      (mkPool (mkDrain q l c (ws1 ++ Called e o :: ws2) (log ++ [(e, o)]) (mkSubmitterState (s_db st) x))
        (match o with Unsupported _ => m | Answered r => record_transfer r m end))
| ps_write e o q l c ws1 ws2 log st r st' m m' :
    wired_record_outcome e o (st, m) = (r, (st', m')) ->
    pool_step (mkPool (mkDrain q l c (ws1 ++ Called e o :: ws2) log st) m) (mkPool (mkDrain q l c (ws1 ++ ws2) log st') m')
(** A launch, the end of the loop and the cancellation record nothing. *)
| ps_silent q l c ws log st q' l' c' ws' m :
    drain_step concurrency (mkDrain q l c ws log st) (mkDrain q' l' c' ws' log st) -> l' <> Blocked \/ l = l' ->
    (ws' = ws \/ exists e, q = e :: q' /\ ws' = ws ++ [Launched e]) ->
    pool_step (mkPool (mkDrain q l c ws log st) m) (mkPool (mkDrain q' l' c' ws' log st) m).

(** drain with its metrics; [now] is the time it is done.  A context that is
    canceled leaves the rest of the queue, and no success is recorded when the
    loop returned while it was blocked. *)
Inductive wired_drain (batchSize now : Z) (st : St) (m : SubMetrics) : result Drain -> St -> SubMetrics -> Prop :=
| wd_failed err st' :
    wrapping "list pending mempool entries: " (on_db (GetMempoolEntriesByStatus MempoolPending batchSize)) st
      = (Err err, st') ->
    wired_drain batchSize now st m (Err err) st' (record_drain true None m)
| wd_done entries st1 p :
    wrapping "list pending mempool entries: " (on_db (GetMempoolEntriesByStatus MempoolPending batchSize)) st
      = (Ok entries, st1) ->
    rtc pool_step (mkPool (drain_start entries st1) (record_fetched (Z.of_nat (length entries)) m)) p ->
    finished (p_drain p) ->
    wired_drain batchSize now st m (Ok (p_drain p)) (d_state (p_drain p))
      (record_drain false (match d_loop (p_drain p) with Returned => None | _ => Some now end) (p_metrics p)).

(** ** Forgetting the metrics *)

Lemma pool_step_drain P P' : pool_step P P' -> rtc (drain_step concurrency) (p_drain P) (p_drain P').
Proof.
  intros [e q ws log st m Hfull|e q l c ws1 ws2 log st o x m Hcall|e o q l c ws1 ws2 log st r st' m m' Hrec|]; cbn; [| | |by apply rtc_once].
  - by apply rtc_once, ds_block.
  - by apply rtc_once, ds_call.
  - apply rtc_once. destruct (wired_record_outcome_erases e o (st, m)) as [Hr Hst]. rewrite Hrec in Hr, Hst. cbn in Hr, Hst.
    eapply ds_write. rewrite (surjective_pairing (record_outcome e o st)), <- Hr, <- Hst. done.
Qed.

(** With its metrics a drain is a drain of EvmSubmitter. *)
Theorem wired_drain_is_drain batchSize now st m r st' m' :
  wired_drain batchSize now st m r st' m' -> drain concurrency batchSize st r st'.
Proof.
  intros [err st1 Hfetch|entries st1 p Hfetch Hrun Hend]; [by apply drain_failed|].
  eapply drain_done; [done| |done]. clear Hfetch Hend. remember (mkPool _ _) as P eqn:HP.
  assert (drain_start entries st1 = p_drain P) as -> by by subst. clear HP.
  induction Hrun as [|P P1 P2 Hs _ IH]; [done|]. etrans; [by apply pool_step_drain|done].
Qed.

(** ** What the metrics say *)

Definition tally (f : outcome -> option string) (l : string) (log : list (MempoolEntry * outcome)) : Z :=
  Z.of_nat (length (filter (fun c => f c.2 = Some l) log)).

Lemma tally_snoc f l log e o : tally f l (log ++ [(e, o)]) = tally f l log + (if decide (f o = Some l) then 1 else 0).
Proof. unfold tally. rewrite filter_app, length_app, filter_cons, filter_nil. cbn [snd]. destruct (decide _); cbn; lia. Qed.

Lemma counter_Inc_at l l' m : counter l (Inc l' m) = counter l m + (if decide (Some l' = Some l) then 1 else 0).
Proof.
  destruct (decide _) as [[= ->]|Hne]; [apply counter_Inc|]. rewrite counter_Inc_ne by congruence. lia.
Qed.

(** The category under which an answer is counted, and its duration. *)
Definition error_label (o : outcome) : option string :=
  match o with Answered (Err e) => Some (categorizeTransferError e) | _ => None end.
Definition duration_label (o : outcome) : option string :=
  match o with
  | Unsupported _ => None
  | Answered (Ok _) => Some "ok"%string
  | Answered (Err e) => Some (if isPermanentError e then "permanent" else "transient")%string
  end.

(** Goroutines whose write is still to come. *)
Definition in_flight (l : string) (ws : list worker) : Z :=
  Z.of_nat (sum_list_with (fun w => match w with Launched _ => 0 | Called _ o => if decide (outcome_label o = l) then 1 else 0 end)%nat ws).

Record counted (m0 : SubMetrics) (P : Pool) : Prop := {
  ct_processed l : counter l (EntriesProcessedTotal (p_metrics P)) + in_flight l (d_running (p_drain P)) =
    counter l (EntriesProcessedTotal m0) + tally (fun o => Some (outcome_label o)) l (d_calls (p_drain P));
  ct_errors l : counter l (CantonTransferErrorsTotal (p_metrics P)) =
    counter l (CantonTransferErrorsTotal m0) + tally error_label l (d_calls (p_drain P));
  ct_durations l : counter l (CantonTransferDuration (p_metrics P)) =
    counter l (CantonTransferDuration m0) + tally duration_label l (d_calls (p_drain P));
}.

(** The write of an outcome counts the outcome and leaves the other metrics of the drain. *)
Lemma wired_record_outcome_counts e o st m r st' m' : wired_record_outcome e o (st, m) = (r, (st', m')) ->
  EntriesProcessedTotal m' = Inc (outcome_label o) (EntriesProcessedTotal m) /\
  CantonTransferErrorsTotal m' = CantonTransferErrorsTotal m /\ CantonTransferDuration m' = CantonTransferDuration m /\
  PendingBacklog m' = PendingBacklog m.
Proof.
  unfold wired_record_outcome, wired_failEntry, wired_completeEntry. intros Hrun.
  destruct o as [err|[[]|err]]; cbn in Hrun; [| |destruct (isPermanentError err) eqn:Hp]; cbn in Hrun;
    try (destruct (on_db _ st) as [r0 st0]; cbn in Hrun; destruct (is_ok r0)); simplify_eq; cbn; rewrite ?Hp; done.
Qed.

Lemma pool_step_counted m0 P P' : pool_step P P' -> counted m0 P -> counted m0 P'.
Proof.
  intros Hs [Hp He Hd].
  destruct Hs as [e q ws log st m Hfull|e q lp c ws1 ws2 log st o x m Hcall|e o q lp c ws1 ws2 log st r st' m m' Hrec
                 |q lp c ws log st q' lp' c' ws' m _ _ Hws];
    cbn in *.
  - split; cbn; auto.
  - split; cbn; intros l; specialize (Hp l); specialize (He l); specialize (Hd l); rewrite tally_snoc.
    + revert Hp. unfold in_flight. rewrite !sum_list_with_app. cbn. destruct (decide (outcome_label o = l)) as [->|Hne].
      * rewrite decide_True by done. destruct o as [|r]; cbn; lia.
      * rewrite decide_False by congruence. destruct o as [|r]; cbn; lia.
    + destruct o as [|[[]|err]]; unfold record_transfer; cbn [CantonTransferErrorsTotal error_label];
        rewrite ?counter_Inc_at; try (rewrite decide_False by done); lia.
    + destruct o as [|[[]|err]]; unfold record_transfer; cbn [CantonTransferDuration duration_label];
        rewrite ?counter_Inc_at; try (rewrite decide_False by done); lia.
  - apply wired_record_outcome_counts in Hrec as (Hp' & He' & Hd' & _). split; cbn; intros l; rewrite ?Hp', ?He', ?Hd'; auto.
    specialize (Hp l). revert Hp. rewrite counter_Inc_at. unfold in_flight. rewrite !sum_list_with_app. cbn.
    destruct (decide (outcome_label o = l)) as [->|Hne]; [rewrite decide_True by done|rewrite decide_False by congruence]; lia.
  - split; cbn; auto. intros l. rewrite <- Hp. destruct Hws as [->|(e & _ & ->)]; [done|].
    unfold in_flight. rewrite sum_list_with_app. cbn. lia.
Qed.

(** The counters are those of the answers.  Whatever the interleaving of the
    goroutines and whichever writes fail, at the end of a drain each outcome
    was counted once for every call that ended with it, each error under its
    category and each duration under its result. *)
Theorem drain_counts batchSize now st m p st' m' l :
  wired_drain batchSize now st m (Ok p) st' m' ->
  counter l (EntriesProcessedTotal m') = counter l (EntriesProcessedTotal m) + tally (fun o => Some (outcome_label o)) l (d_calls p) /\
  counter l (CantonTransferErrorsTotal m') = counter l (CantonTransferErrorsTotal m) + tally error_label l (d_calls p) /\
  counter l (CantonTransferDuration m') = counter l (CantonTransferDuration m) + tally duration_label l (d_calls p).
Proof.
  intros Hd. inversion Hd as [|entries st1 P Hfetch Hrun Hend]; subst.
  assert (counted m P) as [Hp He Hdur].
  { refine (rtc_ind_r (fun P => counted m P) _ _ _ P Hrun); [|intros P1 P2 _ Hs; by apply pool_step_counted].
    split; intros k; cbn; unfold in_flight, tally; cbn; lia. }
  cbn. specialize (Hp l). rewrite (proj1 Hend) in Hp. unfold in_flight in Hp. cbn in Hp. split_and!; [lia|apply He|apply Hdur].
Qed.
(** The steps of a drain leave the backlog gauge. *)
Lemma pool_step_backlog P P' : pool_step P P' -> PendingBacklog (p_metrics P') = PendingBacklog (p_metrics P).
Proof.
  intros [|e q l c ws1 ws2 log st [|r] x m Hcall|e o q l c ws1 ws2 log st r st' m m' Hrec|]; try done.
  by apply wired_record_outcome_counts in Hrec as (_ & _ & _ & Hb).
Qed.

(** The backlog gauge is the size of the batch: with a limit on the batch it
    never shows more than the limit, however many entries are pending. *)
Theorem backlog_is_capped batchSize now st m p st' m' :
  0 < batchSize -> wired_drain batchSize now st m (Ok p) st' m' ->
  exists n, PendingBacklog m' = Some n /\ n <= batchSize.
Proof.
  intros Hb Hd. inversion Hd as [|entries st1 P Hfetch Hrun Hend]; subst. exists (Z.of_nat (length entries)). split.
  - cbn. refine (rtc_ind_r (fun P => PendingBacklog (p_metrics P) = Some (Z.of_nat (length entries))) _ _ _ P Hrun); [done|].
    intros P1 P2 _ Hs IH. by rewrite (pool_step_backlog _ _ Hs).
  - enough (wp (wrapping "list pending mempool entries: " (on_db (GetMempoolEntriesByStatus MempoolPending batchSize)))
      (fun r _ => match r with Ok es => Z.of_nat (length es) <= batchSize | Err _ => True end) st) as Hwp
      by exact (wp_run _ _ _ _ _ Hwp Hfetch).
    unfold on_db, GetMempoolEntriesByStatus. wp_go; [|done].
    rewrite length_fmap. unfold sql_limit. destruct (Z.ltb_spec 0 batchSize); [|lia]. rewrite length_take. lia.
Qed.
End submitter.
