(* ===== verification/EvmService.v ===== *)
(** * EVM JSON-RPC service: pkg/ethrpc/service/service.go, pkg/ethrpc/types.go

    Every handler of the Ethereum facade.  Parameters: go-ethereum's
    transaction and ABI codecs, the token service, the whitelist checker, and
    the elapsed time. *)

From S2P Require Import Prelude AppErrors Effects GoStd EthClient EvmStore EvmMiner EvmLifecycle EvmSubmitter.

(** ** go-ethereum *)

(** What a decoded types.Transaction answers. *)
Record Transaction := mkTransaction {
  raw_To : option Address;
  raw_Value : Z;
  raw_Data : list Z;
  raw_Nonce : Z;
  raw_Hash : Hash;
}.

(** A value of an unpacked argument map or to be packed. *)
Inductive AbiValue := AbiAddress (a : Address) | AbiBigInt (n : Z) | AbiUint8 (n : Z) | AbiString (s : string).

(** types.Log *)
Record RPCLog := mkRPCLog {
  rl_Address : Address;
  rl_Topics : list Hash;
  rl_Data : list Z;
  rl_BlockNumber : Z;
  rl_TxHash : Hash;
  rl_TxIndex : Z;
  rl_BlockHash : Hash;
  rl_BlockTimestamp : Z;
  rl_Index : Z;
  rl_Removed : bool;
}.

(** core/types and accounts/abi, with the parsed ERC20ABI. *)
Class EthTypes := {
  UnmarshalBinary : list Z -> result Transaction;
  Sender : Z -> Transaction -> result Address;
  MethodById : list Z -> result string;
  UnpackIntoMap : string -> list Z -> result (gmap string AbiValue);
  NewType : string -> result unit;
  Pack : string -> AbiValue -> result (list Z);
  CreateBloom : list RPCLog -> list Z;
  (** hexutil.Uint64.UnmarshalText *)
  UnmarshalText : string -> result Z;
}.

(** The views of token.ERC20 and token.Native, on the state of the outside world. *)
Class TokenViews (X : Type) := {
  Name : Address -> X -> string;
  Symbol : Address -> X -> string;
  Decimals : Address -> X -> Z;
  TotalSupply : Address -> X -> Z;
  BalanceOf : Address -> Address -> X -> Z;
  Allowance : Address -> Address -> Address -> X -> Z;
  Native_GetBalance : Address -> X -> result Z;
}.

(** ** Wire types (types.go) *)

Record RPCBlock := mkRPCBlock {
  rb_Number : Z;
  rb_Hash : Hash;
  rb_ParentHash : Hash;
  rb_Nonce : list Z;
  rb_Sha3Uncles : Hash;
  rb_LogsBloom : list Z;
  rb_TransactionsRoot : Hash;
  rb_StateRoot : Hash;
  rb_ReceiptsRoot : Hash;
  rb_Miner : Address;
  rb_Difficulty : Z;
  rb_TotalDifficulty : Z;
  rb_ExtraData : list Z;
  rb_Size : Z;
  rb_GasLimit : Z;
  rb_GasUsed : Z;
  rb_Timestamp : Z;
  rb_Transactions : list Hash;
  rb_Uncles : list Hash;
  rb_BaseFeePerGas : Z;
}.

Record RPCReceipt := mkRPCReceipt {
  rr_TransactionHash : Hash;
  rr_TransactionIndex : Z;
  rr_BlockHash : Hash;
  rr_BlockNumber : Z;
  rr_From : Address;
  rr_To : option Address;
  rr_CumulativeGasUsed : Z;
  rr_GasUsed : Z;
  rr_ContractAddress : option Address;
  rr_Logs : list RPCLog;
  rr_LogsBloom : list Z;
  rr_Status : Z;
  rr_EffectiveGasPrice : Z;
  rr_Type : Z;
  rr_RevertReason : string;
}.

Record RPCTransaction := mkRPCTransaction {
  rt_Hash : Hash;
  rt_Nonce : Z;
  rt_BlockHash : option Hash;
  rt_BlockNumber : option Z;
  rt_TransactionIndex : option Z;
  rt_From : Address;
  rt_To : option Address;
  rt_Value : Z;
  rt_GasPrice : Z;
  rt_Gas : Z;
  rt_Input : list Z;
  rt_V : option Z;
  rt_R : option Z;
  rt_S : option Z;
  rt_Type : Z;
  rt_ChainID : Z;
}.

(** The address or a topic of a filter: a string, a typed value, or another
    JSON value such as an array. *)
Inductive FilterValue := FilterString (s : string) | FilterBytes (b : list Z) | FilterOther.

Record FilterQuery := mkFilterQuery {
  fq_BlockHash : option Hash;
  fq_FromBlock : option Z;
  fq_ToBlock : option Z;
  fq_Address : option FilterValue;
  fq_Topics : list (option FilterValue);
}.

(** A block parameter; [BlockHash] is decoded but no handler reads it. *)
Record BlockNumberOrHash := mkBlockNumberOrHash { bn_BlockNumber : option Z; bn_BlockHash : option Hash }.

(** The fields of the call arguments that the handlers read. *)
Record CallArgs := mkCallArgs { ca_To : option Address; ca_Data : option (list Z); ca_Input : option (list Z) }.

(** CallArgs.GetData: input is preferred over data. *)
Definition GetData (args : CallArgs) : list Z :=
  match ca_Input args with
  | Some i => i
  | None => default [] (ca_Data args)
  end.

(** ** The service *)

Definition functionSelectorSize : nat := 4.
Definition confirmationBufferBlocks : Z := 12.
Definition syntheticBlockTimeSeconds : Z := 12.
Definition DefaultGasLimit : Z := 21000.

(** apperr.DependencyError around an error of a call. *)
Definition dependency {W A} (msg : string) (c : M W A) : M W A := fun w =>
  match c w with
  | (Err err, w') => (Err (DependencyError (Some err) msg), w')
  | ok => ok
  end.

(** A pure step that may fail, its error wrapped by [f]. *)
Definition check {W A} (f : error -> error) (r : result A) : M W A :=
  match r with Ok a => mret a | Err err => fail (f err) end.

Section Service.
Context {X : Type} `{!GoEthereum} `{!EthTypes} `{!TokenService X} `{!TokenViews X}.
(** cfg.ChainID, whether a token service was passed, and the whitelist checker. *)
Variables (chainID : Z) (hasTokenService : bool) (IsWhitelisted : string -> result bool).

Definition ChainID : Z := chainID.
Definition GasPrice : Z := 0.
Definition MaxPriorityFeePerGas : Z := 0.
Definition EstimateGas : Z := DefaultGasLimit.
Definition Syncing : bool := false.

(** [elapsed] is uint64(time.Since(startTime).Seconds()). *)
Definition BlockNumber (elapsed : Z) : M EvmDB Z :=
  n ← dependency "get latest EVM block number" GetLatestEvmBlockNumber;
  let baseBlock := uint64 (n + confirmationBufferBlocks) in
  mret (Z.max baseBlock elapsed).

Definition GetBalance (address : Address) (x : X) : result Z :=
  match Native_GetBalance address x with
  | Ok bal => Ok bal
  | Err err => Err (DependencyError (Some err) "get balance")
  end.

Definition GetTransactionCount (address : Address) : M EvmDB Z :=
  dependency ("get transaction count for " +:+ Address_Hex address)
    (GetEvmTransactionCount (Address_Hex address)).

Definition GetCode (address : Address) : list Z :=
  if negb hasTokenService then []
  else match ERC20 address with Ok _ => [0x60; 0x80] | Err _ => [] end.

(** ** eth_sendRawTransaction *)

Definition checkWhitelist (from : Address) : result unit :=
  let addr := ToLower (Address_Hex from) in
  match IsWhitelisted addr with
  | Err err => Err (DependencyError (Some err) "whitelist check")
  | Ok whitelisted =>
      if whitelisted then Ok tt else Err (ForbiddenError None ("sender not whitelisted: " +:+ addr))
  end.

Definition decodeTransferCall (input : list Z) : result (Address * Z) :=
  if (length input <? functionSelectorSize)%nat then Err (ErrNew "missing function selector")
  else match MethodById (take functionSelectorSize input) with
  | Err err => Err (ErrWrap "decode method selector: " err "")
  | Ok name =>
      if negb (bool_decide (name = "transfer"%string)) then Err (ErrNew ("unsupported method: " +:+ name))
      else match UnpackIntoMap name (drop functionSelectorSize input) with
      | Err err => Err (ErrWrap "failed to decode transfer args: " err "")
      | Ok args =>
          match args !! "to"%string with
          | Some (AbiAddress toAddr) =>
              match args !! "value"%string with
              | Some (AbiBigInt amount) => Ok (toAddr, amount)
              | _ => Err (ErrNew "invalid 'value' in transfer")
              end
          | _ => Err (ErrNew "invalid 'to' address in transfer")
          end
      end
  end.

(** The entry of an accepted transaction. *)
Definition entry_for (tx : Transaction) (from contract toAddr : Address) (amount : Z) : MempoolEntry :=
  mkMempoolEntry 0 (raw_Hash tx) (Address_Hex from) (Address_Hex contract) (Address_Hex toAddr)
    (raw_Nonce tx) (raw_Data tx) (big_Bytes amount) MempoolPending "".

Definition SendRawTransaction (data : list Z) : M EvmDB Hash :=
  tx ← check (fun err => BadRequestError (Some err) "invalid transaction encoding") (UnmarshalBinary data);
  from ← check (fun err => BadRequestError (Some err) "invalid transaction signature") (Sender chainID tx);
  _ ← check id (checkWhitelist from);
  match raw_To tx with
  | None => fail (BadRequestError None "contract deploy transactions not supported")
  | Some contractAddress =>
      if negb (raw_Value tx =? 0) then fail (NotSupportedError None "native ETH transfers not supported")
      else
        '(toAddr, amount) ← check (fun err => BadRequestError (Some err) "invalid transaction data")
                              (decodeTransferCall (raw_Data tx));
        _ ← check (fun err => BadRequestError (Some err) ("contract not supported: " +:+ Address_Hex contractAddress))
              (ERC20 contractAddress);
        _ ← dependency "insert mempool entry"
              (InsertMempoolEntry (entry_for tx from contractAddress toAddr amount));
        mret (raw_Hash tx)
  end.

(** ** Receipts, transactions, logs *)

(** The types.Log of a stored log, for a transaction hash. *)
Definition toLog (txHash : Hash) (l : EvmLog) : RPCLog :=
  mkRPCLog (BytesToAddress (log_Address l)) (BytesToHash <$> log_Topics l) (log_Data l) (log_BlockNumber l)
    txHash (log_TxIndex l) (BytesToHash (log_BlockHash l)) (log_BlockTimestamp l) (log_LogIndex l) (log_Removed l).

Definition GetTransactionReceipt (hash : Hash) : M EvmDB (option RPCReceipt) :=
  row ← dependency ("get transaction receipt for " +:+ Hash_Hex hash) (GetEvmTransaction hash);
  match row with
  | None => mret None
  | Some row =>
      let from := HexToAddress (tx_FromAddress row) in
      let to := HexToAddress (tx_ToAddress row) in
      dbLogs ← dependency ("get logs for transaction receipt " +:+ Hash_Hex hash) (GetEvmLogsByTxHash hash);
      let logs := toLog hash <$> dbLogs in
      mret (Some (mkRPCReceipt hash (tx_TxIndex row) (BytesToHash (tx_BlockHash row)) (tx_BlockNumber row)
        from (Some to) (tx_GasUsed row) (tx_GasUsed row) None logs (CreateBloom logs) (tx_Status row) 0 2
        (tx_ErrorMessage row)))
  end.

Definition GetTransactionByHash (hash : Hash) : M EvmDB (option RPCTransaction) :=
  row ← dependency ("get transaction by hash " +:+ Hash_Hex hash) (GetEvmTransaction hash);
  match row with
  | None => mret None
  | Some row =>
      mret (Some (mkRPCTransaction hash (tx_Nonce row) (Some (BytesToHash (tx_BlockHash row)))
        (Some (tx_BlockNumber row)) (Some (tx_TxIndex row)) (HexToAddress (tx_FromAddress row))
        (Some (HexToAddress (tx_ToAddress row))) 0 0 DefaultGasLimit (tx_Input row) None None None 2 chainID))
  end.

(** The filters a query turns into. *)
Definition addressFilter (q : FilterQuery) : option (list Z) :=
  match fq_Address q with
  | Some (FilterString s) => Some (HexToAddress s)
  | Some (FilterBytes b) => Some b
  | _ => None
  end.
Definition topic0Filter (q : FilterQuery) : option (list Z) :=
  match fq_Topics q with
  | Some (FilterString s) :: _ => Some (HexToHash s)
  | Some (FilterBytes b) :: _ => Some b
  | _ => None
  end.

Definition GetLogs (q : FilterQuery) : M EvmDB (list RPCLog) :=
  let fromBlock := default 0 (fq_FromBlock q) in
  toBlock ← match fq_ToBlock q with
            | Some n => mret n
            | None => dependency "get latest EVM block number for logs" GetLatestEvmBlockNumber
            end;
  dbLogs ← dependency "get EVM logs" (GetEvmLogs (addressFilter q) (topic0Filter q) fromBlock toBlock);
  mret ((fun l => toLog (BytesToHash (log_TxHash l)) l) <$> dbLogs).

(** ** Blocks *)

(** BlockNumberOrHash.UnmarshalJSON of a JSON string. *)
Definition UnmarshalJSON_string (str : string) : BlockNumberOrHash :=
  if bool_decide (str = "latest"%string) || bool_decide (str = "earliest"%string) || bool_decide (str = "pending"%string)
  then mkBlockNumberOrHash None None
  else if (String.length str =? 66)%nat && String.prefix "0x" str
  then mkBlockNumberOrHash None (Some (HexToHash str))
  else match UnmarshalText str with
       | Ok num => mkBlockNumberOrHash (Some num) None
       | Err _ => mkBlockNumberOrHash None None
       end.

Definition zero_hash : Hash := replicate 32 0.

Definition GetBlockByNumber (elapsed : Z) (block : BlockNumberOrHash) : M EvmDB (option RPCBlock) :=
  blockNum ← match bn_BlockNumber block with Some n => mret n | None => BlockNumber elapsed end;
  if blockNum =? 0 then mret None
  else
    let blockHash := BytesToHash (ComputeBlockHash chainID blockNum) in
    let parentHash := if 1 <? blockNum then BytesToHash (ComputeBlockHash chainID (blockNum - 1)) else zero_hash in
    mret (Some (mkRPCBlock blockNum blockHash parentHash (replicate 8 0) zero_hash (replicate 256 0)
      zero_hash zero_hash zero_hash (replicate 20 0) 0 0 [] 0 DefaultGasLimit 0
      (uint64 (blockNum * syntheticBlockTimeSeconds)) [] [] 0)).

Definition GetBlockByHash (elapsed : Z) (hash : Hash) : M EvmDB (option RPCBlock) :=
  blockNum ← dependency ("get block number by hash " +:+ Hash_Hex hash) (GetBlockNumberByHash hash);
  if 0 <? blockNum then GetBlockByNumber elapsed (mkBlockNumberOrHash (Some blockNum) None)
  else GetBlockByNumber elapsed (mkBlockNumberOrHash None None).

(** ** eth_call *)

Definition encode (what : string) (v : AbiValue) : result (list Z) :=
  match NewType what with
  | Err err => Err (ErrWrap ("create " +:+ what +:+ " ABI type: ") err "")
  | Ok _ => Pack what v
  end.
Definition encodeUint256 (v : Z) : result (list Z) := encode "uint256" (AbiBigInt v).
Definition encodeUint8 (v : Z) : result (list Z) := encode "uint8" (AbiUint8 v).
Definition encodeString (v : string) : result (list Z) := encode "string" (AbiString v).

Definition callBalanceOf (data : list Z) (erc20 : Address) (x : X) : result (list Z) :=
  match UnpackIntoMap "balanceOf" data with
  | Err err => Err (ErrWrap "decode balanceOf args: " err "")
  | Ok args =>
      match args !! "account"%string with
      | Some (AbiAddress addr) => encodeUint256 (BalanceOf erc20 addr x)
      | _ => Err (ErrNew "invalid account address")
      end
  end.

Definition callAllowance (data : list Z) (erc20 : Address) (x : X) : result (list Z) :=
  match UnpackIntoMap "allowance" data with
  | Err err => Err (ErrWrap "decode allowance args: " err "")
  | Ok args =>
      match args !! "owner"%string, args !! "spender"%string with
      | Some (AbiAddress owner), Some (AbiAddress spender) => encodeUint256 (Allowance erc20 owner spender x)
      | Some (AbiAddress _), _ => Err (ErrNew "invalid spender address")
      | _, _ => Err (ErrNew "invalid owner address")
      end
  end.

Definition Call (args : option CallArgs) (x : X) : result (list Z) :=
  match args with
  | Some ((mkCallArgs (Some to) _ _) as args) =>
      match ERC20 to with
      | Err err => Err (BadRequestError (Some err) ("contract not supported: " +:+ Address_Hex to))
      | Ok _ =>
          let input := GetData args in
          if (length input <? functionSelectorSize)%nat then Err (BadRequestError None "missing function selector")
          else match MethodById (take functionSelectorSize input) with
          | Err _ => Err (BadRequestError None "unknown method")
          | Ok name =>
              let data := drop functionSelectorSize input in
              if bool_decide (name = "balanceOf"%string) then callBalanceOf data to x
              else if bool_decide (name = "decimals"%string) then encodeUint8 (Decimals to x)
              else if bool_decide (name = "symbol"%string) then encodeString (Symbol to x)
              else if bool_decide (name = "name"%string) then encodeString (Name to x)
              else if bool_decide (name = "totalSupply"%string) then encodeUint256 (TotalSupply to x)
              else if bool_decide (name = "allowance"%string) then callAllowance data to x
              else Err (NotSupportedError None ("unsupported method: " +:+ name))
          end
      end
  | _ => Err (BadRequestError None "unsupported 'contract' address")
  end.
End Service.
