(* ===== verification/EvmServiceProofs.v ===== *)
(** * Correctness of the EVM JSON-RPC service

    What eth_sendRawTransaction accepts and records, that the transfer the
    submitter makes is the one that was signed, and what the read handlers
    answer about mined entries. *)

From S2P Require Import Prelude AppErrors Effects GoStd EthClient EvmStore EvmMiner EvmLifecycle EvmSubmitter EvmService.

(** A byte string of a fixed length. *)
Definition is_bytes (n : nat) (b : list Z) : Prop := length b = n /\ Forall (fun x => 0 <= x < 256) b.

(** Documented behaviour of go-ethereum: Hex and HexToAddress are inverse on
    addresses, BytesToHash keeps a 32-byte hash, hashes have 32 bytes. *)
Class GoEthereumLaws `{!GoEthereum} : Prop := {
  HexToAddress_Hex a : is_bytes 20 a -> HexToAddress (Address_Hex a) = a;
  BytesToHash_id h : is_bytes 32 h -> BytesToHash h = h;
  length_BytesToHash b : length (BytesToHash b) = 32%nat;
  length_Keccak256 b : length (Keccak256 b) = 32%nat;
}.

(** Addresses of transactions and of unpacked arguments have 20 bytes, a hash
    has 32, and an unpacked integer is unsigned. *)
Class EthTypesLaws `{!EthTypes} : Prop := {
  UnmarshalBinary_To data tx a : UnmarshalBinary data = Ok tx -> raw_To tx = Some a -> is_bytes 20 a;
  UnmarshalBinary_Hash data tx : UnmarshalBinary data = Ok tx -> is_bytes 32 (raw_Hash tx);
  Sender_bytes c tx a : Sender c tx = Ok a -> is_bytes 20 a;
  Unpack_Address m b args k a : UnpackIntoMap m b = Ok args -> args !! k = Some (AbiAddress a) -> is_bytes 20 a;
  Unpack_BigInt m b args k n : UnpackIntoMap m b = Ok args -> args !! k = Some (AbiBigInt n) -> 0 <= n;
}.

Lemma wp_dependency {W A} msg (c : M W A) Q w :
  wp c (fun r w' => Q (match r with Ok a => Ok a | Err err => Err (DependencyError (Some err) msg) end) w') w ->
  wp (dependency msg c) Q w.
Proof. unfold wp, dependency. by destruct (c w) as [[]]. Qed.

Lemma wp_check {W A} f (r : result A) Q (w : W) :
  (forall a, r = Ok a -> Q (Ok a) w) -> (forall err, r = Err err -> Q (Err (f err)) w) -> wp (check f r) Q w.
Proof. unfold wp, check. destruct r; cbn; eauto. Qed.

Section Send.
Context {X : Type} `{!GoEthereum} `{!EthTypes} `{!TokenService X} `{!TokenViews X}.
Variables (chainID : Z) (IsWhitelisted : string -> result bool).

(** A raw transaction the service supports: a signed, zero-value call of
    transfer on a supported contract, by a whitelisted sender. *)
Record valid_transfer (data : list Z) (tx : Transaction) (from contract to : Address) (amount : Z) : Prop := {
  vt_decoded : UnmarshalBinary data = Ok tx;
  vt_sender : Sender chainID tx = Ok from;
  vt_whitelisted : IsWhitelisted (ToLower (Address_Hex from)) = Ok true;
  vt_contract : raw_To tx = Some contract;
  vt_value : raw_Value tx = 0;
  vt_call : decodeTransferCall (raw_Data tx) = Ok (to, amount);
  vt_supported : ERC20 contract = Ok tt;
}.

(** The tables after the entry was inserted. *)
Definition with_entry (e : MempoolEntry) (tb : EvmTables) : EvmTables :=
  mkEvmTables
    (match mempool tb !! me_TxHash e with
     | Some _ => mempool tb
     | None => <[me_TxHash e := mkMempoolEntryDao (next_id tb) (me_TxHash e) (me_FromAddress e) (me_ContractAddress e)
                  (me_RecipientAddress e) (me_Nonce e) (me_Input e) (me_AmountData e) MempoolPending None]> (mempool tb)
     end) (next_id tb + 1) (evm_transactions tb) (evm_logs tb) (latest_block tb).

Lemma SendRawTransaction_outcome data d :
  wp (SendRawTransaction chainID IsWhitelisted data) (fun r d' =>
    match r with
    | Ok h => exists tx from contract to amount, valid_transfer data tx from contract to amount /\ h = raw_Hash tx /\
        tables d' = with_entry (entry_for tx from contract to amount) (tables d)
    | Err e => tables d' = tables d /\
        (if IsInternalError e
         then faults d <> [] \/ exists tx from err, UnmarshalBinary data = Ok tx /\ Sender chainID tx = Ok from /\
                                  IsWhitelisted (ToLower (Address_Hex from)) = Err err
         else forall tx from contract to amount, ~ valid_transfer data tx from contract to amount)
    end) d.
Proof.
  unfold SendRawTransaction. apply wp_bind, wp_check.
  2:{ intros err Herr. split; [done|]. intros tx from contract to amount []. congruence. }
  intros tx Htx. apply wp_bind, wp_check.
  2:{ intros err Herr. split; [done|]. intros tx' from contract to amount []. congruence. }
  intros from Hfrom. apply wp_bind, wp_check.
  2:{ intros err Herr. split; [done|]. unfold checkWhitelist in Herr.
      destruct (IsWhitelisted _) as [[]|werr] eqn:Hw; simplify_eq; cbn; [|by eauto 10].
      intros tx' from' contract to amount []. congruence. }
  intros [] Hwl. unfold checkWhitelist in Hwl. destruct (IsWhitelisted _) as [[]|] eqn:Hw; try done. clear Hwl.
  destruct (raw_To tx) as [contract|] eqn:Hto.
  2:{ apply wp_fail. split; [done|]. intros tx' from' contract to amount []. congruence. }
  destruct (Z.eqb_spec (raw_Value tx) 0) as [Hv|Hv]; cbn [negb].
  2:{ apply wp_fail. split; [done|]. intros tx' from' contract' to amount []. congruence. }
  apply wp_bind, wp_check.
  2:{ intros err Herr. split; [done|]. intros tx' from' contract' to amount []. congruence. }
  intros [to amount] Hcall. apply wp_bind, wp_check.
  2:{ intros err Herr. split; [done|]. intros tx' from' contract' to' amount' []. congruence. }
  intros [] Hsup. apply wp_bind, wp_dependency. unfold InsertMempoolEntry. apply wp_wrapping, wp_intro.
  intros r d' Hr. unfold exec in Hr. destruct (faults d) as [|[m|] fs] eqn:Hfs; cbn in Hr; simplify_eq; cbn [wrap];
    [apply wp_ret| |apply wp_ret].
  1, 3: exists tx, from, contract, to, amount; by split.
  split; [done|]. cbn. by left.
Qed.

(** Eth_sendRawTransaction accepts exactly the supported transfers.  It
    returns the hash of the transaction only for a signed zero-value transfer
    call on a supported contract by a whitelisted sender, and then the mempool
    holds that intent as one pending row, or the row a duplicate submission
    had already created, untouched; no other table changes.  When it returns
    an error nothing changes, and the error blames the client only when the
    transaction is not such a transfer. *)
Theorem SendRawTransaction_correct data d :
  wp (SendRawTransaction chainID IsWhitelisted data) (fun r d' =>
    match r with
    | Ok h => exists tx from contract to amount, valid_transfer data tx from contract to amount /\ h = raw_Hash tx /\
        tables d' = with_entry (entry_for tx from contract to amount) (tables d)
    | Err e => tables d' = tables d /\
        (if IsInternalError e
         then faults d <> [] \/ exists tx from err, UnmarshalBinary data = Ok tx /\ Sender chainID tx = Ok from /\
                                  IsWhitelisted (ToLower (Address_Hex from)) = Err err
         else forall tx from contract to amount, ~ valid_transfer data tx from contract to amount)
    end) d.
Proof. apply SendRawTransaction_outcome. Qed.

Lemma decodeTransferCall_args `{!EthTypesLaws} input to amount :
  decodeTransferCall input = Ok (to, amount) -> is_bytes 20 to /\ 0 <= amount.
Proof.
  unfold decodeTransferCall. destruct (_ <? _)%nat; [done|]. destruct (MethodById _) as [name|]; [|done].
  case_bool_decide; cbn; [|done]. destruct (UnpackIntoMap _ _) as [args|] eqn:Hu; [|done].
  destruct (args !! "to"%string) as [[a| | |]|] eqn:Ha; try done.
  destruct (args !! "value"%string) as [[|n| |]|] eqn:Hn; try done. intros [= <- <-].
  split; [by eapply Unpack_Address|by eapply Unpack_BigInt].
Qed.

(** C7: what is signed is what is sent.  When a new transaction was accepted,
    the Canton call the submitter makes for its row is TransferFrom on the
    contract of the transaction, from its signer, to the recipient and for the
    amount of its call data, with the transaction hash as the idempotency key. *)
Theorem signed_transfer_reaches_canton `{!GoEthereumLaws} `{!EthTypesLaws} data d :
  wp (SendRawTransaction chainID IsWhitelisted data) (fun r d' => forall h, r = Ok h ->
    mempool (tables d) !! h = None ->
    exists tx from contract to amount row, valid_transfer data tx from contract to amount /\ h = raw_Hash tx /\
      mempool (tables d') !! h = Some row /\ md_Status row = MempoolPending /\
      forall x, call (entry_of row MempoolPending) x =
        let '(ans, x') := TransferFrom contract (Hash_Hex h) from to amount x in (Answered ans, x')) d.
Proof.
  eapply wp_mono; [apply SendRawTransaction_outcome|]. intros r d' Hr h -> Hnew.
  destruct Hr as (tx & from & contract & to & amount & Hv & -> & Ht). pose proof Hv as [Hdec Hs _ Hto _ Hcall Hsup].
  rewrite Ht. unfold with_entry. cbn [me_TxHash entry_for mempool]. rewrite Hnew, lookup_insert_eq.
  exists tx, from, contract, to, amount. eexists. split_and!; [done..|]. intros x.
  destruct (decodeTransferCall_args _ _ _ Hcall) as [Hbt Ham].
  unfold call. cbn. rewrite !HexToAddress_Hex, Hsup, BytesToHash_id, SetBytes_big_Bytes;
    eauto using Sender_bytes, UnmarshalBinary_To, UnmarshalBinary_Hash.
Qed.
End Send.

(** ** Reading what was mined *)

Lemma elem_of_log_rows P R `{!forall a b, Decision (R a b)} tb l :
  l ∈ log_rows P R tb <-> P l = true /\ exists k, evm_logs tb !! k = Some l.
Proof.
  unfold log_rows. rewrite (merge_sort_Permutation R), list_elem_of_In, filter_In, <- list_elem_of_In, list_elem_of_fmap.
  split.
  - intros [((k & x) & -> & Hin) HP]. split; [done|]. exists k. by apply elem_of_map_to_list in Hin.
  - intros [HP [k Hk]]. split; [|done]. exists (k, l). split; [done|]. by apply elem_of_map_to_list.
Qed.

Lemma log_rows_NoDup P R `{!forall a b, Decision (R a b)} tb : evm_inv tb -> NoDup (log_rows P R tb).
Proof.
  intros Hinv. unfold log_rows. rewrite (merge_sort_Permutation R). apply NoDup_ListNoDup, List.NoDup_filter, NoDup_ListNoDup.
  apply NoDup_fmap_2_strong; [|apply NoDup_map_to_list].
  intros [k1 l1] [k2 l2] H1 H2. cbn. intros ->. apply elem_of_map_to_list in H1, H2. f_equal.
  by rewrite <- (log_key _ Hinv k1 l2 H1), <- (log_key _ Hinv k2 l2 H2).
Qed.

Lemma NoDup_only {A} (l : list A) a : NoDup l -> a ∈ l -> (forall x, x ∈ l -> x = a) -> l = [a].
Proof.
  intros Hnd Ha Hall. destruct l as [|x l]; [set_solver|]. rewrite (Hall x) by constructor. f_equal.
  apply NoDup_cons in Hnd as [Hni _]. destruct l as [|y l]; [done|]. destruct Hni.
  rewrite (Hall x) by constructor. rewrite <- (Hall y) by (right; left). left.
Qed.

(** The stored logs of a transaction that has one log, or none. *)
Lemma logs_of_tx tb h (o : option (Z * EvmLogDao)) :
  evm_inv tb ->
  (forall j, evm_logs tb !! (h, j) = match o with Some (li, l) => if decide (j = li) then Some l else None | None => None end) ->
  log_rows (fun d => bool_decide (ld_TxHash d = h)) log_index_before tb = match o with Some (_, l) => [l] | None => [] end.
Proof.
  intros Hinv Hj.
  assert (forall l, l ∈ log_rows (fun d => bool_decide (ld_TxHash d = h)) log_index_before tb ->
    exists j, evm_logs tb !! (h, j) = Some l) as Hin.
  { intros l (Hh & [h' j] & Hk)%elem_of_log_rows. apply bool_decide_eq_true in Hh.
    pose proof (log_key _ Hinv _ _ Hk) as Heq. cbn in Heq. injection Heq as <- <-. rewrite Hh in Hk. eauto. }
  destruct o as [[li l]|].
  - apply NoDup_only; [by apply log_rows_NoDup| |].
    + apply elem_of_log_rows. specialize (Hj li). rewrite decide_True in Hj by done.
      pose proof (log_key _ Hinv _ _ Hj) as Heq. cbn in Heq. split; [|by eauto].
      apply bool_decide_eq_true. congruence.
    + intros x (j & Hx)%Hin. rewrite Hj in Hx. case_decide; congruence.
  - destruct (log_rows _ _ _) as [|x rows]; [done|]. destruct (Hin x) as [j Hx]; [left|]. by rewrite Hj in Hx.
Qed.

Section Read.
Context `{!GoEthereum} `{!EthTypes}.

(** The receipt of an entry that was mined. *)
Definition receipt_of (cfg : MinerConfig) (row : MempoolEntryDao) (number : Z) (txIndex logIndex ts : Z) : RPCReceipt :=
  let hash := ComputeBlockHash (m_chainID cfg) number in
  let ok := bool_decide (md_Status row = MempoolCompleted) in
  let logs := if ok then [toLog (md_TxHash row)
                           (buildTransferLog (claimed_entry row) number hash txIndex logIndex ts)] else [] in
  mkRPCReceipt (md_TxHash row) txIndex (BytesToHash hash) number
    (HexToAddress (md_FromAddress row)) (Some (HexToAddress (md_ContractAddress row)))
    (m_gasLimit cfg) (m_gasLimit cfg) None logs (CreateBloom logs) (if ok then 1 else 0) 0 2
    (if ok then ""%string else default ""%string (md_ErrorMessage row)).

Lemma GetTransactionReceipt_nofault tb h :
  (GetTransactionReceipt h (mkDB tb [])).1 = Ok (
    match evm_transactions tb !! h with
    | None => None
    | Some t =>
        let row := fromEvmTransactionDao t in
        let logs := toLog h <$> (fromEvmLogDao <$> log_rows (fun d => bool_decide (ld_TxHash d = h)) log_index_before tb) in
        Some (mkRPCReceipt h (tx_TxIndex row) (BytesToHash (tx_BlockHash row)) (tx_BlockNumber row)
          (HexToAddress (tx_FromAddress row)) (Some (HexToAddress (tx_ToAddress row))) (tx_GasUsed row) (tx_GasUsed row)
          None logs (CreateBloom logs) (tx_Status row) 0 2 (tx_ErrorMessage row))
    end).
Proof.
  unfold GetTransactionReceipt, dependency, GetEvmTransaction, GetEvmLogsByTxHash, wrapping, mbind, M_bind.
  rewrite query_nofault. cbn [wrap fst]. destruct (evm_transactions tb !! h); cbn [fmap option_fmap option_map]; [|done].
  rewrite query_nofault. done.
Qed.

Lemma buildTransferLog_roundtrip `{!GoEthereumLaws} e number hash i li ts :
  fromEvmLogDao (toEvmLogDao (buildTransferLog e number hash i li ts)) = buildTransferLog e number hash i li ts.
Proof.
  assert (forall b, BytesToHash b <> []) as Hne.
  { intros b Hb. pose proof (length_BytesToHash b) as Hlen. by rewrite Hb in Hlen. }
  assert (transferEventTopic <> []) as Hk.
  { intros Hb. pose proof (length_Keccak256 transferEventSignature) as Hlen. unfold transferEventTopic in Hb.
    by rewrite Hb in Hlen. }
  unfold fromEvmLogDao, toEvmLogDao, buildTransferLog. cbn -[transferEventTopic]. unfold topicAt. cbn -[transferEventTopic].
  rewrite !topic_column_ptr by done. cbn -[transferEventTopic]. f_equal. by destruct (LeftPadBytes _ _).
Qed.

(** C22: the receipt tells what happened.  Once an entry was claimed by a
    successful mining cycle, eth_getTransactionReceipt of its hash returns a
    receipt at its position of the new block, with status 1 and exactly the
    Transfer log of its signed transfer when Canton accepted it, with status
    0, no log and the recorded error message as the revert reason when it
    failed; before that there is no receipt. *)
Theorem receipt_of_mined_entry `{!GoEthereumLaws} cfg now tb fs d' k row :
  evm_inv tb -> latest_block tb + 1 < two64 ->
  mine cfg now (mkDB tb fs) = (Ok tt, d') ->
  claim_rows (m_maxTxsPerBlock cfg) tb !! k = Some row ->
  (GetTransactionReceipt (md_TxHash row) (mkDB tb [])).1 = Ok None /\
  (GetTransactionReceipt (md_TxHash row) (mkDB (tables d') [])).1 =
    Ok (Some (receipt_of cfg row (latest_block tb + 1) (Z.of_nat k)
      (logs_before (claimed_entry <$> claim_rows (m_maxTxsPerBlock cfg) tb) k) (uint64 now))).
Proof.
  intros Hinv Hlt Hmine Hk. pose proof (latest_nonneg _ Hinv) as Hl.
  assert (uint64 (latest_block tb + 1) = latest_block tb + 1) as Hu by (apply uint64_id; int_lia).
  apply (wp_run _ _ _ _ _ (mine_outcome cfg now _)) in Hmine. cbn [tables] in Hmine.
  rewrite decide_False in Hmine by (intros Hnil; by rewrite Hnil in Hk).
  pose proof (mined_tables_inv cfg now tb Hinv Hlt) as Hinv'. rewrite Hmine.
  set (n := m_maxTxsPerBlock cfg) in *. set (es := claimed_entry <$> claim_rows n tb).
  assert (row ∈ claim_rows n tb) as Hrow by by eapply list_elem_of_lookup_2.
  destruct (claim_fresh n tb row Hinv Hrow) as (_ & Hnotx & _).
  assert (NoDup (me_TxHash <$> es)) as Hnd.
  { unfold es. rewrite claimed_hashes. by apply claim_hashes_NoDup. }
  assert (es !! k = Some (claimed_entry row)) as Hke by (unfold es; by rewrite list_lookup_fmap, Hk).
  split; [by rewrite GetTransactionReceipt_nofault, Hnotx|]. rewrite GetTransactionReceipt_nofault.
  set (number := latest_block tb + 1) in *. set (hash := ComputeBlockHash (m_chainID cfg) number).
  assert (evm_transactions (mined_tables cfg now tb) !! md_TxHash row =
    Some (toEvmTransactionDao (evmTx cfg (claimed_entry row) number hash (Z.of_nat k)))) as ->.
  { unfold mined_tables. cbn [evm_transactions]. fold number n es. rewrite Hu. fold hash.
    rewrite (block_txs_at cfg _ _ _ es _ k (claimed_entry row) Hnd); [done| |done].
    intros e He. by apply (claimed_fresh_entries n tb e Hinv). }
  set (li := logs_before es k). set (lg := buildTransferLog (claimed_entry row) number hash (Z.of_nat k) li (uint64 now)).
  rewrite (logs_of_tx _ _ (if succeeded (claimed_entry row) then Some (li, toEvmLogDao lg) else None) Hinv').
  2:{ intros j. unfold mined_tables. cbn [evm_logs]. fold number n es. rewrite Hu. fold hash.
      change (md_TxHash row) with (me_TxHash (claimed_entry row)).
      rewrite (block_logs_at number hash (uint64 now) 0 0 es _ k (claimed_entry row) j Hnd); [|intros e j' He; by apply (claimed_fresh_entries n tb e Hinv)|done].
      rewrite !Z.add_0_l. fold li lg. destruct (succeeded _); cbn [andb]; [|done].
      destruct (Z.eqb_spec j li); by case_decide. }
  unfold receipt_of. cbv zeta. fold hash. unfold lg. unfold succeeded. cbn [me_Status claimed_entry entry_of].
  do 2 f_equal. unfold evmTx, succeeded. cbn [me_Status claimed_entry entry_of].
  case_bool_decide; cbn [fmap list_fmap]; [by rewrite buildTransferLog_roundtrip|].
  unfold fromEvmTransactionDao, toEvmTransactionDao, stringPtrOrNil. cbn. f_equal. by case_bool_decide.
Qed.

(** A mined transaction always looks confirmed: the block number the
    service reports is at least 12 above the block of every transaction, and
    never below the seconds since its start. *)
Theorem BlockNumber_confirms elapsed d :
  evm_inv (tables d) -> latest_block (tables d) + 12 < two64 ->
  wp (BlockNumber elapsed) (fun r d' => tables d' = tables d /\ forall n, r = Ok n -> elapsed <= n /\
    forall h t, evm_transactions (tables d) !! h = Some t -> txd_BlockNumber t + confirmationBufferBlocks <= n) d.
Proof.
  intros Hinv Hlt. unfold BlockNumber, GetLatestEvmBlockNumber.
  apply wp_bind, wp_dependency, wp_wrapping, wp_query; intros; cbn [wrap]; [|done].
  apply wp_ret. cbn [tables]. split; [done|]. intros n [= <-]. pose proof (latest_nonneg _ Hinv).
  unfold confirmationBufferBlocks. rewrite uint64_id by int_lia. split; [lia|].
  intros h t Ht. destruct (tx_mined _ Hinv h t Ht) as [Hb _]. lia.
Qed.

(** The transaction count of an address is the next free nonce: above
    the nonce of each of its mined transactions, and 0 or one more than one
    of them. *)
Theorem GetTransactionCount_next address d :
  wp (GetTransactionCount address) (fun r d' => tables d' = tables d /\ forall n, r = Ok n ->
    (forall h t, evm_transactions (tables d) !! h = Some t -> txd_FromAddress t = Address_Hex address ->
       txd_Nonce t < n) /\
    (n = 0 \/ exists h t, evm_transactions (tables d) !! h = Some t /\ txd_FromAddress t = Address_Hex address /\
       n = txd_Nonce t + 1)) d.
Proof.
  unfold GetTransactionCount, GetEvmTransactionCount.
  apply wp_dependency, wp_wrapping, wp_query; intros; cbn [wrap]; [|done]. split; [done|]. intros n [= <-].
  apply (map_fold_weak_ind (fun n m =>
    (forall h t, m !! h = Some t -> txd_FromAddress t = Address_Hex address -> txd_Nonce t < n) /\
    (n = 0 \/ exists h t, m !! h = Some t /\ txd_FromAddress t = Address_Hex address /\ n = txd_Nonce t + 1))).
  - split; [done|by left].
  - intros h t m n Hnone [Hlt Hex]. case_bool_decide as Hf.
    + split.
      * intros h' t'. rewrite lookup_insert_Some. intros [[_ <-]|[_ Ht']] Hf'; [lia|].
        specialize (Hlt h' t' Ht' Hf'). lia.
      * destruct (Z.max_spec (txd_Nonce t + 1) n) as [[_ ->]|[_ ->]].
        -- destruct Hex as [->|(h' & t' & Ht' & Hf' & ->)]; [by left|right]. exists h', t'.
           rewrite lookup_insert_ne by congruence. done.
        -- right. exists h, t. by rewrite lookup_insert_eq.
    + split.
      * intros h' t'. rewrite lookup_insert_Some. intros [[_ <-]|[_ Ht']] Hf'; [done|by eapply Hlt].
      * destruct Hex as [->|(h' & t' & Ht' & Hf' & ->)]; [by left|right]. exists h', t'.
        rewrite lookup_insert_ne by congruence. done.
Qed.

(** The rows a log query selects. *)
Definition selected_logs (q : FilterQuery) (toBlock : Z) (tb : EvmTables) : list EvmLogDao :=
  List.filter (log_matches (addressFilter q) (topic0Filter q) (default 0 (fq_FromBlock q)) toBlock)
    (map_to_list (evm_logs tb)).*2.

#[local] Instance log_position_total : Total log_position_before.
Proof. intros a b. unfold log_position_before. lia. Qed.

(** Eth_getLogs returns the stored logs in the block range (up to the
    latest block when no end is given) that match the address and the first
    topic, ordered by block, transaction and log index, each once; beyond
    10000 matches, the first 10000 in that order. *)
Theorem GetLogs_correct q d :
  wp (GetLogs q) (fun r d' => tables d' = tables d /\ forall logs, r = Ok logs -> exists rows,
    rows ≡ₚ selected_logs q (default (latest_block (tables d)) (fq_ToBlock q)) (tables d) /\
    Sorted log_position_before rows /\
    logs = (fun l => toLog (BytesToHash (log_TxHash l)) l) <$> (fromEvmLogDao <$> take 10000 rows)) d.
Proof.
  unfold GetLogs.
  assert (forall toBlock d0, tables d0 = tables d ->
    wp (dbLogs ← dependency "get EVM logs" (GetEvmLogs (addressFilter q) (topic0Filter q) (default 0 (fq_FromBlock q)) toBlock);
        mret ((fun l => toLog (BytesToHash (log_TxHash l)) l) <$> dbLogs)) (fun r d' => tables d' = tables d /\
      forall logs, r = Ok logs -> exists rows, rows ≡ₚ selected_logs q toBlock (tables d) /\
        Sorted log_position_before rows /\
        logs = (fun l => toLog (BytesToHash (log_TxHash l)) l) <$> (fromEvmLogDao <$> take 10000 rows)) d0) as Hq.
  { intros toBlock d0 Ht. unfold GetEvmLogs.
    apply wp_bind, wp_dependency, wp_wrapping, wp_query; intros; cbn [wrap]; [|done].
    apply wp_ret. cbn [tables]. split; [done|]. intros logs [= <-]. rewrite Ht.
    exists (log_rows (log_matches (addressFilter q) (topic0Filter q) (default 0 (fq_FromBlock q)) toBlock)
              log_position_before (tables d)).
    split; [apply merge_sort_Permutation|]. split; [apply (Sorted_merge_sort log_position_before)|done]. }
  apply wp_bind. destruct (fq_ToBlock q) as [n|]; cbn [default].
  - apply wp_ret. by apply Hq.
  - unfold GetLatestEvmBlockNumber. apply wp_dependency, wp_wrapping, wp_query; intros; cbn [wrap]; [|done]. by apply Hq.
Qed.
End Read.

(** ** Two lookups by hash *)

Section ByHash.
Context `{!GoEthereum} `{!EthTypes}.

(** A hash that is no block's is answered with the latest block instead of null. *)
Theorem unknown_block_hash_is_latest chainID elapsed hash tb :
  map_Forall (fun _ t => txd_BlockHash t <> hash) (evm_transactions tb) ->
  (GetBlockByHash chainID elapsed hash (mkDB tb [])).1 =
  (GetBlockByNumber chainID elapsed (mkBlockNumberOrHash None None) (mkDB tb [])).1.
Proof.
  intros Hno. unfold GetBlockByHash, dependency, GetBlockNumberByHash, wrapping.
  unfold mbind at 1, M_bind at 1. rewrite query_nofault. cbn [wrap].
  destruct (List.filter _ _) as [|t l] eqn:Hf; [done|].
  assert (In t (t :: l)) as Hin by by left. rewrite <- Hf in Hin. apply filter_In in Hin as [Hin Ht].
  apply list_elem_of_In, list_elem_of_fmap in Hin as ([h t'] & -> & Hin). apply elem_of_map_to_list in Hin.
  apply bool_decide_eq_true in Ht. by destruct (Hno h t' Hin).
Qed.

(** The blockHash of a log filter is not looked at. *)
Theorem log_filter_ignores_block_hash q b :
  GetLogs q = GetLogs (mkFilterQuery b (fq_FromBlock q) (fq_ToBlock q) (fq_Address q) (fq_Topics q)).
Proof. done. Qed.
End ByHash.
