(* ===== verification/Erc20Service.v ===== *)
(** * The ERC-20 view of Canton tokens: pkg/token

    service.go, erc20.go, native.go, config.go, types.go, and the Canton and
    indexer providers.  The service resolves EVM addresses to registered users
    and their fingerprints, converts amounts by the token's decimals, and calls
    the Canton token client.  It is the instance of the interfaces that the
    JSON-RPC service and the mempool submitter are proved against. *)

From S2P Require Import Prelude AppErrors Effects GoStd GoText EthClient UserStore Decimal RelayerChains DamlValues Streaming LedgerApi TokenCodec LedgerClient Identity TokenRegistry TokenClient TokenClientProofs EvmStore EvmSubmitter EvmService.
From Stdlib Require Import Ascii String Qcanon.
Local Open Scope Z_scope.
Local Abbreviation length := Datatypes.length.

(** ** config.go and types.go *)

Record ERC20Token := mkERC20Token {
  et_Name : string;
  et_Symbol : string;
  et_Decimals : Z;
  et_InstrumentID : string;
  et_ExternalTransfer : bool;
}.

Record TokenItem := mkTokenItem { ti_Address : string; ti_Name : string; ti_Symbol : string; ti_Decimals : Z }.
Record TokensPage := mkTokensPage { tp_Items : list TokenItem; tp_NextCursor : string; tp_HasMore : bool }.

(** Config.SupportedTokens *)
Abbreviation SupportedTokens := (gmap Address ERC20Token).

Definition NewConfig : SupportedTokens := ∅.
Definition AddToken (address : Address) (token : ERC20Token) (cfg : SupportedTokens) : SupportedTokens := <[address := token]> cfg.

Definition getToken `{!GoEthereum} (cfg : SupportedTokens) (address : Address) : result ERC20Token :=
  match cfg !! address with
  | Some tkn => Ok tkn
  | None => Err (ErrNew ("token not supported: " +:+ Address_Hex address))
  end.

(** ** Providers of balances and supplies *)

Class Provider (X : Type) := {
  provider_TotalSupply : string -> M X string;
  provider_Balance : string -> string -> M X string;
}.

(** provider/canton.go *)
#[export] Instance canton_provider `{!Env} `{!DecimalLib} (client : Client) : Provider history := {|
  provider_TotalSupply tokenSymbol := GetTotalSupply client tokenSymbol;
  provider_Balance tokenSymbol partyID := GetBalanceByPartyID client partyID tokenSymbol;
|}.

(** What provider/indexer.go asks of the indexer's client: the total supply of
    an instrument, and the amount a party holds of it. *)
Class IndexerBalances (X : Type) := {
  client_TotalSupply : string -> string -> M X string;
  client_GetBalance : string -> string -> string -> M X string;
}.

Definition instrumentAdmin (instruments : gmap string string) (tokenSymbol : string) : result string :=
  match instruments !! tokenSymbol with
  | Some admin => Ok admin
  | None => Err (ErrNew ("unknown token symbol: " +:+ tokenSymbol))
  end.

Definition Indexer_GetTotalSupply {X} `{!IndexerBalances X} (instruments : gmap string string) (tokenSymbol : string) : M X string :=
  admin ← lift (instrumentAdmin instruments tokenSymbol); client_TotalSupply admin tokenSymbol.

Definition Indexer_GetBalance {X} `{!IndexerBalances X} (instruments : gmap string string) (tokenSymbol partyID : string) : M X string :=
  admin ← lift (instrumentAdmin instruments tokenSymbol);
  r ← attempt (client_GetBalance partyID admin tokenSymbol);
  match r with
  | Ok amount => mret amount
  | Err e => if Is e CategoryResourceNotFound then mret "0"%string else fail e
  end.

#[export] Instance indexer_provider {X} `{!IndexerBalances X} (instruments : gmap string string) : Provider X := {|
  provider_TotalSupply := Indexer_GetTotalSupply instruments;
  provider_Balance := Indexer_GetBalance instruments;
|}.

(** ** service.go *)

Definition ethRPCTransferValidity : Z := 30 * (24 * Hour).

(** The state the service works on. *)
Record TokenWorld := mkTokenWorld { tw_users : UserDB; tw_history : history }.
Definition tw_on_users {A} (c : M UserDB A) : M TokenWorld A := zoom tw_users (fun u w => mkTokenWorld u (tw_history w)) c.
Definition tw_on_ledger {A} (c : M history A) : M TokenWorld A := zoom tw_history (fun h w => mkTokenWorld (tw_users w) h) c.

(** The sorted addresses of the configuration; Hex orders them. *)
Definition hex_leb `{!GoEthereum} (a b : Address) : bool := String.leb (Address_Hex a) (Address_Hex b).
Definition sorted_addresses `{!GoEthereum} (cfg : SupportedTokens) : list Address :=
  merge_sort (fun a b => Is_true (hex_leb a b)) (map_to_list cfg).*1.

(** The index after the address that the cursor names. *)
Fixpoint after_address `{!GoEthereum} (addrs : list Address) (cursor : string) : option (list Address) :=
  match addrs with
  | [] => None
  | a :: rest => if EqualFold (Address_Hex a) cursor then Some rest else after_address rest cursor
  end.

Definition token_item `{!GoEthereum} (cfg : SupportedTokens) (addr : Address) : TokenItem :=
  let tok := default (mkERC20Token "" "" 0 "" false) (cfg !! addr) in
  mkTokenItem (Address_Hex addr) (et_Name tok) (et_Symbol tok) (et_Decimals tok).

(** The page of addresses from a start on; the limit is at least 0. *)
Definition tokens_page `{!GoEthereum} (cfg : SupportedTokens) (rest : list Address) (limit : Z) : TokensPage :=
  let items := token_item cfg <$> take (Z.to_nat limit) rest in
  let hasMore := bool_decide (limit < Z.of_nat (length rest)) in
  mkTokensPage items (if hasMore then default ""%string (ti_Address <$> last items) else ""%string) hasMore.

Definition GetSupportedTokens `{!GoEthereum} (cfg : SupportedTokens) (cursor : string) (limit : Z) : result TokensPage :=
  let addrs := sorted_addresses cfg in
  if bool_decide (cursor = ""%string) then Ok (tokens_page cfg addrs limit)
  else match after_address addrs cursor with
       | Some rest => Ok (tokens_page cfg rest limit)
       | None => Err (BadRequestError None "invalid cursor")
       end.

Section service.
Context `{!Env} `{!GoEthereum} `{!DecimalLib} `{!Provider history}.
Variable cfg : SupportedTokens.
Variable client : Client.
(** Whether a provider was passed; getBalance does not check it. *)
Variable hasProvider : bool.

Definition service_ERC20 (address : Address) : result unit := _ ← getToken cfg address; mret tt.

Definition insufficient_balance (e : error) : bool := errors_Is e "token.ErrInsufficientBalance" "insufficient balance".

Definition transfer_error (e : error) : error :=
  if insufficient_balance e then BadRequestError (Some e) "insufficient balance"
  else DependencyError (Some (ErrWrap "canton transfer failed: " e "")) "canton transfer failed".

(** The user of an address, or the error of the lookup as a bad request. *)
Definition user_of (role : string) (addr : Address) : M TokenWorld User :=
  r ← attempt (tw_on_users (GetUserByEVMAddress (Address_Hex addr)));
  match r with
  | Ok u => mret u
  | Err e => fail (BadRequestError (Some (ErrWrap ("failed to get " +:+ role +:+ ": ") e "")) ("failed to get " +:+ role))
  end.

Definition transfer (idempotencyKey : string) (contract from to : Address) (amount : string) : M TokenWorld unit :=
  match getToken cfg contract with
  | Err e => fail (BadRequestError (Some e) ("token not supported: " +:+ Address_Hex contract))
  | Ok tkn =>
      fromUser ← user_of "sender" from;
      toUser ← user_of "recipient" to;
      r ← attempt (tw_on_ledger (TransferByFingerprint client idempotencyKey (u_Fingerprint fromUser) (u_Fingerprint toUser)
                     amount (et_Symbol tkn) ethRPCTransferValidity));
      match r with
      | Ok _ => mret tt
      | Err e => fail (transfer_error e)
      end
  end.

Definition getBalance (contract address : Address) : M TokenWorld string :=
  tkn ← lift (getToken cfg contract);
  r ← attempt (tw_on_users (GetUserByEVMAddress (Address_Hex address)));
  match r with
  | Ok usr => tw_on_ledger (provider_Balance (et_Symbol tkn) (u_CantonPartyID usr))
  | Err e => if is_ErrUserNotFound e then mret "0"%string else fail (ErrWrap "failed to get user: " e "")
  end.

Definition getTotalSupply (contract : Address) : M TokenWorld string :=
  if negb hasProvider then fail (ErrNew "token provider not configured")
  else
    tkn ← lift (getToken cfg contract);
    tw_on_ledger (provider_TotalSupply (et_Symbol tkn)).

Definition getTokenName (contract : Address) : result string := tkn ← getToken cfg contract; mret (et_Name tkn).
Definition getTokenSymbol (contract : Address) : result string := tkn ← getToken cfg contract; mret (et_Symbol tkn).
Definition getTokenDecimals (contract : Address) : result Z := tkn ← getToken cfg contract; mret (et_Decimals tkn).

(** ** erc20.go and native.go *)

Definition or_default {A} (d : A) (r : result A) : A := match r with Ok a => a | Err _ => d end.

Definition erc20_Name (contract : Address) : string := or_default ""%string (getTokenName contract).
Definition erc20_Symbol (contract : Address) : string := or_default ""%string (getTokenSymbol contract).

(** uint8(decimals), or 0 when it does not fit. *)
Definition erc20_Decimals (contract : Address) : Z :=
  match getTokenDecimals contract with
  | Ok d => if (d <? 0) || (255 <? d) then 0 else d
  | Err _ => 0
  end.

(** A view asks the provider and converts; any failure is zero. *)
Definition amount_view (c : M TokenWorld string) (contract : Address) (w : TokenWorld) : Z :=
  match (c w).1 with
  | Ok s => or_default 0 (decimalToBigInt s (erc20_Decimals contract))
  | Err _ => 0
  end.
Definition erc20_TotalSupply (contract : Address) (w : TokenWorld) : Z := amount_view (getTotalSupply contract) contract w.
Definition erc20_BalanceOf (contract address : Address) (w : TokenWorld) : Z := amount_view (getBalance contract address) contract w.

Definition erc20_TransferFrom (contract : Address) (idempotencyKey : string) (from to : Address) (amount : Z) : M TokenWorld unit :=
  transfer idempotencyKey contract from to (bigIntToDecimal amount (erc20_Decimals contract)).

Definition erc20_Approve (contract spender : Address) (amount : Z) : result unit := Err (ErrNew "not supported").
Definition erc20_Allowance (contract owner spender : Address) : Z := 0.
Definition native_GetBalance (address : Address) : result Z := Ok 0.
Definition native_Transfer (from to : Address) (amount : Z) : result unit := Err (ErrNew "native token transfer not supported").

(** The service behind the interfaces of the submitter and of the JSON-RPC
    service. *)
#[export] Instance token_service : TokenService TokenWorld := {| ERC20 := service_ERC20; TransferFrom := erc20_TransferFrom |}.
#[export] Instance token_views : TokenViews TokenWorld := {|
  Name contract _ := erc20_Name contract;
  Symbol contract _ := erc20_Symbol contract;
  Decimals contract _ := erc20_Decimals contract;
  TotalSupply := erc20_TotalSupply;
  BalanceOf := erc20_BalanceOf;
  Allowance contract owner spender _ := erc20_Allowance contract owner spender;
  Native_GetBalance address _ := native_GetBalance address;
|}.
End service.

(** ** Theorems

    What a TransferFrom of the view comes to on the ledger, what BalanceOf
    answers, and what a failing user lookup does to a mempool entry. *)

(** The stored user whose evm_address is the checksummed form of an address. *)
Definition registered `{!GoEthereum} (w : TokenWorld) (addr : Address) (u : User) : Prop :=
  exists dao, List.find (column_is col_evm_address (Address_Hex addr)) (t_users (tables (tw_users w))) = Some dao /\ u = toUser dao.

Section transfers.
Context `{!Env} `{!GoEthereum} `{!DecimalLib} `{!Provider history}.
Variable cfg : SupportedTokens.
Variable client : Client.

(** What a transfer between two fingerprints comes to. *)
Lemma wp_TransferByFingerprint key ff tf amount symbol validity h :
  wp (TransferByFingerprint client key ff tf amount symbol validity) (fun r h' =>
    (nothing_executed h h' /\ is_ok r = false) \/
    exists mf mt h1,
      Identity.fm_Fingerprint mf = Identity.normalizeFingerprint ff /\ Identity.fm_Fingerprint mt = Identity.normalizeFingerprint tf /\
      effects h1 = effects h /\
      custodial_transfer client key (Identity.fm_UserParty mf) (Identity.fm_UserParty mt) amount symbol validity h1 r h') h.
Proof.
  unfold TransferByFingerprint. destruct (validity <=? 0); [by left|].
  apply wp_bind, wp_wrapping, wp_read_only; [apply Identity.emits_GetFingerprintMapping|].
  intros [mf|e] n1 Hf He1; cbn [wrap]; [|left; auto using effects_nothing].
  apply wp_bind, wp_wrapping, wp_read_only; [apply Identity.emits_GetFingerprintMapping|].
  intros [mt|e] n2 Ht He2; cbn [wrap]; [|left; split; [apply effects_nothing; congruence|done]].
  eapply wp_mono; [apply wp_TransferByPartyID|]. cbv beta. intros r h' Hc. right.
  exists mf, mt, ((h ++ n1) ++ n2). split_and!; [|by eapply Identity.GetFingerprintMapping_fp|congruence|done].
  by eapply Identity.GetFingerprintMapping_fp.
Qed.

Lemma wp_user_of role addr w Q :
  (forall u fs, registered w addr u -> Q (Ok u) (mkTokenWorld (mkDB (tables (tw_users w)) fs) (tw_history w))) ->
  (forall e fs, Q (Err e) (mkTokenWorld (mkDB (tables (tw_users w)) fs) (tw_history w))) ->
  wp (user_of role addr) Q w.
Proof.
  intros Hok Herr. unfold user_of, tw_on_users. apply wp_bind, wp_attempt, wp_zoom, wp_getUserBy.
  - intros dao fs Hf. apply wp_ret, Hok. by exists dao.
  - intros fs _. apply wp_fail, Herr.
  - intros m fs. apply wp_fail, Herr.
Qed.

(** What a transfer of the view comes to. *)
Definition view_transfer (key : string) (contract from to : Address) (amount : Z) (w : TokenWorld) (r : result unit) (w' : TokenWorld) : Prop :=
  tables (tw_users w') = tables (tw_users w) /\
  ((nothing_executed (tw_history w) (tw_history w') /\ is_ok r = false) \/
   exists tkn fromUser toUser mf mt h1 rc,
     cfg !! contract = Some tkn /\ registered w from fromUser /\ registered w to toUser /\
     Identity.fm_Fingerprint mf = Identity.normalizeFingerprint (u_Fingerprint fromUser) /\
     Identity.fm_Fingerprint mt = Identity.normalizeFingerprint (u_Fingerprint toUser) /\
     effects h1 = effects (tw_history w) /\
     custodial_transfer client key (Identity.fm_UserParty mf) (Identity.fm_UserParty mt)
       (bigIntToDecimal amount (erc20_Decimals cfg contract)) (et_Symbol tkn) ethRPCTransferValidity h1 rc (tw_history w') /\
     r = match rc with Ok _ => Ok tt | Err e => Err (transfer_error e) end).

Lemma wp_TransferFrom key contract from to amount w :
  wp (erc20_TransferFrom cfg client contract key from to amount) (view_transfer key contract from to amount w) w.
Proof.
  unfold erc20_TransferFrom, transfer, getToken. destruct (cfg !! contract) as [tkn|] eqn:Ht; [|apply wp_fail; split; [done|by left]].
  apply wp_bind, wp_user_of; [|by split; [|left]]. intros fu fs Hfu.
  apply wp_bind, wp_user_of; [|by split; [|left]]. intros tu fs' Htu.
  apply wp_bind, wp_attempt. unfold tw_on_ledger. apply wp_zoom. eapply wp_mono; [apply wp_TransferByFingerprint|].
  cbn [tw_history tw_users tables]. intros rc h' [[Hn Hr]|(mf & mt & h1 & Hf & Hm & He & Hc)].
  - destruct rc; [done|]. apply wp_fail. split; [done|]. by left.
  - assert (forall r, r = match rc with Ok _ => Ok tt | Err e => Err (transfer_error e) end ->
      view_transfer key contract from to amount w r (mkTokenWorld (mkDB (tables (tw_users w)) fs') h')) as Hv.
    { intros r Hr. split; [done|]. right. exists tkn, fu, tu, mf, mt, h1, rc. done. }
    by destruct rc as [[]|e]; [apply wp_ret, Hv|apply wp_fail, Hv].
Qed.

(** An ERC-20 TransferFrom submits at most one Canton transfer, and the
    right one.  Whatever the database, the ledger, the registry and the key
    store answer, either nothing is executed and the caller gets an error, or
    the contract is a configured token, both addresses belong to registered
    users, and the call comes to one custodial transfer under the caller's
    idempotency key: from the party mapped to the sender's stored fingerprint
    to the party mapped to the recipient's, of the raw amount scaled by the
    token's decimals, of the token's symbol, valid for thirty days; the
    lookups before it submit nothing.  The error of that transfer is reported
    as the client's insufficient balance or as a failed dependency. *)
Theorem TransferFrom_submits key contract from to amount w r w' :
  erc20_TransferFrom cfg client contract key from to amount w = (r, w') ->
  view_transfer key contract from to amount w r w'.
Proof. intros Hrun. exact (wp_run _ _ _ _ _ (wp_TransferFrom key contract from to amount w) Hrun). Qed.

(** ** A database fault is taken for a bad request *)

(** A transient database failure fails a transfer for good.  When the
    statement that looks the sender up faults, the service answers with a bad
    request, which the submitter takes for permanent: the pending mempool
    entry is marked failed although nothing is wrong with the transfer, and no
    later drain submits it. *)
Theorem transient_lookup_is_permanent e d m fs st :
  let _ := token_service cfg client in
  is_Some (cfg !! HexToAddress (me_ContractAddress e)) ->
  faults (tw_users (s_canton st)) = Some m :: fs -> faults (s_db st) = [] ->
  pool st !! me_TxHash e = Some d -> md_Status d = MempoolPending ->
  wp (process e) (fun _ st' =>
    exists d', pool st' !! me_TxHash e = Some d' /\ md_Status d' = MempoolFailed /\
      tw_history (s_canton st') = tw_history (s_canton st)) st.
Proof.
  intros T [tkn Ht] Hfault Hdb Hrow Hpend. unfold wp, process.
  assert (exists err x', call e (s_canton st) = (Answered (Err err), x') /\ isPermanentError err = true /\
            tw_history x' = tw_history (s_canton st)) as (err & x' & Hcall & Hperm & Hh).
  { unfold call, T. cbn [ERC20 TransferFrom token_service]. unfold service_ERC20, erc20_TransferFrom, transfer, getToken.
    rewrite Ht. cbn. unfold user_of, tw_on_users, mbind at 1, M_bind at 1, mbind at 1, M_bind at 1, attempt, zoom.
    unfold GetUserByEVMAddress, getUserBy, mbind at 1, M_bind at 1, wrapping, query, exec. rewrite Hfault. cbn.
    eexists _, _. split; [reflexivity|]. done. }
  rewrite Hcall. destruct (record_outcome e _ _) as [r st'] eqn:Hrec.
  destruct (record_written _ _ _ _ _ Hrec) as (Hx & _ & _ & Hp). cbn [s_db s_canton] in *.
  destruct (Hp Hdb) as [_ Hpool]. unfold pool in *. cbn [s_db] in Hpool. rewrite Hpool, lookup_alter_eq, Hrow. cbn.
  eexists. split; [reflexivity|]. rewrite Hx. split; [|done].
  unfold settle. rewrite bool_decide_eq_true_2 by done. cbn. by rewrite Hperm.
Qed.
End transfers.

(** ** Balances *)

Section balances.
Context `{!Env} `{!GoEthereum} `{DecimalLaws}.
Variable cfg : SupportedTokens.
Variable client : Client.

(** Texts that parse can be summed. *)
Lemma sum_amounts_total l total :
  is_Some (NewFromString total) -> Forall (fun a => is_Some (NewFromString a)) l -> exists s, sum_amounts l total = Ok s /\ is_Some (NewFromString s).
Proof.
  intros Ht Hl. revert total Ht. induction Hl as [|a l [da Ha] _ IH]; intros total [dt Ht]; cbn; [eauto|].
  unfold addDecimalStrings, parse_decimal. rewrite Ht, Ha. cbn. apply IH.
  destruct (dlaw_parse_string (dec_Add dt da)) as (d & -> & _). eauto.
Qed.

(** Scaling a text that denotes a whole number of units. *)
Lemma decimalToBigInt_units s decimals n :
  is_Some (NewFromString s) -> (amount_val s * pow10 decimals)%Qc = Qc_of_Z n -> decimalToBigInt s decimals = Ok n.
Proof.
  intros [d Hd]. unfold amount_val, decimalToBigInt. rewrite Hd. intros Hv. f_equal. apply dlaw_bigint.
  rewrite dlaw_mul, dlaw_new, <- Hv. f_equal. apply Qcmult_1_l.
Qed.

(** BalanceOf answers the user's holdings in the token's smallest unit.
    For a configured token, BalanceOf of an address is 0 when the address is
    not registered; when it is, and the ledger answers, it is the sum of the
    amounts of all active holdings of the user's party with the token's
    symbol, scaled by ten to the token's decimals, whenever that is a whole
    number. *)
Theorem BalanceOf_units contract address w tkn :
  cfg !! contract = Some tkn -> faults (tw_users w) = [] -> 0 <= et_Decimals tkn <= 255 ->
  let balance := erc20_BalanceOf (Provider0 := canton_provider client) cfg contract address w in
  match List.find (column_is col_evm_address (Address_Hex address)) (t_users (tables (tw_users w))) with
  | None => balance = 0
  | Some dao => forall holdings n,
      (GetHoldings client (u_CantonPartyID (toUser dao)) (et_Symbol tkn) (tw_history w)).1 = Ok holdings ->
      Forall (fun hd => is_Some (NewFromString (h_Amount hd))) holdings ->
      (worth holdings * pow10 (et_Decimals tkn))%Qc = Qc_of_Z n -> balance = n
  end.
Proof.
  intros Ht Hf Hdec. cbv zeta. unfold erc20_BalanceOf, amount_view, getBalance, getToken. rewrite Ht.
  assert (erc20_Decimals cfg contract = et_Decimals tkn) as Hd.
  { unfold erc20_Decimals, getTokenDecimals, getToken. rewrite Ht. cbn.
    destruct (Z.ltb_spec (et_Decimals tkn) 0), (Z.ltb_spec 255 (et_Decimals tkn)); cbn; try done; lia. }
  destruct w as [[tb fs] h]. cbn in Hf. subst fs. cbn [tw_users tw_history tables].
  destruct (List.find _ _) as [dao|] eqn:Hfind.
  - intros holdings n Hg Hp Hv.
    unfold mbind, M_bind, lift, attempt, tw_on_users, tw_on_ledger, zoom, GetUserByEVMAddress, getUserBy, mbind, M_bind, wrapping.
    cbn [tw_users tw_history]. rewrite query_nofault. cbn [wrap]. rewrite Hfind. cbn [provider_Balance canton_provider mret M_ret].
    unfold GetBalanceByPartyID, mbind, M_bind, lift. revert Hg. cbn [tw_history tw_users].
    generalize (GetHoldings client (u_CantonPartyID (toUser dao)) (et_Symbol tkn) h). intros [[hs|e] h'] Hg; [|done].
    injection Hg as ->.
    destruct (sum_amounts_total (h_Amount <$> holdings) "0") as (s & Hs & Hps).
    { destruct dlaw_parse_zero as (d & -> & _). eauto. }
    { by rewrite Forall_fmap. }
    rewrite Hs. cbn [fst]. rewrite Hd, (decimalToBigInt_units s _ n); [done|done|].
    apply sum_amounts_ok in Hs. rewrite Hs, amount_val_zero, Qcplus_0_l. exact Hv.
  - unfold mbind, M_bind, lift, attempt, tw_on_users, zoom, GetUserByEVMAddress, getUserBy, mbind, M_bind, wrapping.
    cbn [tw_users tw_history]. rewrite query_nofault. cbn [wrap]. rewrite Hfind. unfold fail.
    change (is_ErrUserNotFound ErrUserNotFound) with true. cbn [fst mret M_ret].
    rewrite (decimalToBigInt_units "0" _ 0); [done| |].
    + destruct dlaw_parse_zero as (d & -> & _). eauto.
    + rewrite amount_val_zero. apply Qcmult_0_l.
Qed.
End balances.

(** ** Witnesses: alice sends bob 2.5 DEMO *)

Definition ex_mapping (cid party fp : string) : CreatedEvent :=
  mkCreatedEvent cid None (Identity.encodeFingerprintMappingCreate "issuer" party fp "") [].

Definition ex_erc20_env : Env := scripted (mkScript (100 * Second) 5
  (fun _ => [ex_mapping "m1" "alice" "0xf1"; ex_mapping "m2" "bob" "0xf2";
             ex_created "c1" "alice" "1.5"; ex_created "c2" "bob" "2.25"; ex_created "c3" "alice" "4"])
  (fun p => Ok (mkSigner (fun m => Ok (0 :: m)) (Ok ("fp-" +:+ p)))) (fun _ => ([], ""%string)) (fun _ => http_failed (ErrNew "down"))).

Definition ex_alice : Address := replicate 20 1.
Definition ex_bob : Address := replicate 20 2.
Definition ex_demo : Address := replicate 20 3.
Definition ex_tokens : SupportedTokens := AddToken ex_demo (mkERC20Token "Demo" "DEMO" 18 "DEMO" false) NewConfig.
Definition ex_erc20_users : UserTables := mkUserTables
  [toUserDao (New 7 (@Address_Hex example_geth ex_alice) "alice" "0xf1" "m1" "enc");
   toUserDao (New 7 (@Address_Hex example_geth ex_bob) "bob" "0xf2" "m2" "enc")] ∅.
Definition ex_erc20_world (fs : list (option string)) : TokenWorld := mkTokenWorld (mkDB ex_erc20_users fs) [].

Lemma TransferFrom_submits_witness :
  let run := @erc20_TransferFrom ex_erc20_env example_geth RefDecimal.lib ex_tokens ex_client ex_demo "key" ex_alice ex_bob
               2500000000000000000 (ex_erc20_world []) in
  run.1 = Ok tt /\ length (executed (tw_history run.2)) = 1%nat /\
  @view_transfer ex_erc20_env example_geth RefDecimal.lib ex_tokens ex_client "key" ex_demo ex_alice ex_bob
    2500000000000000000 (ex_erc20_world []) run.1 run.2.
Proof.
  cbv zeta. split; [vm_compute; reflexivity|]. split; [vm_compute; reflexivity|].
  destruct (@erc20_TransferFrom ex_erc20_env example_geth RefDecimal.lib ex_tokens ex_client ex_demo "key" ex_alice ex_bob
               2500000000000000000 (ex_erc20_world [])) as [r w'] eqn:Hrun.
  exact (@TransferFrom_submits ex_erc20_env example_geth RefDecimal.lib ex_tokens ex_client _ _ _ _ _ _ r w' Hrun).
Defined.

Definition ex_alice_holdings : list Holding :=
  or_default [] (@GetHoldings ex_erc20_env ex_client "alice" "DEMO" []).1.

Lemma BalanceOf_units_witness :
  (h_Amount <$> ex_alice_holdings) = ["1.5"; "4"]%string /\
  @erc20_BalanceOf example_geth RefDecimal.lib (@canton_provider ex_erc20_env RefDecimal.lib ex_client) ex_tokens ex_demo ex_alice
    (ex_erc20_world []) = 5500000000000000000.
Proof.
  assert ((h_Amount <$> ex_alice_holdings) = ["1.5"; "4"]%string) as Ha by (vm_compute; reflexivity).
  split; [exact Ha|].
  pose proof (@BalanceOf_units ex_erc20_env example_geth RefDecimal.lib RefDecimal.laws ex_tokens ex_client ex_demo ex_alice
    (ex_erc20_world []) (mkERC20Token "Demo" "DEMO" 18 "DEMO" false) eq_refl eq_refl ltac:(cbn; lia)) as Hb.
  apply (Hb ex_alice_holdings).
  - vm_compute. reflexivity.
  - apply (proj1 (Forall_fmap h_Amount (fun a => is_Some (@NewFromString RefDecimal.lib a)) ex_alice_holdings)). rewrite Ha.
    repeat constructor; eexists; reflexivity.
  - unfold worth. rewrite Ha. apply Qc_is_canon. vm_compute. reflexivity.
Defined.

Definition ex_entry : MempoolEntry := mkMempoolEntry 1 [7] (@Address_Hex example_geth ex_alice) (@Address_Hex example_geth ex_demo)
  (@Address_Hex example_geth ex_bob) 0 [] [9] MempoolPending "".
Definition ex_entry_row : MempoolEntryDao := mkMempoolEntryDao 1 [7] (@Address_Hex example_geth ex_alice)
  (@Address_Hex example_geth ex_demo) (@Address_Hex example_geth ex_bob) 0 [] [9] MempoolPending None.
Definition ex_submitter : SubmitterState := mkSubmitterState
  (mkDB (mkEvmTables {[ [7] := ex_entry_row ]} 2 ∅ ∅ 0) []) (ex_erc20_world [Some "connection refused"%string]).

Lemma transient_lookup_is_permanent_witness :
  @wp _ _ (@process _ example_geth (@token_service ex_erc20_env example_geth RefDecimal.lib ex_tokens ex_client) ex_entry) (fun _ st' =>
    exists d', pool st' !! [7] = Some d' /\ md_Status d' = MempoolFailed /\ tw_history (s_canton st') = []) ex_submitter.
Proof.
  apply (@transient_lookup_is_permanent ex_erc20_env example_geth RefDecimal.lib ex_tokens ex_client ex_entry ex_entry_row
    "connection refused" [] ex_submitter); [eexists; vm_compute; reflexivity|reflexivity..].
Defined.
