(* ===== verification/EvmScenarios.v ===== *)
(** * Scenarios of the EVM facade

    A concrete go-ethereum and token service, two transfers sent, submitted
    and mined, and the theorems of the facade applied to them. *)

From S2P Require Import Prelude AppErrors Effects GoStd EthClient RelayerChains EvmStore EvmMiner EvmLifecycle EvmSubmitter EvmService EvmServiceProofs.

#[local] Existing Instance example_geth.

#[local] Instance example_geth_laws : GoEthereumLaws.
Proof.
  split.
  - intros a [Hlen Hb]. cbn. by rewrite hex_decode_encode.
  - intros h [Hlen Hb]. cbn. unfold copy_into. rewrite take_ge, Hlen, app_nil_r by lia. done.
  - intros b. apply length_copy_into.
  - intros b. apply length_copy_into.
Qed.

(** ** Two parties, one contract *)

Definition alice : Address := replicate 20 1.
Definition bob : Address := replicate 20 2.
Definition usdc : Address := replicate 20 3.

(** A transfer of 1000 from alice to bob, and one whose first byte makes the
    second transaction another hash. *)
#[local] Instance example_types : EthTypes := {|
  UnmarshalBinary data := match data with
    | b :: _ => if (0 <=? b) && (b <? 256) then Ok (mkTransaction (Some usdc) 0 [0xa9; 5; 9; 0xbb] 0 (replicate 32 b)) else Err (ErrNew "rlp")
    | [] => Err (ErrNew "rlp: EOF") end;
  Sender _ _ := Ok alice;
  MethodById _ := Ok "transfer"%string;
  UnpackIntoMap _ _ := Ok {[ "to"%string := AbiAddress bob; "value"%string := AbiBigInt 1000 ]};
  NewType _ := Ok tt;
  Pack _ _ := Ok [];
  CreateBloom _ := [];
  UnmarshalText _ := Err (ErrNew "invalid hex string");
|}.

#[local] Instance example_types_laws : EthTypesLaws.
Proof.
  assert (forall n b, 0 <= b < 256 -> is_bytes n (replicate n b)) as Hrep.
  { intros n b Hb. split; [apply length_replicate|by apply Forall_replicate]. }
  split; cbn.
  - intros data tx a. destruct data as [|b data]; [done|]. destruct (_ && _); [|done]. intros [= <-] [= <-].
    by apply (Hrep 20%nat 3).
  - intros data tx. destruct data as [|b data]; [done|]. destruct (_ && _) eqn:Hb; [|done]. intros [= <-].
    apply (Hrep 32%nat b). lia.
  - intros _ _ a [= <-]. by apply (Hrep 20%nat 1).
  - intros _ _ args k a [= <-]. rewrite lookup_insert_Some, lookup_singleton_Some. intros [[_ [= <-]]|[_ [_ [=]]]].
    by apply (Hrep 20%nat 2).
  - intros _ _ args k n [= <-]. rewrite lookup_insert_Some, lookup_singleton_Some. intros [[_ [=]]|[_ [_ [= <-]]]]. done.
Qed.

(** Canton accepts a transfer once per idempotency key and rejects key "2" transfers. *)
#[local] Instance example_tokens : TokenService (list (string * Z)) := {|
  ERC20 a := if bool_decide (a = usdc) then Ok tt else Err (NotSupportedError None "token");
  TransferFrom _ key _ _ amount calls :=
    (if bool_decide (calls = []) then Ok tt else Err (ForbiddenError None "insufficient balance"), (key, amount) :: calls);
|}.

Definition everybody (addr : string) : result bool := Ok true.

(** ** The life of two transactions *)

Definition sc_cfg : MinerConfig := mkMinerConfig 31337 21000 10.

Definition sc_sent1 : EvmTables := tables (SendRawTransaction 31337 everybody [1] (mkDB evm_empty [])).2.
Definition sc_sent2 : EvmTables := tables (SendRawTransaction 31337 everybody [2] (mkDB sc_sent1 [])).2.
Definition sc_completed : EvmTables := tables (CompleteMempoolEntry (replicate 32 1) (mkDB sc_sent2 [])).2.
Definition sc_settled : EvmTables := tables (FailMempoolEntry (replicate 32 2) "insufficient balance" (mkDB sc_completed [])).2.
Definition sc_mined : EvmTables := tables (mine sc_cfg 1700000000 (mkDB sc_settled [])).2.

Lemma sc_insert1 : sc_sent1 = tables (InsertMempoolEntry
  (entry_for (mkTransaction (Some usdc) 0 [0xa9; 5; 9; 0xbb] 0 (replicate 32 1)) alice usdc bob 1000) (mkDB evm_empty [])).2.
Proof. vm_compute. reflexivity. Qed.

Lemma sc_insert2 : sc_sent2 = tables (InsertMempoolEntry
  (entry_for (mkTransaction (Some usdc) 0 [0xa9; 5; 9; 0xbb] 0 (replicate 32 2)) alice usdc bob 1000) (mkDB sc_sent1 [])).2.
Proof. vm_compute. reflexivity. Qed.

Lemma sc_settled_reachable : rtc evm_step evm_empty sc_settled.
Proof.
  apply (rtc_l _ _ sc_sent1). { rewrite sc_insert1. eapply step_insert, surjective_pairing. }
  apply (rtc_l _ _ sc_sent2). { rewrite sc_insert2. eapply step_insert, surjective_pairing. }
  apply (rtc_l _ _ sc_completed). { eapply step_complete, surjective_pairing. }
  apply rtc_once. eapply step_fail, surjective_pairing.
Qed.

Lemma sc_mined_step : evm_step sc_settled sc_mined.
Proof. eapply step_mine, surjective_pairing. vm_compute. reflexivity. Qed.

Lemma evm_reachable_inv_witness : rtc evm_step evm_empty sc_mined /\ evm_inv sc_mined /\ latest_block sc_mined = 1.
Proof.
  assert (rtc evm_step evm_empty sc_mined) as Hr by (eapply rtc_r; [apply sc_settled_reachable|apply sc_mined_step]).
  split; [exact Hr|]. split; [exact (evm_reachable_inv _ Hr)|]. vm_compute. reflexivity.
Defined.

Lemma evm_lifecycle_witness : rtc evm_step sc_settled sc_mined /\ evm_later sc_settled sc_mined.
Proof.
  assert (rtc evm_step sc_settled sc_mined) as Hr by (apply rtc_once, sc_mined_step).
  split; [exact Hr|]. exact (evm_lifecycle _ _ sc_settled_reachable Hr).
Defined.

Lemma sc_settled_inv : evm_inv sc_settled.
Proof. exact (reachable_inv _ sc_settled_reachable). Qed.

Lemma sc_mine_ok : (mine sc_cfg 1700000000 (mkDB sc_settled [])).1 = Ok tt.
Proof. vm_compute. reflexivity. Qed.

Lemma mine_correct_witness :
  latest_block sc_settled + 1 < two64 /\
  exists row, claim_rows (m_maxTxsPerBlock sc_cfg) sc_settled !! 1%nat = Some row /\
    mempool sc_mined !! md_TxHash row = Some (set_md_status MempoolMined row).
Proof.
  assert (latest_block sc_settled + 1 < two64) as Hlt by (vm_compute; reflexivity). split; [exact Hlt|].
  pose proof (wp_run _ _ _ _ _ (mine_correct sc_cfg 1700000000 (mkDB sc_settled []) sc_settled_inv Hlt)
    (surjective_pairing _)) as Hmine. rewrite sc_mine_ok in Hmine. cbv zeta in Hmine. cbn [tables] in Hmine.
  assert (exists row, claim_rows (m_maxTxsPerBlock sc_cfg) sc_settled !! 1%nat = Some row) as [row Hrow]
    by (eexists; vm_compute; reflexivity).
  destruct Hmine as [[Hnil _]|(_ & _ & _ & Hrows & _)]; [by rewrite Hnil in Hrow|].
  exists row. split; [exact Hrow|]. exact (proj1 (Hrows 1%nat row Hrow)).
Defined.

Lemma receipt_of_mined_entry_witness :
  latest_block sc_settled + 1 < two64 /\
  exists row, claim_rows (m_maxTxsPerBlock sc_cfg) sc_settled !! 1%nat = Some row /\
    (GetTransactionReceipt (md_TxHash row) (mkDB sc_settled [])).1 = Ok None /\
    (GetTransactionReceipt (md_TxHash row) (mkDB sc_mined [])).1 =
      Ok (Some (receipt_of sc_cfg row (latest_block sc_settled + 1) (Z.of_nat 1)
        (logs_before (claimed_entry <$> claim_rows (m_maxTxsPerBlock sc_cfg) sc_settled) 1) (uint64 1700000000))).
Proof.
  assert (latest_block sc_settled + 1 < two64) as Hlt by (vm_compute; reflexivity). split; [exact Hlt|].
  assert (exists row, claim_rows (m_maxTxsPerBlock sc_cfg) sc_settled !! 1%nat = Some row) as [row Hrow]
    by (eexists; vm_compute; reflexivity).
  exists row. split; [exact Hrow|].
  apply (receipt_of_mined_entry sc_cfg 1700000000 sc_settled [] (mine sc_cfg 1700000000 (mkDB sc_settled [])).2 1 row
    sc_settled_inv Hlt); [|exact Hrow].
  rewrite <- sc_mine_ok. apply surjective_pairing.
Defined.

(** The receipt of the rejected transfer carries Canton's message and no log. *)
Example rejected_receipt :
  match (GetTransactionReceipt (replicate 32 2) (mkDB sc_mined [])).1 with
  | Ok (Some r) => rr_Status r = 0 /\ rr_Logs r = [] /\ rr_RevertReason r = "insufficient balance"%string
  | _ => False
  end.
Proof. vm_compute. done. Qed.

Lemma BlockNumber_confirms_witness :
  latest_block sc_settled + 12 < two64 /\
  wp (BlockNumber 100) (fun r d' => tables d' = sc_settled /\ forall n, r = Ok n -> 100 <= n /\
    forall h t, evm_transactions sc_settled !! h = Some t -> txd_BlockNumber t + confirmationBufferBlocks <= n)
    (mkDB sc_settled []).
Proof.
  assert (latest_block sc_settled + 12 < two64) as Hlt by (vm_compute; reflexivity). split; [exact Hlt|].
  exact (BlockNumber_confirms 100 (mkDB sc_settled []) sc_settled_inv Hlt).
Defined.

Lemma signed_transfer_reaches_canton_witness :
  (SendRawTransaction 31337 everybody [1] (mkDB evm_empty [])).1 = Ok (replicate 32 1) /\
  exists row, mempool sc_sent1 !! replicate 32 1 = Some row /\
    call (entry_of row MempoolPending) [] =
      (Answered (Ok tt), [(Hash_Hex (replicate 32 1), 1000)]).
Proof.
  assert ((SendRawTransaction 31337 everybody [1] (mkDB evm_empty [])).1 = Ok (replicate 32 1)) as Hok
    by (vm_compute; reflexivity). split; [exact Hok|].
  destruct (wp_run _ _ _ _ _ (signed_transfer_reaches_canton 31337 everybody [1] (mkDB evm_empty []))
    (surjective_pairing _) _ Hok) as (tx & from & contract & to & amount & row & Hv & Hh & Hrow & _ & Hcall);
    [reflexivity|].
  exists row. split; [exact Hrow|]. rewrite Hcall. destruct Hv as [Hd Hs _ Hto _ Hc _].
  injection Hd as <-. vm_compute in Hc. injection Hc as <- <-. reflexivity.
Defined.

(** ** A drain of both transfers *)

Definition sc_st : SubmitterState := mkSubmitterState (mkDB sc_sent2 []) ([] : list (string * Z)).
Definition sc_entries : list MempoolEntry := (fun d => entry_of d MempoolPending) <$> pending_batch 10 (pool sc_st).
Definition sc_entry (i : nat) : MempoolEntry :=
  nth i sc_entries (mkMempoolEntry 0 [] "" "" "" 0 [] [] MempoolPending "").
Definition sc_st1 : SubmitterState := (process (sc_entry 0) sc_st).2.
Definition sc_st2 : SubmitterState := (process (sc_entry 1) sc_st1).2.
Definition sc_calls : list (MempoolEntry * outcome) :=
  [(sc_entry 0, (call (sc_entry 0) (s_canton sc_st)).1); (sc_entry 1, (call (sc_entry 1) (s_canton sc_st1)).1)].

Lemma sc_entries_two : sc_entries = [sc_entry 0; sc_entry 1].
Proof. vm_compute. reflexivity. Qed.

Lemma sc_drain_steps : rtc (drain_step 0) (drain_start sc_entries sc_st) (mkDrain [] AtCheck false [] sc_calls sc_st2).
Proof.
  rewrite sc_entries_two. unfold drain_start. etrans; [eapply (drain_step_process 0 (sc_entry 0)), surjective_pairing|].
  eapply (drain_step_process 0 (sc_entry 1) [] [_]), surjective_pairing.
Qed.

Lemma sc_drain : drain 0 10 sc_st (Ok (mkDrain [] AtCheck false [] sc_calls sc_st2)) sc_st2.
Proof.
  apply (drain_done 0 10 sc_st sc_entries sc_st (mkDrain [] AtCheck false [] sc_calls sc_st2)); [|apply sc_drain_steps|by split; [|left]].
  vm_compute. reflexivity.
Qed.

Lemma drain_correct_witness :
  keyed (pool sc_st) /\ faults (s_db sc_st) = [] /\
  exists d, pool sc_st !! me_TxHash (sc_entry 0) = Some d /\
    pool sc_st2 !! me_TxHash (sc_entry 0) = Some (recorded (call (sc_entry 0) (s_canton sc_st)).1 d).
Proof.
  assert (keyed (pool sc_st)) as Hk.
  { refine (bool_decide_unpack (map_Forall (fun h d => md_TxHash d = h) (pool sc_st)) _). vm_compute. exact I. }
  split; [exact Hk|]. split; [reflexivity|].
  destruct (drain_correct 0 10 sc_st _ _ Hk sc_drain) as (_ & _ & _ & _ & _ & Hrec).
  destruct (Hrec eq_refl (sc_entry 0) (call (sc_entry 0) (s_canton sc_st)).1) as (d & Hd & _ & Hd'); [left|].
  exists d. split; [exact Hd|exact Hd'].
Defined.

Lemma drain_terminates_witness :
  exists n, nsteps (drain_step 0) n (drain_start sc_entries sc_st) (mkDrain [] AtCheck false [] sc_calls sc_st2) /\
    (n <= 4 * length sc_entries + 3)%nat.
Proof.
  destruct (proj1 (rtc_nsteps _ _) sc_drain_steps) as [n Hn]. exists n. split; [exact Hn|].
  exact (proj1 (drain_terminates 0 sc_entries sc_st n _ Hn)).
Defined.
