(* ===== verification/UserService.v ===== *)
(** * Registration: pkg/user/service/service.go

    Registration of Web3 users (custodial and external) and of Canton native
    users, the profile lookup, and the key resolver that the API server gives
    to the token client (pkg/app/api/server.go).  Registration composes the
    signature checks, the whitelist, the user store, the identity client and
    the topology cache. *)

From S2P Require Import Prelude AppErrors Effects GoStd GoText EthClient AuthMessages UserStore Whitelist Decimal DamlValues Streaming LedgerApi Keys TokenCodec LedgerClient Identity PreparedCache.
From Stdlib Require Import Ascii String.
Local Open Scope Z_scope.
Local Abbreviation length := Datatypes.length.

(** ** pkg/user/user.go *)

Record RegisterRequest := mkRegisterRequest {
  r_Signature : string;
  r_Message : string;
  r_CantonPartyID : string;
  r_CantonSignature : string;
  r_CantonPrivateKey : string;
  r_KeyMode : string;
  r_CantonPublicKey : string;
  r_RegistrationToken : string;
  r_TopologySignature : string;
}.

Record RegisterResponse := mkRegisterResponse {
  rr_Party : string;
  rr_Fingerprint : string;
  rr_MappingCID : string;
  rr_EVMAddress : string;
  rr_PrivateKey : string;
  rr_KeyMode : string;
}.

Record PrepareTopologyResponse := mkPrepareTopologyResponse {
  ptr_TopologyHash : string;
  ptr_PublicKeyFingerprint : string;
  ptr_RegistrationToken : string;
}.

Definition ErrUserAlreadyRegistered : error := ErrVar "service.ErrUserAlreadyRegistered" "user already registered".
Definition ErrNotWhitelisted : error := ErrVar "service.ErrNotWhitelisted" "address not whitelisted for registration".
Definition ErrPartyAlreadyAllocated : error := ErrVar "service.ErrPartyAlreadyAllocated" "canton party already allocated for this user".
Definition ErrInvalidCantonSignature : error := ErrVar "service.ErrInvalidCantonSignature" "invalid Canton signature".
Definition ErrPartyAlreadyRegistered : error := ErrVar "service.ErrPartyAlreadyRegistered" "canton party already registered".

Definition loginMessageMaxAge : Z := 24 * Hour.

(** ** Helpers *)

Definition generatePartyHint (evmAddress : string) : string :=
  if bool_decide (String.length evmAddress < 10)%nat then "user"
  else "user_" +:+ upto 8 (skip 2 evmAddress).

Definition isPartyAlreadyAllocatedError (e : error) : bool :=
  match status_FromError e with Some c => bool_decide (c = codes_AlreadyExists) | None => false end.

(** [None] for a key that is not 32 hexadecimal bytes. *)
Definition selectKeyToStore (userProvidedKey : string) (generatedKey : list Z) : option (list Z) :=
  if bool_decide (userProvidedKey = ""%string) then Some generatedKey
  else match hex_decode (TrimPrefix userProvidedKey "0x") with
       | Some decoded => if bool_decide (length decoded = 32%nat) then Some decoded else None
       | None => None
       end.

(** ** Entries of the log (zap) *)

Inductive Level := LDebug | LInfo | LError.

Inductive FieldValue :=
| FString (s : string)
| FInt (n : Z)
| FBool (b : bool)
| FDuration (d : Z)
| FError (e : error).

Definition Field : Type := string * FieldValue.

Record LogEntry := mkLogEntry { le_level : Level; le_message : string; le_fields : list Field }.

Definition Log : Type := list LogEntry.

(** ** The service *)

(** The state the service works on, and what it logs itself. *)
Record RegWorld := mkRegWorld {
  rw_users : UserDB;
  rw_history : history;
  rw_topology : TopologyCache;
  rw_log : Log;
}.
Definition set_rw_users (u : UserDB) (w : RegWorld) : RegWorld := mkRegWorld u (rw_history w) (rw_topology w) (rw_log w).
Definition set_rw_history (h : history) (w : RegWorld) : RegWorld := mkRegWorld (rw_users w) h (rw_topology w) (rw_log w).
Definition set_rw_topology (t : TopologyCache) (w : RegWorld) : RegWorld := mkRegWorld (rw_users w) (rw_history w) t (rw_log w).
Definition reg_logger (e : LogEntry) : M RegWorld unit :=
  modify (fun w => mkRegWorld (rw_users w) (rw_history w) (rw_topology w) (rw_log w ++ [e])).
Definition on_users {A} (c : M UserDB A) : M RegWorld A := zoom rw_users set_rw_users c.
Definition on_ledger {A} (c : M history A) : M RegWorld A := zoom rw_history set_rw_history c.
Definition on_topology {A} (c : M TopologyCache A) : M RegWorld A := zoom rw_topology set_rw_topology c.

(** Map the error of a computation. *)
Definition on_error {W A} (f : error -> error) (c : M W A) : M W A :=
  fun w => match c w with (Ok a, w') => (Ok a, w') | (Err e, w') => (Err (f e), w') end.
Definition as_bad_request (msg : string) (e : error) : error := BadRequestError (Some e) msg.

Section service.
Context `{!Env} `{!GoEthereum} `{!Secp256k1} `{!Curve} `{!AesGcm}.

Record registrationService := mkRegistrationService {
  sv_identity : Identity.Config;
  sv_masterKey : list Z;
  sv_skipCantonSignatureVerification : bool;
  sv_skipWhitelist : bool;
}.
Variable s : registrationService.

Definition compressedKeyToSPKI (hexKey : string) : result (list Z) :=
  match hex_decode (TrimPrefix hexKey "0x") with
  | None => Err (ErrWrap "invalid hex: " hex_error "")
  | Some raw =>
      if negb (bool_decide (length raw = 33%nat)) then
        Err (ErrNew ("expected 33-byte compressed public key, got " +:+ FormatInt (Z.of_nat (length raw)) +:+ " bytes"))
      else
        p ← wrap "invalid compressed secp256k1 public key: " (DecompressPubkey raw);
        mret (MarshalSPKIPublicKey p.1 p.2)
  end.

Definition checkWhitelist (evmAddress : string) : M RegWorld unit :=
  whitelisted ← wrapping "failed to check whitelist: " (on_users (gate (sv_skipWhitelist s) evmAddress));
  if whitelisted : bool then mret tt
  else fail (ForbiddenError (Some ErrNotWhitelisted) "address not whitelisted for registration").

Definition checkNotRegistered (evmAddress : string) : M RegWorld unit :=
  exists_ ← wrapping "failed to check user existence: " (on_users (UserExists evmAddress));
  if exists_ : bool then fail (ConflictError (Some ErrUserAlreadyRegistered) "user already registered") else mret tt.

(** GenerateCantonKeyPair and MasterKeyCipher.Encrypt draw from the system's
    randomness. *)
Definition generate_pair : M RegWorld CantonKeyPair :=
  drawn ← attempt (on_ledger (rpc GenerateKey));
  wrapping "key generation failed: " (lift (GenerateCantonKeyPair drawn)).

Definition encrypt_key (key : list Z) : M RegWorld string :=
  if negb (bool_decide (length (sv_masterKey s) = 32%nat)) || negb (bool_decide (length key = 32%nat)) then
    wrapping "failed to encrypt key: " (lift (encryptPrivateKey (Ok []) key (sv_masterKey s)))
  else
    drawn ← attempt (on_ledger (rpc RandomNonce));
    wrapping "failed to encrypt key: " (lift (encryptPrivateKey drawn key (sv_masterKey s))).

Definition create_mapping (party fingerprint evmAddress : string) : M RegWorld Identity.FingerprintMapping :=
  wrapping "fingerprint mapping creation failed: " (on_ledger (Identity.CreateFingerprintMapping (sv_identity s)
    (Identity.mkCreateFingerprintMappingRequest party fingerprint evmAddress))).

Definition allocation_error (pre : string) (e : error) : error :=
  if isPartyAlreadyAllocatedError e
  then ConflictError (Some ErrPartyAlreadyAllocated) "Canton party already allocated for this user"
  else ErrWrap pre e "".

Definition topology_error (e : error) : error :=
  if errors_Is e "service.ErrTopologyNotFound" "topology not found" then
    ResourceNotFoundError (Some e) "registration token not found or already used"
  else if errors_Is e "service.ErrTopologyExpired" "topology expired" then GoneError (Some e) "registration token expired"
  else ErrWrap "topology cache lookup: " e "".

(** GetAndDelete, which reads the clock when the token is known. *)
Definition take_topology (token : string) : M RegWorld PendingTopology :=
  w ← Effects.get;
  match tc_entries (rw_topology w) !! token with
  | None => fail ErrTopologyNotFound
  | Some _ => now ← on_ledger (ask Now); on_topology (topology_GetAndDelete now token)
  end.

Definition save_user (u : User) : M RegWorld unit :=
  wrapping "failed to save user: " (on_users (CreateUser u)).

(** ** Registration *)

Definition registerExternalWeb3User (evmAddress : string) (req : RegisterRequest) : M RegWorld RegisterResponse :=
  _ ← checkNotRegistered evmAddress;
  pending ← on_error topology_error (take_topology (r_RegistrationToken req));
  step2SPKI ← on_error (as_bad_request "invalid canton_public_key") (lift (compressedKeyToSPKI (r_CantonPublicKey req)));
  if negb (bool_decide (step2SPKI = pt_PublicKey pending)) then
    fail (BadRequestError None "canton_public_key does not match the key from prepare-topology")
  else match hex_decode (TrimPrefix (r_TopologySignature req) "0x") with
  | None => fail (BadRequestError (Some hex_error) "invalid topology_signature hex")
  | Some derSig =>
      partyResult ← on_error (allocation_error "external party allocation failed: ")
        (on_ledger (Identity.AllocateExternalPartyWithSignature (sv_identity s) (pt_Topology pending) derSig));
      let cantonPartyID := Identity.PartyID partyResult in
      let fingerprint := ComputeFingerprint evmAddress in
      mapping ← create_mapping cantonPartyID fingerprint evmAddress;
      _ ← save_user (NewExternal evmAddress cantonPartyID fingerprint (Identity.fm_ContractID mapping)
            (Identity.ep_Fingerprint (pt_Topology pending)));
      mret (mkRegisterResponse cantonPartyID fingerprint (Identity.fm_ContractID mapping) evmAddress "" KeyModeExternal)
  end.

(** The custodial registration of an address that passed the checks. *)
Definition register_custodial (evmAddress : string) : M RegWorld RegisterResponse :=
  _ ← checkNotRegistered evmAddress;
  let fingerprint := ComputeFingerprint evmAddress in
  cantonKeyPair ← generate_pair;
  let partyHint := generatePartyHint evmAddress in
  spkiKey ← wrapping "key encoding failed: " (lift (SPKIPublicKey cantonKeyPair));
  partyResult ← on_error (allocation_error "party allocation failed: ")
    (on_ledger (Identity.AllocateExternalParty (sv_identity s) partyHint spkiKey (key_SignDER cantonKeyPair)));
  let cantonPartyID := Identity.PartyID partyResult in
  mapping ← create_mapping cantonPartyID fingerprint evmAddress;
  encryptedPKey ← encrypt_key (kp_PrivateKey cantonKeyPair);
  now ← on_ledger (ask Now);
  _ ← save_user (New now evmAddress cantonPartyID fingerprint (Identity.fm_ContractID mapping) encryptedPKey);
  mret (mkRegisterResponse cantonPartyID fingerprint (Identity.fm_ContractID mapping) evmAddress "" "").

Definition web3_initiated (evmAddress keyMode : string) : LogEntry :=
  mkLogEntry LInfo "Web3 registration initiated" [("evm_address", FString evmAddress); ("key_mode", FString keyMode)]%string.

Definition RegisterWeb3User (req : RegisterRequest) : M RegWorld RegisterResponse :=
  recoveredAddr ← on_error (as_bad_request "invalid signature") (lift (VerifyEIP191Signature (r_Message req) (r_Signature req)));
  let evmAddress := NormalizeAddress (Address_Hex recoveredAddr) in
  _ ← reg_logger (web3_initiated evmAddress (r_KeyMode req));
  _ ← checkWhitelist evmAddress;
  if bool_decide (r_KeyMode req = KeyModeExternal) then registerExternalWeb3User evmAddress req
  else register_custodial evmAddress.

Definition verification_skipped (partyID : string) : LogEntry :=
  mkLogEntry LDebug "Canton signature verification skipped (development mode)" [("party_id", FString partyID)]%string.

(** The signature check of a Canton native user, when it is not skipped. *)
Definition check_canton_signature (req : RegisterRequest) : M RegWorld unit :=
  if sv_skipCantonSignatureVerification s then reg_logger (verification_skipped (r_CantonPartyID req))
  else if bool_decide (r_Message req = ""%string) then
    fail (BadRequestError None "message required for Canton signature verification")
  else
    valid ← on_error (as_bad_request "signature verification failed")
              (lift (VerifyCantonSignature (r_CantonPartyID req) (r_Message req) (r_CantonSignature req)));
    if valid : bool then mret tt else fail (UnAuthorizedError (Some ErrInvalidCantonSignature) "invalid Canton signature").

Definition RegisterCantonNativeUser (req : RegisterRequest) : M RegWorld RegisterResponse :=
  _ ← on_error (as_bad_request "invalid canton_party_id") (lift (ValidateCantonPartyID (r_CantonPartyID req)));
  _ ← check_canton_signature req;
  existing ← attempt (on_users (GetUserByCantonPartyID (r_CantonPartyID req)));
  _ ← match existing with
      | Ok _ => fail (ConflictError (Some ErrPartyAlreadyRegistered) "canton party already registered")
      | Err e => if is_ErrUserNotFound e then mret tt else fail (ErrWrap "failed to check user existence: " e "")
      end;
  fingerprint ← wrapping "failed to extract fingerprint: " (lift (ExtractFingerprintFromPartyID (r_CantonPartyID req)));
  evmKeyPair ← generate_pair;
  let evmAddress := DeriveEVMAddressFromPublicKey (kp_PublicKey evmKeyPair) in
  mapping ← create_mapping (r_CantonPartyID req) fingerprint evmAddress;
  match selectKeyToStore (r_CantonPrivateKey req) (kp_PrivateKey evmKeyPair) with
  | None => fail (BadRequestError None "canton_private_key must be a hex-encoded 32-byte key")
  | Some keyToStore =>
      encryptedPKey ← encrypt_key keyToStore;
      now ← on_ledger (ask Now);
      _ ← save_user (New now evmAddress (r_CantonPartyID req) fingerprint (Identity.fm_ContractID mapping) encryptedPKey);
      mret (mkRegisterResponse (r_CantonPartyID req) fingerprint (Identity.fm_ContractID mapping) evmAddress (PrivateKeyHex evmKeyPair) "")
  end.

Definition topology_prepared (evmAddress fingerprint : string) : LogEntry :=
  mkLogEntry LInfo "Prepared external registration topology"
    [("evm_address", FString evmAddress); ("fingerprint", FString fingerprint)]%string.

Definition PrepareExternalRegistration (req : RegisterRequest) : M RegWorld PrepareTopologyResponse :=
  recoveredAddr ← on_error (as_bad_request "invalid signature") (lift (VerifyEIP191Signature (r_Message req) (r_Signature req)));
  let evmAddress := NormalizeAddress (Address_Hex recoveredAddr) in
  _ ← checkNotRegistered evmAddress;
  _ ← checkWhitelist evmAddress;
  spkiKey ← on_error (as_bad_request "invalid canton_public_key") (lift (compressedKeyToSPKI (r_CantonPublicKey req)));
  topology ← wrapping "generate topology failed: "
    (on_ledger (Identity.GenerateExternalPartyTopology (sv_identity s) (generatePartyHint evmAddress) spkiKey));
  token ← on_ledger (ask NewUUID);
  now ← on_ledger (ask Now);
  _ ← modify (fun w => set_rw_topology (topology_Put now token topology spkiKey (rw_topology w)) w);
  _ ← reg_logger (topology_prepared evmAddress (Identity.ep_Fingerprint topology));
  mret (mkPrepareTopologyResponse ("0x" +:+ hex_encode (Identity.ep_MultiHash topology)) (Identity.ep_Fingerprint topology) token).

Definition GetUser (evmAddress msg sig : string) : M RegWorld User :=
  let evmAddress := NormalizeAddress evmAddress in
  recoveredAddr ← on_error (fun e => UnAuthorizedError (Some e) "invalid signature") (lift (VerifyEIP191Signature msg sig));
  if negb (EqualFold (Address_Hex recoveredAddr) evmAddress) then
    fail (UnAuthorizedError None "signature does not match address")
  else if negb (HasPrefix (ToLower msg) ("login:" +:+ ToLower evmAddress +:+ ":")) then
    fail (UnAuthorizedError None "message must be of form login:<address>:<timestamp>")
  else
    now ← on_ledger (ask Now);
    _ ← on_error (fun e => UnAuthorizedError (Some e) "message expired or malformed") (lift (ValidateTimedMessage now msg loginMessageMaxAge));
    on_error (fun e => if is_ErrUserNotFound e then ResourceNotFoundError (Some e) "user not found"
                       else ErrWrap "failed to get user: " e "") (on_users (GetUserByEVMAddress evmAddress)).

(** ** The key resolver of the API server *)

Definition keyResolver (partyID : string) : M UserDB Signer :=
  privKey ← wrapping "key store lookup: " (GetUserKeyByCantonPartyID (fun e => decryptPrivateKey e (sv_masterKey s)) partyID);
  match privKey with
  | [] => fail (ErrNew ("no signing key found for party " +:+ partyID))
  | _ => kp ← lift (CantonKeyPairFromPrivateKey privKey); mret (signer_of kp)
  end.
End service.
