(* ===== verification/UserServiceProofs.v ===== *)
(** * Registration: theorems

    What a successful registration stores, that a failed one stores nothing,
    and that the key of a custodial user resolves to the key the party was
    allocated with. *)

From S2P Require Import Prelude AppErrors Effects GoStd GoText EthClient AuthMessages UserStore Whitelist Decimal DamlValues Streaming LedgerApi Keys TokenCodec LedgerClient Identity PreparedCache UserService.
From Stdlib Require Import Ascii String.
Local Open Scope Z_scope.
Local Abbreviation length := Datatypes.length.

Lemma wp_on_error {W A} f (c : M W A) Q w :
  wp c (fun r w' => match r with Ok a => Q (Ok a) w' | Err e => Q (Err (f e)) w' end) w -> wp (on_error f c) Q w.
Proof. unfold wp, on_error. by destruct (c w) as [[a|e] w']. Qed.

Section registration.
Context `{!Env} `{!GoEthereum} `{!Secp256k1} `{!Curve} `{!AesGcm}.
Variable s : registrationService.

(** The tables are as they were. *)
Definition keeps (w w' : RegWorld) : Prop := tables (rw_users w') = tables (rw_users w).

Lemma wp_on_ledger {A} (c : M history A) w Q :
  (forall r h', c (rw_history w) = (r, h') -> Q r (set_rw_history h' w)) -> wp (on_ledger c) Q w.
Proof. intros HQ. unfold on_ledger. apply wp_zoom, wp_intro. intros r h' Hc. by apply HQ. Qed.

Lemma wp_checkNotRegistered a w Q :
  (forall w', keeps w w' -> rw_history w' = rw_history w -> rw_topology w' = rw_topology w -> existsb (has_address a) (t_users (tables (rw_users w))) = false -> Q (Ok tt) w') ->
  (forall e w', keeps w w' -> Q (Err e) w') ->
  wp (checkNotRegistered a) Q w.
Proof.
  intros Hok Herr. unfold checkNotRegistered, UserExists. apply wp_bind, wp_wrapping. unfold on_users. apply wp_zoom.
  apply wp_wrapping, wp_query; cbn [wrap].
  - intros fs. destruct (existsb _ _) eqn:Hx; [apply wp_fail, Herr; done|]. apply wp_ret, Hok; done.
  - intros m fs. apply Herr. done.
Qed.

(** Whether an address passes the whitelist. *)
Definition whitelisted (w : RegWorld) (a : string) : Prop :=
  sv_skipWhitelist s = true \/ (IsWhitelisted a (mkDB (tables (rw_users w)) [])).1 = Ok true.

Lemma wp_checkWhitelist a w Q :
  (forall w', keeps w w' -> rw_history w' = rw_history w -> rw_topology w' = rw_topology w -> whitelisted w a -> Q (Ok tt) w') ->
  (forall e w', keeps w w' -> Q (Err e) w') ->
  wp (checkWhitelist s a) Q w.
Proof.
  intros Hok Herr. unfold checkWhitelist, gate. apply wp_bind, wp_wrapping. unfold on_users. apply wp_zoom.
  destruct (sv_skipWhitelist s) eqn:Hsk.
  { apply wp_ret. cbn [wrap]. apply wp_ret, Hok; [by destruct w..|]. by left. }
  unfold IsWhitelisted. apply wp_wrapping, wp_query; cbn [wrap].
  - intros fs. destruct (existsb _ _) eqn:Hx.
    + apply wp_ret, Hok; [done..|]. right. unfold IsWhitelisted, wrapping. rewrite query_nofault. cbn. by rewrite Hx.
    + apply wp_fail, Herr. done.
  - intros m fs. by apply Herr.
Qed.

Lemma wp_save_user u w Q :
  (forall w', t_users (tables (rw_users w')) = t_users (tables (rw_users w)) ++ [toUserDao u] -> rw_history w' = rw_history w -> rw_topology w' = rw_topology w ->
     Q (Ok tt) w') ->
  (forall e w', keeps w w' -> Q (Err e) w') ->
  wp (save_user u) Q w.
Proof.
  intros Hok Herr. unfold save_user, CreateUser, exec_result. apply wp_wrapping. unfold on_users. apply wp_zoom.
  apply wp_wrapping, wp_bind, wp_exec; cbn [wrap].
  - intros fs. unfold insert_user. destruct (existsb _ _); cbn [fst snd].
    + apply wp_fail. cbn [wrap]. by apply Herr.
    + apply wp_ret. cbn [wrap]. by apply Hok.
  - intros m fs. cbn [wrap]. by apply Herr.
Qed.

(** The key pair of a drawn scalar. *)
Definition pair_of_scalar (d : Z) : CantonKeyPair := mkCantonKeyPair (CompressPoint (PublicPoint d)) (FromECDSA d).

(** A history extends another. *)
Definition extends (h h' : history) : Prop := exists new, h' = h ++ new.

Lemma extends_refl h : extends h h.
Proof. exists []. by rewrite app_nil_r. Qed.

Lemma extends_trans h1 h2 h3 : extends h1 h2 -> extends h2 h3 -> extends h1 h3.
Proof. intros (n1 & ->) (n2 & ->). exists (n1 ++ n2). by rewrite app_assoc. Qed.

Lemma extends_elem h h' x : extends h h' -> x ∈ h -> x ∈ h'.
Proof. intros (n & ->) Hx. apply elem_of_app. by left. Qed.

Lemma emits_extends {A} P (c : M history A) h : emits P c -> extends h (c h).2.
Proof. intros Hc. destruct (Hc h) as (n & -> & _). by exists n. Qed.

Lemma wp_create_mapping party fp a w Q :
  (forall m h', extends (rw_history w) h' -> Q (Ok m) (set_rw_history h' w)) ->
  (forall e h', Q (Err e) (set_rw_history h' w)) ->
  wp (create_mapping s party fp a) Q w.
Proof.
  intros Hok Herr. unfold create_mapping. apply wp_wrapping, wp_on_ledger. intros r h' Hc.
  assert (extends (rw_history w) h') as Hx.
  { apply (f_equal snd) in Hc. cbn in Hc. rewrite <- Hc. apply (emits_extends (fun _ => True)).
    unfold Identity.CreateFingerprintMapping. apply emits_bind; [apply emits_wrapping, emits_lift|]. intros _.
    apply emits_bind; [by apply emits_ask|]. intros id. apply emits_bind; [by apply emits_wrapping, emits_rpc|].
    intros resp. destruct (resp ≫= _); [apply emits_ret|apply emits_fail]. }
  destruct r as [m|e]; cbn [wrap]; auto.
Qed.

Lemma wp_encrypt_key key w Q :
  (forall nonce h' encrypted, extends (rw_history w) h' -> (exists h1, respond _ h1 RandomNonce = Ok nonce) ->
     encryptPrivateKey (Ok nonce) key (sv_masterKey s) = Ok encrypted -> Q (Ok encrypted) (set_rw_history h' w)) ->
  (forall e h', Q (Err e) (set_rw_history h' w)) ->
  wp (encrypt_key s key) Q w.
Proof.
  intros Hok Herr. assert (forall e, Q (Err e) w) as Herr' by (intros e; specialize (Herr e (rw_history w)); by destruct w).
  unfold encrypt_key. destruct (_ || _) eqn:Hlen.
  - apply wp_wrapping, wp_lift. unfold encryptPrivateKey.
    destruct (negb (bool_decide (length (sv_masterKey s) = 32%nat))); [apply Herr'|].
    destruct (negb (bool_decide (length key = 32%nat))); [apply Herr'|done].
  - apply wp_bind, wp_attempt, wp_on_ledger. unfold rpc. intros r h' [= <- <-]. apply wp_wrapping, wp_lift.
    destruct (respond _ (rw_history w) RandomNonce) as [nonce|e] eqn:Hn.
    + destruct (encryptPrivateKey (Ok nonce) key (sv_masterKey s)) as [enc|e] eqn:Henc; cbn [wrap]; [|apply Herr].
      apply (Hok nonce); [by eexists|eauto|done].
    + destruct (encryptPrivateKey (Err e) key (sv_masterKey s)) as [enc|e'] eqn:Henc; cbn [wrap]; [|apply Herr].
      exfalso. revert Henc. unfold encryptPrivateKey. by do 2 destruct (negb _).
Qed.

(** What a custodial registration stores: a row for the address with the
    party that the ledger allocated for the SPKI of a fresh key, and that key
    encrypted under the master key. *)
Definition custodial_row (evmAddress : string) (w : RegWorld) (resp : RegisterResponse) (w' : RegWorld) : Prop :=
  exists d h0 spki hint topo nonce encrypted now cid,
    respond _ h0 GenerateKey = Ok d /\ SPKIPublicKey (pair_of_scalar d) = Ok spki /\
    Exchange (GenerateTopologyRPC (Identity.DomainID (sv_identity s)) hint (Identity.spki_key spki)) (Ok topo) ∈ rw_history w' /\
    (exists sig, key_SignDER (pair_of_scalar d) (tr_MultiHash topo) = Ok sig /\
       Exchange (AllocateExternalPartyRPC (Identity.DomainID (sv_identity s)) (tr_TopologyTransactions topo)
                   [Identity.der_signature sig (tr_PublicKeyFingerprint topo)]) (Ok (rr_Party resp)) ∈ rw_history w') /\
    (exists h1, respond _ h1 RandomNonce = Ok nonce) /\ encryptPrivateKey (Ok nonce) (FromECDSA d) (sv_masterKey s) = Ok encrypted /\
    t_users (tables (rw_users w')) = t_users (tables (rw_users w)) ++
      [toUserDao (New now evmAddress (rr_Party resp) (ComputeFingerprint evmAddress) cid encrypted)] /\
    rr_EVMAddress resp = evmAddress.

Lemma wp_register_custodial a w :
  wp (register_custodial s a) (fun r w' => match r with
    | Ok resp => existsb (has_address a) (t_users (tables (rw_users w))) = false /\ custodial_row a w resp w'
    | Err _ => keeps w w'
    end) w.
Proof.
  unfold register_custodial. apply wp_bind, wp_checkNotRegistered; [|done]. intros w1 Hk1 Hh1 Ht1 Hfree.
  apply wp_bind. unfold generate_pair. apply wp_bind, wp_attempt, wp_on_ledger. unfold rpc. intros r h' [= <- <-].
  apply wp_wrapping, wp_lift. destruct (respond _ (rw_history w1) GenerateKey) as [d|e] eqn:Hd; cbn; [|done].
  apply wp_bind, wp_wrapping, wp_lift. fold (pair_of_scalar d).
  destruct (SPKIPublicKey (pair_of_scalar d)) as [spki|e] eqn:Hspki; cbn [wrap]; [|done].
  apply wp_bind, wp_on_error, wp_on_ledger. unfold Identity.AllocateExternalParty. cbn [rw_history set_rw_history].
  set (h1 := rw_history w1 ++ [Exchange GenerateKey (Ok d)]).
  intros r h' Hrun. unfold mbind at 1, M_bind at 1, wrapping at 1, rpc at 1 in Hrun.
  set (topoCall := GenerateTopologyRPC _ _ _) in Hrun. destruct (respond _ h1 topoCall) as [topo|e] eqn:Ht; cbn [wrap] in Hrun.
  2:{ simplify_eq. done. }
  unfold mbind at 1, M_bind at 1, wrapping at 1, lift at 1 in Hrun.
  destruct (key_SignDER (pair_of_scalar d) (tr_MultiHash topo)) as [sig|e] eqn:Hsig; cbn [wrap] in Hrun.
  2:{ simplify_eq. done. }
  unfold mbind at 1, M_bind at 1, wrapping at 1, rpc at 1 in Hrun.
  set (allocCall := AllocateExternalPartyRPC _ _ _) in Hrun.
  destruct (respond _ (h1 ++ [Exchange topoCall (Ok topo)]) allocCall) as [party|e] eqn:Hp; cbn [wrap] in Hrun.
  2:{ simplify_eq. done. }
  unfold mret, M_ret in Hrun. simplify_eq. cbn [Identity.PartyID].
  set (h2 := (h1 ++ [Exchange topoCall (Ok topo)]) ++ [Exchange allocCall (Ok party)]).
  apply wp_bind, wp_create_mapping; [|intros; exact Hk1]. cbn [rw_history set_rw_history]. intros m h3 Hx3.
  apply wp_bind, wp_encrypt_key; [|intros; exact Hk1]. intros nonce h4 encrypted Hx4 Hn Henc. cbn [rw_history set_rw_history] in Hx4.
  apply wp_bind, wp_on_ledger. unfold ask. intros r h5 [= <- <-].
  apply wp_bind, wp_save_user; [|intros e w' Hk; exact (eq_trans Hk Hk1)]. intros w' Hrow Hh' Ht'. apply wp_ret. cbn [rw_users rw_history set_rw_history] in *.
  assert (extends h2 (rw_history w')) as Hx.
  { rewrite Hh'. eapply extends_trans; [exact Hx3|]. eapply extends_trans; [exact Hx4|]. by eexists. }
  split; [done|]. exists d, (rw_history w1), spki, (generatePartyHint a), topo, nonce, encrypted. eexists _, _.
  split_and!; [done|done| | |done|done|by rewrite Hrow, Hk1|done].
  - eapply extends_elem; [exact Hx|]. unfold h2. set_solver.
  - exists sig. split; [done|]. eapply extends_elem; [exact Hx|]. unfold h2. set_solver.
Qed.

(** What an external registration stores: a row for the address with the
    party that the ledger allocated for the cached topology, and no key. *)
Definition external_row (evmAddress : string) (req : RegisterRequest) (w : RegWorld) (resp : RegisterResponse) (w' : RegWorld) : Prop :=
  exists pending cid sig,
    tc_entries (rw_topology w) !! r_RegistrationToken req = Some pending /\
    tc_entries (rw_topology w') = delete (r_RegistrationToken req) (tc_entries (rw_topology w)) /\
    compressedKeyToSPKI (r_CantonPublicKey req) = Ok (pt_PublicKey pending) /\
    hex_decode (TrimPrefix (r_TopologySignature req) "0x") = Some sig /\
    Exchange (AllocateExternalPartyRPC (Identity.DomainID (sv_identity s)) (Identity.ep_TopologyTransactions (pt_Topology pending))
                [Identity.der_signature sig (Identity.ep_Fingerprint (pt_Topology pending))]) (Ok (rr_Party resp)) ∈ rw_history w' /\
    t_users (tables (rw_users w')) = t_users (tables (rw_users w)) ++
      [toUserDao (NewExternal evmAddress (rr_Party resp) (ComputeFingerprint evmAddress) cid (Identity.ep_Fingerprint (pt_Topology pending)))] /\
    rr_EVMAddress resp = evmAddress.

Lemma wp_register_external a req w :
  wp (registerExternalWeb3User s a req) (fun r w' => match r with
    | Ok resp => existsb (has_address a) (t_users (tables (rw_users w))) = false /\ external_row a req w resp w'
    | Err _ => keeps w w'
    end) w.
Proof.
  unfold registerExternalWeb3User. apply wp_bind, wp_checkNotRegistered; [|done]. intros w1 Hk1 Hh1 Ht1 Hfree.
  apply wp_bind, wp_on_error. unfold take_topology. apply wp_bind, wp_get. rewrite Ht1.
  destruct (tc_entries (rw_topology w) !! r_RegistrationToken req) as [pending|] eqn:Hpend; [|apply wp_fail; exact Hk1].
  apply wp_bind, wp_on_ledger. unfold ask. intros r h1 [= <- <-]. unfold on_topology. apply wp_zoom.
  unfold wp at 1, topology_GetAndDelete, get_and_delete. cbn [rw_topology set_rw_history]. rewrite Ht1, Hpend.
  destruct (_ <? _); [exact Hk1|]. cbn [rw_topology set_rw_topology tc_entries tc_ttl].
  apply wp_bind, wp_on_error, wp_lift. destruct (compressedKeyToSPKI _) as [spki|e] eqn:Hspki; [|exact Hk1].
  case_bool_decide as Hkey; cbn [negb]; [|apply wp_fail; exact Hk1]. subst spki.
  destruct (hex_decode _) as [sig|] eqn:Hsig; [|apply wp_fail; exact Hk1].
  apply wp_bind, wp_on_error, wp_on_ledger. unfold Identity.AllocateExternalPartyWithSignature. intros r h2 Hrun.
  unfold mbind at 1, M_bind at 1, wrapping at 1, rpc at 1 in Hrun. set (allocCall := AllocateExternalPartyRPC _ _ _) in Hrun.
  destruct (respond _ _ allocCall) as [party|e]; cbn [wrap] in Hrun; simplify_eq; [|exact Hk1].
  unfold mret, M_ret in Hrun. simplify_eq. cbn [Identity.PartyID].
  apply wp_bind, wp_create_mapping; [|intros; exact Hk1]. cbn [rw_history set_rw_history]. intros m h3 Hx3.
  apply wp_bind, wp_save_user; [|intros e w' Hk; exact (eq_trans Hk Hk1)]. intros w' Hrow Hh' Ht'. apply wp_ret.
  cbn [rw_users rw_history rw_topology set_rw_history set_rw_topology] in *.
  split; [done|]. exists pending. eexists _, sig. split_and!; [done|by rewrite Ht'|done|done| |by rewrite Hrow, Hk1|done].
  rewrite Hh'. eapply extends_elem; [exact Hx3|]. set_solver.
Qed.

(** C16: registration of a Web3 user.  It stores exactly one user, and only
    when the request's signature recovers the address, the address passes the
    whitelist and no user is stored under it: a custodial user with the party
    the ledger allocated for a fresh key, which is stored encrypted, or an
    external user with the party allocated for the topology that was cached
    under the registration token, whose public key the request repeats, with
    the client's signature and no private key, the token being used up.  A
    failed registration leaves every table as it was. *)
Theorem RegisterWeb3User_correct req w :
  wp (RegisterWeb3User s req) (fun r w' => match r with
    | Ok resp => exists addr, VerifyEIP191Signature (r_Message req) (r_Signature req) = Ok addr /\
        let a := NormalizeAddress (Address_Hex addr) in
        whitelisted w a /\ existsb (has_address a) (t_users (tables (rw_users w))) = false /\
        if bool_decide (r_KeyMode req = KeyModeExternal) then external_row a req w resp w' else custodial_row a w resp w'
    | Err _ => keeps w w'
    end) w.
Proof.
  unfold RegisterWeb3User. apply wp_bind, wp_on_error, wp_lift.
  destruct (VerifyEIP191Signature _ _) as [addr|e]; [|done]. apply wp_bind, wp_modify.
  apply wp_bind, wp_checkWhitelist; [|done]. intros w1 Hk1 Hh1 Ht1 Hwl. cbn [rw_history rw_topology] in Hh1, Ht1.
  change (keeps w w1) in Hk1. change (whitelisted w (NormalizeAddress (Address_Hex addr))) in Hwl.
  unfold keeps in *. case_bool_decide as Hm.
  - eapply wp_mono; [apply wp_register_external|]. cbv beta. intros [resp|e] w' Hr; [|exact (eq_trans Hr Hk1)].
    exists addr. unfold external_row in *. rewrite Hk1, Ht1 in Hr. destruct Hr as [Hf Hr]. done.
  - eapply wp_mono; [apply wp_register_custodial|]. cbv beta. intros [resp|e] w' Hr; [|exact (eq_trans Hr Hk1)].
    exists addr. unfold custodial_row in *. rewrite Hk1 in Hr. destruct Hr as [Hf Hr]. done.
Qed.
End registration.

(** ** The key of a custodial user *)

Section resolver.
Context `{!Env} `{!GoEthereum} `{!Secp256k1} `{!Curve} `{!CurveLaws} `{!AesGcm} `{!AesGcmLaws}.
Variable s : registrationService.

(** The system's randomness: secret scalars of the curve, full-length nonces. *)
Hypothesis scalars : forall h d, respond _ h GenerateKey = Ok d -> 0 < d < curve_N.
Hypothesis nonces : forall h n, respond _ h RandomNonce = Ok n -> length n = NonceSize /\ Forall is_byte n.

Lemma find_app_r {A} (f : A -> bool) l x : List.find f l = None -> f x = true -> List.find f (l ++ [x]) = Some x.
Proof. induction l as [|y l IH]; cbn; [by intros _ ->|]. destruct (f y); [done|auto]. Qed.

(** C29: custody is complete.  After a custodial registration whose party has a
    name and is new to the store, the API server's key resolver returns, for that party, a
    signer with the very key pair that the party was allocated with: it holds
    the private key whose SPKI public key was in the topology request, through
    encryption under the master key, the database and decryption. *)
Theorem custodial_key_resolves a w resp w' :
  register_custodial s a w = (Ok resp, w') ->
  rr_Party resp <> ""%string ->
  List.find (column_is col_canton_party_id (rr_Party resp)) (t_users (tables (rw_users w))) = None ->
  exists d spki hint topo,
    SPKIPublicKey (pair_of_scalar d) = Ok spki /\
    Exchange (GenerateTopologyRPC (Identity.DomainID (sv_identity s)) hint (Identity.spki_key spki)) (Ok topo) ∈ rw_history w' /\
    keyResolver s (rr_Party resp) (mkDB (tables (rw_users w')) []) = (Ok (signer_of (pair_of_scalar d)), mkDB (tables (rw_users w')) []).
Proof.
  intros Hrun Hparty Hnew. pose proof (wp_run _ _ _ _ _ (wp_register_custodial s a w) Hrun) as [_ Hrow]. cbv beta in Hrow.
  destruct Hrow as (d & h0 & spki & hint & topo & nonce & encrypted & now & cid & Hd & Hspki & Htopo & _ & [h1 Hn] & Henc & Hrows & _).
  exists d, spki, hint, topo. split; [done|]. split; [done|].
  destruct (law_scalar d (scalars _ _ Hd)) as (Hto & Hlen & Hbytes). destruct (nonces _ _ Hn) as [Hnl Hnb].
  pose proof (decrypt_encrypt nonce (FromECDSA d) (sv_masterKey s) encrypted Hnl Hnb Hbytes Henc) as Hdec.
  assert (encrypted <> "") as Hne.
  { intros ->. revert Hdec. unfold decryptPrivateKey. destruct (negb _); [done|]. cbn. rewrite law_nonce. done. }
  unfold keyResolver, GetUserKeyByCantonPartyID, getUserKeyBy, wrapping, mbind, M_bind. rewrite query_nofault.
  rewrite Hrows. rewrite (find_app_r _ _ _ Hnew) by (cbn; unfold ptr_of; rewrite (bool_decide_eq_false_2 (rr_Party resp = ""%string)) by done; by apply bool_decide_eq_true_2). cbn [wrap].
  assert (d_CantonPrivateKeyEncrypted (toUserDao (New now a (rr_Party resp) (ComputeFingerprint a) cid encrypted)) = Some encrypted) as ->.
  { cbn. unfold ptr_of. by rewrite bool_decide_eq_false_2. }
  cbn [default]. rewrite bool_decide_eq_false_2 by done. unfold id. rewrite Hdec. cbn [mret M_ret wrap].
  assert (FromECDSA d <> []) as Hf by (intros Hf; by rewrite Hf in Hlen).
  assert (CantonKeyPairFromPrivateKey (FromECDSA d) = Ok (pair_of_scalar d)) as Hpair.
  { unfold CantonKeyPairFromPrivateKey. rewrite bool_decide_eq_true_2 by done. cbn [negb]. rewrite Hto. done. }
  unfold M_ret. destruct (FromECDSA d) as [|b bs] eqn:Hfe; [done|]. unfold lift. rewrite Hpair. done.
Qed.
End resolver.

(** ** A registration *)

Definition ex_mapping_event : CreatedEvent :=
  mkCreatedEvent "mapping-1" (Some (mkIdentifier "pkg" Identity.mapping_module Identity.mapping_entity)) [] [].

(** An environment that draws the scalar 7 and records the mapping. *)
Definition registering : Env := {| respond A h c :=
  match c in call B return B with
  | GenerateKey => Ok 7
  | SubmitAndWaitForTransaction _ => Ok (Some [Some ex_mapping_event])
  | c' => @respond (scripted (mkScript 100 1 (fun _ => []) (fun _ => Err (ErrNew "none")) (fun _ => ([], ""%string))
                                (fun _ => http_failed (ErrNew "refused")))) _ h c'
  end |}.
Definition ex_service : registrationService := mkRegistrationService (Identity.mkConfig "domain" "issuer" "user" "pkg") (replicate 32 1) false true.
Definition ex_reg_world : RegWorld := mkRegWorld (mkDB (mkUserTables [] ∅) []) [] (mkTopologyCache ∅ 600) [].

Lemma custodial_key_resolves_witness :
  let run := @register_custodial registering example_geth example_curve example_gcm ex_service "0xabc" ex_reg_world in
  exists d, (resp ← run.1; mret (rr_Party resp)) = Ok "party"%string /\
    (@keyResolver example_geth example_curve example_gcm ex_service "party" (mkDB (tables (rw_users run.2)) [])).1
      = Ok (@signer_of example_geth example_curve (@pair_of_scalar example_curve d)).
Proof.
  cbv zeta. set (run := register_custodial _ _ _).
  assert ((resp ← run.1; mret (rr_Party resp)) = Ok "party"%string) as Hp by (vm_compute; reflexivity).
  destruct run as [[resp|e] w'] eqn:Hrun; [|discriminate Hp]. injection Hp as Hp.
  destruct (@custodial_key_resolves registering example_geth example_curve example_curve_laws example_gcm example_gcm_laws ex_service)
    with (a := "0xabc"%string) (w := ex_reg_world) (resp := resp) (w' := w') as (d & _ & _ & _ & _ & _ & Hres).
  - intros h d [= <-]. split; reflexivity.
  - intros h n [= <-]. split; [reflexivity|]. by repeat constructor.
  - exact Hrun.
  - by rewrite Hp.
  - reflexivity.
  - exists d. split; [by cbn; rewrite Hp|]. rewrite <- Hp. cbn [snd]. by rewrite Hres.
Defined.
