(* ===== verification/TransferService.v ===== *)
(** * The transfer service: pkg/transfer/service.go

    The handlers behind the transfer API: prepare and execute for external
    wallets, the custodial transfer, the acceptance and withdrawal of offers,
    and the listings.  The service composes the user store, the token client,
    the cache of prepared transfers and the indexer, which it knows through the
    IndexerReader interface. *)

From S2P Require Import Prelude AppErrors Effects GoStd GoText EthClient UserStore Decimal DamlValues Streaming LedgerApi TokenCodec LedgerClient Identity TokenRegistry TokenClient PreparedCache Erc20Service IndexerStore.
From Stdlib Require Import Ascii String.
Local Open Scope Z_scope.
Local Abbreviation length := Datatypes.length.

(** ** types.go *)

Record PrepareRequest := mkPrepareRequest {
  q_To : string;
  q_ToPartyID : string;
  q_Amount : string;
  q_Token : string;
  q_ValiditySeconds : Z;
}.

Record CustodialTransferRequest := mkCustodialTransferRequest {
  cq_ToPartyID : string;
  cq_Amount : string;
  cq_Token : string;
  cq_ValiditySeconds : Z;
}.

Record PrepareResponse := mkPrepareResponse {
  rp_TransferID : string;
  rp_TransactionHash : string;
  rp_PartyID : string;
  rp_ExpiresAt : string;
}.

Record ExecuteRequest := mkExecuteRequest { x_TransferID : string; x_Signature : string; x_SignedBy : string }.

Record ExecuteResponse := mkExecuteResponse { rx_Status : string }.

(** The token metadata that the listings add. *)
Record instrumentMeta := mkInstrumentMeta {
  im_contractAddress : string;
  im_name : string;
  im_symbol : string;
  im_decimals : Z;
}.

(** The rows of the listings, with the metadata of the instrument when its
    token is configured.  Times are texts; the expiry of an offer that never
    expires is empty. *)
Record IncomingTransfer := mkIncomingTransfer {
  it_ContractID : string;
  it_SenderPartyID : string;
  it_ReceiverPartyID : string;
  it_Amount : string;
  it_InstrumentAdmin : string;
  it_InstrumentID : string;
  it_Meta : option instrumentMeta;
}.

Record OutgoingTransfer := mkOutgoingTransfer {
  ot_ContractID : string;
  ot_SenderPartyID : string;
  ot_ReceiverPartyID : string;
  ot_Amount : string;
  ot_InstrumentAdmin : string;
  ot_InstrumentID : string;
  ot_Status : string;
  ot_CreatedAt : string;
  ot_ExpiresAt : string;
  ot_Meta : option instrumentMeta;
}.

Record CompletedTransfer := mkCompletedTransfer {
  ct_ContractID : string;
  ct_Kind : string;
  ct_Status : string;
  ct_FromPartyID : string;
  ct_ToPartyID : string;
  ct_Amount : string;
  ct_InstrumentAdmin : string;
  ct_InstrumentID : string;
  ct_Timestamp : string;
  ct_TxID : string;
  ct_Meta : option instrumentMeta;
}.

(** IncomingTransfersList, OutgoingTransfersList and CompletedTransfersList. *)
Record TransfersList (A : Type) := mkTransfersList {
  tl_Items : list A;
  tl_Total : Z;
  tl_Page : Z;
  tl_Limit : Z;
  tl_HasMore : bool;
}.
Arguments mkTransfersList {A} _ _ _ _ _.
Arguments tl_Items {A} _.
Arguments tl_Total {A} _.
Arguments tl_Page {A} _.
Arguments tl_Limit {A} _.
Arguments tl_HasMore {A} _.

(** ** Collaborators *)

(** What the service asks of the indexer: a page of a party's transfers with
    the total, and one transfer. *)
Class IndexerReader := {
  GetTransfers : string -> TransferQuery -> Pagination -> M history (list Transfer * Z);
  GetTransfer : string -> M history (option Transfer);
}.

(** Reading the indexer asks nothing of the ledger. *)
Class IndexerReaderLaws `{!IndexerReader} : Prop := {
  reader_transfers : forall p q pg, emits read_only (GetTransfers p q pg);
  reader_transfer : forall cid, emits read_only (GetTransfer cid);
}.

(** The state the handlers work on. *)
Record World := mkWorld {
  w_users : UserDB;
  w_history : history;
  w_cache : PreparedTransferCache;
}.
Definition set_users_db (u : UserDB) (w : World) : World := mkWorld u (w_history w) (w_cache w).
Definition set_ledger (h : history) (w : World) : World := mkWorld (w_users w) h (w_cache w).
Definition set_cache (c : PreparedTransferCache) (w : World) : World := mkWorld (w_users w) (w_history w) c.

Definition with_users {A} (c : M UserDB A) : M World A := zoom w_users set_users_db c.
Definition with_ledger {A} (c : M history A) : M World A := zoom w_history set_ledger c.
Definition with_cache {A} (c : M PreparedTransferCache A) : M World A := zoom w_cache set_cache c.

Record TransferService := mkTransferService {
  ts_client : Client;
  ts_partyRegistry : bool;
  ts_allowedTokenSymbols : gset string;
  ts_externalTokenSymbols : gset string;
  ts_tokensByInstrument : gmap string instrumentMeta;
}.

(** The constructor's loop over the supported tokens: a later token of the
    same instrument replaces an earlier one. *)
Definition NewTransferService `{!GoEthereum} (client : Client) (tokens : list (Address * ERC20Token)) (partyRegistry : bool) : TransferService :=
  foldl (fun s kv =>
    let '(addr, tkn) := kv in
    mkTransferService client partyRegistry
      ({[et_Symbol tkn]} ∪ ts_allowedTokenSymbols s)
      (if et_ExternalTransfer tkn then {[et_Symbol tkn]} ∪ ts_externalTokenSymbols s else ts_externalTokenSymbols s)
      (<[et_InstrumentID tkn := mkInstrumentMeta (Address_Hex addr) (et_Name tkn) (et_Symbol tkn) (et_Decimals tkn)]>
         (ts_tokensByInstrument s)))
    (mkTransferService client partyRegistry ∅ ∅ ∅) tokens.

(** ** Pure helpers *)

Definition maxValiditySeconds : Z := Z.quot max_int64 Second.

Definition validityDuration (seconds : Z) : result Z :=
  if seconds <=? 0 then Err (BadRequestError None "validity_seconds must be a positive number")
  else if maxValiditySeconds <? seconds then Err (BadRequestError None "validity_seconds is too large")
  else Ok (int64 (seconds * Second)).

Definition validatePartyID (partyID : string) : result unit :=
  match Cut partyID "::" with
  | None => Err (ErrNew "party id must be of the form <hint>::<fingerprint>")
  | Some (hint, fingerprint) =>
      if bool_decide (hint = ""%string) || bool_decide (fingerprint = ""%string)
      then Err (ErrNew "party id must be of the form <hint>::<fingerprint>")
      else match hex_decode fingerprint with
           | None => Err (ErrNew "party id fingerprint must be hex-encoded")
           | Some _ => Ok tt
           end
  end.

Definition is_insufficient (e : error) : bool := errors_Is e "token.ErrInsufficientBalance" "insufficient balance".

Definition mapTransferErr (e : error) (op : string) : error :=
  if is_insufficient e then BadRequestError (Some e) "insufficient balance"
  else
    let e := ErrWrap (op +:+ ": ") e "" in
    match status_FromError e with
    | Some (codes_InvalidArgument | codes_NotFound | codes_FailedPrecondition) =>
        BadRequestError (Some e) "transfer rejected by the ledger: verify the recipient party id and amount"
    | Some codes_Aborted => ConflictError (Some e) "transfer conflicted with a concurrent operation, try again"
    | Some (codes_Unavailable | codes_DeadlineExceeded) =>
        DependencyError (Some e) "ledger temporarily unavailable, try again later"
    | _ => e
    end.

Definition mapWithdrawErr (e : error) : error :=
  match status_FromError e with
  | Some (codes_NotFound | codes_FailedPrecondition | codes_Aborted | codes_AlreadyExists) =>
      ConflictError (Some e) "offer is no longer claimable (it may have been accepted or already withdrawn)"
  | _ => ErrWrap "withdraw transfer: " e ""
  end.

(** The ellipsis is three bytes of UTF-8. *)
Definition ellipsis : string := String (ascii_of_nat 226) (String (ascii_of_nat 128) (String (ascii_of_nat 166) EmptyString)).
Definition truncatePartyID (partyID : string) : string :=
  if bool_decide (String.length partyID <= 17)%nat then partyID
  else upto 8 partyID +:+ ellipsis +:+ skip (String.length partyID - 8) partyID.

(** [errors.Is(err, user.ErrUserNotFound)] as an authentication error, and any
    other failure of a lookup with its context. *)
Definition lookup_error (as_unauthorized : error -> error) (pre : string) (e : error) : error :=
  if is_ErrUserNotFound e then as_unauthorized e else ErrWrap pre e "".
Definition unauthorized (e : error) : error := UnAuthorizedError (Some e) "user not found".
Definition bad_request_user (e : error) : error := BadRequestError (Some e) "user not found".

(** Keep the value of a computation or map its error. *)
Definition mapping_error {W A} (f : error -> error) (c : M W A) : M W A :=
  fun w => match c w with (Ok a, w') => (Ok a, w') | (Err e, w') => (Err (f e), w') end.

Section handlers.
Context `{!Env} `{!DecimalLib} `{!IndexerReader}.
Variable s : TransferService.

(** ** Recipients *)

Definition checkRecipientParty (tokenSymbol toPartyID : string) : M World unit :=
  r ← attempt (with_users (GetUserByCantonPartyID toPartyID));
  match r with
  | Ok _ => mret tt
  | Err e =>
      if negb (is_ErrUserNotFound e) then fail (ErrWrap "lookup recipient party: " e "")
      else if negb (bool_decide (tokenSymbol ∈ ts_externalTokenSymbols s)) then
        fail (BadRequestError None ("recipient party is not registered with this service and " +:+ tokenSymbol +:+
                                    " does not support transfers to external parties"))
      else if negb (ts_partyRegistry s) then fail (DependencyError None "could not verify recipient party id")
      else
        known ← mapping_error (fun e => DependencyError (Some e) "could not verify recipient party id")
                  (with_ledger (Identity.PartyExists toPartyID));
        if known : bool then mret tt
        else fail (BadRequestError None "recipient party id is not known on the network")
  end.

(** The sender of a request, by EVM address. *)
Definition lookup_user (as_missing : error -> error) (pre evmAddr : string) : M World User :=
  mapping_error (lookup_error as_missing pre) (with_users (GetUserByEVMAddress evmAddr)).

Definition require_key_mode (u : User) (mode message : string) : M World unit :=
  if bool_decide (u_KeyMode u = mode) then mret tt else fail (BadRequestError None message).

(** The party a prepare request names: a registered user's, or any party id. *)
Definition resolve_recipient (req : PrepareRequest) : M World string :=
  if bool_decide (q_ToPartyID req = ""%string) then
    recipient ← mapping_error (fun e => if is_ErrUserNotFound e then BadRequestError (Some e) "recipient not found"
                                        else ErrWrap "lookup recipient: " e "")
                  (with_users (GetUserByEVMAddress (q_To req)));
    mret (u_CantonPartyID recipient)
  else
    _ ← mapping_error (fun e => BadRequestError (Some e) "invalid recipient party id") (lift (validatePartyID (q_ToPartyID req)));
    mret (q_ToPartyID req).

(** ** Prepare and execute *)

(** Put the prepared transfer in the cache and answer. *)
Definition cache_prepared (pt : PreparedTransfer) : M World PrepareResponse :=
  w ← Effects.get;
  if is_full (w_cache w) then fail (GeneralError (Some (ErrWrap "too many pending transfers: " ErrCacheFull "")))
  else
    now ← with_ledger (ask Now);
    pt ← with_cache (Put now pt);
    mret (mkPrepareResponse (p_TransferID pt) ("0x" +:+ hex_encode (p_TransactionHash pt)) (p_PartyID pt) (RFC3339 (p_ExpiresAt pt))).

Definition Prepare (senderEVMAddr : string) (req : PrepareRequest) : M World PrepareResponse :=
  if negb (bool_decide (q_Token req ∈ ts_allowedTokenSymbols s)) then fail (BadRequestError None "unsupported token")
  else
    validity ← lift (validityDuration (q_ValiditySeconds req));
    sender ← lookup_user unauthorized "lookup sender: " senderEVMAddr;
    _ ← require_key_mode sender KeyModeExternal "prepare/execute API requires key_mode=external";
    if Bool.eqb (bool_decide (q_To req = ""%string)) (bool_decide (q_ToPartyID req = ""%string)) then
      fail (BadRequestError None "exactly one of to or to_party_id is required")
    else
      toPartyID ← resolve_recipient req;
      if bool_decide (toPartyID = u_CantonPartyID sender) then fail (BadRequestError None "cannot transfer to self")
      else
        _ ← (if bool_decide (q_ToPartyID req = ""%string) then mret tt else checkRecipientParty (q_Token req) toPartyID);
        pt ← mapping_error (fun e => mapTransferErr e "prepare transfer")
               (with_ledger (PrepareTransfer (ts_client s)
                 (mkPrepareTransferRequest (u_CantonPartyID sender) toPartyID (q_Amount req) (q_Token req) validity)));
        cache_prepared pt.

Definition cache_error (e : error) : error :=
  if errors_Is e "transfer.ErrTransferNotFound" "transfer not found" then ResourceNotFoundError (Some e) "transfer not found"
  else if errors_Is e "transfer.ErrTransferExpired" "transfer expired" then GoneError (Some e) "transfer expired"
  else ErrWrap "retrieve prepared transfer: " e "".

Definition execute_error (e : error) : error :=
  match status_FromError e with
  | Some (codes_InvalidArgument | codes_PermissionDenied) => ForbiddenError (Some e) "signature verification failed"
  | _ => ErrWrap "execute transfer: " e ""
  end.

(** GetAndDelete, which reads the clock when the id is known. *)
Definition take_prepared (id : string) : M World PreparedTransfer :=
  w ← Effects.get;
  match pc_entries (w_cache w) !! id with
  | None => fail ErrTransferNotFound
  | Some _ => now ← with_ledger (ask Now); with_cache (GetAndDelete now id)
  end.

Definition Execute (senderEVMAddr : string) (req : ExecuteRequest) : M World ExecuteResponse :=
  sender ← lookup_user unauthorized "lookup sender: " senderEVMAddr;
  if negb (bool_decide (u_CantonPublicKeyFingerprint sender = x_SignedBy req)) then
    fail (ForbiddenError None "signature fingerprint does not match registered key")
  else
    pt ← mapping_error cache_error (take_prepared (x_TransferID req));
    match hex_decode (TrimPrefix (x_Signature req) "0x") with
    | None => fail (BadRequestError (Some (ErrNew "encoding/hex: invalid input")) "invalid DER signature")
    | Some sigBytes =>
        _ ← mapping_error execute_error (with_ledger (ExecuteTransfer (ts_client s)
             (mkExecuteTransferRequest (Some pt) sigBytes (x_SignedBy req))));
        mret (mkExecuteResponse "completed")
    end.

Definition ExecuteAccept (evmAddr : string) (req : ExecuteRequest) : M World ExecuteResponse := Execute evmAddr req.

(** ** Custodial transfers *)

Definition SendCustodial (senderEVMAddr : string) (req : CustodialTransferRequest) : M World ExecuteResponse :=
  if negb (bool_decide (cq_Token req ∈ ts_allowedTokenSymbols s)) then fail (BadRequestError None "unsupported token")
  else
    validity ← lift (validityDuration (cq_ValiditySeconds req));
    _ ← mapping_error (fun e => BadRequestError (Some e) "invalid recipient party id") (lift (validatePartyID (cq_ToPartyID req)));
    sender ← lookup_user unauthorized "lookup sender: " senderEVMAddr;
    _ ← require_key_mode sender KeyModeCustodial "this endpoint requires key_mode=custodial";
    if bool_decide (cq_ToPartyID req = u_CantonPartyID sender) then fail (BadRequestError None "cannot transfer to self")
    else
      _ ← checkRecipientParty (cq_Token req) (cq_ToPartyID req);
      key ← with_ledger (ask NewUUID);
      _ ← mapping_error (fun e => mapTransferErr e "transfer")
           (with_ledger (TransferByPartyID (ts_client s) key (u_CantonPartyID sender) (cq_ToPartyID req) (cq_Amount req) (cq_Token req) validity));
      mret (mkExecuteResponse "submitted").

(** ** Listings *)

(** [int64(p.Page*p.Limit) < total] *)
Definition has_more (p : Pagination) (total : Z) : bool := int64 (Page p * Limit p) <? total.

(** Times are kept in microseconds by the indexer. *)
Definition micros_RFC3339 (t : Z) : string := RFC3339 (t * 1000).

Definition incoming_item (t : Transfer) : IncomingTransfer :=
  mkIncomingTransfer (tr_ContractID t) (truncatePartyID (tr_FromPartyID t)) (truncatePartyID (tr_ToPartyID t)) (tr_Amount t)
    (tr_InstrumentAdmin t) (tr_InstrumentID t) (ts_tokensByInstrument s !! tr_InstrumentID t).

Definition outgoing_item (t : Transfer) : OutgoingTransfer :=
  mkOutgoingTransfer (tr_ContractID t) (truncatePartyID (tr_FromPartyID t)) (truncatePartyID (tr_ToPartyID t)) (tr_Amount t)
    (tr_InstrumentAdmin t) (tr_InstrumentID t) (tr_Status t) (micros_RFC3339 (tr_CreatedAt t))
    (match tr_ExpiresAt t with Some e => micros_RFC3339 e | None => "" end) (ts_tokensByInstrument s !! tr_InstrumentID t).

Definition completed_item (t : Transfer) : CompletedTransfer :=
  mkCompletedTransfer (tr_ContractID t) (tr_Kind t) (tr_Status t) (truncatePartyID (tr_FromPartyID t)) (truncatePartyID (tr_ToPartyID t))
    (tr_Amount t) (tr_InstrumentAdmin t) (tr_InstrumentID t) (micros_RFC3339 (tr_CreatedAt t)) (tr_TxID t)
    (ts_tokensByInstrument s !! tr_InstrumentID t).

(** A page of the party's transfers. *)
Definition transfers_page {A} (u : User) (q : TransferQuery) (p : Pagination) (pre : string) (item : Transfer -> option A)
    : M World (TransfersList A) :=
  result ← mapping_error (fun e => ErrWrap pre e "") (with_ledger (GetTransfers (u_CantonPartyID u) q p));
  mret (mkTransfersList (omap item result.1) result.2 (Page p) (Limit p) (has_more p result.2)).

Definition ListIncoming (evmAddr : string) (p : Pagination) : M World (TransfersList IncomingTransfer) :=
  u ← lookup_user bad_request_user "lookup user: " evmAddr;
  _ ← require_key_mode u KeyModeExternal "incoming transfer API requires key_mode=external";
  transfers_page u (mkTransferQuery TransferRoleReceiver TransferStatusPending) p "list pending transfers: "
    (fun t => if bool_decide (tr_Status t = TransferStatusPending) then Some (incoming_item t) else None).

Definition ListOutgoing (evmAddr status : string) (p : Pagination) : M World (TransfersList OutgoingTransfer) :=
  u ← lookup_user bad_request_user "lookup user: " evmAddr;
  transfers_page u (mkTransferQuery TransferRoleSender status) p "list outgoing transfers: " (fun t => Some (outgoing_item t)).

Definition ListCompleted (evmAddr : string) (p : Pagination) : M World (TransfersList CompletedTransfer) :=
  u ← lookup_user bad_request_user "lookup user: " evmAddr;
  transfers_page u (mkTransferQuery TransferRoleAny TransferStatusCompleted) p "list completed transfers: "
    (fun t => Some (completed_item t)).

(** ** Offers *)

Definition PrepareAccept (evmAddr contractID instrumentAdmin : string) : M World PrepareResponse :=
  u ← lookup_user unauthorized "lookup user: " evmAddr;
  _ ← require_key_mode u KeyModeExternal "incoming transfer API requires key_mode=external";
  pt ← mapping_error (fun e => ErrWrap "prepare accept: " e "")
         (with_ledger (PrepareAcceptTransfer (ts_client s) (u_CantonPartyID u) contractID instrumentAdmin));
  cache_prepared pt.

Definition not_claimable : error := ResourceNotFoundError None "no claimable offer found for this contract id".

Definition claimableTransfer (callerParty contractID : string) : M World Transfer :=
  r ← with_ledger (GetTransfer contractID);
  match r with
  | None => fail not_claimable
  | Some t =>
      if negb (bool_decide (tr_FromPartyID t = callerParty)) then fail not_claimable
      else if negb (bool_decide (tr_Kind t = TransferKindOffer)) then
        fail (BadRequestError None "only offer-based transfers can be claimed back")
      else if bool_decide (tr_Status t = TransferStatusCompleted) then
        fail (BadRequestError None "transfer already completed; nothing to claim back")
      else if bool_decide (tr_Status t = TransferStatusCanceled) then
        fail (BadRequestError None "transfer already canceled; nothing to claim back")
      else if bool_decide (tr_Status t = TransferStatusRejected) then
        fail (BadRequestError None "transfer was rejected by the receiver; nothing to claim back")
      else mret t
  end.

Definition PrepareWithdraw (evmAddr contractID : string) : M World PrepareResponse :=
  u ← lookup_user unauthorized "lookup user: " evmAddr;
  _ ← require_key_mode u KeyModeExternal "withdraw prepare/execute API requires key_mode=external";
  offer ← claimableTransfer (u_CantonPartyID u) contractID;
  pt ← mapping_error mapWithdrawErr
         (with_ledger (PrepareWithdrawTransfer (ts_client s) (u_CantonPartyID u) contractID (tr_InstrumentAdmin offer)));
  cache_prepared pt.

Definition WithdrawCustodial (evmAddr contractID : string) : M World ExecuteResponse :=
  u ← lookup_user unauthorized "lookup user: " evmAddr;
  _ ← require_key_mode u KeyModeCustodial "this endpoint requires key_mode=custodial";
  offer ← claimableTransfer (u_CantonPartyID u) contractID;
  _ ← mapping_error mapWithdrawErr
       (with_ledger (WithdrawTransferInstruction (ts_client s) (u_CantonPartyID u) contractID (tr_InstrumentAdmin offer)));
  mret (mkExecuteResponse "submitted").
End handlers.
