(* ===== verification/TransferServiceProofs.v ===== *)
(** * The transfer service: theorems

    Which checks precede a transfer, what a handler asks of the ledger, and
    what becomes of a prepared transfer, for every environment, every state of
    the user database and every failing statement. *)

From S2P Require Import Prelude AppErrors Effects GoStd GoText EthClient UserStore Decimal DamlValues Streaming LedgerApi TokenCodec LedgerClient Identity TokenRegistry TokenClient TokenClientProofs PreparedCache IndexerStore TransferService.
From Stdlib Require Import Ascii String.
Local Open Scope Z_scope.
Local Abbreviation length := Datatypes.length.

(** ** Validity windows *)

(** validity_seconds is converted exactly or rejected: the conversion to
    nanoseconds never wraps around, so an accepted window is positive, at most
    the largest duration, and lasts the requested number of seconds. *)
Lemma validityDuration_spec seconds :
  match validityDuration seconds with
  | Ok d => d = seconds * Second /\ 0 < d <= max_int64
  | Err e => seconds <= 0 \/ max_int64 < seconds * Second
  end.
Proof.
  unfold validityDuration. assert (maxValiditySeconds = 9223372036) as E by done.
  assert (Second = 1000000000) as Es by done. assert (max_int64 = 9223372036854775807) as Em by done.
  destruct (Z.leb_spec seconds 0); [by left|]. rewrite E. destruct (Z.ltb_spec 9223372036 seconds); [right; lia|].
  rewrite int64_id by (unfold is_int64, min_int64, max_int64; lia). lia.
Qed.

(** ** Lookups *)

Section service.
Context `{!Env} `{!DecimalLib} `{!IndexerReader} `{!IndexerReaderLaws}.
Variable s : TransferService.

(** The stored user with an EVM address. *)
Definition stored_user (w : World) (evmAddr : string) (u : User) : Prop :=
  exists dao, List.find (column_is col_evm_address evmAddr) (t_users (tables (w_users w))) = Some dao /\ u = toUser dao.

(** Two worlds with the same tables, cache and history. *)
Definition same_world (w w' : World) : Prop :=
  tables (w_users w') = tables (w_users w) /\ w_cache w' = w_cache w /\ w_history w' = w_history w.

Lemma wp_mapping_error {W A} f (c : M W A) Q w :
  wp c (fun r w' => match r with Ok a => Q (Ok a) w' | Err e => Q (Err (f e)) w' end) w -> wp (mapping_error f c) Q w.
Proof. unfold wp, mapping_error. by destruct (c w) as [[a|e] w']. Qed.

Lemma wp_lookup_user f pre evmAddr w Q :
  (forall u w', stored_user w evmAddr u -> same_world w w' -> Q (Ok u) w') ->
  (forall e w', same_world w w' -> Q (Err e) w') ->
  wp (lookup_user f pre evmAddr) Q w.
Proof.
  intros Hok Herr. apply wp_mapping_error. unfold with_users. apply wp_zoom. apply wp_getUserBy.
  - intros dao fs Hf. apply Hok; [by exists dao|]. by destruct w.
  - intros fs _. apply Herr. by destruct w.
  - intros m fs. apply Herr. by destruct w.
Qed.

(** A recipient that checkRecipientParty lets through: registered here, or
    known to the participant for a token that may leave. *)
Definition recipient_allowed (w w' : World) (tokenSymbol party : string) : Prop :=
  (exists dao, List.find (column_is col_canton_party_id party) (t_users (tables (w_users w))) = Some dao) \/
  (tokenSymbol ∈ ts_externalTokenSymbols s /\ ts_partyRegistry s = true /\
   exists details, Exchange (GetPartiesRPC [party]) (Ok details) ∈ w_history w' /\
     existsb (fun p => bool_decide (pd_Party p = party)) details = true).

Definition quiet (w w' : World) : Prop :=
  tables (w_users w') = tables (w_users w) /\ w_cache w' = w_cache w /\ effects (w_history w') = effects (w_history w).

Lemma same_quiet w w' : same_world w w' -> quiet w w'.
Proof. intros (? & ? & Hh). unfold quiet. by rewrite Hh. Qed.

Lemma wp_checkRecipient tokenSymbol party w Q :
  (forall w', quiet w w' -> recipient_allowed w w' tokenSymbol party -> Q (Ok tt) w') ->
  (forall e w', quiet w w' -> Q (Err e) w') ->
  wp (checkRecipientParty s tokenSymbol party) Q w.
Proof.
  intros Hok Herr. unfold checkRecipientParty. apply wp_bind, wp_attempt. unfold with_users. apply wp_zoom. apply wp_getUserBy.
  - intros dao fs Hf. apply wp_ret. apply Hok; [by destruct w|]. left. by exists dao.
  - intros fs Hn. change (is_ErrUserNotFound ErrUserNotFound) with true. cbn [negb].
    case_bool_decide as Hext; cbn [negb]; [|apply wp_fail, Herr; by destruct w].
    destruct (ts_partyRegistry s) eqn:Hreg; cbn [negb]; [|apply wp_fail, Herr; by destruct w].
    apply wp_bind, wp_mapping_error. unfold with_ledger. apply wp_zoom. unfold Identity.PartyExists.
    apply wp_bind, wp_attempt, wp_rpc. intros r.
    assert (quiet w (set_ledger (w_history w ++ [Exchange (GetPartiesRPC [party]) r])
              (set_users_db (mkDB (tables (w_users w)) fs) w))) as Hq.
    { split; [done|]. split; [done|]. cbn. by rewrite effects_snoc. }
    destruct r as [details|e].
    + apply wp_ret. destruct (existsb _ details) eqn:Hex; [|apply wp_fail, Herr; exact Hq].
      apply wp_ret. apply Hok; [exact Hq|]. right. split_and!; [done..|]. exists details. split; [|done].
      cbn. set_solver.
    + destruct (status_FromError e) as [[]|]; cbn;
        try (apply Herr; exact Hq);
        try (apply wp_fail; apply Herr; exact Hq).
  - intros m fs. cbn. apply wp_fail, Herr. by destruct w.
Qed.

Lemma quiet_trans w1 w2 w3 : quiet w1 w2 -> quiet w2 w3 -> quiet w1 w3.
Proof. unfold quiet. intros (-> & -> & ->) (-> & -> & ->). done. Qed.

Lemma stored_user_quiet w w' a u : quiet w w' -> stored_user w' a u -> stored_user w a u.
Proof. intros (Ht & _). unfold stored_user. by rewrite Ht. Qed.

Lemma recipient_quiet w w1 w' tok p :
  quiet w w1 -> recipient_allowed w1 w' tok p -> recipient_allowed w w' tok p.
Proof. intros (Ht & _). unfold recipient_allowed. by rewrite Ht. Qed.

Lemma wp_require_key_mode u mode msg w Q :
  (u_KeyMode u = mode -> Q (Ok tt) w) -> (forall e, Q (Err e) w) -> wp (require_key_mode u mode msg) Q w.
Proof. intros Hok Herr. unfold require_key_mode. case_bool_decide; [by apply wp_ret, Hok|by apply wp_fail]. Qed.

Lemma nothing_quiet w w' : quiet w w' -> nothing_executed (w_history w) (w_history w').
Proof. intros (_ & _ & Hh). by apply effects_nothing. Qed.

(** What one execution signs for: the parties of the signatures. *)
Definition signatories (r : ExecuteSubmissionRequest) : list string := (es_PartySignatures r).*1.

(** A custodial transfer is guarded.  Either nothing is executed and the
    caller gets an error, or the token is supported, the validity window is
    positive and exact, the EVM address belongs to a stored custodial user,
    the recipient is a well-formed party id other than the sender's that is
    registered here or, for a token that may leave, known to the participant,
    and the only transaction executed is signed for that user's party alone. *)
Definition custodial_sent (evmAddr : string) (req : CustodialTransferRequest) (w : World) (r : result ExecuteResponse) (w' : World) : Prop :=
    (nothing_executed (w_history w) (w_history w') /\ is_ok r = false) \/
    exists sender x,
      stored_user w evmAddr sender /\ u_KeyMode sender = KeyModeCustodial /\
      cq_Token req ∈ ts_allowedTokenSymbols s /\ 0 < cq_ValiditySeconds req * Second <= max_int64 /\
      validatePartyID (cq_ToPartyID req) = Ok tt /\ cq_ToPartyID req <> u_CantonPartyID sender /\
      recipient_allowed w w' (cq_Token req) (cq_ToPartyID req) /\
      executed (w_history w') = executed (w_history w) ++ [x] /\ signatories x = [u_CantonPartyID sender] /\
      submitted (w_history w') = submitted (w_history w).

Lemma SendCustodial_guarded evmAddr req w : wp (SendCustodial s evmAddr req) (custodial_sent evmAddr req w) w.
Proof.
  unfold custodial_sent. unfold SendCustodial. case_bool_decide as Htok; cbn [negb]; [|apply wp_fail; by left].
  apply wp_bind, wp_lift. pose proof (validityDuration_spec (cq_ValiditySeconds req)) as Hval.
  destruct (validityDuration _) as [validity|e]; [|by left]. destruct Hval as [-> [Hval1 Hval2]].
  apply wp_bind, wp_mapping_error, wp_lift. destruct (validatePartyID _) as [[]|e] eqn:Hparty; [|by left].
  apply wp_bind, wp_lookup_user; [|intros e w' Hw; left; split; [by apply nothing_quiet, same_quiet|done]].
  intros sender w1 Hs Hw1%same_quiet.
  apply wp_bind, wp_require_key_mode; [|intros e; left; split; [by apply nothing_quiet|done]]. intros Hmode.
  case_bool_decide as Hself; [apply wp_fail; left; split; [by apply nothing_quiet|done]|].
  apply wp_bind, wp_checkRecipient; [|intros e w' Hw; left; split; [by apply nothing_quiet, (quiet_trans _ w1)|done]].
  intros w2 Hw2 Hrec. pose proof (quiet_trans _ _ _ Hw1 Hw2) as H12.
  apply wp_bind. unfold with_ledger. apply wp_zoom, wp_ask. intros key.
  apply wp_bind, wp_mapping_error, wp_zoom. eapply wp_mono; [apply wp_TransferByPartyID|]. cbn [w_history set_ledger].
  assert (effects (w_history w2 ++ [Exchange NewUUID key]) = effects (w_history w)) as Hu.
  { rewrite effects_snoc by done. apply H12. }
  pose proof Hu as [= He Hsub _].
  intros r h' [[Hn Hr]|(holdings & sel & freq & extra & now & signer & _ & _ & _ & _ & Hsig)].
  { destruct r as [[]|e]; [done|]. left. split; [|done]. destruct Hn as [Hn1 Hn2]. split; cbn; congruence. }
  destruct Hsig as (resp & sg & fp & sid & new & -> & _ & _ & Heff). injection Heff as He' Hs' _.
  assert (recipient_allowed w (set_ledger ((w_history w2 ++ [Exchange NewUUID key]) ++ new) (set_ledger (w_history w2 ++ [Exchange NewUUID key]) w2))
    (cq_Token req) (cq_ToPartyID req)) as Hallowed.
  { eapply recipient_quiet; [exact Hw1|]. destruct Hrec as [Hrec|(? & ? & details & Hin & Hex)]; [by left|right].
    split_and!; [done..|]. exists details. split; [|done]. cbn. set_solver. }
  destruct r as [[]|e]; [apply wp_ret|]; right; exists sender; eexists;
    (split_and!; [exact Hs|done..|exact Hallowed|rewrite <- He; exact He'|done|rewrite <- Hsub; exact Hs']).
Qed.

(** A claim-back is guarded.  Either nothing is executed and the caller
    gets an error, or the EVM address belongs to a stored custodial user, the
    indexer knows the contract as an offer that this user sent and that is
    neither completed, canceled nor rejected, and the only transaction executed
    exercises TransferInstruction_Withdraw on that contract, signed for that
    user's party alone. *)
Definition claimed_back (evmAddr contractID : string) (w : World) (r : result ExecuteResponse) (w' : World) : Prop :=
    (nothing_executed (w_history w) (w_history w') /\ is_ok r = false) \/
    exists sender offer x resp commandId ctxValue disclosed mid,
      stored_user w evmAddr sender /\ u_KeyMode sender = KeyModeCustodial /\
      (GetTransfer contractID mid).1 = Ok (Some offer) /\ effects mid = effects (w_history w) /\
      tr_FromPartyID offer = u_CantonPartyID sender /\ tr_Kind offer = TransferKindOffer /\
      tr_Status offer ∉ [TransferStatusCompleted; TransferStatusCanceled; TransferStatusRejected] /\
      executed (w_history w') = executed (w_history w) ++ [x] /\ signatories x = [u_CantonPartyID sender] /\
      es_PreparedTransaction x = pr_PreparedTransaction resp /\
      prepared (w_history w') = prepared (w_history w) ++
        [(prepare_request (mkCommands (DomainID (cl_cfg (ts_client s))) commandId (UserID (cl_cfg (ts_client s)))
            [u_CantonPartyID sender] [] [instruction_command (ts_client s) contractID withdrawChoice ctxValue] disclosed), resp)].

Lemma WithdrawCustodial_guarded evmAddr contractID w : wp (WithdrawCustodial s evmAddr contractID) (claimed_back evmAddr contractID w) w.
Proof.
  unfold claimed_back. unfold WithdrawCustodial.
  apply wp_bind, wp_lookup_user; [|intros e w' Hw; left; split; [by apply nothing_quiet, same_quiet|done]].
  intros sender w1 Hs Hw1%same_quiet.
  apply wp_bind, wp_require_key_mode; [|intros e; left; split; [by apply nothing_quiet|done]]. intros Hmode.
  apply wp_bind. unfold claimableTransfer. apply wp_bind. unfold with_ledger at 1. apply wp_zoom.
  apply wp_read_only; [apply reader_transfer|]. intros r n Hget Hn. destruct Hw1 as (Ht1 & Hc1 & Hh1). rewrite Hh1 in Hn.
  assert (nothing_executed (w_history w) (w_history (set_ledger (w_history w1 ++ n) w1))) as Hnone by (by apply effects_nothing).
  destruct r as [[offer|]|e]; [|apply wp_fail; by left|by left].
  case_bool_decide as Hfrom; cbn [negb]; [|apply wp_fail; by left].
  case_bool_decide as Hkind; cbn [negb]; [|apply wp_fail; by left].
  case_bool_decide as Hst1; [apply wp_fail; by left|]. case_bool_decide as Hst2; [apply wp_fail; by left|].
  case_bool_decide as Hst3; [apply wp_fail; by left|]. apply wp_ret.
  apply wp_bind, wp_mapping_error. unfold with_ledger. apply wp_zoom. cbn [w_history set_ledger].
  eapply wp_mono; [apply wp_exercise_instruction|]. injection Hn as He Hsub Hp.
  intros r h' [[[Hn1 Hn2] Hr]|(_ & ctxValue & disclosed & commandId & signer & _ & Hsig)].
  { destruct r as [[]|e]; [done|]. left. split; [|done]. split; cbn; congruence. }
  destruct Hsig as (resp & sg & fp & sid & new & -> & _ & _ & Heff). injection Heff as He' Hs' Hp'.
  destruct r as [[]|e]; [apply wp_ret|]; right; exists sender, offer; eexists; exists resp, commandId, ctxValue, disclosed, (w_history w1);
    (split_and!; [exact Hs|done|by rewrite Hget|done|done|done|set_solver|cbn; rewrite <- He; exact He'|done|done|
                  cbn; rewrite <- Hp; exact Hp']).
Qed.

(** ** Prepared transfers *)

(** Execute consumes the prepared transfer.  When the caller's registered
    key fingerprint is the one that signed and the id is cached, the entry is
    gone afterwards whatever happens; at most one execution is requested, and
    then it is the cached, unexpired transaction, for the party it was prepared
    for, with the caller's signature and fingerprint.  In every other case the
    cache is unchanged and nothing is executed. *)
Definition execution (evmAddr : string) (req : ExecuteRequest) (w : World) (r : result ExecuteResponse) (w' : World) : Prop :=
    match pc_entries (w_cache w) !! x_TransferID req with
    | Some pt =>
        (same_world w w' /\ is_ok r = false) \/
        (exists sender, stored_user w evmAddr sender /\ u_CantonPublicKeyFingerprint sender = x_SignedBy req) /\
        pc_entries (w_cache w') = delete (x_TransferID req) (pc_entries (w_cache w)) /\
        ((nothing_executed (w_history w) (w_history w') /\ is_ok r = false) \/
         exists sig sid now, hex_decode (TrimPrefix (x_Signature req) "0x") = Some sig /\
           Exchange Now now ∈ w_history w' /\ now <= p_ExpiresAt pt /\
           executed (w_history w') = executed (w_history w) ++
             [execute_request (p_PreparedTransaction pt) (p_HashingSchemeVersion pt) (p_PartyID pt) sid
                (UserID (cl_cfg (ts_client s))) (x_SignedBy req) sig])
    | None => same_world w w' /\ is_ok r = false
    end.

Lemma Execute_consumes evmAddr req w : wp (Execute s evmAddr req) (execution evmAddr req w) w.
Proof.
  unfold execution. unfold Execute.
  apply wp_bind, wp_lookup_user; [|intros e w' Hw; destruct (_ !! _); [left|]; done].
  intros sender w1 Hs Hw1. case_bool_decide as Hfp; cbn [negb]; [|apply wp_fail; destruct (_ !! _); [left|]; done].
  apply wp_bind, wp_mapping_error. unfold take_prepared. apply wp_bind, wp_get. destruct Hw1 as (Ht1 & Hc1 & Hh1). rewrite Hc1.
  destruct (pc_entries (w_cache w) !! x_TransferID req) as [pt|] eqn:Hpt; [|apply wp_fail; done].
  apply wp_bind. unfold with_ledger at 1. apply wp_zoom, wp_ask. intros now. unfold with_cache. apply wp_zoom.
  unfold wp at 1, GetAndDelete, get_and_delete. cbn [w_cache set_ledger]. rewrite Hc1, Hpt. rewrite Hh1.
  assert (effects (w_history w ++ [Exchange Now now]) = effects (w_history w)) as Hu by (by rewrite effects_snoc).
  destruct (Z.ltb_spec (p_ExpiresAt pt) now) as [Hlt|Hge].
  { right. split; [by exists sender|]. split; [done|]. left. split; [by apply effects_nothing|done]. }
  destruct (hex_decode _) as [sig|] eqn:Hhex.
  2:{ apply wp_fail. right. split; [by exists sender|]. split; [done|]. left. split; [by apply effects_nothing|done]. }
  apply wp_bind, wp_mapping_error. unfold with_ledger. apply wp_zoom. cbn [w_history set_cache set_ledger].
  eapply wp_mono; [apply wp_ExecuteTransfer|]. injection Hu as He Hsub _. intros r h' Hx. unfold executed_transfer in Hx.
  destruct (ExecuteTransferRequest_validate _) as [[]|e']; cbn [er_PreparedTransfer] in Hx.
  - destruct Hx as (sid & new & -> & Heff). injection Heff as He' Hs' _. rewrite He in He'.
    assert (Exchange Now now ∈ (w_history w ++ [Exchange Now now]) ++ new) as Hin by set_solver.
    destruct r as [[]|e]; [apply wp_ret|]; right; (split; [by exists sender|]); (split; [done|]); right;
      exists sig, sid, now; done.
  - destruct Hx as [-> Hr]. destruct r as [[]|e]; [done|]. right. split; [by exists sender|]. split; [done|].
    left. split; [|done]. split; cbn; done.
Qed.

(** The recipient a prepare request resolves to. *)
Definition resolves (w w' : World) (req : PrepareRequest) (to : string) : Prop :=
  (q_ToPartyID req = "" /\ exists u, stored_user w (q_To req) u /\ to = u_CantonPartyID u) \/
  (q_ToPartyID req <> "" /\ to = q_ToPartyID req /\ validatePartyID to = Ok tt /\ recipient_allowed w w' (q_Token req) to).

Lemma wp_resolve_recipient req w Q :
  (forall to w', quiet w w' ->
     (q_ToPartyID req = "" /\ (exists u, stored_user w (q_To req) u /\ to = u_CantonPartyID u)) \/
     (q_ToPartyID req <> "" /\ to = q_ToPartyID req /\ validatePartyID to = Ok tt) -> Q (Ok to) w') ->
  (forall e w', quiet w w' -> Q (Err e) w') ->
  wp (resolve_recipient req) Q w.
Proof.
  intros Hok Herr. unfold resolve_recipient. case_bool_decide as Hto.
  - apply wp_bind, wp_mapping_error. unfold with_users. apply wp_zoom, wp_getUserBy.
    + intros dao fs Hf. apply wp_ret, Hok; [by destruct w|]. left. split; [done|]. exists (toUser dao). split; [by exists dao|done].
    + intros fs _. apply Herr. by destruct w.
    + intros m fs. apply Herr. by destruct w.
  - apply wp_bind, wp_mapping_error, wp_lift. destruct (validatePartyID _) as [[]|e] eqn:Hv; [|by apply Herr].
    apply wp_ret, Hok; [done|]. by right.
Qed.

Lemma wp_cache_prepared pt w Q :
  (forall now w', tables (w_users w') = tables (w_users w) -> effects (w_history w') = effects (w_history w) ->
     (exists new, w_history w' = w_history w ++ new) -> is_full (w_cache w) = false ->
     pc_entries (w_cache w') = <[p_TransferID pt := set_expiry (now + pc_ttl (w_cache w)) pt]> (pc_entries (w_cache w)) ->
     Q (Ok (mkPrepareResponse (p_TransferID pt) ("0x" +:+ hex_encode (p_TransactionHash pt)) (p_PartyID pt)
              (RFC3339 (now + pc_ttl (w_cache w))))) w') ->
  (forall e, Q (Err e) w) ->
  wp (cache_prepared pt) Q w.
Proof.
  intros Hok Herr. unfold cache_prepared. apply wp_bind, wp_get. destruct (is_full (w_cache w)) eqn:Hf; [by apply wp_fail|].
  apply wp_bind. unfold with_ledger. apply wp_zoom, wp_ask. intros now. apply wp_bind. unfold with_cache. apply wp_zoom.
  unfold wp, Put. cbn [w_cache set_ledger]. rewrite Hf. cbn. apply Hok; cbn; [done|by rewrite effects_snoc|by eexists|done|done].
Qed.

(** Preparing a transfer for an external wallet is guarded and executes
    nothing.  On success the token is supported, the EVM address belongs to a
    stored user with an external key, exactly one recipient form was given and
    it resolves to a registered user's party or to an allowed party id other
    than the sender's, exactly one transaction was prepared, acting only as the
    sender, and it is cached under its id with the deadline that the response
    reports, for the sender's party.  On an error the cache is unchanged. *)
Theorem Prepare_guarded evmAddr req w :
  wp (Prepare s evmAddr req) (fun r w' =>
    nothing_executed (w_history w) (w_history w') /\
    match r with
    | Ok resp => exists sender to pt now p presp,
        q_Token req ∈ ts_allowedTokenSymbols s /\ 0 < q_ValiditySeconds req * Second <= max_int64 /\
        stored_user w evmAddr sender /\ u_KeyMode sender = KeyModeExternal /\
        to <> u_CantonPartyID sender /\ resolves w w' req to /\
        prepared (w_history w') = prepared (w_history w) ++ [(p, presp)] /\ ps_ActAs p = [u_CantonPartyID sender] /\
        p_TransactionHash pt = pr_PreparedTransactionHash presp /\ p_PartyID pt = u_CantonPartyID sender /\
        pc_entries (w_cache w') = <[p_TransferID pt := set_expiry (now + pc_ttl (w_cache w)) pt]> (pc_entries (w_cache w)) /\
        resp = mkPrepareResponse (p_TransferID pt) ("0x" +:+ hex_encode (p_TransactionHash pt)) (u_CantonPartyID sender)
                 (RFC3339 (now + pc_ttl (w_cache w)))
    | Err _ => w_cache w' = w_cache w
    end) w.
Proof.
  unfold Prepare. case_bool_decide as Htok; cbn [negb]; [|by apply wp_fail].
  apply wp_bind, wp_lift. pose proof (validityDuration_spec (q_ValiditySeconds req)) as Hval.
  destruct (validityDuration _) as [validity|e]; [|done]. destruct Hval as [-> Hval].
  assert (forall w', quiet w w' -> nothing_executed (w_history w) (w_history w') /\ w_cache w' = w_cache w) as Hq.
  { intros w' Hw. split; [by apply nothing_quiet|apply Hw]. }
  apply wp_bind, wp_lookup_user; [|intros e w' Hw; by apply Hq, same_quiet]. intros sender w1 Hs Hw1%same_quiet.
  apply wp_bind, wp_require_key_mode; [|intros e; by apply Hq]. intros Hmode.
  destruct (Bool.eqb _ _); [apply wp_fail; by apply Hq|].
  apply wp_bind, wp_resolve_recipient; [|intros e w' Hw; by apply Hq, (quiet_trans _ w1)].
  intros to w2 Hw2 Hto. pose proof (quiet_trans _ _ _ Hw1 Hw2) as H12.
  case_bool_decide as Hself; [apply wp_fail; by apply Hq|].
  apply wp_bind. apply (wp_mono _ (fun r w3 => quiet w w3 /\ (r = Ok tt -> resolves w w3 req to))).
  { destruct Hto as [(He & u & Hu & ->)|(Hne & -> & Hv)].
    - rewrite bool_decide_eq_true_2 by done. apply wp_ret. split; [done|]. intros _.
      left. split; [done|]. exists u. split; [|done]. exact (stored_user_quiet _ _ _ _ Hw1 Hu).
    - rewrite bool_decide_eq_false_2 by done. apply wp_checkRecipient.
      + intros w3 Hw3 Hrec. split; [exact (quiet_trans _ _ _ H12 Hw3)|]. intros _. right.
        split_and!; try done. exact (recipient_quiet _ _ _ _ _ H12 Hrec).
      + intros e w3 Hw3. split; [exact (quiet_trans _ _ _ H12 Hw3)|done]. }
  intros [[]|e] w3 [Hw3 Hres]; [|by apply Hq]. specialize (Hres eq_refl).
  destruct Hw3 as (Ht3 & Hc3 & Hh3). injection Hh3 as He3 Hs3 Hp3.
  apply wp_bind, wp_mapping_error. unfold with_ledger. apply wp_zoom.
  eapply wp_mono; [apply wp_emits; [apply emits_PrepareTransfer|apply wp_PrepareTransfer]|].
  intros r h' [[Hnone Hpt] (new & -> & _)].
  assert (nothing_executed (w_history w) (w_history w3 ++ new)) as Hnone' by (destruct Hnone; split; congruence).
  destruct r as [pt|e]; [|done]. destruct (Hpt pt eq_refl) as (hs & sel & freq & extra & now & cid & presp & _ & _ & Hsame & Hprep & Hhash & _ & _ & Hp).
  apply wp_cache_prepared; [|done]. cbn [w_users w_history w_cache set_ledger]. rewrite Hc3.
  intros now' w' _ Heff (new' & Hw') _ Hcache. injection Heff as He' Hs' Hp'.
  split; [destruct Hnone'; split; congruence|].
  destruct Hsame as (factory & ctx & av & disclosed & ext & now0 & ->).
  rewrite Hp3 in Hprep. rewrite Hprep in Hp'. destruct Hval as [Hval1 Hval2].
  exists sender, to, pt, now'. eexists. exists presp.
  split; [done|]. split; [done|]. split; [done|]. split; [done|]. split; [done|]. split.
  { destruct Hres as [Hl|(Hne & -> & Hv & Hrec)]; [by left|right]. split_and!; try done.
    destruct Hrec as [Hrec|(? & ? & details & Hin & Hex)]; [by left|right]. split_and!; try done. exists details.
    rewrite Hw'. split; [set_solver|done]. }
  split; [exact Hp'|]. split; [done|]. split; [done|]. split; [done|]. split; [done|]. by rewrite Hp.
Qed.

(** A prepared transfer is not bound to its owner.  Any registered user who
    knows the id of another party's prepared transfer and signs with their own
    registered key fingerprint discards it: with a signature that is not
    hexadecimal the entry is deleted, nothing is executed, and the owner's
    later Execute finds no transfer. *)
Theorem Execute_discards_foreign evmAddr thief pt req tb h cache :
  List.find (column_is col_evm_address evmAddr) (t_users tb) = Some thief ->
  u_CantonPublicKeyFingerprint (toUser thief) = x_SignedBy req ->
  pc_entries cache !! x_TransferID req = Some pt -> p_PartyID pt <> u_CantonPartyID (toUser thief) ->
  hex_decode (TrimPrefix (x_Signature req) "0x") = None ->
  let '(r, w') := Execute s evmAddr req (mkWorld (mkDB tb []) h cache) in
  is_ok r = false /\ nothing_executed h (w_history w') /\ pc_entries (w_cache w') = delete (x_TransferID req) (pc_entries cache).
Proof.
  intros Hfind Hfp Hpt Hforeign Hhex. set (w := mkWorld _ _ _).
  change (wp (Execute s evmAddr req) (fun r w' => is_ok r = false /\ nothing_executed h (w_history w') /\
    pc_entries (w_cache w') = delete (x_TransferID req) (pc_entries cache)) w).
  assert (getUserBy col_evm_address evmAddr (mkDB tb []) = (Ok (toUser thief), mkDB tb [])) as Hget.
  { unfold getUserBy, wrapping, mbind, M_bind. rewrite query_nofault. cbn [wrap]. by rewrite Hfind. }
  unfold Execute. apply wp_bind, wp_mapping_error. unfold with_users. apply wp_zoom.
  unfold wp at 1, GetUserByEVMAddress. subst w. cbn [w_users]. rewrite Hget.
  rewrite bool_decide_eq_true_2 by done. cbn [negb].
  apply wp_bind, wp_mapping_error. unfold take_prepared. apply wp_bind, wp_get. cbn [w_cache set_users_db]. rewrite Hpt.
  apply wp_bind. unfold with_ledger. apply wp_zoom, wp_ask. intros now. unfold with_cache. apply wp_zoom.
  unfold wp at 1, GetAndDelete, get_and_delete. cbn [w_cache set_ledger set_users_db]. rewrite Hpt.
  assert (nothing_executed h (h ++ [Exchange Now now])) as Hn by (by apply effects_nothing, effects_snoc).
  destruct (p_ExpiresAt pt <? now); [done|]. rewrite Hhex. by apply wp_fail.
Qed.
End service.

(** ** Witnesses *)

Definition quiet_reader : IndexerReader := {|
  GetTransfers p q pg := mret ([], 0);
  GetTransfer cid := mret (Some (mkTransfer cid TransferKindOffer TransferStatusPending "carol::12" "bob::34" "registrar" "USDCx" "5"
                                   None "" 1 1 false));
|}.

Lemma quiet_reader_laws : @IndexerReaderLaws quiet_reader.
Proof. split; intros; apply emits_ret. Qed.

Definition ex_carol : User := New 7 "0xCa" "carol::12" "0xf3" "cid" "enc".
Definition ex_thief : User := NewExternal "0xAb" "alice::12" "0xf1" "" "1220aa".
Definition ex_tables : UserTables := mkUserTables [toUserDao ex_carol; toUserDao ex_thief] ∅.

(** A registry that answers every request with an empty choice context. *)
Definition ex_script : Script := mkScript (100 * Second) 5 (fun _ => []) (fun p => Ok (mkSigner (fun m => Ok (0 :: m)) (Ok p)))
  (fun _ => ([mkPartyDetails "bob::34" true], ""%string)) (fun _ => http_response 200 (Ok ("{}"%string, Some (JObject [])))).

Definition ex_service : TransferService :=
  mkTransferService
    (mkClient (mkTokenConfig "domain" "issuer" "user" "cip56" "splice-transfer" "splice-holding" "" "" {["registrar" := "https://registry"]})
       (Identity.mkConfig "domain" "issuer" "user" "common") true true) true {["DEMO"]} ∅ ∅.

Definition ex_world : World := mkWorld (mkDB ex_tables []) [] (NewPreparedTransferCache 60 10).

Definition ex_stolen : PreparedTransfer := mkPreparedTransfer "id-1" [1] [2] 2 "carol::12" (200 * Second).
Definition ex_cache : PreparedTransferCache := set_entries {["id-1" := ex_stolen]} (NewPreparedTransferCache 60 10).

Lemma Execute_discards_foreign_witness :
  let '(r, w') := @Execute (scripted ex_script) ex_service "0xAb" (mkExecuteRequest "id-1" "zz" "1220aa") (mkWorld (mkDB ex_tables []) [] ex_cache) in
  is_ok r = false /\ nothing_executed [] (w_history w') /\ pc_entries (w_cache w') = delete "id-1"%string (pc_entries ex_cache).
Proof.
  refine (@Execute_discards_foreign (scripted ex_script) ex_service "0xAb" (toUserDao ex_thief) ex_stolen
    (mkExecuteRequest "id-1" "zz" "1220aa") ex_tables [] ex_cache _ _ _ _ _); vm_compute; congruence.
Defined.
