(* ===== verification/Logging.v ===== *)
(** * Logging: the decorators that log the calls of the services

    pkg/user/service/log.go, pkg/transfer/log.go, pkg/auth/service/log.go,
    pkg/indexer/service/log.go, pkg/relayer/service/log.go and
    pkg/ethrpc/service/log.go.  A decorated call writes an entry before and an
    entry after the call, or only after it for the EVM facade.  The log is
    part of the state; the duration of a call is an argument.  The entries that
    the registration service writes itself are in its own state (UserService);
    the other decorated services log nothing themselves.  The file shows that
    the decorators change nothing but the log, and what of the secrets of a
    request can be read from both. *)

From S2P Require Import Prelude AppErrors Effects GoStd GoText EthClient AuthMessages UserStore Decimal DamlValues Streaming LedgerApi Keys TokenCodec Identity IndexerStore IndexerApi RelayerStore Instrumented PreparedCache EvmStore EvmSubmitter EvmService Login UserService UserServiceProofs TransferService TransferServiceProofs.
From Stdlib Require Import Ascii String.
Local Open Scope Z_scope.
Local Abbreviation length := Datatypes.length.

(** ** Decorated calls *)

(** A call between two entries: [common] are the fields of all of them, then
    come those of the entry, of the failure or of the result. *)
Definition logged {W A} (method : string) (common entry failed : list Field) (completed : A -> list Field) (duration : Z)
    (c : M W A) : M (W * Log) A := fun s =>
  let started := mkLogEntry LInfo (method +:+ " started") (common ++ entry) in
  let '(r, w) := c s.1 in
  let finished :=
    match r with
    | Err e => mkLogEntry LError (method +:+ " failed") (common ++ failed ++ [("duration", FDuration duration); ("error", FError e)]%string)
    | Ok a => mkLogEntry LInfo (method +:+ " completed") (common ++ completed a ++ [("duration", FDuration duration)]%string)
    end in
  (r, (w, s.2 ++ [started; finished])).

(** A call with one entry after it; the fields of a result that failed are
    those of its zero value. *)
Definition logged_after {W A} (method : string) (common : list Field) (zero : A) (fields : A -> list Field) (late : list Field)
    (duration : Z) (c : M W A) : M (W * Log) A := fun s =>
  let '(r, w) := c s.1 in
  let all a := common ++ fields a ++ [("duration"%string, FDuration duration)] ++ late in
  let finished :=
    match r with
    | Err e => mkLogEntry LError (method +:+ " failed") (all zero ++ [("error", FError e)]%string)
    | Ok a => mkLogEntry LInfo (method +:+ " completed") (all a)
    end in
  (r, (w, s.2 ++ [finished])).

Definition service_field (service : string) : list Field := [("service", FString service)]%string.
Definition method_fields (service method : string) : list Field := [("service", FString service); ("method", FString method)]%string.

(** ** Redaction *)

Definition truncateString (s : string) (maxLen : Z) : string :=
  if Z.of_nat (String.length s) <=? maxLen then s else upto (Z.to_nat maxLen) s +:+ "...".

Definition redactToken (token : string) : string :=
  if Z.of_nat (String.length token) <=? 8 then "<redacted>"
  else upto 8 token +:+ "...(" +:+ FormatInt (Z.of_nat (String.length token)) +:+ " chars)".

Definition signatureDisplaySize : Z := 16.

Definition redactSignature (sig : string) : string :=
  let sigLen := Z.of_nat (String.length sig) in
  if bool_decide (sig = ""%string) then "<empty>"
  else if signatureDisplaySize <? sigLen then
    upto 8 sig +:+ "..." +:+ skip (String.length sig - 4) sig +:+ " (" +:+ FormatInt sigLen +:+ " bytes)"
  else "<" +:+ FormatInt sigLen +:+ " bytes>".

(** ** The registration service *)

Definition serviceName : string := "RegistrationService".
Definition logMessageMaxLen : Z := 50.
Definition present (s : string) : FieldValue := FBool (negb (bool_decide (s = ""%string))).

Section registration.
Context `{!Env} `{!GoEthereum} `{!Secp256k1} `{!Curve} `{!AesGcm}.
Variable reg : registrationService.
Abbreviation ML := (M (RegWorld * Log)).
Local Open Scope string_scope.
Local Open Scope list_scope.

Definition log_RegisterWeb3User (duration : Z) (req : RegisterRequest) : ML RegisterResponse :=
  logged "RegisterWeb3User" (method_fields serviceName "RegisterWeb3User")
    [("message", FString (truncateString (r_Message req) logMessageMaxLen)); ("signature", FString (redactSignature (r_Signature req)))]
    []
    (fun resp => [("evm_address", FString (rr_EVMAddress resp)); ("party_id", FString (rr_Party resp));
                  ("fingerprint", FString (rr_Fingerprint resp)); ("mapping_cid", FString (rr_MappingCID resp))])
    duration (RegisterWeb3User reg req).

Definition log_RegisterCantonNativeUser (duration : Z) (req : RegisterRequest) : ML RegisterResponse :=
  logged "RegisterCantonNativeUser" (method_fields serviceName "RegisterCantonNativeUser")
    [("canton_party_id", FString (r_CantonPartyID req)); ("message", FString (truncateString (r_Message req) logMessageMaxLen));
     ("canton_signature", FString (redactSignature (r_CantonSignature req))); ("has_private_key", present (r_CantonPrivateKey req))]
    [("canton_party_id", FString (r_CantonPartyID req))]
    (fun resp => [("canton_party_id", FString (r_CantonPartyID req)); ("evm_address", FString (rr_EVMAddress resp));
                  ("fingerprint", FString (rr_Fingerprint resp)); ("mapping_cid", FString (rr_MappingCID resp));
                  ("private_key_returned", present (rr_PrivateKey resp))])
    duration (RegisterCantonNativeUser reg req).

Definition log_PrepareExternalRegistration (duration : Z) (req : RegisterRequest) : ML PrepareTopologyResponse :=
  logged "PrepareExternalRegistration" (method_fields serviceName "PrepareExternalRegistration")
    [("message", FString (truncateString (r_Message req) logMessageMaxLen)); ("signature", FString (redactSignature (r_Signature req)));
     ("has_public_key", present (r_CantonPublicKey req))]
    []
    (fun resp => [("registration_token", FString (redactToken (ptr_RegistrationToken resp)));
                  ("fingerprint", FString (ptr_PublicKeyFingerprint resp))])
    duration (PrepareExternalRegistration reg req).

Definition log_GetUser (duration : Z) (evmAddress msg sig : string) : ML User :=
  logged "GetUser" (method_fields serviceName "GetUser") [("evm_address", FString evmAddress)] [("evm_address", FString evmAddress)]
    (fun _ => [("evm_address", FString evmAddress)]) duration (UserService.GetUser evmAddress msg sig).
End registration.

(** ** The transfer service *)

Definition transferServiceName : string := "TransferService".

Section transfers.
Context `{!Env} `{!DecimalLib} `{!IndexerReader}.
Variable svc : TransferService.
Abbreviation ML := (M (World * Log)).
Local Open Scope string_scope.
Local Open Scope list_scope.

Definition log_Prepare (duration : Z) (sender : string) (req : PrepareRequest) : ML PrepareResponse :=
  logged "Prepare" (method_fields transferServiceName "Prepare" ++ [("sender", FString sender)])
    [("to", FString (q_To req)); ("amount", FString (q_Amount req)); ("token", FString (q_Token req))]
    []
    (fun resp => [("transfer_id", FString (rp_TransferID resp)); ("party_id", FString (rp_PartyID resp)); ("expires_at", FString (rp_ExpiresAt resp))])
    duration (TransferService.Prepare svc sender req).

Definition log_Execute (duration : Z) (sender : string) (req : ExecuteRequest) : ML ExecuteResponse :=
  logged "Execute" (method_fields transferServiceName "Execute" ++ [("sender", FString sender); ("transfer_id", FString (x_TransferID req))])
    [("signature", FString (redactSignature (x_Signature req))); ("signed_by", FString (x_SignedBy req))]
    []
    (fun resp => [("status", FString (rx_Status resp))])
    duration (TransferService.Execute svc sender req).

(** The fields of a listing. *)
Definition listing_fields {A} (l : TransfersList A) : list Field :=
  [("count", FInt (Z.of_nat (length (tl_Items l)))); ("total", FInt (tl_Total l)); ("has_more", FBool (tl_HasMore l))].
Definition page_fields (p : Pagination) : list Field := [("page", FInt (Page p)); ("limit", FInt (Limit p))].

Definition log_ListIncoming (duration : Z) (evmAddr : string) (p : Pagination) : ML (TransfersList IncomingTransfer) :=
  logged "ListIncoming" (method_fields transferServiceName "ListIncoming") (("evm_addr", FString evmAddr) :: page_fields p) []
    listing_fields duration (ListIncoming svc evmAddr p).

Definition log_ListOutgoing (duration : Z) (evmAddr status : string) (p : Pagination) : ML (TransfersList OutgoingTransfer) :=
  logged "ListOutgoing" (method_fields transferServiceName "ListOutgoing")
    (("evm_addr", FString evmAddr) :: ("status", FString status) :: page_fields p) []
    listing_fields duration (ListOutgoing svc evmAddr status p).

Definition log_ListCompleted (duration : Z) (evmAddr : string) (p : Pagination) : ML (TransfersList CompletedTransfer) :=
  logged "ListCompleted" (method_fields transferServiceName "ListCompleted") (("evm_addr", FString evmAddr) :: page_fields p) []
    listing_fields duration (ListCompleted svc evmAddr p).

Definition prepared_fields (resp : PrepareResponse) : list Field :=
  [("transfer_id", FString (rp_TransferID resp)); ("party_id", FString (rp_PartyID resp))].

Definition log_PrepareAccept (duration : Z) (evmAddr contractID instrumentAdmin : string) : ML PrepareResponse :=
  logged "PrepareAccept" (method_fields transferServiceName "PrepareAccept")
    [("evm_addr", FString evmAddr); ("contract_id", FString contractID); ("instrument_admin", FString instrumentAdmin)]
    [("contract_id", FString contractID)] prepared_fields duration (PrepareAccept svc evmAddr contractID instrumentAdmin).

Definition log_ExecuteAccept (duration : Z) (evmAddr : string) (req : ExecuteRequest) : ML ExecuteResponse :=
  logged "ExecuteAccept" (method_fields transferServiceName "ExecuteAccept")
    [("evm_addr", FString evmAddr); ("transfer_id", FString (x_TransferID req));
     ("signature", FString (redactSignature (x_Signature req))); ("signed_by", FString (x_SignedBy req))]
    [("transfer_id", FString (x_TransferID req))]
    (fun resp => [("transfer_id", FString (x_TransferID req)); ("status", FString (rx_Status resp))])
    duration (ExecuteAccept svc evmAddr req).

Definition log_SendCustodial (duration : Z) (sender : string) (req : CustodialTransferRequest) : ML ExecuteResponse :=
  logged "SendCustodial" (method_fields transferServiceName "SendCustodial" ++ [("sender", FString sender)])
    [("to_party_id", FString (cq_ToPartyID req)); ("amount", FString (cq_Amount req)); ("token", FString (cq_Token req))]
    [] (fun resp => [("status", FString (rx_Status resp))]) duration (SendCustodial svc sender req).

Definition log_PrepareWithdraw (duration : Z) (evmAddr contractID : string) : ML PrepareResponse :=
  logged "PrepareWithdraw" (method_fields transferServiceName "PrepareWithdraw")
    [("evm_addr", FString evmAddr); ("contract_id", FString contractID)]
    [("contract_id", FString contractID)] prepared_fields duration (PrepareWithdraw svc evmAddr contractID).

Definition log_WithdrawCustodial (duration : Z) (evmAddr contractID : string) : ML ExecuteResponse :=
  logged "WithdrawCustodial" (method_fields transferServiceName "WithdrawCustodial")
    [("evm_addr", FString evmAddr); ("contract_id", FString contractID)]
    [("contract_id", FString contractID)] (fun resp => [("contract_id", FString contractID); ("status", FString (rx_Status resp))])
    duration (WithdrawCustodial svc evmAddr contractID).
End transfers.

(** ** The login service *)

Definition loginServiceName : string := "LoginService".

Section login.
Context `{!GoEthereum} `{!SIWE} `{!JWTLib}.
Variables (verifier : SIWEVerifier) (issuer : Issuer).

(** Nonce and JWKS are not logged. *)
Definition log_Nonce (now : Z) (fresh address : string) : M (LoginState * Log) string :=
  zoom fst (fun w s => (w, s.2)) (Nonce now fresh address).

Definition log_Login (duration t_verify t_consume t_issue : Z) (jti message signature : string) : M (LoginState * Log) LoginResponse :=
  fun s =>
    let '(r, w) := Login verifier issuer t_verify t_consume t_issue jti message signature s.1 in
    let common := method_fields loginServiceName "Login" ++ [("duration"%string, FDuration duration)] in
    (r, (w, s.2 ++ [mkLogEntry LInfo "Login started" (method_fields loginServiceName "Login");
                    match r with
                    | Err e => mkLogEntry LError "Login failed" (common ++ [("error"%string, FError e)])
                    | Ok resp => mkLogEntry LInfo "Login completed" (common ++ [("expires_at"%string, FInt (l_ExpiresAt resp))])
                    end])).
End login.

(** ** The indexer service *)

Definition indexerServiceName : string := "IndexerService".

Section indexer.
Abbreviation ML := (M (IndexerDB * Log)).
Local Open Scope string_scope.
Local Open Scope list_scope.

Definition indexer_logged {A} (method : string) (args pages : list Field) (result : A -> list Field) (duration : Z) (c : M IndexerDB A) : ML A :=
  logged method (service_field indexerServiceName ++ args) pages [] result duration c.
Definition total_field {A} (p : PageOf A) : list Field := [("total", FInt (pg_Total p))].
Definition instrument_fields (admin id : string) : list Field := [("admin", FString admin); ("id", FString id)].

Definition log_GetToken (duration : Z) admin id : ML Token :=
  indexer_logged "GetToken" (instrument_fields admin id) [] (fun _ => []) duration (svc_GetToken admin id).
Definition log_ListTokens (duration : Z) p : ML (PageOf Token) :=
  indexer_logged "ListTokens" [] (page_fields p) total_field duration (svc_ListTokens p).
Definition log_TotalSupply (duration : Z) admin id : ML string :=
  indexer_logged "TotalSupply" (instrument_fields admin id) [] (fun supply => [("total_supply", FString supply)]) duration (svc_TotalSupply admin id).
Definition log_GetBalance (duration : Z) partyID admin id : ML Balance :=
  indexer_logged "GetBalance" [("party_id", FString partyID)] (instrument_fields admin id) (fun _ => []) duration (svc_GetBalance partyID admin id).
Definition log_ListBalancesForParty (duration : Z) partyID p : ML (PageOf Balance) :=
  indexer_logged "ListBalancesForParty" [("party_id", FString partyID)] (page_fields p) total_field duration (svc_ListBalancesForParty partyID p).
Definition log_ListBalancesForToken (duration : Z) admin id p : ML (PageOf Balance) :=
  indexer_logged "ListBalancesForToken" (instrument_fields admin id) (page_fields p) total_field duration (svc_ListBalancesForToken admin id p).
Definition log_GetEvent (duration : Z) contractID : ML ParsedEvent :=
  indexer_logged "GetEvent" [("contract_id", FString contractID)] [] (fun _ => []) duration (svc_GetEvent contractID).
Definition log_GetTransfer (duration now : Z) contractID : ML IndexerStore.Transfer :=
  indexer_logged "GetTransfer" [("contract_id", FString contractID)] [] (fun _ => []) duration (svc_GetTransfer now contractID).
Definition log_ListTokenEvents (duration : Z) admin id f p : ML (PageOf ParsedEvent) :=
  indexer_logged "ListTokenEvents" (instrument_fields admin id) (page_fields p) total_field duration (svc_ListTokenEvents admin id f p).
Definition log_ListPartyEvents (duration : Z) partyID f p : ML (PageOf ParsedEvent) :=
  indexer_logged "ListPartyEvents" [("party_id", FString partyID)] (page_fields p) total_field duration (svc_ListPartyEvents partyID f p).
(** GetTransfers and GetPendingTransfers are not logged. *)
Definition log_GetTransfers (now : Z) partyID query p : ML (PageOf IndexerStore.Transfer) :=
  zoom fst (fun d s => (d, s.2)) (svc_GetTransfers now partyID query p).
Definition log_GetPendingTransfers (now : Z) p : ML (PageOf IndexerStore.Transfer) :=
  zoom fst (fun d s => (d, s.2)) (svc_GetPendingTransfers now p).
End indexer.

(** ** The relayer service *)

Section relayer.
Definition relayerServiceName : string := "RelayerService".

Definition svc_ListTransfers (limit : Z) : M RelayerDB (list RelayerStore.Transfer) := RelayerStore.ListTransfers limit.
Definition svc_GetRelayedTransfer (id : string) : M RelayerDB (option RelayerStore.Transfer) := RelayerStore.GetTransfer id.

Definition log_ListTransfers (duration limit : Z) : M (RelayerDB * Log) (list RelayerStore.Transfer) :=
  logged "ListTransfers" (service_field relayerServiceName) [("limit"%string, FInt limit)] []
    (fun ts => [("count"%string, FInt (Z.of_nat (length ts)))]) duration (svc_ListTransfers limit).
Definition log_GetRelayedTransfer (duration : Z) (id : string) : M (RelayerDB * Log) (option RelayerStore.Transfer) :=
  logged "GetTransfer" (service_field relayerServiceName ++ [("id"%string, FString id)]) [] []
    (fun t => [("found"%string, FBool (bool_decide (is_Some t)))]) duration (svc_GetRelayedTransfer id).
End relayer.

(** ** The EVM facade *)

Definition ethServiceName : string := "EthService".

Section eth.
Context {X : Type} `{!GoEthereum} `{!EthTypes} `{!TokenService X} `{!TokenViews X}.
Variables (chainID : Z) (hasTokenService : bool) (IsWhitelisted : string -> result bool).
Abbreviation ML := (M (EvmDB * Log)).
Local Open Scope string_scope.
Local Open Scope list_scope.

Definition eth_logged {A} (method : string) (args : list Field) (zero : A) (fields : A -> list Field) (late : list Field) (duration : Z)
    (c : M EvmDB A) : ML A := logged_after method (method_fields ethServiceName method ++ args) zero fields late duration c.

Definition found {A} (o : option A) : list Field := [("found", FBool (bool_decide (is_Some o)))].
Definition callee (args : option CallArgs) : list Field :=
  [("to", FString (match args with Some a => match ca_To a with Some t => Address_Hex t | None => "" end | None => "" end))].

Definition log_ChainID (duration : Z) : ML Z := eth_logged "ChainID" [] 0%Z (fun n => [("chain_id", FInt n)]) [] duration (mret (ChainID chainID)).
Definition log_BlockNumber (duration elapsed : Z) : ML Z :=
  eth_logged "BlockNumber" [] 0%Z (fun n => [("block", FInt n)]) [] duration (BlockNumber elapsed).
Definition log_GasPrice (duration : Z) : ML Z := eth_logged "GasPrice" [] 0%Z (fun _ => [("has_price", FBool true)]) [] duration (mret GasPrice).
Definition log_MaxPriorityFeePerGas (duration : Z) : ML Z :=
  eth_logged "MaxPriorityFeePerGas" [] 0%Z (fun _ => [("has_fee", FBool true)]) [] duration (mret MaxPriorityFeePerGas).
Definition log_EstimateGas (duration : Z) (args : option CallArgs) : ML Z :=
  eth_logged "EstimateGas" (callee args) 0%Z (fun gas => [("gas", FInt gas)]) [] duration (mret EstimateGas).
Definition log_eth_GetBalance (duration : Z) (x : X) (address : Address) : ML Z :=
  eth_logged "GetBalance" [("address", FString (Address_Hex address))] 0%Z (fun _ => []) [] duration (lift (EvmService.GetBalance address x)).
Definition log_GetTransactionCount (duration : Z) (address : Address) : ML Z :=
  eth_logged "GetTransactionCount" [("address", FString (Address_Hex address))] 0%Z (fun n => [("count", FInt n)]) [] duration
    (GetTransactionCount address).
Definition log_GetCode (duration : Z) (address : Address) : ML (list Z) :=
  eth_logged "GetCode" [("address", FString (Address_Hex address))] [] (fun code => [("code_len", FInt (Z.of_nat (length code)))]) [] duration
    (mret (GetCode hasTokenService address)).
Definition log_Syncing (duration : Z) : ML bool := eth_logged "Syncing" [] false (fun b => [("syncing", FBool b)]) [] duration (mret Syncing).
Definition log_SendRawTransaction (duration : Z) (data : list Z) : ML Hash :=
  eth_logged "SendRawTransaction" [] (replicate 32 0%Z) (fun hash => [("tx_hash", FString (Hash_Hex hash))]) [] duration
    (SendRawTransaction chainID IsWhitelisted data).
Definition log_GetTransactionReceipt (duration : Z) (hash : Hash) : ML (option RPCReceipt) :=
  eth_logged "GetTransactionReceipt" [("tx_hash", FString (Hash_Hex hash))] None found [] duration (GetTransactionReceipt hash).
Definition log_GetTransactionByHash (duration : Z) (hash : Hash) : ML (option RPCTransaction) :=
  eth_logged "GetTransactionByHash" [("tx_hash", FString (Hash_Hex hash))] None found [] duration (GetTransactionByHash chainID hash).
Definition log_Call (duration : Z) (x : X) (args : option CallArgs) : ML (list Z) :=
  eth_logged "Call" (callee args) [] (fun _ => []) [] duration (lift (Call args x)).
Definition log_GetLogs (duration : Z) (query : FilterQuery) : ML (list RPCLog) :=
  eth_logged "GetLogs" [] [] (fun logs => [("count", FInt (Z.of_nat (length logs)))]) [] duration (GetLogs query).
Definition log_GetBlockByNumber (duration elapsed : Z) (blockNr : BlockNumberOrHash) (fullTx : bool) : ML (option RPCBlock) :=
  eth_logged "GetBlockByNumber" [("full_tx", FBool fullTx)] None found
    (match bn_BlockNumber blockNr with Some n => [("block_number", FInt (uint64 n))] | None => [] end ++
     match bn_BlockHash blockNr with Some h => [("block_hash", FString (Hash_Hex h))] | None => [] end)
    duration (GetBlockByNumber chainID elapsed blockNr).
Definition log_GetBlockByHash (duration elapsed : Z) (hash : Hash) (fullTx : bool) : ML (option RPCBlock) :=
  eth_logged "GetBlockByHash" [("block_hash", FString (Hash_Hex hash)); ("full_tx", FBool fullTx)] None found [] duration
    (GetBlockByHash chainID elapsed hash).
End eth.

(** ** The decorators change nothing but the log *)

Lemma erases_logged {W A} method common entry failed (completed : A -> list Field) duration (c : M W A) :
  erases (logged method common entry failed completed duration c) c.
Proof. intros s. unfold logged. by destruct (c s.1). Qed.

Lemma erases_logged_after {W A} method common (zero : A) fields late duration (c : M W A) :
  erases (logged_after method common zero fields late duration c) c.
Proof. intros s. unfold logged_after. by destruct (c s.1). Qed.

#[export] Hint Resolve erases_logged erases_logged_after : erases.

(** ** What can be read from the log *)

(** The entries that a decorated call writes. *)
Definition written_entries {W A} (c : M (W * Log) A) (w : W) : Log := (c (w, [])).2.2.

(** What is shown of a signature: its length and, of a long one, both ends. *)
Definition same_view (sig sig' : string) : Prop :=
  String.length sig = String.length sig' /\
  (signatureDisplaySize < Z.of_nat (String.length sig) ->
   upto 8 sig = upto 8 sig' /\ skip (String.length sig - 4) sig = skip (String.length sig' - 4) sig').

Lemma redactSignature_view sig sig' : same_view sig sig' -> redactSignature sig = redactSignature sig'.
Proof.
  intros [Hlen Hends]. unfold redactSignature.
  assert (bool_decide (sig = ""%string) = bool_decide (sig' = ""%string)) as ->
    by (apply bool_decide_ext; split; intros ->; [destruct sig'|destruct sig]; done).
  destruct (bool_decide _); [done|]. destruct (Z.ltb_spec signatureDisplaySize (Z.of_nat (String.length sig))) as [Hlong|Hshort].
  - destruct (Hends Hlong) as [-> ->]. rewrite Hlen in Hlong |- *. by rewrite (proj2 (Z.ltb_lt _ _) Hlong).
  - rewrite Hlen in Hshort |- *. by rewrite (proj2 (Z.ltb_ge _ _) Hshort).
Qed.

(** Two results that a caller of the log cannot tell apart: the same error, or
    responses with the same view. *)
Definition same_result {A} (view : A -> A -> Prop) (r r' : result A) : Prop :=
  match r, r' with Ok a, Ok a' => view a a' | Err e, Err e' => e = e' | _, _ => False end.

Lemma logged_view {W A} method common entry failed (completed : A -> list Field) duration (c c' : M W A) w w' entry' completed' :
  entry = entry' -> same_result (fun a a' => completed a = completed' a') (c w).1 (c' w').1 ->
  written_entries (logged method common entry failed completed duration c) w =
  written_entries (logged method common entry' failed completed' duration c') w'.
Proof.
  intros -> Hr. unfold written_entries, logged. cbn [fst snd]. destruct (c w) as [[a|e] w1], (c' w') as [[a'|e'] w1']; cbn in *; try done.
  - by rewrite Hr.
  - by subst.
Qed.

(** A registration request as far as it is logged: the party, the head of the
    message, the ends of the signatures, the key mode, and whether there are keys. *)
Definition request_view (req req' : RegisterRequest) : Prop :=
  r_CantonPartyID req = r_CantonPartyID req' /\ r_KeyMode req = r_KeyMode req' /\
  truncateString (r_Message req) logMessageMaxLen = truncateString (r_Message req') logMessageMaxLen /\
  same_view (r_Signature req) (r_Signature req') /\ same_view (r_CantonSignature req) (r_CantonSignature req') /\
  present (r_CantonPrivateKey req) = present (r_CantonPrivateKey req') /\
  present (r_CantonPublicKey req) = present (r_CantonPublicKey req').

(** The response of a registration without the key it returns. *)
Definition response_view (resp resp' : RegisterResponse) : Prop :=
  rr_EVMAddress resp = rr_EVMAddress resp' /\ rr_Party resp = rr_Party resp' /\ rr_Fingerprint resp = rr_Fingerprint resp' /\
  rr_MappingCID resp = rr_MappingCID resp' /\ present (rr_PrivateKey resp) = present (rr_PrivateKey resp').

(** The response of the first step of an external registration: the token is
    redacted and the topology hash is not shown. *)
Definition topology_view (resp resp' : PrepareTopologyResponse) : Prop :=
  ptr_PublicKeyFingerprint resp = ptr_PublicKeyFingerprint resp' /\
  redactToken (ptr_RegistrationToken resp) = redactToken (ptr_RegistrationToken resp').

(** *** What the registration service logs itself *)

(** A computation that writes no entry. *)
Definition silent {A} (c : M RegWorld A) : Prop := forall w, rw_log (c w).2 = rw_log w.

Lemma silent_ret {A} (a : A) : silent (mret a).
Proof. done. Qed.
Lemma silent_fail {A} e : silent (A := A) (fail e).
Proof. done. Qed.
Lemma silent_lift {A} (r : result A) : silent (lift r).
Proof. done. Qed.
Lemma silent_get : silent Effects.get.
Proof. done. Qed.
Lemma silent_bind {A B} (c : M RegWorld A) (k : A -> M RegWorld B) : silent c -> (forall a, silent (k a)) -> silent (c ≫= k).
Proof. intros Hc Hk w. specialize (Hc w). unfold mbind, M_bind. destruct (c w) as [[a|e] w1]; cbn in *; [|done]. by rewrite Hk. Qed.
Lemma silent_attempt {A} (c : M RegWorld A) : silent c -> silent (attempt c).
Proof. intros Hc w. specialize (Hc w). unfold attempt. by destruct (c w). Qed.
Lemma silent_wrapping {A} pre (c : M RegWorld A) : silent c -> silent (wrapping pre c).
Proof. intros Hc w. specialize (Hc w). unfold wrapping. by destruct (c w). Qed.
Lemma silent_on_error {A} f (c : M RegWorld A) : silent c -> silent (on_error f c).
Proof. intros Hc w. specialize (Hc w). unfold on_error. by destruct (c w) as [[]]. Qed.
Lemma silent_on_users {A} (c : M UserDB A) : silent (on_users c).
Proof. intros w. unfold on_users, zoom. by destruct (c _). Qed.
Lemma silent_on_ledger {A} (c : M history A) : silent (on_ledger c).
Proof. intros w. unfold on_ledger, zoom. by destruct (c _). Qed.
Lemma silent_on_topology {A} (c : M TopologyCache A) : silent (on_topology c).
Proof. intros w. unfold on_topology, zoom. by destruct (c _). Qed.

(** A computation that writes entries only when it succeeds, those of its result. *)
Definition logs_result {A} (f : A -> Log) (c : M RegWorld A) : Prop :=
  forall w, rw_log (c w).2 = rw_log w ++ match (c w).1 with Ok a => f a | Err _ => [] end.

Lemma logs_result_bind {A B} (f : B -> Log) (c : M RegWorld A) (k : A -> M RegWorld B) :
  silent c -> (forall a, logs_result f (k a)) -> logs_result f (c ≫= k).
Proof.
  intros Hc Hk w. specialize (Hc w). unfold mbind, M_bind. destruct (c w) as [[a|e] w1]; cbn in *; [|by rewrite app_nil_r].
  by rewrite Hk, Hc.
Qed.

Create HintDb silent.
#[local] Hint Resolve silent_ret silent_fail silent_lift silent_get silent_bind silent_attempt silent_wrapping silent_on_error
  silent_on_users silent_on_ledger silent_on_topology : silent.
#[local] Hint Extern 3 (silent (match ?o with _ => _ end)) => destruct o : silent.

Section own_entries.
Context `{!Env} `{!GoEthereum} `{!Secp256k1} `{!Curve} `{!AesGcm}.
Variable reg : registrationService.

(** The address that a signature recovers. *)
Definition recovered (req : RegisterRequest) : option string :=
  match VerifyEIP191Signature (r_Message req) (r_Signature req) with
  | Ok a => Some (NormalizeAddress (Address_Hex a))
  | Err _ => None
  end.

Lemma silent_checkNotRegistered a : silent (checkNotRegistered a).
Proof. unfold checkNotRegistered. auto 10 with silent. Qed.
Lemma silent_checkWhitelist a : silent (checkWhitelist reg a).
Proof. unfold checkWhitelist. auto 10 with silent. Qed.
Lemma silent_generate_pair : silent generate_pair.
Proof. unfold generate_pair. auto 10 with silent. Qed.
Lemma silent_encrypt_key key : silent (encrypt_key reg key).
Proof. unfold encrypt_key. auto 10 with silent. Qed.
Lemma silent_create_mapping p f a : silent (create_mapping reg p f a).
Proof. unfold create_mapping. auto 10 with silent. Qed.
Lemma silent_save_user u : silent (save_user u).
Proof. unfold save_user. auto 10 with silent. Qed.
Lemma silent_take_topology token : silent (take_topology token).
Proof. unfold take_topology. auto 10 with silent. Qed.
#[local] Hint Resolve silent_checkNotRegistered silent_checkWhitelist silent_generate_pair silent_encrypt_key silent_create_mapping
  silent_save_user silent_take_topology : silent.

Lemma silent_register_custodial a : silent (register_custodial reg a).
Proof. unfold register_custodial. auto 30 with silent. Qed.
Lemma silent_registerExternalWeb3User a req : silent (registerExternalWeb3User reg a req).
Proof. unfold registerExternalWeb3User. auto 30 with silent. Qed.
#[local] Hint Resolve silent_register_custodial silent_registerExternalWeb3User : silent.

Lemma RegisterWeb3User_logs req w :
  rw_log (RegisterWeb3User reg req w).2 =
  rw_log w ++ match recovered req with Some a => [web3_initiated a (r_KeyMode req)] | None => [] end.
Proof.
  unfold RegisterWeb3User, recovered. unfold mbind at 1, M_bind at 1, on_error at 1, lift at 1.
  destruct (VerifyEIP191Signature _ _) as [addr|e]; cbn [fst snd]; [|by rewrite app_nil_r].
  unfold mbind at 1, M_bind at 1, reg_logger at 1, modify at 1.
  match goal with |- rw_log (?c ?w1).2 = _ => assert (silent c) as Hs; [auto 10 with silent|by rewrite Hs] end.
Qed.

Lemma RegisterCantonNativeUser_logs req w :
  rw_log (RegisterCantonNativeUser reg req w).2 =
  rw_log w ++ (if is_ok (ValidateCantonPartyID (r_CantonPartyID req)) && sv_skipCantonSignatureVerification reg
               then [verification_skipped (r_CantonPartyID req)] else []).
Proof.
  unfold RegisterCantonNativeUser. unfold mbind at 1, M_bind at 1, on_error at 1, lift at 1.
  destruct (ValidateCantonPartyID _) as [[]|e]; cbn [is_ok andb fst snd]; [|by rewrite app_nil_r].
  match goal with |- rw_log ((check_canton_signature reg req ≫= ?k) w).2 = _ => assert (forall a, silent (k a)) as Hs; [intros a; auto 30 with silent|] end.
  unfold check_canton_signature. destruct (sv_skipCantonSignatureVerification reg).
  - unfold mbind at 1, M_bind at 1, reg_logger at 1, modify at 1. cbv beta iota. by rewrite Hs.
  - rewrite app_nil_r. apply silent_bind; [auto 10 with silent|exact Hs].
Qed.

Lemma PrepareExternalRegistration_logs req w :
  rw_log (PrepareExternalRegistration reg req w).2 =
  rw_log w ++ match (PrepareExternalRegistration reg req w).1, recovered req with
              | Ok resp, Some a => [topology_prepared a (ptr_PublicKeyFingerprint resp)]
              | _, _ => []
              end.
Proof.
  unfold PrepareExternalRegistration, recovered. unfold mbind at 1 10, M_bind at 1 10, on_error at 1 4, lift at 1 4.
  destruct (VerifyEIP191Signature _ _) as [addr|e]; cbn [fst snd]; [|by rewrite app_nil_r].
  set (a := NormalizeAddress _).
  match goal with |- rw_log (?c w).2 = _ =>
    assert (logs_result (fun resp => [topology_prepared a (ptr_PublicKeyFingerprint resp)]) c) as Hl; [|exact (Hl w)] end.
  do 7 (apply logs_result_bind; [auto 10 with silent|intros ?]). intros w1. cbn. reflexivity.
Qed.
End own_entries.

(** All that a decorated registration logs: the entries of the decorator, and
    those that the service adds to its own. *)
Definition registration_entries {A} (c : M (RegWorld * Log) A) (w : RegWorld) : Log * Log :=
  (written_entries c w, drop (length (rw_log w)) (rw_log (c (w, [])).2.1)).

Lemma registration_entries_eq {A} method common entry failed (completed : A -> list Field) duration (c c' : M RegWorld A) w w' entry' completed' own :
  entry = entry' -> same_result (fun a a' => completed a = completed' a') (c w).1 (c' w').1 ->
  rw_log (c w).2 = rw_log w ++ own -> rw_log (c' w').2 = rw_log w' ++ own ->
  registration_entries (logged method common entry failed completed duration c) w =
  registration_entries (logged method common entry' failed completed' duration c') w'.
Proof.
  intros He Hr Ho Ho'. unfold registration_entries. f_equal; [by apply logged_view|].
  unfold logged. cbn [fst snd]. destruct (c w) as [r w1], (c' w') as [r' w1']; cbn [fst snd] in *.
  by rewrite Ho, Ho', !drop_app_length.
Qed.

Section secrecy.
Context `{!Env} `{!GoEthereum} `{!Secp256k1} `{!Curve} `{!AesGcm} `{!DecimalLib} `{!IndexerReader} `{!SIWE} `{!JWTLib}.
Variables (reg : registrationService) (svc : TransferService) (verifier : SIWEVerifier) (issuer : Issuer).

(** C25: The log of the services keeps the secrets of the requests: what the
    logging decorators of the registration, transfer and login services write
    and what the registration service writes itself (the other two write
    nothing themselves).  Two registrations that differ in the private key they
    bring or get back, in the registration token or topology signature they
    bring, or in the middle of a signature, and that succeed alike or fail with
    the same error, write the same entries; for the Web3 kinds also the address
    that the signature recovers, which is logged, is to be the same.  The same
    holds of the first step of an external registration, whose token is shown
    redacted, of two profile lookups whatever was signed, of two executions of
    a transfer or of an acceptance whose signatures differ in the middle only,
    and of two logins whatever was signed, when the tokens they get
    expire at the same time.  Lines of the HTTP handlers and of the Canton SDK
    clients are not covered. *)
Theorem log_keeps_secrets :
  (forall duration req req' w w', request_view req req' -> recovered req = recovered req' ->
     same_result response_view (RegisterWeb3User reg req w).1 (RegisterWeb3User reg req' w').1 ->
     registration_entries (log_RegisterWeb3User reg duration req) w = registration_entries (log_RegisterWeb3User reg duration req') w') /\
  (forall duration req req' w w', request_view req req' ->
     same_result response_view (RegisterCantonNativeUser reg req w).1 (RegisterCantonNativeUser reg req' w').1 ->
     registration_entries (log_RegisterCantonNativeUser reg duration req) w =
     registration_entries (log_RegisterCantonNativeUser reg duration req') w') /\
  (forall duration req req' w w', request_view req req' -> recovered req = recovered req' ->
     same_result topology_view (PrepareExternalRegistration reg req w).1 (PrepareExternalRegistration reg req' w').1 ->
     registration_entries (log_PrepareExternalRegistration reg duration req) w =
     registration_entries (log_PrepareExternalRegistration reg duration req') w') /\
  (forall duration addr m m' sig sig' w w',
     same_result (fun _ _ => True) (UserService.GetUser addr m sig w).1 (UserService.GetUser addr m' sig' w').1 ->
     registration_entries (log_GetUser duration addr m sig) w = registration_entries (log_GetUser duration addr m' sig') w') /\
  (forall duration req req' sender w w', x_TransferID req = x_TransferID req' -> x_SignedBy req = x_SignedBy req' ->
     same_view (x_Signature req) (x_Signature req') ->
     (same_result eq (TransferService.Execute svc sender req w).1 (TransferService.Execute svc sender req' w').1 ->
      written_entries (log_Execute svc duration sender req) w = written_entries (log_Execute svc duration sender req') w') /\
     (same_result eq (ExecuteAccept svc sender req w).1 (ExecuteAccept svc sender req' w').1 ->
      written_entries (log_ExecuteAccept svc duration sender req) w = written_entries (log_ExecuteAccept svc duration sender req') w')) /\
  (forall duration tv tc ti jti jti' m m' sig sig' w w',
     same_result (fun a a' => l_ExpiresAt a = l_ExpiresAt a')
       (Login verifier issuer tv tc ti jti m sig w).1 (Login verifier issuer tv tc ti jti' m' sig' w').1 ->
     written_entries (log_Login verifier issuer duration tv tc ti jti m sig) w =
     written_entries (log_Login verifier issuer duration tv tc ti jti' m' sig') w').
Proof.
  split_and!.
  - intros duration req req' w w' (_ & Hk & Hm & Hs & _) Ha Hr.
    eapply registration_entries_eq; [by rewrite Hm, (redactSignature_view _ _ Hs)| |apply RegisterWeb3User_logs|rewrite Hk, Ha; apply RegisterWeb3User_logs].
    destruct (RegisterWeb3User reg req w).1, (RegisterWeb3User reg req' w').1; cbn in *; try done.
    destruct Hr as (-> & -> & -> & -> & _). done.
  - intros duration req req' w w' (Hp & _ & Hm & _ & Hs & Hk & _) Hr. unfold log_RegisterCantonNativeUser. rewrite <- Hp.
    eapply registration_entries_eq; [by rewrite Hm, (redactSignature_view _ _ Hs), Hk| |apply RegisterCantonNativeUser_logs
                                    |rewrite Hp; apply RegisterCantonNativeUser_logs].
    destruct (RegisterCantonNativeUser reg req w).1, (RegisterCantonNativeUser reg req' w').1; cbn in *; try done.
    destruct Hr as (-> & _ & -> & -> & ->). done.
  - intros duration req req' w w' (_ & _ & Hm & Hs & _ & _ & Hk) Ha Hr.
    eapply registration_entries_eq; [by rewrite Hm, (redactSignature_view _ _ Hs), Hk| |apply PrepareExternalRegistration_logs|].
    + destruct (PrepareExternalRegistration reg req w).1, (PrepareExternalRegistration reg req' w').1; cbn in *; try done.
      destruct Hr as [-> ->]. done.
    + rewrite PrepareExternalRegistration_logs, Ha.
      destruct (PrepareExternalRegistration reg req w).1, (PrepareExternalRegistration reg req' w').1; cbn in *; try done. by destruct Hr as [-> _].
  - intros duration addr m m' sig sig' w w' Hr. assert (forall m sig w, rw_log (UserService.GetUser addr m sig w).2 = rw_log w ++ []) as Hg.
    { intros m0 sig0 w0. rewrite app_nil_r. revert w0. change (silent (UserService.GetUser addr m0 sig0)). unfold UserService.GetUser. auto 12 with silent. }
    eapply registration_entries_eq; [done| |apply Hg|apply Hg].
    by destruct (UserService.GetUser addr m sig w).1, (UserService.GetUser addr m' sig' w').1.
  - intros duration req req' sender w w' Hid Hby Hs. unfold log_Execute, log_ExecuteAccept. rewrite <- Hid. split; intros Hr.
    + apply logged_view; [by rewrite Hby, (redactSignature_view _ _ Hs)|].
      destruct (TransferService.Execute svc sender req w).1, (TransferService.Execute svc sender req' w').1; cbn in *; try done. by subst.
    + apply logged_view; [by rewrite Hby, (redactSignature_view _ _ Hs)|].
      destruct (ExecuteAccept svc sender req w).1, (ExecuteAccept svc sender req' w').1; cbn in *; try done. by subst.
  - intros duration tv tc ti jti jti' m m' sig sig' w w' Hr. unfold written_entries, log_Login. cbn [fst snd].
    destruct (Login _ _ _ _ _ jti m sig w) as [[a|e] w1], (Login _ _ _ _ _ jti' m' sig' w') as [[a'|e'] w1']; cbn in *; try done;
      [by rewrite Hr|by subst].
Qed.
End secrecy.

(** Two signatures that the log does not tell apart. *)
Example redacted_alike :
  redactSignature "0x1234567890abcdef12" = "0x123456...ef12 (20 bytes)"%string /\
  same_view "0x1234567890abcdef12" "0x123456ffffffffef12" /\ redactSignature "0x12" = "<4 bytes>"%string.
Proof. split_and!; [reflexivity| |reflexivity]. by vm_compute. Qed.

(** Two registrations of a party that bring different private keys. *)
Definition ex_dev : registrationService := mkRegistrationService (Identity.mkConfig "domain" "issuer" "user" "pkg") (replicate 32 1) true true.
Definition ex_native (key : string) : RegisterRequest :=
  mkRegisterRequest "" "hello" "alice::12200000000000000000000000000000000000000000000000000000000000000000" "0x1234" key "" "" "" "".
Definition ex_native_log (b : Z) : Log * Log :=
  registration_entries (@log_RegisterCantonNativeUser registering example_geth example_secp example_curve example_gcm ex_dev Second
    (ex_native (hex_encode (replicate 32 b)))) ex_reg_world.

Lemma log_keeps_secrets_witness :
  ex_native_log 1 = ex_native_log 2 /\ length (ex_native_log 1).1 = 2%nat /\ length (ex_native_log 1).2 = 1%nat.
Proof.
  split; [|by vm_compute].
  pose proof (@log_keeps_secrets registering example_geth example_secp example_curve example_gcm example_siwe example_jwt ex_dev
    TransferServiceProofs.ex_service ex_verifier ex_issuer) as (_ & Hnative & _).
  refine (Hnative Second (ex_native (hex_encode (replicate 32 1))) (ex_native (hex_encode (replicate 32 2))) ex_reg_world ex_reg_world _ _).
  - unfold request_view, same_view. by vm_compute.
  - vm_compute. auto.
Defined.
