(* ===== verification/TransferHttp.v ===== *)
(** * The transfer API over HTTP: pkg/transfer/http.go

    The handlers of the transfer routes: the authentication of the caller by a
    signed, timed message, the decoding and the checks of the request, and the
    call of the service.  A request is its headers, query values, path
    parameter and body; the body is the document the decoder reads from at most
    1 MB of it.  Writing the response is left out: a handler returns it. *)

From S2P Require Import Prelude AppErrors Effects GoStd GoText EthClient AuthMessages UserStore Decimal DamlValues Streaming LedgerApi TokenCodec LedgerClient Identity TokenRegistry TokenClient TokenClientProofs PreparedCache Erc20Service IndexerStore IndexerApi TransferService TransferServiceProofs.
From Stdlib Require Import Ascii String Qcanon.
Local Open Scope Z_scope.
Local Abbreviation length := Datatypes.length.

Definition messageMaxAge : Z := 5 * Minute.
Definition listIncomingDefaultLimit : Z := 50.
Definition listIncomingMaxLimit : Z := 200.

Record HttpRequest := mkHttpRequest {
  hr_headers : gmap string string;
  hr_query : gmap string string;
  hr_contractID : string;
  hr_body : option json;
}.

Definition header (r : HttpRequest) (name : string) : string := default ""%string (hr_headers r !! name).
Definition query_value (r : HttpRequest) (name : string) : string := default ""%string (hr_query r !! name).

(** ** Bodies *)

(** Decode with DisallowUnknownFields: every key is, up to case, a field. *)
Definition readJSON {A} (fields : list string) (decode : list (string * json) -> result A) (r : HttpRequest) : result A :=
  let bad e := Err (BadRequestError (Some e) "invalid JSON") in
  match hr_body r with
  | None => bad json_error
  | Some j =>
      match j with
      | JObject l =>
          if forallb (fun kv => existsb (EqualFold kv.1) fields) l
          then match decode l with Ok a => Ok a | Err e => bad e end
          else bad (ErrNew "json: unknown field")
      | JNull => match decode [] with Ok a => Ok a | Err e => bad e end
      | _ => bad json_error
      end
  end.

Definition read_PrepareRequest : HttpRequest -> result PrepareRequest :=
  readJSON ["to"; "to_party_id"; "amount"; "token"; "validity_seconds"]%string (fun l =>
    to ← string_field l "to"; party ← string_field l "to_party_id"; amount ← string_field l "amount"; token ← string_field l "token";
    secs ← int_field l "validity_seconds"; mret (mkPrepareRequest to party amount token secs)).

Definition read_CustodialTransferRequest : HttpRequest -> result CustodialTransferRequest :=
  readJSON ["to_party_id"; "amount"; "token"; "validity_seconds"]%string (fun l =>
    party ← string_field l "to_party_id"; amount ← string_field l "amount"; token ← string_field l "token";
    secs ← int_field l "validity_seconds"; mret (mkCustodialTransferRequest party amount token secs)).

Definition read_ExecuteRequest : HttpRequest -> result ExecuteRequest :=
  readJSON ["transfer_id"; "signature"; "signed_by"]%string (fun l =>
    id ← string_field l "transfer_id"; sig ← string_field l "signature"; by_ ← string_field l "signed_by";
    mret (mkExecuteRequest id sig by_)).

(** PrepareAcceptRequest: the instrument's admin. *)
Definition read_PrepareAcceptRequest : HttpRequest -> result string :=
  readJSON ["instrument_admin"]%string (fun l => string_field l "instrument_admin").

(** ** Query parameters *)

Definition parseOutgoingStatus (r : HttpRequest) : result string :=
  let s := query_value r "status" in
  if bool_decide (s = ""%string) || bool_decide (s = "all"%string) then Ok ""%string
  else if bool_decide (s = "pending"%string) then Ok TransferStatusPending
  else if bool_decide (s = "expired"%string) then Ok TransferStatusExpired
  else if bool_decide (s = "completed"%string) || bool_decide (s = "accepted"%string) then Ok TransferStatusCompleted
  else if bool_decide (s = "canceled"%string) then Ok TransferStatusCanceled
  else if bool_decide (s = "rejected"%string) then Ok TransferStatusRejected
  else Err (BadRequestError None "status must be pending, expired, completed, canceled, rejected, or all").

Definition parseListPagination (r : HttpRequest) : result Pagination :=
  page ← (let s := query_value r "page" in
          if bool_decide (s = ""%string) then Ok 1
          else match ParseInt s with
               | Ok v => if v <? 1 then Err (BadRequestError None "page must be an integer >= 1") else Ok v
               | Err _ => Err (BadRequestError None "page must be an integer >= 1")
               end);
  limit ← (let s := query_value r "limit" in
           if bool_decide (s = ""%string) then Ok listIncomingDefaultLimit
           else match ParseInt s with
                | Ok v => if (v <? 1) || (listIncomingMaxLimit <? v)
                          then Err (BadRequestError None "limit must be an integer between 1 and 200") else Ok v
                | Err _ => Err (BadRequestError None "limit must be an integer between 1 and 200")
                end);
  mret (mkPagination page limit).

Section handlers.
Context `{!Env} `{!GoEthereum} `{!Secp256k1} `{!DecimalLib} `{!IndexerReader}.
Variable s : TransferService.
(** the time at which the message of the request is checked *)
Variable now : Z.

Definition authenticateEVM (r : HttpRequest) : result string :=
  let sig := header r "X-Signature" in
  let msg := header r "X-Message" in
  if bool_decide (sig = ""%string) || bool_decide (msg = ""%string) then Err (UnAuthorizedError None "authentication required")
  else
    match ValidateTimedMessage now msg messageMaxAge with
    | Err e => Err (UnAuthorizedError (Some e) "message expired or invalid format")
    | Ok _ =>
        match VerifyEIP191Signature msg sig with
        | Err e => Err (UnAuthorizedError (Some e) "invalid signature")
        | Ok recovered => Ok (NormalizeAddress (Address_Hex recovered))
        end
    end.

(** decimal.NewFromString and IsPositive *)
Definition positive_amount (amount : string) : bool :=
  match NewFromString amount with Some d => negb (dec_IsNegative d) && negb (dec_IsZero d) | None => false end.

Definition bad_request (msg : string) : error := BadRequestError None msg.

Definition check {W} (b : bool) (msg : string) : M W unit := if b then mret tt else fail (bad_request msg).

Definition http_prepare (r : HttpRequest) : M World PrepareResponse :=
  evmAddr ← lift (authenticateEVM r);
  req ← lift (read_PrepareRequest r);
  _ ← check (negb (bool_decide (q_Amount req = ""%string) || bool_decide (q_Token req = ""%string))) "amount and token are required";
  _ ← check (negb (Bool.eqb (bool_decide (q_To req = ""%string)) (bool_decide (q_ToPartyID req = ""%string))))
        "exactly one of to or to_party_id is required";
  _ ← check (bool_decide (q_To req = ""%string) || ValidateEVMAddress (q_To req))
        "invalid recipient address: must be a 0x-prefixed 40-hex-char EVM address";
  _ ← check (positive_amount (q_Amount req)) "invalid amount: must be a positive decimal number";
  Prepare s evmAddr req.

Definition http_sendCustodial (r : HttpRequest) : M World ExecuteResponse :=
  evmAddr ← lift (authenticateEVM r);
  req ← lift (read_CustodialTransferRequest r);
  _ ← check (negb (bool_decide (cq_ToPartyID req = ""%string) || bool_decide (cq_Amount req = ""%string) ||
                   bool_decide (cq_Token req = ""%string))) "to_party_id, amount, and token are required";
  _ ← check (positive_amount (cq_Amount req)) "invalid amount: must be a positive decimal number";
  SendCustodial s evmAddr req.

(** execute and executeWithdraw; executeAccept calls ExecuteAccept. *)
Definition execute_with (op : string -> ExecuteRequest -> M World ExecuteResponse) (r : HttpRequest) : M World ExecuteResponse :=
  evmAddr ← lift (authenticateEVM r);
  req ← lift (read_ExecuteRequest r);
  _ ← check (negb (bool_decide (x_TransferID req = ""%string) || bool_decide (x_Signature req = ""%string) ||
                   bool_decide (x_SignedBy req = ""%string))) "transfer_id, signature, and signed_by are required";
  op evmAddr req.
Definition http_execute : HttpRequest -> M World ExecuteResponse := execute_with (Execute s).
Definition http_executeAccept : HttpRequest -> M World ExecuteResponse := execute_with (ExecuteAccept s).
Definition http_executeWithdraw : HttpRequest -> M World ExecuteResponse := execute_with (Execute s).

(** The address of a listing, which is not authenticated. *)
Definition list_address (r : HttpRequest) : result string :=
  let evmAddr := TrimSpace (query_value r "address") in
  if bool_decide (evmAddr = ""%string) then Err (bad_request "address query parameter is required")
  else if negb (ValidateEVMAddress evmAddr) then Err (bad_request "invalid address: must be a 0x-prefixed 40-hex-char EVM address")
  else Ok evmAddr.

Definition http_listIncoming (r : HttpRequest) : M World (TransfersList IncomingTransfer) :=
  evmAddr ← lift (list_address r); p ← lift (parseListPagination r); ListIncoming s (NormalizeAddress evmAddr) p.
Definition http_listOutgoing (r : HttpRequest) : M World (TransfersList OutgoingTransfer) :=
  evmAddr ← lift (list_address r); status ← lift (parseOutgoingStatus r); p ← lift (parseListPagination r);
  ListOutgoing s (NormalizeAddress evmAddr) status p.
Definition http_listCompleted (r : HttpRequest) : M World (TransfersList CompletedTransfer) :=
  evmAddr ← lift (list_address r); p ← lift (parseListPagination r); ListCompleted s (NormalizeAddress evmAddr) p.

Definition path_contract (r : HttpRequest) : result string :=
  if bool_decide (hr_contractID r = ""%string) then Err (bad_request "contractID path parameter is required") else Ok (hr_contractID r).

Definition http_prepareAccept (r : HttpRequest) : M World PrepareResponse :=
  evmAddr ← lift (authenticateEVM r);
  contractID ← lift (path_contract r);
  admin ← lift (read_PrepareAcceptRequest r);
  _ ← check (negb (bool_decide (admin = ""%string))) "instrument_admin is required";
  PrepareAccept s evmAddr contractID admin.

Definition http_prepareWithdraw (r : HttpRequest) : M World PrepareResponse :=
  evmAddr ← lift (authenticateEVM r); contractID ← lift (path_contract r); PrepareWithdraw s evmAddr contractID.
Definition http_withdrawCustodial (r : HttpRequest) : M World ExecuteResponse :=
  evmAddr ← lift (authenticateEVM r); contractID ← lift (path_contract r); WithdrawCustodial s evmAddr contractID.
End handlers.

(** ** Who a request acts for *)

Section proofs.
Context `{!Env} `{!GoEthereum} `{!Secp256k1} `{DecimalLaws} `{!IndexerReader} `{!IndexerReaderLaws}.
Variable s : TransferService.
Variable now : Z.

(** The caller of a request: the address that signed its message, whose time is
    within five minutes of the server's, or overflows. *)
Definition signed_by (r : HttpRequest) (evmAddr : string) : Prop :=
  exists a, timely now (5 * Minute) (header r "X-Message") /\
    VerifyEIP191Signature (header r "X-Message") (header r "X-Signature") = Ok a /\ evmAddr = NormalizeAddress (Address_Hex a).

Lemma wp_authenticated {A} r (k : string -> M World A) (Q : result A -> World -> Prop) w :
  (forall e, Q (Err e) w) -> (forall a, signed_by r a -> wp (k a) Q w) -> wp (a ← lift (authenticateEVM now r); k a) Q w.
Proof.
  intros Herr Hk. apply wp_bind, wp_lift. unfold authenticateEVM. destruct (_ || _); [apply Herr|].
  destruct (ValidateTimedMessage now _ _) as [[]|e] eqn:Hv; [|apply Herr].
  destruct (VerifyEIP191Signature _ _) as [a|e] eqn:Hs; [|apply Herr]. apply Hk. exists a.
  split; [|done]. by apply (ValidateTimedMessage_timely _ _ messageMaxAge).
Qed.

Lemma wp_http_check {A} b msg (k : M World A) (Q : result A -> World -> Prop) w :
  (forall e, Q (Err e) w) -> (b = true -> wp k Q w) -> wp (_ ← check b msg; k) Q w.
Proof. intros Herr Hk. apply wp_bind. unfold check. destruct b; [apply wp_ret; auto|by apply wp_fail]. Qed.

Lemma wp_lift_checked {A B} (c : result A) (k : A -> M World B) (Q : result B -> World -> Prop) w :
  (forall e, Q (Err e) w) -> (forall a, c = Ok a -> wp (k a) Q w) -> wp (a ← lift c; k a) Q w.
Proof. intros Herr Hk. apply wp_bind, wp_lift. destruct c; auto. Qed.

Lemma positive_amount_spec amount : positive_amount amount = true -> (Qc_of_Z 0 < amount_val amount)%Qc.
Proof.
  unfold positive_amount, amount_val. destruct (NewFromString amount) as [d|]; [|done].
  rewrite andb_true_iff, !negb_true_iff. intros [Hn Hz]. destruct (Qcanon.Qclt_le_dec (Qc_of_Z 0) (dec_val d)) as [|Hle]; [done|].
  destruct (Qcanon.Qcle_lt_or_eq _ _ Hle) as [Hlt|Heq].
  - apply dlaw_neg in Hlt. congruence.
  - apply dlaw_iszero in Heq. congruence.
Qed.

(** A request that had no effect: an error, and the state unchanged. *)
Definition refused {A} (w : World) (r : result A) (w' : World) : Prop := w' = w /\ is_ok r = false.


(** The pages a listing asks the indexer for are the pages it serves. *)
Lemma parseListPagination_served r p : parseListPagination r = Ok p -> 1 <= Page p /\ 1 <= Limit p <= listIncomingMaxLimit.
Proof.
  unfold parseListPagination. destruct (bool_decide (query_value r "page" = ""%string)).
  - cbn. destruct (bool_decide _); [intros [= <-]; cbn; unfold listIncomingDefaultLimit, listIncomingMaxLimit; lia|].
    destruct (ParseInt (query_value r "limit")) as [v|]; [|done]. destruct (_ || _) eqn:Hv; [done|]. intros [= <-]. cbn.
    apply orb_false_iff in Hv as [?%Z.ltb_ge ?%Z.ltb_ge]. lia.
  - destruct (ParseInt (query_value r "page")) as [v|]; [|done]. destruct (Z.ltb_spec v 1); [done|]. cbn.
    destruct (bool_decide _); [intros [= <-]; cbn; unfold listIncomingDefaultLimit, listIncomingMaxLimit; lia|].
    destruct (ParseInt (query_value r "limit")) as [v'|]; [|done]. destruct (_ || _) eqn:Hv; [done|]. intros [= <-]. cbn.
    apply orb_false_iff in Hv as [?%Z.ltb_ge ?%Z.ltb_ge]. lia.
Qed.
End proofs.

(** ** Witness: a signed claim-back *)

Definition ex_now : Z := 1760000000 * Second.
Definition ex_request : HttpRequest := mkHttpRequest
  (<["X-Signature"%string := ex_signature]> {["X-Message"%string := timed_message "transfer" 1760000100]}) ∅ "offer-1" None.
Definition ex_caller : string := match @authenticateEVM AuthMessages.example_geth example_secp ex_now ex_request with Ok a => a | Err _ => ""%string end.
Definition ex_http_world : World :=
  mkWorld (mkDB (mkUserTables [toUserDao (New 7 ex_caller "carol::12" "0xf3" "cid" "enc")] ∅) []) [] (NewPreparedTransferCache 60 10).

