(* ===== verification/HttpRouter.v ===== *)
(** * HttpRouter: requests, handlers and routes

    What the HTTP surfaces of the three servers share: requests and JSON
    responses, the error handler of pkg/app/http/handler.go, and the routing
    of the chi router as far as the servers use it: methods, literal segments
    and parameters. *)

From S2P Require Import Prelude AppErrors Effects GoStd GoText LedgerApi TokenCodec.
From Stdlib Require Import Ascii String.
Local Open Scope Z_scope.
Local Abbreviation length := Datatypes.length.

(** ** Requests and responses *)

(** A request: the segments of its path, and its body both as the first JSON
    document in it (what a decoder reads) and as one whole document (what
    Unmarshal reads of the bytes that ReadAll returned). *)
Record ApiRequest := mkApiRequest {
  aq_method : string;
  aq_path : list string;
  aq_headers : gmap string string;
  aq_query : gmap string string;
  aq_first : option json;
  aq_whole : result (option json);
}.

Definition aq_header (r : ApiRequest) (name : string) : string := default ""%string (aq_headers r !! name).
Definition aq_get (r : ApiRequest) (name : string) : string := default ""%string (aq_query r !! name).

Record HttpResponse (P : Type) := mkHttpResponse { hp_status : Z; hp_headers : gmap string string; hp_body : option P }.
Arguments mkHttpResponse {P} _ _ _.
Arguments hp_status {P} _.
Arguments hp_headers {P} _.
Arguments hp_body {P} _.

(** writeJSON: every value written is one that marshals. *)
Definition writeJSON {P} (status : Z) (data : P) : HttpResponse P :=
  mkHttpResponse status {["Content-Type"%string := "application/json"%string]} (Some data).

(** ** Bodies *)

(** io.ReadAll and json.Unmarshal *)
Definition read_body {A} (decode : json -> result A) (r : ApiRequest) : result A :=
  match aq_whole r with
  | Err e => Err (BadRequestError (Some e) "failed to read request")
  | Ok None => Err (BadRequestError (Some json_error) "invalid JSON")
  | Ok (Some j) => match decode j with Ok a => Ok a | Err e => Err (BadRequestError (Some e) "invalid JSON") end
  end.

Section router.
Context {W P : Type}.

Definition require (b : bool) (e : error) : M W unit := if b then mret tt else fail e.

(** apphttp.HandleError *)
Definition handle (error_body : string -> Z -> P) (h : M W P) : M W (HttpResponse P) :=
  r ← attempt h;
  mret (match r with
        | Ok p => writeJSON 200 p
        | Err e => let '(status, (msg, code)) := DefaultErrorHandler e in writeJSON status (error_body msg code)
        end).

(** ** Routes *)

(** A route of the router: its method, or any; the segments of its pattern, a
    parameter being [None]; and its handler, of the values of the parameters. *)
Record Route := mkRoute {
  rt_method : option string;
  rt_pattern : list (option string);
  rt_handler : list string -> M W (HttpResponse P);
}.

(** Literal segments, and "{}" for a parameter. *)
Definition pattern (segs : list string) : list (option string) := (fun s => if bool_decide (s = "{}"%string) then None else Some s) <$> segs.

(** The parameters of a path that matches a pattern. *)
Fixpoint match_path (pat : list (option string)) (path : list string) : option (list string) :=
  match pat, path with
  | [], [] => Some []
  | Some lit :: pat, seg :: path => if bool_decide (lit = seg) then match_path pat path else None
  | None :: pat, seg :: path => params ← match_path pat path; Some (seg :: params)
  | _, _ => None
  end.

(** The router's own answers; [text] is a plain body. *)
Variable text : string -> P.
Definition not_found : HttpResponse P := mkHttpResponse 404 ∅ (Some (text "404 page not found")).
Definition method_not_allowed : HttpResponse P := mkHttpResponse 405 ∅ None.

Definition takes_method (r : ApiRequest) (rt : Route) : bool :=
  match rt_method rt with Some m => bool_decide (m = aq_method r) | None => true end.

(** The route of a request: a later registration replaces an earlier one; a path
    that only other methods serve is answered 405, any other one 404. *)
Definition dispatch (routes : list Route) (r : ApiRequest) (path : list string) : M W (HttpResponse P) :=
  let matching : list (Route * list string) := omap (fun rt => params ← match_path (rt_pattern rt) path; Some (rt, params)) (rev routes) in
  match List.find (fun m => takes_method r m.1) matching with
  | Some (rt, params) => rt_handler rt params
  | None => mret (match matching with [] => not_found | _ => method_not_allowed end)
  end.

Definition Get (path : list string) (h : M W (HttpResponse P)) : Route := mkRoute (Some "GET"%string) (pattern path) (fun _ => h).
Definition Post (path : list string) (h : M W (HttpResponse P)) : Route := mkRoute (Some "POST"%string) (pattern path) (fun _ => h).
(** A route with one parameter. *)
Definition Post1 (path : list string) (h : string -> M W (HttpResponse P)) : Route :=
  mkRoute (Some "POST"%string) (pattern path) (fun ps => h (List.hd ""%string ps)).
Definition Delete1 (path : list string) (h : string -> M W (HttpResponse P)) : Route :=
  mkRoute (Some "DELETE"%string) (pattern path) (fun ps => h (List.hd ""%string ps)).
Definition Handle (path : list string) (h : M W (HttpResponse P)) : Route := mkRoute None (pattern path) (fun _ => h).

(** ** Reasoning about handlers and routes *)

Lemma wp_handle eb h (I : W -> Prop) st :
  wp h (fun _ st' => I st') st -> wp (handle eb h) (fun r st' => is_ok r = true /\ I st') st.
Proof. intros Hh. apply wp_bind, wp_attempt. eapply wp_mono; [exact Hh|]. intros r st' HI. by apply wp_ret. Qed.

(** What every route of a table guarantees, the table guarantees. *)
Lemma wp_dispatch routes r path (I : W -> Prop) st :
  I st ->
  Forall (fun rt => forall ps, match_path (rt_pattern rt) path = Some ps ->
    wp (rt_handler rt ps) (fun resp st' => is_ok resp = true /\ I st') st) routes ->
  wp (dispatch routes r path) (fun resp st' => is_ok resp = true /\ I st') st.
Proof.
  intros Hst Hrs. unfold dispatch. destruct (List.find _ _) as [[rt ps]|] eqn:Hf; [|by apply wp_ret].
  apply find_some in Hf as [Hin _]. apply list_elem_of_In, list_elem_of_omap in Hin as (rt' & Hin & Hm).
  destruct (match_path _ _) eqn:Hp; simplify_option_eq. rewrite Forall_forall in Hrs. apply Hrs; [|done].
  by apply list_elem_of_In, in_rev, list_elem_of_In.
Qed.

(** A path that matches a pattern starts with its literals. *)
Lemma match_path_prefix lits rest path ps :
  match_path ((Some <$> lits) ++ rest) path = Some ps -> take (length lits) path = lits.
Proof.
  revert path. induction lits as [|l lits IH]; intros [|seg path] Hm; try done. cbn in *.
  case_bool_decide; [|done]. subst. f_equal. by apply IH.
Qed.

Lemma wp_require b e Q (st : W) :
  Q (Err e) st -> (b = true -> Q (Ok tt) st) -> wp (require b e) Q st.
Proof. intros Herr Hok. unfold require. destruct b; [by apply wp_ret, Hok|by apply wp_fail]. Qed.
End router.
Arguments Route _ _ : clear implicits.
