(* ===== verification/EvmJsonRpc.v ===== *)
(** * EvmJsonRpc: the JSON-RPC endpoint

    pkg/ethrpc/service/eth_api.go, net_api.go, web3_api.go and http.go: the
    methods of the three namespaces over the handlers of EvmService, and the
    HTTP handler with its headers.  The server that the methods are registered
    with is go-ethereum's rpc.Server and a parameter: for a request it is any
    finite strategy that invokes registered methods, one after the other and each
    depending on the answers so far, and ends with the response it writes.  It
    decides which calls, notifications and batches are run, how parameters are
    decoded and how answers are written; nothing is assumed of it. *)

From S2P Require Import Prelude AppErrors Effects GoStd EthClient EvmStore EvmMiner EvmLifecycle EvmSubmitter EvmService EvmServiceProofs HttpRouter.
Local Open Scope Z_scope.

(** A call of a registered method, with its parameters. *)
Inductive RpcCall :=
| eth_chainId | eth_blockNumber | eth_gasPrice | eth_maxPriorityFeePerGas
| eth_estimateGas (args : option CallArgs) (block : option BlockNumberOrHash)
| eth_getBalance (address : Address) (block : BlockNumberOrHash)
| eth_getTransactionCount (address : Address) (block : BlockNumberOrHash)
| eth_getCode (address : Address) (block : BlockNumberOrHash)
| eth_syncing
| eth_sendRawTransaction (data : list Z)
| eth_getTransactionReceipt (hash : Hash)
| eth_getTransactionByHash (hash : Hash)
| eth_call (args : option CallArgs) (block : BlockNumberOrHash)
| eth_getLogs (query : FilterQuery)
| eth_getBlockByNumber (block : BlockNumberOrHash) (fullTx : bool)
| eth_getBlockByHash (hash : Hash) (fullTx : bool)
| net_version | net_listening | net_peerCount
| web3_clientVersion | web3_sha3 (input : list Z).

(** The name a method is registered under. *)
Definition method_name (c : RpcCall) : string :=
  match c with
  | eth_chainId => "eth_chainId" | eth_blockNumber => "eth_blockNumber" | eth_gasPrice => "eth_gasPrice"
  | eth_maxPriorityFeePerGas => "eth_maxPriorityFeePerGas" | eth_estimateGas _ _ => "eth_estimateGas"
  | eth_getBalance _ _ => "eth_getBalance" | eth_getTransactionCount _ _ => "eth_getTransactionCount"
  | eth_getCode _ _ => "eth_getCode" | eth_syncing => "eth_syncing" | eth_sendRawTransaction _ => "eth_sendRawTransaction"
  | eth_getTransactionReceipt _ => "eth_getTransactionReceipt" | eth_getTransactionByHash _ => "eth_getTransactionByHash"
  | eth_call _ _ => "eth_call" | eth_getLogs _ => "eth_getLogs" | eth_getBlockByNumber _ _ => "eth_getBlockByNumber"
  | eth_getBlockByHash _ _ => "eth_getBlockByHash" | net_version => "net_version" | net_listening => "net_listening"
  | net_peerCount => "net_peerCount" | web3_clientVersion => "web3_clientVersion" | web3_sha3 _ => "web3_sha3"
  end.

(** What a method returns. *)
Inductive RpcValue :=
| RQuantity (n : Z) | RBool (b : bool) | RText (s : string) | RData (b : list Z)
| RReceipt (r : option RPCReceipt) | RTransaction (t : option RPCTransaction) | RLogs (l : list RPCLog) | RBlock (b : option RPCBlock).

(** What rpc.Server does for a request: it invokes registered methods and then
    responds.  An invocation is that of a call or of a notification, for which
    nothing is written. *)
Inductive Serving (P : Type) :=
| Respond (p : HttpResponse P)
| Invoke (c : RpcCall) (next : result RpcValue -> Serving P).
Arguments Respond {P} _.
Arguments Invoke {P} _ _.

Section endpoint.
Context {X : Type} `{!GoEthereum} `{!EthTypes} `{!TokenService X} `{!TokenViews X}.
Variables (chainID : Z) (hasTokenService : bool) (IsWhitelisted : string -> result bool).

(** NetAPI and Web3API *)
Definition net_Version : string := FormatInt (ChainID chainID).
Definition net_Listening : bool := true.
Definition net_PeerCount : Z := 0.
Definition web3_ClientVersion : string := "canton-middleware/1.0.0".
Definition web3_Sha3 (input : list Z) : list Z := Keccak256 input.

(** The methods: those of EthAPI, which pass the call to the service without
    the parameters it does not use, and the others; [x] is the outside world
    that the token views read and [elapsed] the seconds since start-up. *)
Definition rpc_method (x : X) (elapsed : Z) (c : RpcCall) : M EvmDB RpcValue :=
  match c with
  | eth_chainId => mret (RQuantity (ChainID chainID))
  | eth_blockNumber => n ← BlockNumber elapsed; mret (RQuantity n)
  | eth_gasPrice => mret (RQuantity GasPrice)
  | eth_maxPriorityFeePerGas => mret (RQuantity MaxPriorityFeePerGas)
  | eth_estimateGas _ _ => mret (RQuantity EstimateGas)
  | eth_getBalance a _ => n ← lift (EvmService.GetBalance a x); mret (RQuantity n)
  | eth_getTransactionCount a _ => n ← GetTransactionCount a; mret (RQuantity n)
  | eth_getCode a _ => mret (RData (GetCode hasTokenService a))
  | eth_syncing => mret (RBool Syncing)
  | eth_sendRawTransaction data => h ← SendRawTransaction chainID IsWhitelisted data; mret (RData h)
  | eth_getTransactionReceipt h => r ← GetTransactionReceipt h; mret (RReceipt r)
  | eth_getTransactionByHash h => t ← GetTransactionByHash chainID h; mret (RTransaction t)
  | eth_call args _ => b ← lift (Call args x); mret (RData b)
  | eth_getLogs q => l ← GetLogs q; mret (RLogs l)
  | eth_getBlockByNumber n _ => b ← GetBlockByNumber chainID elapsed n; mret (RBlock b)
  | eth_getBlockByHash h _ => b ← GetBlockByHash chainID elapsed h; mret (RBlock b)
  | net_version => mret (RText net_Version)
  | net_listening => mret (RBool net_Listening)
  | net_peerCount => mret (RQuantity net_PeerCount)
  | web3_clientVersion => mret (RText web3_ClientVersion)
  | web3_sha3 input => mret (RData (web3_Sha3 input))
  end.

(** The invocations made for a request, with what the methods returned; [env]
    is the world and the clock at each of them. *)
Fixpoint rpc_serve {P} (env : nat -> X * Z) (s : Serving P) : M EvmDB (list (RpcCall * result RpcValue) * HttpResponse P) :=
  match s with
  | Respond p => mret ([], p)
  | Invoke c next =>
      r ← attempt (rpc_method (env O).1 (env O).2 c);
      '(invoked, p) ← rpc_serve (fun i => env (S i)) (next r);
      mret ((c, r) :: invoked, p)
  end.

(** handle of http.go: its headers are set before the server writes its own. *)
Definition eth_headers : gmap string string :=
  <["Access-Control-Allow-Origin" := "*"]> (<["Access-Control-Allow-Methods" := "POST, OPTIONS"]>
    (<["Access-Control-Allow-Headers" := "Content-Type"]> ∅)).

Definition eth_handle {P} (ServeHTTP : ApiRequest -> Serving P) (env : nat -> X * Z) (r : ApiRequest) :
    M EvmDB (list (RpcCall * result RpcValue) * HttpResponse P) :=
  if bool_decide (aq_method r = "OPTIONS"%string) then mret ([], mkHttpResponse 200 eth_headers None)
  else
    '(invoked, p) ← rpc_serve env (ServeHTTP r);
    mret (invoked, mkHttpResponse (hp_status p) (hp_headers p ∪ eth_headers) (hp_body p)).
End endpoint.

(** ** What a request can change *)

(** A computation that changes no table. *)
Definition keeps {A} (c : M EvmDB A) : Prop := forall d, tables (c d).2 = tables d.

Lemma keeps_ret {A} (a : A) : keeps (mret a).
Proof. done. Qed.
Lemma keeps_lift {A} (r : result A) : keeps (lift r).
Proof. done. Qed.
Lemma keeps_query {A} (f : EvmTables -> A) : keeps (query f).
Proof. intros d. unfold query, exec. by destruct (faults d) as [|[m|] fs]. Qed.
Lemma keeps_bind {A B} (c : M EvmDB A) (k : A -> M EvmDB B) : keeps c -> (forall a, keeps (k a)) -> keeps (c ≫= k).
Proof.
  intros Hc Hk d. specialize (Hc d). unfold mbind, M_bind. destruct (c d) as [[a|e] d1]; cbn in *; [|done]. by rewrite Hk.
Qed.
Lemma keeps_wrapping {A} pre (c : M EvmDB A) : keeps c -> keeps (wrapping pre c).
Proof. intros Hc d. specialize (Hc d). unfold wrapping. by destruct (c d) as [[]]. Qed.
Lemma keeps_dependency {A} msg (c : M EvmDB A) : keeps c -> keeps (dependency msg c).
Proof. intros Hc d. specialize (Hc d). unfold dependency. by destruct (c d) as [[]]. Qed.

Create HintDb keeps.
#[local] Hint Resolve keeps_ret keeps_lift keeps_query keeps_bind keeps_wrapping keeps_dependency : keeps.
#[local] Hint Extern 3 (keeps (match ?o with _ => _ end)) => destruct o : keeps.

Section effects.
Context {X : Type} `{!GoEthereum} `{!EthTypes} `{!TokenService X} `{!TokenViews X}.
Variables (chainID : Z) (hasTokenService : bool) (IsWhitelisted : string -> result bool).
Abbreviation rpc_method := (rpc_method chainID hasTokenService IsWhitelisted).
Abbreviation rpc_serve := (rpc_serve chainID hasTokenService IsWhitelisted).

Lemma keeps_GetBlockByNumber elapsed n : keeps (GetBlockByNumber chainID elapsed n).
Proof. unfold GetBlockByNumber, BlockNumber, GetLatestEvmBlockNumber. auto 10 with keeps. Qed.

Lemma keeps_method x elapsed c : (forall data, c <> eth_sendRawTransaction data) -> keeps (rpc_method x elapsed c).
Proof.
  intros Hc. destruct c; cbn [EvmJsonRpc.rpc_method]; try by auto with keeps.
  - unfold BlockNumber, GetLatestEvmBlockNumber. auto 10 with keeps.
  - unfold GetTransactionCount, GetEvmTransactionCount. auto 10 with keeps.
  - by destruct (Hc data).
  - unfold GetTransactionReceipt, GetEvmTransaction, GetEvmLogsByTxHash. auto 12 with keeps.
  - unfold GetTransactionByHash, GetEvmTransaction. auto 12 with keeps.
  - unfold GetLogs, GetEvmLogs, GetLatestEvmBlockNumber. auto 12 with keeps.
  - apply keeps_bind; [apply keeps_GetBlockByNumber|auto with keeps].
  - unfold GetBlockByHash, GetBlockNumberByHash. apply keeps_bind; [|auto with keeps].
    apply keeps_bind; [auto 10 with keeps|]. intros n. destruct (0 <? n); apply keeps_GetBlockByNumber.
Qed.

(** The row of an accepted transaction. *)
Definition pending_row (id : Z) (e : MempoolEntry) : MempoolEntryDao :=
  mkMempoolEntryDao id (me_TxHash e) (me_FromAddress e) (me_ContractAddress e)
    (me_RecipientAddress e) (me_Nonce e) (me_Input e) (me_AmountData e) MempoolPending None.

(** The transactions that were invoked and answered with a hash. *)
Definition accepted (invoked : list (RpcCall * result RpcValue)) : list (list Z * Hash) :=
  omap (fun i => match i with (eth_sendRawTransaction data, Ok (RData h)) => Some (data, h) | _ => None end) invoked.

(** The tables after a request: the synthetic chain and the rows of the mempool
    are those before it; every transaction that was answered with a hash is a
    transfer signed by a whitelisted sender and has a row under its hash; and
    every new row is the pending row of such a transaction. *)
Record rpc_effect (sent : list (list Z * Hash)) (tb tb' : EvmTables) : Prop := {
  re_blocks : evm_transactions tb' = evm_transactions tb /\ evm_logs tb' = evm_logs tb /\ latest_block tb' = latest_block tb;
  re_kept : mempool tb ⊆ mempool tb';
  re_sent : forall data h, (data, h) ∈ sent -> is_Some (mempool tb' !! h) /\
    exists tx from contract to amount, valid_transfer chainID IsWhitelisted data tx from contract to amount /\ h = raw_Hash tx;
  re_new : forall h row, mempool tb' !! h = Some row -> mempool tb !! h = None ->
    exists data tx from contract to amount id, (data, h) ∈ sent /\ valid_transfer chainID IsWhitelisted data tx from contract to amount /\
      h = raw_Hash tx /\ row = pending_row id (entry_for tx from contract to amount);
}.

Lemma rpc_effect_refl tb : rpc_effect [] tb tb.
Proof. split; [done|done|by intros data h ?%elem_of_nil|]. intros h row Hr Hn. congruence. Qed.

Lemma rpc_effect_trans s1 s2 tb1 tb2 tb3 : rpc_effect s1 tb1 tb2 -> rpc_effect s2 tb2 tb3 -> rpc_effect (s1 ++ s2) tb1 tb3.
Proof.
  intros [(H1 & H2 & H3) Hk Hs Hn] [(H1' & H2' & H3') Hk' Hs' Hn']. split; [split_and!; congruence|by etransitivity| |].
  - intros data h [Hin|Hin]%elem_of_app; [|by apply Hs']. destruct (Hs data h Hin) as [[row Hrow] Hv].
    split; [exists row; by eapply lookup_weaken|done].
  - intros h row Hr Hnone. destruct (mempool tb2 !! h) as [row2|] eqn:H2h.
    + assert (row2 = row) as -> by (eapply lookup_weaken in H2h; [|exact Hk']; congruence).
      destruct (Hn h row H2h Hnone) as (data & tx & from & contract & to & amount & id & Hin & Hrest).
      exists data, tx, from, contract, to, amount, id. split; [apply elem_of_app; by left|done].
    + destruct (Hn' h row Hr H2h) as (data & tx & from & contract & to & amount & id & Hin & Hrest).
      exists data, tx, from, contract, to, amount, id. split; [apply elem_of_app; by right|done].
Qed.

Lemma with_entry_effect data tx from contract to amount tb :
  valid_transfer chainID IsWhitelisted data tx from contract to amount ->
  rpc_effect [(data, raw_Hash tx)] tb (with_entry (entry_for tx from contract to amount) tb).
Proof.
  intros Hv. unfold with_entry. set (e := entry_for tx from contract to amount).
  change (me_TxHash e) with (raw_Hash tx). destruct (mempool tb !! raw_Hash tx) as [row|] eqn:Hh; cbn.
  - split; cbn; [done|done| |].
    + intros data' h [= -> ->]%list_elem_of_singleton. rewrite Hh. eauto 10.
    + intros h r Hr Hn. congruence.
  - split; cbn; [done|by apply insert_subseteq| |].
    + intros data' h [= -> ->]%list_elem_of_singleton. rewrite lookup_insert_eq. eauto 10.
    + intros h r Hr Hn. apply lookup_insert_Some in Hr as [[<- <-]|[_ Hr]]; [|congruence].
      exists data, tx, from, contract, to, amount, (next_id tb). split; [by left|done].
Qed.

(** An invocation changes what its transaction adds. *)
Lemma rpc_method_effect x elapsed c d :
  wp (rpc_method x elapsed c) (fun r d' => rpc_effect (accepted [(c, r)]) (tables d) (tables d')) d.
Proof.
  assert ((exists data, c = eth_sendRawTransaction data) \/ forall data, c <> eth_sendRawTransaction data) as [[data ->]|Hc]
    by (destruct c; eauto; by right).
  - cbn [EvmJsonRpc.rpc_method]. apply wp_bind. eapply wp_mono; [apply SendRawTransaction_outcome|].
    intros [h|e] d1.
    + intros (tx & from & contract & to & amount & Hv & -> & Ht). apply wp_ret. rewrite Ht. by apply with_entry_effect.
    + intros [Ht _]. rewrite Ht. apply rpc_effect_refl.
  - apply wp_intro. intros r d1 Hr. pose proof (keeps_method x elapsed c Hc d) as Hk. rewrite Hr in Hk. cbn in Hk. rewrite Hk.
    assert (accepted [(c, r)] = []) as -> by (destruct c; try done; by destruct (Hc data)). apply rpc_effect_refl.
Qed.

Lemma rpc_serve_effect {P} (s : Serving P) env d :
  wp (rpc_serve env s) (fun r d' => exists invoked p, r = Ok (invoked, p) /\ rpc_effect (accepted invoked) (tables d) (tables d')) d.
Proof.
  revert env d. induction s as [p|c next IH]; intros env d; cbn [EvmJsonRpc.rpc_serve].
  - apply wp_ret. exists [], p. split; [done|apply rpc_effect_refl].
  - apply wp_bind, wp_attempt. eapply wp_mono; [apply rpc_method_effect|]. intros r d1 He. cbv beta.
    apply wp_bind. eapply wp_mono; [apply IH|]. intros res d2 (invoked & p & -> & He2). apply wp_ret.
    exists ((c, r) :: invoked), p. split; [done|]. change ((c, r) :: invoked) with ([(c, r)] ++ invoked).
    unfold accepted. rewrite omap_app. by apply (rpc_effect_trans _ _ _ (tables d1)).
Qed.

(** C23: all that the JSON-RPC endpoint can do, whatever go-ethereum's server
    makes of a request: single calls, notifications, batches, refusals, calls
    that depend on the answers of earlier ones, in any order and number.  The
    synthetic chain is left as it is and no row of the mempool changes.  Every
    eth_sendRawTransaction that is answered with a hash carried a zero-value
    transfer on a supported contract, signed by a whitelisted sender, and its
    hash has a row in the mempool; every new row is the pending row of such a
    transaction, so the other methods, and the transactions that are answered
    with an error, add none.  An OPTIONS request invokes no method and is answered with 200
    and the CORS headers, and every other response carries these headers too,
    with the values of handle unless the server overwrites them.  The invocations of one request are
    taken without other writers of the tables in between. *)
Theorem endpoint_effects {P} (ServeHTTP : ApiRequest -> Serving P) env r d :
  wp (eth_handle chainID hasTokenService IsWhitelisted ServeHTTP env r) (fun res d' =>
    exists invoked p, res = Ok (invoked, p) /\ rpc_effect (accepted invoked) (tables d) (tables d') /\
      (aq_method r = "OPTIONS"%string -> invoked = [] /\ d' = d /\ p = mkHttpResponse 200 eth_headers None) /\
      (forall k, is_Some (eth_headers !! k) -> is_Some (hp_headers p !! k))) d.
Proof.
  unfold eth_handle. case_bool_decide as Hm.
  - apply wp_ret. eexists _, _. split; [done|]. split; [apply rpc_effect_refl|done].
  - apply wp_bind. eapply wp_mono; [apply rpc_serve_effect|]. intros res d' (invoked & p & -> & He). apply wp_ret.
    eexists _, _. split; [done|]. split; [exact He|]. split; [done|]. cbn. intros k Hk. rewrite lookup_union.
    destruct (hp_headers p !! k), (eth_headers !! k); by (destruct Hk || eauto).
Qed.
End effects.
