(* ===== verification/ApiServer.v ===== *)
(** * ApiServer: the HTTP surface of the API server

    The handlers of registration (pkg/user/service/http.go), of whitelist
    administration with its bearer token (pkg/user/whitelist/http.go), of the
    token list (pkg/token/http.go) and of the registry (pkg/registry), the CORS
    middleware (pkg/app/http/middleware.go), and the router that
    pkg/app/api/server.go builds from them and from the transfer routes of
    TransferHttp.  The state is that of all services together.  The JSON-RPC
    endpoint /eth has a state of its own and is the subject of EvmJsonRpc. *)

From S2P Require Import Prelude AppErrors Effects GoStd GoText EthClient AuthMessages UserStore Whitelist Decimal DamlValues Streaming LedgerApi Keys TokenCodec LedgerClient Identity TokenRegistry TokenClient TokenClientProofs PreparedCache Erc20Service IndexerStore IndexerApi UserService UserServiceProofs TransferService TransferServiceProofs TransferHttp HttpRouter.
From Stdlib Require Import Ascii String Qcanon.
Local Open Scope Z_scope.
Local Abbreviation length := Datatypes.length.

(** The value a handler writes as its JSON body. *)
Inductive Payload :=
| PText (s : string)
| PRegister (r : RegisterResponse)
| PTopology (r : PrepareTopologyResponse)
| PUser (u : User)
| PStatus (s : string)
| PWhitelist (p : Whitelist.Page)
| PTokens (p : TokensPage)
| PFactory (contractID blob : string) (template : Identifier)
| PPrepare (r : PrepareResponse)
| PExecute (r : ExecuteResponse)
| PIncoming (l : TransfersList IncomingTransfer)
| POutgoing (l : TransfersList OutgoingTransfer)
| PCompleted (l : TransfersList CompletedTransfer)
| PError (msg : string) (code : option Z).

(** The state of the services: users, ledger, topology cache, prepared transfers. *)
Record ApiState := mkApiState {
  st_users : UserDB;
  st_history : history;
  st_topology : TopologyCache;
  st_prepared : PreparedTransferCache;
}.

(** The entries that the registration service logs are not part of this state. *)
Definition on_registration {A} (c : M RegWorld A) : M ApiState A :=
  zoom (fun s => mkRegWorld (st_users s) (st_history s) (st_topology s) [])
    (fun w s => mkApiState (rw_users w) (rw_history w) (rw_topology w) (st_prepared s)) c.
Definition on_transfers {A} (c : M World A) : M ApiState A :=
  zoom (fun s => mkWorld (st_users s) (st_history s) (st_prepared s))
    (fun w s => mkApiState (w_users w) (w_history w) (st_topology s) (w_cache w)) c.
Definition on_store {A} (c : M UserDB A) : M ApiState A :=
  zoom st_users (fun u s => mkApiState u (st_history s) (st_topology s) (st_prepared s)) c.
Definition on_chain {A} (c : M history A) : M ApiState A :=
  zoom st_history (fun h s => mkApiState (st_users s) h (st_topology s) (st_prepared s)) c.

(** ** Bodies *)

Definition unmarshal_RegisterRequest : json -> result RegisterRequest := object (fun l =>
  sig ← string_field l "signature"; msg ← string_field l "message"; party ← string_field l "canton_party_id";
  csig ← string_field l "canton_signature"; key ← string_field l "canton_private_key"; mode ← string_field l "key_mode";
  pub ← string_field l "canton_public_key"; token ← string_field l "registration_token"; top ← string_field l "topology_signature";
  mret (mkRegisterRequest sig msg party csig key mode pub token top)).

(** addRequest: the address and the note *)
Definition unmarshal_addRequest : json -> result (string * string) := object (fun l =>
  address ← string_field l "evm_address"; note ← string_field l "note"; mret (address, note)).

(** The signature of the body, or else that of the headers. *)
Definition with_header_signature (r : ApiRequest) (req : RegisterRequest) : RegisterRequest :=
  if bool_decide (r_Signature req = ""%string) then
    mkRegisterRequest (aq_header r "X-Signature") (aq_header r "X-Message") (r_CantonPartyID req) (r_CantonSignature req)
      (r_CantonPrivateKey req) (r_KeyMode req) (r_CantonPublicKey req) (r_RegistrationToken req) (r_TopologySignature req)
  else req.

Section handlers.
Context `{!Env} `{!GoEthereum} `{!Secp256k1} `{!Curve} `{!AesGcm} `{!DecimalLib} `{!IndexerReader}.

(** ** Registration *)

Variable reg : registrationService.

Definition signature_required (req : RegisterRequest) : M ApiState unit :=
  require (negb (bool_decide (r_Signature req = ""%string) || bool_decide (r_Message req = ""%string)))
    (UnAuthorizedError None "signature and message required").

Definition api_register (r : ApiRequest) : M ApiState Payload :=
  req ← lift (read_body unmarshal_RegisterRequest r);
  resp ← (if negb (bool_decide (r_CantonPartyID req = ""%string)) then on_registration (RegisterCantonNativeUser reg req)
          else
            let req := with_header_signature r req in
            _ ← signature_required req;
            _ ← require (negb (bool_decide (r_KeyMode req = "external"%string)) ||
                         negb (bool_decide (r_RegistrationToken req = ""%string) || bool_decide (r_TopologySignature req = ""%string) ||
                               bool_decide (r_CantonPublicKey req = ""%string)))
                  (BadRequestError None "registration_token, topology_signature, and canton_public_key are required for external registration");
            on_registration (RegisterWeb3User reg req));
  mret (PRegister resp).

Definition api_prepareTopology (r : ApiRequest) : M ApiState Payload :=
  req ← lift (read_body unmarshal_RegisterRequest r);
  let req := with_header_signature r req in
  _ ← signature_required req;
  _ ← require (negb (bool_decide (r_CantonPublicKey req = ""%string))) (BadRequestError None "canton_public_key is required");
  resp ← on_registration (PrepareExternalRegistration reg req);
  mret (PTopology resp).

Definition api_getUser (r : ApiRequest) : M ApiState Payload :=
  let address := aq_get r "address" in
  _ ← require (negb (bool_decide (address = ""%string))) (BadRequestError None "address query parameter required");
  let signature := aq_header r "X-Signature" in
  let message := aq_header r "X-Message" in
  _ ← require (negb (bool_decide (signature = ""%string) || bool_decide (message = ""%string)))
        (UnAuthorizedError None "X-Signature and X-Message headers required");
  usr ← on_registration (GetUser address message signature);
  mret (PUser usr).

(** ** Whitelist administration *)

Definition bearerToken (r : ApiRequest) : string :=
  let h := aq_header r "Authorization" in
  if (Z.of_nat (String.length h) <=? 7) || negb (EqualFold (upto 7 h) "Bearer ") then ""%string else TrimSpace (skip 7 h).

(** The credentials of the admin routes: digests are compared. *)
Definition admin_authorized (token : string) (r : ApiRequest) : bool :=
  let provided := bearerToken r in
  negb (bool_decide (provided = ""%string)) &&
  bool_decide (Sum256 (bytes_of provided) = Sum256 (bytes_of token)).

Definition whitelist_add (now : Z) (r : ApiRequest) : M ApiState Payload :=
  req ← lift (read_body unmarshal_addRequest r);
  _ ← on_store (Whitelist.Add now req.1 req.2);
  mret (PStatus "whitelisted").

Definition whitelist_remove (address : string) : M ApiState Payload :=
  _ ← on_store (Whitelist.Remove address); mret (PStatus "removed").

(** parsePagination of the whitelist and of the token list *)
Definition cursor_pagination (r : ApiRequest) : result (string * Z) :=
  let cursor := aq_get r "cursor" in
  let s := aq_get r "limit" in
  if bool_decide (s = ""%string) then Ok (cursor, Whitelist.DefaultLimit)
  else match ParseInt s with
       | Ok v => if (v <? 1) || (Whitelist.MaxLimit <? v) then Err (BadRequestError None "limit must be an integer between 1 and 200") else Ok (cursor, v)
       | Err _ => Err (BadRequestError None "limit must be an integer between 1 and 200")
       end.

Definition whitelist_list (r : ApiRequest) : M ApiState Payload :=
  '(cursor, limit) ← lift (cursor_pagination r);
  page ← on_store (Whitelist.List cursor limit);
  mret (PWhitelist page).

(** ** Tokens and registry *)

Variable tokens : SupportedTokens.

Definition api_listTokens (r : ApiRequest) : M ApiState Payload :=
  '(cursor, limit) ← lift (cursor_pagination r);
  page ← lift (GetSupportedTokens tokens cursor limit);
  mret (PTokens page).

Variable client : Client.

(** Handler.ServeHTTP of the registry: it writes its errors itself. *)
Definition registry_ServeHTTP (r : ApiRequest) : M ApiState (HttpResponse Payload) :=
  let answer status body := mret (writeJSON status body) in
  if negb (bool_decide (aq_method r = "POST"%string)) then answer 405 (PError "method not allowed" None)
  else
    info ← attempt (on_chain (GetTransferFactory client));
    match info with
    | Err e => if is_factory_not_found e then answer 404 (PError "no active TransferFactory contract found" None)
               else answer 500 (PError "failed to retrieve transfer factory" None)
    | Ok i => answer 200 (PFactory (tf_ContractID i) (Std_Encode (tf_CreatedEventBlob i)) (tf_TemplateID i))
    end.

(** ** The router *)

Variable transfers : TransferService.

(** The settings of the router. *)
Record RouterConfig := mkRouterConfig {
  rc_cors : list string;
  rc_health : list string;
  rc_adminEnabled : bool;
  rc_adminKey : string;
}.
Variable rc : RouterConfig.
(** the time of the request *)
Variable now : Z.

(** HandleError: errors are written with their code. *)
Definition answered (h : M ApiState Payload) : M ApiState (HttpResponse Payload) := handle (fun msg code => PError msg (Some code)) h.

(** The request as the transfer handlers see it. *)
Definition to_http (r : ApiRequest) (contractID : string) : HttpRequest :=
  mkHttpRequest (aq_headers r) (aq_query r) contractID (aq_first r).

Definition transfer_route {A} (inj : A -> Payload) (h : HttpRequest -> M World A) (r : ApiRequest) (contractID : string) : M ApiState (HttpResponse Payload) :=
  answered (a ← on_transfers (h (to_http r contractID)); mret (inj a)).

Definition transfer_path (rest : list string) : list string := ["api"; "v2"; "transfer"]%string ++ rest.

(** RegisterRoutes of the transfer service *)
Definition transfer_routes (r : ApiRequest) : list (Route ApiState Payload) :=
  [ Post (transfer_path ["prepare"]) (transfer_route PPrepare (http_prepare transfers now) r "");
    Post (transfer_path ["execute"]) (transfer_route PExecute (http_execute transfers now) r "");
    Post (transfer_path ["custodial"]) (transfer_route PExecute (http_sendCustodial transfers now) r "");
    Get (transfer_path ["incoming"]) (transfer_route PIncoming (http_listIncoming transfers) r "");
    Get (transfer_path ["outgoing"]) (transfer_route POutgoing (http_listOutgoing transfers) r "");
    Get (transfer_path ["completed"]) (transfer_route PCompleted (http_listCompleted transfers) r "");
    Post1 (transfer_path ["incoming"; "{}"; "prepare"]) (transfer_route PPrepare (http_prepareAccept transfers now) r);
    Post1 (transfer_path ["incoming"; "{}"; "execute"]) (transfer_route PExecute (http_executeAccept transfers now) r);
    Post1 (transfer_path ["outgoing"; "{}"; "withdraw"; "prepare"]) (transfer_route PPrepare (http_prepareWithdraw transfers now) r);
    Post1 (transfer_path ["outgoing"; "{}"; "withdraw"; "execute"]) (transfer_route PExecute (http_executeWithdraw transfers now) r);
    Post1 (transfer_path ["outgoing"; "{}"; "withdraw"; "custodial"]) (transfer_route PExecute (http_withdrawCustodial transfers now) r)
  ]%string.

(** RegisterAdminRoutes: the middleware of the sub-router /admin runs before its routes. *)
Definition whitelist_routes (r : ApiRequest) : list (Route ApiState Payload) :=
  [ Post ["whitelist"] (answered (whitelist_add now r));
    Delete1 ["whitelist"; "{}"] (fun address => answered (whitelist_remove address));
    Get ["whitelist"] (answered (whitelist_list r)) ]%string.

Definition admin_router (r : ApiRequest) (path : list string) : M ApiState (HttpResponse Payload) :=
  if admin_authorized (rc_adminKey rc) r then dispatch PText (whitelist_routes r) r path
  else answered (fail (UnAuthorizedError None "invalid or missing admin credentials")).

(** RegisterRoutes of the user service *)
Definition user_routes (r : ApiRequest) : list (Route ApiState Payload) :=
  [ Post ["register"] (answered (api_register r));
    Post ["register"; "prepare-topology"] (answered (api_prepareTopology r));
    Get ["profile"] (answered (api_getUser r)) ]%string.

(** The routes of setupRouter. *)
Definition api_routes (r : ApiRequest) : list (Route ApiState Payload) :=
  [Get (rc_health rc) (mret (mkHttpResponse 200 ∅ (Some (PText "OK"))));
   Get ["tokens"%string] (answered (api_listTokens r))] ++
  user_routes r ++ transfer_routes r ++
  [Handle ["registry"; "transfer-instruction"; "v1"; "transfer-factory"]%string (registry_ServeHTTP r)].

(** setupRouter *)
Definition route (r : ApiRequest) : M ApiState (HttpResponse Payload) :=
  match aq_path r with
  | seg :: path => if bool_decide (seg = "admin"%string) && rc_adminEnabled rc then admin_router r path else dispatch PText (api_routes r) r (aq_path r)
  | [] => dispatch PText (api_routes r) r []
  end.

(** ** CORSMiddleware *)

(** The headers it sets for an origin. *)
Definition cors_headers (origins : list string) (origin : string) : gmap string string :=
  let common : gmap string string :=
    <["Access-Control-Allow-Methods" := "GET, POST, PUT, DELETE, OPTIONS"]>
    (<["Access-Control-Allow-Headers" := "Accept, Content-Type, X-Signature, X-Message, Authorization"]> ∅) in
  if bool_decide ("*" ∈ origins) then <["Access-Control-Allow-Origin" := "*"]> common
  else if negb (bool_decide (origin = "")) && bool_decide (origin ∈ origins)
  then <["Access-Control-Allow-Origin" := origin]> (<["Vary" := "Origin"]> common)
  else common%string.

Definition CORSMiddleware (next : ApiRequest -> M ApiState (HttpResponse Payload)) (r : ApiRequest) : M ApiState (HttpResponse Payload) :=
  let hs := cors_headers (rc_cors rc) (aq_header r "Origin") in
  if bool_decide (aq_method r = "OPTIONS"%string) then mret (mkHttpResponse 204 hs None)
  else resp ← next r; mret (mkHttpResponse (hp_status resp) (hp_headers resp ∪ hs) (hp_body resp)).

Definition serve : ApiRequest -> M ApiState (HttpResponse Payload) := CORSMiddleware route.
End handlers.

(** ** Authorization *)

Section authorization.
Context `{!Env} `{!GoEthereum} `{!Secp256k1} `{!Curve} `{!AesGcm} `{!DecimalLib} `{!IndexerReader} `{!IndexerReaderLaws}.
Variable reg : registrationService.
Variable tokens : SupportedTokens.
Variable client : Client.
Variable transfers : TransferService.
Variable rc : RouterConfig.
Variable now : Z.

(** Nothing is stored, cached, prepared, submitted or executed. *)
Definition untouched (st st' : ApiState) : Prop :=
  tables (st_users st') = tables (st_users st) /\ st_topology st' = st_topology st /\ st_prepared st' = st_prepared st /\
  effects (st_history st') = effects (st_history st).

(** A registration request proves who it is for: a signature that verifies for
    the party, or one from which an address is recovered. *)
Definition registration_signed (r : ApiRequest) : Prop :=
  exists req, read_body unmarshal_RegisterRequest r = Ok req /\
    ((r_CantonPartyID req <> ""%string /\
      (sv_skipCantonSignatureVerification reg = true \/
       VerifyCantonSignature (r_CantonPartyID req) (r_Message req) (r_CantonSignature req) = Ok true)) \/
     (exists addr, VerifyEIP191Signature (r_Message (with_header_signature r req)) (r_Signature (with_header_signature r req)) = Ok addr)).

(** Only the whitelist differs. *)
Definition whitelist_only (st st' : ApiState) : Prop :=
  t_users (tables (st_users st')) = t_users (tables (st_users st)) /\ st_history st' = st_history st /\
  st_topology st' = st_topology st /\ st_prepared st' = st_prepared st.

(** What a request is allowed to do. *)
Definition granted (r : ApiRequest) (st st' : ApiState) : Prop :=
  untouched st st' \/
  (take 1 (aq_path r) = ["register"%string] /\ registration_signed r /\ st_prepared st' = st_prepared st) \/
  (take 1 (aq_path r) = ["admin"%string] /\ rc_adminEnabled rc = true /\ bearerToken r <> ""%string /\
     Sum256 (bytes_of (bearerToken r)) = Sum256 (bytes_of (rc_adminKey rc)) /\
     whitelist_only st st') \/
  (take 3 (aq_path r) = ["api"; "v2"; "transfer"]%string /\ exists cid a, signed_by now (to_http r cid) a /\
     st_topology st' = st_topology st).

Lemma untouched_refl st : untouched st st.
Proof. done. Qed.

Lemma granted_refl r st : granted r st st.
Proof. by left. Qed.

(** ** Registration *)

Lemma wp_registration {A} (c : M RegWorld A) (P : ApiState -> Prop) (inj : A -> Payload) st :
  wp c (fun _ w => P (mkApiState (rw_users w) (rw_history w) (rw_topology w) (st_prepared st)))
    (mkRegWorld (st_users st) (st_history st) (st_topology st) []) ->
  wp (a ← on_registration c; mret (inj a)) (fun _ st' => P st') st.
Proof.
  intros Hc. apply wp_bind. unfold on_registration. apply wp_zoom. eapply wp_mono; [exact Hc|].
  intros [a|e] w Hw; [by apply wp_ret|done].
Qed.

(** A registration with a bad signature does nothing. *)
Lemma native_unsigned req w : r_CantonPartyID req <> ""%string ->
  sv_skipCantonSignatureVerification reg = false ->
  VerifyCantonSignature (r_CantonPartyID req) (r_Message req) (r_CantonSignature req) <> Ok true ->
  wp (RegisterCantonNativeUser reg req) (fun _ w' => w' = w) w.
Proof.
  intros _ Hskip Hv. unfold RegisterCantonNativeUser. apply wp_bind, wp_on_error, wp_lift.
  destruct (ValidateCantonPartyID _) as [[]|e]; [|done]. apply wp_bind. unfold check_canton_signature. rewrite Hskip.
  case_bool_decide; [by apply wp_fail|]. apply wp_bind, wp_on_error, wp_lift.
  destruct (VerifyCantonSignature _ _ _) as [[|]|e]; [done|by apply wp_fail|done].
Qed.

Lemma wp_api_register r st : take 1 (aq_path r) = ["register"%string] -> wp (api_register reg r) (fun _ st' => granted r st st') st.
Proof.
  intros Hpath. unfold api_register. apply wp_bind, wp_lift. destruct (read_body _ r) as [req|e] eqn:Hreq; [|apply granted_refl].
  case_bool_decide as Hparty; cbn [negb].
  - apply wp_bind, wp_bind, wp_require; [apply granted_refl|]. intros _. apply wp_bind, wp_require; [apply granted_refl|]. intros _.
    unfold on_registration. apply wp_zoom.
    destruct (VerifyEIP191Signature (r_Message (with_header_signature r req)) (r_Signature (with_header_signature r req))) as [addr|e] eqn:Hv.
    + apply wp_intro. intros res w' _. assert (granted r st (mkApiState (rw_users w') (rw_history w') (rw_topology w') (st_prepared st))) as Hg.
      { right; left. split_and!; [done| |done]. exists req. split; [done|]. right. eauto. }
      destruct res; [by apply wp_ret|exact Hg].
    + unfold RegisterWeb3User. apply wp_bind, wp_on_error, wp_lift. rewrite Hv. destruct st. apply granted_refl.
  - apply (wp_registration _ (granted r st)).
    destruct (sv_skipCantonSignatureVerification reg) eqn:Hskip.
    { apply wp_intro. intros res w' _. right; left. split_and!; [done| |done]. exists req. auto. }
    assert (VerifyCantonSignature (r_CantonPartyID req) (r_Message req) (r_CantonSignature req) = Ok true \/
            VerifyCantonSignature (r_CantonPartyID req) (r_Message req) (r_CantonSignature req) <> Ok true) as [Hv|Hv]
      by (destruct (VerifyCantonSignature _ _ _) as [[|]|]; [by left|by right|by right]).
    { apply wp_intro. intros res w' _. right; left. split_and!; [done| |done]. exists req. auto. }
    eapply wp_mono; [by apply native_unsigned|]. cbv beta. intros res w' ->. destruct st. apply granted_refl.
Qed.

Lemma wp_api_prepareTopology r st : take 1 (aq_path r) = ["register"%string] -> wp (api_prepareTopology reg r) (fun _ st' => granted r st st') st.
Proof.
  intros Hpath. unfold api_prepareTopology. apply wp_bind, wp_lift. destruct (read_body _ r) as [req|e] eqn:Hreq; [|apply granted_refl].
  cbv zeta. apply wp_bind, wp_require; [apply granted_refl|]. intros _. apply wp_bind, wp_require; [apply granted_refl|]. intros _.
  apply (wp_registration _ (granted r st)).
  destruct (VerifyEIP191Signature (r_Message (with_header_signature r req)) (r_Signature (with_header_signature r req))) as [addr|e] eqn:Hv.
  - apply wp_intro. intros res w' _. right; left. split_and!; [done| |done]. exists req. split; [done|]. right. eauto.
  - unfold PrepareExternalRegistration. apply wp_bind, wp_on_error, wp_lift. rewrite Hv. destruct st. apply granted_refl.
Qed.

(** ** Reading *)

Lemma wp_store_query {A} (inj : A -> Payload) (c : M UserDB A) st :
  wp c (fun _ d => tables d = tables (st_users st)) (st_users st) ->
  wp (a ← on_store c; mret (inj a)) (fun _ st' => untouched st st') st.
Proof.
  intros Hc. apply wp_bind. unfold on_store. apply wp_zoom. eapply wp_mono; [exact Hc|].
  intros [a|e] d Hd; [apply wp_ret|]; done.
Qed.

Lemma wp_api_getUser r st : wp (api_getUser r) (fun _ st' => untouched st st') st.
Proof.
  unfold api_getUser. apply wp_bind, wp_require; [done|]. intros _. apply wp_bind, wp_require; [done|]. intros _.
  apply (wp_registration _ (untouched st)). unfold GetUser. apply wp_bind, wp_on_error, wp_lift.
  destruct (VerifyEIP191Signature _ _) as [addr|e]; [|done].
  destruct (negb (EqualFold _ _)); [done|]. destruct (negb (HasPrefix _ _)); [done|].
  apply wp_bind. unfold on_ledger. apply wp_zoom. apply wp_read_only; [by apply emits_ask|].
  intros [n|e] new _ Heff; [|done]. apply wp_bind, wp_on_error, wp_lift.
  destruct (ValidateTimedMessage _ _ _); [|done]. apply wp_on_error. unfold on_users. apply wp_zoom.
  apply wp_getUserBy; done.
Qed.

Lemma wp_whitelist_list r st : wp (whitelist_list r) (fun _ st' => untouched st st') st.
Proof.
  unfold whitelist_list. apply wp_bind, wp_lift. destruct (cursor_pagination r) as [[c l]|e]; [|done].
  apply wp_store_query. unfold Whitelist.List. apply wp_bind.
  apply wp_intro. intros res d. unfold general, ListWhitelist, wrapping. 
  assert (wp (query (fun t : UserTables => toWhitelistEntry <$> sql_limit (clampLimit l + 1) (filter (fun r => after_cursor c r = true) (sorted_rows (t_whitelist t)))))
    (fun _ d => tables d = tables (st_users st)) (st_users st)) as Hq by (by apply wp_query).
  revert Hq. unfold wp. destruct (query _ _) as [[rows|e] d']; intros Hd [= <- <-]; done.
Qed.

Lemma wp_api_listTokens r st : wp (api_listTokens tokens r) (fun _ st' => untouched st st') st.
Proof.
  unfold api_listTokens. apply wp_bind, wp_lift. destruct (cursor_pagination r) as [[c l]|e]; [|done].
  apply wp_bind, wp_lift. by destruct (GetSupportedTokens tokens c l).
Qed.

Lemma wp_registry r st : wp (registry_ServeHTTP client r) (fun resp st' => is_ok resp = true /\ untouched st st') st.
Proof.
  unfold registry_ServeHTTP. cbv zeta. destruct (negb _); [by apply wp_ret|].
  apply wp_bind, wp_attempt. unfold on_chain. apply wp_zoom. apply wp_read_only; [apply emits_GetTransferFactory|].
  intros [i|e] new _ Heff; [|destruct (is_factory_not_found e)]; by apply wp_ret.
Qed.

(** ** Transfers *)

Lemma wp_transfers {A} (inj : A -> Payload) (c : M World A) (P : ApiState -> Prop) st :
  wp c (fun _ w => P (mkApiState (w_users w) (w_history w) (st_topology st) (w_cache w)))
    (mkWorld (st_users st) (st_history st) (st_prepared st)) ->
  wp (a ← on_transfers c; mret (inj a)) (fun _ st' => P st') st.
Proof.
  intros Hc. apply wp_bind. unfold on_transfers. apply wp_zoom. eapply wp_mono; [exact Hc|].
  intros [a|e] w Hw; [by apply wp_ret|done].
Qed.

Lemma quiet_untouched st w :
  quiet (mkWorld (st_users st) (st_history st) (st_prepared st)) w ->
  untouched st (mkApiState (w_users w) (w_history w) (st_topology st) (w_cache w)).
Proof. by intros (? & ? & ?). Qed.

(** A page of transfers is read. *)
Lemma wp_transfers_page {A} u q p pre (item : Transfer -> option A) w w0 :
  quiet w0 w -> wp (transfers_page u q p pre item) (fun _ w' => quiet w0 w') w.
Proof.
  intros Hw. unfold transfers_page. apply wp_bind, wp_mapping_error. unfold with_ledger. apply wp_zoom.
  apply wp_read_only; [apply reader_transfers|]. intros [res|e] new _ Heff;
    (assert (quiet w0 (set_ledger (w_history w ++ new) w)) as Hq by (destruct Hw as (? & ? & ?); split_and!; cbn; congruence));
    [by apply wp_ret|exact Hq].
Qed.

(** A route that authenticates first acts only for a signer. *)
Lemma wp_signed_route {A} (inj : A -> Payload) (k : HttpRequest -> string -> M World A) r cid st :
  take 3 (aq_path r) = ["api"; "v2"; "transfer"]%string ->
  wp (transfer_route inj (fun q => a ← lift (authenticateEVM now q); k q a) r cid)
    (fun resp st' => is_ok resp = true /\ granted r st st') st.
Proof.
  intros Hpath. apply wp_handle, (wp_transfers inj _ (granted r st)). apply wp_authenticated; [intros _; destruct st; apply granted_refl|].
  intros a Ha. apply wp_intro. intros res w' _. right; right; right. split; [done|]. by exists cid, a.
Qed.

Lemma wp_listing {A} (inj : A -> Payload) (h : HttpRequest -> M World A) r cid st :
  (forall q w, wp (h q) (fun _ w' => quiet w w') w) ->
  wp (transfer_route inj h r cid) (fun resp st' => is_ok resp = true /\ granted r st st') st.
Proof.
  intros Hh. apply wp_handle, (wp_transfers inj _ (granted r st)). eapply wp_mono; [apply Hh|].
  intros res w' Hq%quiet_untouched. by left.
Qed.

(** A listing: arguments, the user, a page. *)
Lemma wp_list_incoming q w : wp (http_listIncoming transfers q) (fun _ w' => quiet w w') w.
Proof.
  unfold http_listIncoming. do 2 (apply wp_lift_checked; [done|]; intros ? _). unfold ListIncoming.
  apply wp_bind, wp_lookup_user; [|intros e w' Hw; by apply same_quiet]. intros u w1 _ Hw1%same_quiet.
  apply wp_bind, wp_require_key_mode; [|done]. intros _. by apply wp_transfers_page.
Qed.

Lemma wp_list_outgoing q w : wp (http_listOutgoing transfers q) (fun _ w' => quiet w w') w.
Proof.
  unfold http_listOutgoing. do 3 (apply wp_lift_checked; [done|]; intros ? _). unfold ListOutgoing.
  apply wp_bind, wp_lookup_user; [|intros e w' Hw; by apply same_quiet]. intros u w1 _ Hw1%same_quiet.
  by apply wp_transfers_page.
Qed.

Lemma wp_list_completed q w : wp (http_listCompleted transfers q) (fun _ w' => quiet w w') w.
Proof.
  unfold http_listCompleted. do 2 (apply wp_lift_checked; [done|]; intros ? _). unfold ListCompleted.
  apply wp_bind, wp_lookup_user; [|intros e w' Hw; by apply same_quiet]. intros u w1 _ Hw1%same_quiet.
  by apply wp_transfers_page.
Qed.

Lemma wp_transfer_routes r st :
  Forall (fun rt => forall ps, match_path (rt_pattern rt) (aq_path r) = Some ps -> wp (rt_handler rt ps) (fun resp st' => is_ok resp = true /\ granted r st st') st)
    (transfer_routes transfers now r).
Proof.
  repeat constructor; intros ps; cbn [rt_handler Get Post Post1];
    intros Hpath%(match_path_prefix ["api"; "v2"; "transfer"]%string);
    first [by apply wp_signed_route|apply wp_listing; first [apply wp_list_incoming|apply wp_list_outgoing|apply wp_list_completed]].
Qed.

(** ** The whitelist *)

Lemma wp_whitelist_only {A} (c : M UserDB A) msg st :
  wp c (fun _ d => t_users (tables d) = t_users (tables (st_users st))) (st_users st) ->
  wp (_ ← on_store c; mret (PStatus msg)) (fun _ st' => whitelist_only st st') st.
Proof.
  intros Hc. apply wp_bind. unfold on_store. apply wp_zoom. eapply wp_mono; [exact Hc|].
  intros [a|e] d Hd; [apply wp_ret|]; done.
Qed.

Lemma wp_general {W A} op (c : M W A) (P : W -> Prop) w :
  wp c (fun _ w' => P w') w -> wp (general op c) (fun _ w' => P w') w.
Proof. unfold wp, general. by destruct (c w). Qed.

Lemma wp_whitelist_add r st : wp (whitelist_add now r) (fun _ st' => whitelist_only st st') st.
Proof.
  unfold whitelist_add. apply wp_bind, wp_lift. destruct (read_body _ r) as [[a n]|e]; [|done].
  apply wp_whitelist_only. unfold Whitelist.Add. destruct (normalizeAddress _) as [addr|e]; [|done].
  apply wp_general. unfold AddToWhitelist. case_bool_decide; [done|]. apply wp_wrapping. by apply wp_exec.
Qed.

Lemma wp_whitelist_remove a st : wp (whitelist_remove a) (fun _ st' => whitelist_only st st') st.
Proof.
  unfold whitelist_remove. apply wp_whitelist_only. unfold Whitelist.Remove.
  destruct (normalizeAddress _) as [addr|e]; [|done]. apply wp_bind.
  eapply wp_mono; [apply (wp_general _ _ (fun d => t_users (tables d) = t_users (tables (st_users st))))|].
  - unfold RemoveFromWhitelist. apply wp_bind, wp_wrapping. apply wp_exec; [|done]. intros fs.
    apply wp_bind, wp_wrapping. by apply wp_query.
  - by intros [[|]|e] d Hd.
Qed.

Lemma wp_admin_router r path st : aq_path r = "admin"%string :: path -> rc_adminEnabled rc = true ->
  wp (admin_router rc now r path) (fun resp st' => is_ok resp = true /\ granted r st st') st.
Proof.
  intros Hpath Hen. unfold admin_router. destruct (admin_authorized (rc_adminKey rc) r) eqn:Hauth; [|apply wp_handle, wp_fail, granted_refl].
  unfold admin_authorized in Hauth. apply andb_true_iff in Hauth as [Hne%negb_true_iff%bool_decide_eq_false_1 Hsum%bool_decide_eq_true_1].
  assert (forall h, wp h (fun _ st' => whitelist_only st st') st ->
    wp (answered h) (fun resp st' => is_ok resp = true /\ granted r st st') st) as Hw.
  { intros h Hh. apply wp_handle. eapply wp_mono; [exact Hh|]. intros res st' Hst. right; right; left. by rewrite Hpath. }
  apply wp_dispatch; [apply granted_refl|]. repeat constructor; intros ps _; cbn [rt_handler Get Post Delete1];
    [apply Hw, wp_whitelist_add|apply Hw, wp_whitelist_remove|].
  apply wp_handle. eapply wp_mono; [apply wp_whitelist_list|]. intros res st' Hst. by left.
Qed.

Lemma wp_api_routes r st :
  Forall (fun rt => forall ps, match_path (rt_pattern rt) (aq_path r) = Some ps -> wp (rt_handler rt ps) (fun resp st' => is_ok resp = true /\ granted r st st') st)
    (api_routes reg tokens client transfers rc now r).
Proof.
  assert (forall h, wp h (fun _ st' => untouched st st') st ->
    wp (answered h) (fun resp st' => is_ok resp = true /\ granted r st st') st) as Hu.
  { intros h Hh. apply wp_handle. eapply wp_mono; [exact Hh|]. intros res st' Hst. by left. }
  unfold api_routes, user_routes. rewrite !Forall_app, !Forall_cons, !Forall_nil. split_and!; try done;
    try apply wp_transfer_routes; intros ps Hpath; cbn [rt_handler Get Post Handle].
  - split; [done|apply granted_refl].
  - apply Hu, wp_api_listTokens.
  - by apply wp_handle, wp_api_register, (match_path_prefix ["register"%string] _ _ _ Hpath).
  - by apply wp_handle, wp_api_prepareTopology, (match_path_prefix ["register"%string] _ _ _ Hpath).
  - apply Hu, wp_api_getUser.
  - eapply wp_mono; [apply wp_registry|]. intros res st' [Hok Hst]. by split; [|left].
Qed.

(** C9: No request changes anything without authority.  Every request to the API
    server is answered.  The users, the whitelist, the topologies, the prepared
    transfers and what was asked of the ledger are as before, except: a request
    to register, whose signature recovers an address or verifies for the party
    it names (or which names a party, where the configuration skips the check of
    Canton signatures), and which leaves the prepared transfers alone; a request
    with the digest of the administrator's key, which changes the whitelist and
    nothing else, where the admin routes are enabled; and a request to the
    transfer routes with a signed message whose time is within five minutes of
    the clock, before or after it (or 2^63 nanoseconds after it), which leaves
    the topologies alone. *)
Theorem served_requests_are_authorized r st :
  wp (serve reg tokens client transfers rc now r) (fun resp st' => is_ok resp = true /\ granted r st st') st.
Proof.
  unfold serve, CORSMiddleware. case_bool_decide; [by apply wp_ret; split; [|apply granted_refl]|].
  apply wp_bind. apply (wp_mono _ (fun resp st' => is_ok resp = true /\ granted r st st')).
  - unfold route. destruct (aq_path r) as [|seg path] eqn:Hpath;
      [rewrite <- Hpath; apply wp_dispatch; [apply granted_refl|apply wp_api_routes]|].
    case_bool_decide; cbn [andb]; [destruct (rc_adminEnabled rc) eqn:Hen|];
      rewrite <- ?Hpath; try (apply wp_dispatch; [apply granted_refl|apply wp_api_routes]).
    apply wp_admin_router; [by subst|done].
  - intros [resp|e] st' [Hok Hst]; [by apply wp_ret|done].
Qed.
End authorization.

(** ** Witness: the administrator and an impostor *)

Definition ex_router : RouterConfig := mkRouterConfig ["https://app.example"%string] ["health"%string] true "admin-key".
Definition ex_address : string := "0x00000000000000000000000000000000000000aa".
(** DELETE /admin/whitelist/{address} with a bearer token *)
Definition ex_removal (key : string) : ApiRequest :=
  mkApiRequest "DELETE" ["admin"; "whitelist"; ex_address]%string {["Authorization"%string := "Bearer " +:+ key]} ∅ None (Ok None).
Definition ex_listed : gmap string WhitelistDao :=
  {[@NormalizeAddress AuthMessages.example_geth ex_address := mkWhitelistDao None 0]}.
Definition ex_state : ApiState :=
  mkApiState (mkDB (mkUserTables [] ex_listed) []) [] (mkTopologyCache ∅ 600) (NewPreparedTransferCache 60 10).
Definition ex_serve (key : string) : result (HttpResponse Payload) * ApiState :=
  @serve (scripted ex_script) AuthMessages.example_geth example_secp example_curve example_gcm RefDecimal.lib quiet_reader
    UserServiceProofs.ex_service NewConfig (ts_client TransferServiceProofs.ex_service) TransferServiceProofs.ex_service
    ex_router 0 (ex_removal key) ex_state.

Definition status_of (r : result (HttpResponse Payload)) : Z := match r with Ok resp => hp_status resp | Err _ => 0 end.

Lemma served_requests_are_authorized_witness :
  status_of (ex_serve "guess").1 = 401 /\ t_whitelist (tables (st_users (ex_serve "guess").2)) = ex_listed /\
  status_of (ex_serve "admin-key").1 = 200 /\ t_whitelist (tables (st_users (ex_serve "admin-key").2)) = ∅ /\
  @granted AuthMessages.example_geth example_secp UserServiceProofs.ex_service ex_router 0 (ex_removal "admin-key") ex_state (ex_serve "admin-key").2.
Proof.
  repeat (split; [vm_compute; reflexivity|]).
  pose proof (@served_requests_are_authorized (scripted ex_script) AuthMessages.example_geth example_secp example_curve example_gcm
    RefDecimal.lib quiet_reader quiet_reader_laws UserServiceProofs.ex_service NewConfig (ts_client TransferServiceProofs.ex_service)
    TransferServiceProofs.ex_service ex_router 0 (ex_removal "admin-key") ex_state) as Hw.
  fold (ex_serve "admin-key") in Hw. revert Hw. unfold wp. fold (ex_serve "admin-key"). destruct (ex_serve "admin-key"). apply proj2.
Defined.
