(* ===== verification/ServiceHttp.v ===== *)
(** * ServiceHttp: the HTTP surfaces of the relayer and of the login service

    The relayer's operational routes (pkg/relayer/service/http.go with
    pkg/relayer/service/service.go, mounted by pkg/app/relayer/server.go), the
    login routes (pkg/auth/service/http.go), and the values that authentication
    keeps in a request's context (pkg/auth/context.go). *)

From S2P Require Import Prelude AppErrors Effects GoStd GoText EthClient AuthMessages NonceStore UserStore Login RelayerStore DamlValues Streaming LedgerApi TokenCodec TransferHttp HttpRouter Logging.
From Stdlib Require Import Ascii String.
Local Open Scope Z_scope.
Local Abbreviation length := Datatypes.length.

(** ** The relayer *)

Inductive RelayerPayload :=
| RText (s : string)
| RTransfers (l : list RelayerStore.Transfer)
| RTransfer (t : RelayerStore.Transfer)
| RStatus (s : string)
| RError (msg : string) (code : Z).

Section relayer.
(** Engine.IsReady at the time of the request, and the health check's path. *)
Variables (ready : bool) (health : list string).
Abbreviation MR := (M RelayerDB).

Definition defaultLimitForListTransfer : Z := 100.

Definition relayer_ready : MR (HttpResponse RelayerPayload) :=
  mret (if ready then mkHttpResponse 200 ∅ (Some (RText "READY")) else mkHttpResponse 503 ∅ (Some (RText "NOT_READY"))).

(** [if err != nil { return apperrors.GeneralError(err) }] *)
Definition general_error {A} (c : MR A) : MR A := fun d =>
  let '(r, d') := c d in (match r with Ok a => Ok a | Err e => Err (GeneralError (Some e)) end, d').

Definition relayer_listTransfers : MR RelayerPayload :=
  transfers ← general_error (svc_ListTransfers defaultLimitForListTransfer); mret (RTransfers transfers).

Definition relayer_getTransfer (id : string) : MR RelayerPayload :=
  transfer ← general_error (svc_GetRelayedTransfer id);
  match transfer with
  | None => fail (ResourceNotFoundError None "transfer not found")
  | Some t => mret (RTransfer t)
  end.

Definition relayer_getStatus : MR RelayerPayload := mret (RStatus "running").

Definition Get1 {W P} (path : list string) (h : string -> M W (HttpResponse P)) : Route W P :=
  mkRoute (Some "GET"%string) (pattern path) (fun ps => h (List.hd ""%string ps)).

(** newRouter *)
Definition relayer_routes : list (Route RelayerDB RelayerPayload) :=
  [ Get health (mret (mkHttpResponse 200 ∅ (Some (RText "OK"))));
    Get ["ready"] relayer_ready;
    Get ["api"; "v1"; "transfers"] (handle RError relayer_listTransfers);
    Get1 ["api"; "v1"; "transfers"; "{}"] (fun id => handle RError (relayer_getTransfer id));
    Get ["api"; "v1"; "status"] (handle RError relayer_getStatus) ]%string.

Definition relayer_serve (r : ApiRequest) : MR (HttpResponse RelayerPayload) := dispatch RText relayer_routes r (aq_path r).

(** ** What the relayer reports *)

Lemma wp_GetTransfer_read id d (Q : result (option RelayerStore.Transfer) -> RelayerDB -> Prop) :
  (forall fs, Q (Ok (transfers (tables d) !! id)) (mkDB (tables d) fs)) ->
  (forall e fs, Q (Err e) (mkDB (tables d) fs)) ->
  wp (svc_GetRelayedTransfer id) Q d.
Proof. intros Hok Herr. unfold svc_GetRelayedTransfer, RelayerStore.GetTransfer. apply wp_wrapping, wp_query; [done|]. intros m fs. apply Herr. Qed.

Lemma wp_ListTransfers_read limit d (I : RelayerDB -> Prop) :
  (forall fs, I (mkDB (tables d) fs)) -> wp (svc_ListTransfers limit) (fun _ d' => I d') d.
Proof. intros HI. unfold svc_ListTransfers, RelayerStore.ListTransfers. apply wp_wrapping, wp_query; intros; apply HI. Qed.

Lemma wp_general_error {A} (c : MR A) (Q : result A -> RelayerDB -> Prop) d :
  wp c (fun r d' => match r with Ok a => Q (Ok a) d' | Err e => Q (Err (GeneralError (Some e))) d' end) d -> wp (general_error c) Q d.
Proof. unfold wp, general_error. by destruct (c d) as [[a|e] d']. Qed.

(** The relayer's routes only read: every request is answered and no table changes. *)
Theorem relayer_serve_reads r d :
  wp (relayer_serve r) (fun resp d' => is_ok resp = true /\ tables d' = tables d) d.
Proof.
  apply (wp_dispatch _ _ _ _ (fun d' => tables d' = tables d)); [done|].
  repeat (apply Forall_cons; split); [..|by apply Forall_nil]; intros ps _; cbn [rt_handler Get Get1].
  - done.
  - done.
  - apply wp_handle. unfold relayer_listTransfers. apply wp_bind, wp_general_error.
    eapply wp_mono; [by apply (wp_ListTransfers_read _ d (fun d' => tables d' = tables d))|]. by intros [l|e] d' Hd.
  - apply wp_handle. unfold relayer_getTransfer. apply wp_bind, wp_general_error. apply wp_GetTransfer_read; [|done].
    intros fs. by destruct (transfers (tables d) !! _).
  - done.
Qed.

(** A transfer is reported as it is stored, as not found when it is not, and
    as an internal error when it could not be read. *)
Theorem relayer_reports_transfer id d :
  wp (handle RError (relayer_getTransfer id)) (fun resp _ =>
    resp = Ok (match transfers (tables d) !! id with
               | Some t => writeJSON 200 (RTransfer t)
               | None => writeJSON 404 (RError "transfer not found" 404)
               end) \/ exists body, resp = Ok (writeJSON 500 body)) d.
Proof.
  unfold handle. apply wp_bind, wp_attempt. unfold relayer_getTransfer. apply wp_bind, wp_general_error. apply wp_GetTransfer_read.
  - intros fs. destruct (transfers (tables d) !! id) as [t|]; [apply wp_ret|apply wp_fail]; apply wp_ret; by left.
  - intros e fs. apply wp_ret. right. by eexists.
Qed.
End relayer.

(** ** Login *)

Inductive LoginPayload :=
| LText (s : string)
| LNonce (nonce : string)
| LToken (r : LoginResponse)
| LKeys (k : JWKS)
| LFailure (msg : string) (code : Z).

(** LoginRequest: the message and its signature *)
Definition read_LoginRequest : HttpRequest -> result (string * string) :=
  readJSON ["message"; "signature"]%string (fun l =>
    message ← string_field l "message"; signature ← string_field l "signature"; mret (message, signature)).

Section login.
Context `{!GoEthereum} `{!SIWE} `{!JWTLib}.
Variables (verifier : SIWEVerifier) (issuer : Issuer).
Abbreviation MN := (M LoginState).

(** What the environment supplies: the times, a fresh nonce and a token id. *)
Record Supply := mkSupply { sp_now : Z; sp_verify : Z; sp_consume : Z; sp_issue : Z; sp_nonce : string; sp_jti : string }.
Variable supply : Supply.

Definition login_nonce (r : ApiRequest) : MN LoginPayload :=
  let address := TrimSpace (aq_get r "address") in
  _ ← require (ValidateEVMAddress address)
        (BadRequestError None "address query parameter must be a 0x-prefixed 40-hex-char EVM address");
  n ← attempt (Nonce (sp_now supply) (sp_nonce supply) (NormalizeAddress address));
  match n with Ok nonce => mret (LNonce nonce) | Err e => fail (GeneralError (Some e)) end.

Definition login_login (r : ApiRequest) : MN LoginPayload :=
  '(message, signature) ← lift (read_LoginRequest (mkHttpRequest (aq_headers r) (aq_query r) "" (aq_first r)));
  _ ← require (negb (bool_decide (message = ""%string) || bool_decide (signature = ""%string)))
        (BadRequestError None "message and signature are required");
  res ← Login verifier issuer (sp_verify supply) (sp_consume supply) (sp_issue supply) (sp_jti supply) message signature;
  mret (LToken res).

Definition login_jwks : MN LoginPayload := mret (LKeys (JWKS_of issuer)).

(** RegisterRoutes *)
Definition login_routes (r : ApiRequest) : list (Route LoginState LoginPayload) :=
  [ Get ["auth"; "nonce"] (handle LFailure (login_nonce r));
    Post ["auth"; "login"] (handle LFailure (login_login r));
    Get [".well-known"; "jwks.json"] (handle LFailure login_jwks) ]%string.

Definition login_serve (r : ApiRequest) : MN (HttpResponse LoginPayload) := dispatch LText (login_routes r) r (aq_path r).
End login.

(** ** The login flow *)

Section flow.
Context `{!GoEthereum} `{!SIWE} `{!JWTLib}.
Variables (verifier : SIWEVerifier) (issuer : Issuer).

(** The body of a login request. *)
Definition login_body (r : ApiRequest) : result (string * string) :=
  read_LoginRequest (mkHttpRequest (aq_headers r) (aq_query r) "" (aq_first r)).

Lemma login_login_run supply r m sig st : login_body r = Ok (m, sig) -> m <> ""%string -> sig <> ""%string ->
  login_login verifier issuer supply r st =
  (res ← Login verifier issuer (sp_verify supply) (sp_consume supply) (sp_issue supply) (sp_jti supply) m sig; mret (LToken res)) st.
Proof.
  intros Hb Hm Hs. unfold login_login. fold (login_body r). rewrite Hb. unfold lift. unfold mbind at 1, M_bind at 1. cbv beta iota.
  by rewrite !bool_decide_eq_false_2.
Qed.

(** A login with a nonce that the store does not hold is refused. *)
Lemma Login_unknown_nonce tv tc ti jti m sig addr n st :
  Verify verifier tv m sig = Ok (addr, n) -> byNonce (ls_nonces st) !! n = None ->
  (Login verifier issuer tv tc ti jti m sig st).1 = Err (UnAuthorizedError None "nonce is unknown, expired, or already used").
Proof.
  intros Hv Hn. unfold Login. rewrite Hv. unfold mbind, M_bind, on_nonces, Consume. by rewrite Hn.
Qed.

(** A login with a live nonce of a registered signer succeeds and uses the nonce up. *)
Lemma Login_succeeds tv tc ti jti m sig addr n a dao token exp st :
  Verify verifier tv m sig = Ok (addr, n) -> NormalizeAddress (Address_Hex addr) = a ->
  (Consume tc n (ls_nonces st)).1 = true -> faults (ls_users st) = [] ->
  List.find (column_is col_evm_address a) (t_users (tables (ls_users st))) = Some dao ->
  u_CantonPartyID (toUser dao) <> ""%string ->
  Issuer_Issue issuer ti jti a (u_CantonPartyID (toUser dao)) = Ok (token, exp) ->
  Login verifier issuer tv tc ti jti m sig st =
  (Ok (mkLoginResponse token (unix_seconds exp)), mkLoginState (Consume tc n (ls_nonces st)).2 (ls_users st)).
Proof.
  intros Hv Ha Hlive Hf Hdao Hp Hi. unfold Login. rewrite Hv. unfold mbind, M_bind, on_nonces.
  destruct (Consume tc n (ls_nonces st)) as [b ns]. cbn in Hlive. subst b. cbn [negb]. rewrite Ha.
  destruct st as [ns0 [tb fs]]. cbn in Hf, Hdao. subst fs.
  unfold attempt, on_users, zoom, GetUserByEVMAddress, getUserBy, wrapping. cbn [ls_users]. unfold mbind, M_bind.
  rewrite query_nofault. cbn [wrap]. rewrite Hdao. cbn [mret M_ret].
  rewrite (bool_decide_eq_false_2 _ Hp). cbn [ls_nonces]. by rewrite Hi.
Qed.

(** Signing in works, once.  A caller asks for a nonce for an address.
    Whatever other nonces are issued and consumed before that nonce expires,
    a login request with a message that verifies for the address and carries
    the nonce is answered, while the nonce lives and the address is that of a
    registered user with a party, with the token issued for exactly that
    address and party; and any later login with the same nonce is refused. *)
Theorem login_flow supply r1 st n st1 ops supply' r2 m sig addr dao token exp st2 :
  let a := NormalizeAddress (TrimSpace (aq_get r1 "address")) in
  well_formed (ls_nonces st) -> byNonce (ls_nonces st) !! sp_nonce supply = None ->
  login_nonce supply r1 st = (Ok (LNonce n), st1) ->
  fresh_for ops (ls_nonces st1) -> ls_nonces st2 = foldl apply_op (ls_nonces st1) ops ->
  login_body r2 = Ok (m, sig) -> m <> ""%string -> sig <> ""%string ->
  Verify verifier (sp_verify supply') m sig = Ok (addr, n) -> NormalizeAddress (Address_Hex addr) = a ->
  faults (ls_users st2) = [] ->
  List.find (column_is col_evm_address a) (t_users (tables (ls_users st2))) = Some dao ->
  u_CantonPartyID (toUser dao) <> ""%string ->
  Issuer_Issue issuer (sp_issue supply') (sp_jti supply') a (u_CantonPartyID (toUser dao)) = Ok (token, exp) ->
  exists e, byAddr (ls_nonces st1) !! a = Some e /\
  ((forall o, o ∈ ops -> op_time o < e_expiry e /\ forall t, o <> OpConsume t n) -> sp_consume supply' < e_expiry e ->
   exists st3, login_login verifier issuer supply' r2 st2 = (Ok (LToken (mkLoginResponse token (unix_seconds exp))), st3) /\
   forall supply'' r3 m' sig' addr', login_body r3 = Ok (m', sig') -> m' <> ""%string -> sig' <> ""%string ->
     Verify verifier (sp_verify supply'') m' sig' = Ok (addr', n) ->
     (login_login verifier issuer supply'' r3 st3).1 = Err (UnAuthorizedError None "nonce is unknown, expired, or already used")).
Proof.
  intros a Hwf Hfresh Hnonce Hops Hst2 Hbody Hm Hsig Hv Ha Hf Hdao Hp Hi.
  assert (Issue (sp_now supply) (sp_nonce supply) a (ls_nonces st) = (Ok n, ls_nonces st1)) as Hissue.
  { revert Hnonce. unfold login_nonce, require, mbind, M_bind, attempt, Nonce, zoom. fold a.
    destruct (ValidateEVMAddress _); [|done]. cbn [mret M_ret].
    destruct (Issue _ _ _ _) as [[n'|e] ns]; [|done]. by intros [= -> <-]. }
  destruct (live_nonce_kept _ _ _ _ _ _ ops (sp_consume supply') Hwf Hfresh Hissue Hops) as (e & He & Hen & Hkept).
  exists e. split; [done|]. intros Hbefore Hexp. destruct (Hkept Hbefore Hexp) as (_ & Hc & _). rewrite <- Hst2 in Hc.
  eexists. split.
  - rewrite (login_login_run _ _ _ _ _ Hbody Hm Hsig). unfold mbind, M_bind.
    by rewrite (Login_succeeds _ _ _ _ _ _ _ _ _ _ _ _ _ Hv Ha Hc Hf Hdao Hp Hi).
  - intros supply'' r3 m' sig' addr' Hbody' Hm' Hsig' Hv'. rewrite (login_login_run _ _ _ _ _ Hbody' Hm' Hsig'). unfold mbind, M_bind.
    pose proof (Login_unknown_nonce (sp_verify supply'') (sp_consume supply'') (sp_issue supply'') (sp_jti supply'') m' sig' addr' n
      (mkLoginState (Consume (sp_consume supply') n (ls_nonces st2)).2 (ls_users st2)) Hv' (Consume_removes _ _ _)) as Hno.
    destruct (Login _ _ _ _ _ _ m' sig' _) as [[res|err] w]; [done|]. cbn in Hno |- *. by injection Hno as ->.
Qed.
End flow.

(** ** The context of a request *)

Inductive contextKey := ContextKeyEVMAddress | ContextKeyCantonParty | ContextKeyFingerprint | ContextKeyUserID.

(** A value of a context, with its dynamic type. *)
Inductive contextValue := CString (s : string) | CInt64 (n : Z).

(** context.WithValue: the innermost value of a key is found. *)
Definition Context : Type := list (contextKey * contextValue).

#[global] Instance contextKey_eq_dec : EqDecision contextKey.
Proof. solve_decision. Defined.

Definition WithValue (k : contextKey) (v : contextValue) (ctx : Context) : Context := (k, v) :: ctx.
Definition Value (k : contextKey) (ctx : Context) : option contextValue :=
  snd <$> List.find (fun kv => bool_decide (kv.1 = k)) ctx.

(** A type assertion to string and to int64. *)
Definition as_string (v : option contextValue) : option string := match v with Some (CString s) => Some s | _ => None end.
Definition as_int64 (v : option contextValue) : option Z := match v with Some (CInt64 n) => Some n | _ => None end.

Definition WithEVMAddress (address : string) : Context -> Context := WithValue ContextKeyEVMAddress (CString address).
Definition EVMAddressFromContext (ctx : Context) : option string := as_string (Value ContextKeyEVMAddress ctx).
Definition WithCantonParty (party : string) : Context -> Context := WithValue ContextKeyCantonParty (CString party).
Definition CantonPartyFromContext (ctx : Context) : option string := as_string (Value ContextKeyCantonParty ctx).
Definition WithFingerprint (fingerprint : string) : Context -> Context := WithValue ContextKeyFingerprint (CString fingerprint).
Definition FingerprintFromContext (ctx : Context) : option string := as_string (Value ContextKeyFingerprint ctx).
Definition WithUserID (userID : Z) : Context -> Context := WithValue ContextKeyUserID (CInt64 userID).
Definition UserIDFromContext (ctx : Context) : option Z := as_int64 (Value ContextKeyUserID ctx).

Record RequestAuth := mkRequestAuth { ra_EVMAddress : string; ra_CantonParty : string; ra_Fingerprint : string; ra_UserID : Z }.

Definition WithAuthInfo (info : RequestAuth) (ctx : Context) : Context :=
  WithUserID (ra_UserID info) (WithFingerprint (ra_Fingerprint info)
    (WithCantonParty (ra_CantonParty info) (WithEVMAddress (ra_EVMAddress info) ctx))).

Definition AuthInfoFromContext (ctx : Context) : RequestAuth :=
  mkRequestAuth (default ""%string (EVMAddressFromContext ctx)) (default ""%string (CantonPartyFromContext ctx))
    (default ""%string (FingerprintFromContext ctx)) (default 0 (UserIDFromContext ctx)).

(** What is put in a context is found there, whatever was put there before. *)
Lemma auth_info_roundtrip info ctx : AuthInfoFromContext (WithAuthInfo info ctx) = info.
Proof. by destruct info. Qed.

(** ** Witness: a sign-in between the requests of others *)

Definition ex_hex : string := "00000000000000000000000000000000000000aa".
Definition ex_user_state : LoginState :=
  mkLoginState (NewInMemory (5 * Minute))
    (mkDB (mkUserTables [toUserDao (UserStore.New 7 ("0x" +:+ ex_hex) "alice::12" "0xf2" "cid" "enc")] ∅) []).
Definition ex_nonce_request : ApiRequest :=
  mkApiRequest "GET" ["auth"; "nonce"]%string ∅ {["address"%string := ("0x" +:+ ex_hex)%string]} None (Ok None).
Definition ex_login_request : ApiRequest :=
  mkApiRequest "POST" ["auth"; "login"]%string ∅ ∅
    (Some (JObject [("message", JString (ex_hex +:+ " n1")); ("signature", JString "sig")]%string)) (Ok None).
Definition ex_supply (t : Z) : Supply := mkSupply t t t t "n1" "j".
Definition ex_nonce_state : LoginState := (@login_nonce AuthMessages.example_geth (ex_supply 10) ex_nonce_request ex_user_state).2.
Definition ex_others : list op := [OpIssue 20 "n2" "0xbb"; OpConsume 30 "n2"]%string.
Definition ex_later_state : LoginState :=
  mkLoginState (foldl apply_op (ls_nonces ex_nonce_state) ex_others) (ls_users ex_user_state).

Lemma login_flow_witness :
  let login := @login_login AuthMessages.example_geth example_siwe party_jwt ex_verifier party_issuer (ex_supply 40) ex_login_request ex_later_state in
  login.1 = Ok (LToken (mkLoginResponse "alice::12" 1800)) /\
  (@login_login AuthMessages.example_geth example_siwe party_jwt ex_verifier party_issuer (ex_supply 50) ex_login_request login.2).1
    = Err (UnAuthorizedError None "nonce is unknown, expired, or already used").
Proof.
  cbv zeta.
  destruct (@login_flow AuthMessages.example_geth example_siwe party_jwt ex_verifier party_issuer (ex_supply 10) ex_nonce_request ex_user_state
    "n1" ex_nonce_state ex_others (ex_supply 40) ex_login_request (ex_hex +:+ " n1") "sig" (replicate 19 0 ++ [170])
    (toUserDao (UserStore.New 7 ("0x" +:+ ex_hex) "alice::12" "0xf2" "cid" "enc")) "alice::12" (40 + 30 * Minute) ex_later_state)
    as (e & He & Hflow); try (vm_compute; reflexivity); try (vm_compute; discriminate).
  - apply well_formed_new.
  - split; [refine (bool_decide_unpack _ _); vm_compute; exact I|]. intros f Hf. vm_compute in Hf.
    apply list_elem_of_singleton in Hf as ->. vm_compute. reflexivity.
  - assert (e_expiry e = 10 + 5 * Minute) as Hexp by (vm_compute in He; injection He as <-; vm_compute; reflexivity).
    destruct Hflow as (st3 & Hlogin & Hagain).
    + intros o Ho. rewrite Hexp. unfold ex_others in Ho. rewrite !elem_of_cons in Ho.
      destruct Ho as [->|[->|Ho]]; [..|by apply not_elem_of_nil in Ho]; (split; [vm_compute; reflexivity|discriminate]).
    + rewrite Hexp. vm_compute. reflexivity.
    + rewrite Hlogin. split; [vm_compute; reflexivity|]. cbn [snd].
      apply (Hagain (ex_supply 50) ex_login_request (ex_hex +:+ " n1")%string "sig"%string (replicate 19 0 ++ [170]));
        (vm_compute; (reflexivity || discriminate)).
Defined.
