(* ===== verification/Startup.v ===== *)
(** * Startup: configuration and wiring

    pkg/config/config.go as far as the servers depend on it (the rules of the
    validator and the default of the token provider; the YAML decoder, the
    environment expansion and the default tags are the argument [parse]), and
    the decisions that pkg/app/api/server.go and pkg/app/indexer/server.go take
    before they serve: the master key, the indexer's URL, the token provider,
    the administrator, and the templates the indexer subscribes to.  Opening
    the database and the ledger connection is left out. *)

From S2P Require Import Prelude AppErrors Effects GoStd GoText DamlValues Streaming Keys IndexerStore IndexerProcessor IndexerDecoder.
From Stdlib Require Import Ascii String.
Local Open Scope Z_scope.
Local Abbreviation length := Datatypes.length.

(** ** Configuration *)

Inductive TokenProviderMode := TokenProviderCanton | TokenProviderIndexer | OtherProvider (mode : string).

#[global] Instance TokenProviderMode_eq_dec : EqDecision TokenProviderMode.
Proof. solve_decision. Defined.

Record IndexerProviderConfig := mkIndexerProviderConfig { ip_URL : string; ip_Instruments : gmap string string }.
Record TokenProviderConfig := mkTokenProviderConfig { tp_Mode : TokenProviderMode; tp_Indexer : option IndexerProviderConfig }.
Record AdminAPI := mkAdminAPI { ad_Enabled : bool; ad_APIKey : string }.
Record ServerConfig := mkServerConfig { sc_Host : string; sc_Port : Z }.
Record Monitoring := mkMonitoring { mo_Enabled : bool; mo_Server : option ServerConfig; mo_HealthCheckURL : string }.
Record KeyManagement := mkKeyManagement { km_MasterKeyEnv : string; km_KeyDerivation : string }.
Record AcceptWorkerConfig := mkAcceptWorkerConfig { aw_IndexerURL : string; aw_PollInterval : Z }.

Section config.
(** The blocks whose contents the start-up passes on unread, each with the
    rules of its own tags. *)
Context {DatabaseConfig CantonConfig TokenConfig EthRPCConfig AuthConfig LogConfig : Type}.
Variables (database_ok : DatabaseConfig -> bool) (canton_ok : CantonConfig -> bool) (token_ok : TokenConfig -> bool)
  (ethrpc_ok : EthRPCConfig -> bool) (auth_ok : AuthConfig -> bool) (log_ok : LogConfig -> bool).

Record APIServer := mkAPIServer {
  cf_Server : option ServerConfig;
  cf_Database : option DatabaseConfig;
  cf_Canton : option CantonConfig;
  cf_Token : option TokenConfig;
  cf_TokenProvider : option TokenProviderConfig;
  cf_EthRPC : option EthRPCConfig;
  cf_Auth : option AuthConfig;
  cf_AcceptWorker : option AcceptWorkerConfig;
  cf_Monitoring : option Monitoring;
  cf_Logging : option LogConfig;
  cf_KeyManagement : option KeyManagement;
  cf_SkipCantonSigVerify : bool;
  cf_SkipWhitelistCheck : bool;
  cf_CORSOrigins : list string;
  cf_Admin : option AdminAPI;
}.

(** ** Validation *)

(** validate:"required" on a pointer to a block, and no tag. *)
Definition required {A} (ok : A -> bool) (o : option A) : bool := match o with Some a => ok a | None => false end.
Definition optional {A} (ok : A -> bool) (o : option A) : bool := match o with Some a => ok a | None => true end.
Definition nonempty_text (s : string) : bool := negb (bool_decide (s = ""%string)).

Definition server_ok (c : ServerConfig) : bool := nonempty_text (sc_Host c) && (0 <? sc_Port c).
Definition monitoring_ok (c : Monitoring) : bool :=
  if mo_Enabled c then required server_ok (mo_Server c) else optional server_ok (mo_Server c).
Definition key_management_ok (c : KeyManagement) : bool :=
  nonempty_text (km_MasterKeyEnv c) && bool_decide (km_KeyDerivation c ∈ ["generate"; "derive"]%string).
Definition admin_ok (c : AdminAPI) : bool := if ad_Enabled c then nonempty_text (ad_APIKey c) else true.
Definition accept_worker_ok (c : AcceptWorkerConfig) : bool := nonempty_text (aw_IndexerURL c).
Definition indexer_provider_ok (c : IndexerProviderConfig) : bool :=
  nonempty_text (ip_URL c) && (1 <=? Z.of_nat (size (ip_Instruments c))).
(** The tags of the block, and the rule that newStartupValidator registers for it. *)
Definition token_provider_ok (c : TokenProviderConfig) : bool :=
  bool_decide (tp_Mode c = TokenProviderCanton \/ tp_Mode c = TokenProviderIndexer) && optional indexer_provider_ok (tp_Indexer c) &&
  negb (bool_decide (tp_Mode c = TokenProviderIndexer) && bool_decide (tp_Indexer c = None)).

Definition validateConfig (c : APIServer) : bool :=
  required server_ok (cf_Server c) && required database_ok (cf_Database c) && required canton_ok (cf_Canton c) &&
  required token_ok (cf_Token c) && optional token_provider_ok (cf_TokenProvider c) && required ethrpc_ok (cf_EthRPC c) &&
  optional auth_ok (cf_Auth c) && optional accept_worker_ok (cf_AcceptWorker c) && required monitoring_ok (cf_Monitoring c) &&
  required log_ok (cf_Logging c) && required key_management_ok (cf_KeyManagement c) && optional admin_ok (cf_Admin c).

(** The token provider of a configuration that has none. *)
Definition with_default_provider (c : APIServer) : APIServer :=
  match cf_TokenProvider c with
  | Some _ => c
  | None =>
      mkAPIServer (cf_Server c) (cf_Database c) (cf_Canton c) (cf_Token c) (Some (mkTokenProviderConfig TokenProviderCanton None))
        (cf_EthRPC c) (cf_Auth c) (cf_AcceptWorker c) (cf_Monitoring c) (cf_Logging c) (cf_KeyManagement c)
        (cf_SkipCantonSigVerify c) (cf_SkipWhitelistCheck c) (cf_CORSOrigins c) (cf_Admin c)
  end.

Definition LoadAPIServer (parse : string -> result APIServer) (configPath : string) : result APIServer :=
  cfg ← parse configPath;
  let cfg := with_default_provider cfg in
  if validateConfig cfg then Ok cfg else Err (ErrNew "validation failed").

(** ** The API server's start-up *)

Definition getMasterKey (getenv : string -> string) (c : APIServer) : result (list Z) :=
  let env := match cf_KeyManagement c with Some k => km_MasterKeyEnv k | None => ""%string end in
  let masterKeyStr := getenv env in
  if bool_decide (masterKeyStr = ""%string) then
    Err (ErrNew ("canton master key not set: env=" +:+ env +:+ " (hint: openssl rand -base64 32)"))
  else wrap "invalid canton master key: " (MasterKeyFromBase64 masterKeyStr).

(** net/url as far as indexerclient.New uses it. *)
Record URL := mkURL { u_Scheme : string; u_Path : string; u_String : string -> string }.
Variable url_Parse : string -> result URL.

(** strings.TrimSuffix *)
Definition TrimSuffix (s suffix : string) : string :=
  let n := (String.length s - String.length suffix)%nat in
  if bool_decide (String.length suffix <= String.length s)%nat && bool_decide (skip n s = suffix) then upto n s else s.

(** New of the indexer client: the base URL it keeps. *)
Definition indexerclient_New (baseURL : string) : result string :=
  match url_Parse baseURL with
  | Err e => Err (ErrWrap ("invalid indexer base URL " +:+ quoted baseURL +:+ ": ") e "")
  | Ok u =>
      if negb (bool_decide (u_Scheme u = "http"%string)) && negb (bool_decide (u_Scheme u = "https"%string)) then
        Err (ErrNew ("invalid indexer base URL " +:+ quoted baseURL +:+ ": scheme must be http or https"))
      else Ok (u_String u (TrimSuffix (u_Path u) "/"))
  end.

(** The URL of token_provider.indexer, or else that of accept_worker. *)
Definition indexer_url (c : APIServer) : string :=
  let url := match cf_TokenProvider c with
             | Some tp => match tp_Indexer tp with Some i => ip_URL i | None => "" end
             | None => ""
             end%string in
  if bool_decide (url = ""%string) then match cf_AcceptWorker c with Some w => aw_IndexerURL w | None => ""%string end else url.

Definition buildIndexerClient (c : APIServer) : result string :=
  let url := indexer_url c in
  if bool_decide (url = ""%string) then
    Err (ErrNew "indexer URL is required: set token_provider.indexer.url or accept_worker.indexer_url")
  else match indexerclient_New url with
       | Ok cl => Ok cl
       | Err e => Err (ErrWrap ("create indexer client (" +:+ url +:+ "): ") e "")
       end.

(** The provider of the token service: the ledger, or the indexer with the
    admins of the instruments. *)
Inductive TokenDataProvider := CantonProvider | IndexerProvider (client : string) (instruments : gmap string string).

Definition buildTokenProvider (c : APIServer) (indexerClient : string) : result TokenDataProvider :=
  match cf_TokenProvider c with
  | None => Err (ErrNew "nil pointer dereference")
  | Some tp =>
      if negb (bool_decide (tp_Mode tp = TokenProviderIndexer)) then Ok CantonProvider
      else match tp_Indexer tp with
           | None => Err (ErrNew ("token_provider.indexer config is required when mode is " +:+ quoted "indexer"))
           | Some i => Ok (IndexerProvider indexerClient (ip_Instruments i))
           end
  end.

(** What the server serves with. *)
Record Wiring := mkWiring {
  wi_masterKey : list Z;
  wi_indexer : string;
  wi_provider : TokenDataProvider;
  wi_admin : AdminAPI;
}.

(** Run up to the router: the order of the checks is that of the code. *)
Definition start_api (getenv : string -> string) (c : APIServer) : result Wiring :=
  masterKey ← getMasterKey getenv c;
  client ← buildIndexerClient c;
  provider ← wrap "build token provider: " (buildTokenProvider c client);
  mret (mkWiring masterKey client provider (default (mkAdminAPI false "") (cf_Admin c))).
End config.
Arguments APIServer _ _ _ _ _ _ : clear implicits.

(** ** The indexer's subscription *)

(** Config of the indexer *)
Record IndexerConfig := mkIndexerConfig {
  ic_CIP56PackageID : string;
  ic_FilterMode : string;
  ic_Instruments : list InstrumentKey;
  ic_UtilityRegistryPackageID : string;
  ic_UtilityRegistryHoldingPackageID : string;
}.

Definition indexerTemplateIDs (c : IndexerConfig) : list Identifier :=
  [mkIdentifier (ic_CIP56PackageID c) "CIP56.Events" "TokenTransferEvent"] ++
  (if bool_decide (ic_UtilityRegistryPackageID c = ""%string) then []
   else [mkIdentifier (ic_UtilityRegistryPackageID c) "Utility.Registry.App.V0.Model.Transfer" "TransferOffer"]) ++
  (if bool_decide (ic_UtilityRegistryHoldingPackageID c = ""%string) then []
   else [mkIdentifier (ic_UtilityRegistryHoldingPackageID c) "Utility.Registry.Holding.V0.Holding" "Holding"]).

(** The decoder that Run builds. *)
Definition run_decoder (c : IndexerConfig) : LedgerTransaction -> LedgerEvent -> option Item :=
  let '(filterMode, instruments) := FilterModeAndKeys (ic_FilterMode c) (ic_Instruments c) in
  indexer_decode filterMode instruments (ic_UtilityRegistryPackageID c) (ic_UtilityRegistryHoldingPackageID c).

(** ** Properties *)

Section startup.
Context {DatabaseConfig CantonConfig TokenConfig EthRPCConfig AuthConfig LogConfig : Type}.
Context (database_ok : DatabaseConfig -> bool) (canton_ok : CantonConfig -> bool) (token_ok : TokenConfig -> bool)
  (ethrpc_ok : EthRPCConfig -> bool) (auth_ok : AuthConfig -> bool) (log_ok : LogConfig -> bool) (url_Parse : string -> result URL).
Abbreviation APIServer := (Startup.APIServer DatabaseConfig CantonConfig TokenConfig EthRPCConfig AuthConfig LogConfig).
Abbreviation valid := (validateConfig database_ok canton_ok token_ok ethrpc_ok auth_ok log_ok).
Abbreviation load := (LoadAPIServer database_ok canton_ok token_ok ethrpc_ok auth_ok log_ok).

(** What a loaded configuration guarantees. *)
Lemma load_valid parse path (c : APIServer) : load parse path = Ok c ->
  valid c = true /\ exists tp, cf_TokenProvider c = Some tp /\ token_provider_ok tp = true.
Proof.
  unfold LoadAPIServer. destruct (parse path) as [c0|e]; [|done]. cbn.
  destruct (valid (with_default_provider c0)) eqn:Hv; [|done]. intros [= <-]. split; [done|].
  unfold validateConfig in Hv. repeat (apply andb_true_iff in Hv as [Hv ?]).
  unfold with_default_provider in *. destruct (cf_TokenProvider c0) as [tp|] eqn:Htp.
  - exists tp. split; [done|]. rewrite Htp in *. done.
  - by eexists.
Qed.

Lemma valid_admin (c : APIServer) : valid c = true -> ad_Enabled (default (mkAdminAPI false "") (cf_Admin c)) = true ->
  ad_APIKey (default (mkAdminAPI false "") (cf_Admin c)) <> ""%string.
Proof.
  intros Hv. unfold validateConfig in Hv. repeat (apply andb_true_iff in Hv as [Hv ?]).
  destruct (cf_Admin c) as [a|]; [|done]. cbn in *. unfold admin_ok, nonempty_text in *. intros Hen. rewrite Hen in *.
  by case_bool_decide.
Qed.

Lemma master_key_length getenv (c : APIServer) key : getMasterKey getenv c = Ok key -> length key = 32%nat.
Proof.
  unfold getMasterKey, MasterKeyFromBase64. case_bool_decide; [done|]. destruct (Std_Decode _) as [k|]; [|done]. cbn.
  case_bool_decide; [|done]. by intros [= <-].
Qed.

(** A server that starts from a loaded configuration has what its services rely
    on: a master key of 32 bytes for the keys at rest, an indexer, a token
    provider of the mode that was asked for, with the instruments of the
    indexer mode, and an administrator's key that is not empty where the admin
    routes are mounted.  The provider is never the reason that it does not start. *)
Theorem startup_guards parse path getenv (c : APIServer) w :
  load parse path = Ok c -> start_api url_Parse getenv c = Ok w ->
  length (wi_masterKey w) = 32%nat /\ indexer_url c <> ""%string /\
  (ad_Enabled (wi_admin w) = true -> ad_APIKey (wi_admin w) <> ""%string) /\
  exists tp, cf_TokenProvider c = Some tp /\
    match wi_provider w with
    | CantonProvider => tp_Mode tp = TokenProviderCanton
    | IndexerProvider client instruments => tp_Mode tp = TokenProviderIndexer /\ client = wi_indexer w /\ instruments <> ∅
    end.
Proof.
  intros (Hv & tp & Htp & Hok)%load_valid. unfold start_api, mbind, result_bind.
  destruct (getMasterKey getenv c) as [key|e] eqn:Hkey; [|done]. unfold buildIndexerClient.
  case_bool_decide as Hurl; [done|]. destruct (indexerclient_New url_Parse (indexer_url c)) as [cl|e]; [|done].
  unfold buildTokenProvider. rewrite Htp. unfold token_provider_ok in Hok. rewrite !andb_true_iff in Hok.
  destruct Hok as [[Hmode%bool_decide_eq_true_1 Hip] Hreq].
  case_bool_decide as Hix; cbn [negb].
  - destruct (tp_Indexer tp) as [i|] eqn:Hi; [|done]. cbn. intros [= <-]. cbn. split_and!; try done; [by apply (master_key_length getenv c)|by apply valid_admin|].
    exists tp. split; [done|]. split_and!; try done. cbn in Hip. unfold indexer_provider_ok in Hip.
    apply andb_true_iff in Hip as [_ Hsz%Z.leb_le]. intros He. rewrite He, map_size_empty in Hsz. lia.
  - cbn. intros [= <-]. cbn. split_and!; try done; [by apply (master_key_length getenv c)|by apply valid_admin|].
    exists tp. split; [done|]. by destruct Hmode.
Qed.

(** The mode that reads the ledger does not start without an indexer either,
    although a configuration without one is valid. *)
Theorem canton_mode_needs_indexer getenv (c : APIServer) :
  (forall tp, cf_TokenProvider c = Some tp -> tp_Indexer tp = None) -> cf_AcceptWorker c = None ->
  is_ok (start_api url_Parse getenv c) = false.
Proof.
  intros Htp Haw. unfold start_api, mbind, result_bind. destruct (getMasterKey getenv c); [|done].
  unfold buildIndexerClient. assert (indexer_url c = ""%string) as ->; [|done].
  unfold indexer_url. rewrite Haw. destruct (cf_TokenProvider c) as [tp|]; [|done]. by rewrite (Htp tp eq_refl).
Qed.
End startup.

(** ** Subscription and decoding agree *)

Lemma elem_of_template_ids c t : t ∈ indexerTemplateIDs c <->
  t = mkIdentifier (ic_CIP56PackageID c) tokenTransferEventModule tokenTransferEventEntity \/
  (ic_UtilityRegistryPackageID c <> ""%string /\ t = mkIdentifier (ic_UtilityRegistryPackageID c) transferOfferModule transferOfferEntity) \/
  (ic_UtilityRegistryHoldingPackageID c <> ""%string /\ t = mkIdentifier (ic_UtilityRegistryHoldingPackageID c) holdingModule holdingEntity).
Proof.
  unfold indexerTemplateIDs. rewrite !elem_of_app, list_elem_of_singleton.
  repeat case_bool_decide; rewrite ?list_elem_of_singleton, ?elem_of_nil; naive_solver.
Qed.

(** The indexer subscribes to what it decodes: an event that its decoder
    accepts has a subscribed template, and every event of a subscribed registry
    template is decoded. *)
Theorem subscription_matches_decoder c tx ev :
  (forall i, run_decoder c tx ev = Some i ->
     exists t, t ∈ indexerTemplateIDs c /\ ModuleName t = ModuleName (le_Template ev) /\ EntityName t = EntityName (le_Template ev)) /\
  (forall t, t ∈ indexerTemplateIDs c -> le_Template ev = t -> ModuleName t <> tokenTransferEventModule ->
     is_Some (run_decoder c tx ev)).
Proof.
  unfold run_decoder. destruct (FilterModeAndKeys _ _) as [mode allowed]. unfold indexer_decode, NewMultiDecoder. split.
  - intros i. destruct (NewTokenTransferDecoder mode allowed tx ev) as [e|] eqn:He.
    { intros _. exists (mkIdentifier (ic_CIP56PackageID c) tokenTransferEventModule tokenTransferEventEntity).
      split; [apply elem_of_template_ids; by left|]. unfold NewTokenTransferDecoder in He.
      destruct (le_IsCreated ev); [|done]. destruct (is_template ev _ _) eqn:Ht; [|done]. apply is_template_eq in Ht as [-> ->]. done. }
    destruct (NewOfferDecoder _ tx ev) as [t|] eqn:Ho.
    { intros _. unfold NewOfferDecoder in Ho. case_bool_decide as Hp; [done|].
      destruct (is_template ev transferOfferModule transferOfferEntity) eqn:Ht; [|done]. apply is_template_eq in Ht as [Hm Hn].
      exists (mkIdentifier (ic_UtilityRegistryPackageID c) transferOfferModule transferOfferEntity).
      split; [apply elem_of_template_ids; auto|]. by rewrite Hm, Hn. }
    intros [h [Hh _]]%fmap_Some. unfold NewHoldingDecoder in Hh. case_bool_decide as Hp; [done|].
    destruct (is_template ev holdingModule holdingEntity) eqn:Ht; [|done]. apply is_template_eq in Ht as [Hm Hn].
    exists (mkIdentifier (ic_UtilityRegistryHoldingPackageID c) holdingModule holdingEntity).
    split; [apply elem_of_template_ids; auto|]. by rewrite Hm, Hn.
  - intros t Hin Ht Hm. destruct (NewTokenTransferDecoder mode allowed tx ev); [by eexists|].
    apply elem_of_template_ids in Hin as [->|[[Hp ->]|[Hp ->]]]; [done|..].
    + unfold NewOfferDecoder. rewrite bool_decide_eq_false_2 by done. unfold is_template. rewrite Ht. cbn.
      rewrite !bool_decide_eq_true_2 by done. cbn. by destruct (le_IsCreated ev); eexists.
    + destruct (NewOfferDecoder _ tx ev); [by eexists|]. unfold NewHoldingDecoder. rewrite bool_decide_eq_false_2 by done.
      unfold is_template. rewrite Ht. cbn. rewrite !bool_decide_eq_true_2 by done. cbn. by destruct (le_IsCreated ev); eexists.
Qed.
