(* ===== verification/ConfigLoad.v ===== *)
(** * ConfigLoad: from a file to a configuration and a database

    pkg/config: loadConfigFromFile with the expansion of environment variables
    (os.ExpandEnv, written out), LoadRelayerServer and LoadIndexerServer; and
    pkg/pgutil: the connection string and ConnectDB.  The YAML decoder, the
    defaults of the struct tags, the URL parser and the driver are
    parameters. *)

From S2P Require Import Prelude AppErrors Effects GoStd GoText Startup.
From Stdlib Require Import Ascii String.
Local Open Scope Z_scope.
Local Open Scope string_scope.

(** ** os.Expand *)

Definition dollar : ascii := "$".
Definition is_digit (c : ascii) : bool := let n := nat_of_ascii c in (48 <=? n)%nat && (n <=? 57)%nat.
Definition isShellSpecialVar (c : ascii) : bool := is_digit c || bool_decide (c ∈ ["*"; "#"; "$"; "@"; "!"; "?"; "-"]%char).
Definition isAlphaNum (c : ascii) : bool :=
  let n := nat_of_ascii c in
  bool_decide (c = "_"%char) || is_digit c || ((97 <=? n)%nat && (n <=? 122)%nat) || ((65 <=? n)%nat && (n <=? 90)%nat).

(** The text up to a closing brace and what follows the brace. *)
Fixpoint to_brace (s : string) : option (string * string) :=
  match s with
  | EmptyString => None
  | String c s =>
      if bool_decide (c = "}"%char) then Some ("", s)
      else match to_brace s with Some (name, rest) => Some (String c name, rest) | None => None end
  end.

Fixpoint span_name (s : string) : string * string :=
  match s with
  | String c s' => if isAlphaNum c then let '(name, rest) := span_name s' in (String c name, rest) else ("", s)
  | EmptyString => ("", "")
  end.

(** getShellName on the text after a dollar sign: the name, whether anything
    was consumed, and what is left. *)
Definition getShellName (s : string) : string * bool * string :=
  match s with
  | String "{" s' =>
      match s' with
      | String c (String "}" rest) => if isShellSpecialVar c then (String c "", true, rest)
                                      else match to_brace s' with Some (name, rest) => (name, true, rest) | None => ("", true, s') end
      | _ => match to_brace s' with Some (name, rest) => (name, true, rest) | None => ("", true, s') end
      end
  | String c s' =>
      if isShellSpecialVar c then (String c "", true, s')
      else let '(name, rest) := span_name s in (name, negb (bool_decide (name = "")), rest)
  | EmptyString => ("", false, "")
  end.

(** os.Expand; the fuel is the length of the text. *)
Fixpoint expand (fuel : nat) (mapping : string -> string) (s : string) : string :=
  match fuel with
  | O => s
  | S fuel =>
      match s with
      | EmptyString => EmptyString
      | String c s' =>
          if bool_decide (c = dollar) && negb (bool_decide (s' = "")) then
            let '(name, consumed, rest) := getShellName s' in
            (if bool_decide (name = "") then if consumed : bool then "" else String dollar "" else mapping name) +:+ expand fuel mapping rest
          else String c (expand fuel mapping s')
      end
  end.
Definition ExpandEnv (getenv : string -> string) (s : string) : string := expand (String.length s) getenv s.

Example expand_braces : ExpandEnv (fun _ => "secret") "api_key: ${ADMIN_API_KEY}!" = "api_key: secret!".
Proof. reflexivity. Qed.
Example expand_plain : ExpandEnv (fun _ => "secret") "a $X-Y $ ${} ${Z" = "a secret-Y $  Z".
Proof. reflexivity. Qed.

(** ** Lemmas *)

Definition no_dollar (s : string) : Prop := Forall (fun c => c <> dollar) (String.list_ascii_of_string s).

Lemma to_brace_cons c s : to_brace (String c s) =
  if bool_decide (c = "}"%char) then Some ("", s)
  else match to_brace s with Some (name, rest) => Some (String c name, rest) | None => None end.
Proof. reflexivity. Qed.

Lemma to_brace_app name rest : Forall (fun c => c <> "}"%char) (String.list_ascii_of_string name) ->
  to_brace (name +:+ String "}" rest) = Some (name, rest).
Proof.
  induction name as [|c name IH]; intros Hn; [done|]. apply Forall_cons in Hn as [Hc Hn].
  change ((String c name) +:+ String "}" rest) with (String c (name +:+ String "}" rest)).
  rewrite to_brace_cons, bool_decide_eq_false_2 by done. by rewrite IH.
Qed.

Lemma to_brace_shrinks s name rest : to_brace s = Some (name, rest) -> (String.length rest < String.length s)%nat.
Proof.
  revert name rest. induction s as [|c s IH]; intros name rest; [done|]. rewrite to_brace_cons.
  case_bool_decide; [intros [= <- <-]; cbn; lia|].
  destruct (to_brace s) as [[n r]|]; [|done]. intros [= <- <-]. specialize (IH n r eq_refl). cbn. lia.
Qed.

Lemma span_name_shrinks s : (String.length (span_name s).2 <= String.length s)%nat.
Proof.
  induction s as [|c s IH]; cbn; [lia|]. destruct (isAlphaNum c); [|cbn; lia]. destruct (span_name s). cbn in *. lia.
Qed.

(** getShellName by the first character. *)
Lemma getShellName_brace s : getShellName (String "{" s) =
  match s with
  | String c (String "}" rest) => if isShellSpecialVar c then (String c "", true, rest)
                                  else match to_brace s with Some (name, rest) => (name, true, rest) | None => ("", true, s) end
  | _ => match to_brace s with Some (name, rest) => (name, true, rest) | None => ("", true, s) end
  end.
Proof. reflexivity. Qed.

Lemma getShellName_other c s : c <> "{"%char -> getShellName (String c s) =
  if isShellSpecialVar c then (String c "", true, s)
  else let '(name, rest) := span_name (String c s) in (name, negb (bool_decide (name = "")), rest).
Proof. intros Hc. destruct c as [[] [] [] [] [] [] [] []]; try reflexivity. by destruct Hc. Qed.

(** A special variable in braces is also found by the closing brace. *)
Lemma getShellName_braced s : getShellName (String "{" s) = match to_brace s with Some (name, rest) => (name, true, rest) | None => ("", true, s) end.
Proof.
  rewrite getShellName_brace. destruct s as [|c [|c' rest]]; try reflexivity.
  destruct (ascii_dec c' "}") as [->|Hc'].
  - destruct (isShellSpecialVar c) eqn:Hs; [|reflexivity]. rewrite to_brace_cons.
    rewrite bool_decide_eq_false_2 by (intros ->; discriminate). reflexivity.
  - destruct c' as [[] [] [] [] [] [] [] []]; try reflexivity. by destruct Hc'.
Qed.

Lemma getShellName_shrinks s : (String.length (getShellName s).2 <= String.length s)%nat.
Proof.
  destruct s as [|c s]; [done|]. destruct (ascii_dec c "{") as [->|Hc].
  - rewrite getShellName_braced. destruct (to_brace s) as [[name rest]|] eqn:Hb; cbn; [|lia]. apply to_brace_shrinks in Hb. lia.
  - rewrite getShellName_other by done. destruct (isShellSpecialVar c); [cbn; lia|].
    pose proof (span_name_shrinks (String c s)). destruct (span_name (String c s)). done.
Qed.

Lemma expand_cons fuel mapping c s : expand (S fuel) mapping (String c s) =
  if bool_decide (c = dollar) && negb (bool_decide (s = "")) then
    let '(name, consumed, rest) := getShellName s in
    (if bool_decide (name = "") then if consumed : bool then "" else String dollar "" else mapping name) +:+ expand fuel mapping rest
  else String c (expand fuel mapping s).
Proof. reflexivity. Qed.

(** More fuel than the text is long changes nothing. *)
Lemma expand_fuel mapping fuel s : (String.length s <= fuel)%nat -> expand fuel mapping s = ExpandEnv mapping s.
Proof.
  unfold ExpandEnv. assert (Hgen : forall n f1 f2 s, (String.length s <= n)%nat -> (String.length s <= f1)%nat -> (String.length s <= f2)%nat ->
    expand f1 mapping s = expand f2 mapping s); [|intros; eapply Hgen; [reflexivity|lia..]].
  clear fuel s. induction n as [|n IH]; intros f1 f2 s Hn H1 H2; destruct s as [|c s]; cbn in Hn, H1, H2; try lia; [by destruct f1, f2..|].
  destruct f1 as [|f1], f2 as [|f2]; try lia. rewrite !expand_cons. destruct (_ && _).
  - pose proof (getShellName_shrinks s) as Hs. destruct (getShellName s) as [[name consumed] rest]. cbn in Hs. f_equal. apply IH; lia.
  - f_equal. apply IH; lia.
Qed.

Lemma append_empty s : s +:+ "" = s.
Proof. induction s as [|c s IH]; [done|]. change ((String c s) +:+ "") with (String c (s +:+ "")). by rewrite IH. Qed.

Lemma ExpandEnv_prefix mapping pre s : no_dollar pre -> ExpandEnv mapping (pre +:+ s) = pre +:+ ExpandEnv mapping s.
Proof.
  induction pre as [|c pre IH]; intros Hp; [done|]. apply Forall_cons in Hp as [Hc Hp].
  change ((String c pre) +:+ s) with (String c (pre +:+ s)). unfold ExpandEnv at 1. cbn [String.length]. rewrite expand_cons.
  rewrite bool_decide_eq_false_2 by done. cbn [andb]. rewrite expand_fuel by lia. by rewrite IH.
Qed.

(** The expansion of a configuration file: text without a dollar sign stays as
    it is, and [${NAME}] is replaced by the variable's value, which is itself
    not expanded again, wherever in the file it stands. *)
Theorem ExpandEnv_spec getenv pre name rest :
  no_dollar pre -> name <> "" -> Forall (fun c => c <> "}"%char) (String.list_ascii_of_string name) ->
  ExpandEnv getenv pre = pre /\
  ExpandEnv getenv (pre +:+ "${" +:+ name +:+ "}" +:+ rest) = pre +:+ getenv name +:+ ExpandEnv getenv rest.
Proof.
  intros Hp Hne Hn. split.
  - pose proof (ExpandEnv_prefix getenv pre "" Hp) as He.
    change (ExpandEnv getenv "") with "" in He. by rewrite !append_empty in He.
  - rewrite ExpandEnv_prefix by done. f_equal. unfold ExpandEnv at 1.
    change ("${" +:+ name +:+ "}" +:+ rest) with (String dollar (String "{" (name +:+ String "}" rest))).
    cbn [String.length]. rewrite expand_cons. rewrite bool_decide_eq_true_2 by done. cbn [andb negb].
    rewrite getShellName_braced, to_brace_app by done. rewrite (bool_decide_eq_false_2 (name = "")) by done. f_equal.
    apply expand_fuel. rewrite length_append. cbn. lia.
Qed.

(** ** Loading *)

Section load.
(** os.ReadFile and os.Getenv. *)
Variable read_file : string -> result string.
Variable getenv : string -> string.
Context {C : Type}.
(** The decoder with KnownFields, the defaults of the struct tags, and the
    validator's rules. *)
Variable decodeYAMLStrict : string -> result C.
Variable set_defaults : C -> result C.
Variable config_ok : C -> bool.

Definition loadConfigFromFile (path : string) : result C :=
  data ← wrap ("failed to read config file " +:+ quoted path +:+ ": ") (read_file path);
  cfg ← wrap ("failed to parse config file " +:+ quoted path +:+ ": ") (decodeYAMLStrict (ExpandEnv getenv data));
  wrap ("failed to apply default values for config " +:+ quoted path +:+ ": ") (set_defaults cfg).

(** LoadRelayerServer and LoadIndexerServer, each with its own type. *)
Definition load_validated (path : string) : result C :=
  cfg ← loadConfigFromFile path;
  if config_ok cfg then Ok cfg else Err (ErrNew "validation failed").

(** A configuration that loads was read, expanded, decoded, completed and
    validated, in this order. *)
Theorem load_validated_ok path cfg : load_validated path = Ok cfg <->
  exists data decoded, read_file path = Ok data /\ decodeYAMLStrict (ExpandEnv getenv data) = Ok decoded /\
    set_defaults decoded = Ok cfg /\ config_ok cfg = true.
Proof.
  unfold load_validated, loadConfigFromFile. split.
  - destruct (read_file path) as [data|e]; [|done]. cbn. destruct (decodeYAMLStrict _) as [decoded|e] eqn:Hd; [|done]. cbn.
    destruct (set_defaults decoded) as [c|e] eqn:Hs; [|done]. cbn. destruct (config_ok c) eqn:Hok; [|done]. intros [= <-]. eauto 10.
  - intros (data & decoded & -> & Hd & Hs & Hok). cbn. rewrite Hd. cbn. rewrite Hs. cbn. by rewrite Hok.
Qed.
End load.

(** The configuration of the relayer: its blocks, and which are required. *)
Section relayer.
Context {DatabaseConfig EthereumConfig CantonConfig BridgeConfig LogConfig LedgerConfig IndexerConfig : Type}.
Variables (database_ok : DatabaseConfig -> bool) (ethereum_ok : EthereumConfig -> bool) (canton_ok : CantonConfig -> bool)
  (bridge_ok : BridgeConfig -> bool) (log_ok : LogConfig -> bool) (ledger_ok : LedgerConfig -> bool) (indexer_ok : IndexerConfig -> bool).

Record RelayerServer := mkRelayerServer {
  rs_Server : option ServerConfig;
  rs_Database : option DatabaseConfig;
  rs_Ethereum : option EthereumConfig;
  rs_Canton : option CantonConfig;
  rs_Bridge : option BridgeConfig;
  rs_Monitoring : option Monitoring;
  rs_Logging : option LogConfig;
}.
Definition relayer_ok (c : RelayerServer) : bool :=
  required server_ok (rs_Server c) && required database_ok (rs_Database c) && required ethereum_ok (rs_Ethereum c) &&
  required canton_ok (rs_Canton c) && required bridge_ok (rs_Bridge c) && required monitoring_ok (rs_Monitoring c) && required log_ok (rs_Logging c).
Definition LoadRelayerServer read_file getenv decode set_defaults : string -> result RelayerServer :=
  load_validated read_file getenv decode set_defaults relayer_ok.

Record IndexerServer := mkIndexerServer {
  is_Server : option ServerConfig;
  is_Database : option DatabaseConfig;
  is_CantonLedger : option LedgerConfig;
  is_Indexer : option IndexerConfig;
  is_Monitoring : option Monitoring;
  is_Logging : option LogConfig;
}.
Definition indexer_server_ok (c : IndexerServer) : bool :=
  required server_ok (is_Server c) && required database_ok (is_Database c) && required ledger_ok (is_CantonLedger c) &&
  required indexer_ok (is_Indexer c) && required monitoring_ok (is_Monitoring c) && required log_ok (is_Logging c).
Definition LoadIndexerServer read_file getenv decode set_defaults : string -> result IndexerServer :=
  load_validated read_file getenv decode set_defaults indexer_server_ok.
End relayer.

(** ** pkg/pgutil *)

Record DatabaseConfig := mkDatabaseConfig { db_URL : string; db_SSLMode : string; db_Timeout : Z; db_PoolSize : Z }.

(** net/url: a parsed URL, its query, and the text of both. *)
Class NetUrl := {
  ParsedURL : Type;
  url_parse : string -> option ParsedURL;
  url_Query : ParsedURL -> gmap string (list string);
  with_query : gmap string (list string) -> ParsedURL -> ParsedURL;
  url_text : ParsedURL -> string;
}.
(** Parsing the text of a URL gives the URL, and encoding a query and parsing it
    gives the query. *)
Class NetUrlLaws `{!NetUrl} := {
  law_parse_text : forall u, url_parse (url_text u) = Some u;
  law_query : forall q u, url_Query (with_query q u) = q;
}.

(** Values.Get: the first value, or the empty text. *)
Definition query_Get (q : gmap string (list string)) (k : string) : string :=
  match q !! k with Some (v :: _) => v | _ => "" end.

Section pgutil.
Context `{!NetUrl}.

(** A URL that does not parse is a nil pointer: the method panics. *)
Definition GetConnectionString (c : option DatabaseConfig) : option string :=
  match c with
  | None => Some ""
  | Some c =>
      match url_parse (db_URL c) with
      | None => None
      | Some parsed =>
          let query := url_Query parsed in
          if negb (bool_decide (db_SSLMode c = "")) && bool_decide (query_Get query "sslmode" = "")
          then Some (url_text (with_query (<["sslmode" := [db_SSLMode c]]> query) parsed))
          else Some (url_text parsed)
      end
  end.

(** The connection has an sslmode whenever the configuration does: that of the
    URL if it names one, and otherwise the configured one. *)
Theorem connection_sslmode `{!NetUrlLaws} c parsed : url_parse (db_URL c) = Some parsed -> db_SSLMode c <> "" ->
  exists text parsed', GetConnectionString (Some c) = Some text /\ url_parse text = Some parsed' /\
    query_Get (url_Query parsed') "sslmode" =
      (if bool_decide (query_Get (url_Query parsed) "sslmode" = "") then db_SSLMode c else query_Get (url_Query parsed) "sslmode") /\
    forall k, k <> "sslmode" -> url_Query parsed' !! k = url_Query parsed !! k.
Proof.
  intros Hp Hm. unfold GetConnectionString. rewrite Hp, bool_decide_eq_false_2 by done. cbn [negb andb]. case_bool_decide as Hq.
  - eexists _, _. split; [reflexivity|]. split; [apply law_parse_text|]. rewrite law_query. split.
    + unfold query_Get. by rewrite lookup_insert_eq.
    + intros k Hk. by rewrite lookup_insert_ne.
  - eexists _, _. split; [reflexivity|]. split; [apply law_parse_text|]. done.
Qed.

(** A pool of connections: how many are opened at most, and kept idle. *)
Record Pool := mkPool { po_MaxOpen : option Z; po_MaxIdle : option Z; po_Open : bool }.

(** ConnectDB; [ping] is the answer of the database within the timeout, and the
    pool that was made comes with the result. *)
Definition ConnectDB (ping : string -> result unit) (c : DatabaseConfig) : option (result Pool * Pool) :=
  match GetConnectionString (Some c) with
  | None => None
  | Some dsn =>
      let size := if (0 <? db_PoolSize c)%Z then Some (db_PoolSize c) else None in
      match ping dsn with
      | Ok _ => let pool := mkPool size size true in Some (Ok pool, pool)
      | Err e => Some (Err (ErrWrap "failed to connect to database: " e ""), mkPool size size false)
      end
  end.

(** No pool outlives a failed ConnectDB. *)
Theorem ConnectDB_closes ping c r pool : ConnectDB ping c = Some (r, pool) ->
  po_Open pool = is_ok r /\ ((0 < db_PoolSize c)%Z -> po_MaxOpen pool = Some (db_PoolSize c) /\ po_MaxIdle pool = Some (db_PoolSize c)).
Proof.
  unfold ConnectDB. destruct (GetConnectionString (Some c)) as [dsn|]; [|done]. destruct (ping dsn); intros [= <- <-]; cbn;
    (split; [done|]; intros Hp; rewrite (proj2 (Z.ltb_lt _ _) Hp); done).
Qed.
End pgutil.
