(* ===== verification/IndexerPipeline.v ===== *)
(** * IndexerPipeline: the indexer from the ledger to its tables

    pkg/indexer/engine/fetcher.go, and the composition that
    pkg/app/indexer/server.go makes: the participant's update stream with its
    reconnects, the decoders, the batches and the processor over the database,
    through any number of lives of the process.  The reference is the index of
    a list of transactions, each processed once, in order and without faults;
    the tables of the indexer are the index of the ledger up to the offset they
    record, and with the connection and the database back they are the index of
    the whole ledger.  A commit that is reported as failed has no effect in this
    model; a replayed batch is the subject of IndexerHistory. *)

From S2P Require Import Prelude AppErrors Effects GoStd Decimal DamlValues Streaming IndexerStore IndexerProcessor IndexerDecoder IndexerScenarios Startup.
Local Open Scope Z_scope.

(** ** The fetcher *)

(** Fetcher; [f_out] is nil until Start, which runs once. *)
Record Fetcher := mkFetcher { f_templateIDs : list Identifier; f_out : option (list (Batch Item)) }.

Definition NewFetcher (templateIDs : list Identifier) : Fetcher := mkFetcher templateIDs None.

Section fetcher.
(** GetUpdates for the subscribed templates, from an exclusive offset *)
Variable updates : list Identifier -> Z -> list Response.
Variable decode : LedgerTransaction -> LedgerEvent -> option Item.

Definition Fetcher_Start (conns : list (nat * StreamEnd)) (offset : Z) (f : Fetcher) : Fetcher :=
  match f_out f with
  | Some _ => f
  | None =>
      let '(txs, _, _) := Subscribe (updates (f_templateIDs f)) offset offset reconnectBaseDelay conns in
      mkFetcher (f_templateIDs f) (Some (stream_batch decode <$> txs))
  end.

Definition Events (f : Fetcher) : list (Batch Item) := default [] (f_out f).
End fetcher.

(** ** The process *)

(** A life of the process: its connections to the participant, how many of the
    batches it takes from the channel before it is stopped, how often it tries
    a batch, and which statements fail. *)
Record Life := mkLife {
  l_conns : list (nat * StreamEnd);
  l_taken : nat;
  l_attempts : nat;
  l_faults : list (option string);
}.

Section pipeline.
Context `{!DecimalLib} `{!PgNumeric}.
Variable cfg : IndexerConfig.
Variable updates : list Identifier -> Z -> list Response.

Definition fetched (l : Life) (offset : Z) : list (Batch Item) :=
  take (l_taken l) (Events (Fetcher_Start updates (run_decoder cfg) (l_conns l) offset (NewFetcher (indexerTemplateIDs cfg)))).

(** The indexer's Run, from the tables that the last process left. *)
Definition indexer_process (l : Life) (tb : IndexerTables) : result unit * IndexerTables :=
  let '(r, d) := Run (l_attempts l) (fetched l) (mkDB tb (l_faults l)) in (r, tables d).

Definition no_tables : IndexerTables := mkIndexerTables ∅ ∅ ∅ None ∅ ∅.

Definition lives (ls : list Life) : IndexerTables := foldl (fun tb l => (indexer_process l tb).2) no_tables ls.

(** ** The reference: a ledger processed once, without faults *)

Definition index_batch (tb : IndexerTables) (b : Batch Item) : option IndexerTables :=
  match processBatch b (mkDB tb []) with (Ok _, d) => Some (tables d) | (Err _, _) => None end.

Definition batch_of (tx : ApiTransaction) : Batch Item := stream_batch (run_decoder cfg) (decodeLedgerTransaction tx).

Fixpoint index (tb : IndexerTables) (txs : list ApiTransaction) : option IndexerTables :=
  match txs with
  | [] => Some tb
  | tx :: txs => tb' ← index_batch tb (batch_of tx); index tb' txs
  end.

Lemma index_app tb txs txs' : index tb (txs ++ txs') = (tb' ← index tb txs; index tb' txs').
Proof. revert tb. induction txs as [|tx txs IH]; intros tb; cbn; [done|]. by destruct (index_batch tb _); cbn. Qed.

(** ** A batch *)

Lemma index_batch_offset tb b tb' : index_batch tb b = Some tb' -> offset tb' = Some (b_Offset b).
Proof.
  unfold index_batch. intros Hb. destruct (processBatch b _) as [[[]|e] d] eqn:Hd; [|done]. injection Hb as <-.
  destruct (wp_run _ _ _ _ _ (processBatch_commit _ _) Hd) as (d0 & Hrun & ->). by eapply batch_body_offset.
Qed.

(** A batch that is written is written as without faults. *)
Lemma processBatch_indexes b d d' : processBatch b d = (Ok tt, d') -> index_batch (tables d) b = Some (tables d').
Proof.
  intros Hb. destruct d as [tb fs]. unfold index_batch. cbn.
  destruct (surfaces_processBatch b _ _ _ _ Hb) as [->|(e & [=] & _)]. done.
Qed.

Lemma retry_indexes attempts delay waits b d :
  wp (processBatchWithRetry attempts delay waits b) (fun r d' =>
    (pending_faults d' <= pending_faults d)%nat /\
    match r with Ok _ => index_batch (tables d) b = Some (tables d') | Err _ => tables d' = tables d end) d.
Proof.
  revert delay waits d. induction attempts as [|n IH]; intros delay waits d; cbn [processBatchWithRetry]; [done|].
  apply wp_bind, wp_attempt, wp_intro. intros r d1 Hb.
  pose proof (strict_mono _ (processBatch_schedule b) d) as Hs. rewrite Hb in Hs. cbn in Hs.
  destruct r as [[]|e]; [by split; [|apply processBatch_indexes]|].
  pose proof (wp_run _ _ _ _ _ (processBatch_commit b d) Hb) as Ht. cbn in Ht. rewrite <- Ht.
  eapply wp_mono; [apply IH|]. intros r d2 [Hle Hr]. split; [lia|done].
Qed.

(** ** Sorted ledgers *)

Lemma filter_prefix lo hi (l : list ApiTransaction) : StronglySorted (fun a b => at_Offset a < at_Offset b) l ->
  filter (fun tx => lo < at_Offset tx <= hi) l `prefix_of` filter (fun tx => lo < at_Offset tx) l.
Proof.
  intros Hs. induction Hs as [|x l Hs IH Hx]; [done|]. rewrite !filter_cons. rewrite Forall_forall in Hx.
  destruct (decide (lo < at_Offset x)) as [Hlo|Hlo]; [|by rewrite (decide_False (P := lo < at_Offset x <= hi)) by lia].
  destruct (decide (lo < at_Offset x <= hi)) as [Hhi|Hhi]; [by apply prefix_cons|].
  rewrite filter_none; [apply prefix_nil|]. intros y Hy. specialize (Hx y Hy). lia.
Qed.

Lemma sorted_split lo (l : list ApiTransaction) : StronglySorted (fun a b => at_Offset a < at_Offset b) l ->
  l = filter (fun tx => at_Offset tx <= lo) l ++ filter (fun tx => lo < at_Offset tx) l.
Proof.
  intros Hs. induction Hs as [|x l Hs IH Hx]; [done|]. rewrite !filter_cons. rewrite Forall_forall in Hx.
  destruct (decide (at_Offset x <= lo)) as [Hlo|Hlo].
  { rewrite (decide_False (P := lo < at_Offset x)) by lia. cbn. by f_equal. }
  rewrite (decide_True (P := lo < at_Offset x)) by lia.
  rewrite (filter_none (fun tx => at_Offset tx <= lo)), (filter_all (fun tx => lo < at_Offset tx)); [done|..].
  - intros y Hy. specialize (Hx y Hy). lia.
  - intros y Hy. specialize (Hx y Hy). lia.
Qed.

Lemma filter_upto (done rest : list ApiTransaction) tx :
  StronglySorted (fun a b => at_Offset a < at_Offset b) (done ++ tx :: rest) ->
  filter (fun y => at_Offset y <= at_Offset tx) (done ++ tx :: rest) = done ++ [tx].
Proof.
  induction done as [|x done IH]; cbn [app]; intros Hs; inversion_clear Hs as [|? ? Hs' Hx]; rewrite Forall_forall in Hx.
  - rewrite filter_cons_True by lia. rewrite filter_none; [done|]. intros y Hy. specialize (Hx y Hy). lia.
  - rewrite filter_cons_True; [by rewrite IH|]. assert (tx ∈ done ++ tx :: rest) as Hin by set_solver. specialize (Hx tx Hin). lia.
Qed.

(** ** Delivery *)

Section delivery.
(** What the participant streams for the subscribed templates, in ledger
    order; GetUpdates from an exclusive offset yields the later transactions,
    with other updates in between. *)
Variable ledger : list ApiTransaction.
Hypothesis ledger_ordered : StronglySorted (fun a b => at_Offset a < at_Offset b) ledger.
Hypothesis ledger_positive : Forall (fun tx => 0 < at_Offset tx) ledger.
Hypothesis updates_spec : forall o, omap id (updates (indexerTemplateIDs cfg) o) = filter (fun tx => o < at_Offset tx) ledger.

Definition upto (o : Z) : list ApiTransaction := filter (fun tx => at_Offset tx <= o) ledger.

(** The tables are the index of the ledger up to their offset. *)
Definition indexed (tb : IndexerTables) : Prop := index no_tables (upto (default 0 (offset tb))) = Some tb.

(** What a life of the process consumes: the transactions right after the
    offset it resumes from. *)
Lemma fetched_txs l o : exists sent rest,
  filter (fun tx => o < at_Offset tx) ledger = sent ++ rest /\ fetched l o = batch_of <$> sent.
Proof.
  unfold fetched, Fetcher_Start, NewFetcher; cbn.
  destruct (Subscribe _ o o _ (l_conns l)) as [[txs hi] ws] eqn:Hsub. cbn.
  destruct (Subscribe_exactly_once ledger _ ledger_ordered updates_spec _ _ _ _ _ _ Hsub) as [_ ->].
  destruct (filter_prefix o hi ledger ledger_ordered) as [rest Hrest]. unfold between.
  set (txs := filter (fun tx => o < at_Offset tx <= hi) ledger) in *.
  exists (take (l_taken l) txs), (drop (l_taken l) txs ++ rest). rewrite app_assoc, take_drop. split; [done|].
  by rewrite fmap_take, <- list_fmap_compose.
Qed.

(** A last connection that is not cut delivers everything. *)
Lemma Subscribe_complete conns n fin : Forall (fun c => c.2 <> EndOfStream) conns ->
  (forall o, length (updates (indexerTemplateIDs cfg) o) <= n)%nat ->
  forall from delay out hi waits,
  Subscribe (updates (indexerTemplateIDs cfg)) from from delay (conns ++ [(n, fin)]) = (out, hi, waits) ->
  Forall (fun tx => at_Offset tx <= hi) ledger.
Proof.
  intros Hdrop Hn. induction Hdrop as [|[k a] conns Ha _ IH]; intros from delay out hi waits; cbn.
  - rewrite take_ge by apply Hn. rewrite runStream_txs, updates_spec.
    assert (forall waits', (decodeLedgerTransaction <$> filter (fun tx => from < at_Offset tx) ledger,
      default from (at_Offset <$> last (filter (fun tx => from < at_Offset tx) ledger)), waits') = (out, hi, waits) ->
      Forall (fun tx => at_Offset tx <= hi) ledger) as Hlast; [|destruct fin; [apply Hlast|rewrite app_nil_r; apply Hlast]].
    intros waits' [= _ <- _]. apply Forall_forall. intros tx Htx.
    destruct (decide (at_Offset tx <= from)) as [Hle|Hgt].
    { pose proof (take_later (length ledger) from ledger ledger_ordered) as [Hlo _]. cbv zeta in Hlo.
      rewrite take_ge in Hlo by apply length_filter. lia. }
    assert (tx ∈ filter (fun tx => from < at_Offset tx) ledger) as Hin by (apply list_elem_of_filter; split; [lia|done]).
    pose proof (take_later (length ledger) from ledger ledger_ordered) as [_ Hall]. cbv zeta in Hall.
    rewrite take_ge in Hall by apply length_filter. rewrite Hall in Hin at 1. apply list_elem_of_filter in Hin. lia.
  - destruct a as [|isAuth]; [done|]. destruct (runStream _ _) as [out1 mid]. destruct (Subscribe _ mid mid _ _) as [[out2 last] ws] eqn:Hrest.
    intros [= _ <- _]. by eapply IH.
Qed.

(** ** The loop over the batches *)

Abbreviation consume attempts bs := (for_each bs (fun b => _ ← processBatchWithRetry attempts processorRetryBaseDelay [] b; mret tt)).

Lemma consume_indexes attempts sent : forall done rest d,
  ledger = done ++ sent ++ rest -> index no_tables done = Some (tables d) -> upto (default 0 (offset (tables d))) = done ->
  wp (consume attempts (batch_of <$> sent)) (fun _ d' => indexed (tables d')) d.
Proof.
  induction sent as [|tx sent IH]; intros done rest d Hl Hix Hup; cbn [fmap list_fmap for_each].
  { apply wp_ret. unfold indexed. by rewrite Hup. }
  apply wp_bind, wp_bind. eapply wp_mono; [apply retry_indexes|]. intros [ws|e] d1 [_ Hr].
  - apply wp_ret. apply (IH (done ++ [tx]) rest).
    + rewrite Hl. by rewrite <- !app_assoc.
    + rewrite index_app, Hix. cbn. by rewrite Hr.
    + rewrite (index_batch_offset _ _ _ Hr). cbn. unfold upto. rewrite Hl in *. by apply filter_upto.
  - unfold indexed. by rewrite Hr, Hup.
Qed.

Lemma consume_completes attempts sent : forall d tb,
  (pending_faults d < attempts)%nat -> index (tables d) sent = Some tb ->
  exists d', consume attempts (batch_of <$> sent) d = (Ok tt, d') /\ tables d' = tb.
Proof.
  induction sent as [|tx sent IH]; intros d tb Hlt; cbn [index fmap list_fmap for_each].
  { intros [= <-]. by exists d. }
  destruct (index_batch (tables d) (batch_of tx)) as [tb1|] eqn:Hb; [|done]. cbn. intros Hix.
  assert (processBatch (batch_of tx) (mkDB (tables d) []) = (Ok tt, mkDB tb1 [])) as Hclean.
  { unfold index_batch in Hb. destruct (processBatch (batch_of tx) (mkDB (tables d) [])) as [[[]|e] d0] eqn:Hd0; [|done].
    injection Hb as <-. destruct (surfaces_processBatch _ _ _ _ _ Hd0) as [Heq|(e & [=] & _)]. by rewrite Hd0 in Heq. }
  destruct (processBatchWithRetry_progress _ 0 [] attempts d tb1 Hlt Hclean) as (n & d1 & Hrun & _ & Ht).
  pose proof (retry_indexes attempts processorRetryBaseDelay [] (batch_of tx) d) as Hr. unfold wp in Hr.
  change processorRetryBaseDelay with (retry_delay 0) in *. rewrite Hrun in Hr. destruct Hr as [Hle _].
  unfold mbind, M_bind. rewrite Hrun. cbn. apply IH; [lia|]. by rewrite Ht.
Qed.

Lemma indexed_empty : indexed no_tables.
Proof.
  unfold indexed, upto. cbn. rewrite filter_none; [done|]. rewrite Forall_forall in ledger_positive.
  intros tx Htx. specialize (ledger_positive tx Htx). lia.
Qed.

Lemma indexer_process_indexes l tb : indexed tb -> indexed (indexer_process l tb).2.
Proof.
  intros Hix. unfold indexer_process.
  assert (wp (Run (l_attempts l) (fetched l)) (fun _ d => indexed (tables d)) (mkDB tb (l_faults l))) as Hwp;
    [|by unfold wp in Hwp; destruct (Run _ _ _) as [r d]].
  unfold Run, LatestOffset. wp_go; try done. cbn [tables].
  destruct (fetched_txs l (default 0 (offset tb))) as (sent & rest & Hsent & ->).
  apply (consume_indexes _ _ (upto (default 0 (offset tb))) rest); [|done|done]. rewrite <- Hsent.
  by apply sorted_split.
Qed.

(** A run that reads its offset consumes the batches after it. *)
Lemma Run_reads l fetch tb : (forall m fs, l_faults l <> Some m :: fs) ->
  Run (l_attempts l) fetch (mkDB tb (l_faults l)) =
  consume (l_attempts l) (fetch (default 0 (offset tb))) (mkDB tb (tail (l_faults l))).
Proof.
  intros Hread. unfold Run, LatestOffset, mbind, M_bind, wrapping, query, exec. cbn.
  destruct (l_faults l) as [|[m|] fs]; [done|by destruct (Hread m fs)|done].
Qed.

Lemma fetched_all l o conns n fin :
  l_conns l = conns ++ [(n, fin)] -> Forall (fun c => c.2 <> EndOfStream) conns -> (forall o, length (updates (indexerTemplateIDs cfg) o) <= n)%nat ->
  (length ledger <= l_taken l)%nat -> fetched l o = batch_of <$> filter (fun tx => o < at_Offset tx) ledger.
Proof.
  intros Hconns Hdrop Hn Htaken. unfold fetched, Fetcher_Start, NewFetcher; cbn. rewrite Hconns.
  destruct (Subscribe _ o o _ _) as [[txs hi] ws] eqn:Hsub. cbn.
  destruct (Subscribe_exactly_once ledger _ ledger_ordered updates_spec _ _ _ _ _ _ Hsub) as [_ ->].
  pose proof (Subscribe_complete conns n fin Hdrop Hn _ _ _ _ _ Hsub) as Hall. rewrite Forall_forall in Hall. unfold between.
  rewrite (filter_ext_in (fun tx => o < at_Offset tx <= hi) (fun tx => o < at_Offset tx));
    [|intros tx Htx; specialize (Hall tx Htx); lia].
  rewrite take_ge; [by rewrite <- list_fmap_compose|]. rewrite !length_fmap. etransitivity; [apply length_filter|done].
Qed.

Lemma lives_indexed ls : indexed (lives ls).
Proof.
  unfold lives. revert ls. apply rev_ind; [apply indexed_empty|]. intros l ls IH. rewrite foldl_app. by apply indexer_process_indexes.
Qed.

(** C3: The indexer is exactly-once from end to end.  However often the process
    is stopped and restarted, the connection to the participant drops and
    statements fail, the tables are those that the ledger's transactions up to
    the recorded offset give when each is decoded and processed once, in order
    and without a fault: none is lost, none is applied twice or in part. *)
Theorem indexer_exactly_once ls :
  index no_tables (filter (fun tx => at_Offset tx <= default 0 (offset (lives ls))) ledger) = Some (lives ls).
Proof. apply (lives_indexed ls). Qed.

(** C18: The indexer catches up.  If the ledger can be indexed at all, then
    after any history of crashes one more life brings the tables to the index
    of the whole ledger, provided that it can read the stored offset when it
    starts, which it does not try again; that its connections fail with errors
    that make it reconnect, and not with io.EOF, which ends the stream, until
    one of them lasts; that the statements of a batch fail less often than the
    life tries a batch; and that it runs until it has taken the transactions of
    the ledger. *)
Theorem indexer_catches_up ls l conns n fin tb :
  index no_tables ledger = Some tb ->
  l_conns l = conns ++ [(n, fin)] -> Forall (fun c => c.2 <> EndOfStream) conns -> (forall o, length (updates (indexerTemplateIDs cfg) o) <= n)%nat ->
  (length ledger <= l_taken l)%nat -> (length (l_faults l) < l_attempts l)%nat ->
  (forall m fs, l_faults l <> Some m :: fs) ->
  indexer_process l (lives ls) = (Ok tt, tb).
Proof.
  intros Hix Hconns Hdrop Hn Htaken Hatt Hread. pose proof (lives_indexed ls) as Hlives. unfold indexed in Hlives.
  set (tb0 := lives ls) in *. set (o := default 0 (offset tb0)) in *.
  rewrite (sorted_split o ledger ledger_ordered), index_app in Hix. unfold upto in Hlives. rewrite Hlives in Hix. cbn in Hix.
  unfold indexer_process. rewrite (Run_reads _ _ _ Hread). fold o.
  rewrite (fetched_all l o conns n fin Hconns Hdrop Hn Htaken).
  destruct (consume_completes (l_attempts l) (filter (fun tx => o < at_Offset tx) ledger) (mkDB tb0 (tail (l_faults l))) tb)
    as (d & -> & Ht); [|done|by cbn; rewrite Ht].
  unfold pending_faults. cbn. destruct (l_faults l); cbn in *; lia.
Qed.
End delivery.
End pipeline.

(** ** A ledger of three transactions, read by three processes *)

Definition ex_cfg : IndexerConfig := mkIndexerConfig "p" "all" [] "" "p".
Definition ex_transfer (cid amount : string) (from to : option string) : ApiEvent :=
  let party o := match o with Some p => OptionalValue (PartyValue p) | None => NoneValue end in
  Event_Created cid (Some (mkIdentifier "p" tokenTransferEventModule tokenTransferEventEntity))
    [("instrumentId"%string, Some (EncodeInstrumentId "admin" "DEMO")); ("amount"%string, Some (NumericValue amount));
     ("fromParty"%string, Some (party from)); ("toParty"%string, Some (party to))] true.
Definition ex_history : list ApiTransaction :=
  [mkApiTransaction "u1" 2 10 [ex_transfer "e1" "10" None (Some "alice"%string)];
   mkApiTransaction "u2" 5 20 [ex_transfer "e2" "4" (Some "alice"%string) (Some "bob"%string)];
   mkApiTransaction "u3" 6 30 [ex_transfer "e3" "1.5" (Some "bob"%string) None]].
Definition ex_stream (_ : list Identifier) (o : Z) : list Response :=
  None :: (Some <$> filter (fun tx => o < at_Offset tx) ex_history).

(** The first process loses its database in the second batch, the second one
    its connection after the first response. *)
Definition ex_lives : list Life :=
  [mkLife [(2%nat, Dropped false); (5%nat, EndOfStream)] 9 1 (repeat None 14 ++ [Some "timeout"%string]);
   mkLife [(1%nat, Dropped true)] 9 1 []].
Definition ex_last : Life := mkLife [(1%nat, Dropped false); (9%nat, Dropped false)] 9 5 [None; Some "timeout"%string; None; Some "timeout"%string].

Definition ex_balances (tb : IndexerTables) : list (string * string) * option Z :=
  ((fun kv => (kv.1.1, kv.2)) <$> map_to_list (balances tb), offset tb).

Lemma ex_stream_spec o : omap id (ex_stream (indexerTemplateIDs ex_cfg) o) = filter (fun tx => o < at_Offset tx) ex_history.
Proof. unfold ex_stream. cbn [omap list_omap id]. induction (filter _ ex_history) as [|tx l IH]; [done|]. cbn. by rewrite IH. Qed.

Lemma ex_history_ordered : StronglySorted (fun a b => at_Offset a < at_Offset b) ex_history.
Proof. repeat constructor; cbn; lia. Qed.

Lemma ex_history_positive : Forall (fun tx => 0 < at_Offset tx) ex_history.
Proof. repeat constructor; cbn; lia. Qed.

Lemma indexer_exactly_once_witness :
  ex_balances (lives ex_cfg ex_stream ex_lives) = ([("alice", "10")], Some 2)%string /\
  index ex_cfg no_tables (filter (fun tx => at_Offset tx <= default 0 (offset (lives ex_cfg ex_stream ex_lives))) ex_history) =
    Some (lives ex_cfg ex_stream ex_lives).
Proof.
  split; [vm_compute; reflexivity|].
  apply (indexer_exactly_once ex_cfg ex_stream ex_history ex_history_ordered ex_history_positive ex_stream_spec ex_lives).
Defined.

Lemma indexer_catches_up_witness :
  exists tb, ex_balances tb = ([("alice", "6"); ("bob", "2.5")], Some 6)%string /\
    indexer_process ex_cfg ex_stream ex_last (lives ex_cfg ex_stream ex_lives) = (Ok tt, tb).
Proof.
  exists (default no_tables (index ex_cfg no_tables ex_history)). split; [vm_compute; reflexivity|].
  apply (indexer_catches_up ex_cfg ex_stream ex_history ex_history_ordered ex_history_positive ex_stream_spec ex_lives ex_last
           [(1%nat, Dropped false)] 9 (Dropped false)).
  - vm_compute. reflexivity.
  - reflexivity.
  - apply Forall_singleton. discriminate.
  - intros o. unfold ex_stream. cbn [length]. rewrite length_fmap.
    pose proof (length_filter (fun tx => o < at_Offset tx) ex_history) as Hlen. change (length ex_history) with 3%nat in Hlen. lia.
  - cbn. lia.
  - cbn. lia.
  - intros m fs. discriminate.
Defined.
