(* ===== verification/ReconcilerStore.v ===== *)
(** * Reconciler store: pkg/reconciler/store

    The cache of balances and supplies: model.go and every method of the
    PostgreSQL store (pg.go) as the statements it executes.  A column of type
    numeric(38,18) is a whole number of 10^-18 units of at most 38 digits; how
    PostgreSQL reads and prints it is an interface.  The columns id and
    processed_at are filled by the database and never read.

    The upserts name the columns of their conflict target, from which
    PostgreSQL infers a unique index.  It infers a partial index only when the
    target repeats the index's predicate, which these statements do not do, so
    the indexes are part of the model: [migrated_indexes] are those of
    migration 11, [tested_indexes] those the store's own test creates. *)

From S2P Require Import Prelude AppErrors Effects GoStd UserStore DamlValues TokenCodec.
From Stdlib Require Import Ascii String.
Local Open Scope Z_scope.
Local Abbreviation length := Datatypes.length.

(** ** model.go *)

Record ReconciliationState := mkReconciliationState {
  rs_LastProcessedOffset : Z;
  rs_LastFullReconcileAt : option Z;
  rs_EventsProcessed : Z;
  rs_UpdatedAt : Z;
}.

Record UserTokenBalanceDao := mkUserTokenBalanceDao {
  ub_Fingerprint : option string;
  ub_TokenSymbol : string;
  ub_EVMAddress : option string;
  ub_CantonPartyID : option string;
  ub_Balance : Z;
  ub_UpdatedAt : Z;
}.

Record TokenMetricsDao := mkTokenMetricsDao { tm_TotalSupply : Z; tm_LastReconciledAt : option Z; tm_UpdatedAt : Z }.

Record BridgeEventDao := mkBridgeEventDao {
  be_EventType : string;
  be_Fingerprint : option string;
  be_Amount : Z;
  be_EvmTxHash : option string;
  be_EvmDestination : option string;
  be_TokenSymbol : option string;
  be_CantonTimestamp : option Z;
}.

(** The identifying columns of a balance row. *)
Inductive balance_column := ubc_fingerprint | ubc_evm_address | ubc_canton_party_id.
#[global] Instance balance_column_eq_dec : EqDecision balance_column.
Proof. solve_decision. Defined.

Definition ub_column (c : balance_column) (r : UserTokenBalanceDao) : option string :=
  match c with
  | ubc_fingerprint => ub_Fingerprint r
  | ubc_evm_address => ub_EVMAddress r
  | ubc_canton_party_id => ub_CantonPartyID r
  end.

(** A unique index on a column and token_symbol, partial when it is restricted
    to the rows where the column is not null. *)
Record unique_index := mkUniqueIndex { ix_column : balance_column; ix_partial : bool }.

Definition migrated_indexes : list unique_index :=
  [mkUniqueIndex ubc_fingerprint true; mkUniqueIndex ubc_evm_address true; mkUniqueIndex ubc_canton_party_id true].
Definition tested_indexes : list unique_index :=
  [mkUniqueIndex ubc_fingerprint false; mkUniqueIndex ubc_evm_address false; mkUniqueIndex ubc_canton_party_id false].

(** The arbiter of ON CONFLICT (column, token_symbol) with no predicate. *)
Definition infers (indexes : list unique_index) (c : balance_column) : bool :=
  existsb (fun ix => bool_decide (ix_column ix = c) && negb (ix_partial ix)) indexes.

(** The tables, and the number of writes so far, which tells the readings of
    NOW() apart. *)
Record RecTables := mkRecTables {
  t_indexes : list unique_index;
  t_balances : list UserTokenBalanceDao;
  t_metrics : gmap string TokenMetricsDao;
  t_events : gmap string BridgeEventDao;
  t_state : option ReconciliationState;
  t_writes : nat;
}.
Abbreviation RecDB := (DB RecTables).

Definition put_balances (l : list UserTokenBalanceDao) (t : RecTables) : RecTables :=
  mkRecTables (t_indexes t) l (t_metrics t) (t_events t) (t_state t) (S (t_writes t)).
Definition put_metrics (m : gmap string TokenMetricsDao) (t : RecTables) : RecTables :=
  mkRecTables (t_indexes t) (t_balances t) m (t_events t) (t_state t) (S (t_writes t)).
Definition put_events (m : gmap string BridgeEventDao) (t : RecTables) : RecTables :=
  mkRecTables (t_indexes t) (t_balances t) (t_metrics t) m (t_state t) (S (t_writes t)).
Definition put_state (s : option ReconciliationState) (t : RecTables) : RecTables :=
  mkRecTables (t_indexes t) (t_balances t) (t_metrics t) (t_events t) s (S (t_writes t)).

(** ** PostgreSQL: the clock, and the type numeric(38,18) *)

Class PgServer := {
  NOW : nat -> Z;
  (** the cast of a text, rounded to the scale; [None] when it fails *)
  numeric_in : string -> option Z;
  numeric_out : Z -> string;
}.

(** 38 digits. *)
Definition numeric_fits (z : Z) : bool := (- 10 ^ 38 <? z) && (z <? 10 ^ 38).

Definition numeric_store (z : Z) : result Z := if numeric_fits z then Ok z else Err (ErrNew "numeric field overflow").

Definition numeric_cast `{!PgServer} (s : string) : result Z :=
  match numeric_in s with Some z => numeric_store z | None => Err (ErrNew "invalid input syntax for type numeric") end.

(** ** pg.go *)

Definition defaultTokenSymbol : string := "PROMPT".

(** strings.ToUpper, on the ASCII letters. *)
Definition upper_char (c : ascii) : ascii :=
  let n := nat_of_ascii c in if ((97 <=? n) && (n <=? 122))%nat then ascii_of_nat (n - 32) else c.
Fixpoint ToUpper (s : string) : string :=
  match s with EmptyString => EmptyString | String c s => String (upper_char c) (ToUpper s) end.

Definition normalizeTokenSymbol (tokenSymbol : string) : result string :=
  let s := ToUpper (TrimSpace tokenSymbol) in
  if bool_decide (s = ""%string) then Err (ErrNew "token symbol is required") else Ok s.

(** (withPrefix, withoutPrefix) *)
Definition normalizeFingerprint (fingerprint : string) : string * string :=
  let fp := TrimPrefix (TrimSpace fingerprint) "0x" in
  if bool_decide (fp = ""%string) then (""%string, ""%string) else ("0x" +:+ fp, fp).

Definition stringPtrOrNil (s : string) : option string := if bool_decide (s = ""%string) then None else Some s.
Definition timePtrOrNil (t : Z) : option Z := if bool_decide (t = zero_time) then None else Some t.

Section store.
Context `{!PgServer}.

Definition is_row (c : balance_column) (value symbol : string) (r : UserTokenBalanceDao) : bool :=
  bool_decide (ub_column c r = Some value) && bool_decide (ub_TokenSymbol r = symbol).

Definition set_balance (balance now : Z) (r : UserTokenBalanceDao) : UserTokenBalanceDao :=
  mkUserTokenBalanceDao (ub_Fingerprint r) (ub_TokenSymbol r) (ub_EVMAddress r) (ub_CantonPartyID r) balance now.

(** A row with one identifying column. *)
Definition new_row (c : balance_column) (value symbol : string) (balance now : Z) : UserTokenBalanceDao :=
  mkUserTokenBalanceDao (if decide (c = ubc_fingerprint) then Some value else None) symbol
    (if decide (c = ubc_evm_address) then Some value else None)
    (if decide (c = ubc_canton_party_id) then Some value else None) balance now.

(** INSERT ... ON CONFLICT (column, token_symbol) DO UPDATE SET balance = ...,
    where [f] gives the new balance of the old and the inserted one. *)
Definition upsert (c : balance_column) (value symbol amount : string) (f : Z -> Z -> Z) (t : RecTables) : result unit * RecTables :=
  if negb (infers (t_indexes t) c) then
    (Err (ErrNew "there is no unique or exclusion constraint matching the ON CONFLICT specification"), t)
  else
    match numeric_cast amount with
    | Err e => (Err e, t)
    | Ok n =>
        match List.find (is_row c value symbol) (t_balances t) with
        | Some old =>
            match numeric_store (f (ub_Balance old) n) with
            | Err e => (Err e, t)
            | Ok b => (Ok tt, put_balances (map (fun r => if is_row c value symbol r then set_balance b (NOW (t_writes t)) r else r)
                                           (t_balances t)) t)
            end
        | None => (Ok tt, put_balances (t_balances t ++ [new_row c value symbol n (NOW (t_writes t))]) t)
        end
    end.

Definition SetBalanceByCantonPartyID (partyID tokenSymbol balance : string) : M RecDB unit :=
  symbol ← lift (normalizeTokenSymbol tokenSymbol);
  let partyID := TrimSpace partyID in
  if bool_decide (partyID = ""%string) then fail (ErrNew "party id is required")
  else wrapping ("set balance for party " +:+ partyID +:+ " token " +:+ symbol +:+ ": ")
         (exec_result (upsert ubc_canton_party_id partyID symbol balance (fun _ new => new))).

Definition IncrementBalanceByFingerprint (fingerprint amount tokenSymbol : string) : M RecDB unit :=
  symbol ← lift (normalizeTokenSymbol tokenSymbol);
  let withPrefix := (normalizeFingerprint fingerprint).1 in
  if bool_decide (withPrefix = ""%string) then fail (ErrNew "fingerprint is required")
  else wrapping ("increment balance for fingerprint " +:+ fingerprint +:+ " token " +:+ symbol +:+ ": ")
         (exec_result (upsert ubc_fingerprint withPrefix symbol amount Z.add)).

Definition DecrementBalanceByEVMAddress (evmAddress amount tokenSymbol : string) : M RecDB unit :=
  symbol ← lift (normalizeTokenSymbol tokenSymbol);
  let evmAddress := TrimSpace evmAddress in
  if bool_decide (evmAddress = ""%string) then fail (ErrNew "evm address is required")
  else wrapping ("decrement balance for evm address " +:+ evmAddress +:+ " token " +:+ symbol +:+ ": ")
         (exec_result (upsert ubc_evm_address evmAddress symbol amount Z.sub)).

Definition reset_rows (symbol : string) (now : Z) (l : list UserTokenBalanceDao) : list UserTokenBalanceDao :=
  map (fun r => if bool_decide (ub_TokenSymbol r = symbol) then set_balance 0 now r else r) l.

Definition ResetBalancesByTokenSymbol (tokenSymbol : string) : M RecDB unit :=
  symbol ← lift (normalizeTokenSymbol tokenSymbol);
  wrapping ("reset balances for token " +:+ symbol +:+ ": ")
    (exec (fun t => (tt, put_balances (reset_rows symbol (NOW (t_writes t)) (t_balances t)) t))).

(** ORDER BY updated_at DESC LIMIT 1; of rows updated at the same time the
    server may return any, here the first. *)
Definition latest_row (l : list UserTokenBalanceDao) : option UserTokenBalanceDao :=
  foldl (fun best r => match best with
    | Some b => if ub_UpdatedAt b <? ub_UpdatedAt r then Some r else best
    | None => Some r
    end) None l.

(** The balance column of the selected row, "0" when there is none. *)
Definition select_balance (pre : string) (P : UserTokenBalanceDao -> bool) : M RecDB string :=
  wrapping pre (query (fun t =>
    match latest_row (List.filter P (t_balances t)) with Some r => numeric_out (ub_Balance r) | None => "0"%string end)).

Definition GetBalanceByFingerprint (fingerprint tokenSymbol : string) : M RecDB string :=
  symbol ← lift (normalizeTokenSymbol tokenSymbol);
  let '(withPrefix, withoutPrefix) := normalizeFingerprint fingerprint in
  if bool_decide (withPrefix = ""%string) then fail (ErrNew "fingerprint is required")
  else select_balance ("get balance by fingerprint " +:+ fingerprint +:+ " token " +:+ symbol +:+ ": ")
         (fun r => is_row ubc_fingerprint withPrefix symbol r || is_row ubc_fingerprint withoutPrefix symbol r).

Definition GetBalanceByEVMAddress (evmAddress tokenSymbol : string) : M RecDB string :=
  symbol ← lift (normalizeTokenSymbol tokenSymbol);
  let evmAddress := TrimSpace evmAddress in
  if bool_decide (evmAddress = ""%string) then fail (ErrNew "evm address is required")
  else select_balance ("get balance by evm address " +:+ evmAddress +:+ " token " +:+ symbol +:+ ": ")
         (is_row ubc_evm_address evmAddress symbol).

Definition SetTotalSupply (tokenSymbol value : string) : M RecDB unit :=
  symbol ← lift (normalizeTokenSymbol tokenSymbol);
  wrapping ("set total supply for " +:+ symbol +:+ ": ") (exec_result (fun t =>
    match numeric_cast value with
    | Err e => (Err e, t)
    | Ok n => (Ok tt, put_metrics (<[symbol := mkTokenMetricsDao n (t_metrics t !! symbol ≫= tm_LastReconciledAt) (NOW (t_writes t))]>
                                   (t_metrics t)) t)
    end)).

Definition UpdateLastReconciled (tokenSymbol : string) : M RecDB unit :=
  symbol ← lift (normalizeTokenSymbol tokenSymbol);
  wrapping ("update last reconciled for " +:+ symbol +:+ ": ") (exec (fun t =>
    let now := NOW (t_writes t) in
    (tt, put_metrics (alter (fun m => mkTokenMetricsDao (tm_TotalSupply m) (Some now) now) symbol (t_metrics t)) t))).

Definition IsEventProcessed (contractID : string) : M RecDB bool :=
  wrapping ("check processed event " +:+ contractID +:+ ": ") (query (fun t => bool_decide (is_Some (t_events t !! contractID)))).

Record bridgeEventParams := mkBridgeEventParams {
  bp_eventType : string;
  bp_contractID : string;
  bp_fingerprint : string;
  bp_amount : string;
  bp_tokenSymbol : string;
  bp_timestamp : Z;
  bp_evmTxHash : string;
  bp_evmDestination : string;
  bp_isCredit : bool;
}.

(** INSERT ... ON CONFLICT (contract_id) DO NOTHING: the rows affected. *)
Definition insert_event (p : bridgeEventParams) (t : RecTables) : result Z * RecTables :=
  match numeric_cast (bp_amount p) with
  | Err e => (Err e, t)
  | Ok n =>
      match t_events t !! bp_contractID p with
      | Some _ => (Ok 0, t)
      | None => (Ok 1, put_events (<[bp_contractID p := mkBridgeEventDao (bp_eventType p) (stringPtrOrNil (bp_fingerprint p)) n
                  (stringPtrOrNil (bp_evmTxHash p)) (stringPtrOrNil (bp_evmDestination p)) (stringPtrOrNil (bp_tokenSymbol p))
                  (timePtrOrNil (bp_timestamp p))]> (t_events t)) t)
      end
  end.

(** UPDATE reconciliation_state ... WHERE id = 1 *)
Definition update_state (f : Z -> ReconciliationState -> ReconciliationState) : M RecDB unit :=
  exec (fun t => (tt, put_state (f (NOW (t_writes t)) <$> t_state t) t)).

Definition count_event (now : Z) (s : ReconciliationState) : ReconciliationState :=
  mkReconciliationState (rs_LastProcessedOffset s) (rs_LastFullReconcileAt s) (rs_EventsProcessed s + 1) now.

(** The rest of storeBridgeEvent after the event's row is written. *)
Definition post_event (p : bridgeEventParams) : M RecDB unit :=
  let tokenSymbol := if bool_decide (TrimSpace (bp_tokenSymbol p) = ""%string) then defaultTokenSymbol else bp_tokenSymbol p in
  symbol ← lift (normalizeTokenSymbol tokenSymbol);
  let withPrefix := (normalizeFingerprint (bp_fingerprint p)).1 in
  if bool_decide (withPrefix = ""%string) then fail (ErrNew "event fingerprint is required")
  else
    _ ← wrapping "update user token balance: "
      (exec_result (upsert ubc_fingerprint withPrefix symbol (bp_amount p) (if bp_isCredit p then Z.add else Z.sub)));
    wrapping "update reconciliation state: " (update_state count_event).

Definition storeBridgeEvent (p : bridgeEventParams) : M RecDB unit := RunInTx (
  n ← wrapping ("store " +:+ bp_eventType p +:+ " event: ") (exec_result (insert_event p));
  rows ← attempt (RowsAffected n);
  match rows with
  | Ok 0 => mret tt
  | _ => post_event p
  end).

Definition StoreTokenTransferEvent (event : TokenTransferEvent) : M RecDB unit :=
  let params eventType evmTxHash evmDestination isCredit :=
    mkBridgeEventParams eventType (te_ContractID event) (UserFingerprint event) (te_Amount event) (te_InstrumentID event)
      (te_Timestamp event) evmTxHash evmDestination isCredit in
  if bool_decide (EventType event = EventTypeMint) then storeBridgeEvent (params "mint" (EvmTxHash event) "" true)
  else if bool_decide (EventType event = EventTypeBurn) then storeBridgeEvent (params "burn" "" (EvmDestination event) false)
  else mret tt.

Definition MarkFullReconcileComplete : M RecDB unit :=
  wrapping "mark full reconcile complete: "
    (update_state (fun now s => mkReconciliationState (rs_LastProcessedOffset s) (Some now) (rs_EventsProcessed s) now)).

Definition ClearBridgeEvents : M RecDB unit := RunInTx (
  _ ← wrapping "clear bridge events: " (exec (fun t => (tt, put_events ∅ t)));
  wrapping "reset reconciliation state counter: "
    (update_state (fun now s => mkReconciliationState (rs_LastProcessedOffset s) (rs_LastFullReconcileAt s) 0 now))).

Definition GetReconciliationState : M RecDB ReconciliationState :=
  wrapping "get reconciliation state: " (
    row ← query t_state;
    match row with Some s => mret s | None => fail (ErrVar "sql.ErrNoRows" "sql: no rows in result set") end).

Definition UpdateReconciliationOffset (offset : Z) : M RecDB unit :=
  wrapping "update reconciliation offset: "
    (update_state (fun now s => mkReconciliationState offset (rs_LastFullReconcileAt s) (rs_EventsProcessed s) now)).
End store.
