(* ===== verification/Reconciler.v ===== *)
(** * Reconciler: pkg/reconciler/reconciler.go

    The passes that copy the state of the Canton ledger into the cache: supply
    and user balances from the holdings, and balances from the mint and burn
    events.  Logging and the ticker that runs ReconcileAll are left out.  Go
    ranges over a map in any order: [range] is that order. *)

From S2P Require Import Prelude AppErrors Effects GoStd GoText UserStore Decimal DamlValues Streaming LedgerApi TokenCodec LedgerClient Identity TokenRegistry TokenClient ReconcilerStore.
From Stdlib Require Import Ascii String.
Local Open Scope Z_scope.
Local Abbreviation length := Datatypes.length.

(** The state the reconciler works on: its store, the users, the ledger. *)
Record RecWorld := mkRecWorld { rc_store : RecDB; rc_users : UserDB; rc_history : history }.
Definition on_store {A} (c : M RecDB A) : M RecWorld A := zoom rc_store (fun d w => mkRecWorld d (rc_users w) (rc_history w)) c.
Definition on_rec_users {A} (c : M UserDB A) : M RecWorld A := zoom rc_users (fun d w => mkRecWorld (rc_store w) d (rc_history w)) c.
Definition on_rec_ledger {A} (c : M history A) : M RecWorld A := zoom rc_history (fun h w => mkRecWorld (rc_store w) (rc_users w) h) c.

Section reconciler.
Context `{!Env} `{!DecimalLib} `{!PgServer}.
Variable range : gmap string dec -> list (string * dec).
Variable cantonClient : Client.

(** An error that is only logged. *)
Definition logged {A} (c : M RecWorld A) : M RecWorld unit := _ ← attempt c; mret tt.

(** One holding in the loop of ReconcileAll. *)
Definition add_supply (supplyByToken : gmap string dec) (holding : Holding) : gmap string dec :=
  match NewFromString (h_Amount holding) with
  | None => supplyByToken
  | Some amount =>
      let symbol := if bool_decide (h_Symbol holding = ""%string) then "UNKNOWN"%string else h_Symbol holding in
      <[symbol := dec_Add (default dec_Zero (supplyByToken !! symbol)) amount]> supplyByToken
  end.

Definition supplyByToken (holdings : list Holding) : gmap string dec := foldl add_supply ∅ holdings.

Definition store_supply (entry : string * dec) : M RecWorld unit :=
  let '(symbol, supply) := entry in
  _ ← wrapping ("failed to update total supply for " +:+ symbol +:+ ": ") (on_store (SetTotalSupply symbol (dec_String supply)));
  logged (on_store (UpdateLastReconciled symbol)).

(** One holding in the loop of ReconcileUserBalancesFromHoldings. *)
Definition add_balance (partyBalances : gmap string (gmap string dec)) (holding : Holding) : gmap string (gmap string dec) :=
  if bool_decide (h_Owner holding = ""%string) || bool_decide (h_Amount holding = ""%string) then partyBalances
  else
    match NewFromString (h_Amount holding) with
    | None => partyBalances
    | Some amount =>
        let symbol := if bool_decide (h_Symbol holding = ""%string) then "PROMPT"%string else h_Symbol holding in
        let balances := default ∅ (partyBalances !! h_Owner holding) in
        let current := default dec_Zero (balances !! symbol) in
        <[h_Owner holding := <[symbol := dec_Add current amount]> balances]> partyBalances
    end.

Definition partyBalances (holdings : list Holding) : gmap string (gmap string dec) := foldl add_balance ∅ holdings.

(** The balance of a user, decimal.Zero when there is none. *)
Definition user_balance (balances : gmap string (gmap string dec)) (party symbol : string) : dec :=
  match balances !! party with
  | Some userHoldings => default dec_Zero (userHoldings !! symbol)
  | None => dec_Zero
  end.

Definition update_user (balances : gmap string (gmap string dec)) (user : User) : M RecWorld unit :=
  let party := u_CantonPartyID user in
  if bool_decide (party = ""%string) then mret tt
  else
    _ ← logged (on_store (SetBalanceByCantonPartyID party "DEMO" (dec_String (user_balance balances party "DEMO"))));
    logged (on_store (SetBalanceByCantonPartyID party "PROMPT" (dec_String (user_balance balances party "PROMPT")))).

Definition ReconcileUserBalancesFromHoldings : M RecWorld unit :=
  holdings ← wrapping "failed to get holdings from Canton: " (on_rec_ledger (GetAllHoldings cantonClient));
  users ← wrapping "failed to get users: " (on_rec_users ListUsers);
  for_each users (update_user (partyBalances holdings)).

Definition ReconcileAll : M RecWorld unit :=
  holdings ← wrapping "failed to get holdings from Canton: " (on_rec_ledger (GetAllHoldings cantonClient));
  _ ← for_each (range (supplyByToken holdings)) store_supply;
  logged ReconcileUserBalancesFromHoldings.

(** Whether an event is a mint or a burn. *)
Definition bridge_event (event : TokenTransferEvent) : bool :=
  bool_decide (EventType event = EventTypeMint) || bool_decide (EventType event = EventTypeBurn).

(** One event in the loop of ReconcileFromBridgeEvents. *)
Definition process_event (event : TokenTransferEvent) : M RecWorld unit :=
  if negb (bridge_event event) then mret tt
  else
    processed ← attempt (on_store (IsEventProcessed (te_ContractID event)));
    match processed with
    | Err _ | Ok true => mret tt
    | Ok false => logged (on_store (StoreTokenTransferEvent event))
    end.

Definition ReconcileFromBridgeEvents : M RecWorld unit :=
  events ← wrapping "failed to get token transfer events: " (on_rec_ledger (GetTokenTransferEvents cantonClient));
  _ ← for_each events process_event;
  logged (on_store MarkFullReconcileComplete).

Definition FullBalanceReconciliation : M RecWorld unit :=
  _ ← wrapping "failed to reset user balances: " (on_store (ResetBalancesByTokenSymbol "PROMPT"));
  _ ← wrapping "failed to clear bridge events: " (on_store ClearBridgeEvents);
  wrapping "failed to reconcile from bridge events: " ReconcileFromBridgeEvents.

Definition GetReconciliationStatus : M RecWorld ReconciliationState := on_store GetReconciliationState.
End reconciler.
