(* ===== verification/ReconcilerProofs.v ===== *)
(** * Reconciler: theorems

    What a pass over the ledger's events does to the cached balances, what a
    pass over the holdings does to the supplies, and what the indexes of the
    migrated schema do to both. *)

From S2P Require Import Prelude AppErrors Effects GoStd GoText UserStore Decimal DamlValues Streaming LedgerApi TokenCodec LedgerClient Identity TokenRegistry TokenClient TokenClientProofs ReconcilerStore Reconciler.
From Stdlib Require Import Ascii String Qcanon.
Local Open Scope Z_scope.
Local Abbreviation length := Datatypes.length.

(** ** Rows *)

(** The balance of an account. *)
Definition balance_of (t : RecTables) (fp symbol : string) : option Z :=
  ub_Balance <$> List.find (is_row ubc_fingerprint fp symbol) (t_balances t).

(** Finding after an update that keeps what is searched for. *)
Lemma find_map_same {A} (P : A -> bool) (g : A -> A) l :
  (forall x, P (g x) = P x) -> List.find P (map g l) = g <$> List.find P l.
Proof. intros Hg. induction l as [|x l IH]; [done|]. cbn. rewrite Hg. by destruct (P x). Qed.

Lemma find_app_list {A} (P : A -> bool) l l' :
  List.find P (l ++ l') = match List.find P l with Some x => Some x | None => List.find P l' end.
Proof. induction l as [|x l IH]; [done|]. cbn. by destruct (P x). Qed.

Lemma is_row_set_balance c v s b now r : is_row c v s (set_balance b now r) = is_row c v s r.
Proof. by destruct c. Qed.

Lemma is_row_true c v s r : is_row c v s r = true <-> ub_column c r = Some v /\ ub_TokenSymbol r = s.
Proof. unfold is_row. rewrite andb_true_iff, !bool_decide_eq_true. done. Qed.

(** A row is of one account only. *)
Lemma is_row_unique c v s v' s' r : is_row c v s r = true -> is_row c v' s' r = true -> (v, s) = (v', s').
Proof. rewrite !is_row_true. intros [Hv Hs] [Hv' Hs']. congruence. Qed.

Section store.
Context `{!PgServer}.

(** What a successful upsert of a fingerprint's row does to the accounts. *)
Lemma upsert_balance v s amount f t t' :
  upsert ubc_fingerprint v s amount f t = (Ok tt, t') ->
  exists n, numeric_cast amount = Ok n /\ t_indexes t' = t_indexes t /\ t_events t' = t_events t /\ t_state t' = t_state t /\
    forall fp sym, balance_of t' fp sym =
      (if bool_decide ((v, s) = (fp, sym))
       then Some (match balance_of t fp sym with Some old => f old n | None => n end) else balance_of t fp sym).
Proof.
  unfold upsert. destruct (infers _ _); [cbn|done]. destruct (numeric_cast amount) as [n|e]; [|done].
  destruct (List.find (is_row ubc_fingerprint v s) (t_balances t)) as [old|] eqn:Hf.
  - destruct (numeric_store _) as [b|e] eqn:Hb; [|done]. intros [= <-]. exists n. split_and!; try done. intros fp sym.
    unfold numeric_store in Hb. destruct (numeric_fits _); [|done]. injection Hb as <-.
    unfold balance_of. cbn [t_balances put_balances]. rewrite find_map_same.
    2:{ intros r. destruct (is_row ubc_fingerprint v s r); [by rewrite is_row_set_balance|done]. }
    case_bool_decide as Heq; [injection Heq as -> ->|].
    { rewrite Hf. cbn. apply List.find_some in Hf as [_ Hr]. by rewrite Hr. }
    destruct (List.find (is_row ubc_fingerprint fp sym) (t_balances t)) as [r|] eqn:Hr; [|done]. cbn. f_equal.
    apply List.find_some in Hr as [_ Hr]. destruct (is_row ubc_fingerprint v s r) eqn:Hr'; [|done].
    destruct Heq. by eapply is_row_unique.
  - intros [= <-]. exists n. split_and!; try done. intros fp sym. unfold balance_of. cbn [t_balances put_balances].
    rewrite find_app_list. case_bool_decide as Heq; [injection Heq as -> ->|].
    { rewrite Hf. cbn. rewrite (proj2 (is_row_true _ _ _ _)) by done. done. }
    destruct (List.find (is_row ubc_fingerprint fp sym) (t_balances t)) as [r|]; [done|]. cbn.
    destruct (is_row ubc_fingerprint fp sym _) eqn:Hr; [|done]. apply is_row_true in Hr as [[=] Hs]. cbn in Hs. congruence.
Qed.

Lemma upsert_error c v s amount f t e t' : upsert c v s amount f t = (Err e, t') -> t' = t.
Proof.
  unfold upsert. destruct (infers _ _); cbn; [|congruence]. destruct (numeric_cast amount); [|congruence].
  destruct (List.find _ _); [|done]. destruct (numeric_store _); [done|congruence].
Qed.

(** ** Events *)

(** The account an event is posted to, and the units it posts. *)
Definition event_symbol (e : TokenTransferEvent) : string :=
  if bool_decide (TrimSpace (te_InstrumentID e) = ""%string) then defaultTokenSymbol else ToUpper (TrimSpace (te_InstrumentID e)).
Definition event_account (e : TokenTransferEvent) : string * string := ((normalizeFingerprint (UserFingerprint e)).1, event_symbol e).
Definition event_units (e : TokenTransferEvent) : Z := default 0 (numeric_in (te_Amount e)).
Definition event_delta (e : TokenTransferEvent) : Z :=
  if bool_decide (EventType e = EventTypeMint) then event_units e else - event_units e.
Definition posts_to (fp sym : string) (e : TokenTransferEvent) : bool := bridge_event e && bool_decide (event_account e = (fp, sym)).

Definition net (fp sym : string) (l : list TokenTransferEvent) : Z :=
  foldr (fun e n => (if posts_to fp sym e then event_delta e else 0) + n) 0 l.
Definition volume (fp sym : string) (l : list TokenTransferEvent) : Z :=
  foldr (fun e n => (if posts_to fp sym e then Z.abs (event_units e) else 0) + n) 0 l.

Lemma ToUpper_empty s : ToUpper s = ""%string -> s = ""%string.
Proof. by destruct s. Qed.

Lemma event_symbol_ok e :
  normalizeTokenSymbol (if bool_decide (TrimSpace (te_InstrumentID e) = ""%string) then defaultTokenSymbol else te_InstrumentID e)
    = Ok (event_symbol e).
Proof.
  unfold event_symbol. case_bool_decide as Ht; [reflexivity|]. unfold normalizeTokenSymbol. cbv zeta.
  rewrite bool_decide_eq_false_2; [done|]. by intros ?%ToUpper_empty.
Qed.

(** The cache between two events of a pass: no statement is about to fail, the
    known events are among [ids], and the account has the balance [b]. *)
Definition cache_at (ids : list string) (fp sym : string) (b : Z) (d : RecDB) : Prop :=
  faults d = [] /\ infers (t_indexes (tables d)) ubc_fingerprint = true /\
  (forall k, is_Some (t_events (tables d) !! k) -> k ∈ ids) /\ balance_of (tables d) fp sym = Some b.

Lemma cache_weaken ids ids' fp sym b d : ids ⊆ ids' -> cache_at ids fp sym b d -> cache_at ids' fp sym b d.
Proof. unfold cache_at. naive_solver. Qed.

(** ** One event *)

Lemma exec_result_nofault {A} (f : RecTables -> result A * RecTables) t :
  exec_result f (mkDB t []) = ((f t).1, mkDB (f t).2 []).
Proof. unfold exec_result, mbind, M_bind. rewrite exec_nofault. by destruct (f t) as [[a|e] t']. Qed.

(** The row of an event. *)
Definition event_row (p : bridgeEventParams) (n : Z) : BridgeEventDao :=
  mkBridgeEventDao (bp_eventType p) (stringPtrOrNil (bp_fingerprint p)) n (stringPtrOrNil (bp_evmTxHash p))
    (stringPtrOrNil (bp_evmDestination p)) (stringPtrOrNil (bp_tokenSymbol p)) (timePtrOrNil (bp_timestamp p)).

(** storeBridgeEvent without faults, for an event that is not stored yet: it
    posts, or it fails and nothing is kept. *)
Lemma wp_store_new p t sym Q :
  let fp := (normalizeFingerprint (bp_fingerprint p)).1 in
  let posted n := upsert ubc_fingerprint fp sym (bp_amount p) (if bp_isCredit p then Z.add else Z.sub)
                    (put_events (<[bp_contractID p := event_row p n]> (t_events t)) t) in
  t_events t !! bp_contractID p = None ->
  normalizeTokenSymbol (if bool_decide (TrimSpace (bp_tokenSymbol p) = ""%string) then defaultTokenSymbol else bp_tokenSymbol p) = Ok sym ->
  (forall n t2, numeric_cast (bp_amount p) = Ok n -> fp <> ""%string -> posted n = (Ok tt, t2) ->
     Q (Ok tt) (mkDB (put_state (count_event (NOW (t_writes t2)) <$> t_state t2) t2) [])) ->
  (forall e, (forall n, numeric_cast (bp_amount p) = Ok n -> fp = ""%string \/ is_ok (posted n).1 = false) -> Q (Err e) (mkDB t [])) ->
  wp (storeBridgeEvent p) Q (mkDB t []).
Proof.
  intros fp posted Hnew Hsym Hok Herr. unfold wp, storeBridgeEvent, RunInTx.
  assert (exists r d, (n ← wrapping ("store " +:+ bp_eventType p +:+ " event: ") (exec_result (insert_event p));
      rows ← attempt (RowsAffected n); match rows with Ok 0 => mret tt | _ => post_event p end) (mkDB t []) = (r, mkDB d []) /\
    ((r = Ok tt /\ exists n t2, numeric_cast (bp_amount p) = Ok n /\ fp <> ""%string /\ posted n = (Ok tt, t2) /\
        d = put_state (count_event (NOW (t_writes t2)) <$> t_state t2) t2) \/
     is_ok r = false /\ forall n, numeric_cast (bp_amount p) = Ok n -> fp = ""%string \/ is_ok (posted n).1 = false))
    as (r & d & -> & Hr).
  { unfold mbind at 1, M_bind at 1, wrapping at 1. rewrite exec_result_nofault. unfold insert_event.
    destruct (numeric_cast (bp_amount p)) as [n|e]; cbn [fst snd wrap].
    2:{ eexists _, _. split; [reflexivity|]. by right. }
    rewrite Hnew. cbn [fst snd wrap]. unfold mbind at 1, M_bind at 1, attempt. unfold RowsAffected. rewrite query_nofault.
    unfold post_event. rewrite Hsym. fold (event_row p n). unfold mbind at 1, M_bind at 1, lift. fold fp.
    destruct (decide (fp = ""%string)) as [Hfp|Hfp]; [rewrite (bool_decide_eq_true_2 (fp = ""%string)) by done|
      rewrite (bool_decide_eq_false_2 (fp = ""%string)) by done].
    { eexists _, _. split; [reflexivity|]. right. split; [done|]. auto. }
    unfold mbind at 1, M_bind at 1, wrapping at 1. rewrite exec_result_nofault. fold (posted n).
    destruct (posted n) as [[[]|e] t2] eqn:Hp; cbn [fst snd wrap].
    - unfold wrapping, update_state. rewrite exec_nofault. cbn [fst snd wrap]. eexists _, _. split; [reflexivity|].
      left. split; [done|]. eauto 10.
    - eexists _, _. split; [reflexivity|]. right. split; [done|]. intros ? [= <-]. right. by rewrite Hp. }
  destruct Hr as [[-> (n & t2 & Hn & Hf & Hp & ->)]|[Hr Hf]].
  - unfold query, exec. cbn. by eapply Hok.
  - destruct r as [[]|e]; [done|]. cbn. by apply Herr.
Qed.

(** An event of a pass: the account moves by the event's delta, if it is the
    event's account, and stays as it is otherwise. *)
Lemma wp_StoreTokenTransferEvent ids fp sym b e d :
  cache_at ids fp sym b d -> te_ContractID e ∉ ids -> fp <> ""%string ->
  (posts_to fp sym e = true -> is_Some (numeric_in (te_Amount e)) /\ Z.abs b + Z.abs (event_units e) < 10 ^ 38) ->
  wp (StoreTokenTransferEvent e)
    (fun _ d' => cache_at (te_ContractID e :: ids) fp sym (b + (if posts_to fp sym e then event_delta e else 0)) d') d.
Proof.
  destruct d as [t fs]. intros (Hfs & Hinf & Hids & Hbal) Hcid Hfp Hunits. cbn [tables faults] in *. subst fs.
  assert (t_events t !! te_ContractID e = None) as Hnew by (apply eq_None_not_Some; eauto).
  assert (forall p, bp_contractID p = te_ContractID e -> bp_fingerprint p = UserFingerprint e -> bp_amount p = te_Amount e ->
    bp_tokenSymbol p = te_InstrumentID e -> bridge_event e = true -> bp_isCredit p = bool_decide (EventType e = EventTypeMint) ->
    wp (storeBridgeEvent p) (fun _ d' => cache_at (te_ContractID e :: ids) fp sym
       (b + (if posts_to fp sym e then event_delta e else 0)) d') (mkDB t [])) as Hstore.
  { intros p Hc Hf Ha Hs Hbr Hcr. apply (wp_store_new p t (event_symbol e)); rewrite ?Hc, ?Hf, ?Ha, ?Hs; [done|apply event_symbol_ok| |].
    - intros n t2 Hn _ (n' & Hn' & Hix & Hev & _ & Hb)%upsert_balance. split_and!; [done|by cbn; rewrite Hix| |].
      + intros k. cbn. rewrite Hev. cbn. rewrite lookup_insert_is_Some. intros [<-|[_ Hk]]; [constructor|constructor; by apply Hids].
      + cbn [tables]. change (balance_of (put_state _ t2) fp sym) with (balance_of t2 fp sym). rewrite Hb. unfold posts_to, event_account.
        rewrite Hbr. change (balance_of (put_events _ t) fp sym) with (balance_of t fp sym). rewrite Hbal. cbn [andb].
        rewrite Hn in Hn'. injection Hn' as <-. unfold numeric_cast, numeric_store in Hn.
        unfold event_delta, event_units. destruct (numeric_in (te_Amount e)) as [z|]; [|done].
        destruct (numeric_fits z); [|done]. injection Hn as ->. rewrite Hcr.
        repeat case_bool_decide; cbn; f_equal; try lia; simplify_eq.
    - intros err Herr. split_and!; [done|done|intros; constructor; auto|].
      destruct (posts_to fp sym e) eqn:Hp; [exfalso|by rewrite Z.add_0_r].
      destruct (Hunits eq_refl) as [[z Hz] Hbound]. unfold event_units in Hbound. rewrite Hz in Hbound. cbn in Hbound.
      unfold posts_to in Hp. rewrite Hbr in Hp. apply bool_decide_eq_true in Hp. unfold event_account in Hp. injection Hp as Hp1 Hp2.
      assert (numeric_cast (te_Amount e) = Ok z) as Hcast.
      { unfold numeric_cast, numeric_store, numeric_fits. rewrite Hz. rewrite (proj2 (Z.ltb_lt _ _)), (proj2 (Z.ltb_lt _ _)) by lia. done. }
      destruct (Herr z Hcast) as [Hbad|Hbad]; [congruence|]. rewrite Hp1, Hp2 in Hbad. unfold upsert in Hbad.
      change (t_indexes (put_events _ t)) with (t_indexes t) in Hbad. rewrite Hinf, Hcast in Hbad. cbn [negb t_balances put_events] in Hbad.
      unfold balance_of in Hbal. destruct (List.find _ (t_balances t)) as [row|]; [|done]. injection Hbal as Hrow.
      unfold numeric_store, numeric_fits in Hbad. rewrite (proj2 (Z.ltb_lt _ _)), (proj2 (Z.ltb_lt _ _)) in Hbad; [done| |];
        destruct (bp_isCredit p); lia. }
  unfold StoreTokenTransferEvent. unfold bridge_event, posts_to in *.
  case_bool_decide as Hm; [apply Hstore; try done; cbn; by rewrite ?bool_decide_eq_true_2 by done|].
  case_bool_decide as Hb'; [apply Hstore; try done; cbn; by rewrite ?bool_decide_eq_false_2 by done|].
  apply wp_ret. unfold bridge_event. rewrite !bool_decide_eq_false_2 by done. cbn [orb andb]. rewrite Z.add_0_r. split_and!; [done|done|intros; constructor; auto|done].
Qed.
(** The first burn of an account is credited.  The insert of the balance
    row carries the amount of the event whatever its type, and only the update
    of an existing row subtracts: storing a burn of [n] units for an account
    that has no row leaves it with a balance of plus [n]. *)
Theorem first_burn_is_credited e t n :
  EventType e = EventTypeBurn -> infers (t_indexes t) ubc_fingerprint = true ->
  t_events t !! te_ContractID e = None -> (event_account e).1 <> ""%string ->
  balance_of t (event_account e).1 (event_account e).2 = None -> numeric_in (te_Amount e) = Some n -> 0 < n < 10 ^ 38 ->
  wp (StoreTokenTransferEvent e) (fun r d' => r = Ok tt /\
    balance_of (tables d') (event_account e).1 (event_account e).2 = Some n) (mkDB t []).
Proof.
  intros Hburn Hinf Hnew Hfp Hnone Hn Hpos. unfold event_account in *. cbn [fst snd] in *. unfold StoreTokenTransferEvent. rewrite Hburn. cbn -[storeBridgeEvent].
  assert (numeric_cast (te_Amount e) = Ok n) as Hcast.
  { unfold numeric_cast, numeric_store, numeric_fits. rewrite Hn, (proj2 (Z.ltb_lt _ _)), (proj2 (Z.ltb_lt _ _)) by lia. done. }
  eapply (wp_store_new _ t (event_symbol e)); [done|apply event_symbol_ok| |]; cbn [bp_amount bp_fingerprint bp_isCredit].
  - intros n' t2 _ _ (n2 & Hn2 & _ & _ & _ & Hb)%upsert_balance. split; [done|]. cbn [tables].
    change (balance_of (put_state _ t2)) with (balance_of t2). rewrite Hb, bool_decide_eq_true_2 by done.
    change (balance_of (put_events _ t)) with (balance_of t). rewrite Hnone. congruence.
  - intros err Herr. exfalso. destruct (Herr n Hcast) as [Hbad|Hbad]; [done|]. unfold upsert in Hbad.
    change (t_indexes (put_events _ t)) with (t_indexes t) in Hbad. rewrite Hinf, Hcast in Hbad. cbn [negb t_balances put_events] in Hbad.
    unfold balance_of in Hnone. by destruct (List.find _ (t_balances t)).
Qed.

(** ** The migrated schema *)

Lemma migrated_infers c : infers migrated_indexes c = false.
Proof. by destruct c. Qed.

(** With the migrated indexes no upsert of a balance succeeds. *)
Lemma migrated_upsert c v s amount f t :
  t_indexes t = migrated_indexes -> exists e, upsert c v s amount f t = (Err e, t).
Proof. intros Hix. unfold upsert. rewrite Hix, migrated_infers. cbn. eauto. Qed.

Lemma migrated_write c v s amount f d :
  t_indexes (tables d) = migrated_indexes ->
  wp (exec_result (upsert c v s amount f)) (fun r d' => is_ok r = false /\ tables d' = tables d) d.
Proof.
  intros Hix. unfold exec_result. wp_go; [|done]. destruct (migrated_upsert c v s amount f (tables d) Hix) as [e ->]. cbn [fst snd]. by wp_go.
Qed.

Lemma migrated_post p d :
  t_indexes (tables d) = migrated_indexes -> wp (post_event p) (fun r _ => is_ok r = false) d.
Proof.
  intros Hix. unfold post_event. apply wp_bind, wp_lift. destruct (normalizeTokenSymbol _); [|done].
  case_bool_decide; [by apply wp_fail|]. apply wp_bind, wp_wrapping. eapply wp_mono; [by apply migrated_write|].
  by intros [[]|e] d' [Hr _].
Qed.

Lemma migrated_store p d :
  t_indexes (tables d) = migrated_indexes -> wp (storeBridgeEvent p) (fun _ d' => tables d' = tables d) d.
Proof.
  intros Hix. unfold storeBridgeEvent. apply wp_RunInTx. apply wp_bind, wp_wrapping. unfold exec_result.
  apply wp_bind, wp_exec; intros; cbn [wrap]; [|done].
  assert (forall r t1, insert_event p (tables d) = (r, t1) -> t_indexes t1 = migrated_indexes /\ (r = Ok 0 -> t1 = tables d)) as Hins.
  { intros r t1. unfold insert_event. destruct (numeric_cast _); [|by intros [= <- <-]].
    destruct (t_events _ !! _); by intros [= <- <-]. }
  destruct (insert_event p (tables d)) as [[n|e] t1]; cbn [fst snd]; [|by apply wp_fail].
  destruct (Hins _ _ eq_refl) as [Hix1 Hz]. apply wp_ret. cbn [wrap].
  apply wp_bind, wp_attempt. unfold RowsAffected.
  assert (forall fs, wp (post_event p) (fun r d' => match r with
    | Ok _ => (forall fs, tables (mkDB (tables d') fs) = tables d) /\ (error -> forall fs : list (option string), tables (mkDB (tables d) fs) = tables d)
    | Err _ => forall fs : list (option string), tables (mkDB (tables d) fs) = tables d end) (mkDB t1 fs)) as Hpost.
  { intros fs'. eapply wp_mono; [by apply migrated_post|]. by intros [[]|e] d'. }
  apply wp_query; intros; cbn [tables].
  - destruct n; [|apply Hpost..]. apply wp_ret. by rewrite (Hz eq_refl).
  - apply Hpost.
Qed.

Lemma migrated_event e d :
  t_indexes (tables d) = migrated_indexes -> wp (StoreTokenTransferEvent e) (fun _ d' => tables d' = tables d) d.
Proof. intros Hix. unfold StoreTokenTransferEvent. repeat case_bool_decide; [by apply migrated_store..|by apply wp_ret]. Qed.
End store.

(** ** A pass over the events *)

Section reconciler.
Context `{!Env} `{!DecimalLib} `{!PgServer}.
Variable cantonClient : Client.

Definition pass_at (ids : list string) (fp sym : string) (b : Z) (w : RecWorld) : Prop := cache_at ids fp sym b (rc_store w).

Lemma wp_process_event ids fp sym b e w :
  pass_at ids fp sym b w -> (bridge_event e = true -> te_ContractID e ∉ ids) -> fp <> ""%string ->
  (posts_to fp sym e = true -> is_Some (numeric_in (te_Amount e)) /\ Z.abs b + Z.abs (event_units e) < 10 ^ 38) ->
  wp (process_event e) (fun r w' => r = Ok tt /\
    pass_at (te_ContractID e :: ids) fp sym (b + (if posts_to fp sym e then event_delta e else 0)) w') w.
Proof.
  intros Hat Hcid Hfp Hunits. unfold process_event. destruct (bridge_event e) eqn:Hbr; cbn [negb].
  2:{ apply wp_ret. split; [done|]. unfold posts_to. rewrite Hbr. cbn [andb]. rewrite Z.add_0_r.
      eapply cache_weaken; [|exact Hat]. set_solver. }
  specialize (Hcid eq_refl). unfold pass_at in *. pose proof Hat as (Hfs & _ & Hids & _).
  apply wp_bind, wp_attempt. unfold on_store. apply wp_zoom. unfold IsEventProcessed. apply wp_wrapping.
  destruct w as [[t fs] us h]. cbn [rc_store faults tables] in *. subst fs. unfold wp at 1. rewrite query_nofault. cbn [wrap].
  rewrite bool_decide_eq_false_2 by eauto. unfold logged, on_store. apply wp_bind, wp_attempt, wp_zoom.
  eapply wp_mono; [by apply (wp_StoreTokenTransferEvent ids fp sym b e)|].
  cbv beta. intros r d' Hd'. apply wp_ret. by destruct r.
Qed.

Lemma volume_pos fp sym evs : 0 <= volume fp sym evs.
Proof. induction evs as [|e evs IH]; cbn; [lia|]. destruct (posts_to _ _ _); fold (volume fp sym evs); lia. Qed.

Lemma wp_pass evs : forall ids fp sym b w,
  pass_at ids fp sym b w -> NoDup (te_ContractID <$> evs) -> Forall (fun e => te_ContractID e ∉ ids) evs -> fp <> ""%string ->
  Forall (fun e => posts_to fp sym e = true -> is_Some (numeric_in (te_Amount e))) evs ->
  Z.abs b + volume fp sym evs < 10 ^ 38 ->
  wp (for_each evs process_event) (fun r w' => r = Ok tt /\ exists ids', pass_at ids' fp sym (b + net fp sym evs) w') w.
Proof.
  induction evs as [|e evs IH]; intros ids fp sym b w Hat Hnd Hnew Hfp Hparse Hvol; cbn [for_each net volume foldr fmap list_fmap] in *.
  { apply wp_ret. rewrite Z.add_0_r. eauto. }
  apply Forall_cons in Hnew as [Hcid Hnew]. apply Forall_cons in Hparse as [Hp Hparse]. apply NoDup_cons in Hnd as [Hnin Hnd].
  fold (volume fp sym evs) (net fp sym evs) in *. pose proof (volume_pos fp sym evs).
  apply wp_bind. eapply wp_mono; [apply (wp_process_event ids fp sym b e); [done|done|done|]|].
  { intros Hpost. rewrite Hpost in Hvol. split; [auto|lia]. }
  cbv beta. intros r w' [-> Hw']. eapply wp_mono; [apply (IH _ _ _ _ _ Hw'); [done| |done|done|]|].
  - rewrite Forall_forall in Hnew |- *. intros x Hx [Heq|Hin]%elem_of_cons; [|by apply (Hnew x)].
    apply Hnin. rewrite <- Heq. by apply (list_elem_of_fmap_2 te_ContractID).
  - unfold event_delta. destruct (posts_to fp sym e); [case_bool_decide|]; lia.
  - cbv beta. by rewrite Z.add_assoc.
Qed.

(** What ReconcileFromBridgeEvents does to an account. *)
Lemma wp_ReconcileFromBridgeEvents evs ids fp sym b w :
  (GetTokenTransferEvents cantonClient (rc_history w)).1 = Ok evs ->
  pass_at ids fp sym b w -> NoDup (te_ContractID <$> evs) -> Forall (fun e => te_ContractID e ∉ ids) evs -> fp <> ""%string ->
  Forall (fun e => posts_to fp sym e = true -> is_Some (numeric_in (te_Amount e))) evs ->
  Z.abs b + volume fp sym evs < 10 ^ 38 ->
  wp (ReconcileFromBridgeEvents cantonClient) (fun r w' => r = Ok tt /\
    balance_of (tables (rc_store w')) fp sym = Some (b + net fp sym evs)) w.
Proof.
  intros Hevs Hat Hnd Hnew Hfp Hparse Hvol. unfold ReconcileFromBridgeEvents. apply wp_bind, wp_wrapping.
  unfold on_rec_ledger. apply wp_zoom. apply wp_intro. intros r h' Hrun. rewrite Hrun in Hevs. cbn in Hevs. subst r. cbn [wrap].
  apply wp_bind. eapply wp_mono; [by eapply (wp_pass evs ids fp sym b)|]. cbv beta. intros r w' [-> (ids' & Hfs & _ & _ & Hb)].
  unfold logged, on_store. apply wp_bind, wp_attempt, wp_zoom. unfold MarkFullReconcileComplete, update_state. apply wp_wrapping.
  destruct w' as [[t fs] us h]. cbn [rc_store faults tables] in *. subst fs. unfold wp at 1. rewrite exec_nofault. cbn [wrap].
  apply wp_ret. split; [done|]. exact Hb.
Qed.

(** C33: a full reconciliation rebuilds the PROMPT balances, and only those.
    When no statement fails, the indexes of the store's upserts exist, and the
    ledger lists events with distinct contract ids whose amounts are numbers
    that do not overflow, then FullBalanceReconciliation succeeds and an
    account that has a row ends with the sum of its mints minus its burns,
    starting from zero for PROMPT.  The events are counted from the beginning
    for every token, but only the PROMPT rows are reset: a row of any other
    token starts from its old balance, so that its events are counted again by
    every full reconciliation. *)
Theorem FullBalanceReconciliation_balances evs fp sym b w :
  (GetTokenTransferEvents cantonClient (rc_history w)).1 = Ok evs ->
  faults (rc_store w) = [] -> infers (t_indexes (tables (rc_store w))) ubc_fingerprint = true ->
  balance_of (tables (rc_store w)) fp sym = Some b -> NoDup (te_ContractID <$> evs) -> fp <> ""%string ->
  Forall (fun e => posts_to fp sym e = true -> is_Some (numeric_in (te_Amount e))) evs ->
  let opening := if bool_decide (sym = "PROMPT"%string) then 0 else b in
  Z.abs opening + volume fp sym evs < 10 ^ 38 ->
  wp (FullBalanceReconciliation cantonClient) (fun r w' => r = Ok tt /\
    balance_of (tables (rc_store w')) fp sym = Some (opening + net fp sym evs)) w.
Proof.
  intros Hevs Hfs Hinf Hb Hnd Hfp Hparse opening Hvol. destruct w as [[t fs] us h]. cbn [rc_store rc_history tables faults] in *. subst fs.
  unfold FullBalanceReconciliation, on_store, ResetBalancesByTokenSymbol.
  assert (normalizeTokenSymbol "PROMPT" = Ok "PROMPT"%string) as -> by reflexivity.
  apply wp_bind, wp_wrapping, wp_zoom, wp_bind, wp_lift, wp_wrapping. cbn [rc_store]. unfold wp at 1. rewrite exec_nofault. cbn [fst snd wrap].
  apply wp_bind, wp_wrapping, wp_zoom. unfold ClearBridgeEvents. cbn [rc_store rc_users rc_history].
  match goal with |- wp (RunInTx ?fn) _ (mkDB ?t0 _) =>
    assert (exists t2, RunInTx fn (mkDB t0 []) = (Ok tt, mkDB t2 []) /\ t_events t2 = ∅ /\ t_balances t2 = t_balances t0 /\
              t_indexes t2 = t_indexes t0) as (t2 & Htx & Hev & Hbal & Hix) by (eexists; split; [reflexivity|done])
  end.
  unfold wp at 1. rewrite Htx. cbn [wrap]. apply wp_wrapping.
  eapply wp_mono; [apply (wp_ReconcileFromBridgeEvents evs [] fp sym opening)|]; try done.
  - unfold pass_at, cache_at. cbn [rc_store faults tables]. split_and!; [done|by rewrite Hix|intros k; rewrite Hev, lookup_empty; by intros []|].
    unfold balance_of. rewrite Hbal. cbn [t_balances put_balances]. unfold reset_rows. rewrite find_map_same.
    2:{ intros r. case_bool_decide; [apply is_row_set_balance|done]. }
    unfold balance_of in Hb. destruct (List.find _ (t_balances t)) as [r|] eqn:Hf; [|done]. injection Hb as Hb. cbn.
    apply List.find_some in Hf as [_ [_ <-]%is_row_true]. unfold opening. repeat case_bool_decide; cbn; congruence.
  - apply Forall_forall. intros x _. set_solver.
  - intros r w' [-> H2]. done.
Qed.

Lemma wp_logged_keeps {A} (c : M RecDB A) t0 w1 :
  wp c (fun _ d' => tables d' = t0) (rc_store w1) ->
  wp (logged (on_store c)) (fun r w' => r = Ok tt /\ tables (rc_store w') = t0) w1.
Proof.
  intros Hc. unfold logged, on_store. apply wp_bind, wp_attempt, wp_zoom. eapply wp_mono; [exact Hc|].
  cbv beta. intros r d' Hd'. by apply wp_ret.
Qed.

(** The balances and the stored events of the cache. *)
Definition same_cache (w w' : RecWorld) : Prop :=
  t_balances (tables (rc_store w')) = t_balances (tables (rc_store w)) /\ t_events (tables (rc_store w')) = t_events (tables (rc_store w)).

Lemma migrated_events_pass w :
  t_indexes (tables (rc_store w)) = migrated_indexes ->
  wp (ReconcileFromBridgeEvents cantonClient) (fun r w' => same_cache w w' /\
    (is_ok (GetTokenTransferEvents cantonClient (rc_history w)).1 = true -> r = Ok tt)) w.
Proof.
  unfold same_cache. set (t0 := tables (rc_store w)). intros Hix.
  unfold ReconcileFromBridgeEvents. apply wp_bind, wp_wrapping. unfold on_rec_ledger. apply wp_zoom, wp_intro.
  intros r h' ->. destruct r as [evs|e]; cbn [wrap fst is_ok]; [|done]. apply wp_bind.
  eapply (wp_mono _ (fun r w' => r = Ok tt /\ tables (rc_store w') = t0)).
  + assert (forall w1, tables (rc_store w1) = t0 -> wp (for_each evs process_event) (fun r w' => r = Ok tt /\ tables (rc_store w') = t0) w1)
      as Hloop; [|by apply Hloop].
    induction evs as [|ev evs IH]; intros w1 Hw1; cbn [for_each]; [by apply wp_ret|]. apply wp_bind.
    apply (wp_mono _ (fun r w' => r = Ok tt /\ tables (rc_store w') = t0)); [|intros r w2 [-> Hw2]; by apply IH]. unfold process_event.
    destruct (negb _); [by apply wp_ret|]. apply wp_bind, wp_attempt. unfold on_store at 1. apply wp_zoom. unfold IsEventProcessed.
    apply wp_wrapping. apply wp_query; intros; cbn [wrap]; [|by apply wp_ret].
    destruct (bool_decide _); [by apply wp_ret|]. apply wp_logged_keeps. cbn [rc_store].
    eapply wp_mono; [apply migrated_event; by cbn; rewrite Hw1|]. cbn. congruence.
  + intros r w' [-> Hw']. unfold logged, on_store. apply wp_bind, wp_attempt, wp_zoom. unfold MarkFullReconcileComplete, update_state.
    wp_go; cbn; rewrite Hw'; done.
Qed.

Lemma migrated_holdings_pass w :
  t_indexes (tables (rc_store w)) = migrated_indexes ->
  wp (ReconcileUserBalancesFromHoldings cantonClient) (fun _ w' => same_cache w w') w.
Proof.
  unfold same_cache. set (t0 := tables (rc_store w)). intros Hix.
  unfold ReconcileUserBalancesFromHoldings. apply wp_bind, wp_wrapping. unfold on_rec_ledger. apply wp_zoom, wp_intro.
  intros r h' _. destruct r as [hs|e]; cbn [wrap]; [|done]. apply wp_bind, wp_wrapping. unfold on_rec_users, ListUsers. apply wp_zoom.
  apply wp_wrapping, wp_query; intros; cbn [wrap]; [|done].
  eapply (wp_mono _ (fun _ w' => tables (rc_store w') = t0)); [|by intros r w' ->].
  apply wp_for_each; [done|]. intros u w1 _ Hw1. unfold update_user. case_bool_decide; [by apply wp_ret|].
  assert (forall party sym bal w2, tables (rc_store w2) = t0 ->
    wp (logged (on_store (SetBalanceByCantonPartyID party sym bal))) (fun r w' => r = Ok tt /\ tables (rc_store w') = t0) w2) as Hset.
  { intros party sym bal w2 Hw2. apply wp_logged_keeps. unfold SetBalanceByCantonPartyID. apply wp_bind, wp_lift.
    destruct (normalizeTokenSymbol sym); [|done]. case_bool_decide; [by apply wp_fail|]. apply wp_wrapping.
    eapply wp_mono; [apply migrated_write; by rewrite Hw2|]. cbv beta. intros r d' [_ Hd']. congruence. }
  apply wp_bind. eapply wp_mono; [by apply Hset|]. cbv beta. intros r w2 [-> Hw2].
  eapply wp_mono; [by apply Hset|]. by intros r w3 [_ ?].
Qed.

(** C40: on the migrated schema no pass changes a balance.  Migration 11 creates
    the unique indexes of user_token_balances as partial indexes, which the ON
    CONFLICT clauses of the store do not match, so every upsert of a balance is
    rejected: whatever the ledger answers and whichever statements fail, a pass
    over the events and a pass over the holdings leave the balances and the
    stored events as they were, and the pass over the events reports success
    whenever the ledger could be read. *)
Theorem migrated_schema_stores_nothing w :
  t_indexes (tables (rc_store w)) = migrated_indexes ->
  wp (ReconcileFromBridgeEvents cantonClient) (fun r w' => same_cache w w' /\
    (is_ok (GetTokenTransferEvents cantonClient (rc_history w)).1 = true -> r = Ok tt)) w /\
  wp (ReconcileUserBalancesFromHoldings cantonClient) (fun _ w' => same_cache w w') w.
Proof. intros Hix. split; [by apply migrated_events_pass|by apply migrated_holdings_pass]. Qed.
End reconciler.

(** ** A pass over the holdings *)

(** The symbol a holding counts for, and what is held of a symbol. *)
Definition holding_symbol (h : Holding) : string := if bool_decide (h_Symbol h = ""%string) then "UNKNOWN"%string else h_Symbol h.

Section supply.
Context `{!Env} `{DecimalLaws} `{!PgServer}.
Variable range : gmap string dec -> list (string * dec).
Hypothesis range_ok : forall m, range m ≡ₚ map_to_list m.
Variable cantonClient : Client.

Definition held (sym : string) (hs : list Holding) : Qc :=
  foldr (fun h n => ((if bool_decide (holding_symbol h = sym) then amount_val (h_Amount h) else 0) + n)%Qc) 0%Qc hs.

Lemma supply_fold hs : forall m sym,
  dec_val (default dec_Zero (foldl add_supply m hs !! sym)) = (dec_val (default dec_Zero (m !! sym)) + held sym hs)%Qc.
Proof.
  induction hs as [|h hs IH]; intros m sym; cbn; [by rewrite Qcplus_0_r|]. rewrite IH, Qcplus_assoc. f_equal.
  unfold add_supply, amount_val. fold (holding_symbol h). destruct (NewFromString (h_Amount h)) as [d|].
  - case_bool_decide as Hs; [subst sym; rewrite lookup_insert_eq; cbn; by rewrite dlaw_add|].
    by rewrite lookup_insert_ne, Qcplus_0_r by done.
  - by case_bool_decide; rewrite Qcplus_0_r.
Qed.

Lemma supplyByToken_value hs sym d : supplyByToken hs !! sym = Some d -> dec_val d = held sym hs.
Proof.
  intros Hd. pose proof (supply_fold hs ∅ sym) as Hf. unfold supplyByToken in Hd. rewrite Hd, lookup_empty in Hf.
  cbn in Hf. by rewrite Hf, dlaw_zero, Qcplus_0_l.
Qed.

(** A supply that the column can hold under a symbol that is kept as it is. *)
Definition storable (entry : string * dec) : Prop :=
  normalizeTokenSymbol entry.1 = Ok entry.1 /\ is_ok (numeric_cast (dec_String entry.2)) = true.

(** The supplies after the entries are stored. *)
Definition supplies_stored (l : list (string * dec)) (t t' : RecTables) : Prop := forall sym,
  match (list_to_map l : gmap string dec) !! sym with
  | Some d => exists z, numeric_cast (dec_String d) = Ok z /\ tm_TotalSupply <$> t_metrics t' !! sym = Some z
  | None => t_metrics t' !! sym = t_metrics t !! sym
  end.

Lemma wp_store_supply entry w :
  storable entry -> faults (rc_store w) = [] ->
  wp (store_supply entry) (fun r w' => r = Ok tt /\ faults (rc_store w') = [] /\
    supplies_stored [entry] (tables (rc_store w)) (tables (rc_store w'))) w.
Proof.
  destruct entry as [s d], w as [[t fs] us h]. intros [Hn Hc] Hfs. cbn in Hfs, Hn, Hc. subst fs. unfold store_supply, on_store.
  destruct (numeric_cast (dec_String d)) as [z|] eqn:Hz; [|done].
  apply wp_bind, wp_wrapping, wp_zoom. unfold SetTotalSupply. rewrite Hn. apply wp_bind, wp_lift, wp_wrapping. cbn [rc_store].
  unfold wp at 1. rewrite exec_result_nofault, Hz. cbn [fst snd wrap].
  unfold logged. apply wp_bind, wp_attempt, wp_zoom. unfold UpdateLastReconciled. rewrite Hn. apply wp_bind, wp_lift, wp_wrapping. cbn [rc_store].
  unfold wp at 1. rewrite exec_nofault. cbn [fst snd wrap]. apply wp_ret. split_and!; [done|done|].
  intros sym. cbn [rc_store tables t_metrics put_metrics]. cbn [list_to_map foldr]. destruct (decide (sym = s)) as [->|Hne].
  - cbn. rewrite lookup_insert_eq, lookup_alter_eq, lookup_insert_eq. eauto.
  - cbn. by rewrite lookup_insert_ne, lookup_alter_ne, lookup_insert_ne by done.
Qed.

Lemma wp_store_supplies l : forall w,
  NoDup l.*1 -> Forall storable l -> faults (rc_store w) = [] ->
  wp (for_each l store_supply) (fun r w' => r = Ok tt /\ faults (rc_store w') = [] /\
    supplies_stored l (tables (rc_store w)) (tables (rc_store w'))) w.
Proof.
  induction l as [|[s d] l IH]; intros w Hnd Hst Hfs; cbn [for_each]; [by apply wp_ret|].
  cbn in Hnd. apply NoDup_cons in Hnd as [Hnin Hnd]. apply Forall_cons in Hst as [Hs Hst].
  apply wp_bind. eapply wp_mono; [by apply wp_store_supply|]. cbv beta. intros r w1 (-> & Hf1 & Hs1).
  eapply wp_mono; [by apply IH|]. cbv beta. intros r w2 (-> & Hf2 & Hs2). split_and!; [done..|]. intros sym.
  specialize (Hs1 sym). specialize (Hs2 sym). cbn in Hs1 |- *. destruct (decide (sym = s)) as [->|Hne].
  - rewrite lookup_insert_eq in *. apply not_elem_of_list_to_map_1 in Hnin. rewrite Hnin in Hs2. by rewrite Hs2.
  - rewrite lookup_insert_ne in * by done. destruct (list_to_map l !! sym); [done|]. by rewrite Hs2, Hs1.
Qed.

(** The user balances are written elsewhere. *)
Lemma holdings_pass_metrics w :
  wp (ReconcileUserBalancesFromHoldings cantonClient)
    (fun _ w' => t_metrics (tables (rc_store w')) = t_metrics (tables (rc_store w))) w.
Proof.
  unfold ReconcileUserBalancesFromHoldings. apply wp_bind, wp_wrapping. unfold on_rec_ledger. apply wp_zoom, wp_intro.
  intros [hs|e] h' _; cbn [wrap]; [|done]. apply wp_bind, wp_wrapping. unfold on_rec_users, ListUsers. apply wp_zoom.
  apply wp_wrapping, wp_query; intros; cbn [wrap]; [|done].
  apply (wp_for_each _ _ (fun w' => t_metrics (tables (rc_store w')) = t_metrics (tables (rc_store w)))); [done|].
  intros u w1 _ Hw1. unfold update_user. case_bool_decide; [by apply wp_ret|].
  assert (forall party sym bal w2, wp (logged (on_store (SetBalanceByCantonPartyID party sym bal)))
    (fun r w' => r = Ok tt /\ t_metrics (tables (rc_store w')) = t_metrics (tables (rc_store w2))) w2) as Hset.
  { intros party sym bal w2. unfold logged, on_store. apply wp_bind, wp_attempt, wp_zoom. unfold SetBalanceByCantonPartyID.
    apply wp_bind, wp_lift. destruct (normalizeTokenSymbol sym); [|done]. case_bool_decide; [done|]. apply wp_wrapping.
    unfold exec_result. apply wp_bind, wp_exec; intros; [|done].
    destruct (upsert _ _ _ _ _ _) as [[[]|e] t'] eqn:Hu; cbn [fst snd].
    - split; [done|]. cbn. unfold upsert in Hu. destruct (negb _); [done|]. destruct (numeric_cast bal); [|done].
      destruct (List.find _ _); [destruct (numeric_store _); [|done]|]; by injection Hu as <-.
    - apply upsert_error in Hu as ->. done. }
  apply wp_bind. eapply wp_mono; [apply Hset|]. cbv beta. intros r w2 [-> Hw2].
  eapply wp_mono; [apply Hset|]. cbv beta. intros r w3 [_ Hw3]. congruence.
Qed.

(** ReconcileAll stores the supplies of the ledger.  When no statement
    fails and every supply fits its column under a symbol in canonical form,
    ReconcileAll succeeds, whatever the order in which Go ranges over the
    supplies and whatever becomes of the user balances, and the total supply
    stored for every symbol of a holding is the exact sum of the amounts of
    its holdings.  The supply of a token of which no holding is left is not
    touched: it keeps its old value instead of becoming zero. *)
Theorem ReconcileAll_supplies hs w :
  (GetAllHoldings cantonClient (rc_history w)).1 = Ok hs -> faults (rc_store w) = [] ->
  (forall sym d, supplyByToken hs !! sym = Some d -> storable (sym, d)) ->
  wp (ReconcileAll range cantonClient) (fun r w' => r = Ok tt /\ forall sym,
    match supplyByToken hs !! sym with
    | Some d => dec_val d = held sym hs /\
        exists z, numeric_cast (dec_String d) = Ok z /\ tm_TotalSupply <$> t_metrics (tables (rc_store w')) !! sym = Some z
    | None => t_metrics (tables (rc_store w')) !! sym = t_metrics (tables (rc_store w)) !! sym
    end) w.
Proof.
  intros Hhs Hfs Hst. unfold ReconcileAll. apply wp_bind, wp_wrapping. unfold on_rec_ledger. apply wp_zoom, wp_intro.
  intros r h' Hrun. rewrite Hrun in Hhs. cbn in Hhs. subst r. cbn [wrap]. apply wp_bind.
  eapply wp_mono; [apply wp_store_supplies; [|apply Forall_forall; intros [sym d]|done]|].
  - rewrite (Permutation_map fst (range_ok (supplyByToken hs)) : fmap fst _ ≡ₚ _). apply NoDup_fst_map_to_list.
  - rewrite range_ok. intros Hin%elem_of_map_to_list. by apply Hst.
  - cbv beta. intros r w1 (-> & _ & Hs1). unfold logged. apply wp_bind, wp_attempt. eapply wp_mono; [apply holdings_pass_metrics|].
    cbv beta. intros r w2 Hm. apply wp_ret. split; [done|]. intros sym. specialize (Hs1 sym).
    assert (list_to_map (range (supplyByToken hs)) = supplyByToken hs) as Hmap.
    { rewrite <- (list_to_map_to_list (supplyByToken hs)) at 2. apply list_to_map_proper; [|apply range_ok].
      rewrite (Permutation_map fst (range_ok (supplyByToken hs)) : fmap fst _ ≡ₚ _). apply NoDup_fst_map_to_list. }
    rewrite Hmap in Hs1. rewrite Hm. destruct (supplyByToken hs !! sym) as [d|] eqn:Hd; [|done].
    split; [by apply supplyByToken_value|done].
Qed.
End supply.

(** ** Witnesses *)

(** A server that reads and prints decimals of eighteen places. *)
Definition ex_server : PgServer := {|
  NOW n := Z.of_nat n;
  numeric_in s := (fun d => @dec_BigInt RefDecimal.lib (@dec_Mul RefDecimal.lib d (@dec_New RefDecimal.lib 1 18))) <$> @NewFromString RefDecimal.lib s;
  numeric_out z := @dec_String RefDecimal.lib (@NewFromBigInt RefDecimal.lib z (-18));
|}.

Definition ex_bridge_event (cid from to amount instrument : string) : CreatedEvent :=
  mkCreatedEvent cid None
    [("issuer"%string, Some (PartyValue "issuer"));
     ("fromParty"%string, Some (if bool_decide (from = ""%string) then NoneValue else OptionalValue (PartyValue from)));
     ("toParty"%string, Some (if bool_decide (to = ""%string) then NoneValue else OptionalValue (PartyValue to)));
     ("amount"%string, Some (NumericValue amount)); ("instrumentId"%string, Some (EncodeInstrumentId "issuer" instrument));
     ("timestamp"%string, Some (TimestampValue 5));
     ("meta"%string, Some (OptionalValue (EncodeMetadata {["bridge.fingerprint"%string := "0xf1"%string]})))] [].

Definition ex_rec_env (events : list CreatedEvent) : Env := scripted (mkScript (100 * Second) 5 (fun _ => events)
  (fun p => Err (ErrNew "none")) (fun _ => ([], ""%string)) (fun _ => http_failed (ErrNew "down"))).

Definition ex_rec_tables (indexes : list unique_index) : RecTables :=
  mkRecTables indexes [mkUserTokenBalanceDao (Some "0xf1"%string) "PROMPT" None None 7 0; mkUserTokenBalanceDao (Some "0xf1"%string) "DEMO" None None 7 0]
    {["OLD"%string := mkTokenMetricsDao 3 None 0]} ∅ (Some (mkReconciliationState 0 None 0 0)) 0.
Definition ex_rec_world (indexes : list unique_index) : RecWorld :=
  mkRecWorld (mkDB (ex_rec_tables indexes) []) (mkDB (mkUserTables [] ∅) []) [].

Definition ex_events : list CreatedEvent :=
  [ex_bridge_event "e1" "" "alice" "5" "PROMPT"; ex_bridge_event "e2" "alice" "" "2" "PROMPT"; ex_bridge_event "e3" "" "alice" "1" "DEMO"].
Definition ex_transfer_events : list TokenTransferEvent := decodeTokenTransferEvent <$> ex_events.

(** PROMPT is rebuilt to 3; DEMO is counted on top of the old balance. *)
Lemma FullBalanceReconciliation_balances_witness :
  let run := @FullBalanceReconciliation (ex_rec_env ex_events) ex_server ex_client in
  wp run (fun r w' => r = Ok tt /\ balance_of (tables (rc_store w')) "0xf1" "PROMPT" = Some (3 * 10 ^ 18)) (ex_rec_world tested_indexes) /\
  wp run (fun r w' => r = Ok tt /\ balance_of (tables (rc_store w')) "0xf1" "DEMO" = Some (7 + 10 ^ 18)) (ex_rec_world tested_indexes).
Proof.
  cbv zeta. split.
  - apply (@FullBalanceReconciliation_balances (ex_rec_env ex_events) ex_server ex_client ex_transfer_events "0xf1" "PROMPT" 7).
    + reflexivity.
    + reflexivity.
    + reflexivity.
    + reflexivity.
    + refine (bool_decide_unpack _ _). vm_compute. exact I.
    + discriminate.
    + repeat constructor; intros _; vm_compute; eauto.
    + reflexivity.
  - apply (@FullBalanceReconciliation_balances (ex_rec_env ex_events) ex_server ex_client ex_transfer_events "0xf1" "DEMO" 7).
    + reflexivity.
    + reflexivity.
    + reflexivity.
    + reflexivity.
    + refine (bool_decide_unpack _ _). vm_compute. exact I.
    + discriminate.
    + repeat constructor; intros _; vm_compute; eauto.
    + reflexivity.
Defined.

Definition ex_burn : TokenTransferEvent := decodeTokenTransferEvent (ex_bridge_event "e9" "alice" "" "2" "OTHER").

Lemma first_burn_is_credited_witness :
  event_account ex_burn = ("0xf1"%string, "OTHER"%string) /\
  @wp _ _ (@StoreTokenTransferEvent ex_server ex_burn) (fun r d' => r = Ok tt /\
    balance_of (tables d') (event_account ex_burn).1 (event_account ex_burn).2 = Some 2000000000000000000)
    (mkDB (ex_rec_tables tested_indexes) []).
Proof.
  split; [vm_compute; reflexivity|].
  apply (@first_burn_is_credited ex_server ex_burn (ex_rec_tables tested_indexes) 2000000000000000000).
  - vm_compute. reflexivity.
  - reflexivity.
  - reflexivity.
  - vm_compute. discriminate.
  - vm_compute. reflexivity.
  - vm_compute. reflexivity.
  - lia.
Defined.

Lemma migrated_schema_stores_nothing_witness :
  @wp _ _ (@ReconcileFromBridgeEvents (ex_rec_env ex_events) ex_server ex_client) (fun r w' =>
    same_cache (ex_rec_world migrated_indexes) w' /\ r = Ok tt) (ex_rec_world migrated_indexes).
Proof.
  destruct (@migrated_schema_stores_nothing (ex_rec_env ex_events) RefDecimal.lib ex_server ex_client (ex_rec_world migrated_indexes) eq_refl)
    as [H _].
  eapply wp_mono; [exact H|]. cbv beta. intros r w' [Hs Hr]. split; [exact Hs|]. apply Hr. vm_compute. reflexivity.
Defined.

Definition ex_supply_env : Env := ex_rec_env [ex_created "c1" "alice" "1.5"; ex_created "c2" "bob" "2.25"].

Lemma ReconcileAll_supplies_witness :
  @wp _ _ (@ReconcileAll ex_supply_env RefDecimal.lib ex_server map_to_list ex_client) (fun r w' => r = Ok tt /\
    tm_TotalSupply <$> t_metrics (tables (rc_store w')) !! "DEMO"%string = Some 3750000000000000000 /\
    t_metrics (tables (rc_store w')) !! "OLD"%string = Some (mkTokenMetricsDao 3 None 0)) (ex_rec_world tested_indexes).
Proof.
  set (hs := [decodeHolding (ex_created "c1" "alice" "1.5"); decodeHolding (ex_created "c2" "bob" "2.25")]).
  assert ((@GetAllHoldings ex_supply_env ex_client (rc_history (ex_rec_world tested_indexes))).1 = Ok hs) as Hhs by reflexivity.
  assert (@supplyByToken RefDecimal.lib hs = {["DEMO"%string := @NewFromBigInt RefDecimal.lib 375 (-2)]}) as E by reflexivity.
  assert (forall sym d, @supplyByToken RefDecimal.lib hs !! sym = Some d -> @storable RefDecimal.lib ex_server (sym, d)) as Hst.
  { intros sym d. rewrite E. intros [<- <-]%lookup_singleton_Some. split; vm_compute; reflexivity. }
  pose proof (@ReconcileAll_supplies ex_supply_env RefDecimal.lib RefDecimal.laws ex_server map_to_list (fun m => reflexivity _)
    ex_client hs (ex_rec_world tested_indexes) Hhs eq_refl Hst) as Hw.
  refine (wp_mono _ _ _ _ Hw _). cbv beta. intros r w' [-> Hs]. rewrite E in Hs. split; [reflexivity|]. split.
  - specialize (Hs "DEMO"%string). rewrite lookup_singleton_eq in Hs. destruct Hs as (_ & z & Hz & Ht). rewrite Ht.
    revert Hz. vm_compute. congruence.
  - specialize (Hs "OLD"%string). rewrite lookup_singleton_ne in Hs by discriminate. rewrite Hs. reflexivity.
Defined.
