(* ===== verification/AcceptWorker.v ===== *)
(** * The accept worker: pkg/custodial/accept_worker.go

    A poll cycle lists the custodial users, pages through the pending offers of
    the indexer and accepts those whose receiver is custodial.  The worker is
    modelled against the two interfaces it calls, the indexer's listing and the
    token client, over one state [X] that both may change; the metrics are
    counters, durations are left out.  The ticker that runs the cycles is left
    out too. *)

From S2P Require Import Prelude AppErrors Effects GoStd UserStore Decimal LedgerApi TokenCodec TokenClient IndexerStore.
From Stdlib Require Import Ascii String.
Local Open Scope Z_scope.
Local Abbreviation length := Datatypes.length.

Definition acceptWorkerPageLimit : Z := 200.

(** The indexer's listing: the items of a page and the total. *)
Class PendingOffers (X : Type) := { GetPendingTransfers : Pagination -> M X (list Transfer * Z) }.
(** AcceptTransferInstruction(partyID, instructionCID, instrumentAdmin) *)
Class OfferAcceptor (X : Type) := { AcceptOffer : string -> string -> string -> M X unit }.

(** The token client is an acceptor. *)
#[export] Instance client_acceptor `{!Env} (client : Client) : OfferAcceptor history := {|
  AcceptOffer partyID instructionCID instrumentAdmin := AcceptTransferInstruction client partyID instructionCID instrumentAdmin;
|}.

(** metrics.go *)
Record AcceptMetrics := mkAcceptMetrics {
  am_RunsTotal : Z;
  am_ErrorsListUsers : Z;
  am_ErrorsFetchOffers : Z;
  am_CustodialUsers : Z;
  am_PendingOffers : Z;
  am_OffersFetchedTotal : Z;
  am_AcceptedSuccess : Z;
  am_AcceptedError : Z;
  (** how often LastSuccessfulRunTimestamp was set *)
  am_SuccessfulRuns : Z;
}.

Definition count_run (m : AcceptMetrics) : AcceptMetrics :=
  let 'mkAcceptMetrics r lu fo c p f s e ok := m in mkAcceptMetrics (r + 1) lu fo c p f s e ok.
Definition count_list_error (m : AcceptMetrics) : AcceptMetrics :=
  let 'mkAcceptMetrics r lu fo c p f s e ok := m in mkAcceptMetrics r (lu + 1) fo c p f s e ok.
Definition count_fetch_error (m : AcceptMetrics) : AcceptMetrics :=
  let 'mkAcceptMetrics r lu fo c p f s e ok := m in mkAcceptMetrics r lu (fo + 1) c p f s e ok.
Definition set_custodial (n : Z) (m : AcceptMetrics) : AcceptMetrics :=
  let 'mkAcceptMetrics r lu fo c p f s e ok := m in mkAcceptMetrics r lu fo n p f s e ok.
Definition set_pending (n : Z) (m : AcceptMetrics) : AcceptMetrics :=
  let 'mkAcceptMetrics r lu fo c p f s e ok := m in mkAcceptMetrics r lu fo c n f s e ok.
Definition add_fetched (n : Z) (m : AcceptMetrics) : AcceptMetrics :=
  let 'mkAcceptMetrics r lu fo c p f s e ok := m in mkAcceptMetrics r lu fo c p (f + n) s e ok.
Definition count_accept {A} (result : result A) (m : AcceptMetrics) : AcceptMetrics :=
  let 'mkAcceptMetrics r lu fo c p f s e ok := m in
  if is_ok result then mkAcceptMetrics r lu fo c p f (s + 1) e ok else mkAcceptMetrics r lu fo c p f s (e + 1) ok.
Definition count_success (m : AcceptMetrics) : AcceptMetrics :=
  let 'mkAcceptMetrics r lu fo c p f s e ok := m in mkAcceptMetrics r lu fo c p f s e (ok + 1).

Section worker.
Context {X : Type} `{!PendingOffers X} `{!OfferAcceptor X}.

Record AcceptState := mkAcceptState { aw_users : UserDB; aw_canton : X; aw_metrics : AcceptMetrics }.

Definition aw_on_users {A} (c : M UserDB A) : M AcceptState A :=
  zoom aw_users (fun u w => mkAcceptState u (aw_canton w) (aw_metrics w)) c.
Definition aw_on_canton {A} (c : M X A) : M AcceptState A :=
  zoom aw_canton (fun x w => mkAcceptState (aw_users w) x (aw_metrics w)) c.
Definition metric (f : AcceptMetrics -> AcceptMetrics) : M AcceptState unit :=
  modify (fun w => mkAcceptState (aw_users w) (aw_canton w) (f (aw_metrics w))).

(** The body of the loop over the offers of a page. *)
Definition accept_offer (custodialParties : gset string) (transfer : Transfer) : M AcceptState unit :=
  if negb (bool_decide (tr_ToPartyID transfer ∈ custodialParties)) then mret tt
  else
    r ← attempt (aw_on_canton (AcceptOffer (tr_ToPartyID transfer) (tr_ContractID transfer) (tr_InstrumentAdmin transfer)));
    metric (count_accept r).

(** The loop over the pages.  The code has no bound on their number; the fuel
    is one, and running out of it is an error that the code has not. *)
Fixpoint accept_pages (fuel : nat) (custodialParties : gset string) (page : Z) : M AcceptState unit :=
  match fuel with
  | O => fail (ErrNew "out of fuel")
  | S fuel =>
      r ← attempt (aw_on_canton (GetPendingTransfers (mkPagination page acceptWorkerPageLimit)));
      match r with
      | Err _ => metric count_fetch_error
      | Ok (items, total) =>
          _ ← (if page =? 1 then metric (set_pending total) else mret tt);
          _ ← metric (add_fetched (Z.of_nat (length items)));
          _ ← for_each items (accept_offer custodialParties);
          if total <=? int64 (page * acceptWorkerPageLimit) then metric count_success
          else accept_pages fuel custodialParties (page + 1)
      end
  end.

Definition acceptPending (fuel : nat) : M AcceptState unit :=
  _ ← metric count_run;
  r ← attempt (aw_on_users ListCustodialUsers);
  match r with
  | Err _ => metric count_list_error
  | Ok users =>
      _ ← metric (set_custodial (Z.of_nat (length users)));
      match users with
      | [] => metric count_success
      | _ => accept_pages fuel (list_to_set (u_CantonPartyID <$> users)) 1
      end
  end.
End worker.
Arguments AcceptState : clear implicits.

(** ** A cycle accepts for custodial parties only *)

Definition custodial_party (t : UserTables) (party : string) : Prop :=
  exists dao, dao ∈ t_users t /\ d_KeyMode dao = KeyModeCustodial /\ u_CantonPartyID (toUser dao) = party.

Section proofs.
Context {X : Type} `{!PendingOffers X} `{!OfferAcceptor X}.

Lemma wp_metric f (Q : result unit -> AcceptState X -> Prop) w :
  Q (Ok tt) (mkAcceptState (aw_users w) (aw_canton w) (f (aw_metrics w))) -> wp (metric f) Q w.
Proof. intros HQ. unfold metric. by apply wp_modify. Qed.

(** A cycle acts for custodial parties only.  Whatever the indexer lists
    and however the ledger and the database fail, anything that is true of the
    world, that listing the offers keeps true and that accepting an offer on
    behalf of a stored custodial user's party keeps true is true after a cycle:
    no offer is accepted on behalf of any other party. *)
Theorem accepts_for_custodial_only (I : X -> Prop) fuel (w : AcceptState X) :
  I (aw_canton w) -> (forall p x, I x -> I (GetPendingTransfers p x).2) ->
  (forall party cid admin x, custodial_party (tables (aw_users w)) party -> I x -> I (AcceptOffer party cid admin x).2) ->
  I (aw_canton (acceptPending fuel w).2).
Proof.
  intros HI Hlist Hacc.
  enough (wp (acceptPending fuel) (fun _ w' => I (aw_canton w')) w) as Hw
    by (revert Hw; unfold wp; by destruct (acceptPending fuel w)).
  unfold acceptPending. apply wp_bind, wp_metric. apply wp_bind, wp_attempt. unfold aw_on_users, ListCustodialUsers.
  apply wp_zoom, wp_wrapping, wp_query; intros; cbn [wrap]; [|by apply wp_metric]. cbn [aw_users].
  set (users := toUser <$> filter _ _) in *. apply wp_bind, wp_metric.
  assert (forall party, party ∈ (list_to_set (u_CantonPartyID <$> users) : gset string) -> custodial_party (tables (aw_users w)) party) as Hcust.
  { intros party. rewrite elem_of_list_to_set. intros (u & -> & Hu)%list_elem_of_fmap.
    unfold users in Hu. apply list_elem_of_fmap in Hu as (dao & -> & [Hk Hd]%list_elem_of_filter). exists dao. eauto. }
  assert (forall fuel page w1, I (aw_canton w1) ->
    wp (accept_pages fuel (list_to_set (u_CantonPartyID <$> users)) page) (fun _ w' => I (aw_canton w')) w1) as Hpages.
  { clear fuel. induction fuel as [|fuel IH]; intros page w1 Hw1; cbn [accept_pages]; [by apply wp_fail|].
    apply wp_bind, wp_attempt. unfold aw_on_canton. apply wp_zoom, wp_intro. intros r x' Hrun.
    assert (I x') as Hx by (specialize (Hlist (mkPagination page acceptWorkerPageLimit) (aw_canton w1) Hw1); by rewrite Hrun in Hlist).
    destruct r as [[items total]|e]; [|by apply wp_metric]. apply wp_bind.
    assert (forall w2, I (aw_canton w2) -> wp (for_each items (accept_offer (list_to_set (u_CantonPartyID <$> users))))
      (fun _ w' => I (aw_canton w')) w2) as Hitems.
    { intros w2 Hw2. apply (wp_for_each _ _ (fun w' => I (aw_canton w'))); [done|]. intros t w3 _ Hw3. unfold accept_offer.
      destruct (bool_decide _) eqn:Hin; cbn [negb]; [|by apply wp_ret]. apply bool_decide_eq_true in Hin.
      apply wp_bind, wp_attempt. unfold aw_on_canton. apply wp_zoom, wp_intro. intros r x3 Hacc3. apply wp_metric. cbn.
      specialize (Hacc (tr_ToPartyID t) (tr_ContractID t) (tr_InstrumentAdmin t) (aw_canton w3) (Hcust _ Hin) Hw3). by rewrite Hacc3 in Hacc. }
    assert (forall w2, I (aw_canton w2) -> wp (_ ← metric (add_fetched (Z.of_nat (length items)));
        _ ← for_each items (accept_offer (list_to_set (u_CantonPartyID <$> users)));
        if total <=? int64 (page * acceptWorkerPageLimit) then metric count_success
        else accept_pages fuel (list_to_set (u_CantonPartyID <$> users)) (page + 1)) (fun _ w' => I (aw_canton w')) w2) as Hrest.
    { intros w2 Hw2. apply wp_bind, wp_metric. apply wp_bind. eapply wp_mono; [by apply Hitems|]. intros [[]|e] w3 Hw3; [|done].
      destruct (_ <=? _); [by apply wp_metric|by apply IH]. }
    destruct (page =? 1); [apply wp_metric|apply wp_ret]; by apply Hrest. }
  destruct users; [by apply wp_metric|]. by apply Hpages.
Qed.

(** ** A cycle attempts every custodial offer once *)

(** The attempts for a list of offers, in order. *)
Definition attempts (parties : gset string) (x : X) (l : list Transfer) : X :=
  foldl (fun x t => if bool_decide (tr_ToPartyID t ∈ parties)
                    then (AcceptOffer (tr_ToPartyID t) (tr_ContractID t) (tr_InstrumentAdmin t) x).2 else x) x l.

Definition custodial_offers (parties : gset string) (l : list Transfer) : list Transfer :=
  filter (fun t => tr_ToPartyID t ∈ parties) l.

Definition attempted (m : AcceptMetrics) : Z := am_AcceptedSuccess m + am_AcceptedError m.

(** What a run of offers does to the metrics. *)
Definition counted (fetched attempts : nat) (m m' : AcceptMetrics) : Prop :=
  am_OffersFetchedTotal m' = am_OffersFetchedTotal m + Z.of_nat fetched /\ attempted m' = attempted m + Z.of_nat attempts /\
  am_ErrorsFetchOffers m' = am_ErrorsFetchOffers m /\ am_SuccessfulRuns m' = am_SuccessfulRuns m.

Lemma accept_items parties items : forall w : AcceptState X,
  wp (for_each items (accept_offer parties)) (fun r w' => r = Ok tt /\ aw_canton w' = attempts parties (aw_canton w) items /\
    counted 0 (length (custodial_offers parties items)) (aw_metrics w) (aw_metrics w')) w.
Proof.
  induction items as [|t items IH]; intros w; cbn [for_each].
  { apply wp_ret. unfold counted. cbn. split_and!; (done || lia). }
  apply wp_bind. unfold accept_offer at 1, custodial_offers. cbn [attempts foldl]. rewrite filter_cons.
  destruct (decide (tr_ToPartyID t ∈ parties)) as [Hin|Hin].
  - rewrite bool_decide_eq_true_2 by done. cbn [negb]. apply wp_bind, wp_attempt. unfold aw_on_canton. apply wp_zoom, wp_intro.
    intros r x' Hr. apply wp_metric. eapply wp_mono; [apply IH|]. cbv beta. intros r' w' (-> & Hc & Hm). split; [done|].
    split; [by rewrite Hc, Hr|]. unfold counted, attempted in *. cbn in Hm |- *. destruct (aw_metrics w). cbn in *.
    destruct (is_ok r); cbn in *; unfold custodial_offers in Hm; cbn [length]; lia.
  - rewrite bool_decide_eq_false_2 by done. cbn [negb]. apply wp_ret. apply IH.
Qed.

(** The offers of one page, up to the test for the last page. *)
Lemma wp_page parties items total page (next : M (AcceptState X) unit) Q w :
  (forall w', aw_canton w' = attempts parties (aw_canton w) items ->
     counted (length items) (length (custodial_offers parties items)) (aw_metrics w) (aw_metrics w') -> wp next Q w') ->
  wp (_ ← (if page =? 1 then metric (set_pending total) else mret tt);
      _ ← metric (add_fetched (Z.of_nat (length items))); _ ← for_each items (accept_offer parties); next) Q w.
Proof.
  intros Hnext.
  assert (forall w1, aw_canton w1 = aw_canton w -> counted 0 0 (aw_metrics w) (aw_metrics w1) ->
    wp (_ ← metric (add_fetched (Z.of_nat (length items))); _ ← for_each items (accept_offer parties); next) Q w1) as Hrest.
  { intros w1 Hc Hm. apply wp_bind, wp_metric, wp_bind. eapply wp_mono; [apply accept_items|]. cbv beta.
    intros r w' (-> & Hc' & Hm'). apply Hnext; [by rewrite Hc'; cbn; rewrite Hc|].
    unfold counted, attempted in *. destruct (aw_metrics w1). cbn in *. lia. }
  destruct (page =? 1); apply wp_bind; [apply wp_metric|apply wp_ret]; apply Hrest; try done;
    unfold counted, attempted; destruct (aw_metrics w); cbn; lia.
Qed.

Section stable.
Variable l : list Transfer.
Hypothesis stable : forall page x, 1 <= page ->
  GetPendingTransfers (mkPagination page acceptWorkerPageLimit) x = (Ok (page_of (mkPagination page acceptWorkerPageLimit) l, Z.of_nat (length l)), x).

Lemma page_items (n : nat) : page_of (mkPagination (Z.of_nat n + 1) acceptWorkerPageLimit) l = take 200 (drop (n * 200) l).
Proof.
  unfold page_of, sql_limit, acceptWorkerPageLimit. cbn [Page Limit]. change (0 <? 200) with true. cbn iota. f_equal. f_equal. lia.
Qed.

(** A cycle that attempted the offers of a list and ended well. *)
Definition cycle_done (parties : gset string) (offers : list Transfer) (w w' : AcceptState X) : Prop :=
  aw_canton w' = attempts parties (aw_canton w) offers /\
  am_OffersFetchedTotal (aw_metrics w') = am_OffersFetchedTotal (aw_metrics w) + Z.of_nat (length offers) /\
  attempted (aw_metrics w') = attempted (aw_metrics w) + Z.of_nat (length (custodial_offers parties offers)) /\
  am_ErrorsFetchOffers (aw_metrics w') = am_ErrorsFetchOffers (aw_metrics w) /\
  am_SuccessfulRuns (aw_metrics w') = am_SuccessfulRuns (aw_metrics w) + 1.

Lemma accept_pages_complete parties fuel : forall n (w : AcceptState X),
  Z.of_nat (length l) < 2 ^ 62 -> (length l < (n + fuel) * 200)%nat -> (n * 200 <= length l)%nat ->
  wp (accept_pages fuel parties (Z.of_nat n + 1)) (fun r w' => r = Ok tt /\ cycle_done parties (drop (n * 200) l) w w') w.
Proof.
  induction fuel as [|fuel IH]; intros n w Hbig Hfuel Hn; [lia|]. cbn [accept_pages].
  apply wp_bind, wp_attempt. unfold aw_on_canton. apply wp_zoom. unfold wp at 1. rewrite stable, page_items by lia.
  set (items := take 200 (drop (n * 200) l)).
  assert (drop (n * 200) l = items ++ drop (S n * 200) l) as Hsplit.
  { unfold items. replace (S n * 200)%nat with (n * 200 + 200)%nat by lia. by rewrite <- drop_drop, take_drop. }
  apply (wp_page parties items). cbn [aw_canton aw_metrics]. intros w1 Hc Hm.
  assert (int64 ((Z.of_nat n + 1) * acceptWorkerPageLimit) = Z.of_nat (S n * 200)) as ->.
  { unfold acceptWorkerPageLimit. rewrite int64_id by (unfold is_int64, min_int64, max_int64; lia). lia. }
  rewrite Hsplit. destruct (Z.leb_spec (Z.of_nat (length l)) (Z.of_nat (S n * 200))) as [Hle|Hgt].
  - rewrite (drop_ge l (S n * 200)) by lia. rewrite app_nil_r. apply wp_metric. split; [done|]. split; [done|].
    unfold counted, attempted in *. cbn [aw_metrics]. destruct (aw_metrics w1), (aw_metrics w). cbn in *. lia.
  - replace (Z.of_nat n + 1 + 1) with (Z.of_nat (S n) + 1) by lia. eapply wp_mono; [apply IH; lia|]. cbv beta.
    intros r w2 (-> & Hc2 & Hd). split; [done|]. split; [by rewrite Hc2, Hc; unfold attempts; rewrite foldl_app|].
    unfold counted, attempted, custodial_offers in *. rewrite filter_app, !length_app.
    destruct (aw_metrics w1), (aw_metrics w), (aw_metrics w2). cbn in *. lia.
Qed.

(** C34: a cycle attempts every pending custodial offer exactly once.  When the
    listing of the indexer does not change during the cycle and the user table
    can be read, a cycle ends without error after at most one page more than
    the offers fill, and what it has done to the ledger is one attempt to
    accept each listed offer whose receiver is a custodial user's party, in the
    order of the listing, whether the attempts succeed or not; every offer is
    fetched once. *)
Theorem accept_cycle_complete fuel (w : AcceptState X) users :
  faults (aw_users w) = [] -> (ListCustodialUsers (aw_users w)).1 = Ok users -> users <> [] ->
  Z.of_nat (length l) < 2 ^ 62 -> (length l < fuel * 200)%nat ->
  wp (acceptPending fuel) (fun r w' => r = Ok tt /\ cycle_done (list_to_set (u_CantonPartyID <$> users)) l w w') w.
Proof.
  intros Hf Hu Hne Hbig Hfuel. destruct w as [[t fs] x m]. cbn [aw_users faults] in *. subst fs. unfold acceptPending.
  apply wp_bind, wp_metric. apply wp_bind, wp_attempt. unfold aw_on_users. apply wp_zoom. unfold wp at 1. cbn [aw_users].
  destruct (ListCustodialUsers (mkDB t [])) as [r d'] eqn:Hl. cbn in Hu. subst r. apply wp_bind, wp_metric.
  destruct users as [|u users]; [done|].
  eapply wp_mono; [apply (accept_pages_complete _ fuel 0); lia|]. cbv beta. intros r w' (-> & Hc & Hd). split; [done|].
  rewrite drop_0 in *. split; [done|]. unfold attempted in *. destruct m, (aw_metrics w'). cbn in *. lia.
Qed.
End stable.
End proofs.

(** ** A listing that shrinks as offers are accepted *)

(** An indexer that is up to date: an accepted offer is pending no more. *)
Section shrinking.
#[local] Instance pending_listing : PendingOffers (list Transfer) := {|
  GetPendingTransfers p x := (Ok (page_of p x, Z.of_nat (length x)), x);
|}.
#[local] Instance accepting : OfferAcceptor (list Transfer) := {|
  AcceptOffer _ cid _ x := (Ok tt, filter (fun t => tr_ContractID t <> cid) x);
|}.

Lemma attempts_shrink parties items : forall x, Forall (fun t => tr_ToPartyID t ∈ parties) items ->
  attempts parties x items = filter (fun t => tr_ContractID t ∉ tr_ContractID <$> items) x.
Proof.
  induction items as [|t items IH]; intros x Hall.
  - cbn. symmetry. apply filter_all. intros; set_solver.
  - apply Forall_cons in Hall as [Ht Hall]. unfold attempts in *. cbn [foldl]. rewrite bool_decide_eq_true_2 by done.
    cbn [AcceptOffer accepting snd]. rewrite IH by done. rewrite list_filter_filter. apply list_filter_iff. intros y. cbn.
    rewrite not_elem_of_cons. tauto.
Qed.

(** Offers before a page stay where they are while the page is accepted. *)
Lemma filter_page blk rest items :
  NoDup (tr_ContractID <$> blk ++ rest) -> items ⊆ rest ->
  filter (fun t => tr_ContractID t ∉ tr_ContractID <$> items) (blk ++ rest) =
  blk ++ filter (fun t => tr_ContractID t ∉ tr_ContractID <$> items) rest.
Proof.
  rewrite fmap_app, NoDup_app. intros (_ & Hdis & _) Hsub. rewrite filter_app. f_equal. apply filter_all.
  intros t Ht Hin. apply (Hdis (tr_ContractID t)); [by apply (list_elem_of_fmap_2 tr_ContractID)|].
  apply list_elem_of_fmap in Hin as (t' & -> & Ht'). apply (list_elem_of_fmap_2 tr_ContractID). by apply Hsub.
Qed.

Lemma in_page (l : list Transfer) blk rest (n : nat) :
  l = blk ++ rest -> (length blk = 200)%nat \/ rest = [] -> (1 <= n)%nat -> (length blk <= 200)%nat ->
  take 200 (drop (n * 200) l) ⊆ rest.
Proof.
  intros -> Hblk Hn Hle t Ht. rewrite drop_app_ge in Ht by lia.
  eapply (sublist_subseteq (take 200 (drop (n * 200 - length blk) rest))); [|exact Ht].
  etrans; [apply sublist_take|apply sublist_drop].
Qed.

(** From the second page on, the first 200 offers of the listing are not
    reached any more. *)
Lemma later_pages_keep parties blk fuel : forall (n : nat) rest (w : AcceptState (list Transfer)),
  (1 <= n)%nat -> (length blk <= 200)%nat -> (length blk = 200)%nat \/ rest = [] -> aw_canton w = blk ++ rest ->
  NoDup (tr_ContractID <$> blk ++ rest) -> Forall (fun t => tr_ToPartyID t ∈ parties) rest ->
  wp (accept_pages fuel parties (Z.of_nat n + 1)) (fun _ w' => blk ⊆ aw_canton w') w.
Proof.
  induction fuel as [|fuel IH]; intros n rest w Hn Hle Hblk Hc Hnd Hall; cbn [accept_pages].
  { apply wp_fail. rewrite Hc. set_solver. }
  apply wp_bind, wp_attempt. unfold aw_on_canton. apply wp_zoom. unfold wp at 1. cbn [GetPendingTransfers pending_listing].
  rewrite page_items. set (items := take 200 (drop (n * 200) (aw_canton w))).
  assert (items ⊆ rest) as Hsub by (by eapply in_page).
  apply (wp_page parties items). cbn [aw_canton]. intros w1 Hc1 _.
  rewrite attempts_shrink in Hc1 by (apply Forall_forall; intros t Ht; rewrite Forall_forall in Hall; apply Hall, Hsub, Ht).
  rewrite Hc, filter_page in Hc1 by done. destruct (_ <=? _).
  - apply wp_metric. cbn. rewrite Hc1. set_solver.
  - replace (Z.of_nat n + 1 + 1) with (Z.of_nat (S n) + 1) by lia.
    eapply IH; [lia|done| |exact Hc1| |].
    + destruct Hblk as [?| ->]; [by left|by right].
    + eapply sublist_NoDup; [exact Hnd|]. apply fmap_sublist, sublist_app; [done|]. apply sublist_filter.
    + apply Forall_forall. intros t [_ Ht]%list_elem_of_filter. rewrite Forall_forall in Hall. by apply Hall.
Qed.

(** A cycle over more than one page skips offers.  The pages of the listing
    are counted from its start, and an accepted offer leaves the listing: when
    the indexer is up to date, a cycle that accepts the first 200 offers finds
    the next 200 at the start of the listing and continues behind them, so
    that after the cycle those are still pending although every acceptance
    succeeded.  The comment on the worker says that a cycle fetches all pending
    offers. *)
Theorem shrinking_listing_skips fuel users (w : AcceptState (list Transfer)) :
  faults (aw_users w) = [] -> (ListCustodialUsers (aw_users w)).1 = Ok users ->
  NoDup (tr_ContractID <$> aw_canton w) -> Forall (fun t => tr_ToPartyID t ∈ u_CantonPartyID <$> users) (aw_canton w) ->
  wp (acceptPending fuel) (fun _ w' => take 200 (drop 200 (aw_canton w)) ⊆ aw_canton w') w.
Proof.
  intros Hf Hu Hnd Hall. destruct w as [[t fs] x m]. cbn [aw_users aw_canton faults] in *. subst fs. unfold acceptPending.
  apply wp_bind, wp_metric. apply wp_bind, wp_attempt. unfold aw_on_users. apply wp_zoom. unfold wp at 1. cbn [aw_users].
  destruct (ListCustodialUsers (mkDB t [])) as [r d'] eqn:Hl. cbn in Hu. subst r. apply wp_bind, wp_metric.
  assert (take 200 (drop 200 x) ⊆ x) as Hin.
  { intros y Hy. eapply (sublist_subseteq _ x); [|exact Hy]. etrans; [apply sublist_take|apply sublist_drop]. }
  destruct users as [|u users]; [by apply wp_metric|]. set (parties := list_to_set _ : gset string).
  assert (Forall (fun t => tr_ToPartyID t ∈ parties) x) as Hpar.
  { eapply Forall_impl; [exact Hall|]. intros y Hy. unfold parties. by rewrite elem_of_list_to_set. }
  destruct fuel as [|fuel]; [by apply wp_fail|]. cbn [accept_pages].
  apply wp_bind, wp_attempt. unfold aw_on_canton. apply wp_zoom. unfold wp at 1. cbn [GetPendingTransfers pending_listing aw_canton].
  rewrite (page_items x 0 : page_of (mkPagination 1 acceptWorkerPageLimit) x = _), drop_0.
  apply (wp_page parties (take 200 x)). cbn [aw_canton]. intros w1 Hc1 _.
  rewrite attempts_shrink in Hc1 by (by apply Forall_take).
  assert (filter (fun t => tr_ContractID t ∉ tr_ContractID <$> take 200 x) x = drop 200 x) as Hdrop.
  { transitivity (filter (fun t => tr_ContractID t ∉ tr_ContractID <$> take 200 x) (take 200 x ++ drop 200 x)); [by rewrite take_drop|].
    rewrite filter_app, filter_none, app_nil_l.
    - apply filter_all. intros y Hy Hy'. rewrite <- (take_drop 200 x), fmap_app in Hnd. apply NoDup_app in Hnd as (_ & Hd & _).
      eapply Hd; [exact Hy'|]. by apply (list_elem_of_fmap_2 tr_ContractID).
    - intros y Hy Hn. apply Hn. by apply (list_elem_of_fmap_2 tr_ContractID). }
  rewrite Hdrop in Hc1. destruct (_ <=? _); [apply wp_metric; cbn; rewrite Hc1; intros y Hy; eapply sublist_subseteq; [apply sublist_take|done]|].
  change (1 + 1) with (Z.of_nat 1 + 1).
  apply (later_pages_keep parties (take 200 (drop 200 x)) fuel 1 (drop 200 (drop 200 x))); [lia|rewrite length_take; lia| | | |].
  - rewrite length_take. destruct (decide (200 <= length (drop 200 x))%nat); [left; lia|right; apply drop_ge; lia].
  - by rewrite take_drop.
  - rewrite take_drop. eapply sublist_NoDup; [exact Hnd|]. apply fmap_sublist, sublist_drop.
  - by apply Forall_drop, Forall_drop.
Qed.
End shrinking.

(** ** Witnesses *)

Definition ex_offer (i : nat) (to : string) : Transfer :=
  mkTransfer (FormatInt (Z.of_nat i)) TransferKindOffer TransferStatusPending "sender" to "admin" "DEMO" "1" None "tx" 1 1 false.
Definition ex_custodial : UserTables := mkUserTables [toUserDao (New 7 "0xCd" "bob" "0xf2" "cid" "enc")] ∅.
Definition ex_accept_state {X} (x : X) : AcceptState X := mkAcceptState (mkDB ex_custodial []) x (mkAcceptMetrics 0 0 0 0 0 0 0 0 0).
Definition ex_users : list User := [toUser (toUserDao (New 7 "0xCd" "bob" "0xf2" "cid" "enc"))].

(** A listing of two offers, one of them bob's, and a log of the acceptances. *)
Definition ex_listing : list Transfer := [ex_offer 1 "eve"; ex_offer 2 "bob"].
Definition ex_offers : PendingOffers (list string) := {|
  GetPendingTransfers p x := (Ok (page_of p ex_listing, Z.of_nat (length ex_listing)), x);
|}.
Definition ex_acceptor : OfferAcceptor (list string) := {|
  AcceptOffer party cid _ x := (if bool_decide (party = "bob"%string) then Ok tt else Err (ErrNew "no key"), x ++ [party]);
|}.

Lemma accepts_for_custodial_only_witness :
  Forall (fun party => party = "bob"%string) (aw_canton (@acceptPending _ ex_offers ex_acceptor 1 (ex_accept_state [])).2).
Proof.
  apply (@accepts_for_custodial_only _ ex_offers ex_acceptor (Forall (fun party => party = "bob"%string))); [constructor|done|].
  intros party cid admin x (dao & Hin & _ & <-) Hx. apply list_elem_of_singleton in Hin as ->. cbn. apply Forall_app. by repeat constructor.
Defined.

Lemma accept_cycle_complete_witness :
  @wp _ _ (@acceptPending _ ex_offers ex_acceptor 1) (fun r w' => r = Ok tt /\
    @cycle_done _ ex_acceptor {["bob"%string]} ex_listing (ex_accept_state []) w' /\ aw_canton w' = ["bob"%string]) (ex_accept_state []).
Proof.
  pose proof (@accept_cycle_complete _ ex_offers ex_acceptor ex_listing (fun _ _ _ => eq_refl) 1 (ex_accept_state []) ex_users
    eq_refl eq_refl) as Hw.
  eapply wp_mono; [apply Hw; [discriminate|vm_compute; reflexivity|vm_compute; lia]|]. cbv beta. intros r w' (-> & Hd).
  assert (list_to_set (u_CantonPartyID <$> ex_users) = ({["bob"%string]} : gset string)) as E by (vm_compute; reflexivity).
  rewrite E in Hd. split; [reflexivity|]. split; [exact Hd|]. destruct Hd as [-> _]. vm_compute. reflexivity.
Defined.

(** 201 offers: the last one is not accepted. *)
Definition ex_many : list Transfer := (fun i => ex_offer i "bob") <$> seq 0 201.

Lemma shrinking_listing_skips_witness :
  @wp _ _ (@acceptPending _ pending_listing accepting 5) (fun _ w' => ex_offer 200 "bob" ∈ aw_canton w') (ex_accept_state ex_many).
Proof.
  eapply wp_mono; [apply (shrinking_listing_skips 5 ex_users (ex_accept_state ex_many))|].
  - reflexivity.
  - reflexivity.
  - refine (bool_decide_unpack _ _). vm_compute. exact I.
  - refine (bool_decide_unpack _ _). vm_compute. exact I.
  - cbv beta. intros r w' Hsub. apply Hsub. apply (list_elem_of_lookup_2 _ 0). vm_compute. reflexivity.
Defined.
