(* ===== verification/ServerLifecycle.v ===== *)
(** * ServerLifecycle: the three processes from start to exit

    Run of pkg/app/api/server.go, pkg/app/indexer/server.go and
    pkg/app/relayer/server.go, ServeAndWait of pkg/app/http/server.go, and Start
    and Stop of the relayer engine, as far as they open and close connections,
    start goroutines, cancel contexts and wait.  A server is the list of the
    actions its Run takes; the goroutines, the requests in flight and a signal
    interleave with them.  A goroutine is where it is in its loop: before it, at
    a select, in the body of a case, in a pause, or shutting a server down; it
    ends where the loop returns.  What a body does is the subject of the other
    files; that it comes to its end, because the calls it makes return (all of them take
    the context), is a step here.  Ticks, events, the end of a pause and requests come
    from outside.  The goroutines in which the sources of events read the ledger and the
    Ethereum node are tracked as well, although nothing waits for them.  errgroup is used as
    documented: its context is canceled by the first error or when Wait returns,
    and Wait returns the first error once all functions have returned. *)

From S2P Require Import Prelude AppErrors Effects GoStd GoText.
Local Open Scope Z_scope.

(** ** ServeAndWait *)

(** ServerConfig *)
Record ServeConfig := mkServeConfig { sv_Host : string; sv_Port : Z; sv_ShutdownTimeout : Z }.

(** The timeout of the shutdown, and the address. *)
Definition shutdown_timeout (c : ServeConfig) : Z := if sv_ShutdownTimeout c <=? 0 then 30 * Second else sv_ShutdownTimeout c.
Definition serve_addr (c : ServeConfig) : string := (sv_Host c +:+ ":" +:+ FormatInt (sv_Port c))%string.

(** Which of the two channels is received from: the context is done, or
    ListenAndServe returned, with nil for http.ErrServerClosed. *)
Inductive serve_event := CtxDone | ServerExited (runErr : option error).

(** The error of ServeAndWait, by the event that ended the wait and the result
    of Shutdown. *)
Definition ServeAndWait (handler : bool) (cfg : option ServeConfig) (ev : serve_event) (shutdown : option error) : option error :=
  if negb handler then Some (ErrNew "nil handler")
  else
    match cfg with
    | None => Some (ErrNew "nil server config")
    | Some _ =>
        match shutdown with
        | Some e => Some (ErrWrap "http shutdown: " e "")
        | None =>
            match ev with
            | ServerExited (Some runErr) => Some (ErrWrap "http server failed: " runErr "")
            | _ => None
            end
        end
    end.

(** ** Resources, goroutines, actions *)

Inductive resource := Database | CantonConn | EthereumConn.
#[global] Instance resource_eq_dec : EqDecision resource.
Proof. solve_decision. Defined.

(** The functions given to the errgroup, and the goroutines of the engine. *)
Inductive worker :=
| TopologyCacheCleanup | TransferCacheCleanup | MinerLoop | SubmitterLoop | AcceptLoop
| IndexProcessor | HttpServer | MetricsServer
| CantonProcessorLoop | EthereumProcessor | ReconcileLoop | ReadinessLoop.
#[global] Instance worker_eq_dec : EqDecision worker.
Proof. solve_decision. Defined.

(** The goroutines that read a source of events, each for the processor that
    starts it: Subscribe of the streaming client, StreamWithdrawalEvents of the bridge
    client, and WatchDepositEvents. *)
Inductive source := LedgerStream | WithdrawalStream | DepositPoller.
#[global] Instance source_eq_dec : EqDecision source.
Proof. solve_decision. Defined.

Definition source_uses (s : source) : resource := match s with LedgerStream | WithdrawalStream => CantonConn | DepositPoller => EthereumConn end.

(** The source that a processor starts. *)
Definition feeds (w : worker) : option source :=
  match w with
  | IndexProcessor => Some LedgerStream
  | CantonProcessorLoop => Some WithdrawalStream
  | EthereumProcessor => Some DepositPoller
  | _ => None
  end.

(** The connections a goroutine calls itself; those of the HTTP server are called by its handlers. *)
Definition uses (w : worker) : list resource :=
  match w with
  | TopologyCacheCleanup | TransferCacheCleanup | MetricsServer => []
  | MinerLoop | IndexProcessor => [Database]
  | SubmitterLoop | AcceptLoop | HttpServer => [Database; CantonConn]
  | CantonProcessorLoop | EthereumProcessor | ReconcileLoop => [Database; CantonConn; EthereumConn]
  | ReadinessLoop => [CantonConn; EthereumConn]
  end.

(** With those of its source. *)
Definition needs (w : worker) : list resource := uses w ++ match feeds w with Some s => [source_uses s] | None => [] end.

(** What Run does, in order: a call that can fail, a connection that is opened
    with its deferred Close, by a constructor that can fail after it has dialled
    and then leaves the connection open ([leaky]) or not, Start of the engine
    with its deferred Stop, the group, a function given to it, and the final
    Wait.  canton.New loses its connection when the subject of the token cannot
    be read, ethereum.NewClient when the private key is bad; ConnectDB and
    ledger.New leave nothing open when they fail. *)
Inductive action :=
| Attempt (what : string)
| Open (r : resource) (leaky : bool)
| StartEngine
| NewGroup
| Go (w : worker)
| Wait.
#[global] Instance action_eq_dec : EqDecision action.
Proof. solve_decision. Defined.

Definition engine_workers : list worker := [CantonProcessorLoop; EthereumProcessor; ReconcileLoop; ReadinessLoop].

(** The configuration a Run depends on. *)
Record RunConfig := mkRunConfig { rc_ethRPC : bool; rc_acceptWorker : bool; rc_monitoring : bool }.

Definition when (b : bool) (acts : list action) : list action := if b then acts else [].

(** registerServers *)
Definition registerServers (c : RunConfig) : list action := Go HttpServer :: when (rc_monitoring c) [Go MetricsServer].

(** initServices *)
Definition initServices (c : RunConfig) : list action :=
  [Go TopologyCacheCleanup; Attempt "build token provider"; Go TransferCacheCleanup] ++
  when (rc_ethRPC c) [Go MinerLoop; Go SubmitterLoop].

(** Run of the API server *)
Definition api_run (c : RunConfig) : list action :=
  [Attempt "config"; Attempt "setup logger"; Attempt "master key"; Open Database false; Open CantonConn true; Attempt "indexer client"; NewGroup] ++
  initServices c ++ when (rc_acceptWorker c) [Go AcceptLoop] ++ registerServers c ++ [Wait].

(** Run of the indexer *)
Definition indexer_run (c : RunConfig) : list action :=
  [Attempt "config"; Attempt "create logger"; Open Database false; Open CantonConn false; Attempt "create streaming client"; NewGroup; Go IndexProcessor] ++
  registerServers c ++ [Wait].

(** Run of the relayer *)
Definition relayer_run (c : RunConfig) : list action :=
  [Attempt "config"; Attempt "create logger"; Open Database false; Open CantonConn true; Open EthereumConn true; StartEngine; NewGroup] ++
  registerServers c ++ [Wait].

(** ** The loops of the goroutines *)

Definition context_canceled : error := ErrVar "context.Canceled" "context canceled".

(** Where a goroutine is: not yet at its loop, at the select, in the body of a
    case, in the pause before a retry or a restart, or in the Shutdown of a
    server, which the event began. *)
Inductive wstate := Starting | Selecting | Busy | Pausing | Stopping (ev : serve_event).

Definition task : Type := worker * wstate.

(** A goroutine goes on, or it returns with an error or nil; whether that
    reports a fault, and whether a shutdown gave up on requests. *)
Inductive outcome := Continue (st : wstate) | Return (r : option error) (fault timedOut : bool).

(** The loops over a ticker: Start of the two caches, of the miner and of the
    submitter, Run of the accept worker, reconcileLoop and readinessLoop of the
    engine. *)
Definition ticker_loops : list worker :=
  [TopologyCacheCleanup; TransferCacheCleanup; MinerLoop; SubmitterLoop; AcceptLoop; ReconcileLoop; ReadinessLoop].
Definition servers : list worker := [HttpServer; MetricsServer].

(** The source of a processor has closed its channel: its goroutine has ended,
    or it has seen that the context is done. *)
Definition source_closed (w : worker) (sources : list source) (done : bool) : Prop :=
  done = true \/ forall s, feeds w = Some s -> s ∉ sources.

(** The steps that a goroutine takes by itself, given the requests in flight,
    the running sources and whether its context is done. *)
Inductive worker_step (cfg : ServeConfig) (handlers : nat) (sources : list source) (done : bool) : worker -> wstate -> option source -> outcome -> Prop :=
(* a loop over a ticker returns nil when the context is done *)
| ws_loop w : w ∈ ticker_loops -> worker_step cfg handlers sources done w Starting None (Continue Selecting)
| ws_loop_done w : w ∈ ticker_loops -> done = true -> worker_step cfg handlers sources done w Selecting None (Return None false false)
| ws_loop_cycle w : w ∈ ticker_loops -> worker_step cfg handlers sources done w Busy None (Continue Selecting)
(* readinessLoop also returns when the relayer is ready *)
| ws_ready : worker_step cfg handlers sources done ReadinessLoop Busy None (Return None false false)
(* Run of the indexer's processor: the stored offset, then the batches; a batch
   that is not stored is retried after a pause *)
| ws_offset_failed e : worker_step cfg handlers sources done IndexProcessor Starting None (Return (Some (ErrWrap "load resume offset: " e "")) true false)
| ws_offset : worker_step cfg handlers sources done IndexProcessor Starting (feeds IndexProcessor) (Continue Selecting)
| ws_closed : source_closed IndexProcessor sources done -> worker_step cfg handlers sources done IndexProcessor Selecting None (Return None false false)
| ws_ctx : done = true -> worker_step cfg handlers sources done IndexProcessor Selecting None (Return (Some context_canceled) false false)
| ws_stored : worker_step cfg handlers sources done IndexProcessor Busy None (Continue Selecting)
| ws_batch_failed : worker_step cfg handlers sources done IndexProcessor Busy None (Continue Pausing)
| ws_batch_ctx : done = true -> worker_step cfg handlers sources done IndexProcessor Pausing None (Return (Some context_canceled) false false)
(* runCantonProcessorLoop: Start of the processor, which ends with its source or
   the context, and is started again after a pause unless the context is done *)
| ws_canton : worker_step cfg handlers sources done CantonProcessorLoop Starting (feeds CantonProcessorLoop) (Continue Selecting)
| ws_canton_event : worker_step cfg handlers sources done CantonProcessorLoop Busy None (Continue Selecting)
| ws_canton_ended : source_closed CantonProcessorLoop sources done -> done = false ->
    worker_step cfg handlers sources done CantonProcessorLoop Selecting None (Continue Pausing)
| ws_canton_done : done = true -> worker_step cfg handlers sources done CantonProcessorLoop Selecting None (Return None false false)
| ws_canton_pause : done = true -> worker_step cfg handlers sources done CantonProcessorLoop Pausing None (Return None false false)
(* Start of the other processor, once *)
| ws_ethereum : worker_step cfg handlers sources done EthereumProcessor Starting (feeds EthereumProcessor) (Continue Selecting)
| ws_ethereum_event : worker_step cfg handlers sources done EthereumProcessor Busy None (Continue Selecting)
| ws_ethereum_ended : source_closed EthereumProcessor sources done ->
    worker_step cfg handlers sources done EthereumProcessor Selecting None (Return None false false)
| ws_ethereum_done : done = true -> worker_step cfg handlers sources done EthereumProcessor Selecting None (Return None false false)
(* ServeAndWait: the context is done or the server has failed, then Shutdown, which
   returns nil only when no request is in flight *)
| ws_serve w : w ∈ servers -> worker_step cfg handlers sources done w Starting None (Continue Selecting)
| ws_serve_done w : w ∈ servers -> done = true -> worker_step cfg handlers sources done w Selecting None (Continue (Stopping CtxDone))
| ws_serve_failed w e : w ∈ servers -> worker_step cfg handlers sources done w Selecting None (Continue (Stopping (ServerExited (Some e))))
| ws_shutdown w ev shutdown : w ∈ servers -> (w = HttpServer -> shutdown = None -> handlers = 0%nat) ->
    worker_step cfg handlers sources done w (Stopping ev) None
      (Return (ServeAndWait true (Some cfg) ev shutdown) (bool_decide (is_Some (ServeAndWait true (Some cfg) ev shutdown)))
         (bool_decide (w = HttpServer) && bool_decide (is_Some shutdown))).

(** What an event from outside starts: a tick, a batch or an event at a select,
    and the end of a pause. *)
Definition wakes (w : worker) (st : wstate) : option wstate :=
  match st with
  | Selecting => if bool_decide (w ∈ servers) then None else Some Busy
  | Pausing => match w with IndexProcessor => Some Busy | CantonProcessorLoop => Some Starting | _ => None end
  | _ => None
  end.

(** ** The state of a process *)

Inductive deferred := Close (r : resource) | StopEngine.

(** Run is at its remaining actions, waits for the group (with the error that
    made it give up), unwinds its deferred calls, or has returned. *)
Inductive phase :=
| Running (acts : list action)
| Waiting (failure : option error)
| Unwinding (ret : option error)
| Exited (ret : option error).

Record Process := mkProcess {
  p_phase : phase;
  p_defers : list deferred;
  p_leaked : list resource;         (* connections that a failed constructor left open *)
  p_grouped : bool;                 (* the group exists *)
  p_group : list task;              (* its functions that have not returned *)
  p_groupErr : option error;        (* the first error of the group *)
  p_engine : list task;             (* the engine's goroutines that have not returned *)
  p_sources : list source;          (* the goroutines of the sources that have not ended *)
  p_ctx : bool;                     (* the signal context is done *)
  p_gctx : bool;                    (* the group's context is done *)
  p_ectx : bool;                    (* the engine's context is done *)
  p_handlers : nat;                 (* requests in flight *)
  p_timedOut : bool;                (* a shutdown gave up on requests in flight *)
  p_fault : bool;                   (* a start-up step, a server or the processor failed *)
}.

Definition launch (acts : list action) : Process :=
  mkProcess (Running acts) [] [] false [] None [] [] false false false 0 false false.

Definition opened (ds : list deferred) : list resource := omap (fun d => match d with Close r => Some r | StopEngine => None end) ds.

(** The context that a source runs with. *)
Definition source_done (s : source) (p : Process) : bool := match s with LedgerStream => p_gctx p | _ => p_ectx p end.

(** ** Steps *)

(** A step that fails before the group exists returns; afterwards it cancels
    the context and waits for the group first. *)
Definition fail_run (e : error) (leaked : list resource) (p : Process) : Process :=
  if p_grouped p then
    mkProcess (Waiting (Some e)) (p_defers p) (leaked ++ p_leaked p) true (p_group p) (p_groupErr p) (p_engine p) (p_sources p)
      true true true (p_handlers p) (p_timedOut p) true
  else
    mkProcess (Unwinding (Some e)) (p_defers p) (leaked ++ p_leaked p) false (p_group p) (p_groupErr p) (p_engine p) (p_sources p)
      (p_ctx p) (p_gctx p) (p_ectx p) (p_handlers p) (p_timedOut p) true.

Definition set_phase (ph : phase) (p : Process) : Process :=
  mkProcess ph (p_defers p) (p_leaked p) (p_grouped p) (p_group p) (p_groupErr p) (p_engine p) (p_sources p) (p_ctx p) (p_gctx p) (p_ectx p) (p_handlers p) (p_timedOut p) (p_fault p).
Definition set_defers (ds : list deferred) (p : Process) : Process :=
  mkProcess (p_phase p) ds (p_leaked p) (p_grouped p) (p_group p) (p_groupErr p) (p_engine p) (p_sources p) (p_ctx p) (p_gctx p) (p_ectx p) (p_handlers p) (p_timedOut p) (p_fault p).
Definition set_engine (ts : list task) (p : Process) : Process :=
  mkProcess (p_phase p) (p_defers p) (p_leaked p) (p_grouped p) (p_group p) (p_groupErr p) ts (p_sources p) (p_ctx p) (p_gctx p) (p_ectx p) (p_handlers p) (p_timedOut p) (p_fault p).
Definition set_group (ts : list task) (p : Process) : Process :=
  mkProcess (p_phase p) (p_defers p) (p_leaked p) (p_grouped p) ts (p_groupErr p) (p_engine p) (p_sources p) (p_ctx p) (p_gctx p) (p_ectx p) (p_handlers p) (p_timedOut p) (p_fault p).
Definition set_sources (ss : list source) (p : Process) : Process :=
  mkProcess (p_phase p) (p_defers p) (p_leaked p) (p_grouped p) (p_group p) (p_groupErr p) (p_engine p) ss (p_ctx p) (p_gctx p) (p_ectx p) (p_handlers p) (p_timedOut p) (p_fault p).
Definition set_handlers (n : nat) (p : Process) : Process :=
  mkProcess (p_phase p) (p_defers p) (p_leaked p) (p_grouped p) (p_group p) (p_groupErr p) (p_engine p) (p_sources p) (p_ctx p) (p_gctx p) (p_ectx p) n (p_timedOut p) (p_fault p).
(** errgroup.WithContext *)
Definition new_group (p : Process) : Process :=
  mkProcess (p_phase p) (p_defers p) (p_leaked p) true (p_group p) (p_groupErr p) (p_engine p) (p_sources p) (p_ctx p) (p_ctx p) (p_ectx p) (p_handlers p) (p_timedOut p) (p_fault p).
(** Wait cancels the context of the group when it returns. *)
Definition cancel_group (p : Process) : Process :=
  mkProcess (p_phase p) (p_defers p) (p_leaked p) (p_grouped p) (p_group p) (p_groupErr p) (p_engine p) (p_sources p) (p_ctx p) true (p_ectx p) (p_handlers p) (p_timedOut p) (p_fault p).
(** The signal context is canceled, and the contexts derived from it. *)
Definition cancel_ctx (p : Process) : Process :=
  mkProcess (p_phase p) (p_defers p) (p_leaked p) (p_grouped p) (p_group p) (p_groupErr p) (p_engine p) (p_sources p) true true true (p_handlers p) (p_timedOut p) (p_fault p).
(** Stop cancels the engine's context. *)
Definition cancel_engine (p : Process) : Process :=
  mkProcess (p_phase p) (p_defers p) (p_leaked p) (p_grouped p) (p_group p) (p_groupErr p) (p_engine p) (p_sources p) (p_ctx p) (p_gctx p) true (p_handlers p) (p_timedOut p) (p_fault p).
(** A function of the group has returned: the first error cancels the context. *)
Definition group_return (ts : list task) (r : option error) (fault timedOut : bool) (p : Process) : Process :=
  mkProcess (p_phase p) (p_defers p) (p_leaked p) (p_grouped p) ts (match p_groupErr p with Some e => Some e | None => r end) (p_engine p) (p_sources p) (p_ctx p) (p_gctx p || bool_decide (is_Some r)) (p_ectx p) (p_handlers p) (p_timedOut p || timedOut) (p_fault p || fault).
(** A step of a function of the group, and of a goroutine of the engine, whose result
    is logged only. *)
Definition with_source (src : option source) (p : Process) : Process :=
  set_sources (match src with Some s => s :: p_sources p | None => p_sources p end) p.
Definition group_move (ts1 : list task) (w : worker) (ts2 : list task) (src : option source) (out : outcome) (p : Process) : Process :=
  match out with
  | Continue st => with_source src (set_group (ts1 ++ (w, st) :: ts2) p)
  | Return r fault timedOut => group_return (ts1 ++ ts2) r fault timedOut p
  end.
Definition engine_move (ts1 : list task) (w : worker) (ts2 : list task) (src : option source) (out : outcome) (p : Process) : Process :=
  match out with
  | Continue st => with_source src (set_engine (ts1 ++ (w, st) :: ts2) p)
  | Return _ _ _ => set_engine (ts1 ++ ts2) p
  end.

Section steps.
Variable cfg : ServeConfig.

(** The steps of Run, of the goroutines and of the handlers. *)
Inductive process_step (p : Process) : Process -> Prop :=
| st_attempt what acts : p_phase p = Running (Attempt what :: acts) -> process_step p (set_phase (Running acts) p)
| st_attempt_failed what acts e : p_phase p = Running (Attempt what :: acts) -> process_step p (fail_run e [] p)
| st_open r leaky acts : p_phase p = Running (Open r leaky :: acts) ->
    process_step p (set_phase (Running acts) (set_defers (Close r :: p_defers p) p))
| st_open_failed r leaky acts e : p_phase p = Running (Open r leaky :: acts) -> process_step p (fail_run e [] p)
| st_open_leaked r acts e : p_phase p = Running (Open r true :: acts) -> process_step p (fail_run e [r] p)
| st_engine acts : p_phase p = Running (StartEngine :: acts) ->
    process_step p (set_phase (Running acts) (set_engine ((., Starting) <$> engine_workers) (set_defers (StopEngine :: p_defers p) p)))
| st_engine_failed acts e : p_phase p = Running (StartEngine :: acts) -> process_step p (fail_run e [] p)
| st_group acts : p_phase p = Running (NewGroup :: acts) -> process_step p (set_phase (Running acts) (new_group p))
| st_go w acts : p_phase p = Running (Go w :: acts) ->
    process_step p (set_phase (Running acts) (set_group (p_group p ++ [(w, Starting)]) p))
| st_wait acts : p_phase p = Running (Wait :: acts) -> process_step p (set_phase (Waiting None) p)
| st_joined failure : p_phase p = Waiting failure -> p_group p = [] ->
    process_step p (set_phase (Unwinding (match failure with Some e => Some e | None => p_groupErr p end)) (cancel_group p))
| st_close ret r ds : p_phase p = Unwinding ret -> p_defers p = Close r :: ds -> process_step p (set_defers ds p)
| st_stop ret ds : p_phase p = Unwinding ret -> p_defers p = StopEngine :: ds -> p_ectx p = false -> process_step p (cancel_engine p)
| st_stopped ret ds : p_phase p = Unwinding ret -> p_defers p = StopEngine :: ds -> p_ectx p = true -> p_engine p = [] -> process_step p (set_defers ds p)
| st_exit ret : p_phase p = Unwinding ret -> p_defers p = [] -> process_step p (set_phase (Exited ret) p)
| st_task ts1 w st ts2 src out : p_group p = ts1 ++ (w, st) :: ts2 ->
    worker_step cfg (p_handlers p) (p_sources p) (p_gctx p) w st src out ->
    process_step p (group_move ts1 w ts2 src out p)
| st_engine_task ts1 w st ts2 src out : p_engine p = ts1 ++ (w, st) :: ts2 ->
    worker_step cfg (p_handlers p) (p_sources p) (p_ectx p) w st src out ->
    process_step p (engine_move ts1 w ts2 src out p)
| st_source_end ss1 s ss2 : p_sources p = ss1 ++ s :: ss2 -> process_step p (set_sources (ss1 ++ ss2) p)
| st_handled n : p_handlers p = S n -> process_step p (set_handlers n p).

(** What comes from outside: a signal, a request while the server serves, and
    what wakes a goroutine. *)
Inductive event (p : Process) : Process -> Prop :=
| ev_signal : p_ctx p = false -> event p (cancel_ctx p)
| ev_request : (HttpServer, Selecting) ∈ p_group p -> event p (set_handlers (S (p_handlers p)) p)
| ev_wake ts1 w st ts2 st' : p_group p = ts1 ++ (w, st) :: ts2 -> wakes w st = Some st' ->
    event p (set_group (ts1 ++ (w, st') :: ts2) p)
| ev_engine_wake ts1 w st ts2 st' : p_engine p = ts1 ++ (w, st) :: ts2 -> wakes w st = Some st' ->
    event p (set_engine (ts1 ++ (w, st') :: ts2) p).

Definition moves (p p' : Process) : Prop := process_step p p' \/ event p p'.
Definition reachable (acts : list action) (p : Process) : Prop := rtc moves (launch acts) p.

(** A run with [n] steps and [k] events. *)
Inductive interleaved : nat -> nat -> Process -> Process -> Prop :=
| il_done p : interleaved 0 0 p p
| il_step n k p q p' : process_step p q -> interleaved n k q p' -> interleaved (S n) k p p'
| il_event n k p q p' : event p q -> interleaved n k q p' -> interleaved n (S k) p p'.
End steps.

(** ** Programs that keep their resources *)

(** Connections and the engine are opened before the group exists, no
    connection twice; a goroutine starts only with the connections it uses
    open; the group is waited for at the end. *)
Fixpoint scoped (acts : list action) (ds : list deferred) (grouped : bool) : bool :=
  match acts with
  | [] => false
  | Attempt _ :: acts => scoped acts ds grouped
  | Open r _ :: acts => negb grouped && bool_decide (r ∉ opened ds) && scoped acts (Close r :: ds) grouped
  | StartEngine :: acts =>
      negb grouped && forallb (fun w => bool_decide (needs w ⊆ opened ds)) engine_workers && scoped acts (StopEngine :: ds) grouped
  | NewGroup :: acts => negb grouped && scoped acts ds true
  | Go w :: acts =>
      grouped && bool_decide (w ∉ engine_workers) && bool_decide (needs w ⊆ opened ds) && scoped acts ds grouped
  | Wait :: acts => grouped && bool_decide (acts = [])
  end.

Lemma runs_scoped c : scoped (api_run c) [] false = true /\ scoped (indexer_run c) [] false = true /\ scoped (relayer_run c) [] false = true.
Proof. destruct c as [[] [] []]; vm_compute; auto. Qed.

(** Decide a membership. *)
Ltac in_list := refine (bool_decide_unpack _ _); vm_compute; exact I.

Ltac not_in_list H := exfalso; revert H; match goal with |- ?P -> False => refine (bool_decide_unpack (~ P) _) end; vm_compute; exact I.

Lemma elem_middle {A} (x y : A) l1 l2 : x ∈ l1 ++ l2 -> x ∈ l1 ++ y :: l2.
Proof. rewrite !elem_of_app, elem_of_cons. tauto. Qed.

Lemma elem_replace {A} (t x y : A) l1 l2 : t ∈ l1 ++ x :: l2 -> t = x \/ t ∈ l1 ++ y :: l2.
Proof. rewrite !elem_of_app, !elem_of_cons. tauto. Qed.

Lemma elem_mid {A} (x : A) l1 l2 : x ∈ l1 ++ x :: l2.
Proof. rewrite elem_of_app, elem_of_cons. auto. Qed.

Section safety.
Variable cfg : ServeConfig.
Local Abbreviation process_step := (process_step cfg).
Local Abbreviation moves := (moves cfg).
Local Abbreviation reachable := (reachable cfg).

(** Where Run is, and what that says of the rest: Wait has canceled the context
    of the group before anything is closed. *)
Definition phase_ok (p : Process) : Prop :=
  match p_phase p with
  | Running acts => scoped acts (p_defers p) (p_grouped p) = true
  | Waiting _ => p_grouped p = true
  | Unwinding _ => p_group p = [] /\ (p_grouped p = true -> p_gctx p = true)
  | Exited _ => p_group p = [] /\ p_engine p = [] /\ p_defers p = []
  end.

(** Connections below the deferred Stop. *)
Definition below_stop (p : Process) (rs : list resource) : Prop :=
  exists pre post, p_defers p = pre ++ StopEngine :: post /\ rs ⊆ opened post.

(** A source whose context is not done has its connection open. *)
Definition source_ok (p : Process) (s : source) : Prop :=
  match s with
  | LedgerStream => p_grouped p = true /\ (p_gctx p = true \/ CantonConn ∈ opened (p_defers p))
  | _ => p_ectx p = true \/ below_stop p [source_uses s]
  end.

Record inv (p : Process) : Prop := {
  inv_phase : phase_ok p;
  inv_group t : t ∈ p_group p -> needs t.1 ⊆ opened (p_defers p) /\ t.1 ∉ engine_workers;
  inv_engine t : t ∈ p_engine p -> below_stop p (needs t.1) /\ t.1 ∈ engine_workers;
  inv_sources s : s ∈ p_sources p -> source_ok p s;
  inv_grouped : p_grouped p = false -> p_group p = [];
  inv_handlers : (0 < p_handlers p)%nat -> (exists st, (HttpServer, st) ∈ p_group p) \/ p_timedOut p = true;
  inv_ctx : p_ctx p = true -> p_gctx p = true /\ p_ectx p = true;
}.

Lemma inv_launch acts : scoped acts [] false = true -> inv (launch acts).
Proof. intros Hs. split; cbn; try done; try (intros ? H; by apply not_elem_of_nil in H). lia. Qed.

Lemma opened_app pre post : opened (pre ++ post) = opened pre ++ opened post.
Proof. apply omap_app. Qed.

Lemma below_stop_opened p rs : below_stop p rs -> rs ⊆ opened (p_defers p).
Proof. intros (pre & post & -> & Hr). rewrite opened_app. set_solver. Qed.

Lemma below_stop_push p q d rs : p_defers q = d :: p_defers p -> below_stop p rs -> below_stop q rs.
Proof. unfold below_stop. intros -> (pre & post & -> & Hr). by exists (d :: pre), post. Qed.

Lemma below_stop_pop p q r ds rs : p_defers p = Close r :: ds -> p_defers q = ds -> below_stop p rs -> below_stop q rs.
Proof. unfold below_stop. intros Hp -> (pre & post & Heq & Hr). rewrite Hp in Heq. destruct pre as [|d pre]; [done|]. injection Heq as _ ->. by exists pre, post. Qed.

(** A step that keeps the stack and cancels nothing keeps what is open. *)
Lemma source_ok_same p q s :
  p_defers q = p_defers p -> p_grouped q = p_grouped p -> (p_gctx p = true -> p_gctx q = true) -> (p_ectx p = true -> p_ectx q = true) ->
  source_ok p s -> source_ok q s.
Proof. intros Hd Hg Hc He. unfold source_ok, below_stop. rewrite Hd, Hg. destruct s; naive_solver. Qed.

Lemma inv_fail_run e leaked p : inv p -> inv (fail_run e leaked p).
Proof.
  intros [Hph Hgr He Hs Hgd Hh Hc]. unfold fail_run. destruct (p_grouped p) eqn:Hgr'; split; cbn; auto; unfold phase_ok; cbn; auto.
  - intros s Hin. eapply source_ok_same; [..|exact (Hs s Hin)]; auto.
  - split; [auto|done].
  - intros s Hin. eapply source_ok_same; [..|exact (Hs s Hin)]; auto.
Qed.

(** A source is started by the processor that it feeds. *)
Lemma started_source handlers sources done w st s out : worker_step cfg handlers sources done w st (Some s) out -> feeds w = Some s.
Proof. by inversion 1. Qed.

Lemma needs_source w s : feeds w = Some s -> source_uses s ∈ needs w.
Proof. intros Hf. unfold needs. rewrite Hf. set_solver. Qed.

Lemma http_returns n ss done w st src r fault timedOut :
  worker_step cfg n ss done w st src (Return r fault timedOut) -> w = HttpServer -> n = 0%nat \/ timedOut = true.
Proof.
  inversion 1; intros Hh; try discriminate; subst;
    try match goal with Hin : _ ∈ ticker_loops |- _ => not_in_list Hin end.
  destruct shutdown; [by right|left; auto].
Qed.

Lemma inv_task ts1 w st ts2 src out p :
  p_group p = ts1 ++ (w, st) :: ts2 -> worker_step cfg (p_handlers p) (p_sources p) (p_gctx p) w st src out ->
  inv p -> inv (group_move ts1 w ts2 src out p).
Proof.
  intros Hw Hstep [Hph Hgr He Hs Hgd Hh Hc].
  assert (needs w ⊆ opened (p_defers p) /\ w ∉ engine_workers) as [Hn Hne] by (apply (Hgr (w, st)); rewrite Hw; apply elem_mid).
  assert (p_grouped p = true) as Hgd' by (destruct (p_grouped p); [done|]; rewrite Hgd in Hw by done; by destruct ts1).
  destruct out as [st'|r fl tmo]; cbn [group_move].
  - split; cbn; auto.
    + unfold phase_ok in *. cbn. destruct (p_phase p); auto; destruct Hph as [Hph _]; rewrite Hw in Hph; by destruct ts1.
    + intros t [->|Ht]%(elem_replace _ _ (w, st)); [done|]. apply Hgr. by rewrite Hw.
    + intros s Hin. assert (s ∈ p_sources p \/ src = Some s) as [Hold| ->] by (destruct src; set_solver).
      * eapply source_ok_same; [..|exact (Hs s Hold)]; auto.
      * pose proof (started_source _ _ _ _ _ _ _ Hstep) as Hf. pose proof (needs_source _ _ Hf) as Hu.
        destruct w; try discriminate Hf; injection Hf as <-; [|exfalso; apply Hne; in_list..]. split; [done|right; by apply Hn].
    + intros Hf. congruence.
    + intros Hpos. destruct (Hh Hpos) as [[st0 Hin]|Ht]; [left|by right]. rewrite Hw in Hin.
      apply elem_of_app in Hin as [Hin|[[= -> ->]|Hin]%elem_of_cons]; eexists; rewrite elem_of_app, elem_of_cons; eauto.
  - split; cbn; auto.
    + unfold phase_ok in *. cbn. destruct (p_phase p); auto; destruct Hph as [Hph _]; rewrite Hw in Hph; by destruct ts1.
    + intros t Ht. apply Hgr. rewrite Hw. by apply elem_middle.
    + intros s Hin. eapply source_ok_same; [..|exact (Hs s Hin)]; cbn; auto. by intros ->.
    + intros Hf. congruence.
    + intros Hpos. destruct (Hh Hpos) as [[st0 Hin]|Ht]; [|right; by rewrite Ht].
      destruct (decide (w = HttpServer)) as [Heq|Hdiff].
      * right. destruct (http_returns _ _ _ _ _ _ _ _ _ Hstep Heq) as [Hz| ->]; [lia|by rewrite orb_true_r].
      * left. exists st0. rewrite Hw in Hin. apply elem_of_app in Hin as [Hin|[[= <- <-]|Hin]%elem_of_cons]; [|done|]; rewrite elem_of_app; auto.
    + intros Hctx. destruct (Hc Hctx) as [-> ->]. done.
Qed.

Lemma inv_engine_task ts1 w st ts2 src out p :
  p_engine p = ts1 ++ (w, st) :: ts2 -> worker_step cfg (p_handlers p) (p_sources p) (p_ectx p) w st src out ->
  inv p -> inv (engine_move ts1 w ts2 src out p).
Proof.
  intros Hw Hstep [Hph Hgr He Hs Hgd Hh Hc].
  assert (below_stop p (needs w) /\ w ∈ engine_workers) as [Hn Hne] by (apply (He (w, st)); rewrite Hw; apply elem_mid).
  assert (forall q, p_phase q = p_phase p -> p_defers q = p_defers p -> p_grouped q = p_grouped p -> p_group q = p_group p -> p_gctx q = p_gctx p -> phase_ok q) as Hph'.
  { intros q E1 E2 E3 E4 E5. unfold phase_ok in *. rewrite E1, E2, E3, E4, E5. destruct (p_phase p); auto.
    destruct Hph as (_ & Hn' & _). rewrite Hn' in Hw. by destruct ts1. }
  destruct out as [st'|r fl tmo]; cbn [engine_move]; split; cbn; auto.
  - intros t [->|Ht]%(elem_replace _ _ (w, st)); [done|]. apply He. by rewrite Hw.
  - intros s Hin. assert (s ∈ p_sources p \/ src = Some s) as [Hold| ->] by (destruct src; set_solver).
    + eapply source_ok_same; [..|exact (Hs s Hold)]; auto.
    + pose proof (started_source _ _ _ _ _ _ _ Hstep) as Hf. pose proof (needs_source _ _ Hf) as Hu.
      assert (below_stop p [source_uses s]) as Hb by (destruct Hn as (pre & post & Hd & Hi); exists pre, post; split; [done|set_solver]).
      destruct w; try discriminate Hf; injection Hf as <-; [not_in_list Hne|right; exact Hb..].
  - intros t Ht. apply He. rewrite Hw. by apply elem_middle.
Qed.

Lemma inv_step p p' : process_step p p' -> inv p -> inv p'.
Proof.
  intros Hs Hi. pose proof Hi as [Hph Hgr He Hso Hgd Hh Hc]. unfold phase_ok in Hph.
  destruct Hs as [what acts E|what acts e E|r l acts E|r l acts e E|r acts e E|acts E|acts e E|acts E|w acts E|acts E|f E Hj|ret r ds E Hd|ret ds E Hd Hx|ret ds E Hd Hx Hn|ret E Hd
    |ts1 w st ts2 src out E Hr|ts1 w st ts2 src out E Hr|ss1 s ss2 E|n E];
    rewrite ?E in Hph; cbn -[forallb] in Hph; try (by apply inv_fail_run); try (by eapply inv_task); try (by eapply inv_engine_task).
  - split; auto.
  - apply andb_true_iff in Hph as [[Hng Hr]%andb_true_iff Hph]. apply negb_true_iff in Hng.
    assert (p_group p = []) as Hnil by auto. split; cbn; auto.
    + intros t Ht. rewrite Hnil in Ht; by apply not_elem_of_nil in Ht.
    + intros t Ht. destruct (He t Ht) as [Hb Hin]. split; [by eapply below_stop_push|done].
    + intros s Hin. specialize (Hso s Hin). destruct s; cbn in *; [destruct Hso; congruence|destruct Hso as [Hso|Hso]; [by left|right; by eapply below_stop_push]..].
  - apply andb_true_iff in Hph as [[Hng Hu]%andb_true_iff Hph]. apply negb_true_iff in Hng.
    assert (p_group p = []) as Hnil by auto. split; cbn -[engine_workers]; auto.
    + intros t (w & -> & Hw)%list_elem_of_fmap. cbn. split; [|done]. exists [], (p_defers p). split; [done|].
      rewrite forallb_forall in Hu. apply list_elem_of_In in Hw. exact (bool_decide_eq_true_1 _ (Hu w Hw)).
    + intros s Hin. specialize (Hso s Hin). destruct s; cbn in *; [destruct Hso; congruence|destruct Hso as [Hso|Hso]; [by left|right; by eapply below_stop_push]..].
  - apply andb_true_iff in Hph as [Hng Hph]. apply negb_true_iff in Hng. split; cbn; auto.
    + intros s Hin. specialize (Hso s Hin). destruct s; cbn in *; [destruct Hso; congruence|done..].
    + intros Hctx. destruct (Hc Hctx). auto.
  - apply andb_true_iff in Hph as [[[Hg Hw]%andb_true_iff Hu]%andb_true_iff Hph]. apply bool_decide_eq_true in Hw, Hu. split; cbn; auto.
    + intros t [Ht|Ht]%elem_of_app; [auto|]. apply list_elem_of_singleton in Ht as ->. by cbn [fst]; split.
    + intros Hn. by rewrite Hg in Hn.
    + intros Hpos. destruct (Hh Hpos) as [[st Hin]|]; [left; exists st; apply elem_of_app; by left|auto].
  - apply andb_true_iff in Hph as [Hg _]. split; auto.
  - split; cbn; auto.
    + intros s Hin. eapply source_ok_same; [..|exact (Hso s Hin)]; auto.
    + intros Hctx. destruct (Hc Hctx). auto.
  - destruct Hph as [Hnil Hg]. split; cbn; auto.
    + unfold phase_ok. cbn. rewrite E. auto.
    + intros t Ht. rewrite Hnil in Ht; by apply not_elem_of_nil in Ht.
    + intros t Ht. destruct (He t Ht) as [Hb Hin]. split; [by eapply below_stop_pop|done].
    + intros s Hin. specialize (Hso s Hin). destruct s; cbn in *; [destruct Hso; auto|destruct Hso as [Hso|Hso]; [by left|right; by eapply below_stop_pop]..].
  - split; cbn; auto; [unfold phase_ok; cbn; by rewrite E| |].
    + intros s Hin. eapply source_ok_same; [..|exact (Hso s Hin)]; auto.
    + intros Hctx. destruct (Hc Hctx). auto.
  - destruct Hph as [Hnil Hg]. split; cbn; auto.
    + unfold phase_ok; cbn; by rewrite E.
    + intros t Ht. rewrite Hnil in Ht; by apply not_elem_of_nil in Ht.
    + intros t Ht. rewrite Hn in Ht; by apply not_elem_of_nil in Ht.
    + intros s Hin. specialize (Hso s Hin). destruct s; cbn in *; [destruct Hso; auto|by left..].
  - destruct Hph as [Hnil Hg]. split; cbn; auto. unfold phase_ok. cbn. split_and!; [done| |done].
    destruct (p_engine p) as [|t ts]; [done|]. destruct (He t) as [(pre & post & Hdp & _) _]; [constructor|]. rewrite Hd in Hdp. by destruct pre.
  - split; cbn; auto. intros s' Hin. eapply source_ok_same; [..|apply Hso; rewrite E; by apply elem_middle]; auto.
  - split; cbn; auto. intros Hpos. apply Hh. lia.
Qed.

Lemma wakes_nonserver w st st' : wakes w st = Some st' -> w <> HttpServer.
Proof. intros Hw ->. by destruct st. Qed.

Lemma inv_event p p' : event p p' -> inv p -> inv p'.
Proof.
  intros Hev [Hph Hgr He Hso Hgd Hh Hc]. destruct Hev as [Hctx|Hin|ts1 w st ts2 st' E Hw|ts1 w st ts2 st' E Hw].
  - split; cbn; auto.
    + unfold phase_ok in *. cbn. destruct (p_phase p); auto. destruct Hph; auto.
    + intros s Hin. eapply source_ok_same; [..|exact (Hso s Hin)]; auto.
  - split; cbn; auto. eauto.
  - split; cbn; auto.
    + unfold phase_ok in *. cbn. destruct (p_phase p); auto; destruct Hph as [Hph _]; rewrite Hph in E; by destruct ts1.
    + intros t [->|Ht]%(elem_replace _ _ (w, st)); [apply (Hgr (w, st)); rewrite E; apply elem_mid|]. apply Hgr. by rewrite E.
    + intros Hn. rewrite (Hgd Hn) in E. by destruct ts1.
    + intros Hpos. destruct (Hh Hpos) as [[st0 Hin]|Ht]; [left; exists st0|by right]. rewrite E in Hin.
      apply elem_of_app in Hin as [Hin|[[= <- <-]|Hin]%elem_of_cons]; [rewrite elem_of_app; auto|by apply wakes_nonserver in Hw|rewrite elem_of_app, elem_of_cons; auto].
  - split; cbn; auto.
    + unfold phase_ok in *. cbn. destruct (p_phase p); auto. destruct Hph as (_ & Hn & _). rewrite Hn in E. by destruct ts1.
    + intros t [->|Ht]%(elem_replace _ _ (w, st)); [apply (He (w, st)); rewrite E; apply elem_mid|]. apply He. by rewrite E.
Qed.

Lemma inv_moves p p' : moves p p' -> inv p -> inv p'.
Proof. intros [Hs|Hev]; [by apply inv_step|by apply inv_event]. Qed.

Lemma process_reachable_inv acts p : scoped acts [] false = true -> reachable acts p -> inv p.
Proof.
  intros Hs. refine (rtc_ind_r inv _ _ _ p); [by apply inv_launch|]. intros q q' _ Hm. by apply inv_moves.
Qed.

(** ** Shutdown *)

Definition wstate_weight (st : wstate) : nat :=
  match st with Starting => 5 | Busy => 4 | Selecting => 3 | Pausing => 2 | Stopping _ => 1 end.
Definition tasks_weight (ts : list task) : nat := sum_list_with (fun t => wstate_weight t.2) ts.

Definition action_weight (a : action) : nat :=
  match a with Attempt _ | NewGroup | Wait => 1 | Open _ _ => 2 | Go _ => 6 | StartEngine => 22 end.
Definition phase_weight (ph : phase) : nat :=
  match ph with
  | Running acts => 3 + sum_list_with action_weight acts
  | Waiting _ => 2
  | Unwinding _ => 1
  | Exited _ => 0
  end.

(** What is left to do, counted in steps. *)
Definition work_left (p : Process) : nat :=
  phase_weight (p_phase p) + length (p_defers p) + (if p_ectx p then 0 else 1) + tasks_weight (p_group p) + tasks_weight (p_engine p) +
  length (p_sources p) + p_handlers p.

#[local] Arguments phase_weight !ph /.
#[local] Arguments wstate_weight !st /.
#[local] Arguments tasks_weight : simpl never.

Lemma tasks_weight_app ts1 ts2 : tasks_weight (ts1 ++ ts2) = (tasks_weight ts1 + tasks_weight ts2)%nat.
Proof. apply sum_list_with_app. Qed.

Lemma tasks_weight_mid ts1 t ts2 : tasks_weight (ts1 ++ t :: ts2) = (tasks_weight (ts1 ++ ts2) + wstate_weight t.2)%nat.
Proof. rewrite !tasks_weight_app. unfold tasks_weight. cbn. lia. Qed.

(** A step of a goroutine brings it closer to its end, with the source it starts. *)
Lemma worker_step_work handlers sources done w st src out : worker_step cfg handlers sources done w st src out ->
  (match out with Continue st' => wstate_weight st' | Return _ _ _ => 0 end + (if src then 1 else 0) < wstate_weight st)%nat.
Proof. destruct 1; cbn; lia. Qed.

Lemma started_work src p : work_left (with_source src p) = (work_left p + if src then 1 else 0)%nat.
Proof. unfold work_left, with_source. destruct src; cbn -[phase_weight tasks_weight Nat.add]; lia. Qed.

Lemma step_work p p' : process_step p p' -> (work_left p' < work_left p)%nat.
Proof.
  assert (forall e l, (phase_weight (p_phase p) >= 4 -> work_left (fail_run e l p) < work_left p)%nat) as Hg.
  { intros e l. unfold fail_run, work_left. destruct (p_grouped p); cbn; destruct (p_ectx p); lia. }
  intros [what acts E|what acts e E|r l acts E|r l acts e E|r acts e E|acts E|acts e E|acts E|w acts E|acts E|f E Hj|ret r ds E Hd|ret ds E Hd Hx|ret ds E Hd Hx Hn|ret E Hd
    |ts1 w st ts2 src out E Hr|ts1 w st ts2 src out E Hr|ss1 s ss2 E|n E];
    try (apply Hg; rewrite E; cbn; lia); clear Hg.
  12-13: apply worker_step_work in Hr; destruct out as [st'|r fl tmo]; cbn [group_move engine_move]; rewrite ?started_work;
    unfold work_left; cbn; rewrite E, !tasks_weight_mid; cbn; lia.
  all: unfold work_left; cbn; try rewrite E; try rewrite Hd; try rewrite Hx; rewrite ?length_app, ?tasks_weight_app; unfold tasks_weight; cbn; lia.
Qed.

(** An event adds the work that it starts. *)
Lemma event_work p p' : event p p' -> (work_left p' <= work_left p + 3)%nat.
Proof.
  assert (forall w st st', wakes w st = Some st' -> (wstate_weight st' <= wstate_weight st + 3)%nat) as Hw.
  { intros w st st'. destruct st; cbn; try done; [case_bool_decide; [done|]; intros [= <-]; cbn; lia|]. destruct w; intros [= <-]; cbn; lia. }
  intros [Hctx|Hin|ts1 w st ts2 st' E Hk|ts1 w st ts2 st' E Hk]; unfold work_left; cbn; [destruct (p_ectx p); lia|lia| |];
    apply Hw in Hk; rewrite E, !tasks_weight_mid; cbn; lia.
Qed.

Lemma interleaved_work n k p p' : interleaved cfg n k p p' -> (n + work_left p' <= work_left p + 3 * k)%nat.
Proof. induction 1 as [|n k p q p' Hs _ IH|n k p q p' He _ IH]; [lia|apply step_work in Hs; lia|apply event_work in He; lia]. Qed.

Lemma step_ctx p p' : moves p p' -> p_ctx p = true -> p_ctx p' = true.
Proof.
  assert (forall e l, p_ctx p = true -> p_ctx (fail_run e l p) = true) as Hg by (intros e l; unfold fail_run; by destruct (p_grouped p)).
  intros [[]|[]]; auto; destruct out; auto.
Qed.

(** The places that a goroutine has: only a server shuts down, only two have a pause. *)
Definition legal (t : task) : bool :=
  match t.2 with
  | Starting | Selecting => true
  | Busy => bool_decide (t.1 ∉ servers)
  | Pausing => bool_decide (t.1 = IndexProcessor \/ t.1 = CantonProcessorLoop)
  | Stopping _ => bool_decide (t.1 ∈ servers)
  end.

Definition legal_tasks (p : Process) : Prop := Forall legal (p_group p) /\ Forall legal (p_engine p).

Lemma legal_step handlers sources done w st src st' : worker_step cfg handlers sources done w st src (Continue st') -> legal (w, st').
Proof. inversion 1; subst; cbn; try done; by apply bool_decide_pack. Qed.

Lemma legal_wakes w st st' : wakes w st = Some st' -> legal (w, st').
Proof. destruct st; cbn; try done; [case_bool_decide; [done|]; intros [= <-]; by apply bool_decide_pack|]. by destruct w; intros [= <-]. Qed.

Lemma Forall_replace {A} (P : A -> Prop) l1 x y l2 : P y -> Forall P (l1 ++ x :: l2) -> Forall P (l1 ++ y :: l2).
Proof. rewrite !Forall_app, !Forall_cons. tauto. Qed.

Lemma Forall_remove {A} (P : A -> Prop) l1 x l2 : Forall P (l1 ++ x :: l2) -> Forall P (l1 ++ l2).
Proof. rewrite !Forall_app, !Forall_cons. tauto. Qed.

Lemma legal_moves p p' : moves p p' -> legal_tasks p -> legal_tasks p'.
Proof.
  intros Hm [Hg He]. assert (forall e l, legal_tasks (fail_run e l p)) as Hf by (intros e l; unfold fail_run; by destruct (p_grouped p)).
  destruct Hm as [Hs|Hev].
  - destruct Hs as [| | | | |acts E| | |w acts E| | | | | | |ts1 w st ts2 src out E Hr|ts1 w st ts2 src out E Hr| |]; auto; try (by split).
    + split; [done|]. cbn. by repeat constructor.
    + split; [|done]. cbn. apply Forall_app. split; [done|by repeat constructor].
    + rewrite E in Hg. destruct out as [st'|r fl tmo]; split; try done; cbn; [eapply Forall_replace, Hg; by eapply legal_step|by eapply Forall_remove].
    + rewrite E in He. destruct out as [st'|r fl tmo]; split; try done; cbn; [eapply Forall_replace, He; by eapply legal_step|by eapply Forall_remove].
  - destruct Hev as [| |ts1 w st ts2 st' E Hw|ts1 w st ts2 st' E Hw]; try done; split; try done; cbn.
    + rewrite E in Hg. eapply Forall_replace, Hg. by eapply legal_wakes.
    + rewrite E in He. eapply Forall_replace, He. by eapply legal_wakes.
Qed.

Lemma reachable_legal acts p : reachable acts p -> legal_tasks p.
Proof. refine (rtc_ind_r legal_tasks _ _ _ p); [split; constructor|]. intros q q' _ Hm. by apply legal_moves. Qed.

(** A goroutine whose context is done has a step to take. *)
Lemma worker_progress n ss w st : legal (w, st) -> exists src out, worker_step cfg n ss true w st src out.
Proof.
  intros Hl. destruct (decide (w ∈ ticker_loops)) as [Ht|Ht].
  { destruct st; [by eexists _, _; apply ws_loop|by eexists _, _; apply ws_loop_done|by eexists _, _; apply ws_loop_cycle|..].
    - apply bool_decide_unpack in Hl; cbn in Hl; destruct Hl as [-> | ->]; not_in_list Ht.
    - apply bool_decide_unpack in Hl. cbn in Hl. exfalso. destruct w; first [not_in_list Hl|not_in_list Ht]. }
  destruct (decide (w ∈ servers)) as [Hs|Hs].
  { destruct st; [by eexists _, _; apply ws_serve|by eexists _, _; apply ws_serve_done|..].
    - by apply bool_decide_unpack in Hl.
    - apply bool_decide_unpack in Hl; cbn in Hl; destruct Hl as [-> | ->]; not_in_list Hs.
    - eexists _, _. by apply (ws_shutdown _ _ _ _ _ _ (Some (ErrNew "timeout"))). }
  destruct w; try (exfalso; by apply Ht; in_list); try (exfalso; by apply Hs; in_list); destruct st;
    try (apply bool_decide_unpack in Hl; by destruct Hl as [Hl|Hl]); try (apply bool_decide_unpack in Hl; done); eexists _, _.
  - apply ws_offset.
  - by apply ws_ctx.
  - apply ws_stored.
  - by apply ws_batch_ctx.
  - apply ws_canton.
  - by apply ws_canton_done.
  - apply ws_canton_event.
  - by apply ws_canton_pause.
  - apply ws_ethereum.
  - by apply ws_ethereum_done.
  - apply ws_ethereum_event.
Qed.

Lemma progress p : inv p -> legal_tasks p -> p_ctx p = true -> (forall ret, p_phase p <> Exited ret) -> exists p', process_step p p'.
Proof.
  intros [Hph Hgr He Hso Hgd Hh Hc] [Hlg Hle] Hctx Hne. destruct (Hc Hctx) as [Hg Hx]. unfold phase_ok in Hph.
  destruct (p_phase p) as [acts|f|ret|ret] eqn:E.
  - destruct acts as [|[] acts]; [done|eexists..]; [by eapply st_attempt|by eapply st_open|by eapply st_engine|by eapply st_group|by eapply st_go|by eapply st_wait].
  - destruct (p_group p) as [|[w st] ts] eqn:Eg; [eexists; by eapply st_joined|]. inversion_clear Hlg as [|? ? Hl _].
    destruct (worker_progress (p_handlers p) (p_sources p) w st Hl) as (src & out & Hr).
    rewrite <- Hg in Hr. eexists. by eapply (st_task _ _ [] w st ts).
  - destruct (p_defers p) as [|[r|] ds] eqn:Ed; [eexists; by eapply st_exit|eexists; by eapply st_close|].
    destruct (p_engine p) as [|[w st] ts] eqn:Ee; [eexists; by eapply st_stopped|]. inversion_clear Hle as [|? ? Hl _].
    destruct (worker_progress (p_handlers p) (p_sources p) w st Hl) as (src & out & Hr).
    rewrite <- Hx in Hr. eexists. by eapply (st_engine_task _ _ [] w st ts).
  - by destruct (Hne ret).
Qed.
End safety.

(** The runs of the three servers. *)
Definition server_run (c : RunConfig) (acts : list action) : Prop := acts = api_run c \/ acts = indexer_run c \/ acts = relayer_run c.

Lemma server_run_scoped c acts : server_run c acts -> scoped acts [] false = true.
Proof. pose proof (runs_scoped c) as (? & ? & ?). by intros [->|[->| ->]]. Qed.

(** ** Exit status *)

(** The results of a shutdown without faults. *)
Definition blameless (acts : list action) (ret : option error) : Prop :=
  ret = None \/ Go IndexProcessor ∈ acts /\ ret = Some context_canceled.

Definition phase_result (acts : list action) (fault : bool) (ph : phase) : Prop :=
  match ph with
  | Running rest => forall a, a ∈ rest -> a ∈ acts
  | Waiting f => fault = false -> f = None
  | Unwinding ret | Exited ret => fault = false -> blameless acts ret
  end.

(** Run fails, with an error. *)
Definition failing (ph : phase) : Prop := match ph with Running _ => False | Waiting f | Unwinding f | Exited f => is_Some f end.

Record status_inv (acts : list action) (p : Process) : Prop := {
  si_group t : t ∈ p_group p -> Go t.1 ∈ acts;
  si_phase : phase_result acts (p_fault p) (p_phase p);
  si_err : p_fault p = false -> blameless acts (p_groupErr p);
  si_leaked : p_leaked p = [] \/ exists r, p_leaked p = [r] /\ Open r true ∈ acts /\ failing (p_phase p);
}.

Section status.
Variable cfg : ServeConfig.

Lemma returns_blameless n ss done w st src r timedOut acts :
  worker_step cfg n ss done w st src (Return r false timedOut) -> Go w ∈ acts -> blameless acts r.
Proof.
  inversion 1; subst; intros Hin; try (by left); try (by right). left.
  match goal with H : bool_decide (is_Some ?s) = false |- _ => by destruct s end.
Qed.

Lemma status_fail_run e l acts rest p : p_phase p = Running rest -> (l = [] \/ exists r, l = [r] /\ Open r true ∈ acts) -> status_inv acts p -> status_inv acts (fail_run e l p).
Proof.
  intros E Hl [Hg _ _ Hk]. assert (p_leaked p = []) as Hn by (rewrite E in Hk; destruct Hk as [|(r & _ & _ & [])]; done).
  unfold fail_run. destruct (p_grouped p); split; cbn; try done; rewrite Hn, app_nil_r; (destruct Hl as [->|(r & -> & Hr)]; [by left|right; eauto]).
Qed.

Lemma status_step acts p p' : process_step cfg p p' -> status_inv acts p -> status_inv acts p'.
Proof.
  intros Hs Hi. pose proof Hi as [Hg Hph He Hk].
  destruct Hs as [what rest E|what rest e E|r l rest E|r l rest e E|r rest e E|rest E|rest e E|rest E|w rest E|rest E|f E Hj|ret r ds E Hd|ret ds E Hd Hx|ret ds E Hd Hx Hn|ret E Hd
    |ts1 w st ts2 src out E Hr|ts1 w st ts2 src out E Hr|ss1 s ss2 E|n E];
    try (eapply status_fail_run; [done|by left|done]).
  3:{ eapply status_fail_run; [done|right; exists r; split; [done|]|done]. rewrite E in Hph. apply Hph. constructor. }
  all: try (rewrite E in Hph, Hk; cbn in Hph, Hk).
  1-6: assert (p_leaked p = []) as Hnk by (destruct Hk as [|(? & _ & _ & [])]; done).
  1-4: (split; cbn; auto; intros a Ha; apply Hph; by constructor).
  - split; cbn; auto.
    + intros t [Ht|Ht]%elem_of_app; [auto|]. apply list_elem_of_singleton in Ht as ->. apply Hph. by constructor.
    + intros a Ha. apply Hph. by constructor.
  - split; cbn; auto.
  - split; cbn; auto.
    + intros Hf. rewrite (Hph Hf). auto.
    + destruct Hk as [Hk|(r & Hk & Hr & [e ->])]; [by left|right; eauto].
  - split; cbn; rewrite ?E; auto.
  - split; cbn; rewrite ?E; auto.
  - split; cbn; rewrite ?E; auto.
  - split; cbn; auto.
  - destruct out as [st'|r fl tmo].
    + split; cbn; auto. intros t [->|Ht]%(elem_replace _ _ (w, st)); [apply (Hg (w, st)); rewrite E; apply elem_mid|]. apply Hg. by rewrite E.
    + split; cbn; auto.
      * intros t Ht. apply Hg. rewrite E. by apply elem_middle.
      * destruct (p_phase p); cbn in *; auto; intros [Hf _]%orb_false_iff; auto.
      * intros [Hf ->]%orb_false_iff. destruct (He Hf) as [->|[Hin ->]]; [|by right].
        eapply returns_blameless; [done|]. apply (Hg (w, st)). rewrite E. apply elem_mid.
  - destruct out; split; cbn; auto.
  - split; cbn; auto.
  - split; cbn; auto.
Qed.

Lemma reachable_status acts p : reachable cfg acts p -> status_inv acts p.
Proof.
  refine (rtc_ind_r (status_inv acts) _ _ _ p).
  - split; cbn; [intros t Ht; by apply not_elem_of_nil in Ht|auto|by left|by left].
  - intros q q' _ [Hs|Hev] Hi; [by eapply status_step|]. destruct Hi as [Hg Hph He Hk].
    destruct Hev as [Hctx|Hin|ts1 w st ts2 st' E Hw|ts1 w st ts2 st' E Hw]; split; cbn; auto.
    intros t [->|Ht]%(elem_replace _ _ (w, st)); [apply (Hg (w, st)); rewrite E; apply elem_mid|]. apply Hg. by rewrite E.
Qed.

(** An error at the end has a cause.  When no start-up step, no server and no
    read of the stored offset failed, and no shutdown timed out, Run returns
    nil; except that Run of the indexer may return the error of its canceled
    context. *)
Theorem exit_status c acts p ret : server_run c acts -> reachable cfg acts p -> p_phase p = Exited ret -> p_fault p = false ->
  ret = None \/ acts = indexer_run c /\ ret = Some context_canceled.
Proof.
  intros Hrun Hp E Hf. destruct (reachable_status _ _ Hp) as [_ Hph _ _]. rewrite E in Hph. destruct (Hph Hf) as [->|[Hin ->]]; [by left|].
  assert ((Go IndexProcessor ∉ api_run c) /\ (Go IndexProcessor ∉ relayer_run c)) as [Ha Hr] by (destruct c as [[] [] []]; split; in_list).
  by destruct Hrun as [->|[->| ->]]; [destruct Ha|right|destruct Hr].
Qed.

(** The constructors that can lose a connection. *)
Lemma leaky_opens c acts r : server_run c acts -> Open r true ∈ acts -> r ∈ [CantonConn; EthereumConn] /\ acts <> indexer_run c.
Proof.
  intros Hrun Hin. destruct r; [|split; [in_list|]..].
  - exfalso. destruct Hrun as [->|[->| ->]]; destruct c as [[] [] []]; not_in_list Hin.
  - intros ->. destruct c as [[] [] []]; not_in_list Hin.
  - intros ->. destruct c as [[] [] []]; not_in_list Hin.
Qed.
End status.

(** ** The processes *)

(** C31: No goroutine that Run waits for uses a connection after it was closed.
    In every state that one of the three servers can reach, whichever start-up
    step fails, in whatever order its goroutines move and return and whenever a
    signal arrives, the connections that the goroutines of the group and of the
    engine call are open, and those of the handlers of the requests in flight
    too unless a shutdown timed out.  A goroutine that reads a source of events
    (the ledger stream of the indexer, the withdrawal stream and the deposit
    poller of the relayer), for which nothing waits, finds its connection closed
    only once its context is done.  When Run has returned, no goroutine that it waits for
    runs and every connection whose Close it deferred is closed; one connection
    stays open when Run failed in the constructor that had dialled it, canton.New
    or ethereum.NewClient, which cannot happen in the indexer. *)
Theorem no_use_after_close cfg c acts p : server_run c acts -> reachable cfg acts p ->
  (forall w st r, (w, st) ∈ p_group p ++ p_engine p -> r ∈ uses w -> r ∈ opened (p_defers p)) /\
  ((0 < p_handlers p)%nat -> p_timedOut p = false -> forall r, r ∈ uses HttpServer -> r ∈ opened (p_defers p)) /\
  (forall s, s ∈ p_sources p -> source_done s p = false -> source_uses s ∈ opened (p_defers p)) /\
  (forall ret, p_phase p = Exited ret -> p_group p = [] /\ p_engine p = [] /\ opened (p_defers p) = [] /\
     (p_leaked p = [] \/ exists r e, p_leaked p = [r] /\ r ∈ [CantonConn; EthereumConn] /\ acts <> indexer_run c /\ ret = Some e)).
Proof.
  intros Hrun Hp. destruct (process_reachable_inv _ _ _ (server_run_scoped _ _ Hrun) Hp) as [Hph Hgr He Hso _ Hh _].
  assert (forall w r, r ∈ uses w -> r ∈ needs w) as Hu by (intros w r; unfold needs; rewrite elem_of_app; auto). split_and!.
  - intros w st r [Hw|Hw]%elem_of_app Hr; [by apply (Hgr _ Hw), Hu|]. destruct (He _ Hw) as [Hb _]. by apply (below_stop_opened _ _ Hb), Hu.
  - intros Hpos Ht r Hr. destruct (Hh Hpos) as [[st Hin]|Ht']; [by apply (Hgr _ Hin), Hu|congruence].
  - intros s Hin Hd. specialize (Hso s Hin). destruct s; cbn in *; [destruct Hso as [_ [|]]; [congruence|done]|..];
      (destruct Hso as [|Hb]; [congruence|]; apply (below_stop_opened _ _ Hb); constructor).
  - intros ret E. unfold phase_ok in Hph. rewrite E in Hph. destruct Hph as (-> & -> & ->). split_and!; [done..|].
    destruct (reachable_status _ _ _ Hp) as [_ _ _ [Hk|(r & Hk & Hopen & Hf)]]; [by left|right]. rewrite E in Hf. destruct Hf as [e ->].
    destruct (leaky_opens _ _ _ Hrun Hopen). eauto 10.
Qed.

(** C32: A signal ends the process.  Once the signal has arrived, in whatever state
    start-up, goroutines and service are, Run, the goroutines and the handlers take
    at most [work_left] steps, and three more for each tick, event, end of a
    pause or request that still comes in (a select may prefer a tick to the done
    context); and as long as Run has not returned, one of them has a step to
    take without waiting for anything from outside.  So with finitely many such
    events Run returns.  It rests on the select loops as they are: the group
    and the engine are waited for, and a loop that did not look at its context
    would have no step.  That the body of a case comes to its end, and that Shutdown ends by
    its timeout, are steps of the model: the calls made there return when their
    context is done. *)
Theorem shutdown_completes cfg c acts p : server_run c acts -> reachable cfg acts p -> p_ctx p = true ->
  (forall n k p', interleaved cfg n k p p' -> (n <= work_left p + 3 * k)%nat) /\
  (forall p', rtc (moves cfg) p p' -> (exists ret, p_phase p' = Exited ret) \/ exists p'', process_step cfg p' p'').
Proof.
  intros Hrun Hp Hctx. split; [intros n k p' Hn; apply interleaved_work in Hn; lia|]. intros p' Hms.
  assert (reachable cfg acts p') as Hp' by (unfold reachable; by etrans). assert (p_ctx p' = true) as Hctx'.
  { clear -Hms Hctx. induction Hms as [|p q p' Hm _ IH]; [done|]. apply IH. by eapply step_ctx. }
  pose proof (process_reachable_inv _ _ _ (server_run_scoped _ _ Hrun) Hp') as Hi.
  destruct (p_phase p') as [| | |ret] eqn:E; [right..|left; by exists ret];
    (eapply progress; [exact Hi|by eapply reachable_legal|done|]; intros ret'; by rewrite E).
Qed.

(** ** Scenarios *)

Section scenarios.
Variable cfg : ServeConfig.

Ltac go := eapply rtc_l; [left|].

(** Take the step of a goroutine. *)
Ltac grouped ts1 w st ts2 := go; [eapply (st_task _ _ ts1 w st ts2); [done|]|].

(** The indexer serving. *)
Definition serving_indexer : Process :=
  mkProcess (Waiting None) [Close CantonConn; Close Database] [] true [(IndexProcessor, Selecting); (HttpServer, Selecting)] None []
    [LedgerStream] false false false 0 false false.

Lemma serving_indexer_reachable : reachable cfg (indexer_run (mkRunConfig false false false)) serving_indexer.
Proof.
  unfold reachable, launch, indexer_run, registerServers. cbn [when app rc_monitoring].
  do 2 (go; [by eapply st_attempt|]). do 2 (go; [by eapply st_open|]). go; [by eapply st_attempt|]. go; [by eapply st_group|].
  do 2 (go; [by eapply st_go|]). go; [by eapply st_wait|].
  grouped (@nil task) IndexProcessor Starting [(HttpServer, Starting)]; [apply ws_offset|].
  grouped [(IndexProcessor, Selecting)] HttpServer Starting (@nil task); [apply ws_serve; in_list|]. apply rtc_refl.
Qed.

(** The signal has arrived. *)
Definition signaled_indexer : Process := cancel_ctx serving_indexer.

Lemma signaled_indexer_reachable : reachable cfg (indexer_run (mkRunConfig false false false)) signaled_indexer.
Proof. eapply rtc_r; [apply serving_indexer_reachable|]. right. by apply ev_signal. Qed.

(** A clean shutdown of the indexer is reported as a failure: after a signal,
    with nothing failing, Run can return the error of the canceled context,
    with which the process exits as after a crash.  And the ledger stream, for
    which nothing waits, can still run when its connection has been closed. *)
Theorem indexer_shutdown_reports_error : exists p,
  reachable cfg (indexer_run (mkRunConfig false false false)) p /\
  p_phase p = Exited (Some context_canceled) /\ p_fault p = false /\ p_sources p = [LedgerStream] /\ opened (p_defers p) = [].
Proof.
  eexists. split; [unfold reachable; etrans; [apply signaled_indexer_reachable|]|].
  - grouped (@nil task) IndexProcessor Selecting [(HttpServer, Selecting)]; [by apply ws_ctx|].
    grouped (@nil task) HttpServer Selecting (@nil task); [apply ws_serve_done; [in_list|done]|].
    grouped (@nil task) HttpServer (Stopping CtxDone) (@nil task); [by apply (ws_shutdown _ _ _ _ HttpServer CtxDone None); [in_list|]|].
    go; [by eapply st_joined|]. do 2 (go; [by eapply st_close|]). go; [by eapply st_exit|]. apply rtc_refl.
  - by vm_compute.
Qed.

(** A stream that the ledger ends stops the indexing and nothing else: the
    processor returns nil, which neither cancels the group nor is reported, and
    the server goes on answering requests. *)
Theorem closed_stream_stops_indexing : exists p,
  reachable cfg (indexer_run (mkRunConfig false false false)) p /\
  p_phase p = Waiting None /\ p_group p = [(HttpServer, Selecting)] /\ p_groupErr p = None /\ p_gctx p = false /\ p_fault p = false.
Proof.
  eexists. split; [unfold reachable; etrans; [apply serving_indexer_reachable|]|].
  - go; [by apply (st_source_end _ _ [] LedgerStream [])|].
    grouped (@nil task) IndexProcessor Selecting [(HttpServer, Selecting)]; [apply ws_closed; right; by intros s [= <-] ?%not_elem_of_nil|]. apply rtc_refl.
  - by vm_compute.
Qed.

(** A handler outlives the database connection when the shutdown times out: Run
    does not wait for it any longer and closes what it uses. *)
Theorem timed_out_handler_outlives_database : exists p,
  reachable cfg (indexer_run (mkRunConfig false false false)) p /\ p_handlers p = 1%nat /\ opened (p_defers p) = [].
Proof.
  eexists. split; [unfold reachable; etrans; [apply serving_indexer_reachable|]|].
  - eapply rtc_l; [right; apply ev_request; cbn; rewrite !elem_of_cons; auto|]. eapply rtc_l; [right; by apply ev_signal|].
    grouped (@nil task) IndexProcessor Selecting [(HttpServer, Selecting)]; [by apply ws_ctx|].
    grouped (@nil task) HttpServer Selecting (@nil task); [apply ws_serve_done; [in_list|done]|].
    grouped (@nil task) HttpServer (Stopping CtxDone) (@nil task);
      [by apply (ws_shutdown _ _ _ _ HttpServer CtxDone (Some (ErrNew "context deadline exceeded"))); [in_list|]|].
    go; [by eapply st_joined|]. do 2 (go; [by eapply st_close|]). apply rtc_refl.
  - by vm_compute.
Qed.

(** A relayer with a bad private key exits with the connection to the Ethereum
    node open. *)
Theorem failed_client_leaks e : exists p,
  reachable cfg (relayer_run (mkRunConfig false false false)) p /\ p_phase p = Exited (Some e) /\ p_leaked p = [EthereumConn].
Proof.
  eexists. split.
  - unfold reachable, launch, relayer_run. cbn [app].
    do 2 (go; [by eapply st_attempt|]). do 2 (go; [by eapply st_open|]). go; [by eapply (st_open_leaked _ _ _ _ e)|].
    do 2 (go; [by eapply st_close|]). go; [by eapply st_exit|]. apply rtc_refl.
  - by vm_compute.
Qed.
End scenarios.

(** ** Witnesses *)

Definition ex_serve : ServeConfig := mkServeConfig "0.0.0.0" 8080 0.

Lemma no_use_after_close_witness :
  (forall w st r, (w, st) ∈ p_group serving_indexer ++ p_engine serving_indexer -> r ∈ uses w -> r ∈ opened (p_defers serving_indexer)) /\
  (forall s, s ∈ p_sources serving_indexer -> source_done s serving_indexer = false -> source_uses s ∈ opened (p_defers serving_indexer)) /\
  p_sources serving_indexer = [LedgerStream].
Proof.
  destruct (no_use_after_close ex_serve (mkRunConfig false false false) (indexer_run (mkRunConfig false false false)) serving_indexer)
    as (Hw & _ & Hs & _); [right; left; reflexivity|apply serving_indexer_reachable|]. split; [exact Hw|]. split; [exact Hs|reflexivity].
Defined.

Lemma shutdown_completes_witness :
  work_left signaled_indexer = 11%nat /\
  (forall n k p', interleaved ex_serve n k signaled_indexer p' -> (n <= 11 + 3 * k)%nat).
Proof.
  split; [reflexivity|]. eapply (shutdown_completes ex_serve (mkRunConfig false false false));
    [right; left; reflexivity|apply signaled_indexer_reachable|reflexivity].
Defined.
